(* ===== verification/_CoqProject ===== *)
-Q . S2P
Prelude.v
Def.v
Chksum.v
Ip4Addr.v
Iface.v
Stats.v
Memp.v
Mem.v
Timeouts.v
Alloc.v
Pbuf.v
PbufChain.v
PbufClient.v
PbufData.v
PbufClone.v
Pcb.v
Netif.v
NetInv.v
Links.v
EthOut.v
Region.v
Acd.v
Autoip.v
Etharp.v
EtharpInv.v
EtharpTmr.v
EtharpRes.v
EtharpQuery.v
EtharpOut.v
EtharpIn.v
EthIn.v
Ip4Out.v
Ip4OutInv.v
Icmp.v
Udp.v
Raw.v
UdpInv.v
UdpOps.v
UdpApi.v
UdpIn.v
IcmpInv.v
IcmpEcho.v
IcmpIn.v
Received.v
UdpInput.v
UdpOut.v
RawInv.v
RawApi.v
RawInput.v
RawOut.v
Ip4.v
Ip4Inv.v
NetifAddr.v
AutoipRun.v
NetifUp.v
AppIf.v
IfInv.v
IfSafe.v
IfAdd.v
AppInv.v
NetEx.v
AcdList.v
AutoipInv.v
IfSpec.v
EthSpec.v
IpSpec.v
AcdSpec.v
AutoipSpec.v
UdpSpec.v
