(* ===== verification/Prelude.v ===== *)
(** * Verification of baremetal-lwip

    The program is a bare-metal TCP/IP stack: the lwIP sources under src/lwip/src, built by
    src/Makefile with NO_SYS for one small board, a driver and start-up code under
    src/platform and an application under src/app.  The stack is a set of C modules
    that share buffers: packets live in [struct pbuf] chains (pbuf.c), whose memory comes
    from a heap (mem.c) and from fixed-size pools (memp.c); protocol modules are driven by
    received packets and by a list of timeouts (timeouts.c); they compute checksums
    (inet_chksum.c), handle addresses (ip4_addr.c) and use small string helpers (def.c).
    The driver hands every received frame to [process_frames] of the application, which copies
    it into a packet and calls [ethernet_input] (ethernet.c); ARP packets go to etharp.c and
    from there to address conflict detection (acd.c), IPv4 packets to [ip4_input] (ip4.c), which
    checks them, chooses the interface they are for and hands them to raw pcbs (raw.c), ICMP
    (icmp.c), UDP (udp.c) or TCP.  UDP looks for the pcb a datagram is for and calls its client; clients
    send through their pcbs.  On the way out [ip4_output] chooses an interface and writes the header,
    [etharp_output] finds the Ethernet address, [ethernet_output] adds the header
    and [netif_output] of the application gives the frame to the driver.  The application's [netdev_config]
    makes the interface: netif.c keeps the list of interfaces, their addresses and their state, and autoip.c
    finds a link-local address for one, checked by conflict detection.

    This library models these modules as executable functions and proves what they promise.

    ** Files

    - [Prelude]: integer casts, the outcome monad, tactics, shared lemmas.
    - [Def]: src/lwip/src/core/def.c, byte order and strings.
    - [Chksum]: src/lwip/src/core/inet_chksum.c, the three checksum algorithms and the
      pseudo-header variants; a packet is a list of (address, bytes).
    - [Ip4Addr]: src/lwip/src/core/ipv4/ip4_addr.c.
    - [Iface]: the contracts [PoolAlloc], [HeapAlloc] and [PbufAlloc] between the allocators
      and their clients.
    - [Stats]: the counters of stats.h.
    - [Memp]: src/lwip/src/core/memp.c; state: the pools' free lists and the first word of
      every element.
    - [Mem]: src/lwip/src/core/mem.c; state: the block headers by address, [ram], [ram_end],
      [lfree] and the statistics.
    - [Timeouts]: src/lwip/src/core/timeouts.c; state: the list of pending timeouts, the due
      time of the running one, the TCP timer flag, the pool and the rest of the world.
    - [Alloc]: heap and pools together implement [PbufAlloc].
    - [Pbuf]: src/lwip/src/core/pbuf.c; state: the structs by address, the bytes by address,
      the allocators, the out-of-sequence flag.
    - [PbufChain]: chains, the ownership invariant, what every structural operation does.
    - [PbufClient]: the client protocol and the packet-level specifications.
    - [PbufData]: reading, writing, copying, comparing and searching packet contents;
      [PbufClone]: cloning a packet.
    - [Netif]: the state [nst] of the network layer (packet buffers, interfaces by address,
      ARP table, conflict detection structs by address, statistics, the frames handed to the
      driver, the random generator), memory access, [netif_output] of src/app/app.c, and the
      class [NetEnv] of what is given from outside.
    - [NetInv]: the invariant [ninv] of this state and the lemmas that keep it.
    - [EthOut]: [ethernet_output] of src/lwip/src/netif/ethernet.c and the functions of etharp.c
      that send ARP packets.
    - [Acd]: src/lwip/src/core/ipv4/acd.c; [AcdList] the lists of clients.
    - [Etharp]: the rest of src/lwip/src/core/ipv4/etharp.c; [EtharpInv], [EtharpTmr], [EtharpRes],
      [EtharpQuery], [EtharpOut] and [EtharpIn] what finding an entry, ageing, resolving,
      queueing, sending and receiving do.
    - [EthIn]: [ethernet_input] and [process_frames] of src/app/app.c, with the class [Ip4Layer].
    - [Region]: stores into a stretch of memory whose bytes are known.
    - [Ip4Out]: routing and output of src/lwip/src/core/ipv4/ip4.c and the class [IpUpper] of the
      functions ip4.c calls that are not modelled; [Ip4OutInv]: which interface is
      chosen and what is sent.
    - [Icmp]: src/lwip/src/core/ipv4/icmp.c; [IcmpInv], [IcmpEcho] and [IcmpIn]: error messages, echo
      replies and input.
    - [Pcb]: the structs of the pcbs, and the part of the state udp.c and raw.c keep: pcbs by address,
      the head of the list, the free structs of the pool.  [Links]: linked structs as lists.
    - [Udp]: src/lwip/src/core/udp.c; [UdpInv], [UdpOps] and [UdpApi] the calls on pcbs and runs of
      them, [UdpIn] and [UdpInput] the search and the fate of a datagram, [UdpOut] sending.
    - [Raw]: src/lwip/src/core/raw.c; [RawInv] and [RawApi] the calls on pcbs, [RawInput] and [RawOut]
      receiving and sending.
    - [Received]: the header of a received packet, and consuming a packet.
    - [Ip4]: [ip4_input]; [Ip4Inv]: what it does with a packet, and that it is the layer
      [ethernet_input] expects.
    - [Autoip]: the structs of src/lwip/src/core/ipv4/autoip.c, the addresses it tries and the questions ip4.c
      asks; [AutoipRun] its state machine; [AutoipInv] what each step does to a well-formed state.
    - [NetifAddr]: src/lwip/src/core/netif.c, addresses, and the class [IfEnv] of what it calls outside the model;
      [NetifUp] adding, removing, up and down, link.  [IfInv] and [IfSafe]: what changing an address does and that
      no operation breaks the invariant; [IfAdd] the list and the numbers.
    - [AppIf]: [netdev_config] and its parts of src/app/app.c, with the class [AppEnv] of the DHCP client;
      [AppInv] what they make of an interface.
    - [NetEx]: a concrete network for the witnesses; [EthSpec]: runs of the network layer and
      the theorems about it; [IpSpec]: the theorems about IPv4 and ICMP; [UdpSpec]: those about UDP and
      raw pcbs; [AcdSpec], [AutoipSpec] and [IfSpec]: those about conflict detection, AutoIP, and interfaces and
      their set-up.

    Every C function is a Rocq function of the same name; a loop is a separate fixpoint whose
    name ends in [_loop] or says what it searches.

    ** Conventions

    A C integer is a [Z]; [u8], [u16], [u32] are applied where the C type of the target
    truncates.  [size_t] has 32 bits, the byte order is little endian, [MEM_ALIGNMENT] is 1,
    [sizeof(struct mem)] is 6 and [sizeof(struct pbuf)] is 16 with this configuration
    (src/lwip/src/include/lwipopts.h and opt.h).  Pointers are addresses; NULL is 0.

    A function returns an outcome ([out]): [Ret a log] is a normal return, [log] the messages
    of the assertions that failed on the way (an assertion of this port prints and goes on),
    [Clean a] is a return without failed assertions, [Fault] is an access to memory that does
    not exist, [NoFuel] a loop that has used up its fuel.  Fuel is chosen from the state: a
    chain of pbufs visits each struct once, so loops over a chain get one more than the
    number of structs ([chain_fuel]), and the theorems show that they never run out; the heap
    walks get the size of the heap ([walk_fuel]); [sys_check_timeouts] takes its fuel as an
    argument, and termination is proved for enough of it.  The lists of interfaces and of
    conflict detection structs visit each element once and get one more than their number.

    Code outside the model is a parameter with a contract: [NetEnv] holds the free functions of
    custom pbufs, [rand()], the address of the local array of [netif_output] and the conflict
    callbacks by function pointer; [IpUpper] holds fragmentation, reassembly, TCP input and, by
    function pointer, the receive functions of the UDP and raw pcbs.  [IfEnv] holds the functions of TCP and DHCP that netif.c calls and, by function pointer,
    the status and link callbacks; [AppEnv] the DHCP client as app.c uses it.
    [AcdClients] says that the callback of a struct on the list of an interface, called for that interface, returns, keeps
    the invariant and does not relink the lists; [AutoipSpec] proves it of AutoIP's callback for the struct of
    the interface's client ([autoip_callback_safe]); [AutoipLinked] says that the pointer AutoIP registers leads to it;
    [IfClients] that what is in [IfEnv] keeps the invariant, the interfaces and the pcbs;
    [UdpClients] that a receive function returns, keeps the invariant and gives up the datagram; [RawClients]
    that one that eats a packet does the same and one that does not leaves it as it was, and that neither
    relinks the pcbs; [Ip4Layer] that the layer above Ethernet takes over a packet that is not a fragment and keeps the
    invariant, and [Ip4Inv] proves it of [ip4_input] from these, [FragOk] and [TcpOk], which say the
    same of the functions in [IpUpper].  These contracts are for layers that keep no packet they are given (the program
    opens no TCP connection).  ip4_frag.c keeps fragments until a datagram is complete, and nothing is assumed of
    [ip4_reass]: the theorems about received frames are about frames that hold no fragment of an IPv4
    packet ([EthIn.whole_frame]).
    [NetEx] gives instances of all of them.
    [ninv s live own] says that the structs, blocks and bytes are consistent, that every struct
    is referenced as often as its count says, by [own] and by the ARP table together, and
    that the tables and lists are well formed.

    ** What the theorems show

    - The heap and the pools refine abstract allocators over every run of calls that
      respects their contract ([Mem.mem_refines], [Memp.memp_refines]); single calls are
      specified functionally, errors included.
    - Packet buffers: for clients that follow the protocol [PbufClient.allowed], every call
      returns, reference counts stay equal to the number of references, chains stay finite
      and nothing leaks ([pbuf_protocol_safe], [pbuf_run_no_leak]); allocation, freeing,
      joining, cutting and header adjustment are specified on packets; the content functions
      are specified on the packet as one list of bytes.
    - Timeouts: the list stays sorted under wrapping times, exactly the due timeouts fire,
      and the check terminates as long as callbacks arm nothing that is due already; with this port's constant clock no
      timeout requested for a millisecond or more fires.
    - Checksums: all algorithms compute the RFC 1071 sum at any alignment and however the data
      is split into buffers; a filled-in checksum verifies.
    - Addresses and strings: printing and parsing round trips, buffer bounds.
    - The link layer: whatever frame arrives that holds no IPv4 fragment, [process_frames] returns, keeps [ninv] and loses no
      buffer ([process_frames_safe]); after every sequence of such frames, timer ticks, sent
      packets and interface events the next event returns as well ([net_protocol_safe]), and nothing leaks ([net_run_no_leak]).
    - ARP: the invariant of the table, what finding, updating, ageing and cleaning do to it,
      how long an entry lives, which frames are sent by input, output, the timer and the
      requests; where a frame may be missing for lack of memory the error counter says so.
    - IPv4: which packets [ip4_input] drops, and as what they are counted, which interface the others
      are for and what is delivered ([ip4_input_spec]); the route, header and errors of
      [ip4_output] ([ip4_output_spec]); a header that was written is read back
      ([ip4_header_roundtrip]).
    - ICMP: echo requests are answered end to end, with right checksums ([ip4_input_echo]); what error
      messages quote and where they go ([icmp_send_response_spec]).
    - UDP: the calls on pcbs keep the list well formed and local ends exclusive ([udp_ports_exclusive],
      [udp_bind_spec]); the port allocator ends ([udp_new_port_spec]); which pcb gets a datagram and
      what happens to the others ([udp_input_spec]); what is sent ([udp_sendto_spec]) and that it
      arrives as it was sent ([udp_roundtrip]).
    - Raw pcbs: the calls refine operations on a list ([raw_calls_refine]); who is offered a packet
      ([raw_input_spec]); what is sent ([raw_sendto_spec]).
    - Conflict detection: the schedule of probes and announcements, the defence of an address
      in use, the widths of all fields, the list of clients.
    - AutoIP: the addresses it tries lie in its range ([autoip_create_addr_spec]); without conflicts the
      interface gets the first one after 61 to 87 ticks ([autoip_acquires]), after a conflict the next is
      tried ([autoip_conflict_next]); [autoip_stop] does not stop the check ([autoip_stop_still_binds]).
    - Interfaces: adding one ends with a number of its own ([netif_add_spec]), removing one keeps the rest of
      the list ([netif_remove_spec]), a new address reaches the pcbs bound to the old one
      ([netif_set_addr_spec]); a static configuration of the board gives an interface that is up
      ([netdev_config_static]), and with AutoIP the client given is forgotten ([netdev_config_forgets_client]).

    ** Limits

    Writes to payload bytes do not reach the structs and headers of the allocators in the
    model of pbuf.c; that they cannot is what the ownership invariant and the disjointness of
    blocks say, and that the allocators survive arbitrary writes to live blocks is part of
    [mem_refines] and [memp_refines].  Custom pbufs are modelled, but the ownership invariant
    is about structs from the three standard sources, since a custom free function is client
    code.  Interrupts and [SYS_ARCH_PROTECT] are not modelled (NO_SYS, the protection macros are
    empty).  Debug output ([LWIP_DEBUGF], [LWIP_PLATFORM_DIAG]) is not modelled.

    ** Not modelled

    ip4_frag.c (fragmentation and reassembly), dhcp.c, dns.c, sntp.c, tcp.c, tcp_in.c and tcp_out.c are not modelled; where the
    modules above call them they are parameters with the contracts named under Conventions (reassembly has none).  Of app.c the main
    loop and the SNTP settings are not modelled: the order of its calls is what the runs of [EthSpec] leave open.  The names of
    interfaces and the functions that search for them, and the output functions an interface holds as pointers, are
    not part of [Netif.netif]: [etharp_output] and [netif_output] are the only ones of this program.  The driver
    and the start-up code are device access and stay outside. *)
From stdpp Require Export base numbers list gmap strings.
From Stdlib Require Export ZArith Lia.
From Stdlib Require Import Zdiv Zpow_facts.

#[export] Set Default Goal Selector "!".
Open Scope Z_scope.

(** ** Machine integers

    A C integer of width w is a [Z]; every assignment that narrows or can wrap
    goes through one of these casts, exactly where the C source casts or where
    the type of the assigned variable truncates. *)

Definition u8 (z : Z) : Z := z mod 256.
Definition u16 (z : Z) : Z := z mod 65536.
Definition u32 (z : Z) : Z := z mod 4294967296.

Definition is_u8 (z : Z) : Prop := 0 ≤ z < 256.
Definition is_u16 (z : Z) : Prop := 0 ≤ z < 65536.
Definition is_u32 (z : Z) : Prop := 0 ≤ z < 4294967296.

#[export] Instance is_u8_dec z : Decision (is_u8 z).
Proof. unfold is_u8. apply _. Defined.
#[export] Instance is_u16_dec z : Decision (is_u16 z).
Proof. unfold is_u16. apply _. Defined.
#[export] Instance is_u32_dec z : Decision (is_u32 z).
Proof. unfold is_u32. apply _. Defined.

(** Closes a decidable ground goal by evaluating its decision procedure. *)
Ltac decide_now := refine (bool_decide_unpack _ _); vm_compute; exact I.

Lemma u8_range z : is_u8 (u8 z).
Proof. unfold is_u8, u8. apply Z.mod_pos_bound; lia. Qed.
Lemma u16_range z : is_u16 (u16 z).
Proof. unfold is_u16, u16. apply Z.mod_pos_bound; lia. Qed.
Lemma u32_range z : is_u32 (u32 z).
Proof. unfold is_u32, u32. apply Z.mod_pos_bound; lia. Qed.

Lemma u8_id z : is_u8 z → u8 z = z.
Proof. intros H. apply Z.mod_small. exact H. Qed.
Lemma u16_id z : is_u16 z → u16 z = z.
Proof. intros H. apply Z.mod_small. exact H. Qed.
Lemma u32_id z : is_u32 z → u32 z = z.
Proof. intros H. apply Z.mod_small. exact H. Qed.

Create HintDb widths.
Create Rewrite HintDb widths.
#[export] Hint Resolve u8_range u16_range u32_range : widths.
#[export] Hint Rewrite u8_id u16_id u32_id using (unfold is_u8, is_u16, is_u32 in *; lia) : widths.

(** [width] closes range goals about casts; [unwrap] removes the casts whose
    argument [lia] can show to be in range. *)
Ltac width :=
  unfold is_u8, is_u16, is_u32, u8, u16, u32 in *;
  Z.div_mod_to_equations; lia.
Ltac unwrap := autorewrite with widths in *.

(** ** Outcomes of C code

    In this port [LWIP_ASSERT] prints a message and then {e continues}, because
    [mch_abort] expands to nothing (src/lwip/src/include/mch.h).  An outcome
    therefore carries the messages of the assertions that failed on the way to
    a normal return ([Ret]).  [Fault] is an access to memory the model knows
    nothing about (a NULL or dangling pointer, an index out of range, signed
    overflow), and [NoFuel] is a loop that used up the fuel given to it. *)

Inductive out (A : Type) : Type :=
| Ret (a : A) (log : list string)
| Fault (why : string)
| NoFuel.
Arguments Ret {A} a log.
Arguments Fault {A} why.
Arguments NoFuel {A}.

Global Instance out_ret : MRet out := λ A a, Ret a [].
Global Instance out_bind : MBind out := λ A B f m,
  match m with
  | Ret a l =>
      match f a with
      | Ret b l' => Ret b (l ++ l')
      | Fault w => Fault w
      | NoFuel => NoFuel
      end
  | Fault w => Fault w
  | NoFuel => NoFuel
  end.

(** [LWIP_ASSERT(message, assertion)] of debug.h with the port's
    [LWIP_PLATFORM_ASSERT]. *)
Definition lwip_assert (msg : string) (b : bool) : out unit :=
  if b then Ret tt [] else Ret tt [msg].

Definition or_fault {A} (why : string) (o : option A) : out A :=
  match o with Some a => mret a | None => Fault why end.

(** The null pointer, and the alignment of all memory ([MEM_ALIGNMENT], opt.h). *)
Definition NULL : Z := 0.
Definition MEM_ALIGNMENT : Z := 1.

(** A clean outcome: normal return with no failed assertion. *)
Notation "'Clean' a" := (Ret a []) (at level 10, a at level 9).

Lemma bind_ret_l {A B} (a : A) (f : A → out B) : mret a ≫= f = f a.
Proof. unfold mret, out_ret, mbind, out_bind. destruct (f a); done. Qed.

Lemma bind_clean {A B} (a : A) (f : A → out B) : (Clean a ≫= f) = f a.
Proof. apply bind_ret_l. Qed.

Lemma bind_assoc {A B C} (m : out A) (f : A → out B) (g : B → out C) : (m ≫= f) ≫= g = m ≫= λ x, f x ≫= g.
Proof.
  unfold mbind, out_bind. destruct m as [a l|w|]; [|done..]. destruct (f a) as [b l'|w|]; [|done..].
  destruct (g b); [|done..]. by rewrite app_assoc.
Qed.

Lemma bind_clean_inv {A B} (m : out A) (f : A → out B) b :
  m ≫= f = Clean b → ∃ a, m = Clean a ∧ f a = Clean b.
Proof.
  unfold mbind, out_bind. destruct m as [a l|w|]; [|done..].
  destruct (f a) as [b' l'|w|] eqn:E; [|done..].
  intros [= -> Hl]. apply app_eq_nil in Hl as [-> ->]. eauto.
Qed.

Lemma lwip_assert_true msg : lwip_assert msg true = Clean tt.
Proof. done. Qed.

Create Rewrite HintDb out.
#[export] Hint Rewrite @bind_ret_l @bind_clean lwip_assert_true : out.

(** One step of symbolic execution on a clean prefix. *)
Ltac out_simp :=
  cbn [lwip_assert or_fault];
  repeat first [rewrite bind_ret_l | rewrite bind_clean | rewrite lwip_assert_true
               | progress cbn [lwip_assert or_fault]].

(** ** Bit masks as arithmetic *)

Lemma land_shiftl_mask n m k : 0 ≤ k →
  Z.land n (Z.shiftl m k) = Z.shiftl (Z.land (Z.shiftr n k) m) k.
Proof.
  intros Hk. apply Z.bits_inj'. intros i Hi.
  rewrite Z.land_spec, !Z.shiftl_spec by lia.
  destruct (decide (i < k)) as [Hlt|Hge].
  - rewrite !(Z.testbit_neg_r _ (i - k)) by lia. by rewrite andb_false_r.
  - rewrite Z.land_spec, Z.shiftr_spec by lia. by replace (i - k + k) with i by lia.
Qed.

(** The byte at bit position [k]. *)
Lemma land_byte n k : 0 ≤ k → Z.land n (255 * 2 ^ k) = (n / 2 ^ k) mod 256 * 2 ^ k.
Proof.
  intros Hk. rewrite <- Z.shiftl_mul_pow2, land_shiftl_mask by lia.
  rewrite Z.shiftl_mul_pow2, Z.shiftr_div_pow2 by lia.
  change 255 with (Z.ones 8). rewrite Z.land_ones by lia. done.
Qed.

Lemma lor_add a b k : 0 ≤ k → 0 ≤ b < 2 ^ k → Z.lor (a * 2 ^ k) b = a * 2 ^ k + b.
Proof.
  intros Hk Hb. rewrite <- Z.shiftl_mul_pow2 by lia.
  assert (Z.land (Z.shiftl a k) b = 0) as H0.
  { apply Z.bits_inj'. intros i Hi. rewrite Z.land_spec, Z.shiftl_spec, Z.bits_0 by lia.
    destruct (decide (i < k)) as [Hlt|Hge].
    - by rewrite (Z.testbit_neg_r _ (i - k)) by lia.
    - assert (Z.testbit b i = false) as ->; [|by rewrite andb_false_r].
      apply Z.testbit_false; [lia|]. rewrite Z.div_small; [done|].
      split; [lia|]. apply Z.lt_le_trans with (2 ^ k); [lia|].
      apply Z.pow_le_mono_r; lia. }
  rewrite <- Z.add_lor_land, H0. lia.
Qed.

(** A boolean property of bytes is decided by evaluating it on all of them. *)
Lemma forall_u8 (P : Z → bool) :
  forallb P (seqZ 0 256) = true → ∀ c, is_u8 c → P c = true.
Proof.
  intros H c Hc. rewrite forallb_forall in H. apply H.
  apply list_elem_of_In, elem_of_seqZ. unfold is_u8 in Hc. lia.
Qed.

Lemma forall_u8_2 (P : Z → Z → bool) :
  forallb (λ a, forallb (P a) (seqZ 0 256)) (seqZ 0 256) = true →
  ∀ a b, is_u8 a → is_u8 b → P a b = true.
Proof.
  intros H a b Ha Hb.
  pose proof (forall_u8 (λ a, forallb (P a) (seqZ 0 256)) H a Ha) as H'.
  exact (forall_u8 _ H' b Hb).
Qed.

(** ** Lists taken two elements at a time *)

Lemma list_pair_ind {A} (P : list A → Prop) :
  P [] → (∀ a, P [a]) → (∀ a b l, P l → P (a :: b :: l)) → ∀ l, P l.
Proof.
  intros H0 H1 H2 l. enough (P l ∧ ∀ a, P (a :: l)) by tauto.
  induction l as [|b l [IH1 IH2]]; [auto|]. split; [auto|]. intros a. by apply H2.
Qed.
