(* ===== verification/Def.v ===== *)
(** * Byte order and string helpers (src/lwip/src/core/def.c)

    [lwip_htons]/[lwip_htonl] on the little-endian target, the string searches
    [lwip_strnstr]/[lwip_strnistr], the case-insensitive comparisons
    [lwip_stricmp]/[lwip_strnicmp] and the decimal printer [lwip_itoa].

    A C string is the list of its character codes before the terminating NUL;
    reading past the end of the list reads that NUL.  A [char] is unsigned, as
    on the ARM target. *)
From S2P Require Import Prelude.

(** ** Byte order *)

(** [PP_HTONS] of def.h, used by [lwip_htons]. *)
Definition lwip_htons (n : Z) : Z :=
  u16 (Z.lor (Z.shiftl (Z.land n 0x00ff) 8) (Z.shiftr (Z.land n 0xff00) 8)).

Definition lwip_htonl (n : Z) : Z :=
  u32 (Z.lor (Z.lor (Z.lor
    (Z.shiftl (Z.land n 0x000000ff) 24)
    (Z.shiftl (Z.land n 0x0000ff00) 8))
    (Z.shiftr (Z.land n 0x00ff0000) 8))
    (Z.shiftr (Z.land n 0xff000000) 24)).

(** ** C string primitives of libc used by def.c *)

(** [*s]: the first character, NUL at the end of the string. *)
Definition chr (s : list Z) : Z := hd 0 s.

Fixpoint strlen (s : list Z) : Z :=
  match s with
  | [] => 0
  | c :: s' => if c =? 0 then 0 else 1 + strlen s'
  end.

Fixpoint strncmp (s1 s2 : list Z) (n : nat) : Z :=
  match n with
  | O => 0
  | S n' =>
      if negb (chr s1 =? chr s2) then chr s1 - chr s2
      else if chr s1 =? 0 then 0
      else strncmp (tail s1) (tail s2) n'
  end.

(** ** Case-insensitive comparison *)

(** The body shared by the two do-while loops: [true] when the characters
    differ even after both are put in lower case. *)
Definition chars_differ (c1 c2 : Z) : bool :=
  if negb (c1 =? c2) then
    let c1_upc := Z.lor c1 0x20 in
    if (97 <=? c1_upc) && (c1_upc <=? 122) then
      let c2_upc := Z.lor c2 0x20 in
      negb (c1_upc =? c2_upc)
    else true
  else false.

Fixpoint lwip_stricmp (str1 str2 : list Z) : Z :=
  let c1 := chr str1 in
  let c2 := chr str2 in
  if chars_differ c1 c2 then 1
  else
    match str1 with
    | [] => 0
    | _ :: str1' => if negb (c1 =? 0) then lwip_stricmp str1' (tail str2) else 0
    end.

(** [len] is a [size_t]: the [len--] of the do-while wraps at 0. *)
Fixpoint lwip_strnicmp (str1 str2 : list Z) (len : Z) : Z :=
  let c1 := chr str1 in
  let c2 := chr str2 in
  if chars_differ c1 c2 then 1
  else
    let len' := u32 (len - 1) in
    match str1 with
    | [] => 0
    | _ :: str1' =>
        if negb (len' =? 0) && negb (c1 =? 0)
        then lwip_strnicmp str1' (tail str2) len' else 0
    end.

(** ** Substring search

    The result is the index of the match in [buffer] ([None] for NULL). *)

Fixpoint strnstr_loop (p token : list Z) (tokenlen i n : Z) : option Z :=
  match p with
  | [] => None
  | c :: p' =>
      if negb (c =? 0) && (i + tokenlen <=? n) then
        if (c =? chr token) && (strncmp p token (Z.to_nat tokenlen) =? 0)
        then Some i
        else strnstr_loop p' token tokenlen (i + 1) n
      else None
  end.

Definition lwip_strnstr (buffer token : list Z) (n : Z) : option Z :=
  let tokenlen := strlen token in
  if tokenlen =? 0 then Some 0
  else strnstr_loop buffer token tokenlen 0 n.

Fixpoint strnistr_loop (p token : list Z) (tokenlen i n : Z) : option Z :=
  match p with
  | [] => None
  | c :: p' =>
      if negb (c =? 0) && (i + tokenlen <=? n) then
        if lwip_strnicmp p token tokenlen =? 0
        then Some i
        else strnistr_loop p' token tokenlen (i + 1) n
      else None
  end.

Definition lwip_strnistr (buffer token : list Z) (n : Z) : option Z :=
  let tokenlen := strlen token in
  if tokenlen =? 0 then Some 0
  else strnistr_loop buffer token tokenlen 0 n.

(** ** Integer to decimal

    [result] is the caller's buffer as a list of [bufsize] characters; every
    store is checked against it, so an out-of-range store is a [Fault]. *)

Definition INT_MAX : Z := 2147483647.
Definition INT_MIN : Z := -2147483648.

Definition store (buf : list Z) (i v : Z) : out (list Z) :=
  if (0 <=? i) && (i <? Z.of_nat (length buf))
  then mret (<[Z.to_nat i := v]> buf)
  else Fault "store out of bounds".

Definition load (buf : list Z) (i : Z) : out Z :=
  if (0 <=? i) then or_fault "load out of bounds" (buf !! Z.to_nat i)
  else Fault "load out of bounds".

(** [memmove(buf + dst, buf + src, len)] inside one buffer. *)
Definition memmove (buf : list Z) (dst src len : Z) : out (list Z) :=
  if (0 <=? dst) && (0 <=? src) && (0 <=? len)
     && (dst + len <=? Z.of_nat (length buf))
     && (src + len <=? Z.of_nat (length buf))
  then
    let block := take (Z.to_nat len) (drop (Z.to_nat src) buf) in
    mret (take (Z.to_nat dst) buf ++ block ++ drop (Z.to_nat (dst + len)) buf)
  else Fault "memmove out of bounds".

(** The digit loop; the [nat] is [tmp - res], the number of characters it can
    still write, so [tmp > res] is the match on it. *)
Fixpoint itoa_loop (room : nat) (buf : list Z) (tmp n : Z) : out (list Z * Z * Z) :=
  match room with
  | O => mret (buf, tmp, n)
  | S room' =>
      if negb (n =? 0) then
        let val := u8 (48 + Z.rem n 10) in
        buf' ← store buf (tmp - 1) val;
        itoa_loop room' buf' (tmp - 1) (Z.quot n 10)
      else mret (buf, tmp, n)
  end.

(** From the zero termination on: the digits of [n] are written from the end of
    the buffer and moved to index [res], after the sign. *)
Definition itoa_digits (buf : list Z) (bufsize res n : Z) : out (list Z) :=
  let tmp := bufsize - 1 in
  buf ← store buf tmp 0;
  '(buf, tmp, n) ← itoa_loop (Z.to_nat (tmp - res)) buf tmp n;
  if negb (n =? 0) then store buf 0 0
  else
    c ← load buf tmp;
    if c =? 0 then
      buf ← store buf res 48;
      store buf (res + 1) 0
    else memmove buf res tmp (bufsize - tmp).

Definition lwip_itoa (result : list Z) (bufsize number : Z) : out (list Z) :=
  if number =? INT_MIN then Fault "signed overflow"
  else
    let n := if 0 <=? number then number else - number in
    if bufsize <? 2 then
      if bufsize =? 1 then store result 0 0 else mret result
    else if number <? 0 then
      buf ← store result 0 45;
      itoa_digits buf bufsize 1 n
    else itoa_digits result bufsize 0 n.

(** ** Reference definitions the operations are compared with *)

(** ASCII lower case. *)
Definition to_lower (c : Z) : Z := if (65 <=? c) && (c <=? 90) then c + 32 else c.

(** The characters of a C string: bytes other than NUL. *)
Definition c_char (c : Z) : Prop := is_u8 c ∧ c ≠ 0.
Definition c_string (s : list Z) : Prop := Forall c_char s.

#[export] Instance c_char_dec c : Decision (c_char c).
Proof. unfold c_char. apply _. Defined.
#[export] Instance c_string_dec s : Decision (c_string s).
Proof. unfold c_string. apply _. Defined.

(** [token] occurs in [buffer] at index [i]. *)
Definition occurs_at (buffer token : list Z) (i : nat) : Prop :=
  take (length token) (drop i buffer) = token.

(** Decimal digits, most significant first, of a number below [10 ^ fuel]. *)
Fixpoint digits (fuel : nat) (n : Z) : list Z :=
  match fuel with
  | O => []
  | S f => if n =? 0 then [] else digits f (n / 10) ++ [48 + n mod 10]
  end.

Definition decimal (number : Z) : list Z :=
  if number =? 0 then [48]
  else (if number <? 0 then [45] else []) ++ digits 10 (Z.abs number).

(** The C string in a buffer: what precedes the first NUL. *)
Fixpoint c_str (buf : list Z) : list Z :=
  match buf with
  | [] => []
  | c :: buf' => if c =? 0 then [] else c :: c_str buf'
  end.

(** Reading a decimal back. *)
Definition dec_val (ds : list Z) : Z := foldl (λ acc d, acc * 10 + (d - 48)) 0 ds.
Definition atoi (s : list Z) : Z :=
  match s with
  | 45 :: ds => - dec_val ds
  | ds => dec_val ds
  end.

(** ** Byte order *)

Lemma lwip_htons_eq n : is_u16 n → lwip_htons n = n mod 256 * 256 + n / 256.
Proof.
  intros Hn. unfold lwip_htons.
  change 0x00ff with (255 * 2 ^ 0). change 0xff00 with (255 * 2 ^ 8).
  rewrite !land_byte, Z.shiftl_mul_pow2, Z.shiftr_div_pow2 by lia.
  rewrite Z.div_mul by lia. rewrite Z.pow_0_r, Z.div_1_r, Z.mul_1_r.
  change (2 ^ 8) with 256. rewrite (lor_add _ _ 8); width.
Qed.

Lemma lwip_htons_range n : is_u16 (lwip_htons n).
Proof. apply u16_range. Qed.

Lemma lwip_htons_involutive n : is_u16 n → lwip_htons (lwip_htons n) = n.
Proof.
  intros Hn. rewrite (lwip_htons_eq (lwip_htons n)) by apply lwip_htons_range.
  rewrite lwip_htons_eq by done. width.
Qed.

(** [lwip_htonl] reverses the four bytes. *)
Lemma lwip_htonl_bytes a b c d : is_u8 a → is_u8 b → is_u8 c → is_u8 d →
  lwip_htonl (a * 2 ^ 24 + b * 2 ^ 16 + c * 2 ^ 8 + d)
  = d * 2 ^ 24 + c * 2 ^ 16 + b * 2 ^ 8 + a.
Proof.
  intros Ha Hb Hc Hd. unfold lwip_htonl.
  change 0x000000ff with (255 * 2 ^ 0). change 0x0000ff00 with (255 * 2 ^ 8).
  change 0x00ff0000 with (255 * 2 ^ 16). change 0xff000000 with (255 * 2 ^ 24).
  rewrite !land_byte by lia.
  replace ((a * 2 ^ 24 + b * 2 ^ 16 + c * 2 ^ 8 + d) / 2 ^ 0 mod 256) with d by width.
  replace ((a * 2 ^ 24 + b * 2 ^ 16 + c * 2 ^ 8 + d) / 2 ^ 8 mod 256) with c by width.
  replace ((a * 2 ^ 24 + b * 2 ^ 16 + c * 2 ^ 8 + d) / 2 ^ 16 mod 256) with b by width.
  replace ((a * 2 ^ 24 + b * 2 ^ 16 + c * 2 ^ 8 + d) / 2 ^ 24 mod 256) with a by width.
  rewrite !Z.shiftl_mul_pow2, !Z.shiftr_div_pow2 by lia.
  replace (b * 2 ^ 16 / 2 ^ 8) with (b * 2 ^ 8) by width.
  replace (a * 2 ^ 24 / 2 ^ 24) with a by width.
  replace (c * 2 ^ 8 * 2 ^ 8) with (c * 2 ^ 16) by lia.
  replace (d * 2 ^ 0 * 2 ^ 24) with (d * 2 ^ 24) by lia.
  rewrite (lor_add d _ 24) by width.
  replace (d * 2 ^ 24 + c * 2 ^ 16) with ((d * 256 + c) * 2 ^ 16) by lia.
  rewrite (lor_add _ _ 16) by width.
  replace ((d * 256 + c) * 2 ^ 16 + b * 2 ^ 8) with (((d * 256 + c) * 256 + b) * 2 ^ 8) by lia.
  rewrite (lor_add _ _ 8) by width. width.
Qed.

Lemma u32_split n : is_u32 n → ∃ a b c d,
  n = a * 2 ^ 24 + b * 2 ^ 16 + c * 2 ^ 8 + d ∧ is_u8 a ∧ is_u8 b ∧ is_u8 c ∧ is_u8 d.
Proof.
  intros Hn. exists (n / 2 ^ 24), (n / 2 ^ 16 mod 256), (n / 2 ^ 8 mod 256), (n mod 256).
  repeat split; width.
Qed.

Lemma lwip_htonl_range n : is_u32 n → is_u32 (lwip_htonl n).
Proof.
  intros (a & b & c & d & -> & Ha & Hb & Hc & Hd)%u32_split.
  rewrite lwip_htonl_bytes by done. unfold is_u8, is_u32 in *. lia.
Qed.

Lemma lwip_htonl_involutive n : is_u32 n → lwip_htonl (lwip_htonl n) = n.
Proof.
  intros (a & b & c & d & -> & Ha & Hb & Hc & Hd)%u32_split.
  rewrite !lwip_htonl_bytes by done. lia.
Qed.

(** ** Case-insensitive comparison *)

Lemma chars_differ_spec c1 c2 : is_u8 c1 → is_u8 c2 →
  chars_differ c1 c2 = negb (to_lower c1 =? to_lower c2).
Proof.
  intros H1 H2. apply Bool.eqb_prop.
  apply (forall_u8_2 (λ c1 c2, Bool.eqb (chars_differ c1 c2)
                                 (negb (to_lower c1 =? to_lower c2)))); [|done..].
  vm_compute. reflexivity.
Qed.

Lemma to_lower_char c : c_char c → c_char (to_lower c).
Proof.
  unfold c_char, to_lower. intros [H H0].
  destruct ((65 <=? c) && (c <=? 90)) eqn:E; [|done]. unfold is_u8 in *. lia.
Qed.

Lemma to_lower_string s : c_string s → c_string (map to_lower s).
Proof. intros H. apply Forall_fmap. eapply Forall_impl; [exact H|]. apply to_lower_char. Qed.

Lemma chr_string s : c_string s → is_u8 (chr s) ∧ (chr s = 0 ↔ s = []).
Proof. unfold is_u8. destruct 1 as [|c s [? ?] ?]; unfold chr; simpl; naive_solver lia. Qed.

Lemma to_lower_0 c : is_u8 c → to_lower c = 0 ↔ c = 0.
Proof.
  intros H. unfold to_lower. destruct ((65 <=? c) && (c <=? 90)) eqn:E; [|done].
  unfold is_u8 in *. lia.
Qed.

Lemma chr_map_lower s : chr (map to_lower s) = to_lower (chr s).
Proof. destruct s; done. Qed.

Lemma chars_differ_hd s1 s2 : c_string s1 → c_string s2 →
  chars_differ (chr s1) (chr s2) = negb (chr (map to_lower s1) =? chr (map to_lower s2)).
Proof.
  intros H1 H2. rewrite !chr_map_lower. apply chars_differ_spec; by apply chr_string.
Qed.

Lemma c_string_tail s : c_string s → c_string (tail s).
Proof. destruct 1; [constructor|done]. Qed.

(** The result of the search is the first match, or there is none that ends
    within the first [n] characters. *)
Definition first_match (buffer token : list Z) (n : Z) (r : option Z) : Prop :=
  match r with
  | Some i => 0 ≤ i ∧ i + Z.of_nat (length token) ≤ n
              ∧ occurs_at buffer token (Z.to_nat i)
              ∧ ∀ j, Z.of_nat j < i → ¬ occurs_at buffer token j
  | None => ∀ j, Z.of_nat j + Z.of_nat (length token) ≤ n → ¬ occurs_at buffer token j
  end.

Lemma strlen_string s : c_string s → strlen s = Z.of_nat (length s).
Proof.
  induction 1 as [|c s [? Hc] _ IH]; [done|]. cbn [strlen length].
  apply Z.eqb_neq in Hc. rewrite Hc, IH. lia.
Qed.

Lemma strncmp_token p token : c_string p → c_string token →
  strncmp p token (length token) = 0 ↔ take (length token) p = token.
Proof.
  intros Hp Ht. revert p Hp. induction Ht as [|c token [Hc Hc0] Ht IH]; intros p Hp; [done|].
  cbn [length strncmp]. destruct Hp as [|d p [Hd Hd0] Hp]; unfold chr; cbn [hd tail].
  { destruct (Z.eqb_spec 0 c); cbn [negb]; [lia|]. split; [lia|done]. }
  destruct (d =? c) eqn:E; cbn [negb take].
  - apply Z.eqb_eq in E as ->. apply Z.eqb_neq in Hc0. rewrite Hc0.
    rewrite IH by done. split; [by intros ->|]. by intros [= H].
  - apply Z.eqb_neq in E. split; [lia|]. intros [= ??]. done.
Qed.

Lemma strncmp_hd p token : c_string token → token ≠ [] →
  strncmp p token (length token) = 0 → (chr p =? chr token) = true.
Proof.
  intros Ht Hne H. destruct token as [|c token]; [done|]. cbn [length strncmp] in H.
  destruct (chr p =? chr (c :: token)) eqn:E; [done|]. cbn [negb] in H.
  apply Z.eqb_neq in E. lia.
Qed.

Lemma occurs_at_bound buffer token i : token ≠ [] → occurs_at buffer token i →
  (i + length token ≤ length buffer)%nat.
Proof.
  unfold occurs_at. intros Hne H. apply (f_equal length) in H.
  rewrite length_take, length_drop in H. destruct token; [done|]. cbn [length] in *. lia.
Qed.

Lemma strnstr_loop_spec token n : c_string token → token ≠ [] →
  ∀ p buffer i, c_string p → drop i buffer = p →
  (∀ j, (j < i)%nat → ¬ occurs_at buffer token j) →
  first_match buffer token n
    (strnstr_loop p token (Z.of_nat (length token)) (Z.of_nat i) n).
Proof.
  intros Ht Hne p. induction p as [|c p IH]; intros buffer i Hp Hdrop Hno; cbn [strnstr_loop].
  { intros j Hj Hocc. destruct (decide (j < i)%nat); [by apply (Hno j)|].
    pose proof (occurs_at_bound _ _ _ Hne Hocc).
    apply (f_equal length) in Hdrop. rewrite length_drop in Hdrop. simpl in Hdrop.
    destruct token; [done|]. cbn [length] in *. lia. }
  assert (c ≠ 0) as Hc0%Z.eqb_neq by (by inversion Hp as [|?? [??]]). rewrite Hc0. simpl.
  destruct (Z.leb_spec (Z.of_nat i + Z.of_nat (length token)) n) as [Hle|Hgt]; cbn.
  2:{ intros j Hj. apply Hno. lia. }
  rewrite Nat2Z.id.
  destruct (strncmp (c :: p) token (length token) =? 0) eqn:Ecmp.
  - apply Z.eqb_eq in Ecmp. pose proof (strncmp_hd _ _ Ht Hne Ecmp) as Ehd.
    unfold chr in Ehd at 1. simpl in Ehd. rewrite Ehd. simpl.
    apply strncmp_token in Ecmp; [|done..]. split; [lia|]. split; [lia|]. split.
    + unfold occurs_at. rewrite Nat2Z.id. by rewrite Hdrop.
    + intros j Hj. apply Hno. lia.
  - rewrite andb_false_r. apply Z.eqb_neq in Ecmp.
    replace (Z.of_nat i + 1) with (Z.of_nat (S i)) by lia. apply IH.
    + by inversion Hp.
    + replace (S i) with (i + 1)%nat by lia. by rewrite <- drop_drop, Hdrop.
    + intros j Hj. destruct (decide (j = i)) as [->|]; [|apply Hno; lia].
      unfold occurs_at. rewrite Hdrop. by rewrite <- strncmp_token by done.
Qed.

Lemma lwip_strnstr_first buffer token n : c_string buffer → c_string token → token ≠ [] →
  first_match buffer token n (lwip_strnstr buffer token n).
Proof.
  intros Hb Ht Hne. unfold lwip_strnstr. rewrite strlen_string by done.
  destruct (Z.eqb_spec (Z.of_nat (length token)) 0) as [E|E].
  { destruct token; [done|]. cbn [length] in E. lia. }
  apply (strnstr_loop_spec token n Ht Hne buffer buffer 0); [done|done|lia].
Qed.

(** [lwip_strnicmp] with a positive length compares like [strncmp] on the
    lower-cased strings. *)
Lemma lwip_strnicmp_lower len : (0 < len)%nat → Z.of_nat len < 4294967296 →
  ∀ s1 s2, c_string s1 → c_string s2 →
  lwip_strnicmp s1 s2 (Z.of_nat len) = 0
  ↔ strncmp (map to_lower s1) (map to_lower s2) len = 0.
Proof.
  induction len as [|len IH]; [lia|]. intros _ Hlen s1 s2 H1 H2.
  replace (lwip_strnicmp s1 s2 (Z.of_nat (S len)))
    with (if chars_differ (chr s1) (chr s2) then 1
          else match s1 with
               | [] => 0
               | _ :: s1' => if negb (Z.of_nat len =? 0) && negb (chr s1 =? 0)
                             then lwip_strnicmp s1' (tail s2) (Z.of_nat len) else 0
               end).
  2:{ replace (Z.of_nat len) with (u32 (Z.of_nat (S len) - 1)) by width. by destruct s1. }
  rewrite chars_differ_hd by done. cbn [strncmp].
  destruct (Z.eqb_spec (chr (map to_lower s1)) (chr (map to_lower s2))) as [E|E]; cbn [negb].
  2:{ split; [done|lia]. }
  destruct s1 as [|c s1]; [done|]. cbn [chr hd map].
  inversion H1 as [|?? Hc H1']; subst.
  destruct (to_lower_char _ Hc) as [_ Hl%Z.eqb_neq]. rewrite Hl.
  destruct Hc as [_ Hc%Z.eqb_neq]. cbn [fmap list_fmap chr hd tail] in *. rewrite Hc. cbn [negb].
  rewrite andb_true_r. destruct (Z.eqb_spec (Z.of_nat len) 0) as [E0|E0]; cbn [negb].
  { replace len with 0%nat by lia. done. }
  rewrite IH by (try apply c_string_tail; lia || done). by destruct s2.
Qed.

Lemma strnistr_loop_lower token n : c_string token → token ≠ [] →
  Z.of_nat (length token) < 4294967296 → ∀ p i, c_string p →
  strnistr_loop p token (Z.of_nat (length token)) i n
  = strnstr_loop (map to_lower p) (map to_lower token) (Z.of_nat (length token)) i n.
Proof.
  intros Ht Hne Hlen p i Hp. revert i. induction Hp as [|c p Hc Hp IH]; intros i; [done|].
  cbn [map fmap list_fmap strnistr_loop strnstr_loop].
  destruct (to_lower_char _ Hc) as [_ Hl%Z.eqb_neq]. rewrite Hl.
  pose proof (proj2 Hc) as Hc0%Z.eqb_neq. rewrite Hc0. cbn [negb andb].
  destruct (i + Z.of_nat (length token) <=? n); [|done]. rewrite Nat2Z.id.
  assert (0 < length token)%nat as Hpos by (destruct token; [done|cbn [length]; lia]).
  pose proof (lwip_strnicmp_lower _ Hpos Hlen (c :: p) token (Forall_cons_2 _ _ _ Hc Hp) Ht) as Hiff.
  change (map to_lower (c :: p)) with (to_lower c :: map to_lower p) in Hiff.
  destruct (Z.eqb_spec (lwip_strnicmp (c :: p) token (Z.of_nat (length token))) 0) as [E|E];
    destruct (Z.eqb_spec (strncmp (to_lower c :: map to_lower p) (map to_lower token)
                                  (length token)) 0) as [E'|E']; try tauto.
  - rewrite <- (length_map to_lower token) in E'.
    apply strncmp_hd in E'; [|by apply to_lower_string|by destruct token].
    cbn [chr hd] in E'. by rewrite E'.
  - by rewrite andb_false_r.
Qed.

(** the case-insensitive search [lwip_strnistr] (def.c) returns the first
    index at which the token occurs up to ASCII case and ends within the first
    [n] characters, and NULL exactly when there is no such index. *)
Theorem lwip_strnistr_first buffer token n :
  c_string buffer → c_string token → token ≠ [] →
  Z.of_nat (length token) < 4294967296 →
  first_match (map to_lower buffer) (map to_lower token) n (lwip_strnistr buffer token n).
Proof.
  intros Hb Ht Hne Hlen.
  enough (lwip_strnistr buffer token n
          = lwip_strnstr (map to_lower buffer) (map to_lower token) n) as ->.
  { apply lwip_strnstr_first; [by apply to_lower_string..|by destruct token]. }
  unfold lwip_strnistr, lwip_strnstr.
  rewrite !strlen_string, length_map by (done || by apply to_lower_string).
  destruct (Z.of_nat (length token) =? 0); [done|]. by apply strnistr_loop_lower.
Qed.

Lemma lwip_strnistr_first_witness :
  lwip_strnistr [97; 98; 67; 100] [66; 99] 4 = Some 1
  ∧ first_match (map to_lower [97; 98; 67; 100]) (map to_lower [66; 99]) 4
      (lwip_strnistr [97; 98; 67; 100] [66; 99] 4).
Proof.
  split; [reflexivity|].
  apply lwip_strnistr_first; [decide_now|decide_now|discriminate|reflexivity].
Defined.

(** [lwip_stricmp] (def.c) returns 0 exactly on strings that are equal up
    to ASCII case, and 1 otherwise. *)
Theorem lwip_stricmp_spec str1 str2 : c_string str1 → c_string str2 →
  lwip_stricmp str1 str2 = if decide (map to_lower str1 = map to_lower str2) then 0 else 1.
Proof.
  intros H1. revert str2. induction H1 as [|c1 s1 Hc1 H1 IH]; intros s2 H2.
  - destruct H2 as [|c2 s2 [Hc2 Hn] H2]; [done|]. cbn [lwip_stricmp chr hd].
    rewrite chars_differ_spec by (done || decide_now).
    destruct (Z.eqb_spec (to_lower 0) (to_lower c2)) as [E|E]; cbn [negb].
    { symmetry in E. change (to_lower 0) with 0 in E.
      by apply (proj1 (to_lower_0 _ Hc2)) in E. }
    by rewrite decide_False.
  - cbn [lwip_stricmp]. rewrite chars_differ_hd by (try constructor; done).
    destruct Hc1 as [Hc1 Hn1%Z.eqb_neq]. cbn [chr hd] in *. rewrite Hn1. cbn [negb].
    destruct H2 as [|c2 s2 Hc2 H2].
    { cbn [map fmap list_fmap hd chr]. destruct (Z.eqb_spec (to_lower c1) 0) as [E|E]; cbn [negb].
      - apply (proj1 (to_lower_0 _ Hc1)) in E. by apply Z.eqb_neq in Hn1.
      - by rewrite decide_False. }
    cbn [map fmap list_fmap hd chr tail].
    destruct (Z.eqb_spec (to_lower c1) (to_lower c2)) as [E|E]; cbn [negb].
    + rewrite IH by done. rewrite E. apply decide_ext. split; [by intros ->|by intros [=]].
    + rewrite decide_False; [done|congruence].
Qed.

Lemma lwip_stricmp_spec_witness :
  lwip_stricmp [72; 105] [104; 73] = 0
  ∧ lwip_stricmp [72; 105; 33] [104; 73]
    = if decide (map to_lower [72; 105; 33] = map to_lower [104; 73]) then 0 else 1.
Proof. split; [reflexivity|]. apply lwip_stricmp_spec; decide_now. Defined.

(** ** Integer to decimal *)

Lemma store_ok buf i v : 0 ≤ i < Z.of_nat (length buf) →
  store buf i v = Clean (<[Z.to_nat i := v]> buf).
Proof.
  intros H. unfold store. destruct (Z.leb_spec 0 i); [|lia].
  destruct (Z.ltb_spec i (Z.of_nat (length buf))); [done|lia].
Qed.

Lemma digits_length f n : 0 ≤ n → (length (digits f n) ≤ f)%nat.
Proof.
  revert n. induction f as [|f IH]; intros n Hn; [done|]. cbn [digits].
  destruct (n =? 0); [cbn; lia|]. rewrite length_app. cbn [length].
  specialize (IH (n / 10) ltac:(width)). lia.
Qed.

Lemma itoa_loop_spec room : ∀ f buf tmp n,
  0 ≤ n < 10 ^ Z.of_nat f → (room ≤ tmp ≤ length buf)%nat →
  let ds := digits f n in
  let k := (room `min` length ds)%nat in
  itoa_loop room buf (Z.of_nat tmp) n
  = Clean (take (tmp - k) buf ++ drop (length ds - k) ds ++ drop tmp buf,
           Z.of_nat tmp - Z.of_nat k, n / 10 ^ Z.of_nat k).
Proof.
  induction room as [|room IH]; intros f buf tmp n Hn Htmp ds k.
  { subst k. cbn [Nat.min itoa_loop]. rewrite Nat.sub_0_r, Nat.sub_0_r, drop_all, app_nil_l.
    rewrite take_drop, Z.pow_0_r, Z.div_1_r. by rewrite Z.sub_0_r. }
  cbn [itoa_loop]. destruct (Z.eqb_spec n 0) as [->|Hn0]; cbn [negb].
  { assert (ds = []) as Hds by (subst ds; by destruct f).
    subst k. rewrite Hds. cbn. rewrite Nat.sub_0_r, take_drop, Z.sub_0_r. done. }
  destruct f as [|f]; [change (10 ^ Z.of_nat 0) with 1 in Hn; lia|].
  assert (ds = digits f (n / 10) ++ [48 + n mod 10]) as Hds.
  { subst ds. cbn [digits]. by destruct (Z.eqb_spec n 0). }
  rewrite Z.rem_mod_nonneg, Z.quot_div_nonneg by lia.
  rewrite u8_id by width. rewrite store_ok by lia.
  replace (Z.to_nat (Z.of_nat tmp - 1)) with (tmp - 1)%nat by lia. rewrite bind_clean.
  replace (Z.of_nat tmp - 1) with (Z.of_nat (tmp - 1)) by lia.
  rewrite (IH f); [|split; [width|]; apply Z.div_lt_upper_bound; [lia|]|].
  2:{ replace (Z.of_nat (S f)) with (1 + Z.of_nat f) in Hn by lia.
      rewrite Z.pow_add_r in Hn by lia. lia. }
  2:{ rewrite length_insert. lia. }
  set (ds' := digits f (n / 10)) in *. set (k' := (room `min` length ds')%nat).
  assert (k = S k') as Hk. { subst k. rewrite Hds, length_app. cbn [length]. lia. }
  rewrite Hk, Hds, length_app. cbn [length].
  assert (k' ≤ length ds')%nat by lia.
  f_equal. f_equal; [f_equal|].
  - rewrite take_insert_ge by lia. replace (tmp - 1 - k')%nat with (tmp - S k')%nat by lia.
    f_equal. replace (length ds' + 1 - S k')%nat with (length ds' - k')%nat by lia.
    rewrite drop_app_le by lia. rewrite <- app_assoc. f_equal.
    rewrite (drop_S _ (48 + n mod 10) (tmp - 1)).
    + cbn [app]. f_equal. replace (S (tmp - 1)) with tmp by lia. apply drop_insert_lt. lia.
    + apply list_lookup_insert_eq. lia.
  - lia.
  - rewrite Z.div_div by (apply Z.pow_pos_nonneg || apply Z.pow_nonzero || idtac; lia).
    f_equal. replace (Z.of_nat (S k')) with (1 + Z.of_nat k') by lia.
    rewrite Z.pow_add_r by lia. lia.
Qed.

Lemma digits_bounds f n : 0 ≤ n < 10 ^ Z.of_nat f →
  n < 10 ^ Z.of_nat (length (digits f n))
  ∧ (0 < n → 10 ^ (Z.of_nat (length (digits f n)) - 1) ≤ n).
Proof.
  revert n. induction f as [|f IH]; intros n Hn.
  { change (10 ^ Z.of_nat 0) with 1 in Hn. cbn. lia. }
  cbn [digits]. destruct (Z.eqb_spec n 0) as [->|Hn0]; [cbn; lia|].
  rewrite length_app. cbn [length].
  destruct (IH (n / 10)) as [IH1 IH2].
  { split; [width|]. apply Z.div_lt_upper_bound; [lia|].
    replace (Z.of_nat (S f)) with (1 + Z.of_nat f) in Hn by lia.
    rewrite Z.pow_add_r in Hn by lia. lia. }
  remember (length (digits f (n / 10))) as k eqn:Hk.
  replace (Z.of_nat (k + 1)) with (1 + Z.of_nat k) by lia. split.
  - rewrite Z.pow_add_r by lia. width.
  - intros _. replace (1 + Z.of_nat k - 1) with (Z.of_nat k) by lia.
    destruct k as [|k]; [change (10 ^ Z.of_nat 0) with 1; lia|].
    replace (Z.of_nat (S k)) with (1 + Z.of_nat k) by lia. rewrite Z.pow_add_r by lia.
    replace (Z.of_nat (S k) - 1) with (Z.of_nat k) in IH2 by lia.
    assert (0 < n / 10); [|specialize (IH2 ltac:(lia)); width].
    destruct (decide (n / 10 = 0)) as [E|]; [|width]. exfalso.
    assert (length (digits f (n / 10)) = 0%nat); [|lia]. rewrite E. by destruct f.
Qed.

(** The loop ran to the end exactly when there was room for all the digits. *)
Lemma digits_exhausted f n k : 0 ≤ n < 10 ^ Z.of_nat f →
  n / 10 ^ Z.of_nat (k `min` length (digits f n)) = 0 ↔ (length (digits f n) ≤ k)%nat.
Proof.
  intros Hn. destruct (digits_bounds f n Hn) as [H1 H2]. split.
  - intros H. destruct (decide (length (digits f n) ≤ k)%nat) as [|Hgt]; [done|]. exfalso.
    replace (k `min` length (digits f n))%nat with k in H by lia.
    assert (0 < n) as Hpos.
    { destruct (decide (n = 0)) as [->|]; [|lia]. exfalso. apply Hgt. destruct f; cbn; lia. }
    assert (0 < 10 ^ Z.of_nat k) by (apply Z.pow_pos_nonneg; lia).
    assert (10 ^ Z.of_nat k ≤ n).
    { etrans; [|apply H2, Hpos]. apply Z.pow_le_mono_r; lia. }
    assert (1 ≤ n / 10 ^ Z.of_nat k); [|lia]. apply Z.div_le_lower_bound; lia.
  - intros H. replace (k `min` length (digits f n))%nat with (length (digits f n)) by lia.
    apply Z.div_small. lia.
Qed.

Lemma digits_chars f n : 0 ≤ n → Forall (λ d, 48 ≤ d ≤ 57) (digits f n).
Proof.
  revert n. induction f as [|f IH]; intros n Hn; [constructor|]. cbn [digits].
  destruct (n =? 0); [constructor|].
  apply Forall_app_2; [apply IH; width|]. apply Forall_singleton. width.
Qed.

Lemma c_str_app s r : Forall (λ c, c ≠ 0) s → c_str (s ++ 0 :: r) = s.
Proof.
  induction 1 as [|c s Hc _ IH]; [done|]. cbn [c_str app].
  apply Z.eqb_neq in Hc. by rewrite Hc, IH.
Qed.

Lemma dec_val_digits f n : 0 ≤ n < 10 ^ Z.of_nat f → dec_val (digits f n) = n.
Proof.
  revert n. induction f as [|f IH]; intros n Hn.
  { change (10 ^ Z.of_nat 0) with 1 in Hn. cbn. lia. }
  cbn [digits]. destruct (Z.eqb_spec n 0) as [->|Hn0]; [done|].
  unfold dec_val in *. rewrite foldl_app. cbn [foldl]. rewrite IH; [width|].
  split; [width|]. apply Z.div_lt_upper_bound; [lia|].
  replace (Z.of_nat (S f)) with (1 + Z.of_nat f) in Hn by lia.
  rewrite Z.pow_add_r in Hn by lia. lia.
Qed.

Lemma atoi_decimal number : INT_MIN < number ≤ INT_MAX → atoi (decimal number) = number.
Proof.
  unfold INT_MIN, INT_MAX. intros H. unfold decimal. destruct (Z.eqb_spec number 0) as [->|Hn]; [done|].
  assert (dec_val (digits 10 (Z.abs number)) = Z.abs number) as Hv
    by (apply dec_val_digits; change (10 ^ Z.of_nat 10) with 10000000000; lia).
  destruct (Z.ltb_spec number 0); cbn [app].
  { unfold atoi. rewrite Hv. lia. }
  assert (atoi (digits 10 (Z.abs number)) = dec_val (digits 10 (Z.abs number))) as ->; [|lia].
  pose proof (digits_chars 10 (Z.abs number) ltac:(lia)) as Hc.
  destruct Hc as [|d ds Hd _]; [done|]. unfold atoi.
  assert (d ≠ 45) by lia. destruct d as [|p|p]; [done| |done].
  do 6 (destruct p as [p|p|]; try done).
Qed.

Lemma load_ok buf i v : 0 ≤ i → buf !! Z.to_nat i = Some v → load buf i = Clean v.
Proof. intros Hi Hv. unfold load. destruct (Z.leb_spec 0 i); [|lia]. by rewrite Hv. Qed.

Lemma c_str_0 buf : (0 < length buf)%nat → c_str (<[0%nat := 0]> buf) = [].
Proof. by destruct buf; [cbn; lia|]. Qed.

(** The three ways [itoa_digits] finishes, on the buffer [P ++ D ++ [0]] the
    digit loop leaves behind. *)
Lemma itoa_memmove P D res : (res ≤ length P)%nat →
  memmove (P ++ D ++ [0]) (Z.of_nat res) (Z.of_nat (length P)) (Z.of_nat (length D + 1))
  = Clean (take res P ++ (D ++ [0]) ++ drop (res + (length D + 1)) (P ++ D ++ [0])).
Proof.
  intros Hres. unfold memmove. set (B := P ++ D ++ [0]).
  assert (length B = length P + (length D + 1))%nat as HB
    by (unfold B; rewrite !length_app; done).
  rewrite !(proj2 (Z.leb_le _ _)) by lia. cbn [andb]. rewrite <- Nat2Z.inj_add, !Nat2Z.id.
  unfold B at 1 2. rewrite take_app_le by done. rewrite drop_app_length.
  rewrite (take_ge (D ++ [0])); [done|]. rewrite length_app. cbn [length]. lia.
Qed.

Lemma itoa_moved_str P D res r : (res ≤ length P)%nat → Forall (λ c, c ≠ 0) (take res P) →
  Forall (λ d, 48 ≤ d ≤ 57) D →
  c_str (take res P ++ (D ++ [0]) ++ r) = take res P ++ D.
Proof.
  intros Hres HP HD. rewrite <- app_assoc. cbn [app]. rewrite app_assoc, c_str_app; [done|].
  apply Forall_app_2; [done|]. eapply Forall_impl; [exact HD|]. cbn. lia.
Qed.

(** What the digit loop leaves behind when it starts at the end of the buffer. *)
Lemma itoa_run buf res n : (res < length buf)%nat → 0 ≤ n < 10 ^ 10 →
  let L := length buf in
  let D := digits 10 n in
  let k := ((L - 1 - res) `min` length D)%nat in
  itoa_digits buf (Z.of_nat L) (Z.of_nat res) n
  = let tmp := Z.of_nat (L - 1 - k) in
    let buf' := take (L - 1 - k) buf ++ drop (length D - k) D ++ [0] in
    if (length D <=? L - 1 - res)%nat then
      c ← load buf' tmp;
      if c =? 0 then
        buf ← store buf' (Z.of_nat res) 48;
        store buf (Z.of_nat res + 1) 0
      else memmove buf' (Z.of_nat res) tmp (Z.of_nat (k + 1))
    else store buf' 0 0.
Proof.
  intros Hres Hn L D k. unfold itoa_digits. rewrite store_ok by lia. rewrite bind_clean.
  replace (Z.to_nat (Z.of_nat L - 1)) with (L - 1)%nat by lia.
  replace (Z.to_nat (Z.of_nat L - 1 - Z.of_nat res)) with (L - 1 - res)%nat by lia.
  replace (Z.of_nat L - 1) with (Z.of_nat (L - 1)) by lia.
  rewrite (itoa_loop_spec _ 10) by (rewrite ?length_insert; lia). rewrite bind_clean.
  cbv beta iota zeta. fold D k.
  assert (drop (L - 1) (<[(L - 1)%nat:=0]> buf) = [0]) as ->.
  { rewrite drop_insert_ge by lia.
    destruct (drop (L - 1) buf) as [|x [|y l]] eqn:E;
      apply (f_equal length) in E; rewrite length_drop in E; cbn [length] in E; fold L in E; try lia.
    by rewrite Nat.sub_diag. }
  rewrite take_insert_ge by lia.
  replace (Z.of_nat (L - 1) - Z.of_nat k) with (Z.of_nat (L - 1 - k)) by lia.
  replace (Z.of_nat L - Z.of_nat (L - 1 - k)) with (Z.of_nat (k + 1)) by lia.
  pose proof (digits_exhausted 10 n (L - 1 - res) ltac:(lia)) as Hex. fold D k in Hex.
  destruct (Z.eqb_spec (n / 10 ^ Z.of_nat k) 0) as [E|E], (Nat.leb_spec (length D) (L - 1 - res));
    cbn [negb]; try done; exfalso; rewrite Hex in E; lia.
Qed.

(** The digits of [n] are appended to the [res] characters already in place. *)
Lemma itoa_digits_spec buf res n : (res < length buf)%nat → (1 < length buf)%nat →
  0 ≤ n < 10 ^ 10 → (n = 0 → res = 0%nat) → Forall (λ c, c ≠ 0) (take res buf) →
  let ds := if n =? 0 then [48] else digits 10 n in
  ∃ buf', itoa_digits buf (Z.of_nat (length buf)) (Z.of_nat res) n = Clean buf'
          ∧ length buf' = length buf
          ∧ c_str buf' = if (res + length ds <? length buf)%nat
                         then take res buf ++ ds else [].
Proof.
  intros Hres Hlen Hn Hz Hpre ds. rewrite itoa_run by done. cbv zeta.
  set (L := length buf) in *. pose proof (digits_chars 10 n ltac:(lia)) as Hc.
  destruct (digits_bounds 10 n ltac:(lia)) as [Hb _].
  destruct (Nat.leb_spec (length (digits 10 n)) (L - 1 - res)) as [Hfit|Hbig].
  2:{ rewrite store_ok by (rewrite !length_app; cbn [length]; lia).
      eexists. split; [done|]. rewrite c_str_0 by (rewrite !length_app; cbn [length]; lia).
      rewrite length_insert, !length_app, length_take, length_drop. cbn [length]. split; [lia|].
      assert (n ≠ 0) as Hn0%Z.eqb_neq by (intros ->; cbn in Hbig; lia). unfold ds. rewrite Hn0.
      by destruct (Nat.ltb_spec (res + length (digits 10 n)) L); [lia|]. }
  rewrite Nat.min_r, Nat.sub_diag, drop_0 by done.
  set (P := take (L - 1 - length (digits 10 n)) buf).
  assert (length P = L - 1 - length (digits 10 n))%nat as HP by (unfold P; rewrite length_take; lia).
  rewrite <- HP. destruct (decide (n = 0)) as [->|Hn0].
  - specialize (Hz eq_refl). subst res. cbn [digits Z.eqb app] in *.
    rewrite (load_ok _ _ 0) by (rewrite ?Nat2Z.id; lia || by apply list_lookup_middle).
    rewrite bind_clean. cbn [Z.eqb].
    rewrite store_ok by (rewrite length_app; cbn [length]; lia).
    rewrite bind_clean, store_ok by (rewrite length_insert, length_app; cbn [length] in *; lia).
    eexists. split; [done|]. rewrite !length_insert, length_app, HP. cbn [length] in *.
    split; [lia|]. unfold ds. cbn [length]. destruct (Nat.ltb_spec (0 + 1) L); [|lia].
    destruct P as [|x [|y P']]; cbn [length] in HP; [lia|done..].
  - unfold ds. rewrite (proj2 (Z.eqb_neq _ _) Hn0). clear ds.
    destruct (digits 10 n) as [|d D'] eqn:HD; [cbn in Hb; lia|].
    rewrite (load_ok _ _ d) by (rewrite ?Nat2Z.id; lia || by apply list_lookup_middle).
    rewrite bind_clean. assert (d ≠ 0) as Hd0%Z.eqb_neq by (inversion Hc; lia). rewrite Hd0.
    assert (take res P = take res buf) as Htake
      by (unfold P; rewrite take_take; f_equal; cbn [length] in *; lia).
    rewrite itoa_memmove by lia. eexists. split; [done|].
    rewrite itoa_moved_str by (rewrite ?Htake; (lia || done)).
    rewrite !length_app, length_take, length_drop, !length_app, HP. cbn [length] in *. split; [lia|].
    rewrite Htake. destruct (Nat.ltb_spec (res + S (length D')) L); [done|lia].
Qed.

(** [lwip_itoa] (def.c) never writes outside its buffer and fails no
    assertion; when the buffer holds the decimal representation and its NUL, the
    C string it leaves there is that representation and reads back as the
    number, and otherwise it leaves the empty string. *)
Theorem lwip_itoa_spec result number :
  INT_MIN < number ≤ INT_MAX → (0 < length result)%nat →
  ∃ buf, lwip_itoa result (Z.of_nat (length result)) number = Clean buf
         ∧ length buf = length result
         ∧ if (length (decimal number) <? length result)%nat
           then c_str buf = decimal number ∧ atoi (c_str buf) = number
           else c_str buf = [].
Proof.
  intros Hnum Hlen. pose proof (atoi_decimal number Hnum) as Hatoi.
  unfold INT_MIN, INT_MAX in Hnum. set (L := length result).
  assert (∃ buf, lwip_itoa result (Z.of_nat L) number = Clean buf ∧ length buf = L
          ∧ c_str buf = if (length (decimal number) <? L)%nat then decimal number else [])
    as (buf & H1 & H2 & H3).
  2:{ exists buf. split; [done|]. split; [done|]. destruct (_ <? _)%nat; [|done].
      by rewrite H3. }
  unfold lwip_itoa, INT_MIN. destruct (Z.eqb_spec number (-2147483648)); [lia|].
  destruct (Z.ltb_spec (Z.of_nat L) 2).
  { destruct (Z.eqb_spec (Z.of_nat L) 1); [|lia]. rewrite store_ok by lia.
    eexists. split; [done|]. rewrite length_insert, c_str_0 by done. split; [done|].
    destruct (Nat.ltb_spec (length (decimal number)) L) as [Hl|]; [|done]. exfalso.
    assert (decimal number = []) as Hd by (apply nil_length_inv; lia). rewrite Hd in Hatoi.
    cbn in Hatoi. subst number. done. }
  unfold decimal. destruct (Z.ltb_spec number 0) as [Hneg|Hpos].
  - rewrite store_ok, bind_clean by lia. destruct (Z.leb_spec 0 number); [lia|].
    destruct result as [|x result]; [done|]. cbn [length insert list_insert] in *.
    destruct (itoa_digits_spec (45 :: result) 1 (- number)) as (buf & H1 & H2 & H3);
      [cbn [length]; lia..|by constructor|]. cbn [length] in *. exists buf. split; [exact H1|].
    split; [exact H2|]. rewrite H3. destruct (Z.eqb_spec (- number) 0); [lia|].
    destruct (Z.eqb_spec number 0); [lia|]. rewrite Z.abs_neq by lia. done.
  - destruct (Z.leb_spec 0 number); [|lia].
    destruct (itoa_digits_spec result 0 number) as (buf & H1 & H2 & H3); [lia..|constructor|].
    exists buf. split; [exact H1|]. split; [exact H2|]. rewrite H3.
    rewrite Z.abs_eq by lia. by destruct (number =? 0).
Qed.

Lemma lwip_itoa_spec_witness :
  lwip_itoa [1; 1; 1; 1; 1] 5 (-203) = Clean [45; 50; 48; 51; 0]
  ∧ ∃ buf, lwip_itoa [1; 1; 1; 1] 4 (-203) = Clean buf ∧ length buf = 4%nat
           ∧ c_str buf = [].
Proof.
  split; [reflexivity|].
  exact (lwip_itoa_spec [1; 1; 1; 1] (-203) ltac:(split; reflexivity || discriminate) ltac:(cbn; lia)).
Defined.
