(* ===== verification/Chksum.v ===== *)
(** * Internet checksums (src/lwip/src/core/inet_chksum.c)

    The three selectable implementations of [lwip_standard_chksum] (the port
    compiles the second one), the checksum of a buffer, of a pbuf chain and of
    a pbuf chain with an IPv4 or IPv6 pseudo header, and the partial variants.

    Data is a list of bytes together with the address of the first one, because
    the second and third implementation treat an odd address specially.  A pbuf
    chain is seen here as the list of its segments, [(payload, bytes)]; [q->len]
    is the number of bytes. *)
From S2P Require Import Prelude Def.

(** ** The macros of inet_chksum.h *)

Definition SWAP_BYTES_IN_WORD (w : Z) : Z :=
  Z.lor (Z.shiftl (Z.land w 0xff) 8) (Z.shiftr (Z.land w 0xff00) 8).
Definition FOLD_U32T (u : Z) : Z := u32 (Z.shiftr u 16 + Z.land u 0x0000ffff).

(** [*ps++] for a [const u16_t *] on the little-endian target. *)
Definition u16_le (b0 b1 : Z) : Z := b0 + 256 * b1.

(** ** [lwip_standard_chksum], version 1 *)

Fixpoint chksum1_loop (octets : list Z) (acc : Z) : Z :=
  match octets with
  | b0 :: b1 :: octets' =>
      let src := Z.lor (u16 (Z.shiftl b0 8)) b1 in
      chksum1_loop octets' (u32 (acc + src))
  | [b] => let src := u16 (Z.shiftl b 8) in u32 (acc + src)
  | [] => acc
  end.

Definition lwip_standard_chksum_1 (data : list Z) : Z :=
  let acc := chksum1_loop data 0 in
  let acc := u32 (Z.shiftr acc 16 + Z.land acc 0x0000ffff) in
  let acc :=
    if negb (Z.land acc 0xffff0000 =? 0)
    then u32 (Z.shiftr acc 16 + Z.land acc 0x0000ffff) else acc in
  lwip_htons (u16 acc).

(** ** [lwip_standard_chksum], version 2 (the compiled one) *)

(** [while (len > 1) { sum += *ps++; len -= 2; }]; also returns what is left. *)
Fixpoint sum_u16 (data : list Z) (sum : Z) : Z * list Z :=
  match data with
  | b0 :: b1 :: data' => sum_u16 data' (u32 (sum + u16_le b0 b1))
  | _ => (sum, data)
  end.

Definition lwip_standard_chksum (dataptr : Z) (data : list Z) : Z :=
  let odd := Z.odd dataptr in
  let '(t1, pb) :=
    match data with
    | b :: pb => if odd then (b, pb) else (0, data)
    | [] => (0, [])
    end in
  let '(sum, rest) := sum_u16 pb 0 in
  let t0 := match rest with b :: _ => b | [] => 0 end in
  let sum := u32 (sum + u16_le t0 t1) in
  let sum := FOLD_U32T (FOLD_U32T sum) in
  let sum := if odd then SWAP_BYTES_IN_WORD sum else sum in
  u16 sum.

(** ** [lwip_standard_chksum], version 3 *)

(** [*pl++] for a [const u32_t *]. *)
Definition u32_le (b0 b1 b2 b3 : Z) : Z := u16_le b0 b1 + 65536 * u16_le b2 b3.

(** One "ping" or "pong": a 32-bit addition with the carry added back. *)
Definition add_carry (sum w : Z) : Z :=
  let tmp := u32 (sum + w) in
  if tmp <? sum then u32 (tmp + 1) else tmp.

Fixpoint sum_u32x2 (data : list Z) (sum : Z) : Z * list Z :=
  match data with
  | b0 :: b1 :: b2 :: b3 :: b4 :: b5 :: b6 :: b7 :: data' =>
      let tmp := add_carry sum (u32_le b0 b1 b2 b3) in
      sum_u32x2 data' (add_carry tmp (u32_le b4 b5 b6 b7))
  | _ => (sum, data)
  end.

Definition lwip_standard_chksum_3 (dataptr : Z) (data : list Z) : Z :=
  let odd := Z.odd dataptr in
  let '(t1, pb, ps) :=
    match data with
    | b :: pb => if odd then (b, pb, dataptr + 1) else (0, data, dataptr)
    | [] => (0, [], dataptr)
    end in
  let '(sum, pb) :=
    match pb with
    | b0 :: b1 :: pb' =>
        if negb (Z.land ps 3 =? 0) then (u32 (0 + u16_le b0 b1), pb') else (0, pb)
    | _ => (0, pb)
    end in
  let '(sum, pb) := sum_u32x2 pb sum in
  let sum := FOLD_U32T sum in
  let '(sum, rest) := sum_u16 pb sum in
  let t0 := match rest with b :: _ => b | [] => 0 end in
  let sum := u32 (sum + u16_le t0 t1) in
  let sum := FOLD_U32T (FOLD_U32T sum) in
  let sum := if odd then SWAP_BYTES_IN_WORD sum else sum in
  u16 sum.

(** ** Checksums of buffers and chains *)

Abbreviation segment := (Z * list Z)%type.

Definition inet_chksum (dataptr : Z) (data : list Z) : Z :=
  u16 (Z.lnot (lwip_standard_chksum dataptr data)).

(** The loop of [inet_chksum_pbuf] and [inet_cksum_pseudo_base]: accumulator
    and [swapped]. *)
Fixpoint chksum_chain (q : list segment) (acc : Z) (swapped : bool) : Z * bool :=
  match q with
  | [] => (acc, swapped)
  | (payload, bytes) :: next =>
      let acc := u32 (acc + lwip_standard_chksum payload bytes) in
      let acc := FOLD_U32T acc in
      if negb (Z.of_nat (length bytes) mod 2 =? 0)
      then chksum_chain next (SWAP_BYTES_IN_WORD acc) (negb swapped)
      else chksum_chain next acc swapped
  end.

Definition inet_chksum_pbuf (p : list segment) : Z :=
  let '(acc, swapped) := chksum_chain p 0 false in
  let acc := if swapped then SWAP_BYTES_IN_WORD acc else acc in
  u16 (Z.lnot (Z.land acc 0xffff)).

(** The tail shared by the pseudo header checksums: [proto] and [proto_len] are
    added and the sum is folded and inverted. *)
Definition pseudo_finish (acc : Z) (swapped : bool) (proto proto_len : Z) : Z :=
  let acc := if swapped then SWAP_BYTES_IN_WORD acc else acc in
  let acc := u32 (acc + lwip_htons (u16 proto)) in
  let acc := u32 (acc + lwip_htons proto_len) in
  let acc := FOLD_U32T (FOLD_U32T acc) in
  u16 (Z.lnot (Z.land acc 0xffff)).

Definition inet_cksum_pseudo_base (p : list segment) (proto proto_len acc : Z) : Z :=
  let '(acc, swapped) := chksum_chain p acc false in
  pseudo_finish acc swapped proto proto_len.

(** The two half words of a 32-bit address word. *)
Definition add_addr (acc addr : Z) : Z :=
  let acc := u32 (acc + Z.land addr 0xffff) in
  u32 (acc + Z.land (Z.shiftr addr 16) 0xffff).

Definition inet_chksum_pseudo (p : list segment) (proto proto_len src dest : Z) : Z :=
  let acc := add_addr (add_addr 0 src) dest in
  let acc := FOLD_U32T (FOLD_U32T acc) in
  inet_cksum_pseudo_base p proto proto_len acc.

Fixpoint add_addr6 (acc : Z) (src dest : list Z) : Z :=
  match src, dest with
  | s :: src', d :: dest' => add_addr6 (add_addr (add_addr acc s) d) src' dest'
  | _, _ => acc
  end.

Definition ip6_chksum_pseudo (p : list segment) (proto proto_len : Z) (src dest : list Z) : Z :=
  let acc := add_addr6 0 src dest in
  let acc := FOLD_U32T (FOLD_U32T acc) in
  inet_cksum_pseudo_base p proto proto_len acc.

(** LWIP_IPV6 is 0: [ip_chksum_pseudo] is its IPv4 branch. *)
Definition ip_chksum_pseudo (p : list segment) (proto proto_len src dest : Z) : Z :=
  inet_chksum_pseudo p proto proto_len src dest.

(** The loop of [inet_cksum_pseudo_partial_base]: only the first [chksum_len]
    bytes are summed. *)
Fixpoint chksum_chain_partial (q : list segment) (chksum_len acc : Z) (swapped : bool)
    : out (Z * bool) :=
  match q with
  | [] => mret (acc, swapped)
  | (payload, bytes) :: next =>
      if 0 <? chksum_len then
        let chklen := Z.of_nat (length bytes) in
        let chklen := if chksum_len <? chklen then chksum_len else chklen in
        let acc := u32 (acc + lwip_standard_chksum payload (take (Z.to_nat chklen) bytes)) in
        let chksum_len := u16 (chksum_len - chklen) in
        _ ← lwip_assert "delete me" (chksum_len <? 0x7fff);
        let acc := FOLD_U32T acc in
        if negb (Z.of_nat (length bytes) mod 2 =? 0)
        then chksum_chain_partial next chksum_len (SWAP_BYTES_IN_WORD acc) (negb swapped)
        else chksum_chain_partial next chksum_len acc swapped
      else mret (acc, swapped)
  end.

Definition inet_cksum_pseudo_partial_base (p : list segment)
    (proto proto_len chksum_len acc : Z) : out Z :=
  '(acc, swapped) ← chksum_chain_partial p chksum_len acc false;
  mret (pseudo_finish acc swapped proto proto_len).

Definition inet_chksum_pseudo_partial (p : list segment)
    (proto proto_len chksum_len src dest : Z) : out Z :=
  let acc := add_addr (add_addr 0 src) dest in
  let acc := FOLD_U32T (FOLD_U32T acc) in
  inet_cksum_pseudo_partial_base p proto proto_len chksum_len acc.

Definition ip6_chksum_pseudo_partial (p : list segment)
    (proto proto_len chksum_len : Z) (src dest : list Z) : out Z :=
  let acc := add_addr6 0 src dest in
  let acc := FOLD_U32T (FOLD_U32T acc) in
  inet_cksum_pseudo_partial_base p proto proto_len chksum_len acc.

Definition ip_chksum_pseudo_partial (p : list segment)
    (proto proto_len chksum_len src dest : Z) : out Z :=
  inet_chksum_pseudo_partial p proto proto_len chksum_len src dest.

(** ** The reference: RFC 1071

    One's complement addition with end-around carry over the 16-bit words of
    the data, an odd last byte being padded with zero. *)

Definition oc_add (x y : Z) : Z := if x + y <? 65536 then x + y else x + y - 65535.
Definition rfc1071 (words : list Z) : Z := foldr oc_add 0 words.

Fixpoint words_le (data : list Z) : list Z :=
  match data with
  | b0 :: b1 :: data' => u16_le b0 b1 :: words_le data'
  | [b] => [b]
  | [] => []
  end.

Definition bytes (l : list Z) : Prop := Forall is_u8 l.
#[export] Instance bytes_dec l : Decision (bytes l).
Proof. unfold bytes. apply _. Defined.

(** The data of a chain, and the words of an IPv4 address and pseudo header as
    they are stored in memory (all in network order). *)
(** The receiver's check: the sum of all words is 0xffff. *)
Definition verifies (l : list Z) : Prop := rfc1071 (words_le l) = 0xffff.
Definition chain_data (p : list segment) : list Z := concat (map snd p).
Definition addr_words (addr : Z) : list Z := [addr mod 65536; addr / 65536].
Definition pseudo_words (proto proto_len : Z) (addrs : list Z) : list Z :=
  concat (map addr_words addrs) ++ [lwip_htons proto; lwip_htons proto_len].

(** ** One's complement arithmetic

    [oc_eq a b]: the nonnegative sums [a] and [b] fold to the same 16-bit word.
    [canon] is that word. *)

Definition oc_eq (a b : Z) : Prop := a mod 65535 = b mod 65535 ∧ (a = 0 ↔ b = 0).
Definition canon (s : Z) : Z := if s =? 0 then 0 else (s - 1) mod 65535 + 1.

#[export] Instance oc_eq_equiv : Equivalence oc_eq.
Proof. unfold oc_eq. split; repeat intro; intuition congruence. Qed.

Lemma canon_range s : 0 ≤ canon s ≤ 65535.
Proof. unfold canon. destruct (s =? 0); [lia|]. width. Qed.

Lemma canon_oc_eq s : 0 ≤ s → oc_eq (canon s) s.
Proof. intros Hs. unfold canon, oc_eq. destruct (Z.eqb_spec s 0) as [->|]; [done|]. width. Qed.

Lemma canon_unique x s : 0 ≤ s → 0 ≤ x ≤ 65535 → oc_eq x s → x = canon s.
Proof.
  unfold canon, oc_eq. intros Hs Hx [Hm Hz]. destruct (Z.eqb_spec s 0) as [->|]; [tauto|]. width.
Qed.

Lemma canon_proper a b : 0 ≤ a → 0 ≤ b → oc_eq a b → canon a = canon b.
Proof.
  intros Ha Hb H. apply canon_unique; [done|apply canon_range|].
  etrans; [by apply canon_oc_eq|done].
Qed.

Lemma oc_eq_add a b c d : 0 ≤ a → 0 ≤ b → 0 ≤ c → 0 ≤ d →
  oc_eq a b → oc_eq c d → oc_eq (a + c) (b + d).
Proof.
  intros Ha Hb Hc Hd [H1 Z1] [H2 Z2]. split; [|lia].
  rewrite (Z.add_mod a), (Z.add_mod b) by lia. by rewrite H1, H2.
Qed.

Lemma oc_eq_mul256 a b : oc_eq a b → oc_eq (256 * a) (256 * b).
Proof.
  intros [H1 Z1]. split; [|lia].
  rewrite (Z.mul_mod 256 a), (Z.mul_mod 256 b) by lia. by rewrite H1.
Qed.

Lemma oc_eq_65536 a : oc_eq (65536 * a) a.
Proof.
  split; [|lia]. replace (65536 * a) with (a + a * 65535) by lia. apply Z.mod_add. lia.
Qed.

Lemma FOLD_eq s : 0 ≤ s < 4294967296 → FOLD_U32T s = s / 65536 + s mod 65536.
Proof.
  intros Hs. unfold FOLD_U32T. rewrite Z.shiftr_div_pow2 by lia.
  change 0x0000ffff with (Z.ones 16). rewrite Z.land_ones by lia.
  change (2 ^ 16) with 65536. width.
Qed.

Lemma FOLD_oc s : 0 ≤ s < 4294967296 → oc_eq (FOLD_U32T s) s.
Proof.
  intros Hs. rewrite FOLD_eq by done. split; [|width].
  rewrite (Z.div_mod s 65536) at 3 by lia.
  replace (65536 * (s / 65536) + s mod 65536)
    with (s / 65536 + s mod 65536 + (s / 65536) * 65535) by lia.
  by rewrite Z.mod_add by lia.
Qed.

Lemma FOLD_once s : 0 ≤ s ≤ 131070 → FOLD_U32T s = canon s.
Proof.
  intros Hs. apply canon_unique; [lia| |apply FOLD_oc; lia]. rewrite FOLD_eq by lia. width.
Qed.

Lemma FOLD_twice s : 0 ≤ s < 4294967296 → FOLD_U32T (FOLD_U32T s) = canon s.
Proof.
  intros Hs. assert (0 ≤ FOLD_U32T s ≤ 131070) by (rewrite FOLD_eq by done; width).
  rewrite FOLD_once by done. apply canon_proper; [lia..|]. by apply FOLD_oc.
Qed.

Lemma SWAP_eq w : 0 ≤ w < 65536 → SWAP_BYTES_IN_WORD w = w mod 256 * 256 + w / 256.
Proof.
  intros Hw. rewrite <- lwip_htons_eq by exact Hw. unfold lwip_htons. symmetry. apply u16_id.
  fold (SWAP_BYTES_IN_WORD w). unfold SWAP_BYTES_IN_WORD.
  change 0xff with (255 * 2 ^ 0). change 0xff00 with (255 * 2 ^ 8).
  rewrite !land_byte, Z.shiftl_mul_pow2, Z.shiftr_div_pow2 by lia.
  rewrite Z.div_mul by lia. rewrite Z.pow_0_r, Z.div_1_r, Z.mul_1_r.
  change (2 ^ 8) with 256. rewrite (lor_add _ _ 8); width.
Qed.

Lemma SWAP_oc w : 0 ≤ w < 65536 → oc_eq (SWAP_BYTES_IN_WORD w) (256 * w).
Proof.
  intros Hw. rewrite SWAP_eq by done. split; [|width].
  rewrite (Z.div_mod w 256) at 3 by lia.
  replace (256 * (256 * (w / 256) + w mod 256))
    with (w mod 256 * 256 + w / 256 + (w / 256) * 65535) by lia.
  by rewrite Z.mod_add by lia.
Qed.

Lemma SWAP_canon s : 0 ≤ s → SWAP_BYTES_IN_WORD (canon s) = canon (256 * s).
Proof.
  intros Hs. pose proof (canon_range s).
  apply canon_unique; [lia|rewrite SWAP_eq by lia; width|].
  etrans; [apply SWAP_oc; lia|]. by apply oc_eq_mul256, canon_oc_eq.
Qed.

(** ** Byte sums

    [bsum odd l] adds up the bytes of [l], those at odd positions (counted from
    an odd position when [odd]) weighing 256. *)

Fixpoint bsum (odd : bool) (l : list Z) : Z :=
  match l with
  | [] => 0
  | b :: l' => (if odd then 256 * b else b) + bsum (negb odd) l'
  end.

Lemma bsum_nonneg o l : bytes l → 0 ≤ bsum o l.
Proof.
  intros Hl. revert o. induction Hl as [|b l Hb Hl IH]; intros o; cbn [bsum]; [lia|].
  specialize (IH (negb o)). unfold is_u8 in Hb. destruct o; lia.
Qed.

Lemma bsum_bound l : bytes l → ∀ o, bsum o l ≤ 65535 * ((Z.of_nat (length l) + 1) / 2).
Proof.
  induction l as [|a|a b l IH] using list_pair_ind; intros Hl o; cbn [bsum length].
  - done.
  - apply Forall_cons in Hl as [Ha _]. unfold is_u8 in Ha. change ((Z.of_nat 1 + 1) / 2) with 1. destruct o; lia.
  - apply Forall_cons in Hl as [Ha [Hb Hl]%Forall_cons]. specialize (IH Hl o).
    rewrite negb_involutive. unfold is_u8 in *.
    replace (Z.of_nat (S (S (length l))) + 1) with (Z.of_nat (length l) + 1 + 1 * 2) by lia.
    rewrite Z.div_add by lia. destruct o; cbn [negb]; lia.
Qed.

(** The length bound of the compiled checksum: 0x20000 bytes. *)
Lemma bsum_u32 o l : bytes l → Z.of_nat (length l) ≤ 0x20000 → 0 ≤ bsum o l < 4294967296.
Proof.
  intros Hl Hlen. split; [by apply bsum_nonneg|].
  eapply Z.le_lt_trans; [by apply bsum_bound|]. width.
Qed.

Lemma bsum_app o a b :
  bsum o (a ++ b) = bsum o a + bsum (xorb o (Nat.odd (length a))) b.
Proof.
  revert o. induction a as [|x a IH]; intros o; cbn [bsum app length].
  { by rewrite xorb_false_r. }
  rewrite IH, Nat.odd_succ, <- Nat.negb_odd.
  replace (xorb (negb o) (Nat.odd (length a))) with (xorb o (negb (Nat.odd (length a))))
    by (destruct o, (Nat.odd (length a)); done).
  lia.
Qed.

(** Shifting by one byte position multiplies the sum by 256. *)
Lemma bsum_swap l : bytes l → ∀ o, oc_eq (bsum (negb o) l) (256 * bsum o l).
Proof.
  induction 1 as [|b l Hb Hl IH]; intros o; cbn [bsum]; [done|].
  rewrite Z.mul_add_distr_l. unfold is_u8 in Hb.
  pose proof (bsum_nonneg (negb o) l Hl). pose proof (bsum_nonneg (negb (negb o)) l Hl).
  apply oc_eq_add; [destruct o; cbn [negb]; lia|destruct o; lia|lia|lia| |apply IH].
  destruct o; cbn [negb]; [|done].
  replace (256 * (256 * b)) with (65536 * b) by lia. symmetry. apply oc_eq_65536.
Qed.

Lemma sum_words_bsum l : foldr Z.add 0 (words_le l) = bsum false l.
Proof.
  induction l as [|a|a b l IH] using list_pair_ind; cbn [words_le foldr bsum negb]; [done|lia|].
  rewrite IH. unfold u16_le. lia.
Qed.

(** RFC 1071 addition computes the canonical word of the plain sum. *)
Lemma rfc1071_canon ws : Forall is_u16 ws → rfc1071 ws = canon (foldr Z.add 0 ws).
Proof.
  intros H. assert (∀ ws, Forall is_u16 ws → 0 ≤ foldr Z.add 0 ws) as Hnn.
  { induction 1 as [|w ws' Hw _ IH]; cbn; [lia|]. unfold is_u16 in Hw. lia. }
  induction H as [|w ws Hw H IH]; [done|]. unfold rfc1071 in *. cbn [foldr]. rewrite IH.
  specialize (Hnn ws H). set (s := foldr Z.add 0 ws) in *. unfold is_u16 in Hw.
  pose proof (canon_range s). pose proof (canon_oc_eq s Hnn) as Hc.
  assert (oc_eq (w + canon s) (w + s)) as Hsum by (apply oc_eq_add; lia || done).
  apply canon_unique; [lia| |]; unfold oc_add;
    destruct (Z.ltb_spec (w + canon s) 65536); [lia|lia|done|].
  etrans; [|exact Hsum]. split; [|lia].
  replace (w + canon s) with (w + canon s - 65535 + 1 * 65535) at 2 by lia.
  by rewrite Z.mod_add by lia.
Qed.

Lemma words_le_u16 l : bytes l → Forall is_u16 (words_le l).
Proof.
  unfold is_u16. induction l as [|a|a b l IH] using list_pair_ind; intros Hl; cbn [words_le].
  - constructor.
  - apply Forall_cons in Hl as [Ha _]. unfold is_u8 in Ha. apply Forall_singleton. lia.
  - apply Forall_cons in Hl as [Ha [Hb Hl]%Forall_cons]. unfold is_u8, u16_le in *.
    constructor; [lia|]. by apply IH.
Qed.

Lemma rfc1071_words l : bytes l → rfc1071 (words_le l) = canon (bsum false l).
Proof. intros Hl. by rewrite rfc1071_canon, sum_words_bsum by by apply words_le_u16. Qed.

(** ** The three implementations of [lwip_standard_chksum] *)

Lemma sum_u16_spec data : ∀ sum, bytes data → 0 ≤ sum → sum + bsum false data < 4294967296 →
  let '(s, rest) := sum_u16 data sum in
  0 ≤ s ∧ s + match rest with b :: _ => b | [] => 0 end = sum + bsum false data.
Proof.
  induction data as [|a|a b l IH] using list_pair_ind; intros sum Hl Hs Hlt; cbn [sum_u16 bsum negb].
  - lia.
  - lia.
  - apply Forall_cons in Hl as [Ha [Hb Hl]%Forall_cons]. cbn [bsum negb] in Hlt.
    pose proof (bsum_nonneg false l Hl). unfold is_u8, u16_le in *. rewrite u32_id by width.
    specialize (IH (sum + (a + 256 * b)) Hl ltac:(lia) ltac:(lia)).
    destruct (sum_u16 l (sum + (a + 256 * b))) as [s rest]. lia.
Qed.

(** Folding, the final byte swap of an odd start and the truncation. *)
Lemma chksum_finish odd data s : bytes data → 0 ≤ s < 4294967296 → oc_eq s (bsum odd data) →
  let sum := FOLD_U32T (FOLD_U32T s) in
  u16 (if odd then SWAP_BYTES_IN_WORD sum else sum) = canon (bsum false data).
Proof.
  intros Hl Hs Hoc. cbv zeta. rewrite FOLD_twice by done.
  pose proof (bsum_nonneg false data Hl). pose proof (bsum_nonneg odd data Hl).
  rewrite (canon_proper s (bsum odd data)) by (lia || done).
  assert ((if odd then SWAP_BYTES_IN_WORD (canon (bsum odd data)) else canon (bsum odd data))
          = canon (bsum false data)) as ->.
  { destruct odd; [|done]. rewrite SWAP_canon by lia. apply canon_proper; [lia..|].
    symmetry. apply (bsum_swap data Hl true). }
  pose proof (canon_range (bsum false data)). apply u16_id. unfold is_u16. lia.
Qed.

Lemma lwip_standard_chksum_canon dataptr data :
  bytes data → Z.of_nat (length data) ≤ 0x20000 →
  lwip_standard_chksum dataptr data = canon (bsum false data).
Proof.
  intros Hl Hlen. pose proof (bsum_u32 (Z.odd dataptr) data Hl Hlen) as Hsum.
  rewrite <- (chksum_finish (Z.odd dataptr) data _ Hl Hsum (reflexivity _)). unfold lwip_standard_chksum. cbv zeta.
  set (o := Z.odd dataptr) in *.
  assert (match data with
          | b :: pb => if o then (b, pb) else (0, data)
          | [] => (0, []) end
          = if o then (hd 0 data, tail data) else (0, data)) as -> by (destruct data, o; done).
  destruct o.
  - destruct data as [|b pb]; [done|]. cbn [hd tail bsum negb] in *.
    apply Forall_cons in Hl as [Hb Hpb]. pose proof (bsum_nonneg false pb Hpb). unfold is_u8 in Hb.
    pose proof (sum_u16_spec pb 0 Hpb ltac:(lia) ltac:(lia)) as Hs.
    destruct (sum_u16 pb 0) as [s rest]. unfold u16_le.
    destruct Hs as [_ Hs]. set (t0 := match rest with b :: _ => b | [] => 0 end) in *.
    replace (s + (t0 + 256 * b)) with (256 * b + bsum false pb) by lia. by rewrite u32_id by width.
  - pose proof (sum_u16_spec data 0 Hl ltac:(lia) ltac:(lia)) as Hs.
    destruct (sum_u16 data 0) as [s rest]. unfold u16_le.
    destruct Hs as [_ Hs]. set (t0 := match rest with b :: _ => b | [] => 0 end) in *.
    replace (s + (t0 + 256 * 0)) with (bsum false data) by lia. by rewrite u32_id by width.
Qed.

(** Version 1 sums the big-endian words. *)
Lemma chksum1_loop_spec data : ∀ acc, bytes data → 0 ≤ acc → acc + bsum true data < 4294967296 →
  chksum1_loop data acc = acc + bsum true data.
Proof.
  induction data as [|a|a b l IH] using list_pair_ind; intros acc Hl Hs Hlt;
    cbn [chksum1_loop bsum negb] in *.
  - lia.
  - apply Forall_cons in Hl as [Ha _]. rewrite Z.shiftl_mul_pow2 by lia. width.
  - apply Forall_cons in Hl as [Ha [Hb Hl]%Forall_cons].
    pose proof (bsum_nonneg true l Hl). unfold is_u8 in *.
    rewrite Z.shiftl_mul_pow2, u16_id by width.
    rewrite (lor_add a b 8) by width. rewrite u32_id by width. rewrite IH by (done || lia). lia.
Qed.

Lemma lwip_standard_chksum_1_canon data : bytes data → Z.of_nat (length data) ≤ 0x20000 →
  lwip_standard_chksum_1 data = canon (bsum false data).
Proof.
  intros Hl Hlen. pose proof (bsum_u32 true data Hl Hlen) as Hsum. unfold lwip_standard_chksum_1.
  rewrite chksum1_loop_spec by (done || lia). rewrite Z.add_0_l. set (s := bsum true data) in *.
  fold (FOLD_U32T s). cbv zeta. pose proof (FOLD_eq s Hsum) as HF.
  assert ((if negb (Z.land (FOLD_U32T s) 0xffff0000 =? 0)
           then u32 (Z.shiftr (FOLD_U32T s) 16 + Z.land (FOLD_U32T s) 0x0000ffff)
           else FOLD_U32T s) = canon s) as ->.
  { fold (FOLD_U32T (FOLD_U32T s)). rewrite FOLD_twice by done.
    destruct (Z.eqb_spec (Z.land (FOLD_U32T s) 0xffff0000) 0) as [E|E]; [|done]. cbn [negb].
    apply canon_unique; [lia| |by apply FOLD_oc].
    change 0xffff0000 with (Z.shiftl (Z.ones 16) 16) in E. rewrite land_shiftl_mask in E by lia.
    rewrite Z.land_ones, Z.shiftl_mul_pow2, Z.shiftr_div_pow2 in E by lia.
    change (2 ^ 16) with 65536 in E. width. }
  pose proof (canon_range s). rewrite u16_id, lwip_htons_eq by (unfold is_u16; lia).
  rewrite <- SWAP_eq by lia. rewrite SWAP_canon by lia. pose proof (bsum_nonneg false data Hl).
  apply canon_proper; [lia..|]. symmetry. apply (bsum_swap data Hl true).
Qed.

Lemma add_carry_spec sum w : is_u32 sum → is_u32 w →
  is_u32 (add_carry sum w) ∧ oc_eq (add_carry sum w) (sum + w).
Proof.
  unfold is_u32, add_carry. intros Hs Hw. cbv zeta.
  destruct (decide (sum + w < 4294967296)) as [Hlt|Hge].
  - rewrite u32_id by width. destruct (Z.ltb_spec (sum + w) sum); [lia|]. split; [lia|done].
  - replace (u32 (sum + w)) with (sum + w - 4294967296) by width.
    destruct (Z.ltb_spec (sum + w - 4294967296) sum); [|lia]. rewrite u32_id by width.
    split; [lia|]. split; [|lia].
    replace (sum + w) with (sum + w - 4294967296 + 1 + 65537 * 65535) at 2 by lia.
    by rewrite Z.mod_add by lia.
Qed.

Lemma u32_le_spec b0 b1 b2 b3 l : bytes [b0; b1; b2; b3] →
  is_u32 (u32_le b0 b1 b2 b3)
  ∧ oc_eq (u32_le b0 b1 b2 b3) (u16_le b0 b1 + u16_le b2 b3)
  ∧ bsum false (b0 :: b1 :: b2 :: b3 :: l) = u16_le b0 b1 + u16_le b2 b3 + bsum false l.
Proof.
  intros H. repeat (apply Forall_cons in H as [? H]). unfold is_u8, is_u32, u32_le, u16_le in *.
  split; [lia|]. split; [|cbn [bsum negb]; lia].
  apply oc_eq_add; [lia..|done|]. apply oc_eq_65536.
Qed.

Lemma sum_u32x2_spec n : ∀ data sum, (length data ≤ n)%nat → bytes data → is_u32 sum →
  let '(s, rest) := sum_u32x2 data sum in
  is_u32 s ∧ bytes rest ∧ (length rest < 8)%nat
  ∧ oc_eq (s + bsum false rest) (sum + bsum false data).
Proof.
  induction n as [|n IH]; intros data sum Hn Hl Hs.
  { destruct data; [|cbn in Hn; lia]. cbn [sum_u32x2].
    split; [exact Hs|]. split; [exact Hl|]. split; [cbn; lia|done]. }
  destruct data as [|b0 [|b1 [|b2 [|b3 [|b4 [|b5 [|b6 [|b7 data]]]]]]]];
    try (cbn [sum_u32x2]; split; [exact Hs|]; split; [exact Hl|]; split; [cbn; lia|done]).
  cbn [sum_u32x2]. apply (Forall_app is_u8 [b0; b1; b2; b3; b4; b5; b6; b7] data) in Hl as [H8 Hl].
  apply (Forall_app is_u8 [b0; b1; b2; b3] [b4; b5; b6; b7]) in H8 as [H03 H47].
  destruct (u32_le_spec _ _ _ _ (b4 :: b5 :: b6 :: b7 :: data) H03) as (Hw1 & Ho1 & Hb1).
  destruct (u32_le_spec _ _ _ _ data H47) as (Hw2 & Ho2 & Hb2).
  destruct (add_carry_spec sum _ Hs Hw1) as [Ht1 Hc1].
  destruct (add_carry_spec _ _ Ht1 Hw2) as [Ht2 Hc2].
  set (s1 := add_carry sum (u32_le b0 b1 b2 b3)) in *.
  set (s2 := add_carry s1 (u32_le b4 b5 b6 b7)) in *.
  specialize (IH data s2 ltac:(cbn in Hn; lia) Hl Ht2).
  destruct (sum_u32x2 data s2) as [s rest]. destruct IH as (H1 & H2 & H3 & H4).
  split; [done|]. split; [done|]. split; [done|]. etrans; [exact H4|].
  rewrite Hb1, Hb2. pose proof (bsum_nonneg false data Hl).
  repeat (apply Forall_cons in H03 as [? H03]). repeat (apply Forall_cons in H47 as [? H47]).
  assert (0 ≤ u16_le b0 b1 + u16_le b2 b3 ∧ 0 ≤ u16_le b4 b5 + u16_le b6 b7)
    by (unfold is_u8, u16_le in *; lia).
  set (A := u16_le b0 b1 + u16_le b2 b3) in *. set (B := u16_le b4 b5 + u16_le b6 b7) in *.
  unfold is_u32 in *. replace (sum + (A + (B + bsum false data))) with (sum + A + B + bsum false data) by lia.
  apply oc_eq_add; [lia..| |done]. etrans; [exact Hc2|]. apply oc_eq_add; [lia..| |done].
  etrans; [exact Hc1|]. apply oc_eq_add; [lia..|done|done].
Qed.

(** The 16-bit word read to reach 32-bit alignment. *)
Lemma align_word_spec pb aligned : bytes pb →
  let '(sum, pb') :=
    match pb with
    | b0 :: b1 :: pb' => if negb aligned then (u32 (0 + u16_le b0 b1), pb') else (0, pb)
    | _ => (0, pb)
    end in
  is_u32 sum ∧ bytes pb' ∧ sum + bsum false pb' = bsum false pb.
Proof.
  unfold is_u32. destruct pb as [|b0 [|b1 pb]]; intros H; [repeat split; (lia || done)..|].
  destruct aligned; cbn [negb]; [repeat split; (lia || done)|].
  apply Forall_cons in H as [H0 [H1 H]%Forall_cons]. unfold is_u8, u16_le in *.
  rewrite u32_id by width. cbn [bsum negb]. repeat split; (lia || done).
Qed.

Lemma lwip_standard_chksum_3_canon dataptr data : bytes data →
  lwip_standard_chksum_3 dataptr data = canon (bsum false data).
Proof.
  intros Hl. unfold lwip_standard_chksum_3. cbv zeta. set (o := Z.odd dataptr) in *.
  assert (match data with
          | b :: pb => if o then (b, pb, dataptr + 1) else (0, data, dataptr)
          | [] => (0, [], dataptr) end
          = (if o then hd 0 data else 0, if o then tail data else data,
             match data with [] => dataptr | _ => if o then dataptr + 1 else dataptr end)) as ->
    by (destruct data, o; done).
  set (pb := if o then tail data else data). set (t1 := if o then hd 0 data else 0).
  assert (bytes pb) as Hpb by (subst pb; destruct o, Hl; try constructor; done).
  assert (is_u8 t1) as Ht1 by (subst t1; unfold is_u8; destruct o; [destruct Hl as [|??[]]; cbn; lia|lia]).
  assert (bsum o data = bsum false pb + 256 * t1) as Hbs
    by (subst pb t1; destruct o, data; cbn [tail hd bsum negb]; lia).
  pose proof (align_word_spec pb
    (Z.land (match data with [] => dataptr | _ => if o then dataptr + 1 else dataptr end) 3 =? 0) Hpb) as Ha.
  cbv zeta. destruct (match pb with
    | b0 :: b1 :: pb' => if negb _ then _ else _ | _ => _ end) as [sum pb'].
  destruct Ha as (Hs & Hpb' & Hsum).
  pose proof (sum_u32x2_spec (length pb') pb' sum ltac:(lia) Hpb' Hs) as H2.
  destruct (sum_u32x2 pb' sum) as [s2 rest2]. destruct H2 as (Hs2 & Hr2 & Hlen2 & Hoc2).
  pose proof (FOLD_eq s2 Hs2) as HF. pose proof (FOLD_oc s2 Hs2) as HFo.
  pose proof (bsum_bound rest2 Hr2 false) as Hb2. pose proof (bsum_nonneg false rest2 Hr2).
  unfold is_u32, is_u8 in *. assert (0 ≤ FOLD_U32T s2 ≤ 131070) by (rewrite HF; width).
  assert (bsum false rest2 ≤ 262140) by width.
  pose proof (sum_u16_spec rest2 (FOLD_U32T s2) Hr2 ltac:(lia) ltac:(lia)) as H3.
  destruct (sum_u16 rest2 (FOLD_U32T s2)) as [s3 rest3]. destruct H3 as [_ H3]. unfold u16_le.
  set (t0 := match rest3 with b :: _ => b | [] => 0 end) in *.
  replace (s3 + (t0 + 256 * t1)) with (FOLD_U32T s2 + bsum false rest2 + 256 * t1) by lia.
  rewrite u32_id by width. apply chksum_finish; [done|lia|]. rewrite Hbs.
  pose proof (bsum_nonneg false pb' Hpb'). pose proof (bsum_nonneg false pb Hpb).
  apply oc_eq_add; [lia..| |done]. rewrite <- Hsum. etrans; [|exact Hoc2].
  by apply oc_eq_add; [lia..| |].
Qed.

(** ** Chains of segments *)

(** A segment as a pbuf holds it: bytes, and a 16-bit length. *)
Definition segment_ok (s : segment) : Prop := bytes s.2 ∧ Z.of_nat (length s.2) ≤ 0xffff.
#[export] Instance segment_ok_dec s : Decision (segment_ok s).
Proof. unfold segment_ok. apply _. Defined.

Definition pw (swapped : bool) : Z := if swapped then 256 else 1.

Lemma chain_data_bytes p : Forall segment_ok p → bytes (chain_data p).
Proof.
  induction 1 as [|s p [Hs _] _ IH]; [constructor|]. by apply Forall_app_2.
Qed.

Lemma pw_bsum sw l : bytes l → oc_eq (pw sw * bsum sw l) (bsum false l).
Proof.
  intros Hl. destruct sw; cbn [pw]; [|by rewrite Z.mul_1_l]. symmetry. apply (bsum_swap l Hl true).
Qed.

Lemma swap_flip sw T : 0 ≤ T → SWAP_BYTES_IN_WORD (canon (pw sw * T)) = canon (pw (negb sw) * T).
Proof.
  intros HT. rewrite SWAP_canon by (destruct sw; cbn; lia).
  destruct sw; cbn [pw negb]; [|by rewrite Z.mul_1_l].
  replace (256 * (256 * T)) with (65536 * T) by lia. rewrite Z.mul_1_l.
  apply canon_proper; [lia..|]. apply oc_eq_65536.
Qed.

Lemma unswap (sw : bool) T : 0 ≤ T →
  (if sw then SWAP_BYTES_IN_WORD (canon (pw sw * T)) else canon (pw sw * T)) = canon T.
Proof.
  intros HT. destruct sw; [|cbn [pw]; by rewrite Z.mul_1_l].
  rewrite (swap_flip true) by done. cbn [pw negb]. by rewrite Z.mul_1_l.
Qed.

(** One iteration before the parity test. *)
Lemma chain_step sw A payload data : 0 ≤ A → segment_ok (payload, data) →
  FOLD_U32T (u32 (canon (pw sw * A) + lwip_standard_chksum payload data))
  = canon (pw sw * (A + bsum sw data)).
Proof.
  intros HA [Hb Hlen]. cbn [snd] in *. rewrite lwip_standard_chksum_canon by (done || lia).
  pose proof (canon_range (pw sw * A)). pose proof (canon_range (bsum false data)).
  pose proof (bsum_nonneg false data Hb). pose proof (bsum_nonneg sw data Hb).
  rewrite u32_id by width. rewrite FOLD_once by lia.
  assert (0 ≤ pw sw * A ∧ 0 ≤ pw sw * bsum sw data) by (destruct sw; cbn [pw]; lia).
  rewrite Z.mul_add_distr_l. apply canon_proper; [lia..|].
  apply oc_eq_add; [lia..|apply canon_oc_eq; lia|].
  etrans; [by apply canon_oc_eq|]. symmetry. by apply pw_bsum.
Qed.

Lemma odd_len (l : list Z) : negb (Z.of_nat (length l) mod 2 =? 0) = Nat.odd (length l).
Proof.
  rewrite <- Nat.negb_even. f_equal.
  destruct (Nat.even (length l)) eqn:E.
  - apply Nat.even_spec in E as [k ->]. apply Z.eqb_eq. width.
  - assert (Nat.odd (length l) = true) as [k ->]%Nat.odd_spec by (by rewrite <- Nat.negb_even, E).
    apply Z.eqb_neq. width.
Qed.

Lemma chksum_chain_spec q : ∀ sw A, Forall segment_ok q → 0 ≤ A →
  let '(acc, sw') := chksum_chain q (canon (pw sw * A)) sw in
  acc = canon (pw sw' * (A + bsum sw (chain_data q))).
Proof.
  induction q as [|[payload data] q IH]; intros sw A Hq HA; cbn [chksum_chain].
  { cbn. f_equal. lia. }
  apply Forall_cons in Hq as [Hs Hq]. rewrite chain_step, odd_len by done.
  change (chain_data ((payload, data) :: q)) with (data ++ chain_data q). rewrite bsum_app.
  pose proof (bsum_nonneg sw data (proj1 Hs)). rewrite Z.add_assoc.
  destruct (Nat.odd (length data)).
  - rewrite swap_flip, xorb_true_r by lia. apply IH; [done|lia].
  - rewrite xorb_false_r. apply IH; [done|lia].
Qed.

(** The bytes the partial loop sums, and its assertions. *)
Lemma chksum_chain_partial_spec q : ∀ len sw A, Forall segment_ok q → 0 ≤ A → is_u16 len →
  ∃ acc sw' log, chksum_chain_partial q len (canon (pw sw * A)) sw = Ret (acc, sw') log
    ∧ acc = canon (pw sw' * (A + bsum sw (take (Z.to_nat len) (chain_data q))))
    ∧ (len < 0x7fff → log = []).
Proof.
  induction q as [|[payload data] q IH]; intros len sw A Hq HA Hlen; cbn [chksum_chain_partial].
  { eexists _, _, _. split; [done|]. split; [|done]. cbn. rewrite take_nil. cbn. f_equal. lia. }
  destruct (Z.ltb_spec 0 len) as [Hpos|Hz].
  2:{ assert (len = 0) as -> by (unfold is_u16 in Hlen; lia). eexists _, _, _. split; [done|].
      split; [|done]. cbn [Z.to_nat take bsum]. by rewrite Z.add_0_r. }
  apply Forall_cons in Hq as [Hs Hq]. rewrite odd_len.
  change (chain_data ((payload, data) :: q)) with (data ++ chain_data q).
  set (chklen := if len <? Z.of_nat (length data) then len else Z.of_nat (length data)).
  set (part := take (Z.to_nat chklen) data).
  assert (segment_ok (payload, part)) as Hpart.
  { destruct Hs as [Hb Hl]. split; [by apply Forall_take|]. cbn [snd] in *.
    unfold part. rewrite length_take. lia. }
  rewrite chain_step by done. pose proof (bsum_nonneg sw part (proj1 Hpart)).
  assert (0 ≤ len - chklen ≤ len) by (unfold chklen; destruct (Z.ltb_spec len (Z.of_nat (length data))); lia).
  rewrite u16_id by width. unfold is_u16 in Hlen.
  assert (is_u16 (len - chklen)) as Hlen' by (unfold is_u16; lia).
  set (odd := Nat.odd (length data)).
  (* the next iteration, in the parity state this one leaves *)
  destruct (IH (len - chklen) (xorb sw odd) (A + bsum sw part) Hq ltac:(lia) Hlen')
    as (acc & sw' & log & E & Hacc & Hlog).
  assert ((if odd then chksum_chain_partial q (len - chklen)
             (SWAP_BYTES_IN_WORD (canon (pw sw * (A + bsum sw part)))) (negb sw)
           else chksum_chain_partial q (len - chklen) (canon (pw sw * (A + bsum sw part))) sw)
          = Ret (acc, sw') log) as ->.
  { destruct odd; [rewrite swap_flip by lia; by rewrite xorb_true_r in E|by rewrite xorb_false_r in E]. }
  assert (acc = canon (pw sw' * (A + bsum sw (take (Z.to_nat len) (data ++ chain_data q))))) as Hres.
  { rewrite Hacc. f_equal. f_equal. rewrite <- Z.add_assoc. f_equal. unfold part, chklen.
    destruct (Z.ltb_spec len (Z.of_nat (length data))) as [Hlt|Hge].
    - rewrite take_app_le by lia. rewrite Z.sub_diag. apply Z.add_0_r.
    - rewrite Nat2Z.id, take_ge, take_app_ge, bsum_app by lia. do 3 f_equal. lia. }
  unfold lwip_assert. destruct (Z.ltb_spec (len - chklen) 0x7fff) as [Hc|Hc].
  - eexists _, _, _. split; [done|]. split; [done|]. intros. apply Hlog. lia.
  - eexists _, _, _. split; [done|]. split; [done|]. lia.
Qed.

(** ** Theorems *)

Lemma lnot_u16 x : 0 ≤ x ≤ 65535 → u16 (Z.lnot x) = 65535 - x.
Proof. intros H. unfold Z.lnot. width. Qed.

Lemma land_ffff x : 0 ≤ x ≤ 65535 → Z.land x 0xffff = x.
Proof. intros H. change 0xffff with (Z.ones 16). rewrite Z.land_ones by lia. apply Z.mod_small. lia. Qed.

Lemma inet_chksum_canon a l : bytes l → Z.of_nat (length l) ≤ 0xffff → inet_chksum a l = 65535 - canon (bsum false l).
Proof. intros Hl Hlen. unfold inet_chksum. rewrite lwip_standard_chksum_canon by (done || lia). apply lnot_u16, canon_range. Qed.

Lemma inet_chksum_pbuf_canon p : Forall segment_ok p → inet_chksum_pbuf p = 65535 - canon (bsum false (chain_data p)).
Proof.
  intros Hp. unfold inet_chksum_pbuf. pose proof (chksum_chain_spec p false 0 Hp ltac:(lia)) as H.
  change (canon (pw false * 0)) with 0 in H. destruct (chksum_chain p 0 false) as [acc sw].
  pose proof (chain_data_bytes p Hp) as Hb. pose proof (bsum_nonneg false _ Hb).
  rewrite Z.add_0_l in H. rewrite H, unswap by done.
  pose proof (canon_range (bsum false (chain_data p))). rewrite land_ffff by lia. apply lnot_u16. lia.
Qed.

Lemma verifies_canon l : bytes l → verifies l ↔ canon (bsum false l) = 65535.
Proof. intros Hl. unfold verifies. by rewrite rfc1071_words. Qed.

Lemma inet_chksum_zero a l : bytes l → Z.of_nat (length l) ≤ 0xffff → inet_chksum a l = 0 ↔ verifies l.
Proof. intros Hl Hlen. rewrite inet_chksum_canon, verifies_canon by done. lia. Qed.

Lemma inet_chksum_pbuf_zero p : Forall segment_ok p → inet_chksum_pbuf p = 0 ↔ verifies (chain_data p).
Proof. intros Hp. rewrite inet_chksum_pbuf_canon, verifies_canon by (done || by apply chain_data_bytes). lia. Qed.

(** Data whose checksum field, at an even offset, has been filled in. *)
Lemma bsum_field pre post x y : Nat.even (length pre) = true →
  bsum false (pre ++ [x; y] ++ post) = bsum false pre + bsum false post + (x + 256 * y).
Proof.
  intros Heven. assert (Nat.odd (length pre) = false) as Hodd by (by rewrite <- Nat.negb_even, Heven).
  rewrite !bsum_app, Hodd. cbn [length Nat.odd xorb bsum negb]. change (Nat.odd 2) with false. cbn [xorb]. lia.
Qed.

Lemma inet_chksum_u16 a l : is_u16 (inet_chksum a l).
Proof. apply u16_range. Qed.

Lemma filled_bytes pre post a l : bytes pre → bytes post →
  bytes (pre ++ [inet_chksum a l mod 256; inet_chksum a l / 256] ++ post).
Proof.
  intros Hpre Hpost. pose proof (inet_chksum_u16 a l) as Hc. unfold is_u16 in Hc. repeat apply Forall_app_2; [done| |done].
  constructor; [|constructor; [|constructor]]; unfold is_u8; width.
Qed.

Lemma chksum_filled a pre post : bytes pre → bytes post → Nat.even (length pre) = true →
  Z.of_nat (length pre + 2 + length post) ≤ 0xffff →
  let c := inet_chksum a (pre ++ [0; 0] ++ post) in
  verifies (pre ++ [c mod 256; c / 256] ++ post).
Proof.
  intros Hpre Hpost Heven Hlen c. rewrite verifies_canon by (by apply filled_bytes).
  assert (bytes (pre ++ [0; 0] ++ post)) as H0
    by (repeat apply Forall_app_2; [done| |done]; decide_now).
  pose proof (bsum_nonneg false pre Hpre). pose proof (bsum_nonneg false post Hpost).
  set (S := bsum false pre + bsum false post). assert (0 ≤ S) by (unfold S; lia).
  assert (c = 65535 - canon S) as Hc.
  { unfold c. rewrite inet_chksum_canon, bsum_field by (done || (rewrite !length_app; cbn [length]; lia)).
    fold S. by replace (S + (0 + 256 * 0)) with S by lia. }
  rewrite bsum_field by done. fold S. clearbody c.
  pose proof (canon_range S). pose proof (canon_oc_eq S ltac:(lia)) as Hoc.
  replace (S + (c mod 256 + 256 * (c / 256))) with (S + c) by width.
  symmetry. apply canon_unique; [lia|lia|]. unfold oc_eq in *. destruct Hoc as [Hm Hz].
  split; [|lia]. rewrite Z.add_mod, <- Hm, <- Z.add_mod, Hc by lia.
  by replace (canon S + (65535 - canon S)) with 65535 by lia.
Qed.

(** C35: all three implementations of [lwip_standard_chksum] compute the RFC 1071
    one's complement sum of the data's 16-bit words, whatever the alignment of
    the buffer; version 2, the compiled one, up to the 0x20000 bytes its comment
    promises. *)
Theorem lwip_standard_chksum_rfc1071 dataptr data :
  bytes data → Z.of_nat (length data) ≤ 0x20000 →
  lwip_standard_chksum dataptr data = rfc1071 (words_le data)
  ∧ lwip_standard_chksum_1 data = rfc1071 (words_le data)
  ∧ lwip_standard_chksum_3 dataptr data = rfc1071 (words_le data).
Proof.
  intros Hl Hlen. rewrite rfc1071_words by done.
  rewrite lwip_standard_chksum_canon, lwip_standard_chksum_1_canon, lwip_standard_chksum_3_canon
    by done. done.
Qed.

Lemma lwip_standard_chksum_rfc1071_witness :
  lwip_standard_chksum 0x1001 [0x45; 0x00; 0xff; 0xff; 0x03] = rfc1071 (words_le [0x45; 0x00; 0xff; 0xff; 0x03])
  ∧ rfc1071 (words_le [0x45; 0x00; 0xff; 0xff; 0x03]) = 0x48.
Proof.
  split; [|reflexivity].
  apply (lwip_standard_chksum_rfc1071 0x1001 [0x45; 0x00; 0xff; 0xff; 0x03]); decide_now.
Defined.

(** the checksum of a pbuf chain does not depend on how the data is split
    into pbufs: it is the inverted RFC 1071 sum of the concatenated payloads,
    even when segments have odd lengths and odd addresses. *)
Theorem inet_chksum_pbuf_concat p :
  Forall segment_ok p →
  inet_chksum_pbuf p = 65535 - rfc1071 (words_le (chain_data p)).
Proof. intros Hp. rewrite inet_chksum_pbuf_canon, rfc1071_words by (done || by apply chain_data_bytes). done. Qed.

Lemma inet_chksum_pbuf_concat_witness :
  inet_chksum_pbuf [(0x11, [1; 2; 3]); (0x40, []); (0x21, [4; 5])]
  = 65535 - rfc1071 (words_le [1; 2; 3; 4; 5]).
Proof.
  apply (inet_chksum_pbuf_concat [(0x11, [1; 2; 3]); (0x40, []); (0x21, [4; 5])]). decide_now.
Defined.

(** a packet whose checksum field (at an even offset) is filled with the
    checksum computed over the packet with that field zeroed verifies: its own
    checksum is 0.  This is what ip4_output and ip4_input rely on. *)
Theorem inet_chksum_verifies a1 a2 pre post :
  bytes pre → bytes post → Nat.even (length pre) = true →
  Z.of_nat (length pre + 2 + length post) ≤ 0xffff →
  let c := inet_chksum a1 (pre ++ [0; 0] ++ post) in
  inet_chksum a2 (pre ++ [c mod 256; c / 256] ++ post) = 0.
Proof.
  intros Hpre Hpost Heven Hlen c. apply inet_chksum_zero; [by apply filled_bytes| |by apply chksum_filled].
  rewrite !length_app. cbn [length]. lia.
Qed.

Lemma inet_chksum_verifies_witness :
  let c := inet_chksum 0 ([0x45; 0x00] ++ [0; 0] ++ [0xc0; 0xa8; 0x07]) in
  inet_chksum 1 ([0x45; 0x00] ++ [c mod 256; c / 256] ++ [0xc0; 0xa8; 0x07]) = 0.
Proof. apply inet_chksum_verifies; (reflexivity || decide_now). Defined.

Lemma foldr_add_app l1 l2 : foldr Z.add 0 (l1 ++ l2) = foldr Z.add 0 l1 + foldr Z.add 0 l2.
Proof. induction l1 as [|x l1 IH]; cbn [foldr app]; lia. Qed.

Lemma sum_u16_nonneg ws : Forall is_u16 ws → 0 ≤ foldr Z.add 0 ws.
Proof. induction 1 as [|w ws Hw _ IH]; cbn [foldr]; unfold is_u16 in *; lia. Qed.

Lemma addr_words_u16 addrs : Forall is_u32 addrs → Forall is_u16 (concat (map addr_words addrs)).
Proof.
  induction 1 as [|a addrs Ha _ IH]; [constructor|]. cbn [map concat].
  apply Forall_app_2; [|done]. unfold addr_words, is_u32, is_u16 in *.
  repeat constructor; width.
Qed.

Lemma add_addr_eq acc a : 0 ≤ acc ≤ 4294000000 → is_u32 a →
  add_addr acc a = acc + foldr Z.add 0 (addr_words a).
Proof.
  intros Hacc Ha. unfold add_addr, addr_words. rewrite Z.shiftr_div_pow2 by lia.
  change 0xffff with (Z.ones 16). rewrite !Z.land_ones by lia. change (2 ^ 16) with 65536.
  cbn [foldr]. unfold is_u32 in Ha. rewrite (Z.mod_small (a / 65536)) by width.
  rewrite !u32_id by width. lia.
Qed.

(** The end of a pseudo header checksum: [T] is the sum accumulated so far. *)
Lemma pseudo_finish_spec sw T proto proto_len : 0 ≤ T → is_u8 proto → is_u16 proto_len →
  pseudo_finish (canon (pw sw * T)) sw proto proto_len
  = 65535 - canon (T + (lwip_htons proto + lwip_htons proto_len)).
Proof.
  intros HT Hp Hl. unfold pseudo_finish. rewrite unswap by done.
  rewrite (u16_id proto) by width. pose proof (canon_range T).
  pose proof (lwip_htons_range proto) as H1. pose proof (lwip_htons_range proto_len) as H2.
  unfold is_u16 in H1, H2. rewrite !u32_id by width. rewrite FOLD_twice by lia.
  pose proof (canon_range (canon T + lwip_htons proto + lwip_htons proto_len)).
  rewrite land_ffff, lnot_u16 by lia. f_equal. rewrite <- Z.add_assoc. apply canon_proper; [lia..|].
  apply oc_eq_add; [lia..|by apply canon_oc_eq|done].
Qed.

(** A pseudo header checksum as RFC 1071 over pseudo header and data words. *)
Lemma pseudo_spec sw addrs data proto proto_len :
  Forall is_u32 addrs → bytes data → is_u8 proto → is_u16 proto_len →
  pseudo_finish (canon (pw sw * (foldr Z.add 0 (concat (map addr_words addrs)) + bsum false data)))
    sw proto proto_len
  = 65535 - rfc1071 (pseudo_words proto proto_len addrs ++ words_le data).
Proof.
  intros Ha Hd Hp Hl. pose proof (sum_u16_nonneg _ (addr_words_u16 _ Ha)) as Hs.
  pose proof (bsum_nonneg false data Hd).
  rewrite pseudo_finish_spec by (done || lia). f_equal. rewrite rfc1071_canon.
  - unfold pseudo_words. rewrite !foldr_add_app, sum_words_bsum. cbn [foldr]. f_equal. lia.
  - repeat apply Forall_app_2; [by apply addr_words_u16| |by apply words_le_u16].
    repeat constructor; apply lwip_htons_range.
Qed.

Lemma fold_addrs addrs acc : 0 ≤ acc < 4294967296 →
  acc = foldr Z.add 0 (concat (map addr_words addrs)) →
  FOLD_U32T (FOLD_U32T acc)
  = canon (pw false * foldr Z.add 0 (concat (map addr_words addrs))).
Proof. intros Hacc <-. cbn [pw]. by rewrite FOLD_twice, Z.mul_1_l. Qed.

Lemma ip4_addrs_acc src dest : is_u32 src → is_u32 dest →
  FOLD_U32T (FOLD_U32T (add_addr (add_addr 0 src) dest))
  = canon (pw false * foldr Z.add 0 (concat (map addr_words [src; dest]))).
Proof.
  intros Hs Hd. pose proof (add_addr_eq 0 src ltac:(lia) Hs) as H1.
  unfold is_u32 in *. assert (0 ≤ add_addr 0 src ≤ 131070)
    by (rewrite H1; unfold addr_words; cbn [foldr]; width).
  pose proof (add_addr_eq (add_addr 0 src) dest ltac:(lia) Hd) as H2.
  apply fold_addrs.
  - rewrite H2. unfold addr_words. cbn [foldr]. width.
  - rewrite H2, H1. unfold addr_words. cbn [map concat app foldr]. lia.
Qed.

(** [inet_chksum_pseudo], the checksum of UDP and TCP over IPv4, is the
    inverted RFC 1071 sum of the pseudo header (source, destination, protocol,
    length in network order) followed by the data of the whole chain. *)
Theorem inet_chksum_pseudo_spec p proto proto_len src dest :
  Forall segment_ok p → is_u8 proto → is_u16 proto_len → is_u32 src → is_u32 dest →
  inet_chksum_pseudo p proto proto_len src dest
  = 65535 - rfc1071 (pseudo_words proto proto_len [src; dest] ++ words_le (chain_data p)).
Proof.
  intros Hp Hpr Hlen Hs Hd. unfold inet_chksum_pseudo, inet_cksum_pseudo_base.
  rewrite ip4_addrs_acc by done.
  assert (Forall is_u32 [src; dest]) as Ha by (repeat constructor; apply Hs || apply Hd).
  pose proof (chksum_chain_spec p false _ Hp (sum_u16_nonneg _ (addr_words_u16 _ Ha))) as H.
  destruct (chksum_chain p _ false) as [acc sw]. rewrite H.
  apply pseudo_spec; [done|by apply chain_data_bytes|done|done].
Qed.

Lemma inet_chksum_pseudo_spec_witness :
  inet_chksum_pseudo [(0x10, [0x12; 0x34; 0x56]); (0x20, [0x78])] 17 4 0x0202000a 0x6302000a
  = 65535 - rfc1071 (pseudo_words 17 4 [0x0202000a; 0x6302000a] ++ words_le [0x12; 0x34; 0x56; 0x78]).
Proof.
  apply (inet_chksum_pseudo_spec [(0x10, [0x12; 0x34; 0x56]); (0x20, [0x78])]); decide_now.
Defined.

(** the partial pseudo header checksum covers exactly the first [chksum_len]
    bytes of the chain, although it tracks byte parity with the full pbuf
    lengths; its debugging assertion can fail only for a [chksum_len] of 0x7fff
    or more. *)
Theorem inet_chksum_pseudo_partial_spec p proto proto_len chksum_len src dest :
  Forall segment_ok p → is_u8 proto → is_u16 proto_len → is_u16 chksum_len →
  is_u32 src → is_u32 dest →
  ∃ log, inet_chksum_pseudo_partial p proto proto_len chksum_len src dest
    = Ret (65535 - rfc1071 (pseudo_words proto proto_len [src; dest]
             ++ words_le (take (Z.to_nat chksum_len) (chain_data p)))) log
    ∧ (chksum_len < 0x7fff → log = []).
Proof.
  intros Hp Hpr Hlen Hcl Hs Hd. unfold inet_chksum_pseudo_partial, inet_cksum_pseudo_partial_base.
  rewrite ip4_addrs_acc by done.
  assert (Forall is_u32 [src; dest]) as Ha by (repeat constructor; apply Hs || apply Hd).
  destruct (chksum_chain_partial_spec p chksum_len false _ Hp (sum_u16_nonneg _ (addr_words_u16 _ Ha)) Hcl)
    as (acc & sw & log & E & Hacc & Hlog).
  rewrite E. exists log. split; [|done]. cbn [mbind out_bind mret out_ret].
  rewrite app_nil_r, Hacc. f_equal.
  apply pseudo_spec; [done|apply Forall_take; by apply chain_data_bytes|done|done].
Qed.

Lemma inet_chksum_pseudo_partial_spec_witness :
  ∃ log, inet_chksum_pseudo_partial [(0x10, [1; 2; 3]); (0x21, [4; 5; 6])] 136 6 4 1 2
    = Ret (65535 - rfc1071 (pseudo_words 136 6 [1; 2]
             ++ words_le (take 4 [1; 2; 3; 4; 5; 6]))) log
    ∧ (4 < 0x7fff → log = []).
Proof.
  apply (inet_chksum_pseudo_partial_spec [(0x10, [1; 2; 3]); (0x21, [4; 5; 6])] 136 6 4 1 2);
    decide_now.
Defined.

(** The IPv6 pseudo header checksum, over the source and then the destination
    words as RFC 8200 lays them out. *)
Lemma add_addr6_eq src : ∀ dest acc, length src = length dest → Forall is_u32 (src ++ dest) →
  0 ≤ acc → acc + 262140 * Z.of_nat (length src) ≤ 4294000000 →
  add_addr6 acc src dest = acc + foldr Z.add 0 (concat (map addr_words (src ++ dest)))
  ∧ 0 ≤ add_addr6 acc src dest ≤ acc + 262140 * Z.of_nat (length src).
Proof.
  induction src as [|s src IH]; intros [|d dest] acc Hlen Ha H0 Hb; try done.
  { cbn. lia. }
  cbn [add_addr6 app map concat length] in *. apply Forall_cons in Ha as [Hs Ha].
  apply Forall_app in Ha as [Hsrc [Hd Hdest]%Forall_cons].
  assert (∀ a, is_u32 a → 0 ≤ foldr Z.add 0 (addr_words a) ≤ 131070) as Hw.
  { intros a Ha. unfold addr_words, is_u32 in *. cbn [foldr]. width. }
  pose proof (Hw s Hs). pose proof (Hw d Hd).
  rewrite (add_addr_eq acc s), (add_addr_eq _ d) by (done || lia).
  destruct (IH dest (acc + foldr Z.add 0 (addr_words s) + foldr Z.add 0 (addr_words d)))
    as [IH1 IH2]; [lia|by apply Forall_app_2|lia|lia|].
  rewrite foldr_add_app, map_app, concat_app, foldr_add_app. cbn [map concat].
  rewrite foldr_add_app. rewrite map_app, concat_app, foldr_add_app in IH1. lia.
Qed.

Lemma ip6_chksum_pseudo_spec p proto proto_len src dest :
  Forall segment_ok p → is_u8 proto → is_u16 proto_len →
  length src = 4%nat → length dest = 4%nat → Forall is_u32 (src ++ dest) →
  ip6_chksum_pseudo p proto proto_len src dest
  = 65535 - rfc1071 (pseudo_words proto proto_len (src ++ dest) ++ words_le (chain_data p)).
Proof.
  intros Hp Hpr Hlen Hs Hd Ha. unfold ip6_chksum_pseudo, inet_cksum_pseudo_base.
  destruct (add_addr6_eq src dest 0) as [Heq Hb]; [congruence|done|lia|rewrite Hs; lia|].
  rewrite (fold_addrs (src ++ dest)) by (rewrite Hs in Hb; lia).
  pose proof (chksum_chain_spec p false _ Hp (sum_u16_nonneg _ (addr_words_u16 _ Ha))) as H.
  destruct (chksum_chain p _ false) as [acc sw]. rewrite H.
  apply pseudo_spec; [done|by apply chain_data_bytes|done|done].
Qed.
