(* ===== verification/Ip4Addr.v ===== *)
(** * IPv4 addresses (src/lwip/src/core/ipv4/ip4_addr.c)

    An [ip4_addr_t] is its 32-bit word, in network order in memory, so on the
    little-endian target byte [n] of the address in memory is bits [8n..8n+7]
    of the word.  Strings are C strings as in [Def]. *)
From S2P Require Import Prelude Def.

Definition IPADDR_NONE : Z := 0xffffffff.
Definition IPADDR_ANY : Z := 0x00000000.
Definition IPADDR_BROADCAST : Z := 0xffffffff.
Definition NETIF_FLAG_BROADCAST : Z := 0x02.
Definition IP4ADDR_STRLEN_MAX : Z := 16.

(** [ip4_addr_net_eq(addr1, addr2, mask)] of ip4_addr.h. *)
Definition ip4_addr_net_eq (addr1 addr2 mask : Z) : bool :=
  Z.land addr1 mask =? Z.land addr2 mask.

(** The interface is given by the fields the function reads. *)
Definition ip4_addr_isbroadcast_u32 (addr netif_flags netif_ip netif_mask : Z) : bool :=
  if (u32 (Z.lnot addr) =? IPADDR_ANY) || (addr =? IPADDR_ANY) then true
  else if Z.land netif_flags NETIF_FLAG_BROADCAST =? 0 then false
  else if addr =? netif_ip then false
  else if ip4_addr_net_eq addr netif_ip netif_mask
          && (Z.land addr (u32 (Z.lnot netif_mask))
              =? Z.land IPADDR_BROADCAST (u32 (Z.lnot netif_mask)))
  then true
  else false.

(** The first loop: [i] stands for [mask = 1 << (i - 1)], and 0 for [mask = 0]. *)
Fixpoint netmask_skip_ones (nm_hostorder : Z) (i : nat) : nat :=
  match i with
  | O => O
  | S i' => if Z.land nm_hostorder (2 ^ Z.of_nat i') =? 0 then i
            else netmask_skip_ones nm_hostorder i'
  end.

Fixpoint netmask_no_one (nm_hostorder : Z) (i : nat) : bool :=
  match i with
  | O => true
  | S i' => if negb (Z.land nm_hostorder (2 ^ Z.of_nat i') =? 0) then false
            else netmask_no_one nm_hostorder i'
  end.

Definition ip4_addr_netmask_valid (netmask : Z) : bool :=
  let nm_hostorder := lwip_htonl netmask in
  netmask_no_one nm_hostorder (netmask_skip_ones nm_hostorder 32).

(** ** Text to address *)

Definition lwip_isdigit (c : Z) : bool := (48 <=? c) && (c <=? 57).
Definition lwip_islower (c : Z) : bool := (97 <=? c) && (c <=? 122).
Definition lwip_isxdigit (c : Z) : bool :=
  lwip_isdigit c || ((97 <=? c) && (c <=? 102)) || ((65 <=? c) && (c <=? 70)).
Definition lwip_isspace (c : Z) : bool :=
  (c =? 32) || (c =? 12) || (c =? 10) || (c =? 13) || (c =? 9) || (c =? 11).

(** The digit loop; [cp] is the string from the current character on.  [val] is
    a [u32_t] and wraps. *)
Fixpoint aton_number (cp : list Z) (val base : Z) : Z * list Z :=
  match cp with
  | [] => (val, cp)
  | c :: cp' =>
      if lwip_isdigit c then
        if (base =? 8) && (8 <=? c - 48) then (val, cp)
        else aton_number cp' (u32 (u32 (val * base) + (c - 48))) base
      else if (base =? 16) && lwip_isxdigit c then
        aton_number cp'
          (Z.lor (u32 (Z.shiftl val 4)) (c + 10 - (if lwip_islower c then 97 else 65))) base
      else (val, cp)
  end.

(** Base prefix and digits: [None] when the number does not start with a digit. *)
Definition aton_part (cp : list Z) : option (Z * list Z) :=
  if negb (lwip_isdigit (chr cp)) then None
  else if chr cp =? 48 then
    let cp := tail cp in
    if (chr cp =? 120) || (chr cp =? 88)
    then Some (aton_number (tail cp) 0 16)
    else Some (aton_number cp 0 8)
  else Some (aton_number cp 0 10).

(** The outer loop; [slots] is [parts + 3 - pp], the parts that can still be
    stored before the last one. *)
Fixpoint aton_loop (slots : nat) (cp parts : list Z) : option (Z * list Z * list Z) :=
  match aton_part cp with
  | None => None
  | Some (val, cp) =>
      if chr cp =? 46 then
        match slots with
        | O => None
        | S slots' => aton_loop slots' (tail cp) (parts ++ [val])
        end
      else Some (val, parts, cp)
  end.

(** [Some a] is "return 1" with [a] stored through [addr]; at most three parts are
    ever stored, so the last case, the [default] of the switch, is dead code. *)
Definition ip4addr_aton (cp : list Z) : out (option Z) :=
  match aton_loop 3 cp [] with
  | None => mret None
  | Some (val, parts, cp) =>
      if negb (chr cp =? 0) && negb (lwip_isspace (chr cp)) then mret None
      else
        match parts with
        | [] => mret (Some (lwip_htonl val))
        | [p0] =>
            if 0xffffff <? val then mret None
            else if 0xff <? p0 then mret None
            else mret (Some (lwip_htonl (Z.lor val (u32 (Z.shiftl p0 24)))))
        | [p0; p1] =>
            if 0xffff <? val then mret None
            else if (0xff <? p0) || (0xff <? p1) then mret None
            else mret (Some (lwip_htonl (Z.lor val
                   (Z.lor (u32 (Z.shiftl p0 24)) (u32 (Z.shiftl p1 16))))))
        | [p0; p1; p2] =>
            if 0xff <? val then mret None
            else if (0xff <? p0) || (0xff <? p1) || (0xff <? p2) then mret None
            else mret (Some (lwip_htonl (Z.lor val
                   (Z.lor (Z.lor (u32 (Z.shiftl p0 24)) (u32 (Z.shiftl p1 16)))
                          (u32 (Z.shiftl p2 8))))))
        | _ =>
            _ ← lwip_assert "unhandled" false;
            mret (Some (lwip_htonl val))
        end
  end.

Definition ipaddr_addr (cp : list Z) : out Z :=
  r ← ip4addr_aton cp;
  match r with
  | Some val => mret val
  | None => mret IPADDR_NONE
  end.

(** ** Address to text *)

(** The do-while loop on one byte of the address: the characters in [inv], least
    significant first.  [room] is what is left of [char inv[3]]. *)
Fixpoint ntoa_inv (room : nat) (ap : Z) : out (list Z) :=
  match room with
  | O => Fault "inv[i++] out of bounds"
  | S room' =>
      let rem := ap mod 10 in
      let ap := ap / 10 in
      if negb (ap =? 0) then
        rest ← ntoa_inv room' ap;
        mret (48 + rem :: rest)
      else mret [48 + rem]
  end.

(** [if (len++ >= buflen) return NULL; *rp++ = c;] for each character of [cs];
    [rp] is what has been written so far, so [len] is its length. *)
Fixpoint ntoa_emit (cs rp : list Z) (buflen : Z) : option (list Z) :=
  match cs with
  | [] => Some rp
  | c :: cs' =>
      if buflen <=? Z.of_nat (length rp) then None
      else ntoa_emit cs' (rp ++ [c]) buflen
  end.

Fixpoint ntoa_loop (aps rp : list Z) (buflen : Z) : out (option (list Z)) :=
  match aps with
  | [] => mret (Some rp)
  | ap :: aps' =>
      inv ← ntoa_inv 3 ap;
      match ntoa_emit (rev inv ++ [46]) rp buflen with
      | None => mret None
      | Some rp => ntoa_loop aps' rp buflen
      end
  end.

(** The four bytes of the word in memory order. *)
Definition addr_bytes (addr : Z) : list Z :=
  [addr mod 256; addr / 2 ^ 8 mod 256; addr / 2 ^ 16 mod 256; addr / 2 ^ 24 mod 256].

(** [Some s]: the string left in [buf]; [*--rp = 0] turns the last dot into the
    terminator. *)
Definition ip4addr_ntoa_r (addr buflen : Z) : out (option (list Z)) :=
  r ← ntoa_loop (addr_bytes addr) [] buflen;
  match r with
  | None => mret None
  | Some rp => mret (Some (removelast rp))
  end.

Definition ip4addr_ntoa (addr : Z) : out (option (list Z)) :=
  ip4addr_ntoa_r addr IP4ADDR_STRLEN_MAX.

(** ** Netmasks and broadcast addresses *)

Lemma testbit_land_pow2 n i : 0 ≤ i → (Z.land n (2 ^ i) =? 0) = negb (Z.testbit n i).
Proof.
  intros Hi. rewrite <- (Z.mul_1_l (2 ^ i)), <- Z.shiftl_mul_pow2 by done.
  rewrite land_shiftl_mask by done.
  change 1 with (Z.ones 1) at 1. rewrite Z.land_ones, Z.shiftr_div_pow2 by lia.
  pose proof (Z.testbit_spec' n i Hi) as H. change (2 ^ 1) with 2. rewrite <- H.
  rewrite Z.shiftl_mul_pow2 by done. destruct (Z.testbit n i); cbn [Z.b2z negb].
  - apply Z.eqb_neq. pose proof (Z.pow_pos_nonneg 2 i). lia.
  - done.
Qed.

Lemma netmask_no_one_spec h i :
  netmask_no_one h i = true ↔ ∀ j : nat, (j < i)%nat → Z.testbit h (Z.of_nat j) = false.
Proof.
  induction i as [|i IH]; cbn [netmask_no_one].
  { split; [lia|done]. }
  rewrite testbit_land_pow2, negb_involutive by lia.
  destruct (Z.testbit h (Z.of_nat i)) eqn:E.
  - split; [done|]. intros H. rewrite H in E by lia. done.
  - rewrite IH. split; intros H j Hj; [|apply H; lia].
    destruct (decide (j = i)) as [->|]; [done|]. apply H. lia.
Qed.

Lemma netmask_skip_ones_spec h i :
  (netmask_skip_ones h i ≤ i)%nat ∧
  (∀ j : nat, (netmask_skip_ones h i ≤ j < i)%nat → Z.testbit h (Z.of_nat j) = true) ∧
  (∀ k : nat, netmask_skip_ones h i = S k → Z.testbit h (Z.of_nat k) = false).
Proof.
  induction i as [|i (IH1 & IH2 & IH3)]; cbn [netmask_skip_ones].
  { repeat split; [lia|lia|done]. }
  rewrite testbit_land_pow2 by lia.
  destruct (Z.testbit h (Z.of_nat i)) eqn:E; cbn [negb].
  - repeat split; [lia| |done]. intros j Hj.
    destruct (decide (j = i)) as [->|]; [done|]. apply IH2. lia.
  - repeat split; [lia|lia|]. by intros k [= ->].
Qed.

(** The prefix mask with the [32 - k] upper bits set, in host order. *)
Definition prefix_mask (k : nat) : Z := 2 ^ 32 - 2 ^ Z.of_nat k.

Lemma prefix_mask_bit k i : (k ≤ 32)%nat → 0 ≤ i →
  Z.testbit (prefix_mask k) i = bool_decide (Z.of_nat k ≤ i < 32).
Proof.
  intros Hk Hi. unfold prefix_mask.
  replace (2 ^ 32 - 2 ^ Z.of_nat k) with (Z.shiftl (Z.ones (32 - Z.of_nat k)) (Z.of_nat k)).
  - rewrite Z.shiftl_spec by done. case_bool_decide.
    + apply Z.ones_spec_low. lia.
    + destruct (decide (i < Z.of_nat k)); [apply Z.testbit_neg_r; lia|].
      apply Z.ones_spec_high. lia.
  - rewrite Z.shiftl_mul_pow2, Z.ones_equiv by lia.
    replace (2 ^ 32) with (2 ^ (32 - Z.of_nat k) * 2 ^ Z.of_nat k); [lia|].
    rewrite <- Z.pow_add_r by lia. f_equal. lia.
Qed.

Lemma u32_bits_eq a b : is_u32 a → is_u32 b →
  (∀ j : nat, (j < 32)%nat → Z.testbit a (Z.of_nat j) = Z.testbit b (Z.of_nat j)) → a = b.
Proof.
  intros Ha Hb H.
  assert (∀ c i, is_u32 c → 32 ≤ i → Z.testbit c i = false) as Hhi.
  { intros c i Hc Hi. apply Z.testbit_false; [lia|]. rewrite Z.div_small; [done|].
    assert (2 ^ 32 ≤ 2 ^ i) by (apply Z.pow_le_mono_r; lia). unfold is_u32 in Hc. lia. }
  apply Z.bits_inj'. intros i Hi. destruct (decide (i < 32)) as [Hlt|].
  - specialize (H (Z.to_nat i)). rewrite Z2Nat.id in H by lia. apply H. lia.
  - rewrite !Hhi; done || lia.
Qed.

(** [ip4_addr_netmask_valid] accepts exactly the 33 prefix masks: the mask, read
    in host byte order, is some number of one bits followed only by zero bits. *)
Theorem ip4_addr_netmask_valid_iff netmask :
  is_u32 netmask →
  ip4_addr_netmask_valid netmask = true ↔
  ∃ k : nat, (k ≤ 32)%nat ∧ lwip_htonl netmask = prefix_mask k.
Proof.
  intros Hn. unfold ip4_addr_netmask_valid. set (h := lwip_htonl netmask).
  rewrite netmask_no_one_spec.
  pose proof (netmask_skip_ones_spec h 32) as (Hle & Hones & Hz). split.
  - intros Hno. exists (netmask_skip_ones h 32). split; [done|].
    apply u32_bits_eq.
    { by apply lwip_htonl_range. }
    { unfold prefix_mask, is_u32.
      assert (2 ^ Z.of_nat (netmask_skip_ones h 32) ≤ 2 ^ 32) by (apply Z.pow_le_mono_r; lia).
      pose proof (Z.pow_pos_nonneg 2 (Z.of_nat (netmask_skip_ones h 32))). lia. }
    intros j Hj. rewrite prefix_mask_bit by lia. case_bool_decide.
    + apply Hones. lia.
    + apply Hno. lia.
  - intros (k & Hk & ->) j Hj. rewrite prefix_mask_bit by lia.
    rewrite bool_decide_eq_false. intros Hkj.
    destruct (netmask_skip_ones (prefix_mask k) 32) as [|k'] eqn:E; [lia|].
    specialize (Hz k' eq_refl). rewrite prefix_mask_bit, bool_decide_eq_false in Hz by lia. lia.
Qed.

Lemma ip4_addr_netmask_valid_iff_witness :
  is_u32 0x00f0ffff ∧ ip4_addr_netmask_valid 0x00f0ffff = true ∧
  ¬ ip4_addr_netmask_valid 0x00ff00ff = true.
Proof.
  split; [decide_now|]. split.
  - apply (ip4_addr_netmask_valid_iff 0x00f0ffff); [decide_now|].
    exists 12%nat. split; [lia|reflexivity].
  - vm_compute. discriminate.
Defined.

Lemma u32_lnot_bit m (j : nat) : (j < 32)%nat →
  Z.testbit (u32 (Z.lnot m)) (Z.of_nat j) = negb (Z.testbit m (Z.of_nat j)).
Proof.
  intros Hj. unfold u32. change 4294967296 with (2 ^ 32).
  rewrite Z.mod_pow2_bits_low by lia. apply Z.lnot_spec. lia.
Qed.

Lemma is_u32_log2 a : 0 ≤ a → is_u32 a ↔ Z.log2 a < 32.
Proof.
  intros Ha. unfold is_u32. destruct (decide (a = 0)) as [->|]; [done|].
  rewrite <- (Z.log2_lt_pow2 a 32) by lia. lia.
Qed.

Lemma is_u32_land a b : is_u32 a → is_u32 b → is_u32 (Z.land a b).
Proof.
  intros Ha Hb. assert (0 ≤ a ∧ 0 ≤ b) as [? ?] by (unfold is_u32 in *; lia).
  apply is_u32_log2; [apply Z.land_nonneg; lia|]. pose proof (Z.log2_land a b).
  apply is_u32_log2 in Ha; lia.
Qed.

Lemma is_u32_lor a b : is_u32 a → is_u32 b → is_u32 (Z.lor a b).
Proof.
  intros Ha Hb. assert (0 ≤ a ∧ 0 ≤ b) as [? ?] by (unfold is_u32 in *; lia).
  apply is_u32_log2; [apply Z.lor_nonneg; lia|]. rewrite Z.log2_lor by done.
  apply is_u32_log2 in Ha, Hb; lia.
Qed.
#[export] Hint Resolve is_u32_land is_u32_lor : widths.

(** Same subnet and all host bits set: the address is the subnet's broadcast address. *)
Lemma subnet_broadcast addr ip mask : is_u32 addr → is_u32 ip → is_u32 mask →
  (Z.land addr mask = Z.land ip mask ∧
   Z.land addr (u32 (Z.lnot mask)) = Z.land IPADDR_BROADCAST (u32 (Z.lnot mask))) ↔
  addr = Z.lor (Z.land ip mask) (u32 (Z.lnot mask)).
Proof.
  intros Ha Hi Hm.
  assert (∀ j : nat, (j < 32)%nat → Z.testbit IPADDR_BROADCAST (Z.of_nat j) = true) as Hff.
  { intros j Hj. change IPADDR_BROADCAST with (Z.ones 32). apply Z.ones_spec_low. lia. }
  assert (is_u32 IPADDR_BROADCAST) as Hb by decide_now.
  split.
  - intros [H1 H2]. apply u32_bits_eq; [auto with widths..|]. intros j Hj.
    apply (f_equal (λ z, Z.testbit z (Z.of_nat j))) in H1, H2. revert H1 H2.
    rewrite Z.lor_spec, !Z.land_spec, u32_lnot_bit, Hff by done.
    destruct (Z.testbit addr _), (Z.testbit ip _), (Z.testbit mask _); done.
  - intros H. split; (apply u32_bits_eq; [auto with widths..|]); intros j Hj;
      apply (f_equal (λ z, Z.testbit z (Z.of_nat j))) in H; revert H;
      rewrite Z.lor_spec, !Z.land_spec, u32_lnot_bit, ?Hff by done;
      destruct (Z.testbit addr _), (Z.testbit ip _), (Z.testbit mask _); done.
Qed.

(** an address is broadcast on an interface exactly when it is all zeros or all
    ones, or the interface supports broadcast, the address is not the interface's own
    and it is the interface's network number with all host bits set. *)
Theorem ip4_addr_isbroadcast_iff addr flags ip mask :
  is_u32 addr → is_u32 ip → is_u32 mask →
  ip4_addr_isbroadcast_u32 addr flags ip mask = true ↔
  addr = 0 ∨ addr = 0xffffffff ∨
  (Z.testbit flags 1 = true ∧ addr ≠ ip ∧
   addr = Z.lor (Z.land ip mask) (u32 (Z.lnot mask))).
Proof.
  intros Ha Hi Hm. unfold ip4_addr_isbroadcast_u32, ip4_addr_net_eq.
  assert (u32 (Z.lnot addr) = 0xffffffff - addr) as ->.
  { unfold u32, Z.lnot. symmetry. apply Z.mod_unique with (-1); unfold is_u32 in Ha; lia. }
  assert (0xffffffff - addr = 0 ↔ addr = 0xffffffff) as Hff by lia.
  unfold NETIF_FLAG_BROADCAST, IPADDR_ANY. change 0x02 with (2 ^ 1).
  rewrite testbit_land_pow2 by lia. rewrite <- subnet_broadcast by done.
  destruct (Z.eqb_spec (0xffffffff - addr) 0); [cbn [orb]; intuition lia|].
  destruct (Z.eqb_spec addr 0); [cbn [orb]; intuition lia|]. cbn [orb].
  destruct (Z.testbit flags 1); cbn [negb]; [|intuition done].
  destruct (Z.eqb_spec addr ip); [intuition done|].
  destruct (_ =? _) eqn:E1; cbn [andb]; [|apply Z.eqb_neq in E1; intuition lia].
  apply Z.eqb_eq in E1.
  destruct (_ =? _) eqn:E2; [apply Z.eqb_eq in E2|apply Z.eqb_neq in E2]; intuition (done || lia).
Qed.

Lemma ip4_addr_isbroadcast_iff_witness :
  ip4_addr_isbroadcast_u32 0xff01a8c0 0x02 0x0701a8c0 0x00ffffff = true ∧
  ip4_addr_isbroadcast_u32 0xff01a8c0 0x00 0x0701a8c0 0x00ffffff = false.
Proof.
  split; [|reflexivity].
  apply (ip4_addr_isbroadcast_iff 0xff01a8c0 0x02 0x0701a8c0 0x00ffffff); [decide_now..|].
  right. right. split; [reflexivity|]. split; [lia|reflexivity].
Defined.

(** ** Printing and parsing *)

(** The decimal text of a byte and the dotted-quad text of an address. *)
Definition byte_text (b : Z) : list Z :=
  if b <? 10 then [48 + b]
  else if b <? 100 then [48 + b / 10; 48 + b mod 10]
  else [48 + b / 100; 48 + b / 10 mod 10; 48 + b mod 10].

Definition dotted (addr : Z) : list Z :=
  match addr_bytes addr with
  | [a; b; c; d] => byte_text a ++ [46] ++ byte_text b ++ [46] ++ byte_text c ++ [46] ++ byte_text d
  | _ => []
  end.

Lemma ntoa_inv_text b : is_u8 b → ∃ inv, ntoa_inv 3 b = Clean inv ∧ rev inv = byte_text b.
Proof.
  intros Hb. unfold is_u8 in Hb. cbn [ntoa_inv]. unfold byte_text.
  destruct (Z.ltb_spec b 10); [|destruct (Z.ltb_spec b 100)].
  - replace (b / 10) with 0 by width. replace (b mod 10) with b by width. by eexists.
  - replace (b / 10 =? 0) with false by (symmetry; apply Z.eqb_neq; width).
    replace (b / 10 / 10) with 0 by width. replace (b / 10 mod 10) with (b / 10) by width.
    by eexists.
  - replace (b / 10 =? 0) with false by (symmetry; apply Z.eqb_neq; width).
    replace (b / 10 / 10 =? 0) with false by (symmetry; apply Z.eqb_neq; width).
    replace (b / 10 / 10 / 10) with 0 by width.
    replace (b / 10 / 10 mod 10) with (b / 100) by width. by eexists.
Qed.

Lemma ntoa_emit_spec cs rp buflen : cs ≠ [] →
  ntoa_emit cs rp buflen =
  if Z.of_nat (length (rp ++ cs)) <=? buflen then Some (rp ++ cs) else None.
Proof.
  revert rp. induction cs as [|c cs IH]; intros rp Hne; [done|]. cbn [ntoa_emit].
  destruct cs as [|c' cs].
  - cbn [ntoa_emit]. rewrite length_app. cbn [length].
    destruct (Z.leb_spec buflen (Z.of_nat (length rp))),
      (Z.leb_spec (Z.of_nat (length rp + 1)) buflen); done || lia.
  - rewrite IH by done. rewrite <- (assoc_L app). cbn [app]. rewrite length_app. cbn [length].
    destruct (Z.leb_spec buflen (Z.of_nat (length rp))); [|done].
    destruct (Z.leb_spec (Z.of_nat (length rp + S (S (length cs)))) buflen); [lia|done].
Qed.

(** The text written by the loop: every byte followed by a dot. *)
Definition dotted_dot (aps : list Z) : list Z := concat ((λ b, byte_text b ++ [46]) <$> aps).

Lemma ntoa_loop_spec aps rp buflen : Forall is_u8 aps → aps ≠ [] →
  ntoa_loop aps rp buflen =
  Clean (if Z.of_nat (length (rp ++ dotted_dot aps)) <=? buflen
         then Some (rp ++ dotted_dot aps) else None).
Proof.
  intros Hf Hne. revert rp Hne.
  induction Hf as [|ap aps Hap Haps IH]; intros rp Hne; [done|].
  cbn [ntoa_loop]. destruct (ntoa_inv_text ap Hap) as (inv & -> & Hrev).
  rewrite bind_clean, Hrev.
  rewrite ntoa_emit_spec by (by destruct (byte_text ap)).
  change (dotted_dot (ap :: aps)) with ((byte_text ap ++ [46]) ++ dotted_dot aps).
  set (t := byte_text ap ++ [46]). rewrite (assoc_L app).
  destruct aps as [|ap' aps].
  { change (dotted_dot []) with (@nil Z). rewrite app_nil_r.
    by destruct (Z.of_nat _ <=? buflen). }
  destruct (Z.leb_spec (Z.of_nat (length (rp ++ t))) buflen); [by apply IH|].
  rewrite length_app. destruct (Z.leb_spec (Z.of_nat (length (rp ++ t)
    + length (dotted_dot (ap' :: aps)))) buflen); [lia|done].
Qed.

Lemma aton_number_digits cs rest val :
  forallb lwip_isdigit cs = true → lwip_isdigit (chr rest) = false →
  aton_number (cs ++ rest) val 10 =
  (foldl (λ v c, u32 (u32 (v * 10) + (c - 48))) val cs, rest).
Proof.
  intros Hd Hr. revert val. induction cs as [|c cs IH]; intros val; cbn [app foldl].
  - destruct rest as [|c rest]; [done|]. cbn [aton_number]. unfold chr in Hr; cbn [hd] in Hr. by rewrite Hr.
  - cbn [forallb] in Hd. apply andb_prop in Hd as [Hc Hd]. cbn [aton_number]. rewrite Hc. by apply IH.
Qed.

Definition byte_text_ok (b : Z) : bool :=
  let t := byte_text b in
  forallb lwip_isdigit t
  && (foldl (λ v c, u32 (u32 (v * 10) + (c - 48))) 0 t =? b)
  && ((b =? 0) || negb (chr t =? 48)).

Lemma byte_text_fact b : is_u8 b → byte_text_ok b = true.
Proof. apply forall_u8. vm_compute. reflexivity. Qed.

(** Reading back the text of a byte. *)
Lemma aton_part_byte b rest : is_u8 b → (chr rest = 46 ∨ rest = []) →
  aton_part (byte_text b ++ rest) = Some (b, rest).
Proof.
  intros Hb Hr. pose proof (byte_text_fact b Hb) as Hok. unfold byte_text_ok in Hok.
  apply andb_prop in Hok as [[Hd Hv%Z.eqb_eq]%andb_prop Hz].
  assert (lwip_isdigit (chr rest) = false) as Hs by (destruct Hr as [-> | ->]; done).
  assert (∃ c cs, byte_text b = c :: cs) as (c & cs & Ht).
  { unfold byte_text. repeat case_match; eauto. }
  rewrite Ht in *. pose proof Hd as Hd'. cbn [forallb] in Hd'. apply andb_prop in Hd' as [Hc _].
  destruct (decide (b = 0)) as [->|Hb0].
  - injection Ht as <- <-. cbn. destruct Hr as [Hr | ->]; [|done].
    destruct rest as [|r rest]; [done|]. cbn in Hr. subst r. done.
  - unfold aton_part, chr. cbn [app hd]. rewrite Hc. cbn [negb].
    apply orb_prop in Hz as [Hz%Z.eqb_eq|Hz]; [done|]. unfold chr in Hz; cbn [hd] in Hz.
    apply negb_true_iff in Hz. rewrite Hz.
    change (c :: cs ++ rest) with ((c :: cs) ++ rest).
    by rewrite aton_number_digits, Hv by done.
Qed.

Lemma addr_bytes_u8 a : Forall is_u8 (addr_bytes a).
Proof. unfold addr_bytes. repeat constructor; apply Z.mod_pos_bound; lia. Qed.

(** The parser's words are reassembled in network order. *)
Lemma quad_word a : is_u32 a →
  lwip_htonl (Z.lor (a / 2 ^ 24 mod 256)
    (Z.lor (Z.lor (u32 (Z.shiftl (a mod 256) 24)) (u32 (Z.shiftl (a / 2 ^ 8 mod 256) 16)))
           (u32 (Z.shiftl (a / 2 ^ 16 mod 256) 8)))) = a.
Proof.
  intros (b3 & b2 & b1 & b0 & -> & H3 & H2 & H1 & H0)%u32_split.
  replace ((b3 * 2 ^ 24 + b2 * 2 ^ 16 + b1 * 2 ^ 8 + b0) mod 256) with b0 by width.
  replace ((b3 * 2 ^ 24 + b2 * 2 ^ 16 + b1 * 2 ^ 8 + b0) / 2 ^ 8 mod 256) with b1 by width.
  replace ((b3 * 2 ^ 24 + b2 * 2 ^ 16 + b1 * 2 ^ 8 + b0) / 2 ^ 16 mod 256) with b2 by width.
  replace ((b3 * 2 ^ 24 + b2 * 2 ^ 16 + b1 * 2 ^ 8 + b0) / 2 ^ 24 mod 256) with b3 by width.
  rewrite !Z.shiftl_mul_pow2 by lia. unfold is_u8 in *.
  rewrite !u32_id by (unfold is_u32; lia).
  rewrite (lor_add b0 _ 24) by lia.
  replace (b0 * 2 ^ 24 + b1 * 2 ^ 16) with ((b0 * 256 + b1) * 2 ^ 16) by lia.
  rewrite (lor_add _ _ 16), Z.lor_comm by lia.
  replace ((b0 * 256 + b1) * 2 ^ 16 + b2 * 2 ^ 8) with ((b0 * 65536 + b1 * 256 + b2) * 2 ^ 8) by lia.
  rewrite (lor_add _ _ 8) by lia.
  replace ((b0 * 65536 + b1 * 256 + b2) * 2 ^ 8 + b3)
    with (b0 * 2 ^ 24 + b1 * 2 ^ 16 + b2 * 2 ^ 8 + b3) by lia.
  rewrite lwip_htonl_bytes by (unfold is_u8; lia). lia.
Qed.

Lemma dotted_dot_removelast a : removelast (dotted_dot (addr_bytes a)) = dotted a.
Proof.
  unfold dotted_dot, dotted, addr_bytes. cbn [fmap list_fmap concat].
  rewrite app_nil_r. rewrite !(assoc_L app). by rewrite removelast_last.
Qed.

Lemma dotted_dot_length a : length (dotted_dot (addr_bytes a)) = S (length (dotted a)).
Proof.
  unfold dotted_dot, dotted, addr_bytes. cbn [fmap list_fmap concat].
  rewrite !length_app. cbn [length]. lia.
Qed.

Lemma byte_text_length b : (length (byte_text b) ≤ 3)%nat.
Proof. unfold byte_text. repeat case_match; cbn [length]; lia. Qed.

Lemma aton_loop_dot slots b rest parts : is_u8 b →
  aton_loop (S slots) (byte_text b ++ [46] ++ rest) parts = aton_loop slots rest (parts ++ [b]).
Proof. intros Hb. cbn [aton_loop]. rewrite aton_part_byte by (done || by left). done. Qed.

Lemma aton_dotted a : is_u32 a → ip4addr_aton (dotted a) = Clean (Some a).
Proof.
  intros Ha. unfold ip4addr_aton, dotted, addr_bytes.
  rewrite !aton_loop_dot by apply u8_range. cbn [aton_loop].
  rewrite <- (app_nil_r (byte_text _)), aton_part_byte by (apply u8_range || by right).
  cbn [chr hd app Z.eqb negb andb].
  assert (∀ z, (0xff <? z mod 256) = false) as Hff.
  { intros z. apply Z.ltb_ge. pose proof (u8_range z). unfold is_u8, u8 in *. lia. }
  rewrite !Hff. cbn [orb]. by rewrite quad_word.
Qed.

(** [ip4addr_ntoa_r] never writes past its buffer or its scratch array, fails
    exactly when the buffer has no room for the text and its terminator, and
    otherwise leaves a dotted quad of at most 15 characters that [ip4addr_aton]
    (and so [ipaddr_addr]) reads back as the same address. *)
Theorem ip4addr_ntoa_aton_roundtrip addr buflen :
  is_u32 addr → ∃ s,
    (length s ≤ 15)%nat ∧
    ip4addr_ntoa_r addr buflen = Clean (if Z.of_nat (length s) <? buflen then Some s else None) ∧
    ip4addr_ntoa addr = Clean (Some s) ∧
    ip4addr_aton s = Clean (Some addr) ∧
    ipaddr_addr s = Clean addr.
Proof.
  intros Ha. exists (dotted addr).
  assert (length (dotted addr) ≤ 15)%nat as Hlen.
  { unfold dotted, addr_bytes. rewrite !length_app. cbn [length].
    pose proof (byte_text_length (addr mod 256)). pose proof (byte_text_length (addr / 2 ^ 8 mod 256)).
    pose proof (byte_text_length (addr / 2 ^ 16 mod 256)).
    pose proof (byte_text_length (addr / 2 ^ 24 mod 256)). lia. }
  assert (∀ n, ip4addr_ntoa_r addr n =
    Clean (if Z.of_nat (length (dotted addr)) <? n then Some (dotted addr) else None)) as Hr.
  { intros n. unfold ip4addr_ntoa_r. rewrite ntoa_loop_spec by (apply addr_bytes_u8 || done).
    rewrite bind_clean. cbn [app]. rewrite dotted_dot_length.
    destruct (Z.leb_spec (Z.of_nat (S (length (dotted addr)))) n),
      (Z.ltb_spec (Z.of_nat (length (dotted addr))) n); try lia; [|done].
    by rewrite dotted_dot_removelast. }
  unfold ipaddr_addr. rewrite aton_dotted, bind_clean by done.
  repeat split; [done|done| ].
  unfold ip4addr_ntoa. rewrite Hr. unfold IP4ADDR_STRLEN_MAX.
  destruct (Z.ltb_spec (Z.of_nat (length (dotted addr))) 16); [done|lia].
Qed.

Lemma ip4addr_ntoa_aton_roundtrip_witness :
  is_u32 0x0102a8c0 ∧
  ip4addr_ntoa_r 0x0102a8c0 12 =
    Clean (Some [49; 57; 50; 46; 49; 54; 56; 46; 50; 46; 49]) ∧
  ip4addr_ntoa_r 0x0102a8c0 11 = Clean None ∧
  ∃ s, ip4addr_ntoa 0x0102a8c0 = Clean (Some s) ∧ ip4addr_aton s = Clean (Some 0x0102a8c0).
Proof.
  split; [decide_now|]. split; [reflexivity|]. split; [reflexivity|].
  assert (is_u32 0x0102a8c0) as H by decide_now.
  destruct (ip4addr_ntoa_aton_roundtrip 0x0102a8c0 16 H) as (s & _ & _ & H1 & H2 & _).
  exists s. split; assumption.
Defined.

(** Components that overflow 32 bits are not rejected: the text 4294967297 is read as
    0.0.0.1. *)
Example ip4addr_aton_overflow :
  ip4addr_aton [52; 50; 57; 52; 57; 54; 55; 50; 57; 55] = Clean (Some 0x01000000).
Proof. reflexivity. Qed.
