(* ===== verification/Iface.v ===== *)
(** * What the allocators promise to their clients

    [PoolAlloc] is the contract of one pool of memp.c, [HeapAlloc] that of the heap of
    mem.c.  The clients (timeouts.c, pbuf.c) are verified against these classes;
    [Memp] and [Mem] provide the instances. *)
From S2P Require Import Prelude.

(** One pool: [pool_ok st live] says that the elements of [live] are handed out. *)
Class PoolAlloc (P : Type) := {
  pool_malloc : P → out (Z * P);
  pool_free : P → Z → out P;
  pool_ok : P → gset Z → Prop;
  pool_cap : nat;
  pool_malloc_ok st live : pool_ok st live → ∃ r st',
    pool_malloc st = Clean (r, st') ∧
    ((r = NULL ∧ size live = pool_cap ∧ pool_ok st' live) ∨
     (r ≠ NULL ∧ (size live < pool_cap)%nat ∧ r ∉ live ∧ pool_ok st' ({[r]} ∪ live)));
  pool_free_ok st live x : pool_ok st live → x ∈ live → ∃ st',
    pool_free st x = Clean st' ∧ pool_ok st' (live ∖ {[x]}) }.

(** The heap: [heap_ok st live] says that [live] maps the address of every block handed
    out to the number of bytes that may be used. *)
Class HeapAlloc (H : Type) := {
  heap_malloc : H → Z → out (Z * H);
  heap_free : H → Z → out H;
  heap_trim : H → Z → Z → out (Z * H);
  heap_ok : H → gmap Z Z → Prop;
  heap_malloc_ok st live n : heap_ok st live → is_u16 n → ∃ r st',
    heap_malloc st n = Clean (r, st') ∧
    ((r = NULL ∧ heap_ok st' live) ∨
     (0 < r ∧ ∃ cap, n ≤ cap ∧ heap_ok st' (<[r:=cap]> live) ∧
        ∀ q m, live !! q = Some m → q + m ≤ r ∨ r + cap ≤ q));
  heap_free_ok st live p n : heap_ok st live → live !! p = Some n → ∃ st',
    heap_free st p = Clean st' ∧ heap_ok st' (delete p live);
  heap_trim_ok st live p n m : heap_ok st live → live !! p = Some n → is_u16 m → m ≤ n →
    ∃ st' n' log, heap_trim st p m = Ret (p, st') log ∧ m ≤ n' ≤ n ∧
      heap_ok st' (<[p:=n']> live) }.

(** The three sources pbuf.c allocates from: the heap, [MEMP_PBUF] (a bare [struct pbuf])
    and [MEMP_PBUF_POOL] (a [struct pbuf] with its buffer).  [pa_ok st live] says
    that [live] maps the address of every block handed out to its source and
    size (less than 64 KiB); the blocks never overlap and lie in the arena, memory
    that always exists. *)
Inductive asrc := SrcHeap | SrcPbuf | SrcPool.

#[export] Instance asrc_eq_dec : EqDecision asrc.
Proof. solve_decision. Defined.

(** [sizeof(struct pbuf)] and [PBUF_POOL_BUFSIZE_ALIGNED]. *)
Definition SIZEOF_STRUCT_PBUF : Z := 16.
Definition PBUF_POOL_BUFSIZE_ALIGNED : Z := 592.

(** The size of a block: what was asked for on the heap, fixed for the pools. *)
Definition src_size (k : asrc) (n : Z) : Z :=
  match k with
  | SrcHeap => n
  | SrcPbuf => SIZEOF_STRUCT_PBUF
  | SrcPool => SIZEOF_STRUCT_PBUF + PBUF_POOL_BUFSIZE_ALIGNED
  end.

Definition blocks_disjoint (p n q m : Z) : Prop := p + n ≤ q ∨ q + m ≤ p.

Class PbufAlloc (M : Type) := {
  pa_malloc : M → asrc → Z → out (Z * M);
  pa_free : M → asrc → Z → out M;
  pa_trim : M → Z → Z → out (Z * M);
  pa_arena : Z → Prop;
  pa_ok : M → gmap Z (asrc * Z) → Prop;
  pa_malloc_ok st live k n : pa_ok st live → is_u16 n → ∃ r st',
    pa_malloc st k n = Clean (r, st') ∧
    ((r = NULL ∧ pa_ok st' live) ∨
     (0 < r ∧ ∃ cap, src_size k n ≤ cap ∧ pa_ok st' (<[r:=(k, cap)]> live) ∧
        live !! r = None ∧ ∀ q k' m, live !! q = Some (k', m) → blocks_disjoint q m r cap));
  pa_free_ok st live k p n : pa_ok st live → live !! p = Some (k, n) → ∃ st',
    pa_free st k p = Clean st' ∧ pa_ok st' (delete p live);
  pa_trim_ok st live p n m : pa_ok st live → live !! p = Some (SrcHeap, n) → is_u16 m → m ≤ n →
    ∃ st' n' log, pa_trim st p m = Ret (p, st') log ∧ m ≤ n' ≤ n ∧
      pa_ok st' (<[p:=(SrcHeap, n')]> live);
  pa_region st live p k n : pa_ok st live → live !! p = Some (k, n) →
    0 < p ∧ ∀ a, p ≤ a < p + n → pa_arena a;
  pa_size st live p k n : pa_ok st live → live !! p = Some (k, n) → n < 65536;
  pa_sep st live p k n q k' m : pa_ok st live → live !! p = Some (k, n) →
    live !! q = Some (k', m) → p ≠ q → blocks_disjoint p n q m }.
