(* ===== verification/Stats.v ===== *)
(** * Statistics (src/lwip/src/include/lwip/stats.h)

    [struct stats_mem], kept once for the heap and once per pool, [struct stats_proto], kept
    once per protocol, and the macros that update them.  [STAT_COUNTER] is [u16_t] ([LWIP_STATS_LARGE] is 0) and so is
    [mem_size_t] ([MEM_SIZE] is at most 64000). *)
From S2P Require Import Prelude.

Record stats_mem := StatsMem {
  st_name : string;
  st_err : Z;
  st_avail : Z;
  st_used : Z;
  st_max : Z;
  st_illegal : Z }.

(** Static storage: all counters start at 0. *)
Definition stats_zero : stats_mem := StatsMem "" 0 0 0 0 0.

Definition set_name (s : stats_mem) (n : string) : stats_mem :=
  StatsMem n (st_err s) (st_avail s) (st_used s) (st_max s) (st_illegal s).

(** [MEM_STATS_AVAIL(avail, y)] *)
Definition stats_avail (s : stats_mem) (y : Z) : stats_mem :=
  StatsMem (st_name s) (st_err s) (u16 y) (st_used s) (st_max s) (st_illegal s).

(** [STATS_INC(x.err)] and [STATS_INC(x.illegal)] *)
Definition stats_inc_err (s : stats_mem) : stats_mem :=
  StatsMem (st_name s) (u16 (st_err s + 1)) (st_avail s) (st_used s) (st_max s) (st_illegal s).
Definition stats_inc_illegal (s : stats_mem) : stats_mem :=
  StatsMem (st_name s) (st_err s) (st_avail s) (st_used s) (st_max s) (u16 (st_illegal s + 1)).

(** [STATS_INC_USED(x, y, mem_size_t)]: adds [y] and keeps the high-water mark. *)
Definition stats_inc_used (s : stats_mem) (y : Z) : stats_mem :=
  let used' := u16 (st_used s + y) in
  StatsMem (st_name s) (st_err s) (st_avail s) used'
    (if st_max s <? used' then used' else st_max s) (st_illegal s).

(** [MEM_STATS_DEC_USED(used, y)] *)
Definition stats_dec_used (s : stats_mem) (y : Z) : stats_mem :=
  StatsMem (st_name s) (st_err s) (st_avail s) (u16 (st_used s - y)) (st_max s) (st_illegal s).

(** The counters stay in their width and [used] never exceeds the high-water mark. *)
Definition stats_wf (s : stats_mem) : Prop :=
  is_u16 (st_err s) ∧ is_u16 (st_avail s) ∧ is_u16 (st_used s) ∧ is_u16 (st_max s) ∧
  is_u16 (st_illegal s) ∧ st_used s ≤ st_max s.

Lemma stats_wf_inc_err s : stats_wf s → stats_wf (stats_inc_err s).
Proof. unfold stats_wf. cbn. intuition auto with widths. Qed.
Lemma stats_wf_inc_illegal s : stats_wf s → stats_wf (stats_inc_illegal s).
Proof. unfold stats_wf. cbn. intuition auto with widths. Qed.
Lemma stats_wf_inc_used s y : stats_wf s → stats_wf (stats_inc_used s y).
Proof.
  unfold stats_wf. cbn. pose proof (u16_range (st_used s + y)).
  intros (?&?&?&?&?&?). repeat split; try tauto; try apply u16_range;
    destruct (Z.ltb_spec (st_max s) (u16 (st_used s + y))); unfold is_u16 in *; lia.
Qed.
Lemma stats_wf_dec_used s y : stats_wf s → 0 ≤ y ≤ st_used s → stats_wf (stats_dec_used s y).
Proof.
  unfold stats_wf. cbn. intros (?&?&Hu&?&?&?) Hy.
  rewrite u16_id by (unfold is_u16 in *; lia). unfold is_u16 in *. intuition lia.
Qed.

Create HintDb stats.
#[export] Hint Resolve stats_wf_inc_err stats_wf_inc_illegal stats_wf_inc_used : stats.

(** ** Protocols

    [struct stats_proto]; [STATS_INC(x.field)] is [proto_inc field]. *)
Record stats_proto := StatsProto {
  sp_xmit : Z;
  sp_recv : Z;
  sp_fw : Z;
  sp_drop : Z;
  sp_chkerr : Z;
  sp_lenerr : Z;
  sp_memerr : Z;
  sp_rterr : Z;
  sp_proterr : Z;
  sp_opterr : Z;
  sp_err : Z;
  sp_cachehit : Z }.

Definition proto_zero : stats_proto := StatsProto 0 0 0 0 0 0 0 0 0 0 0 0.

Inductive proto_field := Xmit | Recv | Fw | Drop | Chkerr | Lenerr | Memerr | Rterr | Proterr | Opterr | Err | Cachehit.
#[export] Instance proto_field_eq_dec : EqDecision proto_field.
Proof. solve_decision. Defined.

(** [++lwip_stats.x.field] on a [u16_t]. *)
Definition proto_inc (f : proto_field) (t : stats_proto) : stats_proto :=
  let inc g v := if decide (f = g) then u16 (v + 1) else v in
  StatsProto (inc Xmit (sp_xmit t)) (inc Recv (sp_recv t)) (inc Fw (sp_fw t)) (inc Drop (sp_drop t))
    (inc Chkerr (sp_chkerr t)) (inc Lenerr (sp_lenerr t)) (inc Memerr (sp_memerr t)) (inc Rterr (sp_rterr t))
    (inc Proterr (sp_proterr t)) (inc Opterr (sp_opterr t)) (inc Err (sp_err t)) (inc Cachehit (sp_cachehit t)).
