(* ===== verification/Memp.v ===== *)
(** * Memory pools (src/lwip/src/core/memp.c)

    A pool is an array of [d_num] elements of [d_size] bytes at [d_base]; its free
    elements are linked through their first word, which is also the first word
    of the user's data when the element is allocated ([MEMP_SIZE] is 0).  The
    store [m_next] holds these words for all pools, so a client that writes to
    an element overwrites its link.  Built with [MEMP_STATS], without
    [MEMP_OVERFLOW_CHECK], [MEMP_SANITY_CHECK] and [MEMP_MEM_MALLOC].

    The specification is a stack of free elements and a set of live ones per pool;
    [memp_refines] shows that every sequence of client operations behaves as
    the specification says, whatever the client stores in the elements it owns. *)
From S2P Require Import Prelude Stats Iface.

Definition MEMP_SIZE : Z := 0.

(** ** State *)

Record memp_desc := MempDesc {
  d_desc : string;
  d_size : Z;
  d_num : Z;
  d_base : Z }.

(** A descriptor with the variables it points to: [*desc->tab], [*desc->stats]. *)
Record pool := Pool {
  p_desc : memp_desc;
  p_tab : Z;
  p_stats : stats_mem }.

(** [memp_pools], the first word of every element, and [lwip_stats.memp] (the index
    of the pool whose statistics entry [i] points to). *)
Record memp_st := MempSt {
  m_next : gmap Z Z;
  memp_pools : list pool;
  lwip_stats_memp : gmap nat nat }.

Definition set_pool (s : memp_st) (i : nat) (p : pool) : memp_st :=
  MempSt (m_next s) (<[i:=p]> (memp_pools s)) (lwip_stats_memp s).
Definition set_next (s : memp_st) (a v : Z) : memp_st :=
  MempSt (<[a:=v]> (m_next s)) (memp_pools s) (lwip_stats_memp s).

Definition get_pool (s : memp_st) (i : nat) : out pool :=
  or_fault "memp_pools[i]" (memp_pools s !! i).

Definition MEMP_MAX (s : memp_st) : nat := length (memp_pools s).

(** ** Operations *)

(** The loop that links the elements. *)
Fixpoint init_loop (n : nat) (next : gmap Z Z) (tab memp size : Z) : gmap Z Z * Z :=
  match n with
  | O => (next, tab)
  | S n' => init_loop n' (<[memp:=tab]> next) memp (memp + MEMP_SIZE + size) size
  end.

Definition memp_init_pool (s : memp_st) (i : nat) : out memp_st :=
  p ← get_pool s i;
  let d := p_desc p in
  let '(next, tab) := init_loop (Z.to_nat (d_num d)) (m_next s) NULL (d_base d) (d_size d) in
  mret (MempSt next
    (<[i := Pool d tab (set_name (stats_avail (p_stats p) (d_num d)) (d_desc d))]> (memp_pools s))
    (lwip_stats_memp s)).

Fixpoint init_pools (s : memp_st) (i : nat) (n : nat) : out memp_st :=
  match n with
  | O => mret s
  | S n' =>
      s ← memp_init_pool s i;
      let s := MempSt (m_next s) (memp_pools s) (<[i:=i]> (lwip_stats_memp s)) in
      init_pools s (S i) n'
  end.

Definition memp_init (s : memp_st) : out memp_st := init_pools s 0 (length (memp_pools s)).

Definition do_memp_malloc_pool (s : memp_st) (i : nat) : out (Z * memp_st) :=
  p ← get_pool s i;
  let memp := p_tab p in
  if negb (memp =? NULL) then
    next ← or_fault "memp->next" (m_next s !! memp);
    _ ← lwip_assert "memp_malloc: memp properly aligned" (memp mod MEM_ALIGNMENT =? 0);
    let s := set_pool s i (Pool (p_desc p) next (stats_inc_used (p_stats p) 1)) in
    mret (memp + MEMP_SIZE, s)
  else
    mret (NULL, set_pool s i (Pool (p_desc p) (p_tab p) (stats_inc_err (p_stats p)))).

(** [desc == NULL] is [None]. *)
Definition memp_malloc_pool (s : memp_st) (desc : option nat) : out (Z * memp_st) :=
  _ ← lwip_assert "invalid pool desc" (bool_decide (is_Some desc));
  match desc with
  | None => mret (NULL, s)
  | Some i => do_memp_malloc_pool s i
  end.

Definition memp_malloc (s : memp_st) (type : nat) : out (Z * memp_st) :=
  if negb (type <? MEMP_MAX s)%nat then mret (NULL, s)
  else do_memp_malloc_pool s type.

Definition do_memp_free_pool (s : memp_st) (i : nat) (mem : Z) : out memp_st :=
  _ ← lwip_assert "memp_free: mem properly aligned" (mem mod MEM_ALIGNMENT =? 0);
  let memp := mem - MEMP_SIZE in
  p ← get_pool s i;
  let p := Pool (p_desc p) (p_tab p) (stats_dec_used (p_stats p) 1) in
  let s := set_next s memp (p_tab p) in
  mret (set_pool s i (Pool (p_desc p) memp (p_stats p))).

Definition memp_free_pool (s : memp_st) (desc : option nat) (mem : Z) : out memp_st :=
  _ ← lwip_assert "invalid pool desc" (bool_decide (is_Some desc));
  match desc with
  | None => mret s
  | Some i => if mem =? NULL then mret s else do_memp_free_pool s i mem
  end.

Definition memp_free (s : memp_st) (type : nat) (mem : Z) : out memp_st :=
  if negb (type <? MEMP_MAX s)%nat then mret s
  else if mem =? NULL then mret s
  else do_memp_free_pool s type mem.

(** ** Client operations *)

Inductive memp_ev :=
| EvMalloc (type : nat)
| EvMallocPool (i : nat)
| EvFree (type : nat) (mem : Z)
| EvFreePool (i : nat) (mem : Z)
| EvWrite (mem v : Z).

(** The value returned to the client (0 for [void]) and the new state. *)
Definition exec (s : memp_st) (e : memp_ev) : out (Z * memp_st) :=
  match e with
  | EvMalloc t => memp_malloc s t
  | EvMallocPool i => memp_malloc_pool s (Some i)
  | EvFree t m => s ← memp_free s t m; mret (0, s)
  | EvFreePool i m => s ← memp_free_pool s (Some i) m; mret (0, s)
  | EvWrite m v => mret (0, set_next s m v)
  end.

Fixpoint run (s : memp_st) (es : list memp_ev) : out (list Z * memp_st) :=
  match es with
  | [] => mret ([], s)
  | e :: es =>
      '(r, s) ← exec s e;
      '(rs, s) ← run s es;
      mret (r :: rs, s)
  end.

(** ** Specification *)

Record apool := APool { a_free : list Z; a_live : gset Z }.

Definition amalloc (a : list apool) (i : nat) : option (Z * list apool) :=
  match a !! i with
  | None => None
  | Some p =>
      match a_free p with
      | [] => Some (NULL, a)
      | x :: fs => Some (x, <[i := APool fs ({[x]} ∪ a_live p)]> a)
      end
  end.

(** Only a live element of that pool may be given back. *)
Definition afree (a : list apool) (i : nat) (x : Z) : option (list apool) :=
  match a !! i with
  | None => None
  | Some p =>
      if decide (x ∈ a_live p)
      then Some (<[i := APool (x :: a_free p) (a_live p ∖ {[x]})]> a)
      else None
  end.

(** [None]: the client broke its contract. *)
Definition aexec (a : list apool) (e : memp_ev) : option (Z * list apool) :=
  match e with
  | EvMalloc t =>
      if (t <? length a)%nat then amalloc a t else Some (NULL, a)
  | EvMallocPool i => amalloc a i
  | EvFree t m =>
      if negb (t <? length a)%nat then Some (0, a)
      else if m =? NULL then Some (0, a) else a ← afree a t m; Some (0, a)
  | EvFreePool i m => if m =? NULL then Some (0, a) else a ← afree a i m; Some (0, a)
  | EvWrite m v =>
      if decide (Exists (λ p, m ∈ a_live p) a) then Some (0, a) else None
  end.

Fixpoint arun (a : list apool) (es : list memp_ev) : option (list Z * list apool) :=
  match es with
  | [] => Some ([], a)
  | e :: es =>
      '(r, a) ← aexec a e;
      '(rs, a) ← arun a es;
      Some (r :: rs, a)
  end.

(** ** Representation *)

(** [x] is the address of an element of the pool. *)
Definition pool_elem (d : memp_desc) (x : Z) : Prop :=
  ∃ k, 0 ≤ k < d_num d ∧ x = d_base d + k * d_size d.

(** The arrays of the pools: away from address 0 and from each other. *)
Definition desc_ok (d : memp_desc) : Prop :=
  0 < d_base d ∧ 0 < d_size d ∧ is_u16 (d_num d).
Definition layout_ok (ds : list memp_desc) : Prop :=
  Forall desc_ok ds ∧
  ∀ i j di dj, i ≠ j → ds !! i = Some di → ds !! j = Some dj →
    d_base di + d_num di * d_size di ≤ d_base dj ∨ d_base dj + d_num dj * d_size dj ≤ d_base di.

(** The links starting at [tab] visit exactly [l]. *)
Fixpoint chain (next : gmap Z Z) (tab : Z) (l : list Z) : Prop :=
  match l with
  | [] => tab = NULL
  | x :: l => tab = x ∧ x ≠ NULL ∧ ∃ n, next !! x = Some n ∧ chain next n l
  end.

Record pool_rep (next : gmap Z Z) (p : pool) (a : apool) : Prop := PoolRep {
  pr_chain : chain next (p_tab p) (a_free a);
  pr_nodup : NoDup (a_free a);
  pr_disj : ∀ x, x ∈ a_free a → x ∉ a_live a;
  pr_elem : ∀ x, x ∈ a_free a ∨ x ∈ a_live a ↔ pool_elem (p_desc p) x;
  pr_count : Z.of_nat (length (a_free a)) + Z.of_nat (size (a_live a)) = d_num (p_desc p);
  pr_used : st_used (p_stats p) = Z.of_nat (size (a_live a));
  pr_stats : stats_wf (p_stats p);
  pr_avail : st_avail (p_stats p) = d_num (p_desc p) }.

Record rep (s : memp_st) (a : list apool) : Prop := Rep {
  r_layout : layout_ok (p_desc <$> memp_pools s);
  r_pools : Forall2 (pool_rep (m_next s)) (memp_pools s) a }.

Lemma chain_ext next next' tab l :
  (∀ x, x ∈ l → next' !! x = next !! x) → chain next tab l → chain next' tab l.
Proof.
  intros Heq. revert tab. induction l as [|y l IH]; [done|].
  intros t. cbn [chain]. intros (-> & Hy & n & Hn & Hc). split; [done|]. split; [done|].
  exists n. rewrite Heq by (by left). split; [done|]. apply IH; [|done].
  intros z Hz. apply Heq. by right.
Qed.

Lemma chain_insert next x v tab l : x ∉ l → chain next tab l → chain (<[x:=v]> next) tab l.
Proof.
  revert tab. induction l as [|y l IH]; intros tab Hx; [done|].
  apply not_elem_of_cons in Hx as [Hxy Hx]. cbn [chain].
  intros (-> & Hy & n & Hn & Hc). repeat split; [done|]. exists n.
  rewrite lookup_insert_ne by done. split; [done|]. by apply IH.
Qed.

Lemma pool_elem_bounds d x : desc_ok d → pool_elem d x →
  d_base d ≤ x ∧ x + d_size d ≤ d_base d + d_num d * d_size d.
Proof. intros (H1 & H2 & H3) (k & Hk & ->). nia. Qed.

Lemma layout_lookup ds i d : layout_ok ds → ds !! i = Some d → desc_ok d.
Proof. intros [H _] Hd. by eapply Forall_lookup_1. Qed.

(** An element belongs to one pool only. *)
Lemma pool_elem_unique ds i j di dj x : layout_ok ds →
  ds !! i = Some di → ds !! j = Some dj → pool_elem di x → pool_elem dj x → i = j.
Proof.
  intros Hl Hi Hj Hxi Hxj. destruct (decide (i = j)) as [|Hne]; [done|].
  pose proof (layout_lookup _ _ _ Hl Hi) as Hdi. pose proof (layout_lookup _ _ _ Hl Hj) as Hdj.
  pose proof (pool_elem_bounds _ _ Hdi Hxi). pose proof (pool_elem_bounds _ _ Hdj Hxj).
  destruct Hdi as (_ & ? & _), Hdj as (_ & ? & _).
  destruct Hl as [_ Hl]. destruct (Hl i j di dj Hne Hi Hj); lia.
Qed.

Lemma pool_elem_nonnull d x : desc_ok d → pool_elem d x → x ≠ NULL.
Proof. intros Hd Hx%pool_elem_bounds; [|done]. destruct Hd. unfold NULL. lia. Qed.

Lemma rep_lookup s a i p : rep s a → memp_pools s !! i = Some p →
  ∃ ap, a !! i = Some ap ∧ pool_rep (m_next s) p ap ∧ desc_ok (p_desc p).
Proof.
  intros [Hl Hr] Hp. destruct (Forall2_lookup_l _ _ _ _ _ Hr Hp) as (ap & Hap & Hpr).
  exists ap. split; [done|]. split; [done|]. eapply layout_lookup; [exact Hl|].
  by rewrite list_lookup_fmap, Hp.
Qed.

Lemma rep_lookup_r s a i ap : rep s a → a !! i = Some ap →
  ∃ p, memp_pools s !! i = Some p ∧ pool_rep (m_next s) p ap ∧ desc_ok (p_desc p).
Proof.
  intros Hrep Hap. destruct (Forall2_lookup_r _ _ _ _ _ (r_pools _ _ Hrep) Hap) as (p & Hp & _).
  destruct (rep_lookup _ _ _ _ Hrep Hp) as (ap' & Hap' & ?). simplify_eq. eauto.
Qed.

(** Replacing pool [i] and the link of one of its elements keeps the other pools. *)
Lemma rep_update s a i p p' ap' next' :
  rep s a → memp_pools s !! i = Some p → p_desc p' = p_desc p →
  (∀ y, ¬ pool_elem (p_desc p) y → next' !! y = m_next s !! y) →
  pool_rep next' p' ap' →
  rep (MempSt next' (<[i:=p']> (memp_pools s)) (lwip_stats_memp s)) (<[i:=ap']> a).
Proof.
  intros Hrep Hp Hd Hnext Hpr. pose proof Hrep as [Hl Hr]. split; cbn [memp_pools m_next].
  { rewrite list_fmap_insert, Hd, list_insert_id; [done|]. by rewrite list_lookup_fmap, Hp. }
  apply Forall2_same_length_lookup. pose proof (Forall2_length _ _ _ Hr) as Hlen.
  split; [by rewrite !length_insert|]. intros j q aq Hq Haq.
  destruct (decide (i = j)) as [<-|Hij].
  - assert (i < length a)%nat by (rewrite <- Hlen; by eapply lookup_lt_Some).
    rewrite list_lookup_insert_eq in Hq by (by eapply lookup_lt_Some).
    rewrite list_lookup_insert_eq in Haq by done. by simplify_eq.
  - rewrite list_lookup_insert_ne in Hq by done. rewrite list_lookup_insert_ne in Haq by done.
    destruct (rep_lookup _ _ _ _ Hrep Hq) as (aq' & Haq' & Hqr & Hqd). simplify_eq.
    destruct Hqr as [Hc Hnd Hdj He Hn Hu Hs Ha]. split; try done.
    assert (∀ y, y ∈ a_free aq → next' !! y = m_next s !! y) as Heq.
    { intros y Hy. apply Hnext. intros Hyi. apply Hij.
      assert (pool_elem (p_desc q) y) as Hyj by (apply He; by left).
      apply (pool_elem_unique (p_desc <$> memp_pools s) i j (p_desc p) (p_desc q) y);
        [done| | |done|done]; rewrite list_lookup_fmap; [by rewrite Hp|by rewrite Hq]. }
    by apply chain_ext with (m_next s).
Qed.

(** Different elements occupy different bytes. *)
Lemma elem_disjoint s a i j p q x y : rep s a →
  memp_pools s !! i = Some p → memp_pools s !! j = Some q →
  pool_elem (p_desc p) x → pool_elem (p_desc q) y → (j = i → x ≠ y) →
  x + d_size (p_desc p) ≤ y ∨ y + d_size (p_desc q) ≤ x.
Proof.
  intros Hrep Hp Hq Hx Hy Hne.
  destruct (rep_lookup _ _ _ _ Hrep Hp) as (_ & _ & _ & Hdp).
  destruct (rep_lookup _ _ _ _ Hrep Hq) as (_ & _ & _ & Hdq).
  destruct (decide (i = j)) as [->|Hij].
  - simplify_eq. specialize (Hne eq_refl). destruct Hx as (k & Hk & ->), Hy as (l & Hkl & ->).
    destruct Hdp as (_ & Hs & _). assert (k < l ∨ l < k) as [?|?] by (clear -Hne Hs; nia); nia.
  - pose proof (pool_elem_bounds _ _ Hdp Hx). pose proof (pool_elem_bounds _ _ Hdq Hy).
    destruct Hrep as [[_ Hl] _].
    destruct (Hl i j (p_desc p) (p_desc q) Hij); [by rewrite list_lookup_fmap, Hp
      |by rewrite list_lookup_fmap, Hq|lia..].
Qed.

(** ** Operations refine the specification *)

Lemma do_memp_malloc_pool_refines s a i r a' :
  rep s a → amalloc a i = Some (r, a') →
  ∃ s', do_memp_malloc_pool s i = Clean (r, s') ∧ rep s' a'.
Proof.
  intros Hrep Ham. unfold amalloc in Ham.
  destruct (a !! i) as [ap|] eqn:Hap; [|done].
  destruct (rep_lookup_r _ _ _ _ Hrep Hap) as (p & Hp & Hpr & Hd).
  unfold do_memp_malloc_pool, get_pool. rewrite Hp. out_simp.
  pose proof Hpr as [Hc Hnd Hdj He Hn Hu Hs Ha].
  destruct (a_free ap) as [|x fs] eqn:Hfree; injection Ham as <- <-.
  - cbn [chain] in Hc. rewrite Hc. cbn [negb Z.eqb NULL]. eexists. split; [done|].
    rewrite <- (list_insert_id a i ap) by done.
    apply rep_update with (p := p); [done..|].
    rewrite <- Hc. split; cbn [p_tab p_stats p_desc a_free]; rewrite ?Hfree; try done.
    by apply stats_wf_inc_err.
  - destruct Hc as (Ht & Hx & n & Hnx & Hc). rewrite Ht, (proj2 (Z.eqb_neq x NULL) Hx).
    cbn [negb]. rewrite Hnx. out_simp. rewrite Z.mod_1_r. out_simp.
    unfold MEMP_SIZE. rewrite Z.add_0_r. eexists. split; [done|].
    apply rep_update with (p := p); [done..|].
    apply NoDup_cons in Hnd as [Hxfs Hnd].
    assert (x ∉ a_live ap) as Hxl by (apply Hdj; by left).
    assert (size ({[x]} ∪ a_live ap) = S (size (a_live ap))) as Hsz.
    { rewrite size_union by (by apply disjoint_singleton_l). by rewrite size_singleton. }
    destruct Hd as (_ & _ & Hnum). cbn [length] in Hn.
    split; cbn [p_tab p_stats p_desc a_free a_live st_used st_avail stats_inc_used]; try done.
    + intros y Hy. apply not_elem_of_union. rewrite not_elem_of_singleton. split.
      * by intros ->.
      * apply Hdj. by right.
    + intros y. rewrite <- He, elem_of_union, elem_of_singleton, elem_of_cons. tauto.
    + lia.
    + rewrite Hu, Hsz, u16_id; [lia|]. unfold is_u16 in *. lia.
    + by apply stats_wf_inc_used.
Qed.

Lemma do_memp_free_pool_refines s a i x a' :
  rep s a → afree a i x = Some a' →
  ∃ s', do_memp_free_pool s i x = Clean s' ∧ rep s' a'.
Proof.
  intros Hrep Haf. unfold afree in Haf.
  destruct (a !! i) as [ap|] eqn:Hap; [|done].
  destruct (decide (x ∈ a_live ap)) as [Hx|]; [|done].
  injection Haf as <-.
  destruct (rep_lookup_r _ _ _ _ Hrep Hap) as (p & Hp & Hpr & Hd).
  unfold do_memp_free_pool, get_pool. rewrite Hp, Z.mod_1_r. out_simp.
  eexists. split; [done|]. unfold set_next, set_pool, MEMP_SIZE.
  cbn [m_next memp_pools lwip_stats_memp p_desc p_tab p_stats]. rewrite Z.sub_0_r.
  pose proof Hpr as [Hc Hnd Hdj He Hn Hu Hs Ha].
  assert (pool_elem (p_desc p) x) as Hxe by (apply He; by right).
  assert (x ∉ a_free ap) as Hxf by (intros Hf; by apply (Hdj x)).
  assert (size (a_live ap) = S (size (a_live ap ∖ {[x]}))) as Hsz.
  { rewrite (union_difference_singleton_L x (a_live ap)) at 1 by done.
    rewrite size_union by (rewrite disjoint_singleton_l, elem_of_difference, elem_of_singleton; tauto).
    by rewrite size_singleton. }
  destruct Hd as (_ & _ & Hnum).
  apply rep_update with (p := p); [done..| |].
  { intros y Hy. rewrite lookup_insert_ne; [done|]. by intros ->. }
  split; cbn [p_tab p_stats p_desc a_free a_live st_used st_avail stats_dec_used length]; try done.
  - cbn [chain]. split; [done|]. split.
    { destruct (rep_lookup _ _ _ _ Hrep Hp) as (_ & _ & _ & Hd). by eapply pool_elem_nonnull. }
    exists (p_tab p). split; [apply lookup_insert_eq|]. by apply chain_insert.
  - by apply NoDup_cons.
  - intros y [->|Hy]%elem_of_cons; [by rewrite elem_of_difference, elem_of_singleton; intros []|].
    rewrite elem_of_difference. intros [? _]. by apply (Hdj y).
  - intros y. rewrite <- He, elem_of_difference, elem_of_singleton, elem_of_cons.
    destruct (decide (y = x)) as [->|]; tauto.
  - lia.
  - rewrite Hu, u16_id; unfold is_u16 in *; lia.
  - apply stats_wf_dec_used; [done|lia].
Qed.

Lemma rep_length s a : rep s a → length (memp_pools s) = length a.
Proof. intros [_ H]. by eapply Forall2_length. Qed.

(** A client may store anything in an element it owns. *)
Lemma write_refines s a m v :
  rep s a → Exists (λ p, m ∈ a_live p) a → rep (set_next s m v) a.
Proof.
  intros Hrep (ap & [i Hap]%list_elem_of_lookup & Hm)%Exists_exists.
  destruct (rep_lookup_r _ _ _ _ Hrep Hap) as (p & Hp & Hpr & Hd).
  unfold set_next. rewrite <- (list_insert_id (memp_pools s) i p) by done.
  rewrite <- (list_insert_id a i ap) by done.
  pose proof Hpr as [Hc Hnd Hdj He Hn Hu Hs Ha].
  apply rep_update with (p := p); [done..| |].
  - intros y Hy. rewrite lookup_insert_ne; [done|]. intros ->. apply Hy, He. by right.
  - split; try done. apply chain_insert; [|done]. intros Hf. by apply (Hdj m).
Qed.

Lemma exec_refines s a e r a' :
  rep s a → aexec a e = Some (r, a') → ∃ s', exec s e = Clean (r, s') ∧ rep s' a'.
Proof.
  intros Hrep. pose proof (rep_length _ _ Hrep) as Hlen.
  destruct e as [t|i|t m|i m|m v]; cbn [aexec exec].
  - unfold memp_malloc, MEMP_MAX. rewrite Hlen. destruct (_ <? _)%nat; cbn [negb].
    + by apply do_memp_malloc_pool_refines.
    + intros [= <- <-]. by exists s.
  - unfold memp_malloc_pool. rewrite bool_decide_eq_true_2 by done. out_simp. by apply do_memp_malloc_pool_refines.
  - unfold memp_free, MEMP_MAX. rewrite Hlen. destruct (_ <? _)%nat; cbn [negb].
    + destruct (m =? NULL).
      { intros [= <- <-]. by exists s. }
      intros (a1 & Haf & [= <- <-])%bind_Some.
      destruct (do_memp_free_pool_refines _ _ _ _ _ Hrep Haf) as (s' & -> & Hr). by exists s'.
    + intros [= <- <-]. by exists s.
  - unfold memp_free_pool. rewrite bool_decide_eq_true_2 by done. out_simp. destruct (m =? NULL).
    { intros [= <- <-]. by exists s. }
    intros (a1 & Haf & [= <- <-])%bind_Some.
    destruct (do_memp_free_pool_refines _ _ _ _ _ Hrep Haf) as (s' & -> & Hr). by exists s'.
  - destruct (decide _) as [Hw|]; [|done]. intros [= <- <-].
    eexists. split; [done|]. by apply write_refines.
Qed.

Lemma run_refines es s a rs a' :
  rep s a → arun a es = Some (rs, a') → ∃ s', run s es = Clean (rs, s') ∧ rep s' a'.
Proof.
  revert s a rs. induction es as [|e es IH]; intros s a rs Hrep; cbn [arun run].
  { intros [= <- <-]. by exists s. }
  intros ([r a1] & He & ([rs1 a2] & Hrun & [= <- <-])%bind_Some)%bind_Some.
  destruct (exec_refines _ _ _ _ _ Hrep He) as (s1 & -> & Hrep1).
  destruct (IH _ _ _ Hrep1 Hrun) as (s2 & Hr2 & Hrep2).
  exists s2. out_simp. rewrite Hr2. by out_simp.
Qed.

(** ** Initialisation *)

(** The elements of a pool, in the order [memp_init_pool] visits them. *)
Fixpoint elems (n : nat) (memp size : Z) : list Z :=
  match n with
  | O => []
  | S n' => memp :: elems n' (memp + size) size
  end.

Lemma elem_of_elems n memp size x :
  x ∈ elems n memp size ↔ ∃ k, 0 ≤ k < Z.of_nat n ∧ x = memp + k * size.
Proof.
  revert memp. induction n as [|n IH]; intros memp; cbn [elems].
  { split; [by intros ?%elem_of_nil|]. intros (k & ? & ?). lia. }
  rewrite elem_of_cons, IH. split.
  - intros [->|(k & Hk & ->)]; [exists 0; lia|exists (k + 1); lia].
  - intros (k & Hk & ->). destruct (decide (k = 0)) as [->|]; [left; lia|].
    right. exists (k - 1). lia.
Qed.

Lemma elems_nodup n memp size : 0 < size → NoDup (elems n memp size).
Proof.
  intros Hs. revert memp. induction n as [|n IH]; intros memp; cbn [elems]; constructor; [|done].
  rewrite elem_of_elems. intros (k & Hk & H). nia.
Qed.

Lemma elems_length n memp size : length (elems n memp size) = n.
Proof. revert memp. induction n as [|n IH]; intros memp; cbn [elems length]; [done|by rewrite IH]. Qed.

Lemma init_loop_chain n next tab memp size acc next' tab' :
  0 < memp → 0 < size → chain next tab acc → (∀ x, x ∈ acc → x < memp) →
  init_loop n next tab memp size = (next', tab') →
  chain next' tab' (reverse (elems n memp size) ++ acc) ∧
  ∀ x, x ∉ elems n memp size → next' !! x = next !! x.
Proof.
  intros Hm Hs. revert next tab memp acc Hm.
  induction n as [|n IH]; intros next tab memp acc Hm Hc Hlt; cbn [init_loop elems].
  { intros [= <- <-]. done. }
  unfold MEMP_SIZE. rewrite Z.add_0_r. intros Hi.
  edestruct (IH (<[memp:=tab]> next) memp (memp + size) (memp :: acc)) as [Hc' Hn'];
    [lia| | |exact Hi|].
  - cbn [chain]. split; [done|]. split; [unfold NULL; lia|]. exists tab.
    split; [apply lookup_insert_eq|]. apply chain_insert; [|done].
    intros Hin%Hlt. lia.
  - intros x [->|Hx%Hlt]%elem_of_cons; lia.
  - split.
    + by rewrite reverse_cons, <- (assoc_L app).
    + intros x [Hx1 Hx2]%not_elem_of_cons. rewrite Hn' by done. by rewrite lookup_insert_ne.
Qed.

Definition ainit_pool (d : memp_desc) : apool :=
  APool (reverse (elems (Z.to_nat (d_num d)) (d_base d) (d_size d))) ∅.
Definition ainit (ds : list memp_desc) : list apool := ainit_pool <$> ds.

Lemma pool_elem_elems d x : 0 ≤ d_num d →
  x ∈ elems (Z.to_nat (d_num d)) (d_base d) (d_size d) ↔ pool_elem d x.
Proof. intros H. rewrite elem_of_elems, Z2Nat.id by done. done. Qed.

(** What [memp_init_pool] leaves behind for one pool. *)
Lemma memp_init_pool_rep s i p : memp_pools s !! i = Some p → desc_ok (p_desc p) →
  p_stats p = stats_zero → ∃ next' p',
    memp_init_pool s i = Clean (MempSt next' (<[i:=p']> (memp_pools s)) (lwip_stats_memp s)) ∧
    p_desc p' = p_desc p ∧ pool_rep next' p' (ainit_pool (p_desc p)) ∧
    (∀ x, ¬ pool_elem (p_desc p) x → next' !! x = m_next s !! x).
Proof.
  intros Hp (Hb & Hs & Hn) Hst. unfold memp_init_pool, get_pool. rewrite Hp. out_simp.
  destruct (init_loop _ _ _ _ _) as [next' tab'] eqn:Hi.
  apply (init_loop_chain _ _ _ _ _ []) in Hi as [Hc Hout]; [|done|done|done|].
  2:{ intros x Hx. by apply elem_of_nil in Hx. }
  rewrite app_nil_r in Hc. assert (0 ≤ d_num (p_desc p)) as Hn0 by (unfold is_u16 in Hn; lia).
  do 2 eexists. split; [done|]. cbn [p_desc]. split; [done|]. split.
  - split; cbn [p_tab p_desc p_stats ainit_pool a_free a_live]; try done.
    + rewrite reverse_Permutation. by apply elems_nodup.
    + intros x. rewrite elem_of_reverse, pool_elem_elems, elem_of_empty by done. tauto.
    + rewrite length_reverse, elems_length, size_empty. lia.
    + by rewrite Hst.
    + rewrite Hst. unfold stats_wf. cbn. repeat split; try done; apply u16_range.
    + by apply u16_id.
  - intros x Hx. apply Hout. by rewrite pool_elem_elems.
Qed.

(** The state after the first [i] pools have been initialised. *)
Record inited (ds : list memp_desc) (s : memp_st) (i : nat) : Prop := Inited {
  in_descs : p_desc <$> memp_pools s = ds;
  in_done : ∀ j p, (j < i)%nat → memp_pools s !! j = Some p →
    pool_rep (m_next s) p (ainit_pool (p_desc p));
  in_todo : ∀ j p, (i ≤ j)%nat → memp_pools s !! j = Some p → p_stats p = stats_zero;
  in_stats : ∀ j, (j < i)%nat → lwip_stats_memp s !! j = Some j }.

Lemma init_pools_inited ds n i s :
  layout_ok ds → inited ds s i → (i + n = length ds)%nat →
  ∃ s', init_pools s i n = Clean s' ∧ inited ds s' (i + n)%nat.
Proof.
  intros Hl. revert i s. induction n as [|n IH]; intros i s Hin Hlen; cbn [init_pools].
  { exists s. by rewrite Nat.add_0_r. }
  pose proof Hin as [Hd Hdone Htodo Hst].
  destruct (memp_pools s !! i) as [p|] eqn:Hp.
  2:{ apply lookup_ge_None in Hp. rewrite <- Hd, length_fmap in Hlen. lia. }
  assert (ds !! i = Some (p_desc p)) as Hdi by (by rewrite <- Hd, list_lookup_fmap, Hp).
  destruct (memp_init_pool_rep s i p Hp (layout_lookup _ _ _ Hl Hdi))
    as (next' & p' & -> & Hpd & Hpr & Hout); [by apply (Htodo i)|].
  out_simp. replace (i + S n)%nat with (S i + n)%nat by lia. apply IH; [|lia].
  split; cbn [memp_pools m_next lwip_stats_memp].
  - by rewrite list_fmap_insert, Hpd, Hd, list_insert_id.
  - intros j q Hj Hq. destruct (decide (j = i)) as [->|Hne].
    { rewrite list_lookup_insert_eq in Hq by (by eapply lookup_lt_Some).
      injection Hq as <-. by rewrite Hpd. }
    rewrite list_lookup_insert_ne in Hq by done.
    destruct (Hdone j q) as [Hc Hnd Hdj He Hn Hu Hs Ha]; [lia|done|]. split; try done.
    apply chain_ext with (m_next s); [|done]. intros x Hx. apply Hout. intros Hxi. apply Hne.
    assert (pool_elem (p_desc q) x) as Hxj by (apply He; by left).
    apply (pool_elem_unique ds j i (p_desc q) (p_desc p) x); [done| |done|done|done].
    by rewrite <- Hd, list_lookup_fmap, Hq.
  - intros j q Hj Hq. rewrite list_lookup_insert_ne in Hq by lia. apply (Htodo j); [lia|done].
  - intros j Hj. destruct (decide (j = i)) as [->|]; [apply lookup_insert_eq|].
    rewrite lookup_insert_ne by lia. apply Hst. lia.
Qed.

Lemma memp_init_rep s :
  layout_ok (p_desc <$> memp_pools s) → Forall (λ p, p_stats p = stats_zero) (memp_pools s) →
  ∃ s', memp_init s = Clean s' ∧ rep s' (ainit (p_desc <$> memp_pools s)) ∧
    ∀ j, (j < MEMP_MAX s)%nat → lwip_stats_memp s' !! j = Some j.
Proof.
  intros Hl Hz. unfold memp_init.
  destruct (init_pools_inited (p_desc <$> memp_pools s) (length (memp_pools s)) 0 s Hl)
    as (s' & -> & Hin).
  { split; [done|lia| |lia]. intros j p _ Hp. exact (Forall_lookup_1 _ _ _ _ Hz Hp). }
  { by rewrite length_fmap. }
  exists s'. split; [done|]. destruct Hin as [Hd Hdone _ Hst]. split; [|exact Hst].
  split; [by rewrite Hd|]. rewrite <- Hd. unfold ainit.
  apply Forall2_fmap_r, Forall2_fmap_r, Forall_Forall2_diag, Forall_lookup_2.
  intros j p Hp. apply (Hdone j); [|done]. apply lookup_lt_Some in Hp as Hlt.
  apply (f_equal length) in Hd. rewrite !length_fmap in Hd. lia.
Qed.

(** ** Main theorems *)

(** C31: after [memp_init], every sequence of client operations that the
    specification allows (allocate, give back a live element, write to a live
    element) runs without a failed assertion and without touching foreign
    memory, and returns exactly what the stack-of-free-elements specification
    returns; the free lists, the live sets and the statistics stay in step. *)
Theorem memp_refines s es rs a' :
  layout_ok (p_desc <$> memp_pools s) →
  Forall (λ p, p_stats p = stats_zero) (memp_pools s) →
  arun (ainit (p_desc <$> memp_pools s)) es = Some (rs, a') →
  ∃ s0 s', memp_init s = Clean s0 ∧ run s0 es = Clean (rs, s') ∧ rep s' a'.
Proof.
  intros Hl Hz Hrun. destruct (memp_init_rep s Hl Hz) as (s0 & -> & Hrep & _).
  destruct (run_refines _ _ _ _ _ Hrep Hrun) as (s' & Hr & Hrep'). eauto.
Qed.

(** [memp_malloc] hands out a free element: it either returns NULL, exactly when
    all [num] elements are live (then only the error counter changes), or an
    element of the pool whose bytes overlap no live element of any pool. *)
Theorem memp_malloc_fresh s a t p :
  rep s a → memp_pools s !! t = Some p →
  ∃ r s' a', memp_malloc s t = Clean (r, s') ∧ rep s' a' ∧
    (r = NULL ↔ st_used (p_stats p) = d_num (p_desc p)) ∧
    (r = NULL → a' = a ∧ m_next s' = m_next s) ∧
    (r ≠ NULL → pool_elem (p_desc p) r ∧
      ∀ j q aq y, memp_pools s !! j = Some q → a !! j = Some aq → y ∈ a_live aq →
        r + d_size (p_desc p) ≤ y ∨ y + d_size (p_desc q) ≤ r).
Proof.
  intros Hrep Hp. destruct (rep_lookup _ _ _ _ Hrep Hp) as (ap & Hap & Hpr & Hd).
  assert (∃ r a', amalloc a t = Some (r, a')) as (r & a' & Ham).
  { unfold amalloc. rewrite Hap. destruct (a_free ap); eauto. }
  destruct (do_memp_malloc_pool_refines _ _ _ _ _ Hrep Ham) as (s' & Hs' & Hrep').
  exists r, s', a'. split.
  { unfold memp_malloc, MEMP_MAX. apply lookup_lt_Some in Hp.
    by rewrite (proj2 (Nat.ltb_lt _ _) Hp). }
  split; [done|]. pose proof Hpr as [Hc Hnd Hdj He Hn Hu Hs Ha].
  unfold amalloc in Ham. rewrite Hap in Ham.
  destruct (a_free ap) as [|x fs] eqn:Hf; injection Ham as <- <-.
  - cbn [length] in Hn. split; [rewrite Hu; lia|]. split; [|done]. intros _. split; [done|].
    revert Hs'. unfold do_memp_malloc_pool, get_pool. rewrite Hp. out_simp.
    cbn [chain] in Hc. rewrite Hc. cbn [negb Z.eqb NULL]. by intros [= <-].
  - assert (pool_elem (p_desc p) x) as Hx by (apply He; left; by left).
    pose proof (pool_elem_nonnull _ _ Hd Hx) as Hx0. cbn [length] in Hn.
    split; [rewrite Hu; split; [done|lia]|]. split; [done|]. intros _. split; [done|].
    intros j q aq y Hq Haq Hy. eapply elem_disjoint; [exact Hrep|exact Hp|exact Hq|done| |].
    + destruct (rep_lookup _ _ _ _ Hrep Hq) as (aq' & Haq' & Hqr & _). simplify_eq.
      apply (pr_elem _ _ _ Hqr). by right.
    + intros Hj ->. subst j. simplify_eq. apply (Hdj y); [by left|done].
Qed.

(** ** The pool as its clients see it *)

(** Pool [i] of a pool system: the other pools are part of the state. *)
Definition pool_live (i : nat) (n : nat) (s : memp_st) (live : gset Z) : Prop :=
  ∃ a ap p, rep s a ∧ a !! i = Some ap ∧ a_live ap = live ∧
    memp_pools s !! i = Some p ∧ Z.to_nat (d_num (p_desc p)) = n.

Lemma do_memp_malloc_desc s i r s' : do_memp_malloc_pool s i = Clean (r, s') →
  p_desc <$> memp_pools s' = p_desc <$> memp_pools s.
Proof.
  unfold do_memp_malloc_pool, get_pool. destruct (memp_pools s !! i) as [p|] eqn:Hp; [|done].
  assert (p_desc <$> memp_pools s !! i = Some (p_desc p)) as Hd by (by rewrite Hp).
  rewrite <- list_lookup_fmap in Hd. out_simp.
  destruct (negb (p_tab p =? NULL)).
  - destruct (m_next s !! p_tab p); [|done]. out_simp. rewrite Z.mod_1_r. out_simp.
    intros [= <- <-]. cbn. by rewrite list_fmap_insert, list_insert_id.
  - intros [= <- <-]. cbn. by rewrite list_fmap_insert, list_insert_id.
Qed.

Lemma do_memp_free_desc s i x s' : do_memp_free_pool s i x = Clean s' →
  p_desc <$> memp_pools s' = p_desc <$> memp_pools s.
Proof.
  unfold do_memp_free_pool, get_pool. rewrite Z.mod_1_r. out_simp.
  destruct (memp_pools s !! i) as [p|] eqn:Hp; [|done].
  assert (p_desc <$> memp_pools s !! i = Some (p_desc p)) as Hd by (by rewrite Hp).
  rewrite <- list_lookup_fmap in Hd. out_simp. intros [= <-]. cbn.
  by rewrite list_fmap_insert, list_insert_id.
Qed.

(** The descriptor survives, so the capacity does. *)
Lemma desc_lookup s s' i p : p_desc <$> memp_pools s' = p_desc <$> memp_pools s →
  memp_pools s !! i = Some p → ∃ p', memp_pools s' !! i = Some p' ∧ p_desc p' = p_desc p.
Proof.
  intros Hd Hp. apply (f_equal (λ l, l !! i)) in Hd. rewrite !list_lookup_fmap, Hp in Hd.
  destruct (memp_pools s' !! i) as [p'|]; [|done]. injection Hd as Hd. eauto.
Qed.

Lemma pool_live_malloc i n s live : pool_live i n s live → ∃ r s',
  memp_malloc s i = Clean (r, s') ∧
  ((r = NULL ∧ size live = n ∧ pool_live i n s' live) ∨
   (r ≠ NULL ∧ (size live < n)%nat ∧ r ∉ live ∧ pool_live i n s' ({[r]} ∪ live))).
Proof.
  intros (a & ap & p & Hrep & Hap & <- & Hp & Hn).
  unfold memp_malloc, MEMP_MAX. rewrite (proj2 (Nat.ltb_lt _ _)) by (by eapply lookup_lt_Some).
  cbn [negb]. destruct (rep_lookup _ _ _ _ Hrep Hp) as (ap' & Hap' & Hpr & Hd).
  rewrite Hap in Hap'. injection Hap' as <-.
  assert (∃ r a', amalloc a i = Some (r, a')) as (r & a' & Ham).
  { unfold amalloc. rewrite Hap. destruct (a_free ap); eauto. }
  destruct (do_memp_malloc_pool_refines _ _ _ _ _ Hrep Ham) as (s' & Hs' & Hrep').
  destruct (desc_lookup s s' i p (do_memp_malloc_desc _ _ _ _ Hs') Hp) as (p' & Hp' & Hpd).
  exists r, s'. split; [done|]. unfold amalloc in Ham. rewrite Hap in Ham.
  pose proof (pr_count _ _ _ Hpr) as Hc. pose proof (pr_elem _ _ _ Hpr) as He.
  destruct (a_free ap) as [|x fs] eqn:Hf; injection Ham as <- <-.
  - left. split; [done|]. split; [cbn in Hc; lia|]. exists a, ap, p'. by rewrite Hpd.
  - right. cbn [length] in Hc.
    assert (pool_elem (p_desc p) x) as Hx by (apply He; left; by left).
    split; [by eapply pool_elem_nonnull|]. split; [lia|]. split.
    { apply (pr_disj _ _ _ Hpr). rewrite Hf. by left. }
    eexists _, _, p'. split; [done|]. rewrite list_lookup_insert_eq by (by eapply lookup_lt_Some).
    split; [done|]. rewrite Hpd. done.
Qed.

Lemma pool_live_free i n s live x : pool_live i n s live → x ∈ live → ∃ s',
  memp_free s i x = Clean s' ∧ pool_live i n s' (live ∖ {[x]}).
Proof.
  intros (a & ap & p & Hrep & Hap & <- & Hp & Hn) Hx.
  unfold memp_free, MEMP_MAX. rewrite (proj2 (Nat.ltb_lt _ _)) by (by eapply lookup_lt_Some).
  cbn [negb]. destruct (rep_lookup _ _ _ _ Hrep Hp) as (ap' & Hap' & Hpr & Hd).
  rewrite Hap in Hap'. injection Hap' as <-.
  assert (pool_elem (p_desc p) x) as Hxe by (apply (pr_elem _ _ _ Hpr); by right).
  rewrite (proj2 (Z.eqb_neq _ _)) by (by eapply pool_elem_nonnull).
  destruct (do_memp_free_pool_refines s a i x
    (<[i := APool (x :: a_free ap) (a_live ap ∖ {[x]})]> a)) as (s' & Hs' & Hrep'); [done| |].
  { unfold afree. rewrite Hap. by rewrite decide_True. }
  destruct (desc_lookup s s' i p (do_memp_free_desc _ _ _ _ Hs') Hp) as (p' & Hp' & Hpd).
  exists s'. split; [done|]. eexists _, _, p'. split; [done|].
  rewrite list_lookup_insert_eq by (by eapply lookup_lt_Some). split; [done|]. rewrite Hpd. done.
Qed.

(** Pool [i] of memp.c, with [n] elements, meets the client contract. *)
Definition memp_pool (i n : nat) : PoolAlloc memp_st := {|
  pool_malloc := λ s, memp_malloc s i;
  pool_free := λ s x, memp_free s i x;
  pool_ok := pool_live i n;
  pool_cap := n;
  pool_malloc_ok := pool_live_malloc i n;
  pool_free_ok := pool_live_free i n |}.

Lemma memp_init_pool_desc s i s' : memp_init_pool s i = Clean s' →
  p_desc <$> memp_pools s' = p_desc <$> memp_pools s.
Proof.
  unfold memp_init_pool, get_pool. destruct (memp_pools s !! i) as [p|] eqn:Hp; [|done]. out_simp.
  destruct (init_loop _ _ _ _ _) as [next tab]. intros [= <-]. cbn.
  assert ((p_desc <$> memp_pools s) !! i = Some (p_desc p)) as Hd by (by rewrite list_lookup_fmap, Hp).
  by rewrite list_fmap_insert, list_insert_id.
Qed.

Lemma init_pools_desc n : ∀ s i s', init_pools s i n = Clean s' →
  p_desc <$> memp_pools s' = p_desc <$> memp_pools s.
Proof.
  induction n as [|n IH]; intros s i s'; cbn [init_pools]; [by intros [= <-]|].
  intros (s1 & H1%memp_init_pool_desc & H2)%bind_clean_inv. apply IH in H2. by rewrite H2.
Qed.

(** After [memp_init] every pool is empty of live elements. *)
Lemma memp_init_pool_ok s s' i p :
  layout_ok (p_desc <$> memp_pools s) → Forall (λ p, p_stats p = stats_zero) (memp_pools s) →
  memp_init s = Clean s' → memp_pools s !! i = Some p →
  pool_live i (Z.to_nat (d_num (p_desc p))) s' ∅.
Proof.
  intros Hl Hz Hi Hp. destruct (memp_init_rep s Hl Hz) as (s'' & Hi' & Hrep & _).
  rewrite Hi in Hi'. injection Hi' as <-.
  assert (ainit (p_desc <$> memp_pools s) !! i = Some (ainit_pool (p_desc p))) as Ha.
  { unfold ainit. rewrite !list_lookup_fmap, Hp. done. }
  destruct (rep_lookup_r _ _ _ _ Hrep Ha) as (p' & Hp' & Hpr & Hd).
  eexists _, _, p'. split; [exact Hrep|]. split; [exact Ha|]. split; [done|]. split; [done|].
  pose proof (pr_count _ _ _ Hpr) as Hc. cbn [ainit_pool a_free a_live] in Hc.
  rewrite length_reverse, elems_length, size_empty in Hc. lia.
Qed.

(** ** Witnesses: two small pools *)

Definition ex_d1 : memp_desc := MempDesc "UDP_PCB" 16 2 1000.
Definition ex_d2 : memp_desc := MempDesc "PBUF" 8 3 2000.
Definition ex_st : memp_st :=
  MempSt ∅ [Pool ex_d1 NULL stats_zero; Pool ex_d2 NULL stats_zero] ∅.

Lemma ex_layout : layout_ok [ex_d1; ex_d2].
Proof.
  split.
  - repeat constructor; done.
  - intros [|[|i]] [|[|j]] di dj Hne Hi Hj; simplify_eq/=; done || (cbn; lia).
Qed.

Definition ex_evs : list memp_ev :=
  [EvMalloc 0; EvMalloc 0; EvMalloc 0; EvWrite 1016 77; EvFree 0 1016; EvMallocPool 1; EvMalloc 0].

Lemma memp_refines_witness :
  ∃ s0 s' a', memp_init ex_st = Clean s0 ∧
    run s0 ex_evs = Clean ([1016; 1000; 0; 0; 0; 2016; 1016], s') ∧ rep s' a'.
Proof.
  destruct (arun (ainit (p_desc <$> memp_pools ex_st)) ex_evs) as [[rs a']|] eqn:E;
    [|vm_compute in E; discriminate].
  destruct (memp_refines ex_st ex_evs rs a') as (s0 & s' & H1 & H2 & H3).
  - exact ex_layout.
  - repeat constructor.
  - exact E.
  - exists s0, s', a'. split; [exact H1|]. split; [|exact H3].
    rewrite H2. apply (f_equal (fmap fst)) in E. vm_compute in E. injection E as <-. reflexivity.
Defined.

Lemma memp_malloc_fresh_witness :
  ∃ s0, memp_init ex_st = Clean s0 ∧ rep s0 (ainit [ex_d1; ex_d2]) ∧
  ∃ r s', memp_malloc s0 1 = Clean (r, s') ∧ r ≠ NULL ∧ pool_elem ex_d2 r.
Proof.
  destruct (memp_init_rep ex_st) as (s0 & H0 & Hrep & _); [exact ex_layout|repeat constructor|].
  exists s0. split; [exact H0|]. split; [exact Hrep|].
  vm_compute in H0. injection H0 as <-.
  destruct (memp_malloc_fresh _ (ainit [ex_d1; ex_d2]) 1
    (Pool ex_d2 2016 (StatsMem "PBUF" 0 3 0 0 0)) Hrep eq_refl)
    as (r & s' & a' & H1 & _ & H2 & _ & H3).
  exists r, s'. split; [exact H1|].
  assert (r ≠ NULL) as Hr by (intros Hr; apply H2 in Hr; discriminate).
  split; [exact Hr|]. by apply H3.
Defined.

(** The pools above after [memp_init], for the clients' examples. *)
Definition ex_st1 : memp_st := match memp_init ex_st with Ret s _ => s | _ => ex_st end.

Lemma ex_st1_ok1 : pool_live 0 2 ex_st1 ∅.
Proof.
  apply (memp_init_pool_ok ex_st ex_st1 0 (Pool ex_d1 NULL stats_zero));
    [exact ex_layout|repeat constructor|vm_compute; reflexivity|done].
Qed.
