(* ===== verification/Mem.v ===== *)
(** * The heap (src/lwip/src/core/mem.c)

    The heap is an array [ram] of [MEM_SIZE_ALIGNED] bytes carved into blocks, each
    starting with a [struct mem] that links it to its neighbours by offset.
    Pointers are absolute addresses; [hdrs] holds the [struct mem] found at an
    address, so the links, the bounds checks and the casts of the source appear
    as they are written.  A header that a merge leaves behind inside a block
    stays in [hdrs], as it stays in memory, until another header is written over
    some of its bytes; then its contents are unknown.  Built with [MEM_STATS], without
    [MEM_OVERFLOW_CHECK], pools or [LWIP_ALLOW_MEM_FREE_FROM_OTHER_CONTEXT];
    [mem_sanity], which the default build leaves out, is modelled as well.

    The specification is the list of blocks [(length, used)] in address order that
    tile the heap; every operation refines a function on such lists. *)
From Stdlib Require Import Sorting.Sorted.
From S2P Require Import Prelude Stats Iface.

Definition MEM_SIZE : Z := 16000.
Definition LWIP_MEM_ALIGN_SIZE (size : Z) : Z :=
  Z.land (size + MEM_ALIGNMENT - 1) (Z.lnot (MEM_ALIGNMENT - 1)).
Definition LWIP_MEM_ALIGN (addr : Z) : Z :=
  Z.land (addr + MEM_ALIGNMENT - 1) (Z.lnot (MEM_ALIGNMENT - 1)).
Definition MEM_SIZE_ALIGNED : Z := LWIP_MEM_ALIGN_SIZE MEM_SIZE.
Definition MIN_SIZE : Z := 12.
Definition MIN_SIZE_ALIGNED : Z := LWIP_MEM_ALIGN_SIZE MIN_SIZE.
(** [sizeof(struct mem)]: two [u16_t], one [u8_t] and a byte of padding. *)
Definition SIZEOF_STRUCT_MEM : Z := LWIP_MEM_ALIGN_SIZE 6.

(** ** State *)

Record hdr := Hdr { h_next : Z; h_prev : Z; h_used : Z }.

Record heap := Heap {
  hdrs : gmap Z hdr;
  ram : Z;
  ram_end : Z;
  lfree : Z;
  mstats : stats_mem }.

Definition set_hdrs (s : heap) (m : gmap Z hdr) : heap :=
  Heap m (ram s) (ram_end s) (lfree s) (mstats s).
Definition set_lfree (s : heap) (p : Z) : heap :=
  Heap (hdrs s) (ram s) (ram_end s) p (mstats s).
Definition set_stats (s : heap) (st : stats_mem) : heap :=
  Heap (hdrs s) (ram s) (ram_end s) (lfree s) st.

(** [*mem], and the assignments to its fields. *)
Definition hdr_at (s : heap) (mem : Z) : out hdr :=
  or_fault "struct mem" (hdrs s !! mem).
Definition clobber (m : gmap Z hdr) (mem : Z) : gmap Z hdr :=
  foldr (λ d m, delete (mem + d) (delete (mem - d) m)) m [1; 2; 3; 4; 5].
Definition put (s : heap) (mem : Z) (h : hdr) : heap :=
  set_hdrs s (<[mem:=h]> (clobber (hdrs s) mem)).
Definition set_next (s : heap) (mem v : Z) : out heap :=
  h ← hdr_at s mem; mret (put s mem (Hdr (u16 v) (h_prev h) (h_used h))).
Definition set_prev (s : heap) (mem v : Z) : out heap :=
  h ← hdr_at s mem; mret (put s mem (Hdr (h_next h) (u16 v) (h_used h))).
Definition set_used (s : heap) (mem v : Z) : out heap :=
  h ← hdr_at s mem; mret (put s mem (Hdr (h_next h) (h_prev h) (u8 v))).

Definition ptr_to_mem (s : heap) (ptr : Z) : Z := ram s + ptr.
Definition mem_to_ptr (s : heap) (mem : Z) : Z := u16 (mem - ram s).

(** ** Operations *)

(** The two halves of [plug_holes]. *)
Definition plug_forward (s : heap) (mem : Z) : out heap :=
  m ← hdr_at s mem;
  let nmem := ptr_to_mem s (h_next m) in
  n ← hdr_at s nmem;
  if negb (mem =? nmem) && (h_used n =? 0) && negb (nmem =? ram_end s) then
    let s := if lfree s =? nmem then set_lfree s mem else s in
    s ← set_next s mem (h_next n);
    if negb (h_next n =? MEM_SIZE_ALIGNED)
    then set_prev s (ptr_to_mem s (h_next n)) (mem_to_ptr s mem)
    else mret s
  else mret s.

Definition plug_backward (s : heap) (mem : Z) : out heap :=
  m ← hdr_at s mem;
  let pmem := ptr_to_mem s (h_prev m) in
  p ← hdr_at s pmem;
  if negb (pmem =? mem) && (h_used p =? 0) then
    let s := if lfree s =? mem then set_lfree s pmem else s in
    s ← set_next s pmem (h_next m);
    if negb (h_next m =? MEM_SIZE_ALIGNED)
    then set_prev s (ptr_to_mem s (h_next m)) (mem_to_ptr s pmem)
    else mret s
  else mret s.

Definition plug_holes (s : heap) (mem : Z) : out heap :=
  m ← hdr_at s mem;
  _ ← lwip_assert "plug_holes: mem >= ram" (ram s <=? mem);
  _ ← lwip_assert "plug_holes: mem < ram_end" (mem <? ram_end s);
  _ ← lwip_assert "plug_holes: mem->used == 0" (h_used m =? 0);
  _ ← lwip_assert "plug_holes: mem->next <= MEM_SIZE_ALIGNED" (h_next m <=? MEM_SIZE_ALIGNED);
  s ← plug_forward s mem;
  plug_backward s mem.

(** [heap_pointer] is [LWIP_RAM_HEAP_POINTER], the address of the array [ram_heap]. *)
Definition mem_init (s : heap) (heap_pointer : Z) : out heap :=
  _ ← lwip_assert "Sanity check alignment"
        (Z.land SIZEOF_STRUCT_MEM (MEM_ALIGNMENT - 1) =? 0);
  let ram := LWIP_MEM_ALIGN heap_pointer in
  let ram_end := ram + MEM_SIZE_ALIGNED in
  let s := put s ram (Hdr MEM_SIZE_ALIGNED 0 0) in
  let s := put s ram_end (Hdr MEM_SIZE_ALIGNED MEM_SIZE_ALIGNED 1) in
  mret (Heap (hdrs s) ram ram_end ram (stats_avail (mstats s) MEM_SIZE_ALIGNED)).

(** C evaluates the disjunction left to right and reads a neighbour only when it gets
    there. *)
Definition mem_link_valid (s : heap) (mem : Z) : out bool :=
  m ← hdr_at s mem;
  let rmem_idx := mem_to_ptr s mem in
  let nmem := ptr_to_mem s (h_next m) in
  let pmem := ptr_to_mem s (h_prev m) in
  if (MEM_SIZE_ALIGNED <? h_next m) || (MEM_SIZE_ALIGNED <? h_prev m) then mret false
  else
    bad_prev ← (if negb (h_prev m =? rmem_idx)
                then p ← hdr_at s pmem; mret (negb (h_next p =? rmem_idx))
                else mret false);
    if bad_prev : bool then mret false
    else if negb (nmem =? ram_end s)
    then n ← hdr_at s nmem; mret (h_prev n =? rmem_idx)
    else mret true.

(** [LWIP_MEM_ILLEGAL_FREE(msg)] is [LWIP_ASSERT(msg, 0)], then the counter. *)
Definition illegal_free (s : heap) (msg : string) : out heap :=
  _ ← lwip_assert msg false;
  mret (set_stats s (stats_inc_illegal (mstats s))).

Definition mem_free (s : heap) (rmem : Z) : out heap :=
  if rmem =? NULL then mret s
  else if negb (Z.land rmem (MEM_ALIGNMENT - 1) =? 0)
  then illegal_free s "mem_free: sanity check alignment"
  else
    let mem := rmem - SIZEOF_STRUCT_MEM in
    if (mem <? ram s) || (ram_end s <? rmem + MIN_SIZE_ALIGNED)
    then illegal_free s "mem_free: illegal memory"
    else
      m ← hdr_at s mem;
      if h_used m =? 0 then illegal_free s "mem_free: illegal memory: double free"
      else
        valid ← mem_link_valid s mem;
        if negb valid
        then illegal_free s "mem_free: illegal memory: non-linked: double free"
        else
          s ← set_used s mem 0;
          let s := if mem <? lfree s then set_lfree s mem else s in
          let s := set_stats s (stats_dec_used (mstats s) (h_next m - u16 (mem - ram s))) in
          plug_holes s mem.

(** The part of [mem_trim] that runs with the heap protected, for [newsize < size]. *)
Definition trim_locked (s : heap) (mem ptr size newsize : Z) : out heap :=
  m ← hdr_at s mem;
  let mem2 := ptr_to_mem s (h_next m) in
  m2 ← hdr_at s mem2;
  let ptr2 := u16 (ptr + SIZEOF_STRUCT_MEM + newsize) in
  if h_used m2 =? 0 then
    _ ← lwip_assert "invalid next ptr" (negb (h_next m =? MEM_SIZE_ALIGNED));
    let next := h_next m2 in
    let s := if lfree s =? mem2 then set_lfree s (ptr_to_mem s ptr2) else s in
    let mem2 := ptr_to_mem s ptr2 in
    let s := put s mem2 (Hdr next ptr 0) in
    s ← set_next s mem ptr2;
    s ← (if negb (next =? MEM_SIZE_ALIGNED)
         then set_prev s (ptr_to_mem s next) ptr2 else mret s);
    mret (set_stats s (stats_dec_used (mstats s) (size - newsize)))
  else if newsize + SIZEOF_STRUCT_MEM + MIN_SIZE_ALIGNED <=? size then
    _ ← lwip_assert "invalid next ptr" (negb (h_next m =? MEM_SIZE_ALIGNED));
    let mem2 := ptr_to_mem s ptr2 in
    let s := if mem2 <? lfree s then set_lfree s mem2 else s in
    let s := put s mem2 (Hdr (h_next m) ptr 0) in
    s ← set_next s mem ptr2;
    s ← (if negb (h_next m =? MEM_SIZE_ALIGNED)
         then set_prev s (ptr_to_mem s (h_next m)) ptr2 else mret s);
    mret (set_stats s (stats_dec_used (mstats s) (size - newsize)))
  else mret s.

(** Returns [rmem] or NULL. *)
Definition mem_trim (s : heap) (rmem new_size : Z) : out (Z * heap) :=
  let newsize := u16 (LWIP_MEM_ALIGN_SIZE new_size) in
  let newsize := if newsize <? MIN_SIZE_ALIGNED then MIN_SIZE_ALIGNED else newsize in
  if (MEM_SIZE_ALIGNED <? newsize) || (newsize <? new_size) then mret (NULL, s)
  else
    _ ← lwip_assert "mem_trim: legal memory" ((ram s <=? rmem) && (rmem <? ram_end s));
    if (rmem <? ram s) || (ram_end s <=? rmem)
    then mret (rmem, set_stats s (stats_inc_illegal (mstats s)))
    else
      let mem := rmem - SIZEOF_STRUCT_MEM in
      let ptr := mem_to_ptr s mem in
      m ← hdr_at s mem;
      let size := u16 (u16 (h_next m - ptr) - SIZEOF_STRUCT_MEM) in
      _ ← lwip_assert "mem_trim can only shrink memory" (newsize <=? size);
      if size <? newsize then mret (NULL, s)
      else if newsize =? size then mret (rmem, s)
      else
        s ← trim_locked s mem ptr size newsize;
        mret (rmem, s).

(** The search: the offset of the first fitting free block at or after [ptr].  The
    subtraction is done in [size_t] (32 bits) and would wrap. *)
Fixpoint malloc_scan (fuel : nat) (s : heap) (size ptr : Z) : out (option Z) :=
  match fuel with
  | O => NoFuel
  | S fuel' =>
      if ptr <? MEM_SIZE_ALIGNED - size then
        m ← hdr_at s (ptr_to_mem s ptr);
        if (h_used m =? 0) && (size <=? u32 (h_next m - (ptr + SIZEOF_STRUCT_MEM)))
        then mret (Some ptr)
        else malloc_scan fuel' s size (h_next m)
      else mret None
  end.

(** [while (cur->used && cur != ram_end) cur = ptr_to_mem(cur->next);] *)
Fixpoint next_free (fuel : nat) (s : heap) (cur : Z) : out Z :=
  match fuel with
  | O => NoFuel
  | S fuel' =>
      c ← hdr_at s cur;
      if negb (h_used c =? 0) && negb (cur =? ram_end s)
      then next_free fuel' s (ptr_to_mem s (h_next c))
      else mret cur
  end.

(** Blocks are at least [SIZEOF_STRUCT_MEM + MIN_SIZE_ALIGNED] bytes long, so a walk
    over the heap takes far fewer steps than there are bytes. *)
Definition walk_fuel : nat := Z.to_nat MEM_SIZE_ALIGNED.

(** Mark the block at [ptr] as used, splitting off what is left of it. *)
Definition malloc_carve (s : heap) (size ptr : Z) : out heap :=
  let mem := ptr_to_mem s ptr in
  m ← hdr_at s mem;
  if size + SIZEOF_STRUCT_MEM + MIN_SIZE_ALIGNED
       <=? u32 (h_next m - (ptr + SIZEOF_STRUCT_MEM)) then
    let ptr2 := u16 (ptr + SIZEOF_STRUCT_MEM + size) in
    _ ← lwip_assert "invalid next ptr" (negb (ptr2 =? MEM_SIZE_ALIGNED));
    let s := put s (ptr_to_mem s ptr2) (Hdr (h_next m) ptr 0) in
    s ← set_next s mem ptr2;
    s ← set_used s mem 1;
    s ← (if negb (h_next m =? MEM_SIZE_ALIGNED)
         then set_prev s (ptr_to_mem s (h_next m)) ptr2 else mret s);
    mret (set_stats s (stats_inc_used (mstats s) (size + SIZEOF_STRUCT_MEM)))
  else
    s ← set_used s mem 1;
    mret (set_stats s (stats_inc_used (mstats s) (h_next m - mem_to_ptr s mem))).

(** Move the lowest-free pointer when the block taken was the lowest free one. *)
Definition malloc_adjust_lfree (s : heap) (mem : Z) : out heap :=
  if mem =? lfree s then
    cur ← next_free walk_fuel s (lfree s);
    let s := set_lfree s cur in
    c ← hdr_at s (lfree s);
    _ ← lwip_assert "mem_malloc: !lfree->used" ((lfree s =? ram_end s) || (h_used c =? 0));
    mret s
  else mret s.

(** The body of the search loop once a block is found. *)
Definition malloc_take (s : heap) (size ptr : Z) : out (Z * heap) :=
  let mem := ptr_to_mem s ptr in
  s ← malloc_carve s size ptr;
  s ← malloc_adjust_lfree s mem;
  _ ← lwip_assert "mem_malloc: allocated memory not above ram_end."
        (mem + SIZEOF_STRUCT_MEM + size <=? ram_end s);
  _ ← lwip_assert "mem_malloc: allocated memory properly aligned."
        ((mem + SIZEOF_STRUCT_MEM) mod MEM_ALIGNMENT =? 0);
  _ ← lwip_assert "mem_malloc: sanity check alignment" (Z.land mem (MEM_ALIGNMENT - 1) =? 0);
  mret (mem + SIZEOF_STRUCT_MEM, s).

Definition mem_malloc (s : heap) (size_in : Z) : out (Z * heap) :=
  if size_in =? 0 then mret (NULL, s)
  else
    let size := u16 (LWIP_MEM_ALIGN_SIZE size_in) in
    let size := if size <? MIN_SIZE_ALIGNED then MIN_SIZE_ALIGNED else size in
    if (MEM_SIZE_ALIGNED <? size) || (size <? size_in) then mret (NULL, s)
    else
      found ← malloc_scan walk_fuel s size (mem_to_ptr s (lfree s));
      match found with
      | Some ptr => malloc_take s size ptr
      | None => mret (NULL, set_stats s (stats_inc_err (mstats s)))
      end.

(** [memset(p, 0, n)] on the data bytes. *)
Fixpoint memset0 (data : gmap Z Z) (p : Z) (n : nat) : gmap Z Z :=
  match n with
  | O => data
  | S n' => memset0 (<[p:=0]> data) (p + 1) n'
  end.

Definition mem_calloc (s : heap) (data : gmap Z Z) (count size : Z) : out (Z * heap * gmap Z Z) :=
  let alloc_size := u32 (count * size) in
  if negb (u16 alloc_size =? alloc_size) then mret (NULL, s, data)
  else
    '(p, s) ← mem_malloc s (u16 alloc_size);
    if negb (p =? NULL) then mret (p, s, memset0 data p (Z.to_nat alloc_size))
    else mret (p, s, data).

(** The elements after the first one: returns the element the loop stops at. *)
Fixpoint sanity_loop (fuel : nat) (s : heap) (mem last_used : Z) : out Z :=
  match fuel with
  | O => NoFuel
  | S fuel' =>
      if (ram s <? mem) && (mem <? ram_end s) then
        m ← hdr_at s mem;
        _ ← lwip_assert "heap element aligned" (LWIP_MEM_ALIGN mem =? mem);
        _ ← lwip_assert "heap element prev ptr valid" (h_prev m <=? MEM_SIZE_ALIGNED);
        _ ← lwip_assert "heap element next ptr valid" (h_next m <=? MEM_SIZE_ALIGNED);
        _ ← (if last_used =? 0
             then lwip_assert "heap element unused?" (h_used m =? 1)
             else lwip_assert "heap element unused member" ((h_used m =? 0) || (h_used m =? 1)));
        valid ← mem_link_valid s mem;
        _ ← lwip_assert "heap element link valid" valid;
        sanity_loop fuel' s (ptr_to_mem s (h_next m)) (h_used m)
      else mret mem
  end.

(** The two assertions "... ptr aligned" of the source align the truth value of a
    reflexive comparison; they are always true and left out here. *)
Definition mem_sanity (s : heap) : out unit :=
  let mem := ram s in
  m ← hdr_at s mem;
  _ ← lwip_assert "heap element used valid" ((h_used m =? 0) || (h_used m =? 1));
  _ ← lwip_assert "heap element prev ptr valid" (h_prev m =? 0);
  _ ← lwip_assert "heap element next ptr valid" (h_next m <=? MEM_SIZE_ALIGNED);
  mem ← sanity_loop walk_fuel s (ptr_to_mem s (h_next m)) (h_used m);
  m ← hdr_at s mem;
  _ ← lwip_assert "heap end ptr sanity" (mem =? ptr_to_mem s MEM_SIZE_ALIGNED);
  _ ← lwip_assert "heap element used valid" (h_used m =? 1);
  _ ← lwip_assert "heap element prev ptr valid" (h_prev m =? MEM_SIZE_ALIGNED);
  lwip_assert "heap element next ptr valid" (h_next m =? MEM_SIZE_ALIGNED).

(** ** Specification: lists of blocks *)

(** A block is its length, header included, and whether it is in use. *)


Definition min_block : Z := SIZEOF_STRUCT_MEM + MIN_SIZE_ALIGNED.

Fixpoint tlen (bs : list (Z * bool)) : Z :=
  match bs with [] => 0 | (len, _) :: bs => len + tlen bs end.

Fixpoint used_total (bs : list (Z * bool)) : Z :=
  match bs with
  | [] => 0
  | (len, u) :: bs => (if u : bool then len else 0) + used_total bs
  end.

(** Offset of the first free block of [bs], laid out from [off]; the end if none. *)
Fixpoint first_free (off : Z) (bs : list (Z * bool)) : Z :=
  match bs with
  | [] => off
  | (len, u) :: bs => if u : bool then first_free (off + len) bs else off
  end.

(** No two neighbouring blocks are both free; [u] is the status of the block before. *)
Fixpoint merged (u : bool) (bs : list (Z * bool)) : bool :=
  match bs with
  | [] => true
  | (_, u') :: bs => (u || u') && merged u' bs
  end.

(** The headers describe [bs], laid out from offset [off]; [prev] is the offset of the
    block before. *)
Fixpoint tiles (m : gmap Z hdr) (base off prev : Z) (bs : list (Z * bool)) : Prop :=
  match bs with
  | [] => True
  | (len, u) :: bs =>
      m !! (base + off) = Some (Hdr (off + len) prev (if u : bool then 1 else 0)) ∧
      min_block ≤ len ∧ tiles m base (off + len) off bs
  end.

Fixpoint last_off (off prev : Z) (bs : list (Z * bool)) : Z :=
  match bs with [] => prev | (len, _) :: bs => last_off (off + len) off bs end.

(** The headers, the end marker and the statistics describe [bs]. *)
Record shape (s : heap) (bs : list (Z * bool)) : Prop := Shape {
  i_tiles : tiles (hdrs s) (ram s) 0 0 bs;
  i_len : tlen bs = MEM_SIZE_ALIGNED;
  i_end : ram_end s = ram s + MEM_SIZE_ALIGNED;
  i_endh : hdrs s !! (ram s + MEM_SIZE_ALIGNED) = Some (Hdr MEM_SIZE_ALIGNED MEM_SIZE_ALIGNED 1);
  i_used : st_used (mstats s) = used_total bs;
  i_stats : stats_wf (mstats s);
  i_ram : 0 < ram s }.

(** The heap between two calls. *)
Record inv (s : heap) (bs : list (Z * bool)) : Prop := Inv {
  i_shape : shape s bs;
  i_merged : merged true bs = true;
  i_lfree : lfree s = ram s + first_free 0 bs }.

(** First fit: the list after allocating [size] bytes and the offset of the block. *)
Fixpoint amalloc (size off : Z) (bs : list (Z * bool)) : option (Z * list (Z * bool)) :=
  match bs with
  | [] => None
  | (len, u) :: bs =>
      if negb u && (SIZEOF_STRUCT_MEM + size <=? len) then
        if SIZEOF_STRUCT_MEM + size + min_block <=? len
        then Some (off, (SIZEOF_STRUCT_MEM + size, true)
                        :: (len - (SIZEOF_STRUCT_MEM + size), false) :: bs)
        else Some (off, (len, true) :: bs)
      else '(o, bs') ← amalloc size (off + len) bs; Some (o, (len, u) :: bs')
  end.

(** Free blocks swallow the free block that follows. *)
Definition join (len : Z) (bs : list (Z * bool)) : list (Z * bool) :=
  match bs with
  | (len', false) :: bs' => (len + len', false) :: bs'
  | _ => (len, false) :: bs
  end.

(** Give back the used block at offset [o]. *)
Fixpoint afree (o off : Z) (bs : list (Z * bool)) : option (list (Z * bool)) :=
  match bs with
  | [] => None
  | (len, u) :: bs =>
      if o =? off then if u : bool then Some (join len bs) else None
      else bs' ← afree o (off + len) bs;
           Some (if u : bool then (len, u) :: bs' else join len bs')
  end.

(** Shrink the used block at offset [o] to [size] data bytes; [None] if there is no such
    block or it is smaller. *)
Fixpoint atrim (size o off : Z) (bs : list (Z * bool)) : option (list (Z * bool)) :=
  match bs with
  | [] => None
  | (len, u) :: bs =>
      if o =? off then
        if negb u || (len <? SIZEOF_STRUCT_MEM + size) then None
        else
          let new := SIZEOF_STRUCT_MEM + size in
          match bs with
          | (len', false) :: bs' => Some ((new, true) :: (len - new + len', false) :: bs')
          | _ => if new + min_block <=? len
                 then Some ((new, true) :: (len - new, false) :: bs)
                 else Some ((len, true) :: bs)
          end
      else bs' ← atrim size o (off + len) bs; Some ((len, u) :: bs')
  end.

(** The blocks in use as the client sees them: data offset and data size. *)
Fixpoint live (off : Z) (bs : list (Z * bool)) : list (Z * Z) :=
  match bs with
  | [] => []
  | (len, u) :: bs =>
      (if u : bool then [(off + SIZEOF_STRUCT_MEM, len - SIZEOF_STRUCT_MEM)] else [])
      ++ live (off + len) bs
  end.

(** Closes linear goals that mention the layout constants. *)
Ltac heap_lia :=
  change min_block with 18 in *; change SIZEOF_STRUCT_MEM with 6 in *;
  change MIN_SIZE_ALIGNED with 12 in *; change MEM_SIZE_ALIGNED with 16000 in *;
  change NULL with 0 in *; change MEM_ALIGNMENT with 1 in *;
  unfold is_u16, ptr_to_mem in *; lia.

(** ** Headers *)

Lemma lookup_clobber m a k : lookup k (clobber m a) =
  if decide (1 ≤ Z.abs (k - a) ≤ 5) then None else m !! k.
Proof.
  unfold clobber. cbn [foldr]. case_decide as H.
  - assert (k = a + 1 ∨ k = a - 1 ∨ k = a + 2 ∨ k = a - 2 ∨ k = a + 3 ∨ k = a - 3 ∨
            k = a + 4 ∨ k = a - 4 ∨ k = a + 5 ∨ k = a - 5) as Hk by lia.
    repeat (destruct Hk as [->|Hk]); [..|subst k];
      repeat first [rewrite lookup_delete_eq; done | rewrite lookup_delete_ne by lia].
  - by rewrite !lookup_delete_ne by lia.
Qed.

Lemma lookup_put_eq s a h : hdrs (put s a h) !! a = Some h.
Proof. apply lookup_insert_eq. Qed.
Lemma lookup_put_far s a h k : 6 ≤ Z.abs (k - a) → hdrs (put s a h) !! k = hdrs s !! k.
Proof.
  intros Hk. unfold put, set_hdrs. cbn [hdrs]. rewrite lookup_insert_ne by lia.
  rewrite lookup_clobber, decide_False by lia. done.
Qed.

Lemma ram_put s a h : ram (put s a h) = ram s. Proof. done. Qed.
Lemma ram_end_put s a h : ram_end (put s a h) = ram_end s. Proof. done. Qed.
Lemma lfree_put s a h : lfree (put s a h) = lfree s. Proof. done. Qed.
Lemma mstats_put s a h : mstats (put s a h) = mstats s. Proof. done. Qed.
Create Rewrite HintDb heap.
#[export] Hint Rewrite ram_put ram_end_put lfree_put mstats_put lookup_put_eq : heap.

Lemma hdr_at_some s a h : hdrs s !! a = Some h → hdr_at s a = Clean h.
Proof. unfold hdr_at. by intros ->. Qed.

Lemma set_next_some s a h v : hdrs s !! a = Some h → is_u16 v →
  set_next s a v = Clean (put s a (Hdr v (h_prev h) (h_used h))).
Proof. intros H Hv. unfold set_next. rewrite (hdr_at_some _ _ _ H), u16_id by done. done. Qed.
Lemma set_prev_some s a h v : hdrs s !! a = Some h → is_u16 v →
  set_prev s a v = Clean (put s a (Hdr (h_next h) v (h_used h))).
Proof. intros H Hv. unfold set_prev. rewrite (hdr_at_some _ _ _ H), u16_id by done. done. Qed.
Lemma set_used_some s a h v : hdrs s !! a = Some h → is_u8 v →
  set_used s a v = Clean (put s a (Hdr (h_next h) (h_prev h) v)).
Proof. intros H Hv. unfold set_used. rewrite (hdr_at_some _ _ _ H), u8_id by done. done. Qed.

(** ** Tilings *)

Lemma tlen_app xs ys : tlen (xs ++ ys) = tlen xs + tlen ys.
Proof. induction xs as [|[len u] xs IH]; cbn [tlen app]; lia. Qed.

Lemma tiles_nonneg m base off prev bs : tiles m base off prev bs → 0 ≤ tlen bs.
Proof.
  revert off prev. induction bs as [|[len u] bs IH]; intros off prev; cbn [tiles tlen]; [lia|].
  intros (_ & Hl & Ht). specialize (IH _ _ Ht). heap_lia.
Qed.

Lemma tiles_app m base off prev xs ys :
  tiles m base off prev (xs ++ ys) ↔
  tiles m base off prev xs ∧ tiles m base (off + tlen xs) (last_off off prev xs) ys.
Proof.
  revert off prev. induction xs as [|[len u] xs IH]; intros off prev; cbn [tiles tlen last_off app].
  - rewrite Z.add_0_r. tauto.
  - rewrite IH. rewrite Z.add_assoc. tauto.
Qed.

(** A tiling depends only on headers at the start of a block. *)
Lemma tiles_ext m m' base off prev bs :
  (∀ k, off ≤ k → k + min_block ≤ off + tlen bs → m' !! (base + k) = m !! (base + k)) →
  tiles m base off prev bs → tiles m' base off prev bs.
Proof.
  revert off prev. induction bs as [|[len u] bs IH]; intros off prev Hk; cbn [tiles]; [done|].
  intros (Hh & Hl & Ht). pose proof (tiles_nonneg _ _ _ _ _ Ht) as Hn. cbn [tlen] in Hk.
  split; [|split; [done|]].
  - rewrite Hk; [done|lia|lia].
  - apply IH; [|done]. intros k H1 H2. apply Hk; heap_lia.
Qed.

Lemma tiles_mid m base pre len u post : tiles m base 0 0 (pre ++ (len, u) :: post) →
  tiles m base 0 0 pre ∧
  m !! (base + tlen pre)
    = Some (Hdr (tlen pre + len) (last_off 0 0 pre) (if u : bool then 1 else 0)) ∧
  min_block ≤ len ∧ tiles m base (tlen pre + len) (tlen pre) post ∧
  0 ≤ tlen pre ∧ 0 ≤ tlen post.
Proof.
  rewrite tiles_app. cbn [tiles]. intros (Hp & Hh & Hl & Ht).
  pose proof (tiles_nonneg _ _ _ _ _ Hp). pose proof (tiles_nonneg _ _ _ _ _ Ht). done.
Qed.

Lemma tiles_length m base off prev bs : tiles m base off prev bs →
  min_block * Z.of_nat (length bs) ≤ tlen bs.
Proof.
  revert off prev. induction bs as [|[len u] bs IH]; intros off prev; cbn [tiles tlen length]; [lia|].
  intros (_ & Hl & Ht). specialize (IH _ _ Ht). heap_lia.
Qed.

Lemma last_off_bounds m base off prev bs : tiles m base off prev bs → prev ≤ off →
  prev ≤ last_off off prev bs ≤ off + tlen bs ∧
  (bs ≠ [] → last_off off prev bs + min_block ≤ off + tlen bs ∧ off ≤ last_off off prev bs).
Proof.
  revert off prev. induction bs as [|[len u] bs IH]; intros off prev; cbn [tiles tlen last_off].
  { intros _ H. split; [lia|done]. }
  intros (_ & Hl & Ht) Hp. destruct (IH _ _ Ht) as [H1 H2]; [heap_lia|].
  destruct bs as [|b bs].
  - cbn [last_off tlen] in *. split; [heap_lia|]. intros _. heap_lia.
  - destruct H2 as [H2 H3]; [done|]. split; [heap_lia|]. intros _. heap_lia.
Qed.

(** Redirecting the back link of the block that follows. *)
Lemma relink s off prev prev' post :
  tiles (hdrs s) (ram s) off prev post → off + tlen post = MEM_SIZE_ALIGNED → 0 ≤ off →
  is_u16 prev' → ∃ s',
    (if negb (off =? MEM_SIZE_ALIGNED) then set_prev s (ram s + off) prev' else mret s)
      = Clean s' ∧
    tiles (hdrs s') (ram s) off prev' post ∧
    (∀ k, k + 6 ≤ off ∨ k = MEM_SIZE_ALIGNED → hdrs s' !! (ram s + k) = hdrs s !! (ram s + k)) ∧
    s' = set_hdrs s (hdrs s').
Proof.
  intros Ht Hlen Hoff Hp. destruct (Z.eqb_spec off MEM_SIZE_ALIGNED) as [->|Hne]; cbn [negb].
  - destruct post as [|[len u] post].
    + exists s. repeat split. by destruct s.
    + exfalso. cbn [tiles tlen] in *. destruct Ht as (_ & Hl & Ht).
      pose proof (tiles_nonneg _ _ _ _ _ Ht). heap_lia.
  - destruct post as [|[len u] post]; [cbn [tlen] in Hlen; lia|].
    cbn [tiles tlen] in *. destruct Ht as (Hh & Hl & Ht).
    pose proof (tiles_nonneg _ _ _ _ _ Ht) as Hn.
    rewrite (set_prev_some _ _ _ _ Hh Hp). cbn [h_next h_used].
    eexists. split; [done|]. rewrite lookup_put_eq. split; [split; [done|split; [done|]]|split].
    + apply (tiles_ext (hdrs s)); [|done]. intros k H1 H2. apply lookup_put_far. heap_lia.
    + intros k Hk. apply lookup_put_far. heap_lia.
    + done.
Qed.

Lemma first_free_range m base off prev bs : tiles m base off prev bs →
  off ≤ first_free off bs ≤ off + tlen bs.
Proof.
  revert off prev. induction bs as [|[len u] bs IH]; intros off prev; cbn [tiles tlen first_free]; [lia|].
  intros (_ & Hl & Ht). pose proof (tiles_nonneg _ _ _ _ _ Ht). specialize (IH _ _ Ht).
  destruct u; heap_lia.
Qed.

Lemma first_free_app off xs ys : first_free off (xs ++ ys) =
  if forallb snd xs then first_free (off + tlen xs) ys else first_free off xs.
Proof.
  revert off. induction xs as [|[len u] xs IH]; intros off; cbn [app first_free tlen forallb snd].
  - by rewrite Z.add_0_r.
  - rewrite IH, Z.add_assoc. by destruct u.
Qed.

Lemma first_free_not_all m base off prev bs : tiles m base off prev bs →
  forallb snd bs = false → first_free off bs + min_block ≤ off + tlen bs.
Proof.
  revert off prev. induction bs as [|[len u] bs IH]; intros off prev; [done|].
  cbn [tiles tlen first_free forallb snd]. intros (_ & Hl & Ht).
  pose proof (tiles_nonneg _ _ _ _ _ Ht). destruct u; cbn [andb].
  - intros Hf. specialize (IH _ _ Ht Hf). heap_lia.
  - heap_lia.
Qed.

Lemma used_total_app xs ys : used_total (xs ++ ys) = used_total xs + used_total ys.
Proof. induction xs as [|[len u] xs IH]; cbn [used_total app]; [done|]. rewrite IH. lia. Qed.

Lemma used_total_range m base off prev bs : tiles m base off prev bs →
  0 ≤ used_total bs ≤ tlen bs.
Proof.
  revert off prev. induction bs as [|[len u] bs IH]; intros off prev; cbn [tiles tlen used_total]; [lia|].
  intros (_ & Hl & Ht). specialize (IH _ _ Ht). destruct u; heap_lia.
Qed.

(** Status of the last block of [bs], or [u] if there is none. *)
Definition last_used (u : bool) (bs : list (Z * bool)) : bool := from_option snd u (last bs).

Lemma merged_app u xs ys : merged u (xs ++ ys) = merged u xs && merged (last_used u xs) ys.
Proof.
  revert u. induction xs as [|[len v] xs IH]; intros u; cbn [app merged]; [done|].
  rewrite IH, <- andb_assoc. f_equal. f_equal. f_equal. unfold last_used.
  rewrite last_cons. by destruct (last xs).
Qed.

(** ** Allocation *)

Lemma amalloc_split size off bs o bs' : amalloc size off bs = Some (o, bs') →
  ∃ pre len post, bs = pre ++ (len, false) :: post ∧ o = off + tlen pre ∧
    SIZEOF_STRUCT_MEM + size ≤ len ∧
    bs' = pre ++ (if SIZEOF_STRUCT_MEM + size + min_block <=? len
                  then [(SIZEOF_STRUCT_MEM + size, true); (len - (SIZEOF_STRUCT_MEM + size), false)]
                  else [(len, true)]) ++ post.
Proof.
  revert off o bs'. induction bs as [|[len u] bs IH]; intros off o bs'; [done|]. cbn [amalloc].
  destruct (negb u && (SIZEOF_STRUCT_MEM + size <=? len)) eqn:E.
  - apply andb_prop in E as [Hu%negb_true_iff Hl%Z.leb_le]. subst u. intros H.
    exists [], len, bs. cbn [app tlen]. rewrite Z.add_0_r.
    destruct (_ <=? len); injection H as <- <-; done.
  - intros ([o1 bs1] & H & [= <- <-])%bind_Some.
    destruct (IH _ _ _ H) as (pre & len1 & post & -> & -> & Hl & ->).
    exists ((len, u) :: pre), len1, post. cbn [app tlen]. split; [done|]. split; [lia|done].
Qed.

(** Blocks in use are skipped. *)
Lemma amalloc_skip size off pre post : forallb snd pre = true →
  amalloc size off (pre ++ post) =
  '(o, bs') ← amalloc size (off + tlen pre) post; Some (o, pre ++ bs').
Proof.
  revert off. induction pre as [|[len u] pre IH]; intros off Hu; cbn [app tlen amalloc].
  - rewrite Z.add_0_r. destruct (amalloc _ _ _) as [[o bs']|]; done.
  - cbn [forallb snd] in Hu. apply andb_prop in Hu as [-> Hu]. cbn [negb andb].
    rewrite IH, Z.add_assoc by done. destruct (amalloc _ _ _) as [[o bs']|]; done.
Qed.

Lemma first_free_split off bs : ∃ pre post, bs = pre ++ post ∧ forallb snd pre = true ∧
  first_free off bs = off + tlen pre.
Proof.
  revert off. induction bs as [|[len u] bs IH]; intros off.
  { exists [], []. cbn [first_free tlen]. by rewrite Z.add_0_r. }
  cbn [first_free]. destruct u.
  - destruct (IH (off + len)) as (pre & post & -> & Hu & ->).
    exists ((len, true) :: pre), post. cbn [tlen forallb snd app]. split; [done|]. split; [done|lia].
  - exists [], ((len, false) :: bs). cbn [tlen forallb app]. split; [done|]. split; [done|lia].
Qed.

Lemma malloc_scan_spec fuel s size off prev bs :
  tiles (hdrs s) (ram s) off prev bs → off + tlen bs = MEM_SIZE_ALIGNED → 0 ≤ off →
  MIN_SIZE_ALIGNED ≤ size ≤ MEM_SIZE_ALIGNED → (length bs < fuel)%nat →
  malloc_scan fuel s size off = Clean (fst <$> amalloc size off bs).
Proof.
  revert off prev bs. induction fuel as [|fuel IH]; intros off prev bs Ht Hlen Hoff Hs Hf; [lia|].
  cbn [malloc_scan]. destruct bs as [|[len u] bs].
  { cbn [tlen amalloc] in *. destruct (Z.ltb_spec off (MEM_SIZE_ALIGNED - size)); [heap_lia|done]. }
  cbn [tiles tlen amalloc length] in *. destruct Ht as (Hh & Hl & Ht).
  pose proof (tiles_nonneg _ _ _ _ _ Ht) as Hn.
  destruct (Z.ltb_spec off (MEM_SIZE_ALIGNED - size)) as [Hlt|Hge].
  - unfold ptr_to_mem. rewrite (hdr_at_some _ _ _ Hh). out_simp. cbn [h_used h_next].
    replace (off + len - (off + SIZEOF_STRUCT_MEM)) with (len - SIZEOF_STRUCT_MEM) by lia.
    rewrite u32_id by (unfold is_u32; heap_lia).
    destruct u; cbn [negb andb Z.eqb].
    + rewrite (IH _ _ _ Ht) by heap_lia. by destruct (amalloc _ _ _) as [[o bs']|].
    + destruct (Z.leb_spec size (len - SIZEOF_STRUCT_MEM)),
        (Z.leb_spec (SIZEOF_STRUCT_MEM + size) len); try lia.
      * by destruct (_ <=? len).
      * rewrite (IH _ _ _ Ht) by heap_lia. by destruct (amalloc _ _ _) as [[o bs']|].
  - destruct (negb u && (SIZEOF_STRUCT_MEM + size <=? len)) eqn:E.
    { apply andb_prop in E as [_ E%Z.leb_le]. heap_lia. }
    assert (amalloc size (off + len) bs = None) as ->; [|done].
    destruct (amalloc size (off + len) bs) as [[o bs']|] eqn:Ha; [|done].
    apply amalloc_split in Ha as (pre & len1 & post & -> & _ & Hl1 & _).
    apply tiles_app in Ht as [Hp (_ & _ & Hq)].
    apply tiles_nonneg in Hp, Hq. rewrite tlen_app in Hlen. cbn [tlen] in Hlen. heap_lia.
Qed.

Lemma next_free_spec fuel s off prev bs :
  tiles (hdrs s) (ram s) off prev bs → off + tlen bs = MEM_SIZE_ALIGNED →
  ram_end s = ram s + MEM_SIZE_ALIGNED →
  hdrs s !! (ram s + MEM_SIZE_ALIGNED) = Some (Hdr MEM_SIZE_ALIGNED MEM_SIZE_ALIGNED 1) →
  (length bs < fuel)%nat → next_free fuel s (ram s + off) = Clean (ram s + first_free off bs).
Proof.
  intros Ht Hlen He Hh. revert off prev bs Ht Hlen.
  induction fuel as [|fuel IH]; intros off prev bs Ht Hlen Hf; [lia|].
  cbn [next_free]. destruct bs as [|[len u] bs]; cbn [tiles tlen first_free length] in *.
  - rewrite Z.add_0_r in Hlen. subst off. rewrite He, (hdr_at_some _ _ _ Hh). out_simp.
    by rewrite Z.eqb_refl.
  - destruct Ht as (Hb & Hl & Ht). pose proof (tiles_nonneg _ _ _ _ _ Ht) as Hn.
    rewrite (hdr_at_some _ _ _ Hb). out_simp. cbn [h_used h_next].
    assert ((ram s + off =? ram_end s) = false) as -> by (apply Z.eqb_neq; heap_lia).
    destruct u; cbn [Z.eqb negb andb]; [|done]. apply (IH _ _ _ Ht); lia.
Qed.

Lemma shape_mid s pre len u post : shape s (pre ++ (len, u) :: post) →
  hdrs s !! (ram s + tlen pre)
    = Some (Hdr (tlen pre + len) (last_off 0 0 pre) (if u : bool then 1 else 0)) ∧
  min_block ≤ len ∧ 0 ≤ tlen pre ∧ 0 ≤ tlen post ∧
  tlen pre + len + tlen post = MEM_SIZE_ALIGNED.
Proof.
  intros [Ht Hlen _ _ _ _ _]. apply tiles_mid in Ht as (_ & Hh & Hl & _ & Hp & Hq).
  rewrite tlen_app in Hlen. cbn [tlen] in Hlen. repeat split; [done..|]. lia.
Qed.

(** Replacing the blocks between [pre] and [post] by the blocks [mid] of the same total
    length: what has to be shown of the new headers. *)
Lemma shape_replace s s' pre old mid post st :
  shape s (pre ++ old ++ post) →
  tlen mid = tlen old →
  s' = set_stats (set_lfree (set_hdrs s (hdrs s')) (lfree s')) st →
  (∀ k, k + min_block ≤ tlen pre ∨ k = MEM_SIZE_ALIGNED →
     hdrs s' !! (ram s + k) = hdrs s !! (ram s + k)) →
  tiles (hdrs s') (ram s) (tlen pre) (last_off 0 0 pre) (mid ++ post) →
  st_used st = used_total (pre ++ mid ++ post) → stats_wf st →
  shape s' (pre ++ mid ++ post).
Proof.
  intros [Ht Hlen He Hh Hu Hs Hr] Hm -> Hk Hmid Hst Hwf.
  split; cbn [hdrs ram ram_end mstats set_stats set_lfree set_hdrs] in *; try done.
  - apply tiles_app. split; [|done]. apply tiles_app in Ht as [Ht _].
    apply (tiles_ext (hdrs s)); [|done]. intros k H1 H2. apply Hk. lia.
  - rewrite !tlen_app in *. lia.
  - rewrite Hk by (by right). done.
Qed.

Lemma inv_stats_wf s bs : shape s bs → stats_wf (mstats s). Proof. by intros []. Qed.

Lemma malloc_carve_spec s size pre len post :
  shape s (pre ++ (len, false) :: post) →
  MIN_SIZE_ALIGNED ≤ size → SIZEOF_STRUCT_MEM + size ≤ len → ∃ s',
    malloc_carve s size (tlen pre) = Clean s' ∧ lfree s' = lfree s ∧ ram s' = ram s ∧
    shape s' (pre ++ (if SIZEOF_STRUCT_MEM + size + min_block <=? len
      then [(SIZEOF_STRUCT_MEM + size, true); (len - (SIZEOF_STRUCT_MEM + size), false)]
      else [(len, true)]) ++ post).
Proof.
  intros Hsh Hs Hl. pose proof (shape_mid _ _ _ _ _ Hsh) as (Hh & Hmin & Hp & Hq & Hlen).
  pose proof (i_tiles _ _ Hsh) as Ht. apply tiles_mid in Ht as (Htp & _ & _ & Htq & _).
  pose proof (i_used _ _ Hsh) as Hused. rewrite used_total_app in Hused. cbn [used_total] in Hused.
  pose proof (used_total_range _ _ _ _ _ Htp) as Hup. pose proof (used_total_range _ _ _ _ _ Htq) as Huq.
  unfold malloc_carve, ptr_to_mem. rewrite (hdr_at_some _ _ _ Hh). out_simp. cbn [h_next].
  replace (tlen pre + len - (tlen pre + SIZEOF_STRUCT_MEM)) with (len - SIZEOF_STRUCT_MEM) by lia.
  rewrite u32_id by (unfold is_u32; heap_lia).
  destruct (Z.leb_spec (SIZEOF_STRUCT_MEM + size + min_block) len) as [Hsp|Hsp],
    (Z.leb_spec (size + SIZEOF_STRUCT_MEM + MIN_SIZE_ALIGNED) (len - SIZEOF_STRUCT_MEM));
    try heap_lia.
  - rewrite (u16_id (tlen pre + SIZEOF_STRUCT_MEM + size)) by heap_lia.
    rewrite (proj2 (Z.eqb_neq (tlen pre + SIZEOF_STRUCT_MEM + size) MEM_SIZE_ALIGNED)) by heap_lia. out_simp.
    set (p2 := tlen pre + SIZEOF_STRUCT_MEM + size).
    set (s1 := put s (ram s + p2) (Hdr (tlen pre + len) (tlen pre) 0)).
    assert (hdrs s1 !! (ram s + tlen pre) = hdrs s !! (ram s + tlen pre)) as H1
      by (apply lookup_put_far; heap_lia). rewrite Hh in H1.
    rewrite (set_next_some _ _ _ p2 H1) by heap_lia. out_simp. cbn [h_prev h_used].
    rewrite (set_used_some _ _ _ 1 (lookup_put_eq _ _ _)) by done. out_simp. cbn [h_next h_prev].
    set (s2 := put (put s1 _ _) _ _).
    assert (∀ k, k + 6 ≤ tlen pre ∨ tlen pre + len ≤ k →
      hdrs s2 !! (ram s + k) = hdrs s !! (ram s + k)) as Hout.
    { intros k Hk. unfold s2, s1. rewrite !lookup_put_far by heap_lia. done. }
    destruct (relink s2 (tlen pre + len) (tlen pre) p2 post) as (s3 & -> & Ht3 & Hk3 & Hs3);
      [|heap_lia..|].
    { apply (tiles_ext (hdrs s)); [|done]. intros k Hk1 Hk2. apply Hout. lia. }
    change (ram s2) with (ram s) in *.
    out_simp. eexists. split; [done|]. rewrite Hs3. split; [done|]. split; [done|]. rewrite <- Hs3.
    eapply shape_replace with (old := [(len, false)]) (st := stats_inc_used (mstats s) (size + SIZEOF_STRUCT_MEM));
      [exact Hsh|..].
    + cbn [tlen]. lia.
    + rewrite Hs3. done.
    + intros k Hk. cbn [hdrs set_stats]. rewrite Hk3 by heap_lia. apply Hout. heap_lia.
    + cbn [hdrs set_stats app tiles]. replace (tlen pre + (SIZEOF_STRUCT_MEM + size)) with p2 by lia.
      replace (p2 + (len - (SIZEOF_STRUCT_MEM + size))) with (tlen pre + len) by lia.
      rewrite !Hk3 by heap_lia. unfold s2. rewrite lookup_put_eq. split; [done|].
      split; [heap_lia|]. do 2 rewrite lookup_put_far by heap_lia. unfold s1. rewrite lookup_put_eq.
      split; [done|]. split; [heap_lia|done].
    + cbn [st_used stats_inc_used]. rewrite !used_total_app. cbn [used_total].
      rewrite u16_id; heap_lia.
    + apply stats_wf_inc_used, Hsh.
  - rewrite (set_used_some _ _ _ 1 Hh) by done. out_simp. cbn [h_next h_prev].
    eexists. split; [done|]. split; [done|]. split; [done|].
    unfold mem_to_ptr. rewrite ram_put.
    replace (ram s + tlen pre - ram s) with (tlen pre) by lia.
    rewrite (u16_id (tlen pre)) by heap_lia.
    eapply shape_replace with (old := [(len, false)]) (st := stats_inc_used (mstats s) (tlen pre + len - tlen pre));
      [exact Hsh|..].
    + cbn [tlen]. lia.
    + done.
    + intros k Hk. cbn [hdrs set_stats]. apply lookup_put_far. heap_lia.
    + cbn [hdrs set_stats app tiles]. rewrite lookup_put_eq. split; [done|]. split; [done|].
      apply (tiles_ext (hdrs s)); [|done]. intros k Hk1 Hk2. apply lookup_put_far. heap_lia.
    + cbn [st_used stats_inc_used]. rewrite !used_total_app. cbn [used_total].
      rewrite u16_id; heap_lia.
    + apply stats_wf_inc_used, Hsh.
Qed.

Lemma first_free_hdr m base off prev bs : tiles m base off prev bs →
  first_free off bs = off + tlen bs ∨
  ∃ h, m !! (base + first_free off bs) = Some h ∧ h_used h = 0.
Proof.
  revert off prev. induction bs as [|[len u] bs IH]; intros off prev; cbn [tiles tlen first_free].
  { lia. }
  intros (Hh & _ & Ht). destruct u.
  - rewrite Z.add_assoc. by apply (IH _ _ Ht).
  - right. eauto.
Qed.

Lemma shape_walk_fuel s bs : shape s bs → (length bs < walk_fuel)%nat.
Proof.
  intros [Ht Hl _ _ _ _ _]. apply tiles_length in Ht. rewrite Hl in Ht.
  unfold walk_fuel. heap_lia.
Qed.

Lemma set_lfree_id s : set_lfree s (lfree s) = s.
Proof. by destruct s. Qed.

Lemma malloc_adjust_lfree_spec s pre len l post rest :
  shape s (pre ++ (l, true) :: rest) →
  lfree s = ram s + first_free 0 (pre ++ (len, false) :: post) →
  malloc_adjust_lfree s (ram s + tlen pre) =
  Clean (set_lfree s (ram s + first_free 0 (pre ++ (l, true) :: rest))).
Proof.
  intros Hsh Hlf. pose proof Hsh as [Ht Hlen He Hh _ _ _].
  pose proof Ht as Htp. apply tiles_app in Htp as [Htp Htr].
  pose proof (tiles_nonneg _ _ _ _ _ Htp) as Hn. unfold malloc_adjust_lfree.
  rewrite first_free_app in Hlf. rewrite !first_free_app.
  destruct (forallb snd pre) eqn:Hall.
  - cbn [first_free] in Hlf. rewrite Z.add_0_l in *. rewrite Hlf, Z.eqb_refl.
    rewrite (next_free_spec _ _ _ _ _ Htr); [|rewrite tlen_app in Hlen; lia|done|done|].
    2:{ pose proof (shape_walk_fuel _ _ Hsh) as Hf. rewrite length_app in Hf. lia. }
    out_simp. set (f := first_free (tlen pre) ((l, true) :: rest)).
    cbn [lfree set_lfree ram_end]. unfold hdr_at. cbn [hdrs set_lfree].
    destruct (first_free_hdr _ _ _ _ _ Htr) as [Hf|(h & Hf & Hu)]; fold f in Hf.
    + assert (f = MEM_SIZE_ALIGNED) as -> by (rewrite tlen_app in Hlen; lia).
      rewrite Hh. out_simp. by rewrite He, Z.eqb_refl.
    + rewrite Hf. out_simp. rewrite Hu, orb_true_r. done.
  - pose proof (first_free_not_all _ _ _ _ _ Htp Hall) as Hff.
    rewrite (proj2 (Z.eqb_neq _ _)) by heap_lia. by rewrite <- Hlf, set_lfree_id.
Qed.

Lemma shape_set_lfree s p bs : shape s bs → shape (set_lfree s p) bs.
Proof. by intros []. Qed.

Lemma mod_1_eqb z : (z mod MEM_ALIGNMENT =? 0) = true.
Proof. unfold MEM_ALIGNMENT. by rewrite Z.mod_1_r. Qed.
Lemma land_0_eqb z : (Z.land z (MEM_ALIGNMENT - 1) =? 0) = true.
Proof. unfold MEM_ALIGNMENT. by rewrite Z.land_0_r. Qed.
Lemma align_size_id z : LWIP_MEM_ALIGN_SIZE z = z.
Proof.
  unfold LWIP_MEM_ALIGN_SIZE, MEM_ALIGNMENT. rewrite Z.add_simpl_r, Z.sub_diag, Z.lnot_0.
  apply Z.land_m1_r.
Qed.

(** The size the allocator works with. *)
Definition clamp (size : Z) : Z := if size <? MIN_SIZE_ALIGNED then MIN_SIZE_ALIGNED else size.

Lemma merged_taken u pre len post mid :
  merged u (pre ++ (len, false) :: post) = true → merged false post = merged true post →
  mid = [(len, true)] ∨ (∃ a b, mid = [(a, true); (b, false)]) →
  merged u (pre ++ mid ++ post) = true.
Proof.
  rewrite !merged_app. cbn [merged]. intros [H1 [H2 H3]%andb_prop]%andb_prop Hq Hmid.
  rewrite H1. destruct Hmid as [->|(a & b & ->)]; cbn [merged app andb]; rewrite ?orb_true_r; cbn.
  - by rewrite <- Hq.
  - done.
Qed.

(** The block after a free one is in use. *)
Lemma merged_free_next u pre len post :
  merged u (pre ++ (len, false) :: post) = true → merged true post = merged false post.
Proof.
  rewrite merged_app. cbn [merged]. intros [_ [_ H]%andb_prop]%andb_prop.
  destruct post as [|[l v] post]; [done|]. cbn [merged] in *. by destruct v.
Qed.

Lemma malloc_take_spec s size bs o bs' :
  inv s bs → MIN_SIZE_ALIGNED ≤ size → amalloc size 0 bs = Some (o, bs') → ∃ s',
    malloc_take s size o = Clean (ram s + o + SIZEOF_STRUCT_MEM, s') ∧ inv s' bs' ∧ ram s' = ram s.
Proof.
  intros [Hsh Hm Hlf] Hs Ha.
  apply amalloc_split in Ha as (pre & len & post & -> & -> & Hl & Hbs'). rewrite Z.add_0_l.
  pose proof (shape_mid _ _ _ _ _ Hsh) as (_ & _ & Hp & Hq & Hlen).
  destruct (malloc_carve_spec _ _ _ _ _ Hsh Hs Hl) as (s1 & Hc & Hlf1 & Hr1 & Hsh1).
  unfold malloc_take, ptr_to_mem. rewrite Hc. out_simp.
  assert (∃ l rest, bs' = pre ++ (l, true) :: rest) as (l & rest & Hmid).
  { rewrite Hbs'. destruct (_ <=? len); eauto. }
  rewrite <- Hbs' in Hsh1. rewrite <- Hr1, Hmid.
  rewrite (malloc_adjust_lfree_spec s1 pre len l post rest); [|by rewrite <- Hmid|congruence].
  rewrite <- Hmid. out_simp. cbn [ram_end set_lfree].
  rewrite (i_end _ _ Hsh1), (proj2 (Z.leb_le _ _)) by heap_lia. out_simp.
  rewrite mod_1_eqb, land_0_eqb. out_simp. eexists. split; [done|]. split; [|done].
  split; [by apply shape_set_lfree| |done].
  rewrite Hbs'. eapply merged_taken; [exact Hm|symmetry; by eapply merged_free_next|].
  destruct (_ <=? len); eauto.
Qed.

Lemma mem_to_ptr_first_free s bs : inv s bs → mem_to_ptr s (lfree s) = first_free 0 bs.
Proof.
  intros [[Ht Hlen _ _ _ _ _] _ Hlf]. unfold mem_to_ptr. rewrite Hlf.
  apply first_free_range in Ht. rewrite Z.add_simpl_l. apply u16_id. heap_lia.
Qed.

Lemma scan_from_lfree s bs size : inv s bs → MIN_SIZE_ALIGNED ≤ size ≤ MEM_SIZE_ALIGNED →
  malloc_scan walk_fuel s size (mem_to_ptr s (lfree s)) = Clean (fst <$> amalloc size 0 bs).
Proof.
  intros Hinv Hs. rewrite (mem_to_ptr_first_free _ _ Hinv). pose proof Hinv as [Hsh _ _].
  pose proof (shape_walk_fuel _ _ Hsh) as Hf. destruct Hsh as [Ht Hlen _ _ _ _ _].
  destruct (first_free_split 0 bs) as (pre & post & -> & Hu & ->).
  apply tiles_app in Ht as [Htp Htq]. rewrite tlen_app in Hlen. rewrite length_app in Hf.
  apply tiles_nonneg in Htp. rewrite (malloc_scan_spec _ _ _ _ _ _ Htq) by lia.
  rewrite amalloc_skip by done. by destruct (amalloc _ _ _) as [[o bs']|].
Qed.

Lemma inv_stats s bs st : inv s bs → stats_wf st → st_used st = st_used (mstats s) →
  inv (set_stats s st) bs.
Proof.
  intros [[] Hm Hl] Hwf Hu. split; [|done|done]. split; try done. by rewrite <- i_used0.
Qed.

Lemma mem_malloc_refines s bs size_in : inv s bs → is_u16 size_in → size_in ≠ 0 →
  match (if size_in <=? MEM_SIZE_ALIGNED then amalloc (clamp size_in) 0 bs else None) with
  | Some (o, bs') => ∃ s', mem_malloc s size_in = Clean (ram s + o + SIZEOF_STRUCT_MEM, s') ∧
                           inv s' bs' ∧ ram s' = ram s
  | None => ∃ s', mem_malloc s size_in = Clean (NULL, s') ∧ inv s' bs ∧ ram s' = ram s
  end.
Proof.
  intros Hinv Hsz Hne. unfold mem_malloc. rewrite (proj2 (Z.eqb_neq _ _) Hne), align_size_id.
  rewrite (u16_id size_in) by done. fold (clamp size_in).
  assert (MIN_SIZE_ALIGNED ≤ clamp size_in ∧ size_in ≤ clamp size_in ∧
          (size_in ≤ MEM_SIZE_ALIGNED ↔ clamp size_in ≤ MEM_SIZE_ALIGNED)) as (Hc1 & Hc2 & Hc3).
  { unfold clamp. destruct (Z.ltb_spec size_in MIN_SIZE_ALIGNED); heap_lia. }
  rewrite (proj2 (Z.ltb_ge (clamp size_in) size_in)), orb_false_r by done.
  destruct (Z.leb_spec size_in MEM_SIZE_ALIGNED), (Z.ltb_spec MEM_SIZE_ALIGNED (clamp size_in));
    try lia.
  - rewrite (scan_from_lfree _ _ _ Hinv) by lia. out_simp.
    destruct (amalloc (clamp size_in) 0 bs) as [[o bs']|] eqn:Ha; cbn [fmap option_fmap option_map fst].
    + by apply malloc_take_spec with (bs := bs).
    + eexists. split; [done|]. split; [|done].
      apply inv_stats; [done| |done]. apply stats_wf_inc_err, Hinv.
  - by exists s.
Qed.

(** ** Release *)

Lemma tiles_head m base off prev len u bs : tiles m base off prev ((len, u) :: bs) →
  m !! (base + off) = Some (Hdr (off + len) prev (if u : bool then 1 else 0)) ∧ min_block ≤ len.
Proof. cbn [tiles]. tauto. Qed.

Lemma last_off_snoc off prev xs l v : last_off off prev (xs ++ [(l, v)]) = off + tlen xs.
Proof.
  revert off prev. induction xs as [|[len u] xs IH]; intros off prev; cbn [app last_off tlen].
  - lia.
  - rewrite IH. lia.
Qed.

(** The header after the block between [pre] and [post]: the next block or the end. *)
Lemma shape_next_hdr s pre len u post : shape s (pre ++ (len, u) :: post) →
  ∃ h, hdrs s !! (ram s + (tlen pre + len)) = Some h ∧
    match post with
    | [] => tlen pre + len = MEM_SIZE_ALIGNED ∧ h_used h = 1
    | (l2, v) :: _ => h = Hdr (tlen pre + len + l2) (tlen pre) (if v : bool then 1 else 0) ∧
                      tlen pre + len + l2 ≤ MEM_SIZE_ALIGNED ∧ min_block ≤ l2
    end.
Proof.
  intros Hsh. pose proof (shape_mid _ _ _ _ _ Hsh) as (_ & _ & _ & _ & Hlen).
  pose proof (i_tiles _ _ Hsh) as Ht. apply tiles_mid in Ht as (_ & _ & _ & Ht & _).
  destruct post as [|[l2 v] post].
  - cbn [tlen] in Hlen. rewrite Z.add_0_r in Hlen. rewrite Hlen, (i_endh _ _ Hsh).
    eexists. split; [done|]. done.
  - pose proof (tiles_nonneg _ _ _ _ _ (proj2 (proj2 Ht))). apply tiles_head in Ht as [-> Hl].
    cbn [tlen] in Hlen. eexists. split; [done|]. split; [done|]. lia.
Qed.

(** The header of the block before. *)
Lemma shape_prev_hdr s pre l v b post : shape s ((pre ++ [(l, v)]) ++ b :: post) →
  hdrs s !! (ram s + tlen pre)
    = Some (Hdr (tlen pre + l) (last_off 0 0 pre) (if v : bool then 1 else 0)) ∧
  last_off 0 0 (pre ++ [(l, v)]) = tlen pre ∧ min_block ≤ l.
Proof.
  intros Hsh. rewrite <- (assoc_L app) in Hsh. cbn [app] in Hsh.
  apply shape_mid in Hsh as (Hh & Hl & _). by rewrite last_off_snoc, Z.add_0_l.
Qed.

Lemma mem_link_valid_spec s pre len u post : shape s (pre ++ (len, u) :: post) →
  mem_link_valid s (ram s + tlen pre) = Clean true.
Proof.
  intros Hsh. pose proof (shape_mid _ _ _ _ _ Hsh) as (Hh & Hmin & Hp & Hq & Hlen).
  pose proof (i_tiles _ _ Hsh) as Ht. apply tiles_mid in Ht as (Htp & _).
  apply last_off_bounds in Htp as [Hlo _]; [|lia].
  unfold mem_link_valid, ptr_to_mem, mem_to_ptr. rewrite (hdr_at_some _ _ _ Hh). out_simp.
  cbn [h_next h_prev]. rewrite Z.add_simpl_l, (u16_id (tlen pre)) by heap_lia.
  rewrite !(proj2 (Z.ltb_ge _ _)) by heap_lia. cbn [orb].
  assert ((if negb (last_off 0 0 pre =? tlen pre)
    then p ← hdr_at s (ram s + last_off 0 0 pre); mret (negb (h_next p =? tlen pre))
    else mret false) = Clean false) as ->.
  { destruct (Z.eqb_spec (last_off 0 0 pre) (tlen pre)) as [|Hne]; [done|]. cbn [negb].
    destruct pre as [|[l v] pre _] using rev_ind; [done|].
    destruct (shape_prev_hdr _ _ _ _ _ _ Hsh) as (Hph & -> & _).
    rewrite (hdr_at_some _ _ _ Hph). out_simp. cbn [h_next]. rewrite tlen_app. cbn [tlen].
    by rewrite Z.add_0_r, Z.eqb_refl. }
  out_simp. destruct (shape_next_hdr _ _ _ _ _ Hsh) as (h & Hn & Hpost).
  rewrite (i_end _ _ Hsh). destruct (Z.eqb_spec (ram s + (tlen pre + len)) (ram s + MEM_SIZE_ALIGNED)); [done|].
  cbn [negb]. rewrite (hdr_at_some _ _ _ Hn). out_simp.
  destruct post as [|[l2 v] post]; [lia|]. destruct Hpost as [-> _]. cbn [h_prev]. by rewrite Z.eqb_refl.
Qed.

Lemma mem_to_ptr_off s s' o : ram s' = ram s → is_u16 o → mem_to_ptr s' (ram s + o) = o.
Proof. intros Hr Ho. unfold mem_to_ptr. by rewrite Hr, Z.add_simpl_l, u16_id. Qed.

Lemma plug_forward_spec s pre len post :
  shape s (pre ++ (len, false) :: post) → lfree s ≤ ram s + tlen pre → ∃ s',
    plug_forward s (ram s + tlen pre) = Clean s' ∧ shape s' (pre ++ join len post) ∧
    lfree s' = lfree s ∧ ram s' = ram s.
Proof.
  intros Hsh Hlf. pose proof (shape_mid _ _ _ _ _ Hsh) as (Hh & Hmin & Hp & Hq & Hlen).
  destruct (shape_next_hdr _ _ _ _ _ Hsh) as (h & Hn & Hpost).
  unfold plug_forward, ptr_to_mem. rewrite (hdr_at_some _ _ _ Hh). out_simp. cbn [h_next].
  rewrite (hdr_at_some _ _ _ Hn). out_simp.
  rewrite (proj2 (Z.eqb_neq (ram s + tlen pre) _)) by heap_lia. cbn [negb andb].
  destruct post as [|[l2 [|]] post]; cbn [join].
  - destruct Hpost as [_ ->]. by exists s.
  - destruct Hpost as [-> _]. by exists s.
  - destruct Hpost as (-> & Hl2 & Hmin2). cbn [h_used h_next Z.eqb].
    rewrite (i_end _ _ Hsh), (proj2 (Z.eqb_neq _ (ram s + MEM_SIZE_ALIGNED))) by heap_lia. cbn [negb andb].
    rewrite (proj2 (Z.eqb_neq (lfree s) _)) by heap_lia.
    rewrite (set_next_some _ _ _ (tlen pre + len + l2) Hh) by heap_lia. out_simp. cbn [h_prev h_used].
    set (s1 := put s _ _). pose proof (i_tiles _ _ Hsh) as Ht.
    apply tiles_mid in Ht as (Htp & _ & _ & (_ & _ & Htq) & _).
    rewrite (mem_to_ptr_off s s1 (tlen pre)) by (done || heap_lia).
    cbn [tlen] in *.
    destruct (relink s1 (tlen pre + len + l2) (tlen pre + len) (tlen pre) post)
      as (s2 & -> & Ht2 & Hk2 & Hs2); [|heap_lia..|].
    { change (ram s1) with (ram s). apply (tiles_ext (hdrs s)); [|done].
      intros k Hk1 Hk2. apply lookup_put_far. heap_lia. }
    change (ram s1) with (ram s) in *.
    exists s2. split; [done|]. split; [|by rewrite Hs2].
    apply (shape_replace s s2 pre [(len, false); (l2, false)] [(len + l2, false)] post (mstats s));
      [exact Hsh| | | | | |].
    + cbn [tlen]. lia.
    + by rewrite Hs2.
    + intros k Hk. rewrite Hk2 by heap_lia. apply lookup_put_far. heap_lia.
    + cbn [app tiles]. rewrite Z.add_assoc, Hk2 by heap_lia. unfold s1. rewrite lookup_put_eq.
      split; [done|]. split; [heap_lia|done].
    + rewrite (i_used _ _ Hsh), !used_total_app. cbn [used_total]. lia.
    + apply Hsh.
Qed.

Lemma plug_backward_merge s pre l len post :
  shape s ((pre ++ [(l, false)]) ++ (len, false) :: post) → lfree s ≤ ram s + tlen pre → ∃ s',
    plug_backward s (ram s + (tlen pre + l)) = Clean s' ∧
    shape s' (pre ++ (l + len, false) :: post) ∧ lfree s' = lfree s ∧ ram s' = ram s ∧
    hdrs s' !! (ram s + (tlen pre + l)) = hdrs s !! (ram s + (tlen pre + l)).
Proof.
  intros Hsh Hlf. pose proof (shape_mid _ _ _ _ _ Hsh) as (Hh & Hmin & Hp & Hq & Hlen).
  destruct (shape_prev_hdr _ _ _ _ _ _ Hsh) as (Hph & Hlo & Hl). rewrite Hlo in Hh.
  rewrite tlen_app in *. cbn [tlen] in *. rewrite Z.add_0_r in *.
  pose proof (i_tiles _ _ Hsh) as Ht. apply tiles_mid in Ht as (Htp & _ & _ & Htq & _).
  apply tiles_app in Htp as [Htp _]. apply tiles_nonneg in Htp.
  rewrite tlen_app in Htq. cbn [tlen] in Htq. rewrite Z.add_0_r in Htq.
  unfold plug_backward, ptr_to_mem. rewrite (hdr_at_some _ _ _ Hh). out_simp. cbn [h_prev h_next].
  rewrite (hdr_at_some _ _ _ Hph). out_simp. cbn [h_used Z.eqb].
  rewrite (proj2 (Z.eqb_neq _ (ram s + (tlen pre + l)))) by heap_lia. cbn [negb andb].
  rewrite (proj2 (Z.eqb_neq (lfree s) _)) by heap_lia.
  rewrite (set_next_some _ _ _ (tlen pre + l + len) Hph) by heap_lia. out_simp. cbn [h_prev h_used].
  set (s1 := put s _ _).
  rewrite (mem_to_ptr_off s s1 (tlen pre)) by (done || heap_lia).
  destruct (relink s1 (tlen pre + l + len) (tlen pre + l) (tlen pre) post)
    as (s2 & -> & Ht2 & Hk2 & Hs2); [|heap_lia..|].
  { change (ram s1) with (ram s). apply (tiles_ext (hdrs s)); [|done].
      intros k Hk1 Hk2. apply lookup_put_far. heap_lia. }
  change (ram s1) with (ram s) in *.
  exists s2. split; [done|]. split; [|split; [by rewrite Hs2|split; [by rewrite Hs2|]]].
  2:{ rewrite Hk2 by heap_lia. apply lookup_put_far. heap_lia. }
  apply (shape_replace s s2 pre [(l, false); (len, false)] [(l + len, false)] post (mstats s)).
  - cbn [app]. by rewrite <- (assoc_L app) in Hsh.
  - cbn [tlen]. lia.
  - by rewrite Hs2.
  - intros k Hk. rewrite Hk2 by heap_lia. apply lookup_put_far. heap_lia.
  - cbn [app tiles]. rewrite Z.add_assoc, Hk2 by heap_lia. unfold s1. rewrite lookup_put_eq.
    split; [done|]. split; [heap_lia|done].
  - rewrite (i_used _ _ Hsh), !used_total_app. cbn [used_total]. lia.
  - apply Hsh.
Qed.

(** Nothing to merge with in front. *)
Lemma plug_backward_skip s pre len post :
  shape s (pre ++ (len, false) :: post) → last_used true pre = true →
  plug_backward s (ram s + tlen pre) = Clean s.
Proof.
  intros Hsh Hlast. pose proof (shape_mid _ _ _ _ _ Hsh) as (Hh & _).
  unfold plug_backward, ptr_to_mem. rewrite (hdr_at_some _ _ _ Hh). out_simp. cbn [h_prev h_next].
  destruct pre as [|[l v] pre _] using rev_ind.
  - cbn [last_off tlen] in *. rewrite (hdr_at_some _ _ _ Hh). out_simp. by rewrite Z.eqb_refl.
  - unfold last_used in Hlast. rewrite last_snoc in Hlast. cbn in Hlast. subst v.
    destruct (shape_prev_hdr _ _ _ _ _ _ Hsh) as (Hph & -> & _).
    rewrite (hdr_at_some _ _ _ Hph). out_simp. cbn [h_used]. by rewrite andb_false_r.
Qed.

(** [pre] followed by a free block and [post], merged with its free neighbours. *)
Fixpoint jback (pre b : list (Z * bool)) : list (Z * bool) :=
  match pre with
  | [] => b
  | (l, u) :: pre' =>
      match pre' with
      | [] => if u then (l, u) :: b else join l b
      | _ => (l, u) :: jback pre' b
      end
  end.

Lemma jback_snoc pre l u b :
  jback (pre ++ [(l, u)]) b = pre ++ (if u : bool then (l, u) :: b else join l b).
Proof.
  induction pre as [|[l' u'] pre IH]; [done|]. cbn [app jback].
  destruct (pre ++ [(l, u)]) eqn:E; [by destruct pre|]. by rewrite IH.
Qed.

Lemma afree_split o off bs bs' u : merged u bs = true → afree o off bs = Some bs' →
  ∃ pre len post, bs = pre ++ (len, true) :: post ∧ o = off + tlen pre ∧
    bs' = jback pre (join len post).
Proof.
  revert off bs' u. induction bs as [|[len v] bs IH]; intros off bs' u Hm; [done|]. cbn [afree].
  destruct (Z.eqb_spec o off) as [->|_].
  - destruct v; [|done]. intros [= <-]. exists [], len, bs. cbn [tlen app jback].
    by rewrite Z.add_0_r.
  - cbn [merged] in Hm. apply andb_prop in Hm as [_ Hm]. intros (bs1 & Ha & [= <-])%bind_Some.
    destruct (IH _ _ _ Hm Ha) as (pre & len1 & post & -> & -> & ->).
    exists ((len, v) :: pre), len1, post. cbn [app tlen]. split; [done|]. split; [lia|].
    destruct v; cbn [jback]; [by destruct pre|].
    destruct pre as [|[l2 u2] pre]; [done|]. cbn [merged app] in Hm.
    destruct u2; [|done]. cbn [jback]. by destruct pre.
Qed.

Lemma join_cons len post : ∃ len' post', join len post = (len', false) :: post' ∧
  (merged true post = true → merged false post' = true).
Proof.
  destruct post as [|[l [|]] post]; cbn [join merged]; do 2 eexists; split; try done.
Qed.

Lemma merged_jback pre len post :
  merged true (pre ++ (len, true) :: post) = true →
  merged true (jback pre (join len post)) = true.
Proof.
  intros Hm. rewrite merged_app in Hm. cbn [merged] in Hm.
  apply andb_prop in Hm as [Hpre [_ Hpost]%andb_prop].
  destruct (join_cons len post) as (len' & post' & Hj & Hpost'). specialize (Hpost' Hpost).
  destruct pre as [|[l [|]] pre _] using rev_ind.
  - cbn [jback]. by rewrite Hj.
  - rewrite jback_snoc, Hj, merged_app. cbn [merged]. rewrite merged_app in Hpre.
    apply andb_prop in Hpre as [-> _]. by rewrite orb_true_r.
  - rewrite jback_snoc, Hj. cbn [join]. rewrite merged_app in Hpre.
    apply andb_prop in Hpre as [Hpre Hl]. cbn [merged] in Hl. rewrite merged_app, Hpre. cbn [merged].
    rewrite orb_false_r, andb_true_r in *. by rewrite Hl, Hpost'.
Qed.

Lemma first_free_jback off pre len post :
  first_free off (jback pre (join len post)) = first_free off (pre ++ (len, false) :: post).
Proof.
  destruct (join_cons len post) as (len' & post' & Hj & _). rewrite Hj.
  destruct pre as [|[l [|]] pre _] using rev_ind; [done|..]; rewrite jback_snoc.
  - rewrite <- (assoc_L app). cbn [app]. rewrite !first_free_app. done.
  - cbn [join]. rewrite <- (assoc_L app). cbn [app]. rewrite !first_free_app. done.
Qed.

Lemma plug_holes_spec s pre len post :
  shape s (pre ++ (len, false) :: post) →
  lfree s = ram s + first_free 0 (pre ++ (len, false) :: post) →
  merged true (pre ++ (len, true) :: post) = true → ∃ s',
    plug_holes s (ram s + tlen pre) = Clean s' ∧ inv s' (jback pre (join len post)) ∧
    ram s' = ram s ∧ ∃ h, hdrs s' !! (ram s + tlen pre) = Some h ∧ h_used h = 0.
Proof.
  intros Hsh Hlf Hm. pose proof (shape_mid _ _ _ _ _ Hsh) as (Hh & Hmin & Hp & Hq & Hlen).
  pose proof (i_tiles _ _ Hsh) as Ht. apply tiles_mid in Ht as (Htp & _).
  assert (lfree s ≤ ram s + tlen pre) as Hle.
  { rewrite Hlf, first_free_app. cbn [first_free]. apply first_free_range in Htp.
    destruct (forallb snd pre); lia. }
  unfold plug_holes. rewrite (hdr_at_some _ _ _ Hh). out_simp. cbn [h_used h_next].
  rewrite (i_end _ _ Hsh), !(proj2 (Z.leb_le _ _)), (proj2 (Z.ltb_lt _ _)) by heap_lia. out_simp.
  destruct (plug_forward_spec _ _ _ _ Hsh Hle) as (s1 & -> & Hsh1 & Hlf1 & Hr1). out_simp.
  pose proof (merged_jback _ _ _ Hm) as Hmj.
  destruct (join_cons len post) as (len' & post' & Hj & _).
  rewrite <- (first_free_jback 0) in Hlf. rewrite Hj in *. rewrite <- Hr1, <- Hlf1 in *.
  pose proof (shape_mid _ _ _ _ _ Hsh1) as (Hstale & _).
  destruct pre as [|[l [|]] pre _] using rev_ind.
  - exists s1. rewrite (plug_backward_skip _ [] _ _ Hsh1) by done. split; [done|]. split; [done|]. eauto.
  - exists s1. rewrite (plug_backward_skip _ _ _ _ Hsh1) by (unfold last_used; by rewrite last_snoc).
    rewrite jback_snoc in *. split; [done|]. split; [|split; [done|eauto]].
    split; [by rewrite <- (assoc_L app) in Hsh1|done|done].
  - rewrite jback_snoc in *. cbn [join] in *. rewrite tlen_app in *. cbn [tlen] in *.
    rewrite Z.add_0_r in *. apply tiles_app in Htp as [Htp _]. apply first_free_range in Htp.
    destruct (plug_backward_merge s1 pre l len' post' Hsh1) as (s2 & -> & Hsh2 & Hlf2 & Hr2 & Hst2).
    { rewrite Hlf, first_free_app. cbn [first_free]. destruct (forallb snd pre); lia. }
    exists s2. split; [done|]. split; [split; [done..|congruence]|]. split; [done|].
    rewrite Hst2. eauto.
Qed.

Lemma mem_free_refines s bs o bs' : inv s bs → afree o 0 bs = Some bs' → ∃ s',
  mem_free s (ram s + o + SIZEOF_STRUCT_MEM) = Clean s' ∧ inv s' bs' ∧ ram s' = ram s ∧
  ∃ h, hdrs s' !! (ram s + o) = Some h ∧ h_used h = 0.
Proof.
  intros [Hsh Hm Hlf] Ha. apply (afree_split _ _ _ _ true) in Ha as (pre & len & post & -> & -> & ->); [|done].
  rewrite Z.add_0_l. pose proof (shape_mid _ _ _ _ _ Hsh) as (Hh & Hmin & Hp & Hq & Hlen).
  pose proof (i_ram _ _ Hsh) as Hram.
  unfold mem_free. rewrite (proj2 (Z.eqb_neq _ NULL)) by heap_lia. rewrite land_0_eqb. cbn [negb].
  replace (ram s + tlen pre + SIZEOF_STRUCT_MEM - SIZEOF_STRUCT_MEM) with (ram s + tlen pre) by lia.
  rewrite (i_end _ _ Hsh), !(proj2 (Z.ltb_ge _ _)) by heap_lia. cbn [orb].
  rewrite (hdr_at_some _ _ _ Hh). out_simp. cbn [h_used Z.eqb h_next].
  rewrite (mem_link_valid_spec _ _ _ _ _ Hsh). out_simp. cbn [negb].
  rewrite (set_used_some _ _ _ 0 Hh) by done. out_simp. cbn [h_next h_prev].
  set (s1 := put s _ _).
  set (s2 := if ram s + tlen pre <? lfree s1 then set_lfree s1 (ram s + tlen pre) else s1).
  assert (mstats s2 = mstats s ∧ hdrs s2 = hdrs s1 ∧ ram s2 = ram s ∧ ram_end s2 = ram_end s
          ∧ lfree s2 = Z.min (lfree s) (ram s + tlen pre)) as (E1 & E2 & E3 & E4 & E5).
  { unfold s2. change (lfree s1) with (lfree s).
    destruct (Z.ltb_spec (ram s + tlen pre) (lfree s)); cbn [mstats hdrs ram ram_end lfree set_lfree];
      repeat split; try done; try lia. unfold s1. rewrite lfree_put. lia. }
  rewrite E1, E3, Z.add_simpl_l, (u16_id (tlen pre)), Z.add_simpl_l by heap_lia.
  set (s3 := set_stats s2 _). rewrite <- E3. change (ram s2) with (ram s3).
  pose proof (i_tiles _ _ Hsh) as Ht. apply tiles_mid in Ht as (Htp & _ & _ & Htq & _).
  pose proof (i_used _ _ Hsh) as Hu. rewrite used_total_app in Hu. cbn [used_total] in Hu.
  pose proof (used_total_range _ _ _ _ _ Htp). pose proof (used_total_range _ _ _ _ _ Htq).
  apply plug_holes_spec; [| |done].
  - apply (shape_replace s s3 pre [(len, true)] [(len, false)] post
      (stats_dec_used (mstats s) len)); [exact Hsh|done| | | | |].
    + unfold s3. destruct s2; cbn in *. unfold set_stats, set_lfree, set_hdrs; cbn. congruence.
    + intros k Hk. change (hdrs s3) with (hdrs s2). rewrite E2. apply lookup_put_far. heap_lia.
    + change (hdrs s3) with (hdrs s2). rewrite E2. cbn [app tiles]. unfold s1. rewrite lookup_put_eq.
      split; [done|]. split; [done|]. apply (tiles_ext (hdrs s)); [|done].
      intros k Hk1 Hk2. apply lookup_put_far. heap_lia.
    + rewrite !used_total_app. cbn [used_total st_used stats_dec_used]. rewrite u16_id; heap_lia.
    + apply stats_wf_dec_used; [apply Hsh|heap_lia].
  - change (lfree s3) with (lfree s2). change (ram s3) with (ram s2).
    rewrite E5, E3, Hlf, !first_free_app, Z.add_0_l. cbn [first_free].
    destruct (forallb snd pre) eqn:Hall.
    + apply first_free_range in Htq. heap_lia.
    + pose proof (first_free_not_all _ _ _ _ _ Htp Hall). heap_lia.
Qed.

(** ** Shrinking *)

(** What becomes of the block and its successors. *)
Definition trim_tail (new len : Z) (post : list (Z * bool)) : list (Z * bool) :=
  match post with
  | (len', false) :: post' => (new, true) :: (len - new + len', false) :: post'
  | _ => if new + min_block <=? len
         then (new, true) :: (len - new, false) :: post
         else (len, true) :: post
  end.

Lemma atrim_split size o off bs bs' : atrim size o off bs = Some bs' →
  ∃ pre len post, bs = pre ++ (len, true) :: post ∧ o = off + tlen pre ∧
    SIZEOF_STRUCT_MEM + size ≤ len ∧ bs' = pre ++ trim_tail (SIZEOF_STRUCT_MEM + size) len post.
Proof.
  revert off bs'. induction bs as [|[len v] bs IH]; intros off bs'; [done|]. cbn [atrim].
  destruct (Z.eqb_spec o off) as [->|_].
  - destruct (negb v || (len <? SIZEOF_STRUCT_MEM + size)) eqn:E; [done|].
    apply orb_false_iff in E as [Hv%negb_false_iff Hl%Z.ltb_ge]. subst v. intros H.
    exists [], len, bs. cbn [tlen app]. rewrite Z.add_0_r. split; [done|]. split; [done|].
    split; [done|]. unfold trim_tail. destruct bs as [|[l2 [|]] bs]; cbn in H |- *.
    + destruct (_ <=? len); congruence.
    + destruct (_ <=? len); congruence.
    + congruence.
  - intros (bs1 & Ha & [= <-])%bind_Some.
    destruct (IH _ _ Ha) as (pre & len1 & post & -> & -> & Hl & ->).
    exists ((len, v) :: pre), len1, post. cbn [app tlen]. split; [done|]. split; [lia|done].
Qed.

(** The assertion "invalid next ptr" fails when room is split off the last block of
    the heap, although the operation itself is carried out correctly. *)
Fixpoint trim_asserts (size o off : Z) (bs : list (Z * bool)) : bool :=
  match bs with
  | [] => false
  | (len, _) :: bs =>
      if o =? off
      then match bs with [] => SIZEOF_STRUCT_MEM + size + min_block <=? len | _ => false end
      else trim_asserts size o (off + len) bs
  end.

Lemma trim_asserts_app m base size off prev pre len post :
  tiles m base off prev pre →
  trim_asserts size (off + tlen pre) off (pre ++ (len, true) :: post) =
  match post with [] => SIZEOF_STRUCT_MEM + size + min_block <=? len | _ => false end.
Proof.
  revert off prev. induction pre as [|[l u] pre IH]; intros off prev; cbn [app trim_asserts tiles tlen].
  - by rewrite Z.add_0_r, Z.eqb_refl.
  - intros (_ & Hl & Ht). pose proof (tiles_nonneg _ _ _ _ _ Ht).
    rewrite (proj2 (Z.eqb_neq _ _)) by heap_lia. rewrite Z.add_assoc. by apply (IH _ _ Ht).
Qed.

(** Writing the header of a new free block at [p2], between the block at [tlen pre] and
    the blocks [rest] that start at [nxt]. *)
Definition link_free (s : heap) (mem p2 nxt ptr : Z) : out heap :=
  let s := put s (ram s + p2) (Hdr nxt ptr 0) in
  s ← set_next s mem p2;
  if negb (nxt =? MEM_SIZE_ALIGNED) then set_prev s (ram s + nxt) p2 else mret s.

Lemma link_free_spec s pre len new rest nxt mid prevn :
  hdrs s !! (ram s + tlen pre) = Some (Hdr len (last_off 0 0 pre) 1) →
  0 ≤ tlen pre → tiles (hdrs s) (ram s) nxt prevn rest → nxt + tlen rest = MEM_SIZE_ALIGNED →
  min_block ≤ new → mid = nxt - (tlen pre + new) → min_block ≤ mid → ∃ s',
    link_free s (ram s + tlen pre) (tlen pre + new) nxt (tlen pre) = Clean s' ∧
    s' = set_hdrs s (hdrs s') ∧
    (∀ k, k + min_block ≤ tlen pre ∨ k = MEM_SIZE_ALIGNED →
       hdrs s' !! (ram s + k) = hdrs s !! (ram s + k)) ∧
    tiles (hdrs s') (ram s) (tlen pre) (last_off 0 0 pre) ((new, true) :: (mid, false) :: rest).
Proof.
  intros Hh Hp Ht Hlen Hnew -> Hmid. pose proof (tiles_nonneg _ _ _ _ _ Ht) as Hn.
  unfold link_free. set (s1 := put s _ _).
  assert (hdrs s1 !! (ram s + tlen pre) = Some (Hdr len (last_off 0 0 pre) 1)) as H1.
  { unfold s1. rewrite lookup_put_far by heap_lia. done. }
  rewrite (set_next_some _ _ _ (tlen pre + new) H1) by heap_lia. out_simp. cbn [h_prev h_used].
  set (s2 := put s1 _ _).
  assert (∀ k, k + 6 ≤ tlen pre ∨ nxt ≤ k → hdrs s2 !! (ram s + k) = hdrs s !! (ram s + k)) as Hout.
  { intros k Hk. unfold s2, s1. rewrite !lookup_put_far by heap_lia. done. }
  destruct (relink s2 nxt prevn (tlen pre + new) rest) as (s3 & -> & Ht3 & Hk3 & Hs3); [|heap_lia..|].
  { change (ram s2) with (ram s). apply (tiles_ext (hdrs s)); [|done]. intros k H2 H3. apply Hout. lia. }
  change (ram s2) with (ram s) in *. exists s3. split; [done|]. split; [by rewrite Hs3|]. split.
  - intros k Hk. rewrite Hk3 by heap_lia. apply Hout. heap_lia.
  - cbn [tiles]. replace (tlen pre + new + (nxt - (tlen pre + new))) with nxt by lia.
    rewrite !Hk3 by heap_lia. unfold s2. rewrite lookup_put_eq. split; [done|]. split; [done|].
    rewrite lookup_put_far by heap_lia. unfold s1. rewrite lookup_put_eq. done.
Qed.

Lemma link_free_inv s mem p2 nxt ptr s' : link_free s mem p2 nxt ptr = Clean s' → ∃ s1,
  set_next (put s (ram s + p2) (Hdr nxt ptr 0)) mem p2 = Clean s1 ∧
  (if negb (nxt =? MEM_SIZE_ALIGNED) then set_prev s1 (ram s1 + nxt) p2 else mret s1) = Clean s'.
Proof. apply bind_clean_inv. Qed.

Lemma clamp_u16 n : is_u16 n → is_u16 (clamp n) ∧ MIN_SIZE_ALIGNED ≤ clamp n ∧ n ≤ clamp n.
Proof. intros H. unfold clamp. destruct (Z.ltb_spec n MIN_SIZE_ALIGNED); heap_lia. Qed.

(** Splitting a free block off the used block at [tlen pre], given the lowest-free
    pointer the code has chosen: [len] is the old length, [nxt] the start of [rest]. *)
Lemma trim_split s pre len old rest new lf :
  shape s (pre ++ ((len, true) :: old) ++ rest) →
  (old = [] ∨ ∃ l, old = [(l, false)]) →
  min_block ≤ new → new < len → min_block ≤ len - new + tlen old →
  ∃ s1 s2,
    set_next (put (set_lfree s lf) (ram s + (tlen pre + new))
               (Hdr (tlen pre + len + tlen old) (tlen pre) 0)) (ram s + tlen pre) (tlen pre + new)
      = Clean s1 ∧
    (if negb (tlen pre + len + tlen old =? MEM_SIZE_ALIGNED)
     then set_prev s1 (ram s1 + (tlen pre + len + tlen old)) (tlen pre + new) else mret s1)
      = Clean s2 ∧
    mstats s2 = mstats s ∧ lfree s2 = lf ∧ ram s2 = ram s ∧
    shape (set_stats s2 (stats_dec_used (mstats s) (len - new)))
      (pre ++ [(new, true); (len - new + tlen old, false)] ++ rest).
Proof.
  intros Hsh Hold Hnew Hlt Hmid.
  pose proof (shape_mid s pre len true (old ++ rest) Hsh) as (Hh & Hmin & Hp & Hq & Hlen).
  rewrite tlen_app in *. pose proof (i_tiles _ _ Hsh) as Ht.
  apply (tiles_mid _ _ pre len true (old ++ rest)) in Ht as (Htp & _ & _ & Htq & _).
  apply tiles_app in Htq as [Hto Htr].
  pose proof (tiles_nonneg _ _ _ _ _ Hto). pose proof (tiles_nonneg _ _ _ _ _ Htr).
  pose proof (used_total_range _ _ _ _ _ Htp). pose proof (used_total_range _ _ _ _ _ Htr).
  pose proof (i_used _ _ Hsh) as Hu. rewrite !used_total_app in Hu. cbn [used_total] in Hu.
  assert (used_total old = 0) as Hu0 by (destruct Hold as [->|[l ->]]; done).
  destruct (link_free_spec (set_lfree s lf) pre (tlen pre + len) new rest (tlen pre + len + tlen old)
    (len - new + tlen old) (last_off (tlen pre + len) (tlen pre) old))
    as (s2 & Hlink & Hs2 & Hk2 & Ht2); [done|done|done|heap_lia|done|heap_lia|done|].
  destruct (link_free_inv _ _ _ _ _ _ Hlink) as (s1 & Hn & Hr).
  exists s1, s2. split; [exact Hn|]. split; [exact Hr|]. rewrite Hs2.
  split; [done|]. split; [done|]. split; [done|]. rewrite <- Hs2.
  apply (shape_replace s _ pre ((len, true) :: old) _ rest (stats_dec_used (mstats s) (len - new)));
    [exact Hsh| | | | | |].
  - cbn [tlen]. lia.
  - by rewrite Hs2.
  - exact Hk2.
  - exact Ht2.
  - rewrite !used_total_app. cbn [used_total st_used stats_dec_used]. rewrite u16_id; heap_lia.
  - apply stats_wf_dec_used; [apply Hsh|heap_lia].
Qed.

Lemma set_lfree_if s (b : bool) p :
  (if b then set_lfree s p else s) = set_lfree s (if b then p else lfree s).
Proof. destruct b; [done|]. by rewrite set_lfree_id. Qed.

Lemma trim_tail_id len post : trim_tail len len post = (len, true) :: post.
Proof.
  unfold trim_tail. rewrite Z.sub_diag, (proj2 (Z.leb_gt _ len)) by heap_lia.
  destruct post as [|[l2 [|]] post]; done.
Qed.

(** The next block is free, or it is in use (or the end) and stays where it is. *)
Lemma trim_cases new len post (h : hdr) (P : Prop) :
  match post with
  | [] => P ∧ h_used h = 1
  | (l2, v) :: _ => ∃ a b, h = Hdr a b (if v : bool then 1 else 0)
  end →
  (∃ l2 post', post = (l2, false) :: post') ∨
  h_used h = 1 ∧ (merged true post = true → merged false post = true) ∧
  trim_tail new len post =
    if new + min_block <=? len then (new, true) :: (len - new, false) :: post else (len, true) :: post.
Proof.
  destruct post as [|[l2 [|]] post].
  - intros [_ Hh]. by right.
  - intros (a & b & ->). by right.
  - intros _. left. eauto.
Qed.

Lemma trim_locked_free s pre len l2 post N :
  inv s (pre ++ (len, true) :: (l2, false) :: post) → min_block ≤ N → N < len → ∃ s',
    trim_locked s (ram s + tlen pre) (tlen pre) (len - SIZEOF_STRUCT_MEM) (N - SIZEOF_STRUCT_MEM) = Clean s' ∧
    inv s' (pre ++ (N, true) :: (len - N + l2, false) :: post) ∧ ram s' = ram s.
Proof.
  intros [Hsh Hm Hlf] HN Hlt. pose proof (shape_mid _ _ _ _ _ Hsh) as (Hh & Hmin & Hp & Hq & Hlen).
  destruct (shape_next_hdr _ _ _ _ _ Hsh) as (h & Hn & -> & Hl2 & Hmin2).
  pose proof (i_tiles _ _ Hsh) as Ht. apply tiles_mid in Ht as (Htp & _ & _ & (_ & _ & Htq) & _).
  pose proof (tiles_nonneg _ _ _ _ _ Htq) as Hq'. cbn [tlen] in Hlen.
  unfold trim_locked, ptr_to_mem. rewrite (hdr_at_some _ _ _ Hh). out_simp. cbn [h_next].
  rewrite (hdr_at_some _ _ _ Hn). out_simp. cbn [h_used h_next Z.eqb].
  replace (tlen pre + SIZEOF_STRUCT_MEM + (N - SIZEOF_STRUCT_MEM)) with (tlen pre + N) by lia.
  replace (len - SIZEOF_STRUCT_MEM - (N - SIZEOF_STRUCT_MEM)) with (len - N) by lia.
  rewrite (u16_id (tlen pre + N)), (proj2 (Z.eqb_neq (tlen pre + len) _)) by heap_lia. out_simp.
  rewrite !set_lfree_if. set (lf := if lfree s =? _ then _ else _).
  destruct (trim_split s pre len [(l2, false)] post N lf) as (s1 & s2 & H1 & H2 & Hst & Hlf2 & Hr2 & Hsh2);
    [exact Hsh|by right; eauto|heap_lia|heap_lia|cbn [tlen]; heap_lia|].
  cbn [tlen] in *. rewrite Z.add_0_r in *. change (ram (set_lfree s lf)) with (ram s).
  rewrite H1. out_simp. rewrite H2. out_simp. rewrite Hst.
  eexists. split; [done|]. split; [|done]. split; [exact Hsh2| |].
  - cbn [app]. rewrite merged_app in *. apply andb_prop in Hm as [-> Hm]. cbn [merged] in *.
    by rewrite orb_true_r in *.
  - cbn [lfree set_stats ram]. rewrite Hlf2, Hr2. unfold lf. rewrite Hlf, !first_free_app.
    cbn [first_free]. rewrite Z.add_0_l. destruct (forallb snd pre) eqn:Hall.
    + by rewrite Z.eqb_refl.
    + pose proof (first_free_not_all _ _ _ _ _ Htp Hall).
      rewrite (proj2 (Z.eqb_neq _ _)) by heap_lia. done.
Qed.

Lemma trim_locked_used s pre len post N :
  inv s (pre ++ (len, true) :: post) → min_block ≤ N → N < len →
  (¬ ∃ l2 post', post = (l2, false) :: post') → ∃ s',
    trim_locked s (ram s + tlen pre) (tlen pre) (len - SIZEOF_STRUCT_MEM) (N - SIZEOF_STRUCT_MEM) =
      Ret s' (if bool_decide (post = []) && (N + min_block <=? len)
              then ["invalid next ptr"%string] else []) ∧
    inv s' (pre ++ trim_tail N len post) ∧ ram s' = ram s.
Proof.
  intros Hinv HN Hlt Hnf. pose proof Hinv as [Hsh Hm Hlf].
  pose proof (shape_mid _ _ _ _ _ Hsh) as (Hh & Hmin & Hp & Hq & Hlen).
  destruct (shape_next_hdr _ _ _ _ _ Hsh) as (h & Hn & Hpost).
  pose proof (i_tiles _ _ Hsh) as Ht. apply tiles_mid in Ht as (Htp & _ & _ & Htq & _).
  destruct (trim_cases N len post h (tlen pre + len = MEM_SIZE_ALIGNED)) as [Hf|(Hu & Hmp & ->)].
  { destruct post as [|[l2 v] post]; [done|]. destruct Hpost as [-> _]. eauto. }
  { done. }
  unfold trim_locked, ptr_to_mem. rewrite (hdr_at_some _ _ _ Hh). out_simp. cbn [h_next].
  rewrite (hdr_at_some _ _ _ Hn). out_simp. rewrite Hu. cbn [Z.eqb].
  replace (tlen pre + SIZEOF_STRUCT_MEM + (N - SIZEOF_STRUCT_MEM)) with (tlen pre + N) by lia.
  replace (len - SIZEOF_STRUCT_MEM - (N - SIZEOF_STRUCT_MEM)) with (len - N) by lia.
  rewrite (u16_id (tlen pre + N)) by heap_lia.
  destruct (Z.leb_spec (N + min_block) len) as [Hsp|Hsp],
    (Z.leb_spec (N - SIZEOF_STRUCT_MEM + SIZEOF_STRUCT_MEM + MIN_SIZE_ALIGNED) (len - SIZEOF_STRUCT_MEM));
    try heap_lia; [|exists s; by rewrite andb_false_r].
  rewrite !set_lfree_if. set (lf := if _ <? lfree s then _ else _).
  destruct (trim_split s pre len [] post N lf) as (s1 & s2 & H1 & H2 & Hst & Hlf2 & Hr2 & Hsh2);
    [exact Hsh|by left|heap_lia|heap_lia|cbn [tlen]; heap_lia|].
  cbn [tlen] in *. rewrite Z.add_0_r in *. rewrite H1. out_simp. rewrite H2. out_simp. rewrite Hst.
  eexists. split; [|split; [split; [exact Hsh2| |]|done]].
  - rewrite andb_true_r. assert ((tlen pre + len =? MEM_SIZE_ALIGNED) = bool_decide (post = [])) as ->.
    { destruct post as [|[l2 v] post]; cbn [tlen] in *.
      - rewrite bool_decide_eq_true_2 by done. apply Z.eqb_eq. lia.
      - rewrite bool_decide_eq_false_2 by done. apply Z.eqb_neq.
        destruct Hpost as (_ & ? & ?). heap_lia. }
    by destruct (bool_decide (post = [])).
  - cbn [app]. rewrite merged_app in *. apply andb_prop in Hm as [-> Hm]. cbn [merged] in *.
    rewrite orb_true_r in *. cbn [andb orb] in *. by apply Hmp.
  - cbn [lfree set_stats ram]. rewrite Hlf2, Hr2. unfold lf. rewrite Hlf, !first_free_app.
    cbn [first_free app]. rewrite Z.add_0_l. destruct (forallb snd pre) eqn:Hall.
    + apply first_free_range in Htq. rewrite (proj2 (Z.ltb_lt _ _)) by heap_lia. lia.
    + pose proof (first_free_not_all _ _ _ _ _ Htp Hall).
      rewrite (proj2 (Z.ltb_ge _ _)) by heap_lia. done.
Qed.

(** The guards of [mem_trim] on a block in use. *)
Lemma mem_trim_enter s pre len post new_size :
  shape s (pre ++ (len, true) :: post) → is_u16 new_size → clamp new_size ≤ MEM_SIZE_ALIGNED →
  let rmem := ram s + tlen pre + SIZEOF_STRUCT_MEM in
  mem_trim s rmem new_size =
  if len <? SIZEOF_STRUCT_MEM + clamp new_size
  then Ret (NULL, s) ["mem_trim can only shrink memory"%string]
  else if SIZEOF_STRUCT_MEM + clamp new_size =? len then Clean (rmem, s)
  else s ← trim_locked s (ram s + tlen pre) (tlen pre) (len - SIZEOF_STRUCT_MEM) (clamp new_size);
       mret (rmem, s).
Proof.
  intros Hsh Hsz Hcl rmem. destruct (clamp_u16 _ Hsz) as (Hc1 & Hc2 & Hc3).
  pose proof (shape_mid _ _ _ _ _ Hsh) as (Hh & Hmin & Hp & Hq & Hlen).
  unfold mem_trim. rewrite align_size_id, u16_id by done. fold (clamp new_size).
  set (c := clamp new_size) in *. rewrite (i_end _ _ Hsh).
  rewrite (proj2 (Z.ltb_ge MEM_SIZE_ALIGNED c)), (proj2 (Z.ltb_ge c new_size)) by heap_lia.
  rewrite (proj2 (Z.ltb_ge rmem (ram s))), (proj2 (Z.leb_gt (ram s + MEM_SIZE_ALIGNED) rmem)),
    (proj2 (Z.leb_le (ram s) rmem)), (proj2 (Z.ltb_lt rmem (ram s + MEM_SIZE_ALIGNED))) by heap_lia.
  cbn [orb andb]. out_simp. replace (rmem - SIZEOF_STRUCT_MEM) with (ram s + tlen pre) by lia.
  rewrite (mem_to_ptr_off s s) by (done || heap_lia). rewrite (hdr_at_some _ _ _ Hh). out_simp.
  cbn [h_next]. rewrite Z.add_simpl_l, (u16_id len), (u16_id (len - _)) by heap_lia.
  destruct (Z.ltb_spec len (SIZEOF_STRUCT_MEM + c)), (Z.leb_spec c (len - SIZEOF_STRUCT_MEM)),
    (Z.ltb_spec (len - SIZEOF_STRUCT_MEM) c); try lia; [done|]. out_simp.
  destruct (Z.eqb_spec (SIZEOF_STRUCT_MEM + c) len), (Z.eqb_spec c (len - SIZEOF_STRUCT_MEM)); try lia; done.
Qed.

Lemma mem_trim_refines s bs new_size o bs' :
  inv s bs → is_u16 new_size → atrim (clamp new_size) o 0 bs = Some bs' → ∃ s',
    mem_trim s (ram s + o + SIZEOF_STRUCT_MEM) new_size =
      Ret (ram s + o + SIZEOF_STRUCT_MEM, s')
          (if trim_asserts (clamp new_size) o 0 bs then ["invalid next ptr"%string] else []) ∧
    inv s' bs' ∧ ram s' = ram s.
Proof.
  intros Hinv Hsz Ha. pose proof Hinv as [Hsh _ _]. destruct (clamp_u16 _ Hsz) as (Hc1 & Hc2 & Hc3).
  apply atrim_split in Ha as (pre & len & post & -> & -> & Hl & ->). rewrite Z.add_0_l.
  pose proof (shape_mid _ _ _ _ _ Hsh) as (_ & Hmin & Hp & Hq & Hlen).
  pose proof (i_tiles _ _ Hsh) as Ht. apply tiles_mid in Ht as (Htp & _).
  pose proof (trim_asserts_app _ _ (clamp new_size) 0 0 pre len post Htp) as Has.
  rewrite Z.add_0_l in Has. rewrite Has, (mem_trim_enter s pre len post) by (done || heap_lia).
  rewrite (proj2 (Z.ltb_ge len _)) by done.
  destruct (Z.eqb_spec (SIZEOF_STRUCT_MEM + clamp new_size) len) as [Heq|Hne].
  { rewrite Heq, trim_tail_id, (proj2 (Z.leb_gt _ len)) by heap_lia.
    exists s. split; [by destruct post|done]. }
  set (N := SIZEOF_STRUCT_MEM + clamp new_size) in *.
  replace (clamp new_size) with (N - SIZEOF_STRUCT_MEM) by lia.
  assert ((∃ l2 post', post = (l2, false) :: post') ∨ ¬ ∃ l2 post', post = (l2, false) :: post')
    as [(l2 & post' & ->)|Hnf].
  { destruct post as [|[l2 [|]] post']; [right|right|left; eauto]; by intros (? & ? & ?). }
  - destruct (trim_locked_free s pre len l2 post' N Hinv) as (s' & -> & Hinv' & Hr); [heap_lia..|].
    by exists s'.
  - destruct (trim_locked_used s pre len post N Hinv) as (s' & -> & Hinv' & Hr); [heap_lia|heap_lia|done|].
    exists s'. split; [|done]. cbn. rewrite app_nil_r. by destruct post.
Qed.

(** ** The heap's own sanity check *)

Lemma align_id z : LWIP_MEM_ALIGN z = z.
Proof. apply align_size_id. Qed.

Lemma sanity_loop_spec post pre fuel s :
  shape s (pre ++ post) → pre ≠ [] → merged (last_used true pre) post = true →
  (length post < fuel)%nat →
  sanity_loop fuel s (ram s + tlen pre) (if last_used true pre then 1 else 0)
  = Clean (ram s + MEM_SIZE_ALIGNED).
Proof.
  revert pre fuel. induction post as [|[len u] post IH]; intros pre [|fuel] Hsh Hne Hm Hf; [lia| |lia|];
    cbn [sanity_loop length] in *; rewrite (i_end _ _ Hsh).
  - rewrite app_nil_r in Hsh. rewrite (i_len _ _ Hsh), Z.ltb_irrefl, andb_false_r. done.
  - pose proof (shape_mid _ _ _ _ _ Hsh) as (Hh & Hmin & Hp & Hq & Hlen).
    pose proof (i_tiles _ _ Hsh) as Ht. apply tiles_mid in Ht as (Htp & _).
    pose proof (tiles_length _ _ _ _ _ Htp) as Hpl. apply last_off_bounds in Htp as [Hlo _]; [|lia].
    assert (0 < tlen pre) by (destruct pre; [done|]; cbn [length] in Hpl; heap_lia).
    rewrite !(proj2 (Z.ltb_lt _ _)) by heap_lia. cbn [andb].
    rewrite (hdr_at_some _ _ _ Hh). out_simp. cbn [h_prev h_next h_used].
    rewrite align_id, Z.eqb_refl, !(proj2 (Z.leb_le _ _)) by heap_lia. out_simp.
    rewrite (mem_link_valid_spec _ _ _ _ _ Hsh). out_simp.
    cbn [merged] in Hm. apply andb_prop in Hm as [Hu Hm].
    specialize (IH (pre ++ [(len, u)]) fuel). unfold last_used in IH. rewrite last_snoc in IH.
    cbn [from_option snd] in IH. rewrite <- (assoc_L app), tlen_app in IH. cbn [app tlen] in IH.
    rewrite Z.add_0_r in IH. unfold ptr_to_mem.
    destruct (last_used true pre), u; try done; cbn [Z.eqb orb]; out_simp;
      (apply IH; [done|by destruct pre|done|lia]).
Qed.

Lemma mem_sanity_inv s bs : inv s bs → mem_sanity s = Clean tt.
Proof.
  intros [Hsh Hm _]. pose proof Hsh as [Ht Hlen He Hh _ _ _].
  destruct bs as [|[len u] bs]; [cbn [tlen] in Hlen; heap_lia|].
  pose proof (shape_mid s [] len u bs Hsh) as (H1 & Hmin & _ & Hq & Hl). cbn [tlen last_off] in *.
  rewrite !Z.add_0_l, ?Z.add_0_r in *. unfold mem_sanity. rewrite (hdr_at_some _ _ _ H1). out_simp.
  cbn [h_used h_prev h_next]. rewrite (proj2 (Z.leb_le _ _)) by lia.
  assert (((if u then 1 else 0) =? 0) || ((if u then 1 else 0) =? 1) = true) as -> by (by destruct u).
  cbn [Z.eqb]. out_simp.
  pose proof (sanity_loop_spec bs [(len, u)] walk_fuel s Hsh) as Hloop.
  cbn [tlen] in Hloop. rewrite Z.add_0_r in Hloop. unfold last_used in Hloop.
  cbn [last from_option snd] in Hloop. unfold ptr_to_mem.
  rewrite Hloop; [|done| |].
  - out_simp. rewrite (hdr_at_some _ _ _ Hh). out_simp. cbn [h_used h_prev h_next].
    rewrite !Z.eqb_refl. done.
  - cbn [merged] in Hm. by apply andb_prop in Hm as [_ ->].
  - pose proof (shape_walk_fuel _ _ Hsh) as Hf. cbn [length] in Hf. lia.
Qed.

(** ** Initialisation *)

Lemma mem_init_inv s hp : 0 < hp → mstats s = stats_zero → ∃ s',
  mem_init s hp = Clean s' ∧ inv s' [(MEM_SIZE_ALIGNED, false)] ∧ ram s' = hp.
Proof.
  intros Hhp Hst. unfold mem_init. change (Z.land SIZEOF_STRUCT_MEM (MEM_ALIGNMENT - 1) =? 0) with true.
  out_simp. rewrite align_id. eexists. split; [done|]. split; [|done]. split.
  - split; cbn [hdrs ram ram_end lfree mstats]; try done.
    + cbn [tiles]. rewrite Z.add_0_r, lookup_put_far, lookup_put_eq by heap_lia. repeat split; heap_lia.
    + apply lookup_put_eq.
    + rewrite !mstats_put, Hst. done.
    + rewrite !mstats_put, Hst. unfold stats_wf. cbn. repeat split; try done; apply u16_range.
  - done.
  - cbn [lfree ram first_free]. lia.
Qed.

(** ** Live blocks *)

Definition lens_ok (bs : list (Z * bool)) : Prop := Forall (λ b, min_block ≤ b.1) bs.

Lemma tiles_lens m base off prev bs : tiles m base off prev bs → lens_ok bs.
Proof.
  revert off prev. induction bs as [|[len u] bs IH]; intros off prev; cbn [tiles]; constructor.
  - tauto.
  - eapply IH. apply H.
Qed.

Lemma live_app off xs ys : live off (xs ++ ys) = live off xs ++ live (off + tlen xs) ys.
Proof.
  revert off. induction xs as [|[len u] xs IH]; intros off; cbn [app live tlen].
  - by rewrite Z.add_0_r.
  - by rewrite IH, Z.add_assoc, (assoc_L app).
Qed.

Lemma lens_tlen bs : lens_ok bs → 0 ≤ tlen bs.
Proof. induction 1 as [|[len u] bs H _ IH]; cbn [tlen fst] in *; heap_lia. Qed.

Lemma live_bounds off bs p n : lens_ok bs → (p, n) ∈ live off bs →
  off + SIZEOF_STRUCT_MEM ≤ p ∧ p + n ≤ off + tlen bs ∧ MIN_SIZE_ALIGNED ≤ n.
Proof.
  intros Hl. revert off. induction Hl as [|[len u] bs H Hl IH]; intros off; cbn [live tlen fst] in *.
  { by intros ?%elem_of_nil. }
  pose proof (lens_tlen _ Hl). rewrite elem_of_app. intros [Hin|Hin].
  - destruct u; [|by apply elem_of_nil in Hin]. apply list_elem_of_singleton in Hin as [= -> ->]. heap_lia.
  - apply IH in Hin. heap_lia.
Qed.

(** Live blocks are in address order and a header apart. *)
Lemma live_sorted off bs : lens_ok bs →
  StronglySorted (λ a b, a.1 + a.2 + SIZEOF_STRUCT_MEM ≤ b.1) (live off bs).
Proof.
  intros Hl. revert off. induction Hl as [|[len u] bs H Hl IH]; intros off; cbn [live fst] in *.
  { constructor. }
  destruct u; [|apply IH]. cbn [app]. constructor; [apply IH|].
  apply Forall_forall. intros [p n] Hin. apply live_bounds in Hin; [|done]. cbn [fst snd]. heap_lia.
Qed.

Lemma StronglySorted_perm {A} (R : A → A → Prop) l l' :
  (∀ a b, R a b → R b a) → l ≡ₚ l' → StronglySorted R l → StronglySorted R l'.
Proof.
  intros Hsym. induction 1 as [|a l l' Hp IH|a b l|l1 l2 l3 _ IH1 _ IH2]; [done|..]; intros Hs.
  - apply StronglySorted_inv in Hs as [Hs Ha]. constructor; [by apply IH|]. by rewrite <- Hp.
  - apply StronglySorted_inv in Hs as [[Hs Ha]%StronglySorted_inv [Hba Hb]%Forall_cons].
    constructor; [by constructor|]. constructor; auto.
  - auto.
Qed.

(** Two entries of the live list do not overlap. *)
Lemma live_perm_disjoint bs p n q m rest : lens_ok bs →
  live 0 bs ≡ₚ (p, n) :: rest → (q, m) ∈ rest → q + m ≤ p ∨ p + n ≤ q.
Proof.
  intros Hl Hperm Hin.
  set (R := λ a b : Z * Z, b.1 + b.2 ≤ a.1 ∨ a.1 + a.2 ≤ b.1).
  assert (StronglySorted R (live 0 bs)) as Hs.
  { clear Hperm. pose proof (live_sorted 0 bs Hl) as Hs.
    induction Hs as [|a l Hs IH Hall]; constructor; [done|].
    eapply Forall_impl; [exact Hall|]. intros b Hb. unfold R. cbn in Hb. heap_lia. }
  apply (StronglySorted_perm R _ _) in Hperm; [|unfold R; tauto|done].
  apply StronglySorted_inv in Hperm as [_ Hall]. rewrite Forall_forall in Hall.
  exact (Hall _ Hin).
Qed.

Lemma live_join off len post : live off (join len post) = live (off + len) post.
Proof. destruct post as [|[l [|]] post]; cbn [join live app]; [done..|]. by rewrite Z.add_assoc. Qed.

Lemma live_jback off pre b len post : b = join len post →
  live off (jback pre b) = live off pre ++ live (off + tlen pre + len) post.
Proof.
  intros ->. destruct pre as [|[l [|]] pre _] using rev_ind.
  - cbn [jback live tlen app]. by rewrite live_join, Z.add_0_r.
  - rewrite jback_snoc, !live_app, tlen_app. cbn [live tlen app].
    rewrite live_join, Z.add_0_r, <- !(assoc_L app). cbn [app]. by rewrite Z.add_assoc.
  - rewrite jback_snoc, !live_app, tlen_app. cbn [live tlen app].
    destruct (join_cons len post) as (len' & post' & Hj & _).
    rewrite live_join, live_join, !Z.add_0_r, app_nil_r. by rewrite !Z.add_assoc.
Qed.

Lemma afree_live o bs p n : lens_ok bs → (p, n) ∈ live o bs →
  ∃ bs', afree (p - SIZEOF_STRUCT_MEM) o bs = Some bs'.
Proof.
  intros Hl. revert o. induction Hl as [|[len u] bs H Hl IH]; intros o; cbn [live fst afree] in *.
  { by intros ?%elem_of_nil. }
  rewrite elem_of_app. intros [Hin|Hin].
  - destruct u; [|by apply elem_of_nil in Hin]. apply list_elem_of_singleton in Hin as [= -> ->].
    rewrite (proj2 (Z.eqb_eq _ _)) by lia. eauto.
  - pose proof (live_bounds _ _ _ _ Hl Hin). rewrite (proj2 (Z.eqb_neq _ _)) by heap_lia.
    destruct (IH _ Hin) as [bs' ->]. cbn. eauto.
Qed.

Lemma afree_live_perm o bs bs' : merged true bs = true → afree o 0 bs = Some bs' →
  ∃ n, live 0 bs ≡ₚ (o + SIZEOF_STRUCT_MEM, n) :: live 0 bs'.
Proof.
  intros Hm Ha. apply (afree_split _ _ _ _ true) in Ha as (pre & len & post & -> & -> & ->); [|done].
  exists (len - SIZEOF_STRUCT_MEM). rewrite live_app, (live_jback _ _ _ len post) by done.
  cbn [live app]. by rewrite Permutation_middle.
Qed.

Lemma amalloc_live size bs o bs' : amalloc size 0 bs = Some (o, bs') →
  ∃ n, size ≤ n ∧ live 0 bs' ≡ₚ (o + SIZEOF_STRUCT_MEM, n) :: live 0 bs.
Proof.
  intros (pre & len & post & -> & -> & Hl & ->)%amalloc_split. rewrite Z.add_0_l.
  destruct (_ <=? len) eqn:E.
  - exists size. split; [done|]. rewrite !live_app, !Z.add_0_l. cbn [live app tlen].
    replace (SIZEOF_STRUCT_MEM + size - SIZEOF_STRUCT_MEM) with size by lia.
    replace (SIZEOF_STRUCT_MEM + size + (len - (SIZEOF_STRUCT_MEM + size) + 0)) with len by lia.
    by rewrite Permutation_middle.
  - exists (len - SIZEOF_STRUCT_MEM). split; [lia|]. rewrite !live_app, !Z.add_0_l. cbn [live app tlen].
    by rewrite Z.add_0_r, Permutation_middle.
Qed.

(** First fit fails only when no free block is large enough. *)
Lemma amalloc_none size off bs : amalloc size off bs = None →
  Forall (λ b, b.2 = false → b.1 < SIZEOF_STRUCT_MEM + size) bs.
Proof.
  revert off. induction bs as [|[len u] bs IH]; intros off; [constructor|]. cbn [amalloc].
  destruct (negb u && (SIZEOF_STRUCT_MEM + size <=? len)) eqn:E.
  { destruct (SIZEOF_STRUCT_MEM + size + min_block <=? len); done. }
  intros Ha. constructor.
  - cbn. intros ->. cbn [negb andb] in E. apply Z.leb_gt in E. lia.
  - apply (IH (off + len)). destruct (amalloc _ _ _) as [[]|]; done.
Qed.

(** A heap with no live block is one free block: nothing is lost to fragmentation. *)
Lemma no_live_one_block off bs : lens_ok bs → merged true bs = true → live off bs = [] →
  bs = [] ∨ bs = [(tlen bs, false)].
Proof.
  intros Hl Hm Hlive. destruct bs as [|[len [|]] bs]; [by left|done|]. right.
  destruct bs as [|[len2 [|]] bs]; cbn in *; [|done|done]. by rewrite Z.add_0_r.
Qed.

(** ** Client operations *)

Inductive heap_ev :=
| HMalloc (n : Z)
| HFree (p : Z)
| HTrim (p n : Z)
| HWrite (a : Z) (h : hdr)  (** store six bytes at [a]; read as a header they are [h] *)
| HSanity.

Definition hexec (s : heap) (e : heap_ev) : out (Z * heap) :=
  match e with
  | HMalloc n => mem_malloc s n
  | HFree p => s ← mem_free s p; mret (0, s)
  | HTrim p n => mem_trim s p n
  | HWrite a h => mret (0, put s a h)
  | HSanity => _ ← mem_sanity s; mret (0, s)
  end.

Fixpoint hrun (s : heap) (es : list heap_ev) : out (list Z * heap) :=
  match es with
  | [] => mret ([], s)
  | e :: es => '(r, s) ← hexec s e; '(rs, s) ← hrun s es; mret (r :: rs, s)
  end.

(** The specification; [base] is the address of the heap.  [None]: the client broke
    its contract (a bad pointer, a size that does not fit, a stray write). *)
Definition ahexec (base : Z) (bs : list (Z * bool)) (e : heap_ev)
  : option (Z * list (Z * bool) * list string) :=
  match e with
  | HMalloc n =>
      if negb (bool_decide (is_u16 n)) then None
      else match (if (n =? 0) || (MEM_SIZE_ALIGNED <? n) then None else amalloc (clamp n) 0 bs) with
           | Some (o, bs') => Some (base + o + SIZEOF_STRUCT_MEM, bs', [])
           | None => Some (NULL, bs, [])
           end
  | HFree p =>
      if p =? NULL then Some (0, bs, [])
      else bs' ← afree (p - base - SIZEOF_STRUCT_MEM) 0 bs; Some (0, bs', [])
  | HTrim p n =>
      if negb (bool_decide (is_u16 n)) then None
      else
        let o := p - base - SIZEOF_STRUCT_MEM in
        bs' ← atrim (clamp n) o 0 bs;
        Some (p, bs', if trim_asserts (clamp n) o 0 bs then ["invalid next ptr"%string] else [])
  | HWrite a h =>
      if existsb (λ '(p, n), (base + p <=? a) && (a + SIZEOF_STRUCT_MEM <=? base + p + n)) (live 0 bs)
      then Some (0, bs, []) else None
  | HSanity => Some (0, bs, [])
  end.

Fixpoint ahrun (base : Z) (bs : list (Z * bool)) (es : list heap_ev)
  : option (list Z * list (Z * bool) * list string) :=
  match es with
  | [] => Some ([], bs, [])
  | e :: es =>
      '(r, bs, log) ← ahexec base bs e;
      '(rs, bs, log') ← ahrun base bs es;
      Some (r :: rs, bs, log ++ log')
  end.

Lemma tiles_live_write m base off prev bs p n a h s :
  m = hdrs s → tiles m base off prev bs → (p, n) ∈ live off bs →
  base + p ≤ a → a + SIZEOF_STRUCT_MEM ≤ base + p + n → tiles (hdrs (put s a h)) base off prev bs.
Proof.
  intros -> Ht Hin Ha1 Ha2. revert off prev Ht Hin.
  induction bs as [|[len u] bs IH]; intros off prev; cbn [tiles live]; [done|].
  intros (Hh & Hl & Ht) [Hin|Hin]%elem_of_app.
  - destruct u; [|by apply elem_of_nil in Hin]. apply list_elem_of_singleton in Hin as [= -> ->].
    rewrite lookup_put_far by heap_lia. split; [done|]. split; [done|].
    apply (tiles_ext (hdrs s)); [|done]. intros k H1 H2. apply lookup_put_far. heap_lia.
  - pose proof (live_bounds _ _ _ _ (tiles_lens _ _ _ _ _ Ht) Hin).
    rewrite lookup_put_far by heap_lia. split; [done|]. split; [done|]. by apply IH.
Qed.

(** The contents of a live block do not matter to the allocator. *)
Lemma inv_write s bs p n a h : inv s bs → (p, n) ∈ live 0 bs →
  ram s + p ≤ a → a + SIZEOF_STRUCT_MEM ≤ ram s + p + n → inv (put s a h) bs.
Proof.
  intros [[Ht Hlen He Hh Hu Hs Hr] Hm Hlf] Hin Ha1 Ha2.
  pose proof (live_bounds _ _ _ _ (tiles_lens _ _ _ _ _ Ht) Hin) as Hb.
  split; [|done|done]. split; try done.
  - by eapply tiles_live_write.
  - rewrite ram_put, lookup_put_far; [done|heap_lia].
Qed.

Lemma hexec_refines s bs e r bs' log :
  inv s bs → ahexec (ram s) bs e = Some (r, bs', log) → ∃ s',
    hexec s e = Ret (r, s') log ∧ inv s' bs' ∧ ram s' = ram s.
Proof.
  intros Hinv. destruct e as [n|p|p n|a h|]; cbn [ahexec hexec].
  - case_bool_decide as Hn; [|done]. cbn [negb]. destruct (Z.eqb_spec n 0) as [->|Hn0]; cbn [orb].
    { intros [= <- <- <-]. exists s. split; [reflexivity|done]. }
    pose proof (mem_malloc_refines s bs n Hinv Hn Hn0) as Hmm.
    destruct (Z.ltb_spec MEM_SIZE_ALIGNED n), (Z.leb_spec n MEM_SIZE_ALIGNED); try lia.
    + intros [= <- <- <-]. exact Hmm.
    + destruct (amalloc (clamp n) 0 bs) as [[o bs1]|]; intros [= <- <- <-]; exact Hmm.
  - destruct (Z.eqb_spec p NULL) as [->|Hp].
    { intros [= <- <- <-]. exists s. split; [reflexivity|done]. }
    intros (bs1 & Ha & [= <- <- <-])%bind_Some.
    destruct (mem_free_refines _ _ _ _ Hinv Ha) as (s' & Hf & Hinv' & Hr & _).
    replace (ram s + (p - ram s - SIZEOF_STRUCT_MEM) + SIZEOF_STRUCT_MEM) with p in Hf by lia.
    exists s'. rewrite Hf. done.
  - case_bool_decide as Hn; [|done]. cbn [negb].
    intros (bs1 & Ha & [= <- <- <-])%bind_Some.
    destruct (mem_trim_refines _ _ _ _ _ Hinv Hn Ha) as (s' & Hf & Hinv' & Hr).
    replace (ram s + (p - ram s - SIZEOF_STRUCT_MEM) + SIZEOF_STRUCT_MEM) with p in Hf by lia.
    exists s'. done.
  - destruct (existsb _ _) eqn:E; [|done]. intros [= <- <- <-].
    apply existsb_exists in E as ([p n] & Hin%list_elem_of_In & [H1%Z.leb_le H2%Z.leb_le]%andb_prop).
    exists (put s a h). split; [done|]. split; [|done]. by apply inv_write with p n.
  - intros [= <- <- <-]. rewrite (mem_sanity_inv _ _ Hinv). exists s. split; [reflexivity|done].
Qed.

Lemma hrun_refines es s bs rs bs' log :
  inv s bs → ahrun (ram s) bs es = Some (rs, bs', log) → ∃ s',
    hrun s es = Ret (rs, s') log ∧ inv s' bs' ∧ ram s' = ram s.
Proof.
  revert s bs rs log. induction es as [|e es IH]; intros s bs rs log Hinv; cbn [ahrun hrun].
  { intros [= <- <- <-]. by exists s. }
  intros ([[r bs1] log1] & He & ([[rs1 bs2] log2] & Hrun & [= <- <- <-])%bind_Some)%bind_Some.
  destruct (hexec_refines _ _ _ _ _ _ Hinv He) as (s1 & -> & Hinv1 & Hr1).
  rewrite <- Hr1 in Hrun. destruct (IH _ _ _ _ Hinv1 Hrun) as (s2 & Hr & Hinv2 & Hr2).
  exists s2. split; [|split; [done|congruence]]. cbn. rewrite Hr. cbn. by rewrite app_nil_r.
Qed.

Lemma mem_malloc_refines_cases s bs n :
  inv s bs → is_u16 n → ∃ r s' bs',
    mem_malloc s n = Clean (r, s') ∧ inv s' bs' ∧ ram s' = ram s ∧
    (r = NULL → live 0 bs' = live 0 bs) ∧
    (r ≠ NULL → ∃ cap, n ≤ cap ∧ live 0 bs' ≡ₚ (r - ram s, cap) :: live 0 bs).
Proof.
  intros Hinv Hn. destruct (decide (n = 0)) as [->|Hn0]; [by exists NULL, s, bs|].
  pose proof (mem_malloc_refines s bs n Hinv Hn Hn0) as Hmm.
  destruct (if n <=? MEM_SIZE_ALIGNED then amalloc (clamp n) 0 bs else None) as [[o bs']|] eqn:Ha;
    destruct Hmm as (s' & Hm & Hinv' & Hr).
  - destruct (n <=? MEM_SIZE_ALIGNED); [|done].
    destruct (amalloc_live _ _ _ _ Ha) as (cap & Hcap & Hperm).
    destruct (clamp_u16 _ Hn) as (_ & _ & Hc).
    exists (ram s + o + SIZEOF_STRUCT_MEM), s', bs'. split; [done|]. split; [done|]. split; [done|].
    pose proof (i_ram _ _ (i_shape _ _ Hinv)) as Hram.
    assert ((o + SIZEOF_STRUCT_MEM, cap) ∈ live 0 bs') as Hin by (rewrite Hperm; by left).
    apply live_bounds in Hin; [|by eapply tiles_lens, (i_tiles _ _ (i_shape _ _ Hinv'))].
    split; [heap_lia|]. intros _. exists cap. split; [lia|].
    by replace (ram s + o + SIZEOF_STRUCT_MEM - ram s) with (o + SIZEOF_STRUCT_MEM) by lia.
  - by exists NULL, s', bs.
Qed.

(** ** Main theorems *)

(** C4: after [mem_init], every sequence of client calls that respects the contract
    (sizes in range, pointers to live blocks, stores inside live blocks) returns
    what the list-of-blocks specification returns, never touches a header it does
    not know, fails no assertion other than the last-block one of [mem_trim], and
    the heap's own [mem_sanity] passes whenever it is called. *)
Theorem mem_refines s hp es rs bs' log :
  0 < hp → mstats s = stats_zero →
  ahrun hp [(MEM_SIZE_ALIGNED, false)] es = Some (rs, bs', log) →
  ∃ s0 s', mem_init s hp = Clean s0 ∧ hrun s0 es = Ret (rs, s') log ∧
    inv s' bs' ∧ mem_sanity s' = Clean tt.
Proof.
  intros Hhp Hst Hrun. destruct (mem_init_inv s hp Hhp Hst) as (s0 & -> & Hinv & Hr).
  rewrite <- Hr in Hrun. destruct (hrun_refines _ _ _ _ _ _ Hinv Hrun) as (s' & Hr' & Hinv' & _).
  exists s0, s'. split; [done|]. split; [done|]. split; [done|]. by apply mem_sanity_inv with bs'.
Qed.

(** [mem_malloc] is a correct first-fit allocator: it returns either NULL, only
    when the request is 0, exceeds the heap, or no free block can hold it, or a
    block of at least the requested size that lies inside the heap and overlaps
    no live block; every other live block is left alone. *)
Theorem mem_malloc_spec s bs n :
  inv s bs → is_u16 n → ∃ r s' bs',
    mem_malloc s n = Clean (r, s') ∧ inv s' bs' ∧ ram s' = ram s ∧
    (r = NULL → live 0 bs' = live 0 bs ∧
       (n = 0 ∨ MEM_SIZE_ALIGNED < n ∨
        Forall (λ b, b.2 = false → b.1 < SIZEOF_STRUCT_MEM + clamp n) bs)) ∧
    (r ≠ NULL → ∃ cap, n ≤ cap ∧ live 0 bs' ≡ₚ (r - ram s, cap) :: live 0 bs ∧
       0 ≤ r - ram s ∧ r - ram s + cap ≤ MEM_SIZE_ALIGNED ∧
       ∀ p m, (p, m) ∈ live 0 bs → p + m ≤ r - ram s ∨ r - ram s + cap ≤ p).
Proof.
  intros Hinv Hn. destruct (decide (n = 0)) as [->|Hn0].
  { exists NULL, s, bs. split; [done|]. split; [done|]. split; [done|]. split; [|done]. auto. }
  pose proof (mem_malloc_refines s bs n Hinv Hn Hn0) as Hmm.
  destruct (Z.leb_spec n MEM_SIZE_ALIGNED) as [Hle|Hgt].
  2:{ destruct Hmm as (s' & Hm & Hinv' & Hr). exists NULL, s', bs. split; [done|]. split; [done|]. split; [done|].
      split; [|done]. auto. }
  destruct (amalloc (clamp n) 0 bs) as [[o bs']|] eqn:Ha; destruct Hmm as (s' & Hm & Hinv' & Hr).
  - exists (ram s + o + SIZEOF_STRUCT_MEM), s', bs'. split; [done|]. split; [done|]. split; [done|].
    destruct (amalloc_live _ _ _ _ Ha) as (cap & Hcap & Hperm).
    destruct (clamp_u16 _ Hn) as (_ & _ & Hc).
    pose proof (i_tiles _ _ (i_shape _ _ Hinv')) as Ht'. pose proof (tiles_lens _ _ _ _ _ Ht') as Hl'.
    assert ((o + SIZEOF_STRUCT_MEM, cap) ∈ live 0 bs') as Hin by (rewrite Hperm; by left).
    pose proof (live_bounds _ _ _ _ Hl' Hin) as Hb. rewrite (i_len _ _ (i_shape _ _ Hinv')) in Hb.
    pose proof (i_ram _ _ (i_shape _ _ Hinv)) as Hram.
    replace (ram s + o + SIZEOF_STRUCT_MEM - ram s) with (o + SIZEOF_STRUCT_MEM) by lia.
    split; [heap_lia|]. intros _. exists cap. split; [lia|]. split; [done|]. split; [heap_lia|].
    split; [heap_lia|]. intros p m Hpm. by eapply live_perm_disjoint.
  - exists NULL, s', bs. split; [done|]. split; [done|]. split; [done|]. split; [|done].
    intros _. split; [done|]. right. right. by eapply amalloc_none.
Qed.

Lemma double_free s p h : 0 < ram s → NULL < p - SIZEOF_STRUCT_MEM →
  ram s ≤ p - SIZEOF_STRUCT_MEM → p + MIN_SIZE_ALIGNED ≤ ram_end s →
  hdrs s !! (p - SIZEOF_STRUCT_MEM) = Some h → h_used h = 0 →
  mem_free s p = Ret (set_stats s (stats_inc_illegal (mstats s)))
                     ["mem_free: illegal memory: double free"%string].
Proof.
  intros Hr Hp H1 H2 Hh Hu. unfold mem_free.
  rewrite (proj2 (Z.eqb_neq p NULL)), land_0_eqb by heap_lia. cbn [negb].
  rewrite !(proj2 (Z.ltb_ge _ _)) by heap_lia. cbn [orb].
  rewrite (hdr_at_some _ _ _ Hh). out_simp. rewrite Hu. done.
Qed.

(** [mem_free] gives back exactly the block it is passed: every other live block
    keeps its place and size, when the last one is gone the heap is a single
    free block again, and freeing the same pointer a second time is detected
    and changes nothing but the illegal-operation counter. *)
Theorem mem_free_spec s bs p n :
  inv s bs → (p, n) ∈ live 0 bs → ∃ s1 bs1,
    mem_free s (ram s + p) = Clean s1 ∧ inv s1 bs1 ∧ ram s1 = ram s ∧
    live 0 bs ≡ₚ (p, n) :: live 0 bs1 ∧
    (live 0 bs1 = [] → bs1 = [(MEM_SIZE_ALIGNED, false)]) ∧
    mem_free s1 (ram s + p) = Ret (set_stats s1 (stats_inc_illegal (mstats s1)))
                                  ["mem_free: illegal memory: double free"%string].
Proof.
  intros Hinv Hin. pose proof Hinv as [[Ht Hlen He _ _ _ Hram] Hm _].
  pose proof (tiles_lens _ _ _ _ _ Ht) as Hl. pose proof (live_bounds _ _ _ _ Hl Hin) as Hb.
  destruct (afree_live 0 bs p n Hl Hin) as [bs1 Ha].
  destruct (mem_free_refines _ _ _ _ Hinv Ha) as (s1 & Hf & Hinv1 & Hr1 & h & Hh & Hu).
  replace (ram s + (p - SIZEOF_STRUCT_MEM) + SIZEOF_STRUCT_MEM) with (ram s + p) in Hf by lia.
  destruct (afree_live_perm _ _ _ Hm Ha) as (n' & Hperm). rewrite Z.sub_add in Hperm.
  assert (n' = n) as ->.
  { assert ((p, n) ∈ (p, n') :: live 0 bs1) as Hin0 by (by rewrite <- Hperm).
    apply elem_of_cons in Hin0 as [Heq|Hin1]; [by injection Heq|].
    pose proof (live_perm_disjoint _ _ _ _ _ _ Hl Hperm Hin1).
    assert ((p, n') ∈ live 0 bs) as Hin' by (rewrite Hperm; by left).
    apply live_bounds in Hin'; [heap_lia|done]. }
  exists s1, bs1. split; [done|]. split; [done|]. split; [done|]. split; [done|].
  pose proof Hinv1 as [[Ht1 Hlen1 He1 _ _ _ Hram1] Hm1 _]. split.
  - intros Hnil. destruct (no_live_one_block 0 bs1 (tiles_lens _ _ _ _ _ Ht1) Hm1 Hnil) as [Hb1|Hb1].
    + rewrite Hb1 in Hlen1. cbn [tlen] in Hlen1. heap_lia.
    + by rewrite Hlen1 in Hb1.
  - replace (ram s + (p - SIZEOF_STRUCT_MEM)) with (ram s + p - SIZEOF_STRUCT_MEM) in Hh by lia.
    apply double_free with h; [done|heap_lia..|done|done].
Qed.

(** pointers that cannot be heap blocks are rejected: [mem_free] of an address
    outside the heap's data area logs the illegal free, counts it and leaves the
    heap unchanged. *)
Theorem mem_free_foreign s bs p :
  inv s bs → p ≠ NULL →
  p < ram s + SIZEOF_STRUCT_MEM ∨ ram s + MEM_SIZE_ALIGNED < p + MIN_SIZE_ALIGNED →
  mem_free s p = Ret (set_stats s (stats_inc_illegal (mstats s)))
                     ["mem_free: illegal memory"%string] ∧
  inv (set_stats s (stats_inc_illegal (mstats s))) bs.
Proof.
  intros Hinv Hp Hout. split.
  - unfold mem_free. rewrite (proj2 (Z.eqb_neq p NULL) Hp), land_0_eqb. cbn [negb].
    rewrite (i_end _ _ (i_shape _ _ Hinv)).
    destruct (Z.ltb_spec (p - SIZEOF_STRUCT_MEM) (ram s)), (Z.ltb_spec (ram s + MEM_SIZE_ALIGNED) (p + MIN_SIZE_ALIGNED));
      try done. lia.
  - apply inv_stats; [done| |done]. apply stats_wf_inc_illegal, (i_stats _ _ (i_shape _ _ Hinv)).
Qed.

Lemma memset0_lookup data p k a : memset0 data p k !! a =
  if decide (p ≤ a < p + Z.of_nat k) then Some 0 else data !! a.
Proof.
  revert data p. induction k as [|k IH]; intros data p; cbn [memset0].
  - by rewrite decide_False by lia.
  - rewrite IH. destruct (decide (a = p)) as [->|Hne].
    + rewrite decide_False, lookup_insert_eq, decide_True by lia. done.
    + rewrite lookup_insert_ne by done.
      destruct (decide (p + 1 ≤ a < p + 1 + Z.of_nat k)).
      * by rewrite decide_True by lia.
      * by rewrite decide_False by lia.
Qed.

(** [mem_calloc] refuses a product that does not fit a [mem_size_t] without touching
    the heap; when it returns a block, the block holds [count * size] bytes, all zero, overlaps no live block,
    and no other byte of memory has changed. *)
Theorem mem_calloc_spec s bs data count size :
  inv s bs → is_u16 count → is_u16 size → ∃ r s' data' bs',
    mem_calloc s data count size = Clean (r, s', data') ∧ inv s' bs' ∧
    (65535 < count * size → r = NULL ∧ s' = s) ∧
    (r = NULL → data' = data ∧ live 0 bs' = live 0 bs) ∧
    (r ≠ NULL → ∃ cap, count * size ≤ cap ∧ live 0 bs' ≡ₚ (r - ram s, cap) :: live 0 bs ∧
       ∀ a, data' !! a = if decide (r ≤ a < r + count * size) then Some 0 else data !! a).
Proof.
  intros Hinv Hc Hs. unfold mem_calloc.
  assert (is_u32 (count * size)) as Hu by (unfold is_u16, is_u32 in *; nia).
  rewrite (u32_id _ Hu). destruct (Z.eqb_spec (u16 (count * size)) (count * size)) as [He|He]; cbn [negb].
  - assert (is_u16 (count * size)) as Hu16 by (rewrite <- He; apply u16_range). rewrite He.
    destruct (mem_malloc_refines_cases s bs (count * size) Hinv Hu16)
      as (r & s' & bs' & -> & Hinv' & _ & Hn & Hnn). out_simp.
    destruct (Z.eqb_spec r NULL) as [->|Hr]; cbn [negb].
    + exists NULL, s', data, bs'. split; [done|]. split; [done|]. split; [unfold is_u16 in *; lia|].
      split; [intros _; split; [done|by apply Hn]|done].
    + exists r, s', (memset0 data r (Z.to_nat (count * size))), bs'. split; [done|]. split; [done|].
      split; [unfold is_u16 in *; lia|]. split; [done|]. intros _.
      destruct (Hnn Hr) as (cap & Hcap & Hperm). exists cap. split; [done|]. split; [done|].
      intros a. rewrite memset0_lookup, Z2Nat.id by (unfold is_u16 in *; lia). done.
  - exists NULL, s, data, bs. split; [done|]. split; [done|]. done.
Qed.

Lemma live_split off bs p n : (p, n) ∈ live off bs → ∃ pre len post,
  bs = pre ++ (len, true) :: post ∧ p = off + tlen pre + SIZEOF_STRUCT_MEM ∧
  n = len - SIZEOF_STRUCT_MEM.
Proof.
  revert off. induction bs as [|[len u] bs IH]; intros off; cbn [live].
  { by intros ?%elem_of_nil. }
  intros [Hin|Hin]%elem_of_app.
  - destruct u; [|by apply elem_of_nil in Hin]. apply list_elem_of_singleton in Hin as [= -> ->].
    exists [], len, bs. cbn [tlen app]. by rewrite Z.add_0_r.
  - destruct (IH _ Hin) as (pre & len1 & post & -> & -> & ->).
    exists ((len, u) :: pre), len1, post. cbn [tlen app]. split; [done|]. split; [lia|done].
Qed.

Lemma atrim_at size off pre len post : lens_ok pre → SIZEOF_STRUCT_MEM + size ≤ len →
  atrim size (off + tlen pre) off (pre ++ (len, true) :: post) =
  Some (pre ++ trim_tail (SIZEOF_STRUCT_MEM + size) len post).
Proof.
  intros Hl Hs. revert off. induction Hl as [|[l u] pre H Hl IH]; intros off; cbn [app atrim tlen fst] in *.
  - rewrite Z.add_0_r, Z.eqb_refl, (proj2 (Z.ltb_ge _ _)) by lia. cbn [negb orb].
    unfold trim_tail. destruct post as [|[l2 [|]] post]; try done; by destruct (_ <=? len).
  - pose proof (lens_tlen _ Hl). rewrite (proj2 (Z.eqb_neq _ _)) by heap_lia.
    rewrite Z.add_assoc, IH. done.
Qed.

Lemma live_trim_tail off new len post : SIZEOF_STRUCT_MEM ≤ new ≤ len → ∃ n',
  new - SIZEOF_STRUCT_MEM ≤ n' ≤ len - SIZEOF_STRUCT_MEM ∧
  live off (trim_tail new len post) = (off + SIZEOF_STRUCT_MEM, n') :: live (off + len) post.
Proof.
  intros Hn.
  assert (∀ k, ∃ n', new - SIZEOF_STRUCT_MEM ≤ n' ≤ len - SIZEOF_STRUCT_MEM ∧
    live off ((new, true) :: (k - new, false) :: post) = (off + SIZEOF_STRUCT_MEM, n') :: live (off + k) post)
    as Hsplit.
  { intros k. exists (new - SIZEOF_STRUCT_MEM). split; [lia|]. cbn [live app].
    by replace (off + new + (k - new)) with (off + k) by lia. }
  assert (∃ n', new - SIZEOF_STRUCT_MEM ≤ n' ≤ len - SIZEOF_STRUCT_MEM ∧
    live off ((len, true) :: post) = (off + SIZEOF_STRUCT_MEM, n') :: live (off + len) post) as Hkeep.
  { exists (len - SIZEOF_STRUCT_MEM). split; [lia|done]. }
  unfold trim_tail. destruct post as [|[l2 [|]] post].
  - by destruct (_ <=? len).
  - by destruct (_ <=? len).
  - exists (new - SIZEOF_STRUCT_MEM). split; [lia|]. cbn [live app].
    by replace (off + new + (len - new + l2)) with (off + len + l2) by lia.
Qed.

Lemma mem_trim_live s bs p n new_size :
  inv s bs → (p, n) ∈ live 0 bs → is_u16 new_size → clamp new_size ≤ n →
  ∃ s' bs' n' rest log,
    mem_trim s (ram s + p) new_size = Ret (ram s + p, s') log ∧ inv s' bs' ∧ ram s' = ram s ∧
    new_size ≤ n' ≤ n ∧ live 0 bs ≡ₚ (p, n) :: rest ∧ live 0 bs' ≡ₚ (p, n') :: rest ∧
    (log = [] ∨ p + n = MEM_SIZE_ALIGNED ∧ log = ["invalid next ptr"%string]).
Proof.
  intros Hinv Hin Hsz Hle. destruct (clamp_u16 _ Hsz) as (_ & Hc2 & Hc3).
  destruct (live_split _ _ _ _ Hin) as (pre & len & post & -> & -> & ->). rewrite Z.add_0_l in *.
  pose proof (i_tiles _ _ (i_shape _ _ Hinv)) as Ht. apply tiles_mid in Ht as (Htp & _).
  pose proof (trim_asserts_app _ _ (clamp new_size) 0 0 pre len post Htp) as Has.
  rewrite Z.add_0_l in Has. apply tiles_lens in Htp.
  pose proof (atrim_at (clamp new_size) 0 pre len post Htp) as Ha. rewrite Z.add_0_l in Ha.
  destruct (mem_trim_refines _ _ _ _ _ Hinv Hsz (Ha ltac:(lia))) as (s' & Hm & Hinv' & Hr).
  rewrite <- Z.add_assoc in Hm.
  destruct (live_trim_tail (tlen pre) (SIZEOF_STRUCT_MEM + clamp new_size) len post) as (n' & Hn' & Hlive);
    [heap_lia|].
  exists s'. eexists _, n', (live 0 pre ++ live (tlen pre + len) post), _.
  split; [exact Hm|]. split; [exact Hinv'|]. split; [done|]. split; [lia|].
  rewrite !live_app, !Z.add_0_l, Hlive. cbn [live app]. rewrite !Permutation_middle.
  split; [done|]. split; [done|]. rewrite Has.
  destruct post as [|b post]; [|by left]. destruct (_ <=? len); [right|by left]. split; [|done].
  pose proof (i_len _ _ (i_shape _ _ Hinv)) as Hlen. rewrite tlen_app in Hlen. cbn [tlen] in Hlen. lia.
Qed.

(** [mem_trim] shrinks a live block in place: the pointer is returned, the block
    keeps at least the requested size and does not grow, every other live block is
    unchanged, and no assertion fails unless the block is the last of the heap
    (where the assertion on [mem->next] fires although nothing is wrong). *)
Theorem mem_trim_spec s bs p n new_size :
  inv s bs → (p, n) ∈ live 0 bs → is_u16 new_size → clamp new_size ≤ n →
  ∃ s' bs' n' rest log,
    mem_trim s (ram s + p) new_size = Ret (ram s + p, s') log ∧ inv s' bs' ∧
    new_size ≤ n' ≤ n ∧ live 0 bs ≡ₚ (p, n) :: rest ∧ live 0 bs' ≡ₚ (p, n') :: rest ∧
    (log = [] ∨ p + n = MEM_SIZE_ALIGNED ∧ log = ["invalid next ptr"%string]).
Proof.
  intros Hinv Hin Hsz Hle.
  destruct (mem_trim_live s bs p n new_size Hinv Hin Hsz Hle)
    as (s' & bs' & n' & rest & log & Hm & Hinv' & _ & H). exists s', bs', n', rest, log. done.
Qed.

(** ** The heap as its clients see it *)

Definition heap_live (base : Z) (s : heap) (L : gmap Z Z) : Prop :=
  ∃ bs, inv s bs ∧ ram s = base ∧ ∀ p n, L !! p = Some n ↔ (p - base, n) ∈ live 0 bs.

Lemma inv_lens s bs : inv s bs → lens_ok bs.
Proof. intros [[Ht _ _ _ _ _ _] _ _]. by eapply tiles_lens. Qed.

(** An offset determines the size of the live block there. *)
Lemma live_fun bs p n m rest : lens_ok bs → live 0 bs ≡ₚ (p, n) :: rest → (p, m) ∉ rest.
Proof.
  intros Hl Hperm Hin. pose proof (live_perm_disjoint _ _ _ _ _ _ Hl Hperm Hin).
  assert ((p, n) ∈ live 0 bs) as H1 by (rewrite Hperm; by left).
  assert ((p, m) ∈ live 0 bs) as H2 by (rewrite Hperm; by right).
  apply live_bounds in H1, H2; [|done..]. heap_lia.
Qed.

Lemma heap_live_malloc base s L n : heap_live base s L → is_u16 n → ∃ r s',
  mem_malloc s n = Clean (r, s') ∧
  ((r = NULL ∧ heap_live base s' L) ∨
   (0 < r ∧ ∃ cap, n ≤ cap ∧ heap_live base s' (<[r:=cap]> L) ∧
      ∀ q m, L !! q = Some m → q + m ≤ r ∨ r + cap ≤ q)).
Proof.
  intros (bs & Hinv & <- & HL) Hn.
  destruct (mem_malloc_refines_cases s bs n Hinv Hn) as (r & s' & bs' & Hm & Hinv' & Hr' & H0 & H1).
  exists r, s'. split; [done|]. destruct (decide (r = NULL)) as [->|Hr].
  - left. split; [done|]. exists bs'. split; [done|]. split; [done|]. rewrite H0 by done. exact HL.
  - right. destruct (H1 Hr) as (cap & Hcap & Hperm).
    assert ((r - ram s, cap) ∈ live 0 bs') as Hin by (rewrite Hperm; by left).
    pose proof (live_bounds _ _ _ _ (inv_lens _ _ Hinv') Hin) as Hb.
    pose proof (i_ram _ _ (i_shape _ _ Hinv)) as Hram. split; [heap_lia|].
    exists cap. split; [done|]. split.
    + exists bs'. split; [done|]. split; [done|]. intros p m. rewrite Hperm, elem_of_cons.
      destruct (decide (p = r)) as [->|Hne].
      * rewrite lookup_insert_eq. split; [intros [= ->]; by left|]. intros [[= ->]|Hin']; [done|].
        exfalso. by eapply (live_fun bs' _ _ _ _ (inv_lens _ _ Hinv') Hperm).
      * rewrite lookup_insert_ne, HL by done. split; [by right|]. intros [[= ? ?]|?]; [lia|done].
    + intros q m Hq%HL.
      pose proof (live_perm_disjoint _ _ _ _ _ _ (inv_lens _ _ Hinv') Hperm Hq). lia.
Qed.

Lemma heap_live_free base s L p n : heap_live base s L → L !! p = Some n → ∃ s',
  mem_free s p = Clean s' ∧ heap_live base s' (delete p L).
Proof.
  intros (bs & Hinv & <- & HL) Hp. apply HL in Hp as Hin.
  destruct (afree_live 0 bs _ n (inv_lens _ _ Hinv) Hin) as [bs1 Ha].
  destruct (mem_free_refines _ _ _ _ Hinv Ha) as (s1 & Hf & Hinv1 & Hr1 & _).
  replace (ram s + (p - ram s - SIZEOF_STRUCT_MEM) + SIZEOF_STRUCT_MEM) with p in Hf by lia.
  exists s1. split; [done|]. exists bs1. split; [done|]. split; [done|].
  destruct (afree_live_perm _ _ _ (i_merged _ _ Hinv) Ha) as (n' & Hperm). rewrite Z.sub_add in Hperm.
  intros q m. destruct (decide (q = p)) as [->|Hne].
  - rewrite lookup_delete_eq. split; [done|]. intros Hq.
    exfalso. by eapply (live_fun bs _ _ _ _ (inv_lens _ _ Hinv) Hperm).
  - rewrite lookup_delete_ne, HL, Hperm, elem_of_cons by done.
    split; [intros [[= ? ?]|?]; [lia|done]|by right].
Qed.

Lemma heap_live_trim base s L p n k : heap_live base s L → L !! p = Some n → is_u16 k → k ≤ n →
  ∃ s' n' log, mem_trim s p k = Ret (p, s') log ∧ k ≤ n' ≤ n ∧ heap_live base s' (<[p:=n']> L).
Proof.
  intros (bs & Hinv & <- & HL) Hp Hk Hle. apply HL in Hp as Hin.
  pose proof (live_bounds _ _ _ _ (inv_lens _ _ Hinv) Hin) as Hb.
  destruct (mem_trim_live s bs (p - ram s) n k Hinv Hin Hk) as
    (s' & bs' & n' & rest & log & Hm & Hinv' & Hr' & Hn' & H1 & H2 & _).
  { unfold clamp. destruct (Z.ltb_spec k MIN_SIZE_ALIGNED); heap_lia. }
  replace (ram s + (p - ram s)) with p in Hm by lia.
  exists s', n', log. split; [done|]. split; [done|]. exists bs'. split; [done|]. split; [done|]. intros q m.
  rewrite H2, elem_of_cons. destruct (decide (q = p)) as [->|Hne].
  - rewrite lookup_insert_eq. split; [intros [= ->]; by left|]. intros [[= ->]|Hin']; [done|].
    exfalso. by eapply (live_fun bs' _ _ _ _ (inv_lens _ _ Hinv') H2).
  - rewrite lookup_insert_ne, HL, H1, elem_of_cons by done.
    split; intros [[= ? ?]|?]; [lia|by right|lia|by right].
Qed.

(** The heap of mem.c at [base] meets the client contract. *)
Definition mem_heap (base : Z) : HeapAlloc heap := {|
  heap_malloc := mem_malloc;
  heap_free := mem_free;
  heap_trim := mem_trim;
  heap_ok := heap_live base;
  heap_malloc_ok := heap_live_malloc base;
  heap_free_ok := heap_live_free base;
  heap_trim_ok := heap_live_trim base |}.

(** ** Witnesses *)

Definition ex_heap : heap := Heap ∅ 0 0 0 stats_zero.

Definition ex_calls : list heap_ev :=
  [HMalloc 100; HMalloc 5; HMalloc 15800; HFree 4102; HMalloc 40; HWrite 4102 (Hdr 1 2 3);
   HTrim 4226 15700; HMalloc 20000; HFree 4208; HSanity; HFree 4102].

Lemma mem_refines_witness :
  ∃ s0 s' rs bs', mem_init ex_heap 4096 = Clean s0 ∧
    hrun s0 ex_calls = Clean (rs, s') ∧ inv s' bs' ∧
    rs = [4102; 4208; 4226; 0; 4102; 0; 4226; 0; 0; 0; 0].
Proof.
  destruct (ahrun 4096 [(MEM_SIZE_ALIGNED, false)] ex_calls) as [[[rs bs'] log]|] eqn:E;
    [|vm_compute in E; discriminate].
  destruct (mem_refines ex_heap 4096 ex_calls rs bs' log) as (s0 & s' & H1 & H2 & H3 & _);
    [lia|reflexivity|exact E|].
  exists s0, s', rs, bs'. split; [exact H1|].
  vm_compute in E. injection E as <- <- <-. split; [exact H2|]. split; [exact H3|reflexivity].
Defined.

(** The state after three allocations. *)
Lemma ex_inv : ∃ s, inv s [(106, true); (18, true); (15876, false)] ∧ ram s = 4096.
Proof.
  destruct (mem_init_inv ex_heap 4096) as (s0 & H0 & Hinv & Hr); [lia|done|].
  destruct (hrun_refines [HMalloc 100; HMalloc 5] s0 _ [4102; 4208]
    [(106, true); (18, true); (15876, false)] [] Hinv) as (s' & _ & Hinv' & Hr').
  { rewrite Hr. reflexivity. }
  exists s'. split; [exact Hinv'|congruence].
Qed.

Lemma mem_malloc_spec_witness :
  ∃ s, inv s [(106, true); (18, true); (15876, false)] ∧
    ∃ r s', mem_malloc s 200 = Clean (r, s').
Proof.
  destruct ex_inv as (s & Hinv & Hr). exists s. split; [exact Hinv|].
  destruct (mem_malloc_spec s _ 200 Hinv) as (r & s' & _ & H & _); [decide_now|].
  exists r, s'. exact H.
Defined.

Lemma mem_free_spec_witness :
  ∃ s, inv s [(106, true); (18, true); (15876, false)] ∧
    ∃ s1 log, mem_free s (ram s + 112) = Clean s1 ∧ mem_free s1 (ram s + 112) = log.
Proof.
  destruct ex_inv as (s & Hinv & Hr). exists s. split; [exact Hinv|].
  destruct (mem_free_spec s _ 112 12 Hinv) as (s1 & _ & H & _ & _ & _ & _ & H2).
  - right. left.
  - exists s1. eexists. split; [exact H|exact H2].
Defined.

Lemma mem_free_foreign_witness :
  ∃ s, inv s [(106, true); (18, true); (15876, false)] ∧
    mem_free s 17 = Ret (set_stats s (stats_inc_illegal (mstats s)))
                        ["mem_free: illegal memory"%string].
Proof.
  destruct ex_inv as (s & Hinv & Hr). exists s. split; [exact Hinv|].
  apply (mem_free_foreign s _ 17 Hinv); [unfold NULL; lia|]. left. rewrite Hr. reflexivity.
Defined.

Lemma mem_calloc_spec_witness :
  ∃ s, inv s [(106, true); (18, true); (15876, false)] ∧
    ∃ r s' d, mem_calloc s ∅ 300 300 = Clean (r, s', d) ∧ r = NULL.
Proof.
  destruct ex_inv as (s & Hinv & Hr). exists s. split; [exact Hinv|].
  destruct (mem_calloc_spec s _ ∅ 300 300 Hinv) as (r & s' & d & _ & H & _ & H2 & _);
    [decide_now..|].
  exists r, s', d. split; [exact H|]. apply H2. lia.
Defined.

Lemma mem_trim_spec_witness :
  ∃ s, inv s [(106, true); (18, true); (15876, false)] ∧
    ∃ s' log, mem_trim s (ram s + 6) 60 = Ret (ram s + 6, s') log.
Proof.
  destruct ex_inv as (s & Hinv & Hr). exists s. split; [exact Hinv|].
  destruct (mem_trim_spec s _ 6 100 60 Hinv) as (s' & bs' & n' & rest & log & H & _).
  - left.
  - decide_now.
  - vm_compute. discriminate.
  - exists s', log. exact H.
Defined.

(** Trimming the last block of the heap: the result is right, the assertion fails. *)
Example mem_trim_last_block :
  (s ← mem_init ex_heap 4096;
   '(p, s) ← mem_malloc s 15994;
   '(_, s) ← mem_trim s p 100;
   mret (p, lfree s, st_used (mstats s)))
  = Ret (4102, 4202, 106) ["invalid next ptr"%string].
Proof. vm_compute. reflexivity. Qed.
