(* ===== verification/Timeouts.v ===== *)
(** * Timeouts (src/lwip/src/core/timeouts.c)

    The pending timeouts are a list of [struct sys_timeo] in order of expiry; the
    linked list of the source is a Coq list here, and every node remembers the
    pool element it lives in, so that allocation and release are visible.  Times
    are [u32_t] milliseconds that wrap around.

    The callbacks, the clock and the rest of the system ([W]) are parameters of the
    section: a callback may change the world and the timer state itself, because
    callbacks call [sys_timeout] and [sys_untimeout].  The pool is used through
    its contract ([Iface.PoolAlloc]). *)
From Stdlib Require Import Sorting.Sorted.
From S2P Require Import Prelude Iface Memp.

Definition LWIP_MAX_TIMEOUT : Z := 0x7fffffff.
Definition LWIP_UINT32_MAX : Z := 0xffffffff.
Definition SYS_TIMEOUTS_SLEEPTIME_INFINITE : Z := 0xffffffff.
Definition TCP_TMR_INTERVAL : Z := 250.

Definition TIME_LESS_THAN (t compare_to : Z) : bool :=
  LWIP_MAX_TIMEOUT <? u32 (t - compare_to).

(** A function pointer: NULL, the two callbacks of this file, or another one. *)
Inductive handler := HNull | HCyclic | HTcp | HUser (id : Z).

#[export] Instance handler_eq_dec : EqDecision handler.
Proof. solve_decision. Defined.

(** For [HCyclic] the argument is the index of the entry of [lwip_cyclic_timers]. *)
Record sys_timeo := SysTimeo {
  t_addr : Z;
  t_time : Z;
  t_h : handler;
  t_arg : Z }.

(** The for loop of [sys_timeout_abs], from [t] on. *)
Fixpoint insert_after (timeout t : sys_timeo) (rest : list sys_timeo) : list sys_timeo :=
  match rest with
  | [] => [t; timeout]
  | n :: rest' =>
      if TIME_LESS_THAN (t_time timeout) (t_time n) then t :: timeout :: rest
      else t :: insert_after timeout n rest'
  end.

Definition insert_timeout (timeout : sys_timeo) (l : list sys_timeo) : list sys_timeo :=
  match l with
  | [] => [timeout]
  | n :: rest =>
      if TIME_LESS_THAN (t_time timeout) (t_time n) then timeout :: l
      else insert_after timeout n rest
  end.

(** The port's clock (src/lwip/src/include/arch/cc.h). *)
Definition sys_now_port {W : Type} (_ : W) : Z := 0.

(** ** Order of expiry

    Times wrap, so they are compared relative to a [base] in the past: as long as all of
    them lie within 2^31 ms of the base, [TIME_LESS_THAN] is the order of the
    distances. *)
Definition rel (base t : Z) : Z := u32 (t - base).

Lemma rel_range base t : 0 ≤ rel base t < 4294967296.
Proof. apply u32_range. Qed.

Lemma time_less_than_rel base a b : rel base a ≤ LWIP_MAX_TIMEOUT → rel base b ≤ LWIP_MAX_TIMEOUT →
  TIME_LESS_THAN a b = (rel base a <? rel base b).
Proof.
  intros Ha Hb. unfold TIME_LESS_THAN. pose proof (rel_range base a). pose proof (rel_range base b).
  assert (u32 (a - b) = u32 (rel base a - rel base b)) as ->.
  { unfold rel, u32. rewrite <- Zminus_mod. f_equal. lia. }
  unfold LWIP_MAX_TIMEOUT in *. unfold u32.
  destruct (Z.ltb_spec (rel base a) (rel base b)).
  - apply Z.ltb_lt. rewrite <- (Z.mod_add _ 1), Z.mod_small by lia. lia.
  - apply Z.ltb_ge. rewrite Z.mod_small by lia. lia.
Qed.

Definition before (base : Z) (a b : sys_timeo) : Prop := rel base (t_time a) ≤ rel base (t_time b).
Definition in_window (base : Z) (t : sys_timeo) : Prop := rel base (t_time t) ≤ LWIP_MAX_TIMEOUT.
Definition ordered (base : Z) (l : list sys_timeo) : Prop :=
  StronglySorted (before base) l ∧ Forall (in_window base) l.

Lemma insert_after_cons x t rest :
  insert_after x t rest = t :: match rest with
    | [] => [x]
    | n :: rest' => if TIME_LESS_THAN (t_time x) (t_time n) then x :: rest else insert_after x n rest'
    end.
Proof. destruct rest as [|n rest]; cbn [insert_after]; [done|]. by destruct (TIME_LESS_THAN _ _). Qed.

(** The loop is one insertion rule applied along the list. *)
Lemma insert_timeout_cons x n rest :
  insert_timeout x (n :: rest) =
  if TIME_LESS_THAN (t_time x) (t_time n) then x :: n :: rest else n :: insert_timeout x rest.
Proof.
  unfold insert_timeout at 1. destruct (TIME_LESS_THAN _ _); [done|].
  rewrite insert_after_cons. by destruct rest.
Qed.

(** A new timeout goes behind all that expire no later and before all that expire later. *)
Lemma insert_timeout_split base x l : ordered base l → in_window base x →
  ∃ l1 l2, l = l1 ++ l2 ∧ insert_timeout x l = l1 ++ x :: l2 ∧
    Forall (λ t, rel base (t_time t) ≤ rel base (t_time x)) l1 ∧
    Forall (λ t, rel base (t_time x) < rel base (t_time t)) l2.
Proof.
  intros [Hs Hw] Hx. induction l as [|n rest IH]; [by exists [], []|].
  apply StronglySorted_inv in Hs as [Hs Hn]. apply Forall_cons in Hw as [Hwn Hw].
  rewrite insert_timeout_cons, (time_less_than_rel base) by done.
  destruct (Z.ltb_spec (rel base (t_time x)) (rel base (t_time n))) as [Hlt|Hge].
  - exists [], (n :: rest). split; [done|]. split; [done|]. split; [constructor|].
    constructor; [done|]. eapply Forall_impl; [exact Hn|]. intros t Ht. unfold before in Ht. lia.
  - destruct (IH Hs Hw) as (l1 & l2 & -> & Hi & H1 & H2). rewrite Hi.
    exists (n :: l1), l2. split; [done|]. split; [done|]. split; [by constructor|done].
Qed.

Lemma ordered_app base l1 l2 : ordered base (l1 ++ l2) ↔
  ordered base l1 ∧ ordered base l2 ∧ ∀ a b, a ∈ l1 → b ∈ l2 → before base a b.
Proof.
  unfold ordered. rewrite Forall_app. induction l1 as [|x l1 IH]; cbn [app].
  - split; [intros [? [? ?]]|tauto]. repeat split; try done; [constructor|].
    intros a b Ha. by apply elem_of_nil in Ha.
  - split.
    + intros [[Hs Hx]%StronglySorted_inv [Hw1 Hw2]]. apply Forall_cons in Hw1 as Hw1'.
      destruct IH as [IH _]. destruct IH as ((Hs1 & _) & (Hs2 & _) & Hab); [tauto|].
      apply Forall_app in Hx as [Hx1 Hx2]. split; [split; [by constructor|done]|]. split; [done|].
      intros a b [->|Ha]%elem_of_cons Hb; [|by apply Hab].
      rewrite Forall_forall in Hx2. by apply Hx2.
    + intros ([[Hs1 Hx1]%StronglySorted_inv Hw1] & [Hs2 Hw2] & Hab). split; [|done].
      apply Forall_cons in Hw1 as Hw1'. constructor.
      * apply IH. split; [tauto|]. split; [done|]. intros a b Ha Hb. apply Hab; [by right|done].
      * apply Forall_app. split; [done|]. apply Forall_forall. intros b Hb. apply Hab; [by left|done].
Qed.

Lemma insert_timeout_ordered base x l : ordered base l → in_window base x →
  ordered base (insert_timeout x l).
Proof.
  intros Ho Hx. destruct (insert_timeout_split base x l Ho Hx) as (l1 & l2 & -> & -> & H1 & H2).
  apply ordered_app in Ho as (Ho1 & Ho2 & Hab). rewrite Forall_forall in H1.
  apply ordered_app. split; [done|]. split.
  - destruct Ho2 as [Hs2 Hw2]. split; [|by constructor]. constructor; [done|].
    eapply Forall_impl; [exact H2|]. intros t Ht. cbn in Ht. unfold before. lia.
  - intros a b Ha [->|Hb]%elem_of_cons; [by apply H1|by apply Hab].
Qed.

Lemma insert_timeout_perm x l : insert_timeout x l ≡ₚ x :: l.
Proof.
  induction l as [|n rest IH]; [done|]. rewrite insert_timeout_cons.
  destruct (TIME_LESS_THAN _ _); [done|]. rewrite IH. apply Permutation_swap.
Qed.

Lemma ordered_remove base l1 t l2 : ordered base (l1 ++ t :: l2) → ordered base (l1 ++ l2).
Proof.
  rewrite !ordered_app. intros (H1 & [Hs Hw] & Hab). split; [done|].
  apply StronglySorted_inv in Hs as [Hs _]. apply Forall_cons in Hw as [_ Hw].
  split; [by split|]. intros a b Ha Hb. apply Hab; [done|by right].
Qed.

Section Timeouts.
Context {P W : Type} `{PA : PoolAlloc P}.

Record tstate := TState {
  next_timeout : list sys_timeo;
  current_timeout_due_time : Z;
  tcpip_tcp_timer_active : bool;
  tpool : P;
  world : W }.

Definition set_list (s : tstate) (l : list sys_timeo) : tstate :=
  TState l (current_timeout_due_time s) (tcpip_tcp_timer_active s) (tpool s) (world s).
Definition set_due (s : tstate) (t : Z) : tstate :=
  TState (next_timeout s) t (tcpip_tcp_timer_active s) (tpool s) (world s).
Definition set_active (s : tstate) (b : bool) : tstate :=
  TState (next_timeout s) (current_timeout_due_time s) b (tpool s) (world s).
Definition set_tpool (s : tstate) (p : P) : tstate :=
  TState (next_timeout s) (current_timeout_due_time s) (tcpip_tcp_timer_active s) p (world s).
Definition set_world (s : tstate) (w : W) : tstate :=
  TState (next_timeout s) (current_timeout_due_time s) (tcpip_tcp_timer_active s) (tpool s) w.

(** The environment: the clock, [tcp_active_pcbs || tcp_tw_pcbs], [tcp_tmr], the table of
    cyclic timers (interval and handler), other callbacks, and
    [PBUF_CHECK_FREE_OOSEQ]. *)
Variable sys_now : W → Z.
Variable tcp_pcbs : W → bool.
Variable tcp_tmr : tstate → out tstate.
Variable lwip_cyclic_timers : list (Z * (tstate → out tstate)).
Variable user : Z → Z → tstate → out tstate.
Variable pbuf_check_free_ooseq : W → W.

Definition sys_timeout_abs (s : tstate) (abs_time : Z) (h : handler) (arg : Z) : out tstate :=
  '(timeout, p) ← pool_malloc (tpool s);
  let s := set_tpool s p in
  if timeout =? NULL then
    _ ← lwip_assert "sys_timeout: timeout != NULL, pool MEMP_SYS_TIMEOUT is empty" false;
    mret s
  else mret (set_list s (insert_timeout (SysTimeo timeout abs_time h arg) (next_timeout s))).

Definition sys_timeout (s : tstate) (msecs : Z) (h : handler) (arg : Z) : out tstate :=
  _ ← lwip_assert "Timeout time too long, max is LWIP_UINT32_MAX/4 msecs"
        (msecs <=? LWIP_UINT32_MAX / 4);
  let next_timeout_time := u32 (sys_now (world s) + msecs) in
  sys_timeout_abs s next_timeout_time h arg.

Definition tcpip_tcp_timer (s : tstate) : out tstate :=
  s ← tcp_tmr s;
  if tcp_pcbs (world s) then sys_timeout s TCP_TMR_INTERVAL HTcp 0
  else mret (set_active s false).

Definition tcp_timer_needed (s : tstate) : out tstate :=
  if negb (tcpip_tcp_timer_active s) && tcp_pcbs (world s) then
    sys_timeout (set_active s true) TCP_TMR_INTERVAL HTcp 0
  else mret s.

Definition lwip_cyclic_timer (s : tstate) (arg : Z) : out tstate :=
  '(interval_ms, hnd) ← or_fault "cyclic" (lwip_cyclic_timers !! Z.to_nat arg);
  s ← hnd s;
  let now := sys_now (world s) in
  let next_timeout_time := u32 (current_timeout_due_time s + interval_ms) in
  if TIME_LESS_THAN next_timeout_time now
  then sys_timeout_abs s (u32 (now + interval_ms)) HCyclic arg
  else sys_timeout_abs s next_timeout_time HCyclic arg.

(** [tcp_tmr] at index 0 is started on demand. *)
Fixpoint init_timers (i : nat) (timers : list (Z * (tstate → out tstate))) (s : tstate) : out tstate :=
  match timers with
  | [] => mret s
  | (interval_ms, _) :: rest =>
      s ← sys_timeout s interval_ms HCyclic (Z.of_nat i);
      init_timers (S i) rest s
  end.

Definition sys_timeouts_init (s : tstate) : out tstate :=
  init_timers 1 (tail lwip_cyclic_timers) s.

(** The entry to remove and the list without it. *)
Fixpoint take_first (h : handler) (arg : Z) (l : list sys_timeo) : option (sys_timeo * list sys_timeo) :=
  match l with
  | [] => None
  | t :: rest =>
      if bool_decide (t_h t = h) && (t_arg t =? arg) then Some (t, rest)
      else '(u, rest') ← take_first h arg rest; Some (u, t :: rest')
  end.

Definition sys_untimeout (s : tstate) (h : handler) (arg : Z) : out tstate :=
  match take_first h arg (next_timeout s) with
  | None => mret s
  | Some (t, l) =>
      let s := set_list s l in
      p ← pool_free (tpool s) (t_addr t);
      mret (set_tpool s p)
  end.

Definition call (s : tstate) (h : handler) (arg : Z) : out tstate :=
  match h with
  | HNull => mret s
  | HCyclic => lwip_cyclic_timer s arg
  | HTcp => tcpip_tcp_timer s
  | HUser id => user id arg s
  end.

(** The do-while loop.  The second component lists the timeouts whose callbacks have been
    called, in order; the C function returns nothing. *)
Fixpoint check_loop (fuel : nat) (now : Z) (s : tstate) : out (tstate * list sys_timeo) :=
  match fuel with
  | O => NoFuel
  | S fuel' =>
      let s := set_world s (pbuf_check_free_ooseq (world s)) in
      match next_timeout s with
      | [] => mret (s, [])
      | tmptimeout :: rest =>
          if TIME_LESS_THAN now (t_time tmptimeout) then mret (s, [])
          else
            let s := set_due (set_list s rest) (t_time tmptimeout) in
            p ← pool_free (tpool s) (t_addr tmptimeout);
            s ← call (set_tpool s p) (t_h tmptimeout) (t_arg tmptimeout);
            '(s, fired) ← check_loop fuel' now s;
            mret (s, tmptimeout :: fired)
      end
  end.

Definition sys_check_timeouts (fuel : nat) (s : tstate) : out (tstate * list sys_timeo) :=
  check_loop fuel (sys_now (world s)) s.

Definition sys_restart_timeouts (s : tstate) : tstate :=
  match next_timeout s with
  | [] => s
  | t0 :: _ =>
      let now := sys_now (world s) in
      let base := t_time t0 in
      set_list s ((λ t, SysTimeo (t_addr t) (u32 (u32 (t_time t - base) + now)) (t_h t) (t_arg t))
                  <$> next_timeout s)
  end.

Definition sys_timeouts_sleeptime (s : tstate) : out Z :=
  match next_timeout s with
  | [] => mret SYS_TIMEOUTS_SLEEPTIME_INFINITE
  | t :: _ =>
      let now := sys_now (world s) in
      if TIME_LESS_THAN (t_time t) now then mret 0
      else
        let ret := u32 (t_time t - now) in
        _ ← lwip_assert "invalid sleeptime" (ret <=? LWIP_MAX_TIMEOUT);
        mret ret
  end.

(** ** Pool accounting: the nodes of the list are exactly the live pool elements *)

Definition addrs (l : list sys_timeo) : list Z := t_addr <$> l.
Definition wf (s : tstate) : Prop :=
  NoDup (addrs (next_timeout s)) ∧ pool_ok (tpool s) (list_to_set (addrs (next_timeout s))).

Lemma wf_perm s l p : NoDup (addrs l) → pool_ok p (list_to_set (addrs l)) → ∀ l', l' ≡ₚ l →
  wf (set_tpool (set_list s l') p).
Proof.
  intros Hnd Hok l' Hp. unfold wf. cbn [next_timeout tpool set_tpool set_list].
  assert (addrs l' ≡ₚ addrs l) as Ha by (unfold addrs; by rewrite Hp).
  rewrite Ha at 1. split; [done|].
  replace (list_to_set (addrs l') : gset Z) with (list_to_set (addrs l) : gset Z); [done|].
  apply leibniz_equiv. by rewrite Ha.
Qed.

Lemma wf_size s : wf s → size (list_to_set (addrs (next_timeout s)) : gset Z) = length (next_timeout s).
Proof. intros [Hnd _]. rewrite size_list_to_set by done. apply length_fmap. Qed.

Lemma wf_bound s : wf s → (length (next_timeout s) ≤ pool_cap)%nat.
Proof.
  intros Hwf. pose proof (wf_size s Hwf). destruct Hwf as [_ Hok].
  destruct (pool_malloc_ok _ _ Hok) as (r & st & _ & [(_ & Hc & _)|(_ & Hc & _)]); lia.
Qed.

Lemma sys_timeout_abs_ok s time h arg : wf s → (length (next_timeout s) < pool_cap)%nat →
  ∃ addr p, sys_timeout_abs s time h arg =
      Clean (set_tpool (set_list s (insert_timeout (SysTimeo addr time h arg) (next_timeout s))) p) ∧
    wf (set_tpool (set_list s (insert_timeout (SysTimeo addr time h arg) (next_timeout s))) p).
Proof.
  intros Hwf Hlt. pose proof (wf_size s Hwf) as Hsz. destruct Hwf as [Hnd Hok].
  destruct (pool_malloc_ok _ _ Hok) as (r & p & Hm & [(_ & Hc & _)|(Hr & _ & Hnin & Hok')]); [lia|].
  exists r, p. unfold sys_timeout_abs. rewrite Hm. out_simp. rewrite (proj2 (Z.eqb_neq _ _) Hr).
  split; [done|]. apply wf_perm with (SysTimeo r time h arg :: next_timeout s).
  - cbn. apply NoDup_cons. split; [|done]. by rewrite elem_of_list_to_set in Hnin.
  - exact Hok'.
  - apply insert_timeout_perm.
Qed.

Lemma sys_timeout_abs_full s time h arg : wf s → length (next_timeout s) = pool_cap →
  ∃ p, sys_timeout_abs s time h arg =
      Ret (set_tpool s p) ["sys_timeout: timeout != NULL, pool MEMP_SYS_TIMEOUT is empty"%string] ∧
    wf (set_tpool s p).
Proof.
  intros Hwf Heq. pose proof (wf_size s Hwf) as Hsz. pose proof Hwf as [Hnd Hok].
  destruct (pool_malloc_ok _ _ Hok) as (r & p & Hm & [(-> & _ & Hok')|(_ & Hc & _)]); [|lia].
  exists p. unfold sys_timeout_abs. rewrite Hm. done.
Qed.

(** Taking a node out of the list and giving it back to the pool. *)
Lemma release_node s t l : wf s → next_timeout s ≡ₚ t :: l → ∃ p,
  pool_free (tpool s) (t_addr t) = Clean p ∧ wf (set_tpool (set_list s l) p).
Proof.
  intros [Hnd Hok] Hp. assert (addrs (next_timeout s) ≡ₚ t_addr t :: addrs l) as Ha.
  { unfold addrs. by rewrite Hp. }
  rewrite Ha in Hnd. apply NoDup_cons in Hnd as [Hnin Hnd].
  destruct (pool_free_ok (tpool s) _ (t_addr t) Hok) as (p & Hf & Hok').
  { apply elem_of_list_to_set. rewrite Ha. by left. }
  exists p. split; [done|]. apply wf_perm with l; [done| |done].
  replace (list_to_set (addrs l) : gset Z)
    with (list_to_set (addrs (next_timeout s)) ∖ {[t_addr t]} : gset Z); [done|].
  apply leibniz_equiv. rewrite Ha. cbn.
  assert (t_addr t ∉ (list_to_set (addrs l) : gset Z)) as Hx by (by rewrite elem_of_list_to_set).
  clear -Hx. set_solver.
Qed.

Lemma take_first_spec h arg l t l' : take_first h arg l = Some (t, l') →
  ∃ l1 l2, l = l1 ++ t :: l2 ∧ l' = l1 ++ l2 ∧ t_h t = h ∧ t_arg t = arg ∧
    Forall (λ u, ¬ (t_h u = h ∧ t_arg u = arg)) l1.
Proof.
  revert l'. induction l as [|u l IH]; intros l'; [done|]. cbn [take_first].
  destruct (bool_decide (t_h u = h) && (t_arg u =? arg)) eqn:E.
  - apply andb_prop in E as [E1%bool_decide_eq_true E2%Z.eqb_eq]. intros [= <- <-].
    by exists [], l.
  - intros ([v l''] & Hl & [= <- <-])%bind_Some. destruct (IH _ Hl) as (l1 & l2 & -> & -> & H1 & H2 & H3).
    exists (u :: l1), l2. split; [done|]. split; [done|]. split; [done|]. split; [done|].
    constructor; [|done]. intros [Hh Ha]. rewrite bool_decide_eq_true_2, Ha, Z.eqb_refl in E by done. done.
Qed.

Lemma take_first_none h arg l : take_first h arg l = None →
  Forall (λ u, ¬ (t_h u = h ∧ t_arg u = arg)) l.
Proof.
  induction l as [|u l IH]; [constructor|]. cbn [take_first].
  destruct (bool_decide (t_h u = h) && (t_arg u =? arg)) eqn:E; [done|]. intros Hn.
  constructor; [|apply IH; destruct (take_first h arg l) as [[]|]; done].
  intros [Hh Ha]. rewrite bool_decide_eq_true_2, Ha, Z.eqb_refl in E by done. done.
Qed.

(** ** Scheduling and cancelling *)

(** [sys_timeout] allocates one node and inserts it in order of expiry, behind
    timeouts that are due at the same time; nothing else in the list moves and
    the nodes of the list remain exactly the live elements of the pool. *)
Theorem sys_timeout_sorted base s msecs h arg :
  wf s → ordered base (next_timeout s) → (length (next_timeout s) < pool_cap)%nat →
  msecs ≤ LWIP_UINT32_MAX / 4 → rel base (u32 (sys_now (world s) + msecs)) ≤ LWIP_MAX_TIMEOUT →
  ∃ s' t l1 l2, sys_timeout s msecs h arg = Clean s' ∧ wf s' ∧ world s' = world s ∧
    t_time t = u32 (sys_now (world s) + msecs) ∧ t_h t = h ∧ t_arg t = arg ∧
    next_timeout s = l1 ++ l2 ∧ next_timeout s' = l1 ++ t :: l2 ∧
    Forall (λ u, rel base (t_time u) ≤ rel base (t_time t)) l1 ∧
    Forall (λ u, rel base (t_time t) < rel base (t_time u)) l2 ∧
    ordered base (next_timeout s').
Proof.
  intros Hwf Ho Hlt Hms Hw. unfold sys_timeout. rewrite (proj2 (Z.leb_le _ _) Hms). out_simp.
  destruct (sys_timeout_abs_ok s (u32 (sys_now (world s) + msecs)) h arg Hwf Hlt) as (addr & p & -> & Hwf').
  set (t := SysTimeo addr _ h arg) in *. assert (in_window base t) as Hin by done.
  destruct (insert_timeout_split base t _ Ho Hin) as (l1 & l2 & H1 & H2 & H3 & H4).
  eexists _, t, l1, l2. split; [done|]. split; [done|]. cbn [next_timeout world set_tpool set_list].
  repeat (split; [done|]). by apply insert_timeout_ordered.
Qed.

(** When the pool of timeout nodes is exhausted the request is dropped with a
    failed assertion, and the list is left as it was. *)
Theorem sys_timeout_exhausted s msecs h arg :
  wf s → length (next_timeout s) = pool_cap → msecs ≤ LWIP_UINT32_MAX / 4 → ∃ s',
    sys_timeout s msecs h arg =
      Ret s' ["sys_timeout: timeout != NULL, pool MEMP_SYS_TIMEOUT is empty"%string] ∧
    wf s' ∧ next_timeout s' = next_timeout s.
Proof.
  intros Hwf Hlen Hms. unfold sys_timeout. rewrite (proj2 (Z.leb_le _ _) Hms). out_simp.
  destruct (sys_timeout_abs_full s (u32 (sys_now (world s) + msecs)) h arg Hwf Hlen) as (p & -> & Hwf').
  by exists (set_tpool s p).
Qed.

(** [sys_untimeout] removes the first timeout with this handler and argument,
    if there is one, returns its node to the pool, and keeps all others in order. *)
Theorem sys_untimeout_spec base s h arg :
  wf s → ordered base (next_timeout s) → ∃ s',
    sys_untimeout s h arg = Clean s' ∧ wf s' ∧ ordered base (next_timeout s') ∧
    ((next_timeout s' = next_timeout s ∧
      Forall (λ u, ¬ (t_h u = h ∧ t_arg u = arg)) (next_timeout s)) ∨
     ∃ l1 t l2, next_timeout s = l1 ++ t :: l2 ∧ next_timeout s' = l1 ++ l2 ∧
       t_h t = h ∧ t_arg t = arg ∧ Forall (λ u, ¬ (t_h u = h ∧ t_arg u = arg)) l1).
Proof.
  intros Hwf Ho. unfold sys_untimeout. destruct (take_first h arg (next_timeout s)) as [[t l]|] eqn:E.
  - apply take_first_spec in E as (l1 & l2 & Hl & -> & Hh & Ha & Hf).
    destruct (release_node s t (l1 ++ l2) Hwf) as (p & Hp & Hwf').
    { rewrite Hl. symmetry. apply Permutation_middle. }
    cbn [tpool set_list]. rewrite Hp. out_simp. eexists. split; [done|]. split; [done|].
    cbn [next_timeout set_tpool set_list]. rewrite Hl in Ho. split; [by eapply ordered_remove|].
    right. by exists l1, t, l2.
  - apply take_first_none in E. exists s. split; [done|]. split; [done|]. split; [done|]. by left.
Qed.

(** ** Expiry

    A callback may arm and cancel timeouts, as long as what it arms is not due yet.  What callbacks do
    to the world is unconstrained except that the clock moves forward by less than 2^29 ms. *)
Section Expiry.
Variable base lo : Z.
Variable good : W → Prop.

Definition valid_arg (t : sys_timeo) : Prop :=
  t_h t = HCyclic → is_Some (lwip_cyclic_timers !! Z.to_nat (t_arg t)).

(** How many more times a timeout can fire before [lo]: an overdue cyclic timer is
    brought up to date at most once, and a timer due exactly now fires once. *)
Definition weight (t : sys_timeo) : nat :=
  if rel base (t_time t) <? lo then 2 else if rel base (t_time t) =? lo then 1 else 0.
Definition weights (l : list sys_timeo) : nat := sum_list_with weight l.

Definition fit (s : tstate) : Prop :=
  wf s ∧ good (world s) ∧ ordered base (next_timeout s) ∧ Forall valid_arg (next_timeout s).

(** A callback that returns without failed assertions when a node is free, and arms nothing that is due. *)
Definition friendly (f : tstate → out tstate) : Prop :=
  ∀ s, fit s → (length (next_timeout s) < pool_cap)%nat →
  ∃ s', f s = Clean s' ∧ fit s' ∧ (weights (next_timeout s') ≤ weights (next_timeout s))%nat.

(** A handler after which, besides, a node is still free to arm its timer again. *)
Definition sparing (f : tstate → out tstate) : Prop :=
  ∀ s, fit s → (length (next_timeout s) < pool_cap)%nat →
  ∃ s', f s = Clean s' ∧ fit s' ∧ (weights (next_timeout s') ≤ weights (next_timeout s))%nat ∧
    (length (next_timeout s') < pool_cap)%nat ∧ current_timeout_due_time s' = current_timeout_due_time s.

Definition quiet (f : tstate → out tstate) : Prop :=
  ∀ s, good (world s) → ∃ w, f s = Clean (set_world s w) ∧ good w.

Hypothesis Hclock : ∀ w, good w → is_u32 (sys_now w) ∧ lo ≤ rel base (sys_now w) ≤ lo + 2 ^ 29.
Hypothesis Hlo : lo + 2 ^ 29 + 2 ^ 30 ≤ LWIP_MAX_TIMEOUT.
Hypothesis Hooseq : ∀ w, good w → good (pbuf_check_free_ooseq w).

Lemma weights_perm l l' : l ≡ₚ l' → weights l = weights l'.
Proof. unfold weights. intros H. by rewrite H. Qed.

Lemma weights_le l : (weights l ≤ 2 * length l)%nat.
Proof.
  unfold weights. induction l as [|t l IH]; [done|]. cbn. unfold weight at 1.
  destruct (rel base (t_time t) <? lo), (rel base (t_time t) =? lo); lia.
Qed.

Lemma rel_add t d : rel base t + d ≤ LWIP_MAX_TIMEOUT → 0 ≤ d → rel base (u32 (t + d)) = rel base t + d.
Proof.
  intros H Hd. pose proof (rel_range base t). unfold LWIP_MAX_TIMEOUT in H.
  assert (rel base (u32 (t + d)) = u32 (rel base t + d)) as ->.
  { unfold rel, u32. rewrite Zminus_mod_idemp_l, Zplus_mod_idemp_l. f_equal. lia. }
  apply u32_id. unfold is_u32. lia.
Qed.

(** What remains to be done is less after a timeout has been taken from the list and called. *)
Definition rearmed (t : sys_timeo) (s s' : tstate) : Prop :=
  fit s' ∧ (weights (next_timeout s') < weight t + weights (next_timeout s))%nat.

Lemma arm_run s time h arg :
  fit s → (length (next_timeout s) < pool_cap)%nat → valid_arg (SysTimeo 0 time h arg) → rel base time ≤ LWIP_MAX_TIMEOUT →
  ∃ s', sys_timeout_abs s time h arg = Clean s' ∧ fit s' ∧
    weights (next_timeout s') = (weight (SysTimeo 0 time h arg) + weights (next_timeout s))%nat.
Proof.
  intros (Hwf & Hg & Ho & Hv) Hlt Hva Hrel.
  destruct (sys_timeout_abs_ok s time h arg Hwf Hlt) as (addr & p & -> & Hwf').
  eexists. split; [done|]. set (n := SysTimeo addr time h arg) in *. pose proof (insert_timeout_perm n (next_timeout s)) as Hp.
  split; [|cbn [next_timeout set_tpool set_list]; by rewrite (weights_perm _ _ Hp)]. split; [done|]. split; [done|]. cbn [next_timeout set_tpool set_list].
  split; [by apply insert_timeout_ordered|]. rewrite Hp. by constructor.
Qed.

Lemma arm_ok t s s1 time h arg :
  fit s1 → (weights (next_timeout s1) ≤ weights (next_timeout s))%nat → (length (next_timeout s1) < pool_cap)%nat →
  valid_arg (SysTimeo 0 time h arg) → rel base time ≤ LWIP_MAX_TIMEOUT →
  (weight (SysTimeo 0 time h arg) < weight t)%nat →
  ∃ s', sys_timeout_abs s1 time h arg = Clean s' ∧ rearmed t s s'.
Proof.
  intros Hf Hw Hlt Hva Hrel Hwt. destruct (arm_run s1 time h arg Hf Hlt Hva Hrel) as (s' & -> & Hf' & Hw').
  exists s'. split; [done|]. split; [done|lia].
Qed.

Lemma weight_pos t : rel base (t_time t) ≤ lo → (1 ≤ weight t)%nat.
Proof.
  intros H. unfold weight. destruct (Z.ltb_spec (rel base (t_time t)) lo); [lia|].
  rewrite (proj2 (Z.eqb_eq _ _)) by lia. lia.
Qed.

Lemma weight_zero addr time h arg : lo < rel base time → weight (SysTimeo addr time h arg) = 0%nat.
Proof.
  intros H. unfold weight. cbn [t_time].
  rewrite (proj2 (Z.ltb_ge _ _)), (proj2 (Z.eqb_neq _ _)) by lia. done.
Qed.

Lemma quiet_sparing f : quiet f → sparing f.
Proof.
  intros Hq s (Hwf & Hg & Ho & Hv) Hlt. destruct (Hq s Hg) as (w & -> & Hgw). exists (set_world s w). by split_and!.
Qed.

Lemma sparing_friendly f : sparing f → friendly f.
Proof. intros Hf s Hs Hlt. destruct (Hf s Hs Hlt) as (s' & H1 & H2 & H3 & _). by exists s'. Qed.

(** A callback that arms a timeout of its own again, after at least one millisecond, is friendly. *)
Lemma rearm_friendly msecs h arg : 1 ≤ msecs ≤ LWIP_UINT32_MAX / 4 → valid_arg (SysTimeo 0 0 h arg) →
  friendly (λ s, sys_timeout s msecs h arg).
Proof.
  intros Hm Hva s Hs Hlt. destruct Hs as (Hwf & Hg & Ho & Hv). destruct (Hclock _ Hg) as [_ Hw].
  assert (LWIP_UINT32_MAX / 4 = 1073741823) as Hq4 by done. unfold sys_timeout. rewrite (proj2 (Z.leb_le _ _)) by lia. out_simp.
  assert (rel base (u32 (sys_now (world s) + msecs)) = rel base (sys_now (world s)) + msecs) as Hc by (apply rel_add; lia).
  destruct (arm_run s (u32 (sys_now (world s) + msecs)) h arg) as (s' & -> & Hf' & Hw'); [by split_and!|done|done|lia|].
  exists s'. split; [done|]. split; [done|]. rewrite Hw', weight_zero by lia. lia.
Qed.

Hypothesis Huser : ∀ id arg, friendly (user id arg).
Hypothesis Htcp : sparing tcp_tmr.
Hypothesis Hcyc : Forall (λ c, 1 ≤ c.1 ≤ LWIP_UINT32_MAX / 4 ∧ sparing c.2) lwip_cyclic_timers.

(** The cyclic timer reschedules itself at its next due time, or one interval from now when
    that has passed already: never before [lo], and later than [lo] unless it was
    overdue. *)
Lemma cyclic_ok t s :
  t_h t = HCyclic → valid_arg t → rel base (t_time t) ≤ lo → current_timeout_due_time s = t_time t →
  fit s → (length (next_timeout s) < pool_cap)%nat →
  ∃ s', lwip_cyclic_timer s (t_arg t) = Clean s' ∧ rearmed t s s'.
Proof.
  intros Hh Hva Hexp Hdue Hs Hlt. destruct (Hva Hh) as [[interval hnd] Hlk].
  unfold lwip_cyclic_timer. rewrite Hlk. out_simp.
  destruct (Forall_lookup_1 _ _ _ _ Hcyc Hlk) as [Hint Hq]. cbn in Hint, Hq.
  destruct (Hq s Hs Hlt) as (s1 & -> & Hs1 & Hw1 & Hlt1 & Hdue1). out_simp.
  rewrite Hdue1, Hdue. destruct (Hclock (world s1)) as [_ Hw]; [apply Hs1|].
  assert (LWIP_UINT32_MAX / 4 = 1073741823) as Hq4 by done.
  assert (rel base (u32 (t_time t + interval)) = rel base (t_time t) + interval) as Hn by (apply rel_add; lia).
  assert (rel base (u32 (sys_now (world s1) + interval)) = rel base (sys_now (world s1)) + interval) as Hc by (apply rel_add; lia).
  rewrite (time_less_than_rel base) by lia. pose proof (weight_pos t Hexp) as Hwp.
  destruct (Z.ltb_spec (rel base (u32 (t_time t + interval))) (rel base (sys_now (world s1)))).
  - apply arm_ok; try done; [intros _; cbn; rewrite Hlk; eauto|lia|]. rewrite weight_zero by lia. lia.
  - apply arm_ok; try done; [intros _; cbn; rewrite Hlk; eauto|lia|]. unfold weight. cbn [t_time]. rewrite Hn.
    rewrite (proj2 (Z.ltb_ge (rel base (t_time t) + interval) lo)) by lia.
    destruct (Z.ltb_spec (rel base (t_time t)) lo).
    + destruct (_ =? lo); lia.
    + rewrite (proj2 (Z.eqb_neq (rel base (t_time t) + interval) lo)),
        (proj2 (Z.eqb_eq (rel base (t_time t)) lo)) by lia. lia.
Qed.

Lemma call_ok t s :
  valid_arg t → rel base (t_time t) ≤ lo → current_timeout_due_time s = t_time t →
  fit s → (length (next_timeout s) < pool_cap)%nat →
  ∃ s', call s (t_h t) (t_arg t) = Clean s' ∧ rearmed t s s'.
Proof.
  intros Hva Hexp Hdue Hs Hlt. pose proof (weight_pos t Hexp) as Hwp. destruct (t_h t) as [| | |id] eqn:Hh; cbn [call].
  - exists s. split; [done|]. split; [done|lia].
  - by apply cyclic_ok.
  - unfold tcpip_tcp_timer. destruct (Htcp s Hs Hlt) as (s1 & -> & Hs1 & Hw1 & Hlt1 & _). out_simp.
    destruct (tcp_pcbs (world s1)).
    + unfold sys_timeout. out_simp. destruct (Hclock (world s1)) as [_ Hw]; [apply Hs1|].
      unfold TCP_TMR_INTERVAL.
      assert (rel base (u32 (sys_now (world s1) + 250)) = rel base (sys_now (world s1)) + 250) as Hc by (apply rel_add; lia).
      apply arm_ok; try done; [lia|]. rewrite weight_zero by lia. lia.
    + eexists. split; [done|]. split; [exact Hs1|]. cbn [next_timeout set_active]. lia.
  - destruct (Huser id (t_arg t) s Hs Hlt) as (s1 & -> & Hs1 & Hw1). exists s1. split; [done|]. split; [done|lia].
Qed.

Lemma check_loop_ok fuel now s :
  rel base now = lo → wf s → good (world s) → ordered base (next_timeout s) →
  Forall valid_arg (next_timeout s) → (weights (next_timeout s) < fuel)%nat →
  ∃ s' fired, check_loop fuel now s = Clean (s', fired) ∧ wf s' ∧ ordered base (next_timeout s') ∧
    Forall (λ t, rel base (t_time t) ≤ lo) fired ∧ Forall (λ t, lo < rel base (t_time t)) (next_timeout s').
Proof.
  intros Hnow. revert s. induction fuel as [|fuel IH]; intros s Hwf Hg Ho Hv Hfuel; [lia|].
  cbn [check_loop next_timeout set_world]. destruct (next_timeout s) as [|t rest] eqn:Hl.
  { eexists _, []. split; [done|]. split; [done|]. cbn [next_timeout set_world]. by rewrite Hl. }
  pose proof Ho as [[Hs Ht]%StronglySorted_inv [Hwt Hwr]%Forall_cons].
  apply Forall_cons in Hv as [Hvt Hvr]. pose proof (Hooseq _ Hg) as Hg'.
  rewrite (time_less_than_rel base) by (done || lia). rewrite Hnow.
  destruct (Z.ltb_spec lo (rel base (t_time t))) as [Hlt|Hge].
  - eexists _, []. split; [done|]. split; [done|]. cbn [next_timeout set_world]. rewrite Hl.
    split; [done|]. split; [constructor|]. constructor; [done|].
    eapply Forall_impl; [exact Ht|]. intros u Hu. unfold before in Hu. lia.
  - destruct (release_node s t rest Hwf) as (p & Hp & Hwf1); [by rewrite Hl|].
    cbn [tpool set_due set_list set_world]. rewrite Hp. out_simp.
    pose proof (wf_bound s Hwf) as Hb. rewrite Hl in Hb. cbn [length] in Hb.
    set (s1 := set_tpool _ p).
    destruct (call_ok t s1) as (s2 & -> & (Hwf2 & Hg2 & Ho2 & Hv2) & Hw2); try done.
    out_simp. cbn in Hw2, Hfuel.
    destruct (IH s2) as (s3 & fired & -> & Hwf3 & Ho3 & Hf3 & Hd3); try done.
    { unfold weights in *. cbn in Hfuel. lia. }
    eexists _, _. split; [done|]. split; [done|]. split; [done|]. split; [by constructor|done].
Qed.

(** C34: [sys_check_timeouts] terminates when callbacks arm only timeouts that are not due
    yet (one of their own after a millisecond or more, for example): with one-shot, TCP and cyclic timers pending it
    calls at most twice as many callbacks as there are timeouts and returns with
    no failed assertion; every callback it called was due, and afterwards nothing
    that is left is due. *)
Theorem sys_check_timeouts_complete s :
  wf s → good (world s) → rel base (sys_now (world s)) = lo →
  ordered base (next_timeout s) → Forall valid_arg (next_timeout s) →
  ∃ s' fired,
    sys_check_timeouts (S (2 * length (next_timeout s))) s = Clean (s', fired) ∧
    wf s' ∧ ordered base (next_timeout s') ∧
    Forall (λ t, rel base (t_time t) ≤ lo) fired ∧
    Forall (λ t, lo < rel base (t_time t)) (next_timeout s').
Proof.
  intros Hwf Hg Hlo' Ho Hv. apply check_loop_ok; try done.
  pose proof (weights_le (next_timeout s)). lia.
Qed.

Definition one_shot (t : sys_timeo) : Prop := t_h t ≠ HCyclic ∧ t_h t ≠ HTcp.

Lemma one_shot_valid t : one_shot t → valid_arg t.
Proof. intros [H _] Hh. done. Qed.

Lemma check_loop_one_shot fuel now s :
  (∀ id arg, quiet (user id arg)) →
  rel base now = lo → wf s → good (world s) → ordered base (next_timeout s) →
  Forall one_shot (next_timeout s) → (length (next_timeout s) < fuel)%nat →
  ∃ s', check_loop fuel now s = Clean (s', filter (λ t, rel base (t_time t) ≤ lo) (next_timeout s)) ∧
    wf s' ∧ next_timeout s' = filter (λ t, lo < rel base (t_time t)) (next_timeout s).
Proof.
  intros Hquiet Hnow. revert s. induction fuel as [|fuel IH]; intros s Hwf Hg Ho Hv Hfuel; [lia|].
  cbn [check_loop next_timeout set_world]. destruct (next_timeout s) as [|t rest] eqn:Hl.
  { eexists. split; [done|]. split; [done|]. cbn [next_timeout set_world]. by rewrite Hl. }
  pose proof Ho as [[Hs Ht]%StronglySorted_inv [Hwt Hwr]%Forall_cons].
  apply Forall_cons in Hv as [[Hv1 Hv2] Hvr]. pose proof (Hooseq _ Hg) as Hg'.
  rewrite (time_less_than_rel base) by (done || lia). rewrite Hnow, !filter_cons.
  destruct (Z.ltb_spec lo (rel base (t_time t))) as [Hlt|Hge].
  - assert (Forall (λ u, lo < rel base (t_time u)) rest) as Hr.
    { eapply Forall_impl; [exact Ht|]. intros u Hu. unfold before in Hu. lia. }
    assert (filter (λ u, rel base (t_time u) ≤ lo) rest = [] ∧
            filter (λ u, lo < rel base (t_time u)) rest = rest) as [-> ->].
    { clear -Hr. induction Hr as [|u l Hu _ [IH1 IH2]]; [done|]. cbn in Hu.
      rewrite !filter_cons, decide_False, decide_True by lia. by rewrite IH1, IH2. }
    eexists. rewrite decide_False, decide_True by lia. split; [done|]. split; [done|]. exact Hl.
  - rewrite decide_True, decide_False by lia.
    destruct (release_node s t rest Hwf) as (p & Hp & Hwf1); [by rewrite Hl|].
    cbn [tpool set_due set_list set_world]. rewrite Hp. out_simp. set (s1 := set_tpool _ p).
    assert (∃ w, call s1 (t_h t) (t_arg t) = Clean (set_world s1 w) ∧ good w) as (w & -> & Hgw).
    { destruct (t_h t) as [| | |id]; [|done|done|by apply Hquiet]. cbn [call].
      exists (world s1). split; [reflexivity|exact Hg']. }
    out_simp. destruct (IH (set_world s1 w)) as (s3 & Hs3 & Hwf3 & Hn3); try done.
    { cbn. cbn in Hfuel. lia. }
    cbn [next_timeout set_world s1 set_tpool set_due set_list] in Hs3, Hn3. rewrite Hs3. out_simp.
    eexists. done.
Qed.

(** When only one-shot timeouts are pending, whose callbacks leave the timers alone, [sys_check_timeouts] calls exactly those
    that are due, in the order of their expiry, releases their nodes, and keeps
    exactly the others. *)
Theorem sys_check_timeouts_one_shot s :
  (∀ id arg, quiet (user id arg)) → wf s → good (world s) → rel base (sys_now (world s)) = lo →
  ordered base (next_timeout s) → Forall one_shot (next_timeout s) →
  ∃ s', sys_check_timeouts (S (length (next_timeout s))) s =
      Clean (s', filter (λ t, rel base (t_time t) ≤ lo) (next_timeout s)) ∧
    wf s' ∧ next_timeout s' = filter (λ t, lo < rel base (t_time t)) (next_timeout s).
Proof. intros. apply check_loop_one_shot; try done. lia. Qed.
End Expiry.

(** ** Sleep time and rebasing *)

(** [sys_timeouts_sleeptime] returns the distance to the earliest expiry, 0 if one
    has passed, and 0xffffffff exactly when nothing is pending; the assertion on
    the result never fails. *)
Theorem sys_timeouts_sleeptime_spec base s :
  ordered base (next_timeout s) → rel base (sys_now (world s)) ≤ LWIP_MAX_TIMEOUT →
  ∃ r, sys_timeouts_sleeptime s = Clean r ∧
    (r = SYS_TIMEOUTS_SLEEPTIME_INFINITE ↔ next_timeout s = []) ∧
    (next_timeout s ≠ [] → Forall (λ t, rel base (sys_now (world s)) + r ≤ rel base (t_time t)
                                        ∨ r = 0) (next_timeout s) ∧
       Exists (λ t, rel base (t_time t) ≤ rel base (sys_now (world s)) + r) (next_timeout s)).
Proof.
  intros Ho Hn. unfold sys_timeouts_sleeptime. destruct (next_timeout s) as [|t rest].
  { eexists. split; [done|]. done. }
  destruct Ho as [[Hs Ht]%StronglySorted_inv [Hwt Hwr]%Forall_cons].
  unfold in_window in Hwt. pose proof (rel_range base (t_time t)). pose proof (rel_range base (sys_now (world s))).
  rewrite (time_less_than_rel base) by done.
  destruct (Z.ltb_spec (rel base (t_time t)) (rel base (sys_now (world s)))) as [Hlt|Hge].
  - exists 0. split; [done|]. split; [done|]. intros _. split; [apply Forall_true; by right|].
    left. lia.
  - assert (u32 (t_time t - sys_now (world s)) = rel base (t_time t) - rel base (sys_now (world s))) as ->.
    { replace (u32 (t_time t - sys_now (world s)))
        with (u32 (rel base (t_time t) - rel base (sys_now (world s)))).
      - apply u32_id. unfold is_u32, LWIP_MAX_TIMEOUT in *. lia.
      - unfold rel, u32. rewrite <- Zminus_mod. f_equal. lia. }
    rewrite (proj2 (Z.leb_le _ _)) by lia. out_simp. eexists. split; [done|]. split.
    { unfold SYS_TIMEOUTS_SLEEPTIME_INFINITE, LWIP_MAX_TIMEOUT in *. split; [lia|done]. }
    intros _. split; [|left; lia]. constructor; [left; lia|].
    eapply Forall_impl; [exact Ht|]. intros u Hu. unfold before in Hu. cbn in Hu. left. lia.
Qed.

(** [sys_restart_timeouts] makes the earliest timeout due now and keeps all
    distances between timeouts, so the order of expiry is unchanged. *)
Theorem sys_restart_timeouts_spec s base :
  ordered base (next_timeout s) → is_u32 (sys_now (world s)) →
  let now := sys_now (world s) in
  let s' := sys_restart_timeouts s in
  (t_addr <$> next_timeout s') = (t_addr <$> next_timeout s) ∧
  (∀ t0 rest, next_timeout s = t0 :: rest →
     (λ t, rel now (t_time t)) <$> next_timeout s' =
     (λ t, rel base (t_time t) - rel base (t_time t0)) <$> next_timeout s) ∧
  ordered now (next_timeout s').
Proof.
  intros Ho Hnow now s'. unfold s', sys_restart_timeouts.
  destruct (next_timeout s) as [|t0 rest] eqn:Hl; [rewrite Hl; split; [done|]; split; [done|]; split; constructor|].
  fold now. set (f := λ t, SysTimeo _ _ _ _). cbn [next_timeout set_list].
  assert (∀ t, t ∈ t0 :: rest → rel now (t_time (f t)) = rel base (t_time t) - rel base (t_time t0)) as Hf.
  { intros t Hin. destruct Ho as [[_ Ht]%StronglySorted_inv Hw]. rewrite Forall_forall in Hw, Ht.
    assert (rel base (t_time t0) ≤ rel base (t_time t)).
    { apply elem_of_cons in Hin as [->|Hin]; [lia|]. by apply Ht. }
    pose proof (rel_range base (t_time t)). pose proof (rel_range base (t_time t0)).
    assert (rel now (t_time (f t)) = u32 (rel base (t_time t) - rel base (t_time t0))) as ->.
    { unfold rel, f, u32. cbn [t_time]. rewrite Zminus_mod_idemp_l, Z.add_simpl_r, Zmod_mod.
      rewrite <- Zminus_mod. f_equal. lia. }
    apply u32_id. unfold is_u32. lia. }
  split; [by rewrite <- list_fmap_compose|]. split.
  - intros ? ? [= <- <-]. rewrite <- list_fmap_compose. apply list_fmap_ext.
    intros i t Hi. apply Hf. by eapply list_elem_of_lookup_2.
  - clear s' Hl. pose proof (rel_range base (t_time t0)).
    assert (∀ l, (∀ t, t ∈ l → t ∈ t0 :: rest) → ordered base l → ordered now (f <$> l)) as H';
      [|by apply H'].
    induction l as [|u l IH]; intros Hsub [Hs Hw]; [split; constructor|].
    apply StronglySorted_inv in Hs as [Hs Hu]. apply Forall_cons in Hw as [Hwu Hw].
    destruct IH as [IH1 IH2]; [intros; apply Hsub; by right|done|].
    assert (u ∈ t0 :: rest) as Hin by (apply Hsub; by left).
    split; constructor; [done| | |done].
    + apply Forall_fmap. rewrite Forall_forall in Hu |- *. intros v Hv. unfold compose, before.
      rewrite !Hf by (done || (apply Hsub; by right)). specialize (Hu v Hv). unfold before in Hu. lia.
    + unfold in_window in *. rewrite Hf by done. lia.
Qed.
End Timeouts.

(** ** Consequences for this port, and a limit of the design *)

Section Port.
Context {P W : Type} `{PA : PoolAlloc P}.

(** Everything pending lies in the future of a clock that stands at 0. *)
Definition all_future (s : @tstate P W) : Prop :=
  Forall (λ t, 1 ≤ t_time t ≤ LWIP_UINT32_MAX / 4) (next_timeout s).

(** C37: With the clock of this port, [sys_now() == 0], no timeout that was requested for 1 ms or more
    ever fires: as long as everything pending lies in the future, [sys_check_timeouts] returns
    without calling anything, and a request of 1 to UINT32_MAX/4 ms leaves
    everything in the future.  (A request of 0 ms is due at once.) *)
Theorem port_clock_never_fires tcp_pcbs tcp_tmr cyc user ooseq (s : @tstate P W) :
  all_future s →
  (∀ fuel, sys_check_timeouts sys_now_port tcp_pcbs tcp_tmr cyc user ooseq (S fuel) s =
     Clean (set_world s (ooseq (world s)), [])) ∧
  (∀ msecs h arg s' log, 1 ≤ msecs ≤ LWIP_UINT32_MAX / 4 →
     sys_timeout sys_now_port s msecs h arg = Ret s' log → all_future s').
Proof.
  intros Hf. split.
  - intros fuel. unfold sys_check_timeouts. cbn [check_loop next_timeout set_world].
    destruct (next_timeout s) as [|t rest] eqn:Hl; [done|].
    unfold all_future in Hf. rewrite Hl in Hf. apply Forall_cons in Hf as [Ht _].
    unfold sys_now_port, TIME_LESS_THAN, LWIP_MAX_TIMEOUT. rewrite (proj2 (Z.ltb_lt _ _)); [done|].
    change (LWIP_UINT32_MAX / 4) with 1073741823 in Ht. unfold u32.
    rewrite <- (Z.mod_add _ 1), Z.mod_small by lia. lia.
  - intros msecs h arg s' log Hm. unfold sys_timeout. rewrite (proj2 (Z.leb_le _ _)) by lia. out_simp.
    unfold sys_timeout_abs. destruct (pool_malloc (tpool s)) as [[r p] l| |]; cbn; [|done|done].
    destruct (r =? NULL); cbn; intros [= <- _]; [done|]. unfold all_future. cbn [next_timeout set_list].
    rewrite insert_timeout_perm. constructor; [|done]. cbn [t_time].
    change (LWIP_UINT32_MAX / 4) with 1073741823 in *. unfold sys_now_port. rewrite u32_id; unfold is_u32; lia.
Qed.

(** A callback that re-arms itself with 0 ms while the clock stands still is called over and
    over within one call of [sys_check_timeouts], which then never returns: being
    "expired at the start of the function" is not what the loop tests. *)
Theorem sys_check_timeouts_rearm_diverges (sys_now : W → Z) tcp_pcbs tcp_tmr cyc t
    (s : @tstate P W) fuel :
  let rearm := λ id arg s, sys_timeout sys_now s 0 (HUser id) arg in
  wf s → is_u32 (sys_now (world s)) → next_timeout s = [t] → t_h t = HUser 1 →
  t_time t = sys_now (world s) →
  sys_check_timeouts sys_now tcp_pcbs tcp_tmr cyc rearm (λ w, w) fuel s = NoFuel.
Proof.
  intros rearm Hwf Hu Hl Hh Ht. unfold sys_check_timeouts. revert s t Hwf Hu Hl Hh Ht.
  induction fuel as [|fuel IH]; intros s t Hwf Hu Hl Hh Ht; [done|].
  cbn [check_loop next_timeout set_world]. rewrite Hl, <- Ht.
  assert (TIME_LESS_THAN (t_time t) (t_time t) = false) as ->.
  { unfold TIME_LESS_THAN. by rewrite Z.sub_diag. }
  destruct (release_node s t [] Hwf) as (p & Hp & Hwf1); [by rewrite Hl|].
  cbn [tpool set_due set_list set_world]. rewrite Hp. out_simp. rewrite Hh. cbn [call].
  set (s1 := set_tpool _ p). 
  assert (rearm 1 (t_arg t) s1 = sys_timeout_abs s1 (sys_now (world s)) (HUser 1) (t_arg t)) as ->.
  { unfold rearm, sys_timeout. change (0 <=? LWIP_UINT32_MAX / 4) with true. out_simp.
    change (world s1) with (world s). by rewrite Z.add_0_r, u32_id. }
  pose proof (wf_bound s Hwf) as Hb. rewrite Hl in Hb. cbn [length] in Hb.
  destruct (sys_timeout_abs_ok s1 (sys_now (world s)) (HUser 1) (t_arg t) Hwf1) as (addr & q & -> & Hwf2).
  { cbn. lia. }
  out_simp. set (s2 := set_tpool _ q) in *.
  assert (check_loop sys_now tcp_pcbs tcp_tmr cyc rearm (λ w, w) fuel (t_time t) s2 = NoFuel) as ->; [|done].
  rewrite Ht. change (world s) with (world s2). by apply (IH s2 (SysTimeo addr (sys_now (world s)) (HUser 1) (t_arg t))).
Qed.
End Port.

(** ** Witnesses: the timeout pool of memp.c with two nodes, and a clock at 100 *)

Definition ex_pa : PoolAlloc memp_st := memp_pool 0 2.
#[local] Existing Instance ex_pa | 0.

Definition ex_now (w : Z) : Z := w.
Definition ex_ts0 : @tstate memp_st Z := TState [] 0 false ex_st1 100.

Lemma ex_ts0_wf : wf ex_ts0.
Proof. split; [constructor|]. exact ex_st1_ok1. Qed.

(** Two timeouts pending: one due at 100 and one due at 180. *)
Lemma ex_pending : ∃ s : @tstate memp_st Z, wf s ∧ world s = 100 ∧ ∃ a1 a2,
  next_timeout s = [SysTimeo a1 100 (HUser 1) 7; SysTimeo a2 180 HCyclic 1].
Proof.
  destruct (sys_timeout_abs_ok ex_ts0 180 HCyclic 1 ex_ts0_wf) as (a2 & p & _ & Hwf1); [cbn; lia|].
  destruct (sys_timeout_abs_ok _ 100 (HUser 1) 7 Hwf1) as (a1 & q & _ & Hwf2); [cbn; lia|].
  eexists. split; [exact Hwf2|]. split; [done|]. by exists a1, a2.
Qed.

Lemma ex_pending_ordered a1 a2 : ordered 0 [SysTimeo a1 100 (HUser 1) 7; SysTimeo a2 180 HCyclic 1].
Proof.
  split.
  - constructor; [constructor; constructor|]. constructor; [|constructor]. vm_compute. discriminate.
  - constructor; [vm_compute; discriminate|]. constructor; [vm_compute; discriminate|constructor].
Qed.

Lemma sys_timeout_sorted_witness :
  ∃ s' t l1 l2, sys_timeout ex_now ex_ts0 50 (HUser 3) 9 = Clean s' ∧ wf s' ∧
    next_timeout s' = l1 ++ t :: l2 ∧ t_time t = 150.
Proof.
  destruct (sys_timeout_sorted ex_now 0 ex_ts0 50 (HUser 3) 9)
    as (s' & t & l1 & l2 & H1 & H2 & _ & H3 & _ & _ & _ & H4 & _).
  - exact ex_ts0_wf.
  - split; constructor.
  - cbn. lia.
  - vm_compute. discriminate.
  - vm_compute. discriminate.
  - exists s', t, l1, l2. split; [exact H1|]. split; [exact H2|]. split; [exact H4|]. exact H3.
Defined.

Lemma sys_timeout_exhausted_witness :
  ∃ s s' : @tstate memp_st Z, wf s ∧ length (next_timeout s) = 2%nat ∧
    sys_timeout ex_now s 10 (HUser 3) 9 =
      Ret s' ["sys_timeout: timeout != NULL, pool MEMP_SYS_TIMEOUT is empty"%string].
Proof.
  destruct ex_pending as (s & Hwf & Hw & a1 & a2 & Hl). exists s.
  destruct (sys_timeout_exhausted ex_now s 10 (HUser 3) 9 Hwf) as (s' & H & _).
  - rewrite Hl. reflexivity.
  - vm_compute. discriminate.
  - exists s'. split; [exact Hwf|]. split; [rewrite Hl; reflexivity|exact H].
Defined.

Lemma sys_untimeout_spec_witness :
  ∃ s s' : @tstate memp_st Z, wf s ∧ sys_untimeout s HCyclic 1 = Clean s' ∧ wf s'.
Proof.
  destruct ex_pending as (s & Hwf & Hw & a1 & a2 & Hl). exists s.
  destruct (sys_untimeout_spec 0 s HCyclic 1 Hwf) as (s' & H & Hwf' & _).
  - rewrite Hl. apply ex_pending_ordered.
  - exists s'. split; [exact Hwf|]. split; [exact H|exact Hwf'].
Defined.

(** A clock that does not move during the call, and callbacks that do nothing. *)
Definition ex_quiet (s : @tstate memp_st Z) : out (@tstate memp_st Z) := mret s.
Definition ex_cyc : list (Z * (@tstate memp_st Z → out (@tstate memp_st Z))) :=
  [(250, ex_quiet); (1000, ex_quiet)].
Definition ex_good (w : Z) : Prop := w = 100.

Lemma ex_quiet_ok : quiet ex_good ex_quiet.
Proof. intros s Hg. exists (world s). split; [by destruct s|exact Hg]. Qed.

(** A callback that, like that of SNTP, arms its timeout again, for 15 seconds later. *)
Definition ex_rearm (id arg : Z) (s : @tstate memp_st Z) : out (@tstate memp_st Z) := sys_timeout ex_now s 15000 (HUser 1) arg.

Lemma ex_clock w : ex_good w → is_u32 (ex_now w) ∧ 100 ≤ rel 0 (ex_now w) ≤ 100 + 2 ^ 29.
Proof. intros ->. split; [decide_now|vm_compute; split; discriminate]. Qed.
Lemma ex_window : 100 + 2 ^ 29 + 2 ^ 30 ≤ LWIP_MAX_TIMEOUT.
Proof. vm_compute. discriminate. Qed.

Lemma ex_rearm_friendly arg : friendly ex_cyc 0 100 ex_good (ex_rearm 1 arg).
Proof. apply (rearm_friendly ex_now ex_cyc 0 100 ex_good ex_clock ex_window); [vm_compute; split; discriminate|intros Hh; discriminate Hh]. Qed.

Lemma ex_sparing : sparing ex_cyc 0 100 ex_good ex_quiet.
Proof. apply quiet_sparing. exact ex_quiet_ok. Qed.

Lemma sys_check_timeouts_complete_witness :
  ∃ s s' fired, wf s ∧
    sys_check_timeouts ex_now (λ _, true) ex_quiet ex_cyc ex_rearm (λ w, w) 5 s
    = Clean (s', fired) ∧ Forall (λ t, 100 < rel 0 (t_time t)) (next_timeout s').
Proof.
  destruct ex_pending as (s & Hwf & Hw & a1 & a2 & Hl). exists s.
  destruct (sys_check_timeouts_complete ex_now (λ _, true) ex_quiet ex_cyc ex_rearm (λ w, w)
    0 100 ex_good) with (s := s) as (s' & fired & H1 & _ & _ & _ & H2).
  - exact ex_clock.
  - exact ex_window.
  - intros w Hg. exact Hg.
  - intros id arg. exact (ex_rearm_friendly arg).
  - apply ex_sparing.
  - constructor; [|constructor; [|constructor]];
      (split; [vm_compute; split; discriminate|apply ex_sparing]).
  - exact Hwf.
  - exact Hw.
  - rewrite Hw. reflexivity.
  - rewrite Hl. apply ex_pending_ordered.
  - rewrite Hl. constructor; [intros Hh; discriminate Hh|].
    constructor; [|constructor]. intros _. eexists. reflexivity.
  - exists s', fired. split; [exact Hwf|]. rewrite Hl in H1. split; [exact H1|exact H2].
Defined.

Lemma sys_check_timeouts_one_shot_witness :
  ∃ s s' t, wf s ∧ t_time t = 100 ∧
    sys_check_timeouts ex_now (λ _, true) ex_quiet ex_cyc (λ _ _, ex_quiet) (λ w, w) 2 s
    = Clean (s', [t]) ∧ next_timeout s' = [].
Proof.
  destruct (sys_timeout_abs_ok ex_ts0 100 (HUser 1) 7 ex_ts0_wf) as (a & p & _ & Hwf1); [cbn; lia|].
  set (s := set_tpool _ p) in Hwf1. exists s.
  destruct (sys_check_timeouts_one_shot ex_now (λ _, true) ex_quiet ex_cyc (λ _ _, ex_quiet) (λ w, w)
    0 100 ex_good) with (s := s) as (s' & H1 & H2 & H3).
  - vm_compute. discriminate.
  - intros w Hg. exact Hg.
  - intros _ _. exact ex_quiet_ok.
  - exact Hwf1.
  - reflexivity.
  - reflexivity.
  - split; (constructor; [|constructor]); [constructor|vm_compute; discriminate].
  - constructor; [|constructor]. split; discriminate.
  - exists s', (SysTimeo a 100 (HUser 1) 7). split; [exact Hwf1|]. split; [reflexivity|].
    split; [exact H1|exact H3].
Defined.

Lemma sys_timeouts_sleeptime_spec_witness :
  ∃ s r, wf s ∧ sys_timeouts_sleeptime ex_now s = Clean r ∧ r ≠ SYS_TIMEOUTS_SLEEPTIME_INFINITE.
Proof.
  destruct ex_pending as (s & Hwf & Hw & a1 & a2 & Hl).
  destruct (sys_timeouts_sleeptime_spec ex_now 0 s) as (r & H1 & H2 & _).
  - rewrite Hl. apply ex_pending_ordered.
  - rewrite Hw. vm_compute. discriminate.
  - exists s, r. split; [exact Hwf|]. split; [exact H1|]. intros Hr. apply H2 in Hr.
    rewrite Hl in Hr. discriminate.
Defined.

Lemma sys_restart_timeouts_spec_witness :
  ∃ s, wf s ∧ (λ t, rel 100 (t_time t)) <$> next_timeout (sys_restart_timeouts ex_now s) = [0; 80].
Proof.
  destruct ex_pending as (s & Hwf & Hw & a1 & a2 & Hl). exists s. split; [exact Hwf|].
  destruct (sys_restart_timeouts_spec ex_now s 0) as (_ & H & _).
  - rewrite Hl. apply ex_pending_ordered.
  - rewrite Hw. decide_now.
  - rewrite Hw in H. specialize (H _ _ Hl). rewrite Hl in H. exact H.
Defined.

Lemma port_clock_never_fires_witness :
  ∃ s, all_future s ∧ length (next_timeout s) = 2%nat ∧
    sys_check_timeouts sys_now_port (λ _, true) ex_quiet ex_cyc (λ _ _, ex_quiet) (λ w, w) 1 s
    = Clean (set_world s (world s), []).
Proof.
  destruct ex_pending as (s & Hwf & Hw & a1 & a2 & Hl). exists s.
  assert (all_future s) as Hf.
  { unfold all_future. rewrite Hl. repeat constructor; vm_compute; discriminate. }
  split; [exact Hf|]. split; [rewrite Hl; reflexivity|].
  apply (port_clock_never_fires (λ _, true) ex_quiet ex_cyc (λ _ _, ex_quiet) (λ w, w) s Hf).
Defined.

Lemma sys_check_timeouts_rearm_diverges_witness :
  ∃ s : @tstate memp_st Z, wf s ∧
    sys_check_timeouts ex_now (λ _, true) ex_quiet ex_cyc
      (λ id arg s, sys_timeout ex_now s 0 (HUser id) arg) (λ w, w) 50 s = NoFuel.
Proof.
  destruct (sys_timeout_abs_ok ex_ts0 100 (HUser 1) 7 ex_ts0_wf) as (a & p & _ & Hwf1); [cbn; lia|].
  eexists. split; [exact Hwf1|].
  apply (sys_check_timeouts_rearm_diverges ex_now (λ _, true) ex_quiet ex_cyc
    (SysTimeo a 100 (HUser 1) 7)); [exact Hwf1|decide_now|reflexivity..].
Defined.
