(* ===== verification/Alloc.v ===== *)
(** * The allocators behind pbuf.c

    The heap of mem.c and the pools [MEMP_PBUF] and [MEMP_PBUF_POOL] of memp.c together
    meet the contract [Iface.PbufAlloc], when their arrays do not overlap. *)
From S2P Require Import Prelude Stats Iface Memp Mem.

(** The arrays: the heap at [hp], and the pools number [i1] and [i2] of [ds]. *)
Record arrays := Arrays { hp : Z; ds : list memp_desc; i1 : nat; i2 : nat }.

Definition outside_heap (hp : Z) (d : memp_desc) : Prop :=
  hp + MEM_SIZE_ALIGNED ≤ d_base d ∨ d_base d + d_num d * d_size d ≤ hp.

Record arrays_ok (A : arrays) : Prop := ArraysOk {
  ao_layout : layout_ok (ds A);
  ao_ne : i1 A ≠ i2 A;
  ao_hp : 0 < hp A;
  ao_1 : ∃ d, ds A !! i1 A = Some d ∧ d_size d = src_size SrcPbuf 0 ∧ outside_heap (hp A) d;
  ao_2 : ∃ d, ds A !! i2 A = Some d ∧ d_size d = src_size SrcPool 0 ∧ outside_heap (hp A) d }.

Definition pool_of (A : arrays) (k : asrc) : nat := match k with SrcPbuf => i1 A | _ => i2 A end.

Definition pb_malloc (A : arrays) (st : heap * memp_st) (k : asrc) (n : Z) : out (Z * (heap * memp_st)) :=
  match k with
  | SrcHeap => '(r, h) ← mem_malloc st.1 n; mret (r, (h, st.2))
  | _ => '(r, m) ← memp_malloc st.2 (pool_of A k); mret (r, (st.1, m))
  end.

Definition pb_free (A : arrays) (st : heap * memp_st) (k : asrc) (p : Z) : out (heap * memp_st) :=
  match k with
  | SrcHeap => h ← mem_free st.1 p; mret (h, st.2)
  | _ => m ← memp_free st.2 (pool_of A k) p; mret (st.1, m)
  end.

Definition pb_trim (st : heap * memp_st) (p n : Z) : out (Z * (heap * memp_st)) :=
  '(r, h) ← mem_trim st.1 p n; mret (r, (h, st.2)).

(** The memory the blocks lie in. *)
Definition in_array (d : memp_desc) (a : Z) : Prop := d_base d ≤ a < d_base d + d_num d * d_size d.

Definition pb_arena (A : arrays) (a : Z) : Prop :=
  hp A ≤ a < hp A + MEM_SIZE_ALIGNED ∨ ∃ k d, k ≠ SrcHeap ∧ ds A !! pool_of A k = Some d ∧ in_array d a.

(** A block handed out: on the heap, or a live element of its pool. *)
Definition handed_out (A : arrays) (L : gmap Z Z) (a : list apool) (p : Z) (k : asrc) (n : Z) : Prop :=
  match k with
  | SrcHeap => L !! p = Some n
  | _ => n = src_size k 0 ∧ ∃ ap, a !! pool_of A k = Some ap ∧ p ∈ a_live ap
  end.

Record pb_rep (A : arrays) (st : heap * memp_st) (L : gmap Z Z) (a : list apool) : Prop := PbRep {
  pb_heap : heap_live (hp A) st.1 L;
  pb_pools : Memp.rep st.2 a;
  pb_descs : p_desc <$> memp_pools st.2 = ds A }.

Definition pb_ok (A : arrays) (st : heap * memp_st) (live : gmap Z (asrc * Z)) : Prop :=
  ∃ L a, pb_rep A st L a ∧ ∀ p k n, live !! p = Some (k, n) → handed_out A L a p k n.

Section Arrays.
Context (A : arrays) (HA : arrays_ok A).

Lemma pool_desc k : k ≠ SrcHeap → ∃ d, ds A !! pool_of A k = Some d ∧ desc_ok d ∧
  d_size d = src_size k 0 ∧ outside_heap (hp A) d.
Proof.
  intros Hk. destruct (ao_layout _ HA) as [Hd _]. rewrite Forall_lookup in Hd.
  destruct k; [done|destruct (ao_1 _ HA) as (d & H1 & H2 & H3)|destruct (ao_2 _ HA) as (d & H1 & H2 & H3)];
    exists d; split_and!; try done; by eapply Hd.
Qed.

(** The array of pool [k], seen from a representation. *)
Lemma pool_live_elem st L a k ap p d : pb_rep A st L a → a !! pool_of A k = Some ap → p ∈ a_live ap →
  ds A !! pool_of A k = Some d → pool_elem d p.
Proof.
  intros [_ Hrep Hds] Hap Hp Hd. destruct (rep_lookup_r _ _ _ _ Hrep Hap) as (pl & Hpl & Hpr & _).
  apply (f_equal (λ l, l !! pool_of A k)) in Hds. rewrite list_lookup_fmap, Hpl, Hd in Hds.
  injection Hds as <-. apply (pr_elem _ _ _ Hpr). by right.
Qed.

Lemma pool_elem_in d p : desc_ok d → pool_elem d p →
  d_base d ≤ p ∧ p + d_size d ≤ d_base d + d_num d * d_size d.
Proof. intros (H1 & H2 & H3) (k & Hk & ->). nia. Qed.

Lemma pool_elem_apart d p q : desc_ok d → pool_elem d p → pool_elem d q → p ≠ q →
  blocks_disjoint p (d_size d) q (d_size d).
Proof.
  intros (H1 & H2 & _) (i & Hi & ->) (j & Hj & ->) Hne. unfold blocks_disjoint.
  destruct (decide (i < j)); [left; nia|]. right. assert (j < i); [|nia].
  destruct (decide (i = j)) as [->|]; [done|lia].
Qed.

Lemma heap_region h L p n : heap_live (hp A) h L → L !! p = Some n →
  hp A ≤ p ∧ p + n ≤ hp A + MEM_SIZE_ALIGNED ∧ 0 < n.
Proof.
  intros (bs & Hinv & <- & HL) Hp%HL. apply live_bounds in Hp; [|by eapply inv_lens].
  rewrite (i_len _ _ (i_shape _ _ Hinv)) in Hp. heap_lia.
Qed.

Lemma heap_apart h L p n q m : heap_live (hp A) h L → L !! p = Some n → L !! q = Some m → p ≠ q →
  blocks_disjoint p n q m.
Proof.
  intros (bs & Hinv & <- & HL) Hp%HL Hq%HL Hne.
  apply elem_of_Permutation in Hp as (rest & Hperm). rewrite Hperm in Hq.
  apply elem_of_cons in Hq as [[= ? ?]|Hq]; [lia|].
  pose proof (live_perm_disjoint _ _ _ _ _ _ (inv_lens _ _ Hinv) Hperm Hq). unfold blocks_disjoint. lia.
Qed.

(** Where a block handed out lies. *)
Lemma handed_region st L a p k n : pb_rep A st L a → handed_out A L a p k n → 0 < n < 65536 ∧
  match k with
  | SrcHeap => hp A ≤ p ∧ p + n ≤ hp A + MEM_SIZE_ALIGNED
  | _ => ∃ d, ds A !! pool_of A k = Some d ∧ pool_elem d p ∧ n = d_size d ∧
           d_base d ≤ p ∧ p + n ≤ d_base d + d_num d * d_size d
  end.
Proof.
  intros Hr Hh. destruct (decide (k = SrcHeap)) as [->|Hk].
  - cbn in Hh. pose proof (heap_region _ _ _ _ (pb_heap _ _ _ _ Hr) Hh). split; [heap_lia|lia].
  - destruct (pool_desc k Hk) as (d & Hd & Hok & Hsz & _).
    destruct k as [| |]; [done|..]; destruct Hh as (-> & ap & Hap & Hp);
      pose proof (pool_live_elem _ _ _ _ _ _ d Hr Hap Hp Hd) as He;
      pose proof (pool_elem_in _ _ Hok He); (split; [done|]); exists d; cbn in Hsz; rewrite Hsz in *; done.
Qed.

Lemma handed_pos st L a p k n : pb_rep A st L a → handed_out A L a p k n →
  0 < p ∧ ∀ x, p ≤ x < p + n → pb_arena A x.
Proof.
  intros Hr Hh. destruct (handed_region _ _ _ _ _ _ Hr Hh) as [Hn Hreg].
  destruct (decide (k = SrcHeap)) as [->|Hk].
  - pose proof (ao_hp _ HA). split; [lia|]. intros x Hx. left. lia.
  - destruct (pool_desc k Hk) as (d & Hd & (Hb & _) & _).
    assert (d_base d ≤ p ∧ p + n ≤ d_base d + d_num d * d_size d) as Hp.
    { destruct k; [done|..]; destruct Hreg as (d' & Hd' & _ & _ & ?); rewrite Hd in Hd'; by injection Hd' as <-. }
    split; [lia|]. intros x Hx. right. exists k, d. unfold in_array. split_and!; [done..|lia|lia].
Qed.

Lemma blocks_disjoint_sym p n q m : blocks_disjoint p n q m → blocks_disjoint q m p n.
Proof. unfold blocks_disjoint. tauto. Qed.

(** Blocks of different pools, and pool and heap blocks, lie in different arrays. *)
Lemma pool_heap_apart st L a p k n q m : pb_rep A st L a → k ≠ SrcHeap →
  handed_out A L a p k n → handed_out A L a q SrcHeap m → blocks_disjoint p n q m.
Proof.
  intros Hr Hk Hp Hq. destruct (handed_region _ _ _ _ _ _ Hr Hp) as [Hn Hp'].
  destruct (handed_region _ _ _ _ _ _ Hr Hq) as [Hm Hq'].
  destruct (pool_desc k Hk) as (d & Hd & _ & _ & Hout). unfold outside_heap, blocks_disjoint in *.
  destruct k; [done|..]; destruct Hp' as (d' & Hd' & _ & _ & ?); rewrite Hd in Hd'; injection Hd' as <-; lia.
Qed.

Lemma handed_apart st L a p k n q k' m : pb_rep A st L a → handed_out A L a p k n →
  handed_out A L a q k' m → p ≠ q ∨ k ≠ k' → blocks_disjoint p n q m.
Proof.
  intros Hr Hp Hq Hne. destruct (decide (k = SrcHeap)) as [->|Hk].
  { destruct (decide (k' = SrcHeap)) as [->|Hk'].
    - destruct Hne as [Hne|?]; [|done]. by eapply heap_apart; [apply Hr|..].
    - apply blocks_disjoint_sym. by eapply (pool_heap_apart _ _ _ q k'). }
  destruct (decide (k' = SrcHeap)) as [->|Hk']; [by eapply (pool_heap_apart _ _ _ p k)|].
  destruct (handed_region _ _ _ _ _ _ Hr Hp) as [_ Hp']. destruct (handed_region _ _ _ _ _ _ Hr Hq) as [_ Hq'].
  assert (∃ d, ds A !! pool_of A k = Some d ∧ pool_elem d p ∧ n = d_size d ∧
    d_base d ≤ p ∧ p + n ≤ d_base d + d_num d * d_size d) as (d & Hd & He & Hn & Hin) by (by destruct k).
  assert (∃ d, ds A !! pool_of A k' = Some d ∧ pool_elem d q ∧ m = d_size d ∧
    d_base d ≤ q ∧ q + m ≤ d_base d + d_num d * d_size d) as (d' & Hd' & He' & Hm & Hin') by (by destruct k').
  destruct (ao_layout _ HA) as [Hall Hlay]. rewrite Forall_lookup in Hall.
  destruct (decide (k = k')) as [<-|Hkk].
  - rewrite Hd in Hd'. injection Hd' as <-. subst n m. destruct Hne as [Hne|?]; [|done].
    apply pool_elem_apart; try done. by eapply Hall.
  - pose proof (ao_ne _ HA). assert (pool_of A k ≠ pool_of A k') as Hi by (destruct k, k'; done || cbn; congruence).
    specialize (Hlay _ _ _ _ Hi Hd Hd'). unfold blocks_disjoint. lia.
Qed.

Lemma handed_fresh st L a p k n k' m : pb_rep A st L a → handed_out A L a p k n →
  handed_out A L a p k' m → k = k'.
Proof.
  intros Hr Hp Hq. destruct (decide (k = k')) as [|Hne]; [done|].
  pose proof (handed_apart _ _ _ _ _ _ _ _ _ Hr Hp Hq (or_intror Hne)) as H. unfold blocks_disjoint in H.
  destruct (handed_region _ _ _ _ _ _ Hr Hp) as [? _]. destruct (handed_region _ _ _ _ _ _ Hr Hq) as [? _]. lia.
Qed.

Lemma handed_pool L a p k n : k ≠ SrcHeap →
  handed_out A L a p k n ↔ n = src_size k 0 ∧ ∃ ap, a !! pool_of A k = Some ap ∧ p ∈ a_live ap.
Proof. by destruct k. Qed.

(** Allocation from a pool. *)
Lemma pool_malloc_run st L a k : pb_rep A st L a → k ≠ SrcHeap → ∃ r m a',
  memp_malloc st.2 (pool_of A k) = Clean (r, m) ∧ pb_rep A (st.1, m) L a' ∧
  ((r = NULL ∧ a' = a) ∨
   (0 < r ∧ handed_out A L a' r k (src_size k 0) ∧ ¬ handed_out A L a r k (src_size k 0) ∧
    ∀ q k' n, handed_out A L a q k' n → handed_out A L a' q k' n)).
Proof.
  intros Hr Hk. destruct (pool_desc k Hk) as (d & Hd & Hdok & Hsz & _). destruct Hr as [Hh Hrep Hds].
  assert (∃ pl, memp_pools st.2 !! pool_of A k = Some pl ∧ p_desc pl = d) as (pl & Hpl & Hpd).
  { apply (f_equal (λ l, l !! pool_of A k)) in Hds. rewrite list_lookup_fmap, Hd in Hds.
    destruct (memp_pools st.2 !! pool_of A k) as [pl|]; [|done]. injection Hds as <-. eauto. }
  destruct (rep_lookup _ _ _ _ Hrep Hpl) as (ap & Hap & Hpr & _). rewrite <- Hpd in Hdok.
  assert (∃ r a', Memp.amalloc a (pool_of A k) = Some (r, a')) as (r & a' & Ham).
  { unfold Memp.amalloc. rewrite Hap. destruct (a_free ap); eauto. }
  destruct (do_memp_malloc_pool_refines _ _ _ _ _ Hrep Ham) as (m & Hm & Hrep').
  pose proof (do_memp_malloc_desc _ _ _ _ Hm) as Hdm.
  exists r, m, a'. split_and!.
  - unfold memp_malloc, MEMP_MAX. rewrite (proj2 (Nat.ltb_lt _ _)) by (by eapply lookup_lt_Some). done.
  - split; [done|done|]. cbn. by rewrite Hdm.
  - unfold Memp.amalloc in Ham. rewrite Hap in Ham. destruct (a_free ap) as [|x fs] eqn:Hf; injection Ham as <- <-.
    { by left. }
    right. assert (pool_elem (p_desc pl) x) as Hx by (apply (pr_elem _ _ _ Hpr); left; rewrite Hf; by left).
    assert (x ∉ a_live ap) as Hnl by (apply (pr_disj _ _ _ Hpr); rewrite Hf; by left).
    pose proof (pool_elem_in _ _ Hdok Hx). destruct Hdok as (? & _).
    assert (pool_of A k < length a)%nat as Hlt by (by eapply lookup_lt_Some).
    split_and!; [lia|..].
    + apply handed_pool; [done|]. split; [done|]. rewrite list_lookup_insert_eq by done.
      eexists. split; [done|]. cbn. apply elem_of_union_l. by apply elem_of_singleton.
    + intros (_ & ap' & Hap' & Hin)%handed_pool; [|done]. rewrite Hap in Hap'. by injection Hap' as <-.
    + intros q k' n Hq. destruct (decide (k' = SrcHeap)) as [->|Hk']; [done|].
      apply handed_pool in Hq as (-> & ap' & Hap' & Hin); [|done]. apply handed_pool; [done|]. split; [done|].
      destruct (decide (pool_of A k = pool_of A k')) as [Heq|Hne].
      * rewrite <- Heq in Hap' |- *. rewrite Hap in Hap'. injection Hap' as <-.
        rewrite list_lookup_insert_eq by done. eexists. split; [done|]. cbn. by apply elem_of_union_r.
      * rewrite list_lookup_insert_ne by done. eauto.
Qed.

(** Giving a block back to its pool. *)
Lemma pool_free_run st L a k p : pb_rep A st L a → k ≠ SrcHeap → handed_out A L a p k (src_size k 0) →
  ∃ m a', memp_free st.2 (pool_of A k) p = Clean m ∧ pb_rep A (st.1, m) L a' ∧
    ∀ q k' n, handed_out A L a q k' n → q ≠ p ∨ k' ≠ k → handed_out A L a' q k' n.
Proof.
  intros Hr Hk Hp. pose proof (handed_pos _ _ _ _ _ _ Hr Hp) as [Hpos _].
  apply handed_pool in Hp as (_ & ap & Hap & Hin); [|done]. destruct Hr as [Hh Hrep Hds].
  destruct (do_memp_free_pool_refines st.2 a (pool_of A k) p
    (<[pool_of A k := APool (p :: a_free ap) (a_live ap ∖ {[p]})]> a)) as (m & Hm & Hrep'); [done| |].
  { unfold Memp.afree. rewrite Hap. by rewrite decide_True. }
  assert (pool_of A k < length a)%nat as Hlt by (by eapply lookup_lt_Some).
  eexists m, _. split_and!.
  - unfold memp_free, MEMP_MAX. rewrite (rep_length _ _ Hrep), (proj2 (Nat.ltb_lt _ _)) by done.
    cbn [negb]. by rewrite (proj2 (Z.eqb_neq p NULL)) by (unfold NULL; lia).
  - split; [done|exact Hrep'|]. cbn. by rewrite (do_memp_free_desc _ _ _ _ Hm).
  - intros q k' n Hq Hne. destruct (decide (k' = SrcHeap)) as [->|Hk']; [done|].
    apply handed_pool in Hq as (-> & ap' & Hap' & Hin'); [|done]. apply handed_pool; [done|]. split; [done|].
    destruct (decide (pool_of A k = pool_of A k')) as [Heq|Hne'].
    + assert (k' = k) as -> by (pose proof (ao_ne _ HA); destruct k, k'; done || (cbn in Heq; congruence)).
      rewrite Hap in Hap'. injection Hap' as <-. rewrite list_lookup_insert_eq by done.
      eexists. split; [done|]. cbn. apply elem_of_difference. split; [done|].
      rewrite elem_of_singleton. tauto.
    + rewrite list_lookup_insert_ne by done. eauto.
Qed.

(** ** The laws of the contract *)

Lemma malloc_finish (live : gmap Z (asrc * Z)) L a st' L' a' r k cap :
  (∀ p k n, live !! p = Some (k, n) → handed_out A L a p k n) → pb_rep A st' L' a' →
  handed_out A L' a' r k cap →
  (∀ q k' n, handed_out A L a q k' n → handed_out A L' a' q k' n ∧ (q ≠ r ∨ k' ≠ k)) →
  pb_ok A st' (<[r:=(k, cap)]> live) ∧ live !! r = None ∧
  ∀ q k' m, live !! q = Some (k', m) → blocks_disjoint q m r cap.
Proof.
  intros Hlive Hr' Hnew Hold.
  assert (live !! r = None) as Hnone.
  { destruct (live !! r) as [[k' m]|] eqn:E; [|done]. destruct (Hold _ _ _ (Hlive _ _ _ E)) as [H1 [?|H2]]; [done|].
    destruct H2. by apply (handed_fresh _ _ _ _ _ _ _ _ Hr' H1 Hnew). }
  split_and!; [|done|].
  - exists L', a'. split; [done|]. intros p k' n [[<- [= <- <-]]|[Hne Hp]]%lookup_insert_Some; [done|].
    by apply Hold, Hlive.
  - intros q k' m Hq. destruct (Hold _ _ _ (Hlive _ _ _ Hq)) as [H1 H2].
    by apply (handed_apart _ _ _ _ _ _ _ _ _ Hr' H1 Hnew).
Qed.

Lemma pb_malloc_law st live k n : pb_ok A st live → is_u16 n → ∃ r st',
  pb_malloc A st k n = Clean (r, st') ∧
  ((r = NULL ∧ pb_ok A st' live) ∨
   (0 < r ∧ ∃ cap, src_size k n ≤ cap ∧ pb_ok A st' (<[r:=(k, cap)]> live) ∧
      live !! r = None ∧ ∀ q k' m, live !! q = Some (k', m) → blocks_disjoint q m r cap)).
Proof.
  intros (L & a & Hr & Hlive) Hn. destruct (decide (k = SrcHeap)) as [->|Hk].
  - destruct (heap_live_malloc _ _ _ n (pb_heap _ _ _ _ Hr) Hn) as (r & h & Hm & Hcase).
    exists r, (h, st.2). unfold pb_malloc. rewrite Hm. split; [done|]. destruct Hr as [Hh Hp Hd].
    destruct Hcase as [[-> Hh']|(Hr0 & cap & Hcap & Hh' & Hdis)].
    + left. split; [done|]. exists L, a. done.
    + right. split; [done|]. exists cap. split; [done|].
      assert (L !! r = None) as Hnone.
      { destruct (L !! r) as [m|] eqn:E; [|done].
        pose proof (heap_region h _ r cap Hh' (lookup_insert_eq _ _ _)).
        pose proof (heap_region _ _ _ _ Hh E). specialize (Hdis _ _ E). lia. }
      apply (malloc_finish live L a _ (<[r:=cap]> L) a); [done|done|apply lookup_insert_eq|].
      intros q k' m Hq. destruct (decide (k' = SrcHeap)) as [->|Hk'].
      * cbn in Hq |- *. assert (q ≠ r) by congruence. split; [|by left]. by rewrite lookup_insert_ne.
      * split; [|by right]. by apply handed_pool in Hq; [apply handed_pool|].
  - destruct (pool_malloc_run _ _ _ k Hr Hk) as (r & m & a' & Hm & Hr' & Hcase).
    exists r, (st.1, m). split; [destruct k; [done|..]; unfold pb_malloc; by rewrite Hm|].
    destruct Hcase as [[-> ->]|(Hr0 & Hnew & Hno & Hold)].
    + left. split; [done|]. by exists L, a.
    + right. split; [done|]. exists (src_size k 0). split; [by destruct k|].
      apply (malloc_finish live L a _ L a'); [done..|]. intros q k' n' Hq. split; [by apply Hold|].
      destruct (decide (q = r)) as [->|]; [|by left]. right. intros ->. apply Hno.
      pose proof Hq as Hq'. apply handed_pool in Hq' as [-> _]; done.
Qed.

Lemma pb_free_law st live k p n : pb_ok A st live → live !! p = Some (k, n) → ∃ st',
  pb_free A st k p = Clean st' ∧ pb_ok A st' (delete p live).
Proof.
  intros (L & a & Hr & Hlive) Hp. pose proof (Hlive _ _ _ Hp) as Hh. destruct (decide (k = SrcHeap)) as [->|Hk].
  - cbn in Hh. destruct (heap_live_free _ _ _ _ _ (pb_heap _ _ _ _ Hr) Hh) as (h & Hf & Hh').
    exists (h, st.2). unfold pb_free. rewrite Hf. split; [done|]. exists (delete p L), a.
    destruct Hr as [? ? ?]. split; [done|]. intros q k' m [Hne Hq]%lookup_delete_Some.
    specialize (Hlive _ _ _ Hq). destruct (decide (k' = SrcHeap)) as [->|Hk'].
    + cbn in *. by rewrite lookup_delete_ne.
    + by apply handed_pool in Hlive; [apply handed_pool|].
  - pose proof Hh as [-> _]%handed_pool; [|done].
    destruct (pool_free_run _ _ _ k p Hr Hk Hh) as (m & a' & Hf & Hr' & Hold).
    exists (st.1, m). split; [destruct k; [done|..]; unfold pb_free; by rewrite Hf|].
    exists L, a'. split; [done|]. intros q k' m' [Hne Hq]%lookup_delete_Some. apply Hold; [auto|by left].
Qed.

Lemma pb_trim_law st live p n m : pb_ok A st live → live !! p = Some (SrcHeap, n) → is_u16 m → m ≤ n →
  ∃ st' n' log, pb_trim st p m = Ret (p, st') log ∧ m ≤ n' ≤ n ∧
    pb_ok A st' (<[p:=(SrcHeap, n')]> live).
Proof.
  intros (L & a & Hr & Hlive) Hp Hm Hle. pose proof (Hlive _ _ _ Hp) as Hh. cbn in Hh.
  destruct (heap_live_trim _ _ _ _ _ _ (pb_heap _ _ _ _ Hr) Hh Hm Hle) as (h & n' & log & Ht & Hn' & Hh').
  exists (h, st.2), n', (log ++ []). unfold pb_trim. rewrite Ht. split; [done|]. split; [done|].
  exists (<[p:=n']> L), a. destruct Hr as [? ? ?]. split; [done|].
  intros q k m' [[<- [= <- <-]]|[Hne Hq]]%lookup_insert_Some; [apply lookup_insert_eq|].
  specialize (Hlive _ _ _ Hq). destruct (decide (k = SrcHeap)) as [->|Hk].
  - cbn in *. by rewrite lookup_insert_ne.
  - by apply handed_pool in Hlive; [apply handed_pool|].
Qed.

Lemma pb_region_law st live p k n : pb_ok A st live → live !! p = Some (k, n) →
  0 < p ∧ ∀ a, p ≤ a < p + n → pb_arena A a.
Proof. intros (L & a & Hr & Hlive) Hp. by eapply handed_pos; [|apply Hlive]. Qed.

Lemma pb_size_law st live p k n : pb_ok A st live → live !! p = Some (k, n) → n < 65536.
Proof. intros (L & a & Hr & Hlive) Hp. eapply handed_region; [done|by apply Hlive]. Qed.

Lemma pb_sep_law st live p k n q k' m : pb_ok A st live → live !! p = Some (k, n) →
  live !! q = Some (k', m) → p ≠ q → blocks_disjoint p n q m.
Proof.
  intros (L & a & Hr & Hlive) Hp Hq Hne.
  apply (handed_apart _ _ _ _ _ _ _ _ _ Hr (Hlive _ _ _ Hp) (Hlive _ _ _ Hq)). by left.
Qed.

(** mem.c and memp.c provide what pbuf.c needs. *)
Definition pbuf_allocators : PbufAlloc (heap * memp_st) := {|
  pa_malloc := pb_malloc A;
  pa_free := pb_free A;
  pa_trim := pb_trim;
  pa_arena := pb_arena A;
  pa_ok := pb_ok A;
  pa_malloc_ok := pb_malloc_law;
  pa_free_ok := pb_free_law;
  pa_trim_ok := pb_trim_law;
  pa_region := pb_region_law;
  pa_size := pb_size_law;
  pa_sep := pb_sep_law |}.

(** After [mem_init] and [memp_init] nothing is handed out. *)
Lemma pb_init h0 m0 : mstats h0 = stats_zero → p_desc <$> memp_pools m0 = ds A →
  Forall (λ p, p_stats p = stats_zero) (memp_pools m0) →
  ∃ h m, mem_init h0 (hp A) = Clean h ∧ memp_init m0 = Clean m ∧ pb_ok A (h, m) ∅.
Proof.
  intros Hh0 Hds Hz. destruct (mem_init_inv h0 (hp A) (ao_hp _ HA) Hh0) as (h & Hh & Hinv & Hram).
  pose proof (ao_layout _ HA) as Hlay. rewrite <- Hds in Hlay.
  destruct (memp_init_rep m0 Hlay Hz) as (m & Hm & Hrep & _).
  exists h, m. split_and!; [done..|]. exists ∅, (ainit (p_desc <$> memp_pools m0)). split.
  - split; [|done|].
    + exists [(MEM_SIZE_ALIGNED, false)]. split_and!; [done..|]. intros p n. cbn.
      rewrite lookup_empty. split; [done|]. by intros ?%elem_of_nil.
    + cbn. by rewrite (init_pools_desc _ _ _ _ Hm).
  - intros p k n Hp. by rewrite lookup_empty in Hp.
Qed.
End Arrays.

(** ** A small system: the heap at 4096, eight pool buffers and four bare structs *)

Definition ex_arrays : arrays :=
  Arrays 4096 [MempDesc "PBUF_REF/ROM" 16 4 1000; MempDesc "PBUF_POOL" 608 8 30000] 0 1.

Lemma ex_arrays_ok : arrays_ok ex_arrays.
Proof.
  split.
  - split.
    + repeat first [apply Forall_cons; split; [done|]|apply Forall_nil; done].
    + intros [|[|i]] [|[|j]] di dj Hne Hi Hj; simplify_eq/=; done || (cbn; lia).
  - done.
  - done.
  - eexists. split_and!; [done..|]. right. done.
  - eexists. split_and!; [done..|]. left. done.
Qed.

Definition ex_mem : heap * memp_st :=
  match mem_init (Heap ∅ 0 0 0 stats_zero) 4096,
        memp_init (MempSt ∅ ((λ d, Pool d NULL stats_zero) <$> ds ex_arrays) ∅) with
  | Ret h _, Ret m _ => (h, m)
  | _, _ => (Heap ∅ 0 0 0 stats_zero, MempSt ∅ [] ∅)
  end.

Lemma ex_mem_ok : pb_ok ex_arrays ex_mem ∅.
Proof.
  destruct (pb_init ex_arrays ex_arrays_ok (Heap ∅ 0 0 0 stats_zero)
    (MempSt ∅ ((λ d, Pool d NULL stats_zero) <$> ds ex_arrays) ∅)) as (h & m & Hh & Hm & Hok).
  - done.
  - done.
  - repeat first [apply Forall_cons; split; [done|]|apply Forall_nil; done].
  - replace ex_mem with (h, m); [done|]. unfold ex_mem.
    change (hp ex_arrays) with 4096 in Hh. by rewrite Hh, Hm.
Qed.
