(* ===== verification/Pbuf.v ===== *)
(** * Packet buffers (src/lwip/src/core/pbuf.c)

    A packet is a chain of [struct pbuf] linked by [next]; each describes [len] bytes at
    [payload] and carries the length of the rest of the packet in [tot_len] and a
    reference count.  The model keeps the structs by address ([pbufs]), the bytes
    of memory by address ([data]), and the allocators behind their contract
    ([Iface.PbufAlloc]).  Pointers are addresses; a struct that has been freed is
    no longer in [pbufs], so using it is a [Fault], and so is reading or writing a
    byte that does not exist.

    Built with [LWIP_SUPPORT_CUSTOM_PBUF], [NO_SYS] and [MEM_ALIGNMENT] 1, without
    [LWIP_CHECKSUM_ON_COPY] and [LWIP_WND_SCALE]. *)
From S2P Require Import Prelude Iface.

(** ** Constants of pbuf.h *)

Definition PBUF_LINK_HLEN : Z := 16.
Definition PBUF_IP_HLEN : Z := 20.
Definition PBUF_TRANSPORT_HLEN : Z := 20.
Definition PBUF_TRANSPORT : Z := PBUF_LINK_HLEN + PBUF_IP_HLEN + PBUF_TRANSPORT_HLEN.
Definition PBUF_IP : Z := PBUF_LINK_HLEN + PBUF_IP_HLEN.
Definition PBUF_LINK : Z := PBUF_LINK_HLEN.
Definition PBUF_RAW_TX : Z := 0.
Definition PBUF_RAW : Z := 0.

Definition PBUF_TYPE_FLAG_STRUCT_DATA_CONTIGUOUS : Z := 0x80.
Definition PBUF_TYPE_FLAG_DATA_VOLATILE : Z := 0x40.
Definition PBUF_TYPE_ALLOC_SRC_MASK : Z := 0x0F.
Definition PBUF_ALLOC_FLAG_RX : Z := 0x0100.
Definition PBUF_ALLOC_FLAG_DATA_CONTIGUOUS : Z := 0x0200.
Definition PBUF_TYPE_ALLOC_SRC_MASK_STD_HEAP : Z := 0x00.
Definition PBUF_TYPE_ALLOC_SRC_MASK_STD_MEMP_PBUF : Z := 0x01.
Definition PBUF_TYPE_ALLOC_SRC_MASK_STD_MEMP_PBUF_POOL : Z := 0x02.

Definition PBUF_RAM : Z :=
  Z.lor (Z.lor PBUF_ALLOC_FLAG_DATA_CONTIGUOUS PBUF_TYPE_FLAG_STRUCT_DATA_CONTIGUOUS)
        PBUF_TYPE_ALLOC_SRC_MASK_STD_HEAP.
Definition PBUF_ROM : Z := PBUF_TYPE_ALLOC_SRC_MASK_STD_MEMP_PBUF.
Definition PBUF_REF : Z :=
  Z.lor PBUF_TYPE_FLAG_DATA_VOLATILE PBUF_TYPE_ALLOC_SRC_MASK_STD_MEMP_PBUF.
Definition PBUF_POOL : Z :=
  Z.lor (Z.lor PBUF_ALLOC_FLAG_RX PBUF_TYPE_FLAG_STRUCT_DATA_CONTIGUOUS)
        PBUF_TYPE_ALLOC_SRC_MASK_STD_MEMP_PBUF_POOL.

Definition PBUF_FLAG_IS_CUSTOM : Z := 0x02.
Definition PBUF_FLAG_TCP_FIN : Z := 0x20.
Definition NETIF_NO_INDEX : Z := 0.

(** [err_t] values used here (err.h). *)
Definition ERR_OK : Z := 0.
Definition ERR_MEM : Z := -1.
Definition ERR_VAL : Z := -6.
Definition ERR_ARG : Z := -16.

(** ** State *)

Record pbuf := Pbuf {
  next : Z;
  payload : Z;
  tot_len : Z;
  len : Z;
  type_internal : Z;
  flags : Z;
  ref : Z;
  if_idx : Z }.

Definition set_pnext (b : pbuf) (v : Z) : pbuf :=
  Pbuf v (payload b) (tot_len b) (len b) (type_internal b) (flags b) (ref b) (if_idx b).
Definition set_payload (b : pbuf) (v : Z) : pbuf :=
  Pbuf (next b) v (tot_len b) (len b) (type_internal b) (flags b) (ref b) (if_idx b).
Definition set_tot_len (b : pbuf) (v : Z) : pbuf :=
  Pbuf (next b) (payload b) v (len b) (type_internal b) (flags b) (ref b) (if_idx b).
Definition set_len (b : pbuf) (v : Z) : pbuf :=
  Pbuf (next b) (payload b) (tot_len b) v (type_internal b) (flags b) (ref b) (if_idx b).
Definition set_flags (b : pbuf) (v : Z) : pbuf :=
  Pbuf (next b) (payload b) (tot_len b) (len b) (type_internal b) v (ref b) (if_idx b).
Definition set_ref (b : pbuf) (v : Z) : pbuf :=
  Pbuf (next b) (payload b) (tot_len b) (len b) (type_internal b) (flags b) v (if_idx b).

Definition pbuf_get_allocsrc (b : pbuf) : Z := Z.land (type_internal b) PBUF_TYPE_ALLOC_SRC_MASK.
Definition pbuf_match_allocsrc (b : pbuf) (type : Z) : bool :=
  pbuf_get_allocsrc b =? Z.land type PBUF_TYPE_ALLOC_SRC_MASK.
Definition is_custom (b : pbuf) : bool := negb (Z.land (flags b) PBUF_FLAG_IS_CUSTOM =? 0).

(** [MEMCPY(dst, src, n)] *)
Fixpoint memcpy (d : gmap Z Z) (dst src : Z) (n : nat) : out (gmap Z Z) :=
  match n with
  | O => mret d
  | S n' =>
      b ← or_fault "MEMCPY source" (d !! src);
      _ ← or_fault "MEMCPY destination" (d !! dst);
      memcpy (<[dst:=b]> d) (dst + 1) (src + 1) n'
  end.

Section Pbuf.
Context {M : Type} `{PM : PbufAlloc M}.

Record pst := Pst {
  pmem : M;
  pbufs : gmap Z pbuf;
  data : gmap Z Z;
  pbuf_free_ooseq_pending : bool }.

Definition set_pmem (s : pst) (m : M) : pst := Pst m (pbufs s) (data s) (pbuf_free_ooseq_pending s).
Definition set_pbufs (s : pst) (m : gmap Z pbuf) : pst :=
  Pst (pmem s) m (data s) (pbuf_free_ooseq_pending s).
Definition set_data (s : pst) (d : gmap Z Z) : pst :=
  Pst (pmem s) (pbufs s) d (pbuf_free_ooseq_pending s).
Definition set_pending (s : pst) (b : bool) : pst := Pst (pmem s) (pbufs s) (data s) b.

(** [*p] and [*p = b] *)
Definition get (s : pst) (p : Z) : out pbuf := or_fault "struct pbuf" (pbufs s !! p).
Definition upd (s : pst) (p : Z) (b : pbuf) : pst := set_pbufs s (<[p:=b]> (pbufs s)).

(** The function pointer stored in the [struct pbuf_custom] at an address. *)
Variable custom_free_function : Z → option (pst → out pst).

(** The functions of tcp.c that [pbuf_free_ooseq] uses: the address of the first active
    pcb with out-of-sequence segments, and [tcp_free_ooseq]. *)
Variable tcp_ooseq_pcb : pst → option Z.
Variable tcp_free_ooseq : Z → pst → out pst.

Definition pbuf_free_ooseq (s : pst) : out pst :=
  let s := set_pending s false in
  match tcp_ooseq_pcb s with
  | Some pcb => tcp_free_ooseq pcb s
  | None => mret s
  end.

Definition pbuf_pool_is_empty (s : pst) : pst := set_pending s true.

Definition pbuf_init_alloced_pbuf (s : pst) (p payload tot_len len type flags : Z) : pst :=
  upd s p (Pbuf NULL payload tot_len len (u8 type) flags 1 NETIF_NO_INDEX).

(** ** Reference counting *)

(** The while loop of [pbuf_free]. *)
Fixpoint free_loop (fuel : nat) (s : pst) (p count : Z) : out (Z * pst) :=
  if p =? NULL then mret (count, s)
  else match fuel with
  | O => NoFuel
  | S fuel' =>
      b ← get s p;
      _ ← lwip_assert "pbuf_free: p->ref > 0" (0 <? ref b);
      let b := set_ref b (u8 (ref b - 1)) in
      let s := upd s p b in
      if ref b =? 0 then
        let q := next b in
        let alloc_src := pbuf_get_allocsrc b in
        s ← (if is_custom b then
               _ ← lwip_assert "pc->custom_free_function != NULL"
                     (bool_decide (is_Some (custom_free_function p)));
               f ← or_fault "custom_free_function" (custom_free_function p);
               f s
             else
               let s' := set_pbufs s (delete p (pbufs s)) in
               if alloc_src =? PBUF_TYPE_ALLOC_SRC_MASK_STD_MEMP_PBUF_POOL
               then m ← pa_free (pmem s) SrcPool p; mret (set_pmem s' m)
               else if alloc_src =? PBUF_TYPE_ALLOC_SRC_MASK_STD_MEMP_PBUF
               then m ← pa_free (pmem s) SrcPbuf p; mret (set_pmem s' m)
               else if alloc_src =? PBUF_TYPE_ALLOC_SRC_MASK_STD_HEAP
               then m ← pa_free (pmem s) SrcHeap p; mret (set_pmem s' m)
               else _ ← lwip_assert "invalid pbuf type" false; mret s);
        free_loop fuel' s q (u8 (count + 1))
      else mret (count, s)
  end.

(** A chain visits every struct at most once. *)
Definition chain_fuel (s : pst) : nat := S (size (pbufs s)).

Definition pbuf_free (s : pst) (p : Z) : out (Z * pst) :=
  if p =? NULL then
    _ ← lwip_assert "p != NULL" false;
    mret (0, s)
  else free_loop (chain_fuel s) s p 0.

Definition pbuf_ref (s : pst) (p : Z) : out pst :=
  if negb (p =? NULL) then
    b ← get s p;
    let b := set_ref b (u8 (ref b + 1)) in
    _ ← lwip_assert "pbuf ref overflow" (0 <? ref b);
    mret (upd s p b)
  else mret s.

Fixpoint clen_loop (fuel : nat) (s : pst) (p n : Z) : out Z :=
  if p =? NULL then mret n
  else match fuel with
  | O => NoFuel
  | S fuel' => b ← get s p; clen_loop fuel' s (next b) (u16 (n + 1))
  end.

Definition pbuf_clen (s : pst) (p : Z) : out Z := clen_loop (chain_fuel s) s p 0.

(** ** Allocation *)

Definition pbuf_alloc_reference (s : pst) (payload length type : Z) : out (Z * pst) :=
  _ ← lwip_assert "invalid pbuf_type" ((type =? PBUF_REF) || (type =? PBUF_ROM));
  '(p, m) ← pa_malloc (pmem s) SrcPbuf 0;
  let s := set_pmem s m in
  if p =? NULL then mret (NULL, s)
  else mret (p, pbuf_init_alloced_pbuf s p payload length length type 0).

(** The do-while loop for [PBUF_POOL]; [p] is the head allocated so far, [last] the end. *)
Fixpoint alloc_pool_loop (fuel : nat) (s : pst) (type p last rem_len offset : Z) : out (Z * pst) :=
  match fuel with
  | O => NoFuel
  | S fuel' =>
      '(q, m) ← pa_malloc (pmem s) SrcPool 0;
      let s := set_pmem s m in
      if q =? NULL then
        let s := pbuf_pool_is_empty s in
        if negb (p =? NULL) then '(_, s) ← pbuf_free s p; mret (NULL, s)
        else mret (NULL, s)
      else
        let qlen := Z.min rem_len (u16 (PBUF_POOL_BUFSIZE_ALIGNED - offset)) in
        let s := pbuf_init_alloced_pbuf s q (q + SIZEOF_STRUCT_PBUF + offset) rem_len qlen type 0 in
        _ ← lwip_assert "pbuf_alloc: pbuf q->payload properly aligned"
              ((q + SIZEOF_STRUCT_PBUF + offset) mod MEM_ALIGNMENT =? 0);
        _ ← lwip_assert "PBUF_POOL_BUFSIZE must be bigger than MEM_ALIGNMENT"
              (0 <? u32 (PBUF_POOL_BUFSIZE_ALIGNED - offset));
        '(p, s) ← (if p =? NULL then mret (q, s)
                   else l ← get s last; mret (p, upd s last (set_pnext l q)));
        let rem_len := u16 (rem_len - qlen) in
        if 0 <? rem_len then alloc_pool_loop fuel' s type p q rem_len 0
        else mret (p, s)
  end.

(** [layer] is the header room, [PBUF_TRANSPORT] .. [PBUF_RAW]. *)
Definition pbuf_alloc (s : pst) (layer length type : Z) : out (Z * pst) :=
  let offset := u16 layer in
  if (type =? PBUF_REF) || (type =? PBUF_ROM) then pbuf_alloc_reference s NULL length type
  else if type =? PBUF_POOL then
    alloc_pool_loop (S (Z.to_nat length)) s type NULL NULL length offset
  else if type =? PBUF_RAM then
    let payload_len := u16 (offset + length) in
    let alloc_len := u16 (SIZEOF_STRUCT_PBUF + payload_len) in
    if (payload_len <? length) || (alloc_len <? length) then mret (NULL, s)
    else
      '(p, m) ← pa_malloc (pmem s) SrcHeap alloc_len;
      let s := set_pmem s m in
      if p =? NULL then mret (NULL, s)
      else
        let s := pbuf_init_alloced_pbuf s p (p + SIZEOF_STRUCT_PBUF + offset) length length type 0 in
        _ ← lwip_assert "pbuf_alloc: pbuf->payload properly aligned"
              ((p + SIZEOF_STRUCT_PBUF + offset) mod MEM_ALIGNMENT =? 0);
        mret (p, s)
  else
    _ ← lwip_assert "pbuf_alloc: erroneous type" false;
    mret (NULL, s).

(** [p] is the caller's [struct pbuf_custom]; its [pbuf] member is initialised. *)
Definition pbuf_alloced_custom (s : pst) (l length type p payload_mem payload_mem_len : Z)
  : out (Z * pst) :=
  let offset := u16 l in
  if payload_mem_len <? offset + length then mret (NULL, s)
  else
    let payload := if negb (payload_mem =? NULL) then payload_mem + offset else NULL in
    mret (p, pbuf_init_alloced_pbuf s p payload length length type PBUF_FLAG_IS_CUSTOM).
(** ** Shrinking and headers *)

(** The loop that steps over the pbufs that stay in the chain: the new last pbuf and the
    length it keeps. *)
Fixpoint realloc_skip (fuel : nat) (s : pst) (q rem_len shrink : Z) : out (Z * Z * pst) :=
  b ← get s q;
  if len b <? rem_len then
    match fuel with
    | O => NoFuel
    | S fuel' =>
        let rem_len := u16 (rem_len - len b) in
        let s := upd s q (set_tot_len b (u16 (tot_len b - shrink))) in
        let q := next b in
        _ ← lwip_assert "pbuf_realloc: q != NULL" (negb (q =? NULL));
        realloc_skip fuel' s q rem_len shrink
    end
  else mret (q, rem_len, s).

(** [mem_trim] of the new last pbuf, when it came from the heap and gets shorter. *)
Definition realloc_trim (s : pst) (q rem_len : Z) (b : pbuf) : out pst :=
  if pbuf_match_allocsrc b PBUF_TYPE_ALLOC_SRC_MASK_STD_HEAP
     && negb (rem_len =? len b) && negb (is_custom b) then
    '(r, m) ← pa_trim (pmem s) q (u16 (payload b - q + rem_len));
    _ ← lwip_assert "mem_trim returned r == NULL" (negb (r =? NULL));
    _ ← lwip_assert "mem_trim returned r != q" (r =? q);
    mret (set_pmem s m)
  else mret s.

Definition pbuf_realloc (s : pst) (p new_len : Z) : out pst :=
  _ ← lwip_assert "pbuf_realloc: p != NULL" (negb (p =? NULL));
  b ← get s p;
  if tot_len b <=? new_len then mret s
  else
    let shrink := u16 (tot_len b - new_len) in
    '(q, rem_len, s) ← realloc_skip (chain_fuel s) s p new_len shrink;
    b ← get s q;
    s ← realloc_trim s q rem_len b;
    let b := set_tot_len (set_len b rem_len) rem_len in
    let s := upd s q b in
    s ← (if negb (next b =? NULL) then '(_, s) ← pbuf_free s (next b); mret s else mret s);
    b ← get s q;
    mret (upd s q (set_pnext b NULL)).

Definition pbuf_add_header_impl (s : pst) (p header_size_increment : Z) (force : bool)
  : out (Z * pst) :=
  _ ← lwip_assert "p != NULL" (negb (p =? NULL));
  if (p =? NULL) || (0xFFFF <? header_size_increment) then mret (1, s)
  else if header_size_increment =? 0 then mret (0, s)
  else
    let increment_magnitude := u16 header_size_increment in
    b ← get s p;
    if u16 (increment_magnitude + tot_len b) <? increment_magnitude then mret (1, s)
    else
      let new_payload := payload b - header_size_increment in
      let fail :=
        if negb (Z.land (type_internal b) PBUF_TYPE_FLAG_STRUCT_DATA_CONTIGUOUS =? 0)
        then new_payload <? p + SIZEOF_STRUCT_PBUF
        else negb force in
      if fail then mret (1, s)
      else
        let b := set_payload b new_payload in
        let b := set_len b (u16 (len b + increment_magnitude)) in
        let b := set_tot_len b (u16 (tot_len b + increment_magnitude)) in
        mret (0, upd s p b).

Definition pbuf_add_header (s : pst) (p header_size_increment : Z) : out (Z * pst) :=
  pbuf_add_header_impl s p header_size_increment false.

Definition pbuf_add_header_force (s : pst) (p header_size_increment : Z) : out (Z * pst) :=
  pbuf_add_header_impl s p header_size_increment true.

Definition pbuf_remove_header (s : pst) (p header_size_decrement : Z) : out (Z * pst) :=
  _ ← lwip_assert "p != NULL" (negb (p =? NULL));
  if (p =? NULL) || (0xFFFF <? header_size_decrement) then mret (1, s)
  else if header_size_decrement =? 0 then mret (0, s)
  else
    let increment_magnitude := u16 header_size_decrement in
    b ← get s p;
    if negb (increment_magnitude <=? len b) then mret (1, s)
    else
      let b := set_payload b (payload b + header_size_decrement) in
      let b := set_len b (u16 (len b - increment_magnitude)) in
      let b := set_tot_len b (u16 (tot_len b - increment_magnitude)) in
      mret (0, upd s p b).

(** The increment is an [s16_t]. *)
Definition pbuf_header_impl (s : pst) (p header_size_increment : Z) (force : bool)
  : out (Z * pst) :=
  if header_size_increment <? 0 then pbuf_remove_header s p (u32 (- header_size_increment))
  else pbuf_add_header_impl s p (u32 header_size_increment) force.

Definition pbuf_header (s : pst) (p header_size_increment : Z) : out (Z * pst) :=
  pbuf_header_impl s p header_size_increment false.

Definition pbuf_header_force (s : pst) (p header_size_increment : Z) : out (Z * pst) :=
  pbuf_header_impl s p header_size_increment true.

(** The while loop of [pbuf_free_header]. *)
Fixpoint free_header_loop (fuel : nat) (s : pst) (p free_left : Z) : out (Z * pst) :=
  if (free_left =? 0) || (p =? NULL) then mret (p, s)
  else match fuel with
  | O => NoFuel
  | S fuel' =>
      b ← get s p;
      if len b <=? free_left then
        let f := p in
        let free_left := u16 (free_left - len b) in
        let p := next b in
        let s := upd s f (set_pnext b NULL) in
        '(_, s) ← pbuf_free s f;
        free_header_loop fuel' s p free_left
      else
        '(_, s) ← pbuf_remove_header s p free_left;
        free_header_loop fuel' s p 0
  end.

Definition pbuf_free_header (s : pst) (q size : Z) : out (Z * pst) :=
  free_header_loop (S (chain_fuel s)) s q size.

(** ** Joining and splitting chains *)

(** The for loop of [pbuf_cat]: the last pbuf of the chain at [p]. *)
Fixpoint cat_loop (fuel : nat) (s : pst) (p t : Z) : out (Z * pst) :=
  b ← get s p;
  if next b =? NULL then mret (p, s)
  else match fuel with
  | O => NoFuel
  | S fuel' =>
      bt ← get s t;
      let s := upd s p (set_tot_len b (u16 (tot_len b + tot_len bt))) in
      cat_loop fuel' s (next b) t
  end.

Definition pbuf_cat (s : pst) (h t : Z) : out pst :=
  if negb (negb (h =? NULL) && negb (t =? NULL)) then mret s
  else
    '(p, s) ← cat_loop (chain_fuel s) s h t;
    b ← get s p;
    _ ← lwip_assert "p->tot_len == p->len (of last pbuf in chain)" (tot_len b =? len b);
    _ ← lwip_assert "p->next == NULL" (next b =? NULL);
    bt ← get s t;
    mret (upd s p (set_pnext (set_tot_len b (u16 (tot_len b + tot_len bt))) t)).

Definition pbuf_chain (s : pst) (h t : Z) : out pst :=
  s ← pbuf_cat s h t;
  pbuf_ref s t.

Definition pbuf_dechain (s : pst) (p : Z) : out (Z * pst) :=
  b ← get s p;
  let q := next b in
  '(tail_gone, s) ←
    (if negb (q =? NULL) then
       bq ← get s q;
       _ ← lwip_assert "p->tot_len == p->len + q->tot_len" (tot_len bq =? tot_len b - len b);
       let s := upd s q (set_tot_len bq (u16 (tot_len b - len b))) in
       b ← get s p;
       let s := upd s p (set_tot_len (set_pnext b NULL) (len b)) in
       pbuf_free s q
     else mret (1, s));
  b ← get s p;
  _ ← lwip_assert "p->tot_len == p->len" (tot_len b =? len b);
  mret (if 0 <? tail_gone then NULL else q, s).

(** The first loop of [pbuf_split_64k]: the last pbuf of the front part and the rest. *)
Fixpoint split_find (fuel : nat) (s : pst) (i r tot_len_front : Z) : out (Z * Z) :=
  if r =? NULL then mret (i, r)
  else match fuel with
  | O => NoFuel
  | S fuel' =>
      b ← get s r;
      if tot_len_front <=? u16 (tot_len_front + len b)
      then split_find fuel' s r (next b) (u16 (tot_len_front + len b))
      else mret (i, r)
  end.

(** The second loop: [tot_len] of the front part. *)
Fixpoint split_fix (fuel : nat) (s : pst) (i r : Z) : out pst :=
  if i =? NULL then mret s
  else match fuel with
  | O => NoFuel
  | S fuel' =>
      b ← get s i;
      br ← get s r;
      let b := set_tot_len b (u16 (tot_len b - tot_len br)) in
      let s := upd s i b in
      _ ← lwip_assert "tot_len/len mismatch in last pbuf"
            (negb (next b =? NULL) || (tot_len b =? len b));
      split_fix fuel' s (next b) r
  end.

(** Returns the value stored in [*rest]. *)
Definition pbuf_split_64k (s : pst) (p : Z) : out (Z * pst) :=
  if p =? NULL then mret (NULL, s)
  else
    b ← get s p;
    if next b =? NULL then mret (NULL, s)
    else
      '(i, r) ← split_find (chain_fuel s) s p (next b) (len b);
      bi ← get s i;
      let s := upd s i (set_pnext bi NULL) in
      if negb (r =? NULL) then
        s ← split_fix (chain_fuel s) s p r;
        b ← get s p;
        s ← (if negb (Z.land (flags b) PBUF_FLAG_TCP_FIN =? 0)
             then br ← get s r; mret (upd s r (set_flags br (Z.lor (flags br) PBUF_FLAG_TCP_FIN)))
             else mret s);
        mret (r, s)
      else mret (NULL, s).
(** ** Contents

    [MEMCPY] between places of the one memory. *)
Definition copy_bytes (s : pst) (dst src n : Z) : out pst :=
  d ← memcpy (data s) dst src (Z.to_nat n);
  mret (set_data s d).

(** The do-while loop of [pbuf_copy_partial_pbuf]; [offset_to], [offset_from] and [len] are
    32-bit [size_t]. *)
Fixpoint copy_pbuf_loop (fuel : nat) (s : pst) (p_to p_from copy_len offset_to offset_from : Z)
  : out (Z * pst) :=
  match fuel with
  | O => NoFuel
  | S fuel' =>
      bt ← get s p_to;
      bf ← get s p_from;
      let n := if u32 (len bf - offset_from) <=? u32 (len bt - offset_to)
               then u32 (len bf - offset_from) else u32 (len bt - offset_to) in
      let n := Z.min copy_len n in
      s ← copy_bytes s (payload bt + offset_to) (payload bf + offset_from) n;
      let offset_to := u32 (offset_to + n) in
      let offset_from := u32 (offset_from + n) in
      let copy_len := u16 (copy_len - n) in
      _ ← lwip_assert "offset_to <= p_to->len" (offset_to <=? len bt);
      _ ← lwip_assert "offset_from <= p_from->len" (offset_from <=? len bf);
      let '(p_from, offset_from) :=
        if len bf <=? offset_from then (next bf, 0) else (p_from, offset_from) in
      if (p_from =? NULL) && negb (copy_len =? 0) then mret (ERR_ARG, s)
      else
      let '(p_to, offset_to) :=
        if offset_to =? len bt then (next bt, 0) else (p_to, offset_to) in
      if (p_to =? NULL) && negb (copy_len =? 0) then mret (ERR_ARG, s)
      else
      queue_from ← (if negb (p_from =? NULL)
                    then b ← get s p_from; mret ((len b =? tot_len b) && negb (next b =? NULL))
                    else mret false);
      if (queue_from : bool) then mret (ERR_VAL, s)
      else
      queue_to ← (if negb (p_to =? NULL)
                  then b ← get s p_to; mret ((len b =? tot_len b) && negb (next b =? NULL))
                  else mret false);
      if (queue_to : bool) then mret (ERR_VAL, s)
      else if negb (copy_len =? 0)
      then copy_pbuf_loop fuel' s p_to p_from copy_len offset_to offset_from
      else mret (ERR_OK, s)
  end.

Definition pbuf_copy_partial_pbuf (s : pst) (p_to p_from copy_len offset : Z) : out (Z * pst) :=
  from_ok ← (if p_from =? NULL then mret false
             else b ← get s p_from; mret (copy_len <=? tot_len b));
  if negb from_ok then mret (ERR_ARG, s)
  else
    to_ok ← (if p_to =? NULL then mret false
             else b ← get s p_to; mret (offset + copy_len <=? tot_len b));
    if negb to_ok then mret (ERR_ARG, s)
    else copy_pbuf_loop (2 * chain_fuel s) s p_to p_from copy_len offset 0.

Definition pbuf_copy (s : pst) (p_to p_from : Z) : out (Z * pst) :=
  if p_from =? NULL then mret (ERR_ARG, s)
  else
    b ← get s p_from;
    pbuf_copy_partial_pbuf s p_to p_from (tot_len b) 0.

(** The for loop of [pbuf_copy_partial]. *)
Fixpoint copy_partial_loop (fuel : nat) (s : pst) (p dataptr len_ offset left copied_total : Z)
  : out (Z * pst) :=
  if (len_ =? 0) || (p =? NULL) then mret (copied_total, s)
  else match fuel with
  | O => NoFuel
  | S fuel' =>
      b ← get s p;
      if negb (offset =? 0) && (len b <=? offset)
      then copy_partial_loop fuel' s (next b) dataptr len_ (u16 (offset - len b)) left copied_total
      else
        let buf_copy_len := u16 (len b - offset) in
        let buf_copy_len := if len_ <? buf_copy_len then len_ else buf_copy_len in
        s ← copy_bytes s (dataptr + left) (payload b + offset) buf_copy_len;
        copy_partial_loop fuel' s (next b) dataptr (u16 (len_ - buf_copy_len)) 0
          (u16 (left + buf_copy_len)) (u16 (copied_total + buf_copy_len))
  end.

Definition pbuf_copy_partial (s : pst) (buf dataptr len_ offset : Z) : out (Z * pst) :=
  if buf =? NULL then mret (0, s)
  else if dataptr =? NULL then mret (0, s)
  else copy_partial_loop (chain_fuel s) s buf dataptr len_ offset 0 0.

(** Returns the pbuf and [*out_offset]. *)
Fixpoint skip_loop (fuel : nat) (s : pst) (q offset_left : Z) : out (Z * Z) :=
  if q =? NULL then mret (q, offset_left)
  else match fuel with
  | O => NoFuel
  | S fuel' =>
      b ← get s q;
      if len b <=? offset_left then skip_loop fuel' s (next b) (u16 (offset_left - len b))
      else mret (q, offset_left)
  end.

Definition pbuf_skip_const (s : pst) (p in_offset : Z) : out (Z * Z) :=
  skip_loop (chain_fuel s) s p in_offset.

Definition pbuf_skip (s : pst) (p in_offset : Z) : out (Z * Z) := pbuf_skip_const s p in_offset.

(** The address of the contiguous bytes, and the state (the caller's buffer may have been
    written). *)
Definition pbuf_get_contiguous (s : pst) (p buffer bufsize len_ offset : Z) : out (Z * pst) :=
  if p =? NULL then mret (NULL, s)
  else if buffer =? NULL then mret (NULL, s)
  else if bufsize <? len_ then mret (NULL, s)
  else
    '(q, out_offset) ← pbuf_skip_const s p offset;
    if negb (q =? NULL) then
      b ← get s q;
      if out_offset + len_ <=? len b then mret (payload b + out_offset, s)
      else
        '(n, s) ← pbuf_copy_partial s q buffer len_ out_offset;
        if negb (n =? len_) then mret (NULL, s) else mret (buffer, s)
    else mret (NULL, s).

(** The for loop of [pbuf_take]. *)
Fixpoint take_loop (fuel : nat) (s : pst) (p dataptr total_copy_len copied_total : Z)
  : out (Z * Z * pst) :=
  if total_copy_len =? 0 then mret (total_copy_len, copied_total, s)
  else match fuel with
  | O => NoFuel
  | S fuel' =>
      _ ← lwip_assert "pbuf_take: invalid pbuf" (negb (p =? NULL));
      b ← get s p;
      let buf_copy_len := if len b <? total_copy_len then len b else total_copy_len in
      s ← copy_bytes s (payload b) (dataptr + copied_total) buf_copy_len;
      take_loop fuel' s (next b) dataptr (u32 (total_copy_len - buf_copy_len))
        (u32 (copied_total + buf_copy_len))
  end.

Definition pbuf_take (s : pst) (buf dataptr len_ : Z) : out (Z * pst) :=
  if buf =? NULL then mret (ERR_ARG, s)
  else if dataptr =? NULL then mret (ERR_ARG, s)
  else
    b ← get s buf;
    if tot_len b <? len_ then mret (ERR_MEM, s)
    else
      '(total_copy_len, copied_total, s) ← take_loop (chain_fuel s) s buf dataptr len_ 0;
      _ ← lwip_assert "did not copy all data" ((total_copy_len =? 0) && (copied_total =? len_));
      mret (ERR_OK, s).

Definition pbuf_take_at (s : pst) (buf dataptr len_ offset : Z) : out (Z * pst) :=
  '(q, target_offset) ← pbuf_skip s buf offset;
  if q =? NULL then mret (ERR_MEM, s)
  else
    b ← get s q;
    if target_offset + len_ <=? tot_len b then
      _ ← lwip_assert "check pbuf_skip result" (target_offset <? len b);
      let first_copy_len := u16 (Z.min (len b - target_offset) len_) in
      s ← copy_bytes s (payload b + target_offset) dataptr first_copy_len;
      let remaining_len := u16 (len_ - first_copy_len) in
      if 0 <? remaining_len then pbuf_take s (next b) (dataptr + first_copy_len) remaining_len
      else mret (ERR_OK, s)
    else mret (ERR_MEM, s).

Definition pbuf_clone (s : pst) (layer type p : Z) : out (Z * pst) :=
  b ← get s p;
  '(q, s) ← pbuf_alloc s layer (tot_len b) type;
  if q =? NULL then mret (NULL, s)
  else
    '(err, s) ← pbuf_copy s q p;
    _ ← lwip_assert "pbuf_copy failed" (err =? ERR_OK);
    mret (q, s).

Definition pbuf_coalesce (s : pst) (p layer : Z) : out (Z * pst) :=
  b ← get s p;
  if next b =? NULL then mret (p, s)
  else
    '(q, s) ← pbuf_clone s layer PBUF_RAM p;
    if q =? NULL then mret (p, s)
    else '(_, s) ← pbuf_free s p; mret (q, s).

(** The byte, or a negative number when the offset is beyond the packet. *)
Definition pbuf_try_get_at (s : pst) (p offset : Z) : out Z :=
  '(q, q_idx) ← pbuf_skip_const s p offset;
  if q =? NULL then mret (-1)
  else
    b ← get s q;
    if q_idx <? len b then or_fault "payload" (data s !! (payload b + q_idx)) else mret (-1).

Definition pbuf_get_at (s : pst) (p offset : Z) : out Z :=
  ret ← pbuf_try_get_at s p offset;
  mret (if 0 <=? ret then u8 ret else 0).

Definition pbuf_put_at (s : pst) (p offset byte : Z) : out pst :=
  '(q, q_idx) ← pbuf_skip s p offset;
  if q =? NULL then mret s
  else
    b ← get s q;
    if q_idx <? len b then
      _ ← or_fault "payload" (data s !! (payload b + q_idx));
      mret (set_data s (<[payload b + q_idx := byte]> (data s)))
    else mret s.

(** The for loop of [pbuf_memcmp]: [k] iterations are left. *)
Fixpoint memcmp_loop (k : nat) (s : pst) (q start s2 i : Z) : out Z :=
  match k with
  | O => mret 0
  | S k' =>
      a ← pbuf_get_at s q (u16 (start + i));
      b ← or_fault "s2" (data s !! (s2 + i));
      if negb (a =? b) then mret (u16 (Z.min (i + 1) 0xFFFF))
      else memcmp_loop k' s q start s2 (u16 (i + 1))
  end.

Definition pbuf_memcmp (s : pst) (p offset s2 n : Z) : out Z :=
  b ← get s p;
  if tot_len b <? offset + n then mret 0xffff
  else
    '(q, start) ← skip_loop (chain_fuel s) s p offset;
    memcmp_loop (Z.to_nat n) s q start s2 0.

(** The for loop of [pbuf_memfind]; [i] is a [u16_t]. *)
Fixpoint memfind_loop (fuel : nat) (s : pst) (p mem mem_len max_cmp_start i : Z) : out Z :=
  if max_cmp_start <? i then mret 0xFFFF
  else match fuel with
  | O => NoFuel
  | S fuel' =>
      plus ← pbuf_memcmp s p i mem mem_len;
      if plus =? 0 then mret i
      else memfind_loop fuel' s p mem mem_len max_cmp_start (u16 (i + 1))
  end.

Definition pbuf_memfind (s : pst) (p mem mem_len start_offset : Z) : out Z :=
  b ← get s p;
  let max_cmp_start := u16 (tot_len b - mem_len) in
  if mem_len + start_offset <=? tot_len b
  then memfind_loop (Z.to_nat 65536) s p mem mem_len max_cmp_start start_offset
  else mret 0xFFFF.

(** [strlen] of the C library: the number of bytes before the first zero. *)
Fixpoint strlen_loop (fuel : nat) (d : gmap Z Z) (a n : Z) : out Z :=
  match fuel with
  | O => NoFuel
  | S fuel' =>
      c ← or_fault "strlen" (d !! (a + n));
      if c =? 0 then mret n else strlen_loop fuel' d a (n + 1)
  end.

Definition strlen (d : gmap Z Z) (a : Z) : out Z := strlen_loop (S (size d)) d a 0.

Definition pbuf_strstr (s : pst) (p substr : Z) : out Z :=
  if substr =? NULL then mret 0xFFFF
  else
    c ← or_fault "substr" (data s !! substr);
    if c =? 0 then mret 0xFFFF
    else
      b ← get s p;
      if tot_len b =? 0xFFFF then mret 0xFFFF
      else
        substr_len ← strlen (data s) substr;
        if 0xFFFF <=? substr_len then mret 0xFFFF
        else pbuf_memfind s p substr (u16 substr_len) 0.
End Pbuf.
