(* ===== verification/PbufChain.v ===== *)
(** * Chains of packet buffers: ownership and shape

    [chained B p l] says that following [next] from [p] visits exactly the structs [l].
    [inv] is the invariant of the whole store: every struct lives in a block of its
    allocator, chains are finite, and the reference count of every struct is the
    number of references its clients hold plus the number of structs whose
    [next] points to it. *)
From S2P Require Import Prelude Iface Pbuf.

(** ** Chains *)

Inductive chained (B : gmap Z pbuf) : Z → list (Z * pbuf) → Prop :=
| chained_nil : chained B NULL []
| chained_cons p b l : p ≠ NULL → B !! p = Some b → chained B (next b) l →
    chained B p ((p, b) :: l).
#[export] Hint Constructors chained : core.

Lemma chained_inv_cons B p q b l : chained B p ((q, b) :: l) →
  q = p ∧ p ≠ NULL ∧ B !! p = Some b ∧ chained B (next b) l.
Proof. by inversion 1; subst. Qed.

Lemma chained_nonnull B p l : p ≠ NULL → chained B p l → ∃ b l', l = (p, b) :: l' ∧
  B !! p = Some b ∧ chained B (next b) l'.
Proof. intros Hp. inversion 1; subst; [done|]. eauto. Qed.

Lemma chained_null B l : chained B NULL l → l = [].
Proof. by inversion 1. Qed.

Lemma chained_det B p l1 l2 : chained B p l1 → chained B p l2 → l1 = l2.
Proof.
  intros H. revert l2. induction H as [|p b l Hp Hb Hc IH]; intros l2 H2.
  - by inversion H2.
  - destruct (chained_nonnull _ _ _ Hp H2) as (b' & l' & -> & Hb' & Hc').
    rewrite Hb in Hb'. injection Hb' as <-. f_equal. by apply IH.
Qed.

Lemma chained_suffix B p l1 q b l2 : chained B p (l1 ++ (q, b) :: l2) → chained B q ((q, b) :: l2).
Proof.
  revert p. induction l1 as [|[q' b'] l1 IH]; intros p H; cbn in H.
  - by apply chained_inv_cons in H as (-> & ? & ? & ?); constructor.
  - apply chained_inv_cons in H as (-> & _ & _ & H). by eapply IH.
Qed.

Lemma chained_elem B p l q b : chained B p l → (q, b) ∈ l → q ≠ NULL ∧ B !! q = Some b.
Proof.
  intros Hc (l1 & l2 & ->)%list_elem_of_split. apply chained_suffix in Hc.
  by apply chained_inv_cons in Hc as (_ & ? & ? & _).
Qed.

(** A chain ends, so it visits no struct twice. *)
Lemma chained_NoDup B p l : chained B p l → NoDup (l.*1).
Proof.
  induction 1 as [|p b l Hp Hb Hc IH]; [constructor|]. cbn. constructor; [|done].
  intros ([q b'] & -> & Hin)%list_elem_of_fmap.
  apply list_elem_of_split in Hin as (l1 & l2 & ->).
  pose proof (chained_suffix _ _ _ _ _ _ Hc) as Hc'. cbn in Hc', Hb, Hp.
  assert ((q, b) :: (l1 ++ (q, b') :: l2) = (q, b') :: l2) as Heq.
  { eapply chained_det; [|exact Hc']. by constructor. }
  apply (f_equal length) in Heq. cbn in Heq. rewrite length_app in Heq. cbn in Heq. lia.
Qed.

Lemma chained_length B p l : chained B p l → (length l ≤ size B)%nat.
Proof.
  intros Hc. pose proof (chained_NoDup _ _ _ Hc) as Hnd.
  rewrite <- (length_fmap fst), <- (size_list_to_set (C := gset Z)) by done.
  rewrite <- (size_dom (D := gset Z)). apply subseteq_size.
  intros x ([q b] & -> & Hin)%elem_of_list_to_set%list_elem_of_fmap. cbn.
  apply elem_of_dom. destruct (chained_elem _ _ _ _ _ Hc Hin). eauto.
Qed.

Lemma chained_frame B B' p l : chained B p l → (∀ q b, (q, b) ∈ l → B' !! q = Some b) →
  chained B' p l.
Proof.
  induction 1 as [|p b l Hp Hb Hc IH]; intros Heq; [done|].
  constructor; [done|apply Heq; by left|]. apply IH. intros q b' Hin. apply Heq. by right.
Qed.

Lemma chained_insert B p l q b : q ∉ l.*1 → chained B p l → chained (<[q:=b]> B) p l.
Proof.
  intros Hq Hc. apply (chained_frame _ _ _ _ Hc). intros q' b' Hin.
  rewrite lookup_insert_ne; [by eapply chained_elem|]. intros <-. apply Hq.
  by apply (list_elem_of_fmap_2 fst) in Hin.
Qed.

Lemma chained_delete B p l q : q ∉ l.*1 → chained B p l → chained (delete q B) p l.
Proof.
  intros Hq Hc. apply (chained_frame _ _ _ _ Hc). intros q' b' Hin.
  rewrite lookup_delete_ne; [by eapply chained_elem|]. intros <-. apply Hq.
  by apply (list_elem_of_fmap_2 fst) in Hin.
Qed.

(** Replacing a struct: chains stay finite when the new successor's chain avoids it. *)
Lemma chained_relink B q b' l2 : q ≠ NULL → chained B (next b') l2 → q ∉ l2.*1 →
  ∀ p l, chained B p l → ∃ l', chained (<[q:=b']> B) p l'.
Proof.
  intros Hq Hc2 Hnin p l. induction 1 as [|p b l Hp Hb Hc (l' & IH)]; [eauto|].
  destruct (decide (p = q)) as [->|Hne].
  - exists ((q, b') :: l2). constructor; [done|by rewrite lookup_insert_eq|].
    by apply chained_insert.
  - exists ((p, b) :: l'). constructor; [done|by rewrite lookup_insert_ne|done].
Qed.

Lemma chained_next_notin B p b l : B !! p = Some b → p ≠ NULL → chained B (next b) l → p ∉ l.*1.
Proof.
  intros Hb Hp Hc Hin. assert (chained B p ((p, b) :: l)) as H by (by constructor).
  apply chained_NoDup in H. cbn in H. by apply NoDup_cons in H as [? _].
Qed.

(** A segment of a chain, from [p] to the address [t] its last struct links to. *)
Fixpoint linked (p : Z) (l : list (Z * pbuf)) (t : Z) : Prop :=
  match l with
  | [] => p = t
  | (q, b) :: l' => q = p ∧ p ≠ NULL ∧ linked (next b) l' t
  end.

Lemma linked_snoc p l q b t :
  linked p (l ++ [(q, b)]) t ↔ linked p l q ∧ q ≠ NULL ∧ next b = t.
Proof.
  revert p. induction l as [|[q' b'] l IH]; intros p; cbn.
  - split; [intros (-> & ? & ?)|intros (-> & ? & ?)]; done.
  - rewrite IH. tauto.
Qed.

Lemma chained_split B p l1 l2 :
  chained B p (l1 ++ l2) ↔ ∃ t, linked p l1 t ∧ (∀ q b, (q, b) ∈ l1 → B !! q = Some b) ∧ chained B t l2.
Proof.
  revert p. induction l1 as [|[q b] l1 IH]; intros p; cbn [app linked].
  - split; [intros H; exists p; split_and!; [done| |done]|by intros (t & -> & _ & ?)].
    intros q b Hin. by apply elem_of_nil in Hin.
  - split.
    + intros (-> & Hp & Hb & (t & H1 & H2 & H3)%IH)%chained_inv_cons. exists t.
      split_and!; [done..| |done]. intros q' b' [[= -> ->]|Hin]%elem_of_cons; auto.
    + intros (t & (-> & Hp & Hl) & Hin & Ht). constructor; [done|apply Hin; by left|].
      apply IH. exists t. split_and!; [done| |done]. intros q' b' H. apply Hin. by right.
Qed.

(** A struct of a chain other than its head has a predecessor. *)
Lemma chained_pred B q l p : chained B q l → p ∈ l.*1 → p ≠ q →
  ∃ x c, B !! x = Some c ∧ next c = p.
Proof.
  intros Hc. revert p. induction Hc as [|q b l Hq Hb Hc IH]; cbn; intros p Hin Hne.
  - by apply elem_of_nil in Hin.
  - apply elem_of_cons in Hin as [?|Hin]; [done|].
    destruct (decide (p = next b)) as [->|Hne']; [eauto|]. by apply IH.
Qed.

(** ** Incoming links *)

Definition indeg (B : gmap Z pbuf) (p : Z) : Z := Z.of_nat (size (filter (λ kv, next kv.2 = p) B)).

Lemma indeg_nonneg B p : 0 ≤ indeg B p.
Proof. unfold indeg. lia. Qed.

Lemma indeg_insert_new B q b p : B !! q = None →
  indeg (<[q:=b]> B) p = indeg B p + (if decide (next b = p) then 1 else 0).
Proof.
  intros Hq. unfold indeg. destruct (decide (next b = p)) as [Hn|Hn].
  - rewrite map_filter_insert_True by done. rewrite map_size_insert_None; [lia|].
    apply map_lookup_filter_None. by left.
  - rewrite map_filter_insert_False by done. rewrite delete_id by done. lia.
Qed.

Lemma indeg_delete B q b p : B !! q = Some b →
  indeg (delete q B) p = indeg B p - (if decide (next b = p) then 1 else 0).
Proof.
  intros Hq. rewrite <- (insert_delete_id B q b Hq) at 2.
  rewrite indeg_insert_new by apply lookup_delete_eq. lia.
Qed.

Lemma indeg_insert B q b b' p : B !! q = Some b →
  indeg (<[q:=b']> B) p = indeg B p - (if decide (next b = p) then 1 else 0)
    + (if decide (next b' = p) then 1 else 0).
Proof.
  intros Hq. rewrite <- insert_delete_eq, indeg_insert_new by apply lookup_delete_eq.
  by rewrite (indeg_delete B q b p Hq).
Qed.

Lemma indeg_insert_same B q b b' p : B !! q = Some b → next b' = next b →
  indeg (<[q:=b']> B) p = indeg B p.
Proof. intros Hq Hn. rewrite (indeg_insert _ _ b) by done. rewrite Hn. lia. Qed.

Lemma indeg_pos B p : 0 < indeg B p → ∃ q b, B !! q = Some b ∧ next b = p.
Proof.
  unfold indeg. intros Hs.
  destruct (map_choose (filter (λ kv : Z * pbuf, next kv.2 = p) B)) as (q & b & Hb).
  { intros He. rewrite He, map_size_empty in Hs. lia. }
  apply map_lookup_filter_Some in Hb as [? ?]. eauto.
Qed.

Lemma indeg_ge1 B q b p : B !! q = Some b → next b = p → 1 ≤ indeg B p.
Proof.
  intros Hq Hn. pose proof (indeg_delete B q b p Hq) as H. pose proof (indeg_nonneg (delete q B) p).
  rewrite decide_True in H by done. lia.
Qed.

(** ** The invariant of the store *)

Definition type_src (t : Z) : option asrc :=
  let src := Z.land t PBUF_TYPE_ALLOC_SRC_MASK in
  if src =? PBUF_TYPE_ALLOC_SRC_MASK_STD_MEMP_PBUF_POOL then Some SrcPool
  else if src =? PBUF_TYPE_ALLOC_SRC_MASK_STD_MEMP_PBUF then Some SrcPbuf
  else if src =? PBUF_TYPE_ALLOC_SRC_MASK_STD_HEAP then Some SrcHeap
  else None.

Definition contiguous (b : pbuf) : Prop :=
  Z.land (type_internal b) PBUF_TYPE_FLAG_STRUCT_DATA_CONTIGUOUS ≠ 0.

(** A struct and the block it lies in: a bare [struct pbuf] for [PBUF_REF] and [PBUF_ROM],
    otherwise the struct is followed by its payload. *)
Record block_ok (live : gmap Z (asrc * Z)) (p : Z) (b : pbuf) : Prop := BlockOk {
  bo_len : is_u16 (len b);
  bo_tot : is_u16 (tot_len b);
  bo_ref : 1 ≤ ref b < 256;
  bo_custom : is_custom b = false;
  bo_live : ∃ k n, live !! p = Some (k, n) ∧ type_src (type_internal b) = Some k ∧
    (contiguous b ↔ k ≠ SrcPbuf) ∧
    (contiguous b → p + SIZEOF_STRUCT_PBUF ≤ payload b ∧ payload b + len b ≤ p + n) }.

(** Storing several entries. *)
Definition ins {A} (l : list (Z * A)) (m : gmap Z A) : gmap Z A :=
  foldl (λ m kv, <[kv.1:=kv.2]> m) m l.

Lemma ins_cons {A} p (b : A) l m : ins ((p, b) :: l) m = ins l (<[p:=b]> m).
Proof. done. Qed.

Lemma ins_app {A} (l1 l2 : list (Z * A)) m : ins (l1 ++ l2) m = ins l2 (ins l1 m).
Proof. apply foldl_app. Qed.

Lemma ins_comm {A} (l : list (Z * A)) p b m : p ∉ l.*1 → ins l (<[p:=b]> m) = <[p:=b]> (ins l m).
Proof.
  revert m. induction l as [|[q c] l IH]; intros m; [done|]. cbn [fmap list_fmap].
  intros [Hne Hnin]%not_elem_of_cons. rewrite !ins_cons, <- IH by done.
  by rewrite insert_insert_ne.
Qed.

Lemma ins_notin {A} (l : list (Z * A)) m p : p ∉ l.*1 → ins l m !! p = m !! p.
Proof.
  revert m. induction l as [|[q c] l IH]; intros m; [done|]. cbn [fmap list_fmap].
  intros [Hne Hnin]%not_elem_of_cons. rewrite ins_cons, IH by done. by rewrite lookup_insert_ne.
Qed.

Lemma ins_in {A} (l : list (Z * A)) m p b : NoDup (l.*1) → (p, b) ∈ l → ins l m !! p = Some b.
Proof.
  revert m. induction l as [|[q c] l IH]; intros m Hnd Hin; [by apply elem_of_nil in Hin|].
  cbn [fmap list_fmap] in Hnd. apply NoDup_cons in Hnd as [Hnin Hnd]. rewrite ins_cons.
  apply elem_of_cons in Hin as [[= -> ->]|Hin]; [|by apply IH].
  rewrite ins_notin by done. apply lookup_insert_eq.
Qed.

(** ** Packets *)

Fixpoint lens (l : list (Z * pbuf)) : Z :=
  match l with [] => 0 | (_, b) :: l' => len b + lens l' end.

(** The [tot_len] invariant. *)
Fixpoint packet (l : list (Z * pbuf)) : Prop :=
  match l with [] => True | (_, b) :: l' => tot_len b = len b + lens l' ∧ packet l' end.

(** Where the bytes of a packet are. *)
Definition view (l : list (Z * pbuf)) : list (Z * Z) := (λ kv, (payload kv.2, len kv.2)) <$> l.

(** The bytes of a packet ([None] where there is no memory). *)
Definition seg (d : gmap Z Z) (a n : Z) : list (option Z) := (λ i, d !! i) <$> seqZ a n.
Definition content (d : gmap Z Z) (l : list (Z * pbuf)) : list (option Z) :=
  concat ((λ v, seg d v.1 v.2) <$> view l).

Lemma content_app d l1 l2 : content d (l1 ++ l2) = content d l1 ++ content d l2.
Proof. unfold content, view. by rewrite !fmap_app, concat_app. Qed.

Lemma content_cons d p b l : content d ((p, b) :: l) = seg d (payload b) (len b) ++ content d l.
Proof. done. Qed.

Lemma content_view d l1 l2 : view l1 = view l2 → content d l1 = content d l2.
Proof. unfold content. by intros ->. Qed.

Lemma seg_length d a n : length (seg d a n) = Z.to_nat n.
Proof. unfold seg. by rewrite length_fmap, length_seqZ. Qed.

Lemma seg_take d a n k : 0 ≤ k ≤ n → take (Z.to_nat k) (seg d a n) = seg d a k.
Proof.
  intros Hk. unfold seg. rewrite <- fmap_take. f_equal.
  replace n with (k + (n - k)) by lia. rewrite seqZ_app by lia.
  by rewrite take_app_le, take_ge by (rewrite length_seqZ; lia).
Qed.

Lemma lens_app l1 l2 : lens (l1 ++ l2) = lens l1 + lens l2.
Proof. induction l1 as [|[p b] l1 IH]; [done|]. cbn. rewrite IH. lia. Qed.

Lemma lens_view l1 l2 : view l1 = view l2 → lens l1 = lens l2.
Proof.
  revert l2. induction l1 as [|[p b] l1 IH]; intros [|[q c] l2]; try done. cbn.
  intros [= _ -> H]. f_equal. by apply IH.
Qed.

Lemma lens_nonneg l : Forall (λ kv, 0 ≤ len kv.2) l → 0 ≤ lens l.
Proof. induction 1 as [|[x b] l Hx _ IH]; cbn in *; lia. Qed.

Lemma content_length d l : Forall (λ kv, 0 ≤ len kv.2) l → length (content d l) = Z.to_nat (lens l).
Proof.
  induction 1 as [|[p b] l Hb Hl IH]; [done|]. cbn in Hb.
  rewrite content_cons, length_app, seg_length, IH. cbn [lens]. pose proof (lens_nonneg _ Hl). lia.
Qed.

Lemma packet_suffix l1 l2 : packet (l1 ++ l2) → packet l2.
Proof. induction l1 as [|[p b] l1 IH]; [done|]. cbn. intros [_ H]. auto. Qed.

(** References held by clients, by address. *)
Definition add_own (own : Z → Z) (p k : Z) : Z → Z := λ x, if decide (x = p) then own x + k else own x.

Section Inv.
Context {M : Type} `{PM : PbufAlloc M}.
Abbreviation pst := (@pst M).

(** [live] are the blocks that hold the structs, no others. *)
Record inv (s : pst) (live : gmap Z (asrc * Z)) (own : Z → Z) : Prop := Inv {
  i_alloc : pa_ok (pmem s) live;
  i_block p b : pbufs s !! p = Some b → block_ok live p b;
  i_chain p b : pbufs s !! p = Some b → ∃ l, chained (pbufs s) p l;
  i_ref p b : pbufs s !! p = Some b → ref b = own p + indeg (pbufs s) p;
  i_own p : 0 ≤ own p ∧ (0 < own p → is_Some (pbufs s !! p));
  i_live p kn : live !! p = Some kn → is_Some (pbufs s !! p);
  i_data a : pa_arena a → is_Some (data s !! a) }.

Lemma inv_pos s live own p b : inv s live own → pbufs s !! p = Some b → 0 < p.
Proof.
  intros Hi Hb. destruct (bo_live _ _ _ (i_block _ _ _ Hi _ _ Hb)) as (k & n & Hl & _).
  by destruct (pa_region _ _ _ _ _ (i_alloc _ _ _ Hi) Hl).
Qed.

Lemma inv_null s live own : inv s live own → pbufs s !! NULL = None.
Proof.
  intros Hi. destruct (pbufs s !! NULL) as [b|] eqn:Hb; [|done].
  apply (inv_pos _ _ _ _ _ Hi) in Hb. unfold NULL in Hb. lia.
Qed.

(** Every client reference starts a chain. *)
Lemma inv_own_chain s live own p : inv s live own → 0 < own p →
  ∃ b l, p ≠ NULL ∧ pbufs s !! p = Some b ∧ chained (pbufs s) (next b) l.
Proof.
  intros Hi Ho. destruct (i_own _ _ _ Hi p) as [_ [b Hb]]; [done|].
  destruct (i_chain _ _ _ Hi _ _ Hb) as [l Hc].
  pose proof (inv_pos _ _ _ _ _ Hi Hb) as Hpos.
  assert (p ≠ NULL) as Hp by (unfold NULL; lia).
  destruct (chained_nonnull _ _ _ Hp Hc) as (b' & l' & _ & Hb' & Hc').
  rewrite Hb in Hb'. injection Hb' as <-. eauto.
Qed.

(** Changing a struct, its link included: the references move with the link. *)
Lemma inv_relink s live own p b b' l own' : inv s live own → pbufs s !! p = Some b →
  chained (pbufs s) (next b') l → p ∉ l.*1 → block_ok live p b' →
  (∀ x, 0 ≤ own' x) → own' NULL = 0 →
  (∀ x, x ≠ NULL → own' x = own x + (if decide (next b = x) then 1 else 0)
     - (if decide (next b' = x) then 1 else 0) + (if decide (x = p) then ref b' - ref b else 0)) →
  inv (upd s p b') live own'.
Proof.
  intros Hi Hb Hc Hnin Hok Hpos Hnull Hown. pose proof (inv_pos _ _ _ _ _ Hi Hb) as Hp0.
  assert (p ≠ NULL) as Hp by (unfold NULL; lia).
  split; cbn [upd set_pbufs pmem pbufs data].
  - apply (i_alloc _ _ _ Hi).
  - intros q c [[<- <-]|[Hne Hq]]%lookup_insert_Some; [done|by apply (i_block _ _ _ Hi)].
  - intros q c Hq. destruct (decide (q = p)) as [->|Hne].
    + exists ((p, b') :: l). constructor; [done|by rewrite lookup_insert_eq|].
      by apply chained_insert.
    + rewrite lookup_insert_ne in Hq by done. destruct (i_chain _ _ _ Hi _ _ Hq) as [lq Hlq].
      by apply (chained_relink _ _ _ l Hp Hc Hnin _ _ Hlq).
  - intros q c Hq. rewrite (indeg_insert _ _ b) by done.
    assert (q ≠ NULL) as Hq0.
    { intros ->. rewrite lookup_insert_ne, (inv_null _ _ _ Hi) in Hq; done. }
    rewrite (Hown q Hq0). apply lookup_insert_Some in Hq as [[<- <-]|[Hne Hq]].
    + pose proof (i_ref _ _ _ Hi _ _ Hb). rewrite (decide_True (P := p = p)) by done. lia.
    + pose proof (i_ref _ _ _ Hi _ _ Hq). rewrite (decide_False (P := q = p)) by done. lia.
  - intros q. split; [apply Hpos|]. intros Hq.
    assert (q ≠ NULL) as Hq0 by (intros ->; lia). rewrite Hown in Hq by done.
    apply lookup_insert_is_Some. destruct (decide (p = q)) as [|Hne]; [by left|]. right.
    split; [done|]. rewrite (decide_False (P := q = p)) in Hq by done.
    destruct (decide (next b = q)) as [Hn|Hn].
    + destruct (i_chain _ _ _ Hi _ _ Hb) as [lp Hlp].
      destruct (chained_nonnull _ _ _ Hp Hlp) as (b0 & lq & _ & Hb0 & Hcq).
      rewrite Hb in Hb0. injection Hb0 as <-. rewrite Hn in Hcq.
      destruct (chained_nonnull _ _ _ Hq0 Hcq) as (? & ? & _ & ? & _). eauto.
    + apply (i_own _ _ _ Hi). destruct (decide (next b' = q)); lia.
  - intros q kn Hq. apply lookup_insert_is_Some'. right. by eapply (i_live _ _ _ Hi).
  - apply (i_data _ _ _ Hi).
Qed.

Lemma inv_next_chain s live own p b : inv s live own → pbufs s !! p = Some b →
  ∃ l, chained (pbufs s) (next b) l ∧ p ∉ l.*1.
Proof.
  intros Hi Hb. pose proof (inv_pos _ _ _ _ _ Hi Hb) as Hp0.
  assert (p ≠ NULL) as Hp by (unfold NULL; lia).
  destruct (i_chain _ _ _ Hi _ _ Hb) as [lp Hlp].
  destruct (chained_nonnull _ _ _ Hp Hlp) as (b0 & l & _ & Hb0 & Hc).
  rewrite Hb in Hb0. injection Hb0 as <-. exists l. split; [done|].
  by eapply chained_next_notin.
Qed.

Lemma inv_own_null s live own : inv s live own → own NULL = 0.
Proof.
  intros Hi. destruct (i_own _ _ _ Hi NULL) as [H1 H2]. rewrite (inv_null _ _ _ Hi) in H2.
  destruct (decide (0 < own NULL)) as [H|H]; [|lia]. by destruct (H2 H).
Qed.

Lemma inv_own_ext s live own own' : inv s live own → (∀ x, own x = own' x) → inv s live own'.
Proof.
  intros [? ? ? Hr Ho ? ?] Heq. split; try done.
  - intros p b Hb. rewrite <- Heq. by apply Hr.
  - intros p. rewrite <- Heq. apply Ho.
Qed.

(** Changing a struct without relinking it. *)
Lemma inv_upd s live own p b b' own' : inv s live own → pbufs s !! p = Some b →
  next b' = next b → block_ok live p b' → (∀ x, 0 ≤ own' x) →
  (∀ x, own' x = own x + (if decide (x = p) then ref b' - ref b else 0)) →
  inv (upd s p b') live own'.
Proof.
  intros Hi Hb Hn Hok Hpos Hown. destruct (inv_next_chain _ _ _ _ _ Hi Hb) as (l & Hc & Hnin).
  rewrite <- Hn in Hc. apply (inv_relink s live own p b b' l); try done.
  - rewrite Hown, (inv_own_null _ _ _ Hi). pose proof (inv_pos _ _ _ _ _ Hi Hb).
    rewrite decide_False by (unfold NULL; lia). done.
  - intros x _. rewrite Hown, Hn. lia.
Qed.

(** Releasing the last reference to a struct: its successor is now referenced directly. *)
Lemma inv_delete s live own p b m : inv s live own → pbufs s !! p = Some b →
  0 < own p → ref b = 1 → pa_ok m (delete p live) →
  inv (set_pmem (set_pbufs s (delete p (pbufs s))) m) (delete p live)
    (λ x, add_own own p (-1) x + (if decide (x = next b ∧ x ≠ NULL) then 1 else 0)).
Proof.
  intros Hi Hb Ho Href Hm. pose proof (i_ref _ _ _ Hi _ _ Hb) as Hr.
  pose proof (indeg_nonneg (pbufs s) p) as Hin0.
  destruct (inv_next_chain _ _ _ _ _ Hi Hb) as (l & Hc & Hnin).
  assert (∀ q c, pbufs s !! q = Some c → next c ≠ p) as Hnext.
  { intros q c Hq Hn. pose proof (indeg_ge1 _ _ _ _ Hq Hn). lia. }
  assert (next b ≠ NULL → is_Some (pbufs s !! next b)) as Hnb.
  { intros H0. destruct (chained_nonnull _ _ _ H0 Hc) as (? & ? & _ & ? & _). eauto. }
  split; cbn [set_pmem set_pbufs pmem pbufs data].
  - done.
  - intros q c [Hne Hq]%lookup_delete_Some. destruct (i_block _ _ _ Hi _ _ Hq) as [? ? ? ? Hl].
    split; try done. by rewrite lookup_delete_ne.
  - intros q c [Hne Hq]%lookup_delete_Some. destruct (i_chain _ _ _ Hi _ _ Hq) as [lq Hlq].
    exists lq. apply chained_delete; [|done].
    intros Hin. destruct (chained_pred _ _ _ _ Hlq Hin) as (x & c' & Hx & Hn); [congruence|].
    by apply (Hnext x c').
  - intros q c [Hne Hq]%lookup_delete_Some. rewrite (indeg_delete _ _ b) by done.
    pose proof (i_ref _ _ _ Hi _ _ Hq). unfold add_own. rewrite decide_False by done.
    assert (q ≠ NULL). { pose proof (inv_pos _ _ _ _ _ Hi Hq). unfold NULL. lia. }
    destruct (decide (q = next b ∧ q ≠ NULL)) as [[-> _]|Hx].
    + rewrite decide_True by done. lia.
    + rewrite decide_False by naive_solver. lia.
  - intros q. unfold add_own. destruct (i_own _ _ _ Hi q) as [H1 H2]. split.
    + repeat case_decide; subst; lia.
    + destruct (decide (q = p)) as [->|Hne].
      * rewrite decide_False; [lia|]. intros [Hn _]. by apply (Hnext p b).
      * rewrite lookup_delete_ne by done. intros Hq.
        destruct (decide (q = next b ∧ q ≠ NULL)) as [[-> ?]|Hx]; [auto|]. apply H2. lia.
  - intros q kn [Hne Hq]%lookup_delete_Some. rewrite lookup_delete_ne by done.
    by eapply (i_live _ _ _ Hi).
  - apply (i_data _ _ _ Hi).
Qed.
(** ** Reference counting *)

(** What [pbuf_free] of the chain [l] leaves: the number of structs deallocated, the
    remaining structs and the blocks still allocated.  The structs that nobody
    else refers to go, up to the first that is shared. *)
Fixpoint afree (l : list (Z * pbuf)) (B : gmap Z pbuf) (live : gmap Z (asrc * Z))
  : Z * gmap Z pbuf * gmap Z (asrc * Z) :=
  match l with
  | [] => (0, B, live)
  | (p, b) :: l' =>
      if ref b =? 1 then
        let '(n, B', live') := afree l' (delete p B) (delete p live) in (n + 1, B', live')
      else (0, <[p:=set_ref b (ref b - 1)]> B, live)
  end.

Lemma u8_add_l a b : u8 (u8 a + b) = u8 (a + b).
Proof. unfold u8. by rewrite Zplus_mod_idemp_l. Qed.

Variable cff : Z → option (pst → out pst).

Lemma block_ok_ref live p b r : block_ok live p b → 1 ≤ r < 256 → block_ok live p (set_ref b r).
Proof. intros [? ? ? ? ?] Hr. by split. Qed.

(** One iteration of the loop that deallocates. *)
Lemma free_loop_last fuel s live own p b count :
  inv s live own → pbufs s !! p = Some b → ref b = 1 → ∃ m,
  pa_ok m (delete p live) ∧
  free_loop cff (S fuel) s p count =
  free_loop cff fuel (set_pmem (set_pbufs s (delete p (pbufs s))) m) (next b) (u8 (count + 1)).
Proof.
  intros Hi Hb Href. destruct (i_block _ _ _ Hi _ _ Hb) as [_ _ _ Hcu (k & n & Hl & Ht & _)].
  destruct (pa_free_ok _ _ _ _ _ (i_alloc _ _ _ Hi) Hl) as (m & Hf & Hm).
  exists m. split; [done|]. cbn [free_loop].
  rewrite (proj2 (Z.eqb_neq p NULL)) by (pose proof (inv_pos _ _ _ _ _ Hi Hb); unfold NULL; lia).
  unfold get. rewrite Hb. out_simp. rewrite Href. change (u8 (1 - 1)) with 0.
  change (0 <? 1) with true. out_simp. cbn [ref set_ref next]. change (0 =? 0) with true.
  unfold is_custom in Hcu |- *. cbn [flags set_ref]. rewrite Hcu.
  unfold type_src in Ht. unfold pbuf_get_allocsrc. cbn [type_internal set_ref].
  cbn [upd set_pbufs pmem pbufs]. rewrite delete_insert_eq.
  repeat (case_match; simplify_eq); (rewrite Hf; by out_simp) || done.
Qed.

Lemma free_loop_shared fuel s live own p b count :
  inv s live own → pbufs s !! p = Some b → ref b ≠ 1 →
  free_loop cff (S fuel) s p count = Clean (count, upd s p (set_ref b (ref b - 1))).
Proof.
  intros Hi Hb Href. destruct (i_block _ _ _ Hi _ _ Hb) as [_ _ Hr _ _]. cbn [free_loop].
  rewrite (proj2 (Z.eqb_neq p NULL)) by (pose proof (inv_pos _ _ _ _ _ Hi Hb); unfold NULL; lia).
  unfold get. rewrite Hb. out_simp. rewrite (proj2 (Z.ltb_lt 0 (ref b))) by lia. out_simp.
  rewrite u8_id by (unfold is_u8; lia). cbn [ref set_ref].
  by rewrite (proj2 (Z.eqb_neq _ _)) by lia.
Qed.

Lemma free_loop_spec l : ∀ fuel s live own p count,
  inv s live own → 0 < own p → chained (pbufs s) p l → (length l ≤ fuel)%nat → is_u8 count →
  ∃ n B' live' m', afree l (pbufs s) live = (n, B', live') ∧
  free_loop cff fuel s p count =
    Clean (u8 (count + n), Pst m' B' (data s) (pbuf_free_ooseq_pending s)) ∧
  inv (Pst m' B' (data s) (pbuf_free_ooseq_pending s)) live' (add_own own p (-1)).
Proof.
  induction l as [|[p' b] l IH]; intros fuel s live own p count Hi Ho Hc Hfuel Hcount.
  - inversion Hc; subst. rewrite (inv_own_null _ _ _ Hi) in Ho. lia.
  - apply chained_inv_cons in Hc as (-> & Hp & Hb & Hc). cbn [length] in Hfuel.
    destruct fuel as [|fuel]; [lia|]. cbn [afree]. destruct (Z.eqb_spec (ref b) 1) as [Href|Href].
    + destruct (free_loop_last fuel s live own p b count Hi Hb Href) as (m & Hm & ->).
      pose proof (inv_delete _ _ _ _ _ _ Hi Hb Ho Href Hm) as Hi'.
      destruct (decide (next b = NULL)) as [Hn|Hn].
      * rewrite Hn in Hc. apply chained_null in Hc as ->. cbn [afree]. rewrite Hn.
        eexists _, _, _, _. split; [done|]. split; [by destruct fuel|].
        apply (inv_own_ext _ _ _ _ Hi'). intros x. rewrite decide_False by (intros [-> ?]; by rewrite Hn in *). lia.
      * destruct (IH fuel (set_pmem (set_pbufs s (delete p (pbufs s))) m) _ _ (next b) (u8 (count + 1)) Hi')
          as (n & B' & live' & m' & Ha & Hf & Hi''); [|by apply chained_delete; [eapply chained_next_notin|]|lia|apply u8_range|].
        { rewrite decide_True by done. unfold add_own.
          pose proof (i_own _ _ _ Hi (next b)). case_decide as Hnp; [rewrite Hnp|]; lia. }
        cbn [pbufs set_pmem set_pbufs] in Ha. rewrite Ha. eexists _, _, _, m'. split; [done|].
        split; [replace (count + (n + 1)) with (count + 1 + n) by lia; by rewrite Hf, u8_add_l|].
        apply (inv_own_ext _ _ _ _ Hi''). intros x. unfold add_own.
        repeat case_decide; subst; lia || tauto.
    + pose proof (free_loop_shared fuel s live own p b count Hi Hb Href) as ->.
      pose proof (bo_ref _ _ _ (i_block _ _ _ Hi _ _ Hb)) as Hr.
      eexists _, _, _, (pmem s). split; [done|]. rewrite Z.add_0_r, u8_id by done. split; [done|].
      apply (inv_upd s live own p b (set_ref b (ref b - 1))); try done.
      * apply block_ok_ref; [by apply (i_block _ _ _ Hi)|lia].
      * intros x. unfold add_own. pose proof (i_own _ _ _ Hi x). case_decide; subst; lia.
      * intros x. unfold add_own. cbn [ref set_ref]. case_decide; lia.
Qed.
Lemma pbuf_free_run s live own p l : inv s live own → 0 < own p → chained (pbufs s) p l →
  ∃ n B' live' m', afree l (pbufs s) live = (n, B', live') ∧
  pbuf_free cff s p = Clean (u8 n, Pst m' B' (data s) (pbuf_free_ooseq_pending s)) ∧
  inv (Pst m' B' (data s) (pbuf_free_ooseq_pending s)) live' (add_own own p (-1)).
Proof.
  intros Hi Ho Hc. destruct (inv_own_chain _ _ _ _ Hi Ho) as (_ & _ & Hp & _).
  unfold pbuf_free. rewrite (proj2 (Z.eqb_neq p NULL)) by done.
  apply (free_loop_spec l (chain_fuel s) s live own p 0); try done.
  pose proof (chained_length _ _ _ Hc). unfold chain_fuel. lia.
Qed.

Lemma pbuf_ref_run s live own p b : inv s live own → pbufs s !! p = Some b → ref b < 255 →
  pbuf_ref s p = Clean (upd s p (set_ref b (ref b + 1))) ∧
  inv (upd s p (set_ref b (ref b + 1))) live (add_own own p 1).
Proof.
  intros Hi Hb Hr. pose proof (inv_pos _ _ _ _ _ Hi Hb) as Hp.
  pose proof (bo_ref _ _ _ (i_block _ _ _ Hi _ _ Hb)) as Hr1. split.
  - unfold pbuf_ref, get. rewrite (proj2 (Z.eqb_neq p NULL)) by (unfold NULL; lia).
    cbn [negb]. rewrite Hb. out_simp. rewrite u8_id by (unfold is_u8; lia). cbn [ref set_ref].
    rewrite (proj2 (Z.ltb_lt 0 (ref b + 1))) by lia. by out_simp.
  - apply (inv_upd s live own p b); try done.
    + apply block_ok_ref; [by apply (i_block _ _ _ Hi)|lia].
    + intros x. unfold add_own. pose proof (i_own _ _ _ Hi x). case_decide; lia.
    + intros x. unfold add_own. cbn [ref set_ref]. case_decide; lia.
Qed.

(** ** Joining chains *)

Definition bump (T : Z) (kv : Z * pbuf) : Z * pbuf :=
  (kv.1, set_tot_len kv.2 (u16 (tot_len kv.2 + T))).

Lemma bump_fst T l : (bump T <$> l).*1 = l.*1.
Proof. rewrite <- list_fmap_compose. done. Qed.

Lemma block_ok_tot live p b t : block_ok live p b → is_u16 t → block_ok live p (set_tot_len b t).
Proof. intros [? ? ? ? ?] Hr. by split. Qed.

Lemma cat_loop_spec l0 : ∀ fuel s live own p q bq t bt,
  inv s live own → chained (pbufs s) p (l0 ++ [(q, bq)]) → next bq = NULL →
  pbufs s !! t = Some bt → t ∉ (l0 ++ [(q, bq)]).*1 → (length l0 ≤ fuel)%nat →
  let s' := set_pbufs s (ins (bump (tot_len bt) <$> l0) (pbufs s)) in
  cat_loop fuel s p t = Clean (q, s') ∧ inv s' live own.
Proof.
  induction l0 as [|[p0 b] l0 IH]; intros fuel s live own p q bq t bt Hi Hc Hn Ht Hnin Hfuel s'.
  - cbn in Hc. apply chained_inv_cons in Hc as (-> & Hp & Hb & _).
    replace s' with s by (by destruct s). split; [|done].
    destruct fuel; cbn [cat_loop]; unfold get; rewrite Hb; out_simp; by rewrite Hn.
  - cbn [app] in Hc. apply chained_inv_cons in Hc as (-> & Hp & Hb & Hc).
    cbn [length] in Hfuel. destruct fuel as [|fuel]; [lia|].
    cbn [app fmap list_fmap fst] in Hnin. apply not_elem_of_cons in Hnin as [Hne Hnin].
    set (b' := set_tot_len b (u16 (tot_len b + tot_len bt))).
    assert (inv (upd s p b') live own) as Hi'.
    { apply (inv_upd s live own p b); try done.
      - apply block_ok_tot; [by apply (i_block _ _ _ Hi)|apply u16_range].
      - intros x. by destruct (i_own _ _ _ Hi x).
      - intros x. cbn [ref b' set_tot_len]. case_decide; lia. }
    destruct (IH fuel (upd s p b') live own (next b) q bq t bt) as [H1 H2]; try done.
    + apply chained_insert; [by eapply chained_next_notin|done].
    + cbn. by rewrite lookup_insert_ne.
    + lia.
    + split; [|exact H2]. cbn [cat_loop]. unfold get. rewrite Hb. out_simp.
      assert (next b ≠ NULL) as Hnb.
      { intros H0. rewrite H0 in Hc. apply chained_null in Hc. by destruct l0. }
      rewrite (proj2 (Z.eqb_neq (next b) NULL)) by done. rewrite Ht. out_simp. exact H1.
Qed.
Lemma linked_bump T p l t : linked p (bump T <$> l) t ↔ linked p l t.
Proof. revert p. induction l as [|[q b] l IH]; intros p; [done|]. cbn. rewrite IH. done. Qed.

(** The structs of the first chain after [pbuf_cat]. *)
Definition cat_head (T t : Z) (l0 : list (Z * pbuf)) (q : Z) (bq : pbuf) : list (Z * pbuf) :=
  (bump T <$> l0) ++ [(q, set_pnext (set_tot_len bq (u16 (tot_len bq + T))) t)].

Lemma pbuf_cat_run s live own h l0 q bq t bt lt :
  inv s live own → chained (pbufs s) h (l0 ++ [(q, bq)]) → next bq = NULL → tot_len bq = len bq →
  0 < own t → pbufs s !! t = Some bt → chained (pbufs s) t lt →
  (∀ x, x ∈ (l0 ++ [(q, bq)]).*1 → x ∉ lt.*1) →
  ∃ s', pbuf_cat s h t = Clean s' ∧ inv s' live (add_own own t (-1)) ∧ data s' = data s ∧
    pmem s' = pmem s ∧ pbufs s' = ins (cat_head (tot_len bt) t l0 q bq) (pbufs s) ∧
    chained (pbufs s') h (cat_head (tot_len bt) t l0 q bq ++ lt).
Proof.
  intros Hi Hc Hn Htl Ho Ht Hct Hdisj.
  destruct (inv_own_chain _ _ _ _ Hi Ho) as (_ & _ & Ht0 & _).
  destruct (chained_nonnull _ _ _ Ht0 Hct) as (bt' & lt' & -> & Ht' & Hct').
  rewrite Ht in Ht'. injection Ht' as <-.
  assert (t ∉ (l0 ++ [(q, bq)]).*1) as Hnin by (intros Hx; apply (Hdisj t Hx); by left).
  assert (h ≠ NULL) as Hh.
  { intros ->. apply chained_null in Hc. by destruct l0. }
  pose proof (chained_NoDup _ _ _ Hc) as Hnd. rewrite fmap_app in Hnd. cbn [fmap list_fmap fst] in Hnd.
  apply NoDup_app in Hnd as (Hnd0 & Hq0 & _).
  assert (q ∉ l0.*1) as Hq by (intros Hx; apply (Hq0 q Hx); by left).
  assert (pbufs s !! q = Some bq ∧ q ≠ NULL) as [Hbq Hq1].
  { destruct (chained_elem _ _ _ q bq Hc) as [? ?]; [|done]. apply elem_of_app. right. by left. }
  destruct (cat_loop_spec l0 (chain_fuel s) s live own h q bq t bt Hi Hc Hn Ht Hnin) as [Hl Hi1].
  { pose proof (chained_length _ _ _ Hc) as Hlen. rewrite length_app in Hlen. unfold chain_fuel. lia. }
  set (s1 := set_pbufs s (ins (bump (tot_len bt) <$> l0) (pbufs s))) in *.
  assert (pbufs s1 !! q = Some bq) as Hq'.
  { cbn. rewrite ins_notin; [done|by rewrite bump_fst]. }
  assert (pbufs s1 !! t = Some bt) as Ht1.
  { cbn. rewrite ins_notin; [done|]. rewrite bump_fst. intros Hx. apply Hnin.
    rewrite fmap_app. apply elem_of_app. by left. }
  set (bq' := set_pnext (set_tot_len bq (u16 (tot_len bq + tot_len bt))) t).
  assert (chained (pbufs s1) t ((t, bt) :: lt')) as Hct1.
  { apply (chained_frame _ _ _ _ Hct). intros x b Hin. cbn.
    rewrite ins_notin; [apply (chained_elem _ _ _ _ _ Hct Hin)|]. rewrite bump_fst. intros Hx.
    apply (Hdisj x); [rewrite fmap_app; apply elem_of_app; by left|].
    by apply (list_elem_of_fmap_2 fst) in Hin. }
  assert (q ∉ ((t, bt) :: lt').*1) as Hqt.
  { apply Hdisj. rewrite fmap_app. apply elem_of_app. right. by left. }
  exists (upd s1 q bq'). split_and!.
  - unfold pbuf_cat. rewrite (proj2 (Z.eqb_neq h NULL)), (proj2 (Z.eqb_neq t NULL)) by done.
    cbn [negb andb]. rewrite Hl. out_simp. unfold get. rewrite Hq'. out_simp.
    rewrite Htl, Z.eqb_refl, Hn. out_simp. rewrite Ht1. out_simp. unfold bq'. by rewrite Htl.
  - apply (inv_relink s1 live own q bq bq' ((t, bt) :: lt')); try done.
    + destruct (i_block _ _ _ Hi1 _ _ Hq') as [? ? ? ? ?]. split; try done. apply u16_range.
    + intros x. unfold add_own. pose proof (i_own _ _ _ Hi x). case_decide; subst; lia.
    + unfold add_own. rewrite decide_False by congruence. apply (inv_own_null _ _ _ Hi).
    + intros x Hx. unfold add_own, bq'. cbn [next ref set_pnext set_tot_len]. rewrite Hn.
      rewrite (decide_False (P := NULL = x)) by congruence.
      repeat case_decide; subst; try lia; congruence.
  - done.
  - done.
  - cbn [upd set_pbufs pbufs s1]. unfold cat_head. by rewrite ins_app.
  - apply chained_split. exists t. split_and!.
    + apply linked_snoc. apply chained_split in Hc as (x & Hl0 & _ & Hx).
      apply chained_inv_cons in Hx as (<- & _). by rewrite linked_bump.
    + intros x b [Hin|Hin]%elem_of_app.
      * cbn [upd set_pbufs pbufs]. rewrite lookup_insert_ne.
        -- apply ins_in; [by rewrite bump_fst|done].
        -- intros <-. apply (list_elem_of_fmap_2 fst) in Hin. cbn in Hin. by rewrite bump_fst in Hin.
      * apply list_elem_of_singleton in Hin as [= -> ->]. apply lookup_insert_eq.
    + by apply chained_insert.
Qed.
Lemma packet_cat l0 q bq t lt T : packet (l0 ++ [(q, bq)]) → packet lt → T = lens lt →
  lens (l0 ++ [(q, bq)]) + lens lt < 65536 → Forall (λ kv, 0 ≤ len kv.2) (l0 ++ [(q, bq)]) →
  0 ≤ lens lt → packet (cat_head T t l0 q bq ++ lt).
Proof.
  intros Hp Ht -> Hlt Hpos H0. revert Hp Hlt Hpos. unfold cat_head.
  induction l0 as [|[x b] l0 IH]; cbn; rewrite ?lens_app; cbn.
  - intros [-> _] Hlt Hpos. rewrite u16_id; [split; [lia|done]|].
    apply Forall_cons in Hpos as [? _]. unfold is_u16. cbn in *. lia.
  - intros [Htot Hp] Hlt [Hx Hpos]%Forall_cons. cbn in Hx.
    pose proof (lens_nonneg _ Hpos) as Hn0. rewrite lens_app in Hn0. cbn in Htot, Hn0. split.
    + rewrite ?lens_app. cbn. rewrite Htot, u16_id by (unfold is_u16; lia).
      replace (lens (bump (lens lt) <$> l0)) with (lens l0); [lia|]. apply lens_view.
      unfold view. by rewrite <- list_fmap_compose.
    + apply IH; [done| |done]. rewrite lens_app. cbn. lia.
Qed.

Lemma view_cat_head T t l0 q bq : view (cat_head T t l0 q bq) = view (l0 ++ [(q, bq)]).
Proof. unfold view, cat_head. rewrite !fmap_app. cbn. by rewrite <- list_fmap_compose. Qed.

(** ** What [pbuf_free] leaves alone *)

Lemma afree_frame l B live n B' live' p : afree l B live = (n, B', live') → p ∉ l.*1 →
  B' !! p = B !! p ∧ live' !! p = live !! p.
Proof.
  revert B live n B' live'. induction l as [|[q b] l IH]; cbn; intros B live n B' live' Ha Hnin.
  - by injection Ha as <- <- <-.
  - apply not_elem_of_cons in Hnin as [Hne Hnin]. destruct (ref b =? 1).
    + destruct (afree l _ _) as [[n0 B0] live0] eqn:E. injection Ha as <- <- <-.
      destruct (IH _ _ _ _ _ E Hnin) as [-> ->]. by rewrite !lookup_delete_ne.
    + injection Ha as <- <- <-. by rewrite lookup_insert_ne.
Qed.

Lemma afree_count l B live n B' live' : afree l B live = (n, B', live') → 0 ≤ n ≤ Z.of_nat (length l).
Proof.
  revert B live n B' live'. induction l as [|[q b] l IH]; cbn; intros B live n B' live' Ha.
  - injection Ha as <- <- <-. lia.
  - destruct (ref b =? 1).
    + destruct (afree l _ _) as [[n0 B0] live0] eqn:E. injection Ha as <- <- <-.
      apply IH in E. lia.
    + injection Ha as <- <- <-. lia.
Qed.

(** Freeing a chain does not depend on a struct outside it. *)
Lemma free_loop_frame l q c : ∀ fuel s p count n s',
  chained (pbufs s) p l → q ∉ l.*1 → Forall (λ kv, is_custom kv.2 = false) l →
  free_loop cff fuel s p count = Clean (n, s') →
  free_loop cff fuel (upd s q c) p count = Clean (n, upd s' q c).
Proof.
  induction l as [|[p' b] l IH]; intros fuel s p count n s' Hc Hnin Hcu.
  - inversion Hc; subst. destruct fuel; cbn; by intros [= <- <-].
  - apply chained_inv_cons in Hc as (-> & Hp & Hb & Hc). destruct fuel as [|fuel]; cbn [free_loop].
    { by rewrite (proj2 (Z.eqb_neq p NULL)). }
    rewrite (proj2 (Z.eqb_neq p NULL)) by done. cbn [fmap list_fmap fst] in Hnin.
    apply not_elem_of_cons in Hnin as [Hne Hnin]. apply Forall_cons in Hcu as [Hcu0 Hcu].
    unfold get. cbn [upd set_pbufs pbufs]. rewrite lookup_insert_ne, Hb by done. out_simp.
    cbn [ref set_ref]. destruct (0 <? ref b); [out_simp|by intros (? & [=] & _)%bind_clean_inv].
    assert (∀ x, <[p:=x]> (<[q:=c]> (pbufs s)) = <[q:=c]> (<[p:=x]> (pbufs s))) as Hcomm.
    { intros x. by rewrite insert_insert_ne. }
    destruct (u8 (ref b - 1) =? 0).
    + replace (is_custom (set_ref b (u8 (ref b - 1)))) with false.
      cbn [upd set_pbufs pmem pbufs]. rewrite Hcomm, (delete_insert_ne _ p q), !delete_insert_eq by congruence.
      assert (∀ m n s', free_loop cff fuel (set_pmem (set_pbufs s (delete p (pbufs s))) m) (next b)
          (u8 (count + 1)) = Clean (n, s') →
        free_loop cff fuel (set_pmem (set_pbufs s (<[q:=c]> (delete p (pbufs s)))) m) (next b)
          (u8 (count + 1)) = Clean (n, upd s' q c)) as IH'.
      { intros m n' s'' H. apply (IH fuel _ _ _ _ _) in H; [exact H| |done..].
        apply chained_delete; [by eapply chained_next_notin|done]. }
      repeat case_match; try (destruct (pa_free (pmem s) _ p) as [m lg|w|]; [|done..];
        intros (a & Ha & Hb')%bind_clean_inv;
        apply bind_clean_inv in Ha as (m' & [= <- ->] & [= <-]); out_simp; by apply IH').
      intros (a & Ha & _)%bind_clean_inv. done.
    + intros [= <- <-]. unfold upd, set_pbufs. cbn [pmem pbufs data pbuf_free_ooseq_pending]. by rewrite Hcomm.
Qed.
Lemma inv_plain s live own p l : inv s live own → chained (pbufs s) p l →
  Forall (λ kv, is_custom kv.2 = false) l.
Proof.
  intros Hi Hc. apply Forall_forall. intros [q b] Hin. destruct (chained_elem _ _ _ _ _ Hc Hin) as [_ Hb].
  apply (bo_custom _ _ _ (i_block _ _ _ Hi _ _ Hb)).
Qed.

Lemma inv_lens_pos s live own p l : inv s live own → chained (pbufs s) p l →
  Forall (λ kv, 0 ≤ len kv.2) l.
Proof.
  intros Hi Hc. apply Forall_forall. intros [q b] Hin. destruct (chained_elem _ _ _ _ _ Hc Hin) as [_ Hb].
  apply (bo_len _ _ _ (i_block _ _ _ Hi _ _ Hb)).
Qed.

(** Cutting a chain after [p] and freeing the rest, in either order. *)
Lemma cut_tail s live own p b b' lq : inv s live own → pbufs s !! p = Some b → next b ≠ NULL →
  chained (pbufs s) (next b) lq → next b' = NULL → ref b' = ref b → block_ok live p b' →
  ∃ n B' live' m', let s' := Pst m' B' (data s) (pbuf_free_ooseq_pending s) in
    afree lq (<[p:=b']> (pbufs s)) live = (n, B', live') ∧
    pbuf_free cff (upd s p b') (next b) = Clean (u8 n, s') ∧
    pbuf_free cff s (next b) = Clean (u8 n, upd s' p b) ∧
    inv s' live' own ∧ B' !! p = Some b'.
Proof.
  intros Hi Hb Hq Hc Hn Href Hok.
  assert (p ≠ NULL) as Hp by (pose proof (inv_pos _ _ _ _ _ Hi Hb); unfold NULL; lia).
  pose proof (chained_next_notin _ _ _ _ Hb Hp Hc) as Hnin.
  assert (inv (upd s p b') live (add_own own (next b) 1)) as Hi1.
  { apply (inv_relink s live own p b b' []); rewrite ?Hn; try done; auto.
    - by apply not_elem_of_nil.
    - intros x. unfold add_own. pose proof (i_own _ _ _ Hi x). case_decide; lia.
    - unfold add_own. rewrite decide_False by congruence. apply (inv_own_null _ _ _ Hi).
    - intros x Hx. unfold add_own. rewrite (decide_False (P := NULL = x)) by congruence.
      repeat case_decide; subst; congruence || lia. }
  assert (chained (pbufs (upd s p b')) (next b) lq) as Hc1 by (by apply chained_insert).
  destruct (pbuf_free_run (upd s p b') live (add_own own (next b) 1) (next b) lq Hi1)
    as (n & B' & live' & m' & Ha & Hf & Hi2); [|done|].
  { unfold add_own. pose proof (i_own _ _ _ Hi (next b)). rewrite decide_True by done. lia. }
  exists n, B', live', m'. cbn [upd set_pbufs pbufs data pbuf_free_ooseq_pending] in Ha, Hf, Hi2.
  split_and!; [done|done| | |].
  - unfold pbuf_free in *. rewrite (proj2 (Z.eqb_neq (next b) NULL)) in * by done.
    apply (free_loop_frame lq p b) in Hf; [|done|done|exact (inv_plain _ _ _ _ _ Hi Hc)].
    replace (upd (upd s p b') p b) with s in Hf.
    + replace (chain_fuel s) with (chain_fuel (upd s p b')); [done|]. unfold chain_fuel. f_equal.
      cbn. by rewrite map_size_insert_Some.
    + destruct s. unfold upd, set_pbufs. cbn in *. by rewrite insert_insert_eq, insert_id.
  - apply (inv_own_ext _ _ _ _ Hi2). intros x. unfold add_own. case_decide; lia.
  - destruct (afree_frame _ _ _ _ _ _ p Ha Hnin) as [-> _]. apply lookup_insert_eq.
Qed.

Lemma pbuf_dechain_run s live own p b lq : inv s live own → pbufs s !! p = Some b →
  chained (pbufs s) (next b) lq → tot_len b = len b + lens lq → packet lq → (length lq < 256)%nat →
  let b' := set_tot_len (set_pnext b NULL) (len b) in
  ∃ n B' live' m', let s' := Pst m' B' (data s) (pbuf_free_ooseq_pending s) in
    afree lq (<[p:=b']> (pbufs s)) live = (n, B', live') ∧
    pbuf_dechain cff s p = Clean (if 0 <? n then NULL else next b, s') ∧
    inv s' live' own ∧ B' !! p = Some b'.
Proof.
  intros Hi Hb Hc Htot Hpk Hlen b'. pose proof (i_block _ _ _ Hi _ _ Hb) as Hok.
  assert (block_ok live p b') as Hok'.
  { destruct Hok. split; try done. }
  assert (p ≠ NULL) as Hp by (pose proof (inv_pos _ _ _ _ _ Hi Hb); unfold NULL; lia).
  pose proof (chained_next_notin _ _ _ _ Hb Hp Hc) as Hnin.
  unfold pbuf_dechain, get. rewrite Hb. out_simp.
  destruct (decide (next b = NULL)) as [Hq|Hq].
  - rewrite Hq. rewrite Hq in Hc. apply chained_null in Hc as ->. cbn [negb].
    assert (b' = b) as Hbb.
    { cbn [lens] in Htot. unfold b', set_tot_len, set_pnext. destruct b. cbn in Hq, Htot |- *. subst. f_equal. lia. }
    exists 0, (pbufs s), live, (pmem s). rewrite Hbb, insert_id by done. split_and!; [done| | |done].
    + change (negb (NULL =? NULL)) with false. cbn iota. out_simp. rewrite Hb. out_simp.
      rewrite (proj2 (Z.eqb_eq (tot_len b) (len b))) by (cbn in Htot; lia). out_simp. by destruct s.
    + by destruct s.
  - destruct (chained_nonnull _ _ _ Hq Hc) as (bq & lq' & -> & Hbq & Hcq).
    assert (p ≠ next b) as Hpq by (intros Heq; apply Hnin; rewrite Heq; by left).
    rewrite (proj2 (Z.eqb_neq (next b) NULL)) by done. cbn [negb]. rewrite Hbq. out_simp.
    destruct Hpk as [Hpk _]. cbn [lens] in Htot.
    rewrite (proj2 (Z.eqb_eq (tot_len bq) (tot_len b - len b))) by lia. out_simp.
    assert (upd s (next b) (set_tot_len bq (u16 (tot_len b - len b))) = s) as ->.
    { rewrite u16_id by (pose proof (bo_tot _ _ _ (i_block _ _ _ Hi _ _ Hbq)); unfold is_u16 in *; lia).
      replace (tot_len b - len b) with (tot_len bq) by lia. destruct s, bq.
      unfold upd, set_pbufs, set_tot_len. cbn in *. by rewrite insert_id. }
    rewrite Hb. out_simp.
    destruct (cut_tail s live own p b b' _ Hi Hb Hq Hc) as (n & B' & live' & m' & Ha & Hf & _ & Hi' & Hp');
      [done..|]. exists n, B', live', m'. split_and!; [done| |done|done].
    fold b'. rewrite Hf. out_simp. cbn [pbufs]. rewrite Hp'. out_simp. unfold b'. cbn [tot_len len set_tot_len set_pnext].
    rewrite Z.eqb_refl. out_simp. pose proof (afree_count _ _ _ _ _ _ Ha).
    by rewrite u8_id by (unfold is_u8; lia).
Qed.
(** ** Shrinking *)

Lemma realloc_skip_spec l0 : ∀ fuel s live own p q bq l2 r shrink,
  inv s live own → chained (pbufs s) p (l0 ++ (q, bq) :: l2) → 0 ≤ r ≤ len bq →
  (l0 ≠ [] → 0 < r) → r + lens l0 < 65536 → (length l0 ≤ fuel)%nat →
  let s' := set_pbufs s (ins (bump (- shrink) <$> l0) (pbufs s)) in
  realloc_skip fuel s p (r + lens l0) shrink = Clean (q, r, s') ∧ inv s' live own.
Proof.
  induction l0 as [|[p0 b] l0 IH]; intros fuel s live own p q bq l2 r shrink Hi Hc Hr Hr0 Hlt Hfuel s'.
  - apply chained_inv_cons in Hc as (-> & Hp & Hb & _). replace s' with s by (by destruct s).
    split; [|done]. destruct fuel; cbn [realloc_skip lens]; unfold get; rewrite Hb; out_simp;
      rewrite Z.add_0_r; by rewrite (proj2 (Z.ltb_ge (len bq) r)) by lia.
  - cbn [app] in Hc. apply chained_inv_cons in Hc as (-> & Hp & Hb & Hc).
    cbn [length] in Hfuel. destruct fuel as [|fuel]; [lia|]. specialize (Hr0 ltac:(done)).
    cbn [lens] in *. pose proof (bo_len _ _ _ (i_block _ _ _ Hi _ _ Hb)) as Hlb.
    unfold is_u16 in Hlb. assert (0 ≤ lens l0) as Hl0.
    { apply lens_nonneg. pose proof (inv_lens_pos _ _ _ _ _ Hi Hc) as Hf. by apply Forall_app in Hf as [? _]. }
    assert (next b ≠ NULL) as Hnb.
    { intros H0. rewrite H0 in Hc. apply chained_null in Hc. by destruct l0. }
    set (b' := set_tot_len b (u16 (tot_len b - shrink))).
    assert (inv (upd s p b') live own) as Hi'.
    { apply (inv_upd s live own p b); try done.
      - apply block_ok_tot; [by apply (i_block _ _ _ Hi)|apply u16_range].
      - intros x. by destruct (i_own _ _ _ Hi x).
      - intros x. cbn [ref b' set_tot_len]. case_decide; lia. }
    destruct (IH fuel (upd s p b') live own (next b) q bq l2 r shrink) as [H1 H2]; try lia; try done.
    + apply chained_insert; [by eapply chained_next_notin|done].
    + split; [|exact H2]. cbn [realloc_skip]. unfold get. rewrite Hb. out_simp.
      rewrite (proj2 (Z.ltb_lt (len b) _)) by lia.
      rewrite (proj2 (Z.eqb_neq (next b) NULL)) by done. out_simp.
      replace (r + (len b + lens l0) - len b) with (r + lens l0) by lia.
      rewrite (u16_id (r + lens l0)) by (unfold is_u16; lia). exact H1.
Qed.

Lemma split_at l n : Forall (λ kv : Z * pbuf, 0 ≤ len kv.2) l → 0 ≤ n < lens l →
  ∃ l0 q bq l2 r, l = l0 ++ (q, bq) :: l2 ∧ n = r + lens l0 ∧ 0 ≤ r ≤ len bq ∧ (l0 ≠ [] → 0 < r).
Proof.
  revert n. induction l as [|[p b] l IH]; cbn [lens]; intros n Hf Hn; [lia|].
  apply Forall_cons in Hf as [Hb Hf]. cbn in Hb. destruct (decide (n ≤ len b)) as [Hle|Hgt].
  - exists [], p, b, l, n. cbn. split_and!; [done|lia|lia|lia|done].
  - destruct (IH (n - len b) Hf) as (l0 & q & bq & l2 & r & -> & Hr & Hr' & Hr0); [lia|].
    exists ((p, b) :: l0), q, bq, l2, r. cbn [app lens]. split_and!; [done|lia|lia|lia|].
    intros _. destruct l0; [cbn in Hr; lia|by apply Hr0].
Qed.

(** A block changes size and its struct with it. *)
Lemma inv_resize s live own q b b' m k n : inv s live own → pbufs s !! q = Some b →
  pa_ok m (<[q:=(k, n)]> live) → block_ok (<[q:=(k, n)]> live) q b' →
  next b' = next b → ref b' = ref b → inv (upd (set_pmem s m) q b') (<[q:=(k, n)]> live) own.
Proof.
  intros Hi Hb Hm Hok Hn Href.
  destruct (inv_next_chain _ _ _ _ _ Hi Hb) as (l & Hc & Hnin). rewrite <- Hn in Hc.
  assert (q ≠ NULL) as Hq by (pose proof (inv_pos _ _ _ _ _ Hi Hb); unfold NULL; lia).
  split; cbn [upd set_pmem set_pbufs pmem pbufs data].
  - done.
  - intros p c [[<- <-]|[Hne Hp]]%lookup_insert_Some; [done|].
    destruct (i_block _ _ _ Hi _ _ Hp) as [? ? ? ? ?]. split; try done. by rewrite lookup_insert_ne.
  - intros p c Hp. assert (is_Some (pbufs s !! p)) as [c0 Hp0].
    { apply lookup_insert_Some in Hp as [[<- _]|[_ ?]]; eauto. }
    destruct (i_chain _ _ _ Hi _ _ Hp0) as [lp Hlp]. by apply (chained_relink _ _ _ l Hq Hc Hnin _ _ Hlp).
  - intros p c Hp. rewrite (indeg_insert_same _ _ b) by done.
    apply lookup_insert_Some in Hp as [[<- <-]|[_ Hp]]; [rewrite Href|]; by apply (i_ref _ _ _ Hi).
  - intros p. destruct (i_own _ _ _ Hi p) as [H1 H2]. split; [done|]. intros Hp.
    apply lookup_insert_is_Some'. right. auto.
  - intros p kn Hp. apply lookup_insert_is_Some'. destruct (decide (q = p)) as [|Hne]; [by left|].
    right. rewrite lookup_insert_ne in Hp by done. by eapply (i_live _ _ _ Hi).
  - apply (i_data _ _ _ Hi).
Qed.

(** The structs of [B'] are structs of [B], with at most as many references. *)
Definition sub_ref (B B' : gmap Z pbuf) : Prop :=
  ∀ x b', B' !! x = Some b' → ∃ b, B !! x = Some b ∧ b' = set_ref b (ref b') ∧ ref b' ≤ ref b.

Lemma sub_ref_refl B : sub_ref B B.
Proof. intros x b Hb. exists b. split_and!; [done|by destruct b|done]. Qed.

Lemma sub_ref_trans B1 B2 B3 : sub_ref B1 B2 → sub_ref B2 B3 → sub_ref B1 B3.
Proof.
  intros H1 H2 x b3 H3. destruct (H2 _ _ H3) as (b2 & Hb2 & E2 & R2). destruct (H1 _ _ Hb2) as (b1 & Hb1 & E1 & R1).
  exists b1. split_and!; [done| |lia]. rewrite E2, E1. done.
Qed.

Lemma afree_sub l : ∀ B live n B' live', (∀ q b, (q, b) ∈ l → B !! q = Some b) → NoDup l.*1 →
  afree l B live = (n, B', live') → sub_ref B B' ∧ live' ⊆ live.
Proof.
  induction l as [|[q b] l IH]; cbn; intros B live n B' live' Hin Hnd Ha.
  - injection Ha as <- <- <-. split; [apply sub_ref_refl|done].
  - apply NoDup_cons in Hnd as [Hnin Hnd]. destruct (ref b =? 1).
    + destruct (afree l (delete q B) (delete q live)) as [[n0 B0] live0] eqn:Ea. injection Ha as <- <- <-.
      assert (∀ q' b', (q', b') ∈ l → delete q B !! q' = Some b') as Hin'.
      { intros q' b' Hq'. rewrite lookup_delete_ne; [apply Hin; by right|]. intros ->.
        apply Hnin. by apply (list_elem_of_fmap_2 fst) in Hq'. }
      destruct (IH _ _ _ _ _ Hin' Hnd Ea) as [H1 H2]. split.
      * intros x b' Hx. destruct (H1 _ _ Hx) as (b0 & Hb0 & Hr). apply lookup_delete_Some in Hb0 as [_ ?]. eauto.
      * etrans; [exact H2|]. apply delete_subseteq.
    + injection Ha as <- <- <-. split; [|done]. intros x b' [[<- <-]|[Hne Hx]]%lookup_insert_Some.
      * exists b. split_and!; [apply Hin; by left|done|cbn; lia].
      * by apply sub_ref_refl.
Qed.

(** The structs of [B'] are structs of [B] with at most as much of the same payload. *)
Definition shorter (B B' : gmap Z pbuf) : Prop := ∀ x b', B' !! x = Some b' →
  ∃ b, B !! x = Some b ∧ payload b' = payload b ∧ type_internal b' = type_internal b ∧ len b' ≤ len b.

Lemma shorter_refl B : shorter B B.
Proof. intros x b Hb. by exists b. Qed.

Lemma shorter_trans B1 B2 B3 : shorter B1 B2 → shorter B2 B3 → shorter B1 B3.
Proof.
  intros H1 H2 x b3 H3. destruct (H2 _ _ H3) as (b2 & Hb2 & ? & ? & ?). destruct (H1 _ _ Hb2) as (b1 & Hb1 & ? & ? & ?).
  exists b1. split_and!; [done|congruence|congruence|lia].
Qed.

Lemma sub_ref_shorter B B' : sub_ref B B' → shorter B B'.
Proof. intros Hs x b' Hb'. destruct (Hs _ _ Hb') as (b & Hb & E & _). exists b. rewrite E. done. Qed.

Lemma shorter_insert B q b b' : B !! q = Some b → payload b' = payload b → type_internal b' = type_internal b →
  len b' ≤ len b → shorter B (<[q:=b']> B).
Proof. intros Hb H1 H2 H3 x c [[<- <-]|[_ Hx]]%lookup_insert_Some; [by exists b|by exists c]. Qed.

Lemma realloc_trim_spec s live own q b r : inv s live own → pbufs s !! q = Some b → 0 ≤ r ≤ len b →
  ∃ m live' log, realloc_trim s q r b = Ret (set_pmem s m) log ∧
    inv (upd (set_pmem s m) q (set_tot_len (set_len b r) r)) live' own ∧
    (type_src (type_internal b) ≠ Some SrcHeap → log = []).
Proof.
  intros Hi Hb Hr. pose proof (i_block _ _ _ Hi _ _ Hb) as [Hlen Htot Href Hcu Hl].
  unfold is_u16 in Hlen. destruct Hl as (k & n & Hl & Ht & Hk & Hreg).
  unfold realloc_trim, pbuf_match_allocsrc, pbuf_get_allocsrc. rewrite Hcu. cbn [negb].
  change (Z.land PBUF_TYPE_ALLOC_SRC_MASK_STD_HEAP PBUF_TYPE_ALLOC_SRC_MASK) with 0.
  destruct (_ && _ && true) eqn:E.
  - apply andb_prop in E as [E _]. apply andb_prop in E as [E1%Z.eqb_eq E2].
    assert (k = SrcHeap) as -> by (unfold type_src in Ht; rewrite E1 in Ht; by injection Ht).
    assert (contiguous b) as Hcon by (by apply Hk). destruct (Hreg Hcon) as [Hp1 Hp2].
    pose proof (pa_size _ _ _ _ _ (i_alloc _ _ _ Hi) Hl) as Hn.
    assert (is_u16 (payload b - q + r)) as Hu by (unfold is_u16, SIZEOF_STRUCT_PBUF in *; lia).
    destruct (pa_trim_ok _ _ q n (payload b - q + r) (i_alloc _ _ _ Hi) Hl Hu) as
      (m & n' & log & Htr & Hn' & Hm); [lia|].
    exists m, (<[q:=(SrcHeap, n')]> live), (log ++ []). split_and!; [| |done].
    + rewrite u16_id, Htr by done.
      pose proof (inv_pos _ _ _ _ _ Hi Hb). unfold mbind, out_bind at 1.
      rewrite (proj2 (Z.eqb_neq q NULL)) by (unfold NULL; lia). rewrite Z.eqb_refl. done.
    + apply (inv_resize s live own q b); try done. split; cbn; try done; [unfold is_u16; lia..|].
      exists SrcHeap, n'. rewrite lookup_insert_eq. split_and!; [done..|]. intros _. cbn. lia.
  - exists (pmem s), live, []. replace (set_pmem s (pmem s)) with s by (by destruct s).
    split_and!; [done| |done]. apply (inv_upd s live own q b); try done.
    + split; cbn; try done; [unfold is_u16; lia..|]. exists k, n. split_and!; [done..|].
      intros Hcon. apply Hreg in Hcon. cbn. lia.
    + intros x. by destruct (i_own _ _ _ Hi x).
    + intros x. cbn. case_decide; lia.
Qed.
(** The structs of the chain after [pbuf_realloc] has cut it inside [bq]. *)
Definition realloc_list (shrink : Z) (l0 : list (Z * pbuf)) (q : Z) (bq : pbuf) (r : Z)
  : list (Z * pbuf) :=
  (bump (- shrink) <$> l0) ++ [(q, set_pnext (set_tot_len (set_len bq r) r) NULL)].

Lemma bind_ret_log {A B} (a : A) log (f : A → out B) b l' :
  f a = Ret b l' → (Ret a log ≫= f) = Ret b (log ++ l').
Proof. intros H. unfold mbind, out_bind. by rewrite H. Qed.

(** The end of [pbuf_realloc], once the last struct has its new length. *)
Lemma realloc_finish s live own q b l2 : inv s live own → pbufs s !! q = Some b →
  chained (pbufs s) (next b) l2 →
  ∃ m' B' live', let s' := Pst m' B' (data s) (pbuf_free_ooseq_pending s) in
    (s1 ← (if negb (next b =? NULL) then '(_, s) ← pbuf_free cff s (next b); mret s else mret s);
     b ← get s1 q; mret (upd s1 q (set_pnext b NULL))) = Clean s' ∧
    inv s' live' own ∧ B' !! q = Some (set_pnext b NULL) ∧
    (∀ x, x ∉ l2.*1 → x ≠ q → B' !! x = pbufs s !! x) ∧ shorter (pbufs s) B'.
Proof.
  intros Hi Hb Hc. destruct (decide (next b = NULL)) as [Hn|Hn].
  - rewrite (proj2 (Z.eqb_eq _ _) Hn). cbn [negb]. out_simp. unfold get. rewrite Hb. out_simp.
    assert (set_pnext b NULL = b) as Hbb by (destruct b; cbn in *; by rewrite Hn).
    exists (pmem s), (pbufs s), live. rewrite Hbb. unfold upd, set_pbufs. rewrite insert_id by done.
    destruct s. split_and!; try done. apply shorter_refl.
  - rewrite (proj2 (Z.eqb_neq _ _) Hn). cbn [negb].
    pose proof (i_block _ _ _ Hi _ _ Hb) as Hok.
    destruct (cut_tail s live own q b (set_pnext b NULL) l2 Hi Hb Hn Hc) as
      (n & B' & live' & m' & Ha & _ & Hf & Hi' & Hq); [done|done|by destruct Hok|].
    rewrite Hf. out_simp. unfold get. cbn [upd set_pbufs pbufs]. rewrite lookup_insert_eq. out_simp.
    exists m', B', live'. split_and!; [|done..| |].
    + unfold upd, set_pbufs. cbn. by rewrite insert_insert_eq, insert_id.
    + intros x Hx Hne. destruct (afree_frame _ _ _ _ _ _ x Ha Hx) as [-> _].
      by rewrite lookup_insert_ne.
    + assert (q ∉ l2.*1) as Hqn.
      { apply (chained_next_notin _ _ _ _ Hb); [|done]. pose proof (inv_pos _ _ _ _ _ Hi Hb). unfold NULL. lia. }
      destruct (afree_sub l2 _ _ _ _ _ (λ x c Hin, proj2 (chained_elem _ _ _ _ _ (chained_insert _ _ _ _ _ Hqn Hc) Hin))
        (chained_NoDup _ _ _ Hc) Ha) as [Hsub _].
      eapply shorter_trans; [|by apply sub_ref_shorter]. by apply (shorter_insert _ _ b).
Qed.

Lemma chained_realloc B B' p l0 q bq l2 shrink r : chained B p (l0 ++ (q, bq) :: l2) →
  B' !! q = Some (set_pnext (set_tot_len (set_len bq r) r) NULL) →
  (∀ x, x ∉ l2.*1 → x ≠ q → B' !! x = ins (bump (- shrink) <$> l0) B !! x) →
  chained B' p (realloc_list shrink l0 q bq r).
Proof.
  intros Hc Hq Hrest. pose proof (chained_NoDup _ _ _ Hc) as Hnd.
  apply chained_split in Hc as (t & Hl & Hin & Hc). apply chained_inv_cons in Hc as (<- & Hq0 & _).
  rewrite fmap_app in Hnd. cbn [fmap list_fmap fst] in Hnd. apply NoDup_app in Hnd as (Hnd0 & Hdisj & _).
  unfold realloc_list. rewrite <- (app_nil_r (_ ++ [_])). apply chained_split. exists NULL.
  split_and!; [apply linked_snoc; by rewrite linked_bump| |constructor].
  intros x b [Hx|Hx]%elem_of_app.
  - assert (x ∈ l0.*1) as Hx0.
    { apply (list_elem_of_fmap_2 fst) in Hx. by rewrite bump_fst in Hx. }
    pose proof (Hdisj x Hx0) as [Hxq Hx2]%not_elem_of_cons. rewrite Hrest by done.
    apply ins_in; [by rewrite bump_fst|done].
  - apply list_elem_of_singleton in Hx as [= -> ->]. done.
Qed.

Lemma packet_realloc l0 q bq l2 r : packet (l0 ++ (q, bq) :: l2) → 0 ≤ r ≤ len bq →
  Forall (λ kv, 0 ≤ len kv.2) (l0 ++ (q, bq) :: l2) → lens (l0 ++ (q, bq) :: l2) < 65536 →
  packet (realloc_list (len bq - r + lens l2) l0 q bq r).
Proof.
  intros Hp Hr Hpos Hlt. unfold realloc_list. induction l0 as [|[x b] l0 IH]; cbn in *.
  - split; [lia|done].
  - destruct Hp as [Htot Hp]. apply Forall_cons in Hpos as [Hx Hpos]. cbn in Hx.
    pose proof (lens_nonneg _ Hpos) as Hn. pose proof Hpos as Hpos'.
    apply Forall_app in Hpos' as [Hpos0 Hpos2]. pose proof (lens_nonneg _ Hpos0).
    apply Forall_cons in Hpos2 as [_ Hpos2]. pose proof (lens_nonneg _ Hpos2).
    rewrite lens_app in Htot, Hlt. cbn in Htot, Hlt. split.
    + rewrite lens_app. cbn.
      replace (lens (bump _ <$> l0)) with (lens l0); [rewrite u16_id by (unfold is_u16; lia); lia|].
      apply lens_view. unfold view. by rewrite <- list_fmap_compose.
    + apply IH; [done|done|]. rewrite lens_app. cbn. lia.
Qed.

Lemma shorter_bump (B : gmap Z pbuf) p l0 l2 k : chained B p (l0 ++ l2) → shorter B (ins (bump k <$> l0) B).
Proof.
  intros Hc x b' Hb'. destruct (decide (x ∈ l0.*1)) as [Hin|Hnin].
  - pose proof (chained_NoDup _ _ _ Hc) as Hnd. rewrite fmap_app in Hnd. apply NoDup_app in Hnd as (Hnd & _ & _).
    apply list_elem_of_fmap in Hin as ([y b] & -> & Hin). cbn in Hb'.
    assert (ins (bump k <$> l0) B !! y = Some (bump k (y, b)).2) as E.
    { apply ins_in; [by rewrite bump_fst|]. change (y, (bump k (y, b)).2) with (bump k (y, b)).
      by apply list_elem_of_fmap_2. }
    rewrite E in Hb'. injection Hb' as <-. exists b. split; [|done].
    apply (chained_elem _ _ _ _ _ Hc). apply elem_of_app. by left.
  - rewrite ins_notin in Hb' by (by rewrite bump_fst). by apply shorter_refl.
Qed.

Lemma pbuf_realloc_run s live own p l n : inv s live own → p ≠ NULL → chained (pbufs s) p l →
  packet l → lens l < 65536 → 0 ≤ n < lens l →
  ∃ l0 q bq l2 r s' live' log, l = l0 ++ (q, bq) :: l2 ∧ n = r + lens l0 ∧ 0 ≤ r ≤ len bq ∧
    pbuf_realloc cff s p n = Ret s' log ∧ inv s' live' own ∧ data s' = data s ∧
    chained (pbufs s') p (realloc_list (lens l - n) l0 q bq r) ∧
    packet (realloc_list (lens l - n) l0 q bq r) ∧ (l0 ≠ [] → 0 < r) ∧
    (type_src (type_internal bq) ≠ Some SrcHeap → log = []) ∧ shorter (pbufs s) (pbufs s').
Proof.
  intros Hi Hp Hc Hpk Hlt Hn. pose proof (inv_lens_pos _ _ _ _ _ Hi Hc) as Hpos.
  destruct (split_at l n Hpos Hn) as (l0 & q & bq & l2 & r & Hl & Hnr & Hr & Hr0).
  destruct (chained_nonnull _ _ _ Hp Hc) as (b & l' & Hl' & Hb & _).
  assert (tot_len b = lens l) as Htot by (rewrite Hl' in Hpk |- *; by destruct Hpk).
  rewrite Hl in Hc. destruct (realloc_skip_spec l0 (chain_fuel s) s live own p q bq l2 r
    (lens l - n) Hi Hc Hr Hr0) as [Hsk Hi1].
  { lia. }
  { pose proof (chained_length _ _ _ Hc) as Hle. rewrite length_app in Hle. unfold chain_fuel. lia. }
  set (s1 := set_pbufs s _) in *.
  assert (pbufs s1 !! q = Some bq ∧ chained (pbufs s1) (next bq) l2) as [Hq1 Hc1].
  { pose proof (chained_NoDup _ _ _ Hc) as Hnd. rewrite fmap_app in Hnd. cbn [fmap list_fmap fst] in Hnd.
    apply NoDup_app in Hnd as (_ & Hdisj & _).
    assert (chained (pbufs s1) q ((q, bq) :: l2)) as H.
    - apply (chained_frame (pbufs s)); [by eapply chained_suffix|]. intros x c Hin. cbn.
      rewrite ins_notin; [apply (chained_elem _ _ _ _ _ Hc); apply elem_of_app; by right|].
      rewrite bump_fst. intros Hx. apply (Hdisj x Hx).
      by apply (list_elem_of_fmap_2 fst) in Hin.
    - by apply chained_inv_cons in H as (_ & _ & ? & ?). }
  destruct (realloc_trim_spec s1 live own q bq r Hi1 Hq1 Hr) as (m & live1 & log & Htr & Hi2 & Hlog).
  set (b1 := set_tot_len (set_len bq r) r) in *.
  assert (q ∉ l2.*1) as Hqn.
  { apply (chained_next_notin _ _ _ _ Hq1); [|done]. pose proof (inv_pos _ _ _ _ _ Hi1 Hq1).
    unfold NULL. lia. }
  destruct (realloc_finish (upd (set_pmem s1 m) q b1) live1 own q b1 l2 Hi2) as
    (m' & B' & live' & Hfin & Hi3 & Hq3 & Hrest & Hsh);
    [apply lookup_insert_eq|by apply chained_insert|].
  eexists l0, q, bq, l2, r, _, live', (log ++ []). split_and!; [done|done|lia|lia| |exact Hi3|done| | |done| |].
  - unfold pbuf_realloc, get. rewrite (proj2 (Z.eqb_neq _ _) Hp). out_simp. rewrite Hb. out_simp.
    rewrite (proj2 (Z.leb_gt (tot_len b) n)) by lia. rewrite Htot, u16_id by (unfold is_u16; lia).
    rewrite Hnr at 1. rewrite Hsk. out_simp. rewrite Hq1. out_simp. rewrite Htr.
    apply bind_ret_log. exact Hfin.
  - apply (chained_realloc _ _ _ _ _ _ _ _ _ Hc Hq3). intros x Hx Hne.
    rewrite (Hrest x Hx Hne). cbn. by rewrite lookup_insert_ne.
  - rewrite Hl in Hpk, Hpos, Hlt. pose proof (packet_realloc _ _ _ _ _ Hpk Hr Hpos Hlt) as H.
    replace (lens l - n) with (len bq - r + lens l2); [done|].
    rewrite Hl, lens_app. cbn. lia.
  - intros Hnh. by rewrite (Hlog Hnh).
  - eapply shorter_trans; [|eapply shorter_trans; [|exact Hsh]].
    + apply shorter_bump with p ((q, bq) :: l2). done.
    + cbn. by apply (shorter_insert _ _ bq); try done; cbn; lia.
Qed.
(** ** Headers *)

(** The condition under which a header of [n] bytes can be added. *)
Definition add_header_fits (p : Z) (b : pbuf) (n : Z) (force : bool) : Prop :=
  n ≤ 0xFFFF ∧ n + tot_len b < 65536 ∧
  (contiguous b → p + SIZEOF_STRUCT_PBUF ≤ payload b - n) ∧ (¬ contiguous b → force = true).

Definition grow (b : pbuf) (n : Z) : pbuf :=
  set_tot_len (set_len (set_payload b (payload b - n)) (u16 (len b + n))) (u16 (tot_len b + n)).

Lemma add_header_run s live own p b n force : inv s live own → pbufs s !! p = Some b → 0 < n →
  (add_header_fits p b n force → pbuf_add_header_impl s p n force = Clean (0, upd s p (grow b n)) ∧
     inv (upd s p (grow b n)) live own) ∧
  (¬ add_header_fits p b n force → pbuf_add_header_impl s p n force = Clean (1, s)).
Proof. clear cff.
  intros Hi Hb Hn. pose proof (inv_pos _ _ _ _ _ Hi Hb) as Hp.
  destruct (i_block _ _ _ Hi _ _ Hb) as [Hlen Htot Href Hcu (k & sz & Hl & Ht & Hk & Hreg)].
  unfold add_header_fits, pbuf_add_header_impl, get, contiguous in *.
  rewrite (proj2 (Z.eqb_neq p NULL)) by (unfold NULL; lia). cbn [negb orb]. out_simp.
  destruct (Z.ltb_spec 0xFFFF n) as [Hbig|Hsmall]; [split; [lia|done]|].
  rewrite (proj2 (Z.eqb_neq n 0)), Hb by lia. out_simp. unfold is_u16 in *.
  rewrite (u16_id n) by (unfold is_u16; lia).
  destruct (decide (n + tot_len b < 65536)) as [Hfit|Hwrap].
  2:{ rewrite (proj2 (Z.ltb_lt (u16 (n + tot_len b)) n)) by width. split; [lia|done]. }
  rewrite (proj2 (Z.ltb_ge (u16 (n + tot_len b)) n)) by width.
  set (c := Z.land (type_internal b) PBUF_TYPE_FLAG_STRUCT_DATA_CONTIGUOUS) in *.
  assert (∀ Q : Prop, (c ≠ 0 → p + SIZEOF_STRUCT_PBUF ≤ payload b - n) →
    inv (upd s p (grow b n)) live own) as Hinv.
  { intros _ Hin. apply (inv_upd s live own p b); try done.
    - split; cbn; try done; [apply u16_range..|]. exists k, sz. split_and!; [done..|].
      intros Hc. specialize (Hreg Hc). specialize (Hin Hc). cbn. width.
    - intros x. by destruct (i_own _ _ _ Hi x).
    - intros x. cbn. case_decide; lia. }
  destruct (Z.eqb_spec c 0) as [Hc|Hc]; cbn [negb].
  - destruct force; cbn [negb].
    + split; [intros _; split; [done|by apply (Hinv True)]|].
      intros Hno. exfalso. apply Hno. split_and!; done || lia.
    + split; [|done]. intros (_ & _ & _ & H). by specialize (H ltac:(lia)).
  - destruct (Z.ltb_spec (payload b - n) (p + SIZEOF_STRUCT_PBUF)) as [Hlt|Hge].
    + split; [|done]. intros (_ & _ & H & _). specialize (H Hc). lia.
    + split; [intros _; split; [done|by apply (Hinv True)]|].
      intros Hno. exfalso. apply Hno. split_and!; done || lia.
Qed.

Definition shrink_front (b : pbuf) (n : Z) : pbuf :=
  set_tot_len (set_len (set_payload b (payload b + n)) (u16 (len b - n))) (u16 (tot_len b - n)).

Lemma remove_header_run s live own p b n : inv s live own → pbufs s !! p = Some b → 0 < n →
  (n ≤ len b → pbuf_remove_header s p n = Clean (0, upd s p (shrink_front b n)) ∧
     inv (upd s p (shrink_front b n)) live own) ∧
  (len b < n → pbuf_remove_header s p n = Clean (1, s)).
Proof. clear cff.
  intros Hi Hb Hn. pose proof (inv_pos _ _ _ _ _ Hi Hb) as Hp.
  destruct (i_block _ _ _ Hi _ _ Hb) as [Hlen Htot Href Hcu (k & sz & Hl & Ht & Hk & Hreg)].
  unfold pbuf_remove_header, get. rewrite (proj2 (Z.eqb_neq p NULL)) by (unfold NULL; lia).
  cbn [negb orb]. out_simp. unfold is_u16 in *.
  destruct (Z.ltb_spec 0xFFFF n) as [Hbig|Hsmall]; [split; [lia|done]|].
  rewrite (proj2 (Z.eqb_neq n 0)), Hb by lia. out_simp. rewrite (u16_id n) by (unfold is_u16; lia).
  destruct (Z.leb_spec n (len b)) as [Hle|Hgt]; cbn [negb]; (split; [|lia || done]); [|lia].
  intros _. split; [done|]. apply (inv_upd s live own p b); try done.
  - split; cbn; try done; [apply u16_range..|]. exists k, sz. split_and!; [done..|].
    intros Hc. specialize (Hreg Hc). cbn. width.
  - intros x. by destruct (i_own _ _ _ Hi x).
  - intros x. cbn. case_decide; lia.
Qed.
(** ** Allocation *)

Lemma inv_fresh s live own q : inv s live own → live !! q = None → q ≠ NULL →
  pbufs s !! q = None ∧ indeg (pbufs s) q = 0 ∧ own q = 0.
Proof.
  intros Hi Hq Hq0. assert (pbufs s !! q = None) as Hn.
  { destruct (pbufs s !! q) as [b|] eqn:Hb; [|done].
    destruct (bo_live _ _ _ (i_block _ _ _ Hi _ _ Hb)) as (k & n & Hl & _). congruence. }
  split_and!; [done| |].
  - pose proof (indeg_nonneg (pbufs s) q). destruct (decide (0 < indeg (pbufs s) q)) as [H0|]; [|lia].
    apply indeg_pos in H0 as (x & c & Hx & Hc).
    destruct (inv_next_chain _ _ _ _ _ Hi Hx) as (l & Hl & _). rewrite Hc in Hl.
    destruct (chained_nonnull _ _ _ Hq0 Hl) as (? & ? & _ & ? & _). congruence.
  - destruct (i_own _ _ _ Hi q) as [H1 H2]. destruct (decide (0 < own q)) as [H0|]; [|lia].
    destruct (H2 H0). congruence.
Qed.
(** A new struct, referenced by the client that asked for it. *)
Lemma inv_insert s live own q b m k n : inv s live own → live !! q = None →
  pa_ok m (<[q:=(k, n)]> live) → block_ok (<[q:=(k, n)]> live) q b → next b = NULL → ref b = 1 →
  inv (upd (set_pmem s m) q b) (<[q:=(k, n)]> live) (add_own own q 1).
Proof.
  intros Hi Hq Hm Hok Hn Href.
  assert (0 < q) as Hpos by (apply (pa_region _ _ q k n Hm), lookup_insert_eq).
  assert (q ≠ NULL) as Hq0 by (unfold NULL; lia).
  destruct (inv_fresh _ _ _ _ Hi Hq Hq0) as (Hnone & Hind & Hown).
  split; cbn [upd set_pmem set_pbufs pmem pbufs data].
  - done.
  - intros p c [[<- <-]|[Hne Hp]]%lookup_insert_Some; [done|].
    destruct (i_block _ _ _ Hi _ _ Hp) as [? ? ? ? ?]. split; try done. by rewrite lookup_insert_ne.
  - intros p c [[<- <-]|[Hne Hp]]%lookup_insert_Some.
    + exists [(q, b)]. constructor; [done|apply lookup_insert_eq|]. rewrite Hn. constructor.
    + destruct (i_chain _ _ _ Hi _ _ Hp) as [l Hl]. exists l. apply chained_insert; [|done].
      intros ([x c'] & -> & Hin)%list_elem_of_fmap. cbn in *.
      destruct (chained_elem _ _ _ _ _ Hl Hin). congruence.
  - intros p c Hp. rewrite indeg_insert_new, Hn by done. unfold add_own.
    apply lookup_insert_Some in Hp as [[<- <-]|[Hne Hp]].
    + rewrite decide_True, decide_False by congruence. lia.
    + pose proof (inv_pos _ _ _ _ _ Hi Hp).
      rewrite !decide_False by (unfold NULL; congruence || lia). pose proof (i_ref _ _ _ Hi _ _ Hp). lia.
  - intros p. unfold add_own. destruct (i_own _ _ _ Hi p) as [H1 H2]. case_decide as Hpq.
    + rewrite Hpq, lookup_insert_eq in *. split; [lia|eauto].
    + rewrite lookup_insert_ne by done. auto.
  - intros p kn Hp. apply lookup_insert_is_Some'. destruct (decide (q = p)) as [|Hne]; [by left|].
    right. rewrite lookup_insert_ne in Hp by done. by eapply (i_live _ _ _ Hi).
  - apply (i_data _ _ _ Hi).
Qed.

(** [tot_len] with [R] bytes still to come. *)
Fixpoint packetr (l : list (Z * pbuf)) (R : Z) : Prop :=
  match l with [] => True | (_, b) :: l' => tot_len b = len b + lens l' + R ∧ packetr l' R end.

Lemma packetr_0 l : packetr l 0 → packet l.
Proof. induction l as [|[p b] l IH]; [done|]. cbn. intros [H1 H2]. split; [lia|auto]. Qed.

Lemma packetr_snoc l R p b : packetr l R → tot_len b = R → packetr (l ++ [(p, b)]) (R - len b).
Proof.
  intros H HR. induction l as [|[q c] l IH]; cbn in *; [split; [lia|done]|].
  destruct H as [H1 H2]. rewrite lens_app. cbn. split; [lia|auto].
Qed.

(** Everything allocated is released again. *)
Lemma afree_ins l : ∀ lv B live, Forall (λ kv, ref kv.2 = 1) l → NoDup (l.*1) → lv.*1 = l.*1 →
  (∀ x, x ∈ l.*1 → B !! x = None ∧ live !! x = None) →
  afree l (ins l B) (ins lv live) = (Z.of_nat (length l), B, live).
Proof.
  induction l as [|[p b] l IH]; intros [|[p' v] lv] B live Href Hnd Hlv Hfr; try done.
  cbn [fmap list_fmap fst] in *. apply Forall_cons in Href as [Hb Href]. cbn in Hb.
  apply NoDup_cons in Hnd as [Hnin Hnd]. injection Hlv as -> Hlv.
  cbn [afree]. rewrite Hb. cbn [Z.eqb Pos.eqb].
  destruct (Hfr p) as [H1 H2]; [by left|].
  rewrite !ins_cons, !ins_comm, !delete_insert_id; [|by rewrite ?ins_notin; rewrite ?Hlv..|by rewrite Hlv|done].
  rewrite IH; [|done..|].
  - f_equal. f_equal. cbn [length]. lia.
  - intros x Hx. apply Hfr. by right.
Qed.
(** The structs [l] (with their blocks [lv]) allocated so far for one request, beside the
    structs [B0] and blocks [live0] that were there before. *)
Record fresh_chain (s : pst) (B0 : gmap Z pbuf) (live0 : gmap Z (asrc * Z)) (own : Z → Z)
    (p : Z) (l : list (Z * pbuf)) (lv : list (Z * (asrc * Z))) : Prop := FreshChain {
  fc_inv : inv s (ins lv live0) (if decide (l = []) then own else add_own own p 1);
  fc_pbufs : pbufs s = ins l B0;
  fc_chain : chained (pbufs s) p l;
  fc_lv : lv.*1 = l.*1;
  fc_own x : 0 ≤ own x;
  fc_fresh x : x ∈ l.*1 → B0 !! x = None ∧ live0 !! x = None;
  fc_new : Forall (λ kv, ref kv.2 = 1 ∧ flags kv.2 = 0 ∧ if_idx kv.2 = NETIF_NO_INDEX) l }.

Lemma fresh_chain_inv s B0 live0 own p l lv : fresh_chain s B0 live0 own p l lv → p ≠ NULL →
  inv s (ins lv live0) (add_own own p 1).
Proof.
  intros [Hi _ Hc _ _ _ _] Hp. destruct (chained_nonnull _ _ _ Hp Hc) as (b & l' & -> & _). exact Hi.
Qed.

Lemma fresh_chain_free s B0 live0 own p l lv : fresh_chain s B0 live0 own p l lv → p ≠ NULL →
  ∃ n m, pbuf_free cff s p = Clean (n, Pst m B0 (data s) (pbuf_free_ooseq_pending s)) ∧
    inv (Pst m B0 (data s) (pbuf_free_ooseq_pending s)) live0 own.
Proof.
  intros [Hi HB Hc Hlv Ho Hfr Hnew] Hp.
  destruct (chained_nonnull _ _ _ Hp Hc) as (b & l' & Hl & _). rewrite decide_False in Hi by (by rewrite Hl).
  destruct (pbuf_free_run s _ _ p l Hi) as (n & B' & live' & m & Ha & Hf & Hi'); [|done|].
  { unfold add_own. rewrite decide_True by done. specialize (Ho p). lia. }
  rewrite HB, afree_ins in Ha; [|by eapply Forall_impl; [exact Hnew|]; intros ? (? & _)|by eapply chained_NoDup|done|done].
  injection Ha as <- <- <-. eexists _, m. split; [done|].
  apply (inv_own_ext _ _ _ _ Hi'). intros x. unfold add_own. case_decide; lia.
Qed.

(** The first struct of a request. *)
Lemma fresh_chain_first s live own q b m k n : inv s live own → live !! q = None →
  pa_ok m (<[q:=(k, n)]> live) → block_ok (<[q:=(k, n)]> live) q b → next b = NULL → ref b = 1 →
  flags b = 0 → if_idx b = NETIF_NO_INDEX →
  fresh_chain (upd (set_pmem s m) q b) (pbufs s) live own q [(q, b)] [(q, (k, n))].
Proof.
  intros Hi Hq Hm Hok Hn Href Hfl Hidx.
  assert (0 < q) as Hpos by (apply (pa_region _ _ q k n Hm), lookup_insert_eq).
  assert (q ≠ NULL) as Hq0 by (unfold NULL; lia).
  split; try done.
  - by apply inv_insert.
  - cbn. constructor; [done|apply lookup_insert_eq|]. rewrite Hn. constructor.
  - intros x. apply (i_own _ _ _ Hi).
  - intros x ->%list_elem_of_singleton. split; [|done]. by apply (inv_fresh _ _ _ _ Hi).
  - by apply Forall_singleton.
Qed.

(** One more struct, linked to the end. *)
Lemma fresh_chain_link s B0 live0 own p l0 x bx lv q b m k n :
  fresh_chain s B0 live0 own p (l0 ++ [(x, bx)]) lv → ins lv live0 !! q = None →
  pa_ok m (<[q:=(k, n)]> (ins lv live0)) → block_ok (<[q:=(k, n)]> (ins lv live0)) q b →
  next b = NULL → ref b = 1 → flags b = 0 → if_idx b = NETIF_NO_INDEX →
  pbufs (upd (set_pmem s m) q b) !! x = Some bx ∧
  fresh_chain (upd (upd (set_pmem s m) q b) x (set_pnext bx q)) B0 live0 own p
    ((l0 ++ [(x, set_pnext bx q)]) ++ [(q, b)]) (lv ++ [(q, (k, n))]).
Proof.
  intros [Hi HB Hc Hlv Ho Hfr Hnew] Hq Hm Hok Hn Href Hfl Hidx.
  rewrite decide_False in Hi by (by destruct l0).
  assert (0 < q) as Hpos by (apply (pa_region _ _ q k n Hm), lookup_insert_eq).
  assert (q ≠ NULL) as Hq0 by (unfold NULL; lia).
  destruct (inv_fresh _ _ _ _ Hi Hq Hq0) as (Hqn & _ & Hown).
  pose proof (chained_NoDup _ _ _ Hc) as Hnd.
  assert ((x, bx) ∈ l0 ++ [(x, bx)]) as Hxin by (apply elem_of_app; right; by left).
  destruct (chained_elem _ _ _ _ _ Hc Hxin) as [Hx0 Hx].
  assert (x ≠ q) as Hxq by congruence.
  apply chained_split in Hc as (t & Hl0 & Hin0 & Hcx).
  apply chained_inv_cons in Hcx as (<- & _ & _ & Hnx). inversion Hnx as [Hnx0|]. clear Hnx.
  set (s1 := upd (set_pmem s m) q b). pose proof (inv_insert _ _ _ _ _ _ _ _ Hi Hq Hm Hok Hn Href) as Hi1.
  fold s1 in Hi1.
  assert (pbufs s1 !! x = Some bx) as Hx1 by (cbn; by rewrite lookup_insert_ne).
  assert (q ∉ (l0 ++ [(x, bx)]).*1) as Hqnin.
  { intros ([y c] & Hy & Hin)%list_elem_of_fmap. cbn in Hy. subst y.
    assert (pbufs s !! q = Some c); [|congruence]. apply elem_of_app in Hin as [Hin|Hin]; [auto|].
    apply list_elem_of_singleton in Hin as [= -> ->]. done. }
  split; [done|]. split.
  - rewrite decide_False by (by destruct l0). rewrite ins_app. cbn [ins foldl fst snd].
    apply (inv_relink s1 _ (add_own (add_own own p 1) q 1) x bx _ [(q, b)]); try done.
    + constructor; [done|apply lookup_insert_eq|]. rewrite Hn. constructor.
    + apply not_elem_of_cons. split; [done|]. by apply not_elem_of_nil.
    + destruct (i_block _ _ _ Hi1 _ _ Hx1) as [? ? ? ? ?]. by split.
    + intros y. unfold add_own. pose proof (Ho y). case_decide; lia.
    + exact (inv_own_null _ _ _ Hi).
    + intros y Hy. cbn [next ref set_pnext]. rewrite <- Hnx0. unfold add_own.
      rewrite (decide_False (P := NULL = y)) by congruence. repeat case_decide; subst; congruence || lia.
  - cbn [upd set_pbufs pbufs set_pmem s1]. rewrite HB, !ins_app. cbn.
    by rewrite (insert_insert_ne _ x q), insert_insert_eq, insert_insert_ne by congruence.
  - apply chained_split. exists q. split_and!.
    + by apply linked_snoc.
    + intros y c Hy. cbn [upd set_pbufs pbufs set_pmem s1]. apply elem_of_app in Hy as [Hy|Hy].
      * rewrite !lookup_insert_ne; [auto|..].
        -- intros <-. apply Hqnin. rewrite fmap_app. apply elem_of_app. left. by apply (list_elem_of_fmap_2 fst) in Hy.
        -- intros <-. rewrite fmap_app in Hnd. apply NoDup_app in Hnd as (_ & Hd & _).
           apply (Hd x); [by apply (list_elem_of_fmap_2 fst) in Hy|by left].
      * apply list_elem_of_singleton in Hy as [= -> ->]. apply lookup_insert_eq.
    + constructor; [done| |rewrite Hn; constructor]. cbn. rewrite lookup_insert_ne by done. apply lookup_insert_eq.
  - rewrite !fmap_app, Hlv, fmap_app. done.
  - done.
  - intros y. rewrite !fmap_app. cbn [fmap list_fmap fst]. intros [Hy|Hy]%elem_of_app.
    + apply Hfr. by rewrite fmap_app.
    + apply list_elem_of_singleton in Hy as ->.
      rewrite <- (ins_notin (l0 ++ [(x, bx)])), <- HB by done. split; [done|].
      rewrite <- (ins_notin lv); [done|]. by rewrite Hlv.
  - rewrite !Forall_app in *. destruct Hnew as [? [H1 _]%Forall_cons]. by rewrite !Forall_singleton.
Qed.
Lemma packetr_relink l0 x bx q R : packetr (l0 ++ [(x, bx)]) R → packetr (l0 ++ [(x, set_pnext bx q)]) R.
Proof.
  induction l0 as [|[y c] l0 IH]; [done|]. cbn. rewrite !lens_app. intros [H1 H2]. split; [done|auto].
Qed.

Lemma fresh_chain_pmem s B0 live0 own p l lv m pend : fresh_chain s B0 live0 own p l lv →
  pa_ok m (ins lv live0) → fresh_chain (set_pending (set_pmem s m) pend) B0 live0 own p l lv.
Proof. intros [[? ? ? ? ? ? ?] ? ? ? ? ? ?] Hm. split; try done. Qed.

(** The payload of the first struct is [off] bytes into its buffer. *)
Definition head_room (l : list (Z * pbuf)) (off : Z) : Prop :=
  match l with [] => False | (p, b) :: _ => payload b = p + SIZEOF_STRUCT_PBUF + off end.

Lemma head_room_relink l0 x bx q off l' :
  head_room (l0 ++ [(x, bx)]) off → head_room ((l0 ++ [(x, set_pnext bx q)]) ++ l') off.
Proof. by destruct l0 as [|[y c] l0]. Qed.

(** The struct a pool block is initialised with. *)
Definition pool_pbuf (q off rem qlen : Z) : pbuf :=
  Pbuf NULL (q + SIZEOF_STRUCT_PBUF + off) rem qlen (u8 PBUF_POOL) 0 1 NETIF_NO_INDEX.

Lemma pool_pbuf_ok live q off rem cap : is_u16 rem → 0 ≤ off ≤ PBUF_TRANSPORT →
  src_size SrcPool 0 ≤ cap → live !! q = Some (SrcPool, cap) →
  block_ok live q (pool_pbuf q off rem (Z.min rem (PBUF_POOL_BUFSIZE_ALIGNED - off))).
Proof.
  unfold is_u16, src_size, PBUF_TRANSPORT, PBUF_LINK_HLEN, PBUF_IP_HLEN, PBUF_TRANSPORT_HLEN,
    PBUF_POOL_BUFSIZE_ALIGNED, SIZEOF_STRUCT_PBUF. intros Hr Hoff Hcap Hl.
  split; unfold pool_pbuf; cbn [len tot_len ref flags type_internal payload]; try done.
  - unfold is_u16. lia.
  - exists SrcPool, cap. split_and!; [done|reflexivity|split; by intros _|].
    intros _. unfold SIZEOF_STRUCT_PBUF. lia.
Qed.

(** The state of the allocation loop: nothing yet, or a chain that ends in [last]. *)
Definition loop_pos (l : list (Z * pbuf)) (p last offset off0 : Z) : Prop :=
  (l = [] ∧ p = NULL ∧ offset = off0) ∨
  (∃ l0 bl, l = l0 ++ [(last, bl)] ∧ p ≠ NULL ∧ offset = 0 ∧ head_room l off0).

(** The structs and blocks come from the pool, no struct behind the first is empty. *)
Definition pooled (l : list (Z * pbuf)) (lv : list (Z * (asrc * Z))) : Prop :=
  Forall (λ kv, type_internal kv.2 = u8 PBUF_POOL ∧ ref kv.2 = 1) l ∧ Forall (λ kv, src_size SrcPool 0 ≤ kv.2.2) lv ∧
  Forall (λ kv, 0 < len kv.2) (tail l).

Lemma pooled_snoc l0 x bx lv q q' b cap : pooled (l0 ++ [(x, bx)]) lv → type_internal b = u8 PBUF_POOL → ref b = 1 →
  src_size SrcPool 0 ≤ cap → 0 < len b → pooled ((l0 ++ [(x, set_pnext bx q)]) ++ [(q, b)]) (lv ++ [(q', (SrcPool, cap))]).
Proof.
  intros ([H1 H2]%Forall_app & Hlv & Htl) Hb Href Hcap Hlen. apply Forall_cons in H2 as [H2 _]. split_and!.
  - apply Forall_app. split; [apply Forall_app; split; [done|]|]; apply Forall_singleton; [exact H2|done].
  - apply Forall_app. split; [done|]. by apply Forall_singleton.
  - destruct l0 as [|y l0]; cbn in *; [by constructor|]. apply Forall_app in Htl as [H3 H4].
    apply Forall_cons in H4 as [H4 _]. apply Forall_app. split; [apply Forall_app; split; [done|]|]; by apply Forall_singleton.
Qed.

Lemma alloc_pool_spec fuel : ∀ s p last rem offset off0 l lv B0 live0 own,
  fresh_chain s B0 live0 own p l lv → packetr l rem → loop_pos l p last offset off0 → pooled l lv →
  is_u16 rem → 0 ≤ offset ≤ PBUF_TRANSPORT → rem < Z.of_nat fuel → (l ≠ [] → 0 < rem) →
  ∃ r s', alloc_pool_loop cff fuel s PBUF_POOL p last rem offset = Clean (r, s') ∧ data s' = data s ∧
  ((r = NULL ∧ pbufs s' = B0 ∧ inv s' live0 own) ∨
   (r ≠ NULL ∧ ∃ l' lv', fresh_chain s' B0 live0 own r l' lv' ∧ packet l' ∧
      lens l' = lens l + rem ∧ head_room l' off0 ∧ pooled l' lv')).
Proof.
  induction fuel as [|fuel IH]; intros s p last rem offset off0 l lv B0 live0 own Hfc Hpk Hpos Hpool Hrem Hoff Hfuel Hmr.
  { unfold is_u16 in Hrem. lia. }
  cbn [alloc_pool_loop].
  destruct (pa_malloc_ok (pmem s) (ins lv live0) SrcPool 0) as (q & m & Hm & Hcase);
    [apply (i_alloc _ _ _ (fc_inv _ _ _ _ _ _ _ Hfc))|done|].
  rewrite Hm. out_simp. destruct Hcase as [[-> Hok]|(Hq & cap & Hcap & Hok & Hfr & _)].
  - change (NULL =? NULL) with true. cbn iota.
    pose proof (fresh_chain_pmem _ _ _ _ _ _ _ m true Hfc Hok) as Hfc'.
    destruct Hpos as [(-> & -> & _)|(l0 & bl & _ & Hp & _)].
    + cbn. eexists _, _. split; [done|]. split; [done|]. left. split; [done|].
      destruct Hfc' as [Hi HB _ Hlv _ _ _]. destruct lv; [|done]. done.
    + destruct (fresh_chain_free _ _ _ _ _ _ _ Hfc' Hp) as (n & m' & Hf & Hi).
      unfold pbuf_pool_is_empty. rewrite (proj2 (Z.eqb_neq p NULL)) by done. cbn [negb].
      rewrite Hf. out_simp. eexists _, _. split; [done|]. split; [done|]. by left.
  - rewrite (proj2 (Z.eqb_neq q NULL)) by (unfold NULL; lia).
    unfold pbuf_init_alloced_pbuf. rewrite Z.mod_1_r. out_simp.
    assert (PBUF_TRANSPORT = 56 ∧ PBUF_POOL_BUFSIZE_ALIGNED = 592) as [Hpt Hps] by done.
    rewrite (u16_id (PBUF_POOL_BUFSIZE_ALIGNED - offset)) by (unfold is_u16; lia).
    rewrite (u32_id (PBUF_POOL_BUFSIZE_ALIGNED - offset)) by (unfold is_u32; lia).
    rewrite (proj2 (Z.ltb_lt 0 (PBUF_POOL_BUFSIZE_ALIGNED - offset))) by lia. out_simp.
    fold (pool_pbuf q offset rem (Z.min rem (PBUF_POOL_BUFSIZE_ALIGNED - offset))).
    set (qlen := Z.min rem (PBUF_POOL_BUFSIZE_ALIGNED - offset)). unfold is_u16 in Hrem.
    set (b := pool_pbuf q offset rem qlen).
    assert (block_ok (<[q:=(SrcPool, cap)]> (ins lv live0)) q b) as Hbo.
    { apply (pool_pbuf_ok _ _ _ _ cap); [done..|]. apply lookup_insert_eq. }
    rewrite (u16_id (rem - qlen)) by (unfold is_u16; lia).
    assert (∀ s2 p' l1 lv1, fresh_chain s2 B0 live0 own p' l1 lv1 → packetr l1 (rem - qlen) →
      loop_pos l1 p' q 0 off0 → pooled l1 lv1 → l1 ≠ [] → lens l1 = lens l + qlen → data s2 = data s →
      ∃ r s', (if 0 <? rem - qlen then alloc_pool_loop cff fuel s2 PBUF_POOL p' q (rem - qlen) 0
               else mret (p', s2)) = Clean (r, s') ∧ data s' = data s ∧
      ((r = NULL ∧ pbufs s' = B0 ∧ inv s' live0 own) ∨
       (r ≠ NULL ∧ ∃ l' lv', fresh_chain s' B0 live0 own r l' lv' ∧ packet l' ∧
          lens l' = lens l + rem ∧ head_room l' off0 ∧ pooled l' lv'))) as Hend.
    { intros s2 p' l1 lv1 Hfc2 Hpk2 Hpos2 Hpool2 Hl1 Hlens Hd2. destruct (Z.ltb_spec 0 (rem - qlen)) as [Hmore|Hdone].
      - destruct (IH s2 p' q (rem - qlen) 0 off0 l1 lv1 B0 live0 own Hfc2 Hpk2 Hpos2 Hpool2) as (r & s' & H1 & H2 & H3);
          [unfold is_u16; lia|lia|lia|done|]. exists r, s'. rewrite H2. split_and!; [done..|].
        destruct H3 as [?|(? & l' & lv' & ? & ? & H4 & ? & ?)]; [by left|right]. split; [done|].
        exists l', lv'. split_and!; try done. lia.
      - exists p', s2. split_and!; [done..|]. right.
        destruct Hpos2 as [(-> & _)|(l0 & bl & _ & Hp' & _ & Hhr)]; [done|]. split; [done|].
        exists l1, lv1. split_and!; [done| |lia|done|done]. apply packetr_0.
        by replace 0 with (rem - qlen) by lia. }
    destruct Hpos as [(-> & -> & ->)|(l0 & bl & -> & Hp & -> & Hhr)].
    + change (NULL =? NULL) with true. cbn iota. out_simp.
      destruct Hfc as [Hi HB _ Hlv Ho _ _]. destruct lv; [|done]. cbn in Hi, Hfr, Hok, Hbo, HB. subst B0.
      apply (Hend _ q [(q, b)] [(q, (SrcPool, cap))]); try done.
      * by apply fresh_chain_first.
      * cbn. split; [lia|done].
      * right. exists [], b. split_and!; [done|unfold NULL; lia|done|done].
      * split_and!; [by apply Forall_singleton..|constructor].
      * cbn. lia.
    + rewrite (proj2 (Z.eqb_neq p NULL)) by done.
      destruct (fresh_chain_link _ _ _ _ _ _ _ _ _ _ b m SrcPool cap Hfc Hfr Hok Hbo) as [Hlast Hfc2]; [done..|].
      unfold get. rewrite Hlast. out_simp.
      apply (Hend _ p ((l0 ++ [(last, set_pnext bl q)]) ++ [(q, b)]) (lv ++ [(q, (SrcPool, cap))])); try done.
      * change qlen with (len b). apply packetr_snoc; [|done]. by eapply packetr_relink.
      * right. eexists _, b. split_and!; [done..|]. by eapply head_room_relink.
      * apply pooled_snoc; try done. cbn. assert (0 < rem) by (apply Hmr; by destruct l0). lia.
      * by destruct l0.
      * rewrite !lens_app. cbn. lia.
Qed.
(** Where the client's memory can come from. *)
Definition alloc_type (t : Z) : Prop := t = PBUF_RAM ∨ t = PBUF_POOL ∨ t = PBUF_REF ∨ t = PBUF_ROM.

(** What a successful allocation of [n] bytes with [room] bytes in front hands out. *)
Record allocated (s s' : pst) (live : gmap Z (asrc * Z)) (own : Z → Z) (type room n p : Z)
    (l : list (Z * pbuf)) : Prop := Allocated {
  al_fresh : ∃ lv, fresh_chain s' (pbufs s) live own p l lv;
  al_packet : packet l;
  al_lens : lens l = n;
  al_room : type = PBUF_RAM ∨ type = PBUF_POOL → head_room l room;
  al_single : type ≠ PBUF_POOL → length l = 1%nat }.

Lemma alloc_ref_run s live own payload n type : inv s live own → is_u16 n →
  type = PBUF_REF ∨ type = PBUF_ROM →
  ∃ r s', pbuf_alloc_reference s payload n type = Clean (r, s') ∧ data s' = data s ∧
  ((r = NULL ∧ pbufs s' = pbufs s ∧ inv s' live own) ∨
   (r ≠ NULL ∧ ∃ l, allocated s s' live own type 0 n r l)).
Proof.
  intros Hi Hn Ht. unfold pbuf_alloc_reference.
  destruct (pa_malloc_ok (pmem s) live SrcPbuf 0) as (q & m & Hm & Hcase); [apply Hi|done|].
  replace ((type =? PBUF_REF) || (type =? PBUF_ROM)) with true by (by destruct Ht as [-> | ->]).
  out_simp. rewrite Hm. out_simp. destruct Hcase as [[-> Hok]|(Hq & cap & Hcap & Hok & Hfr & _)].
  - change (NULL =? NULL) with true. cbn iota. eexists _, _. split_and!; [done..|]. left.
    split_and!; [done..|]. destruct Hi. by split.
  - rewrite (proj2 (Z.eqb_neq q NULL)) by (unfold NULL; lia).
    eexists _, _. split_and!; [done..|]. right. split; [unfold NULL; lia|].
    eexists [(q, _)]. split; cbn [lens packet head_room].
    + exists [(q, (SrcPbuf, cap))]. apply fresh_chain_first; try done.
      split; cbn; try done. exists SrcPbuf, cap. rewrite lookup_insert_eq.
      split_and!; try done; destruct Ht as [-> | ->]; try done; cbn; by split.
    + cbn. split; [lia|done].
    + cbn. lia.
    + by destruct Ht as [-> | ->]; intros [?|?].
    + done.
Qed.

(** The check against wrap-around in the heap request is exact. *)
Lemma ram_len_check layer n : 0 ≤ layer ≤ 56 → is_u16 n →
  (u16 (layer + n) <? n) || (u16 (SIZEOF_STRUCT_PBUF + u16 (layer + n)) <? n) = false →
  u16 (SIZEOF_STRUCT_PBUF + u16 (layer + n)) = SIZEOF_STRUCT_PBUF + layer + n.
Proof. clear cff.
  unfold SIZEOF_STRUCT_PBUF. intros Hl Hn [H1%Z.ltb_ge H2%Z.ltb_ge]%orb_false_elim. width.
Qed.

(** The struct [pbuf_alloc] sets up for [PBUF_RAM]. *)
Definition ram_pbuf (q layer n : Z) : pbuf :=
  Pbuf NULL (q + SIZEOF_STRUCT_PBUF + layer) n n (u8 PBUF_RAM) 0 1 NETIF_NO_INDEX.

Lemma alloc_ram_block s live own layer n : inv s live own → 0 ≤ layer ≤ PBUF_TRANSPORT → is_u16 n →
  ∃ m, (pbuf_alloc cff s layer n PBUF_RAM = Clean (NULL, set_pmem s m) ∧ inv (set_pmem s m) live own) ∨
    ∃ q cap, q ≠ NULL ∧
      pbuf_alloc cff s layer n PBUF_RAM = Clean (q, upd (set_pmem s m) q (ram_pbuf q layer n)) ∧
      fresh_chain (upd (set_pmem s m) q (ram_pbuf q layer n)) (pbufs s) live own q
        [(q, ram_pbuf q layer n)] [(q, (SrcHeap, cap))].
Proof.
  intros Hi Hlay Hn. assert (PBUF_TRANSPORT = 56) as Hpt by done. unfold pbuf_alloc.
  rewrite (u16_id layer) by (unfold is_u16; lia).
  change (PBUF_RAM =? PBUF_REF) with false. change (PBUF_RAM =? PBUF_ROM) with false.
  change (PBUF_RAM =? PBUF_POOL) with false. change (PBUF_RAM =? PBUF_RAM) with true. cbn [orb].
  destruct ((u16 (layer + n) <? n) || _) eqn:E.
  { exists (pmem s). left. replace (set_pmem s (pmem s)) with s by (by destruct s). done. }
  rewrite ram_len_check by (done || lia). apply ram_len_check in E as Hlen; [|lia|done].
  assert (is_u16 (SIZEOF_STRUCT_PBUF + layer + n)) as Hu by (rewrite <- Hlen; apply u16_range).
  destruct (pa_malloc_ok (pmem s) live SrcHeap (SIZEOF_STRUCT_PBUF + layer + n)) as (q & m & Hm & Hcase);
    [apply Hi|done|]. exists m. rewrite Hm. out_simp.
  destruct Hcase as [[-> Hok]|(Hq & cap & Hcap & Hok & Hfr & _)].
  - change (NULL =? NULL) with true. cbn iota. left. split; [done|]. destruct Hi. by split.
  - right. rewrite (proj2 (Z.eqb_neq q NULL)) by (unfold NULL; lia). rewrite Z.mod_1_r. out_simp.
    exists q, cap. split_and!; [unfold NULL; lia|done|]. unfold is_u16 in *. apply fresh_chain_first; try done.
    split; cbn [len tot_len ref flags type_internal payload ram_pbuf]; try done.
    exists SrcHeap, cap. rewrite lookup_insert_eq. cbn [src_size] in Hcap.
    split_and!; [done|done|split; by intros _|]. intros _. lia.
Qed.

Lemma alloc_ram_run s live own layer n : inv s live own → 0 ≤ layer ≤ PBUF_TRANSPORT → is_u16 n →
  ∃ r s', pbuf_alloc cff s layer n PBUF_RAM = Clean (r, s') ∧ data s' = data s ∧
  ((r = NULL ∧ pbufs s' = pbufs s ∧ inv s' live own) ∨
   (r ≠ NULL ∧ ∃ l, allocated s s' live own PBUF_RAM layer n r l)).
Proof.
  intros Hi Hlay Hn.
  destruct (alloc_ram_block s live own layer n Hi Hlay Hn) as (m & [[H1 H2]|(q & cap & Hq & H1 & H2)]).
  - eexists _, _. split_and!; [done..|]. by left.
  - eexists _, _. split_and!; [done..|]. right. split; [done|]. eexists. split; [eauto|..].
    + cbn. split; [lia|done].
    + cbn. lia.
    + done.
    + done.
Qed.

(** Packets from the pool. *)
Lemma alloc_pool_run s live own n : inv s live own → is_u16 n →
  ∃ r s', pbuf_alloc cff s PBUF_RAW n PBUF_POOL = Clean (r, s') ∧ data s' = data s ∧
  ((r = NULL ∧ pbufs s' = pbufs s ∧ inv s' live own) ∨
   (r ≠ NULL ∧ ∃ l lv, fresh_chain s' (pbufs s) live own r l lv ∧ packet l ∧ lens l = n ∧
      head_room l PBUF_RAW ∧ pooled l lv)).
Proof.
  intros Hi Hn. assert (PBUF_TRANSPORT = 56) as Hpt by done. unfold pbuf_alloc. rewrite (u16_id PBUF_RAW) by done.
  change (PBUF_POOL =? PBUF_REF) with false. change (PBUF_POOL =? PBUF_ROM) with false.
  change (PBUF_POOL =? PBUF_POOL) with true. cbn [orb].
  destruct (alloc_pool_spec (S (Z.to_nat n)) s NULL NULL n PBUF_RAW PBUF_RAW [] [] (pbufs s) live own)
    as (r & s' & H1 & H2 & H3); try done.
  - split; try done; [intros x; apply (i_own _ _ _ Hi)|]. intros x Hx. by apply elem_of_nil in Hx.
  - by left.
  - unfold is_u16 in Hn. lia.
  - by exists r, s'.
Qed.

Lemma pbuf_alloc_run s live own layer n type : inv s live own → 0 ≤ layer ≤ PBUF_TRANSPORT →
  is_u16 n → alloc_type type →
  ∃ r s', pbuf_alloc cff s layer n type = Clean (r, s') ∧ data s' = data s ∧
  ((r = NULL ∧ pbufs s' = pbufs s ∧ inv s' live own) ∨
   (r ≠ NULL ∧ ∃ l, allocated s s' live own type layer n r l)).
Proof.
  intros Hi Hlay Hn Ht. assert (PBUF_TRANSPORT = 56) as Hpt by done.
  destruct Ht as [-> | [-> |Ht]]; [by apply alloc_ram_run|..];
    unfold pbuf_alloc; rewrite (u16_id layer) by (unfold is_u16; lia).
  - change (PBUF_POOL =? PBUF_REF) with false. change (PBUF_POOL =? PBUF_ROM) with false.
    change (PBUF_POOL =? PBUF_POOL) with true. cbn [orb].
    destruct (alloc_pool_spec (S (Z.to_nat n)) s NULL NULL n layer layer [] [] (pbufs s) live own)
      as (r & s' & H1 & H2 & H3); try done.
    + split; try done; [intros x; apply (i_own _ _ _ Hi)|]. intros x Hx. by apply elem_of_nil in Hx.
    + by left.
    + unfold is_u16 in Hn. lia.
    + exists r, s'. split_and!; [done..|]. destruct H3 as [?|(? & l & lv & ? & ? & ? & ? & _)]; [by left|right].
      split; [done|]. exists l. split; eauto. done.
  - replace ((type =? PBUF_REF) || (type =? PBUF_ROM)) with true by (by destruct Ht as [-> | ->]).
    destruct (alloc_ref_run s live own NULL n type Hi Hn Ht) as (r & s' & H1 & H2 & H3).
    exists r, s'. split_and!; [done..|]. destruct H3 as [?|(? & l & [? ? ? ? ?])]; [by left|right].
    split; [done|]. exists l. split; try done. by destruct Ht as [-> | ->]; intros [?|?].
Qed.
End Inv.
