(* ===== verification/PbufClient.v ===== *)
(** * What pbuf.c promises to the code that uses packets

    The clients of pbuf.c follow a protocol: they free only what they hold a reference to,
    join only disjoint chains, and so on ([allowed]).  Then no call faults, the
    reference counts stay exact, and when the last client reference is gone
    every struct and every block has been given back.  The functional
    specifications say what allocation, freeing, joining, shrinking and header
    adjustment do to the packet. *)
From S2P Require Import Prelude Stats Iface Memp Mem Alloc Pbuf PbufChain.

(** ** The client protocol *)

Inductive pbuf_ev :=
| EAlloc (layer n type : Z)
| EAllocRef (payload n type : Z)
| EFree (p : Z)
| ERef (p : Z)
| ECat (h t : Z)
| EChain (h t : Z)
| EDechain (p : Z)
| ERealloc (p n : Z)
| EHeader (p n : Z)
| EHeaderForce (p n : Z).

Lemma shrink_grow b n : 0 ≤ n → is_u16 (len b) → is_u16 (tot_len b) → n + len b < 65536 → n + tot_len b < 65536 →
  shrink_front (grow b n) n = b.
Proof.
  unfold is_u16. intros Hn Hl Ht H1 H2. unfold shrink_front, grow, set_payload, set_len, set_tot_len. destruct b. cbn in *.
  rewrite (u16_id (len + n)), (u16_id (tot_len + n)) by (unfold is_u16; lia).
  rewrite !u16_id by (unfold is_u16; lia). f_equal; lia.
Qed.

Section Client.
Context {M : Type} `{PM : PbufAlloc M} (cff : Z → option (@pst M → out (@pst M))).
Abbreviation pst := (@pst M).

Definition pexec (s : pst) (e : pbuf_ev) : out (Z * pst) :=
  match e with
  | EAlloc layer n type => pbuf_alloc cff s layer n type
  | EAllocRef payload n type => pbuf_alloc_reference s payload n type
  | EFree p => pbuf_free cff s p
  | ERef p => s ← pbuf_ref s p; mret (0, s)
  | ECat h t => s ← pbuf_cat s h t; mret (0, s)
  | EChain h t => s ← pbuf_chain s h t; mret (0, s)
  | EDechain p => pbuf_dechain cff s p
  | ERealloc p n => s ← pbuf_realloc cff s p n; mret (0, s)
  | EHeader p n => pbuf_header s p n
  | EHeaderForce p n => pbuf_header_force s p n
  end.

(** [p] is the head of the packet [l]. *)
Definition is_packet (s : pst) (p : Z) (l : list (Z * pbuf)) : Prop :=
  l ≠ [] ∧ chained (pbufs s) p l ∧ packet l.

Definition joinable (s : pst) (h t : Z) : Prop :=
  ∃ lh lt, is_packet s h lh ∧ chained (pbufs s) t lt ∧ ∀ x, x ∈ lh.*1 → x ∉ lt.*1.

Definition allowed (s : pst) (own : Z → Z) (e : pbuf_ev) : Prop :=
  match e with
  | EAlloc layer n type => 0 ≤ layer ≤ PBUF_TRANSPORT ∧ is_u16 n ∧ alloc_type type
  | EAllocRef payload n type => is_u16 n ∧ (type = PBUF_REF ∨ type = PBUF_ROM)
  | EFree p => 0 < own p
  | ERef p => ∃ b, pbufs s !! p = Some b ∧ ref b < 255
  | ECat h t => 0 < own t ∧ joinable s h t
  | EChain h t => 0 < own t ∧ joinable s h t ∧ ∃ b, pbufs s !! t = Some b ∧ ref b < 255
  | EDechain p => ∃ l, is_packet s p l ∧ (length l ≤ 256)%nat
  | ERealloc p n => is_u16 n ∧ ∃ l, is_packet s p l
  | EHeader p n | EHeaderForce p n => -32768 ≤ n < 32768 ∧ is_Some (pbufs s !! p)
  end.

(** The references the clients hold after a call that returned [r]. *)
Definition own_after (own : Z → Z) (e : pbuf_ev) (r : Z) : Z → Z :=
  match e with
  | EAlloc _ _ _ | EAllocRef _ _ _ => if r =? NULL then own else add_own own r 1
  | EFree p => add_own own p (-1)
  | ERef p => add_own own p 1
  | ECat h t => add_own own t (-1)
  | _ => own
  end.

(** Runs of allowed calls, with what they returned. *)
Inductive run : pst → (Z → Z) → list (pbuf_ev * Z) → pst → (Z → Z) → Prop :=
| run_nil s own : run s own [] s own
| run_cons s own e r s1 log tr s' own' : allowed s own e → pexec s e = Ret (r, s1) log →
    run s1 (own_after own e r) tr s' own' → run s own ((e, r) :: tr) s' own'.

(** ** One call *)

Lemma is_packet_snoc s p l : is_packet s p l →
  ∃ l0 q b, l = l0 ++ [(q, b)] ∧ next b = NULL ∧ tot_len b = len b.
Proof.
  intros (Hne & Hc & Hpk). destruct (exists_last Hne) as (l0 & [q b] & ->). exists l0, q, b.
  split; [done|]. apply chained_split in Hc as (t & _ & _ & Hc).
  apply chained_inv_cons in Hc as (_ & _ & _ & Hn). apply packet_suffix in Hpk as [Ht _].
  cbn in Ht. split; [by inversion Hn|lia].
Qed.

Lemma is_packet_head s p l : is_packet s p l → ∃ b l', l = (p, b) :: l' ∧ p ≠ NULL ∧
  pbufs s !! p = Some b ∧ chained (pbufs s) (next b) l' ∧ tot_len b = len b + lens l' ∧ packet l'.
Proof.
  intros (Hne & Hc & Hpk). destruct l as [|[q b] l']; [done|].
  apply chained_inv_cons in Hc as (-> & ? & ? & ?). destruct Hpk as [? ?]. exists b, l'. done.
Qed.

(** The packet after joining. *)
Lemma cat_step s live own h t lh lt : inv s live own → 0 < own t → is_packet s h lh →
  chained (pbufs s) t lt → (∀ x, x ∈ lh.*1 → x ∉ lt.*1) →
  ∃ s' l0 q bq bt, lh = l0 ++ [(q, bq)] ∧ pbufs s !! t = Some bt ∧ pbuf_cat s h t = Clean s' ∧
    inv s' live (add_own own t (-1)) ∧ data s' = data s ∧
    pbufs s' = ins (cat_head (tot_len bt) t l0 q bq) (pbufs s) ∧
    chained (pbufs s') h (cat_head (tot_len bt) t l0 q bq ++ lt).
Proof.
  intros Hi Ho Hh Ht Hd. destruct (is_packet_snoc _ _ _ Hh) as (l0 & q & bq & -> & Hn & Htot).
  destruct (inv_own_chain _ _ _ _ Hi Ho) as (bt & _ & _ & Hbt & _).
  destruct (pbuf_cat_run s live own h l0 q bq t bt lt) as (s' & H1 & H2 & H3 & _ & H4 & H5); try done.
  { apply Hh. }
  exists s', l0, q, bq, bt. done.
Qed.

Lemma chain_call_step s live own h t lh lt bt : inv s live own → 0 < own t → is_packet s h lh →
  chained (pbufs s) t lt → (∀ x, x ∈ lh.*1 → x ∉ lt.*1) → pbufs s !! t = Some bt → ref bt < 255 →
  ∃ s', pbuf_chain s h t = Clean s' ∧ inv s' live own.
Proof.
  intros Hi Ho Hh Ht Hd Hbt Hlt.
  destruct (cat_step _ _ _ _ _ _ _ Hi Ho Hh Ht Hd) as (s1 & l0 & q & bq & bt' & Hl & Hbt' & H1 & H2 & H3 & H4 & H5).
  rewrite Hbt in Hbt'. injection Hbt' as <-. unfold pbuf_chain. rewrite H1. out_simp.
  assert (t ∉ lh.*1) as Hnin.
  { intros Hx. apply (Hd t Hx). destruct (inv_own_chain _ _ _ _ Hi Ho) as (? & ? & Ht0 & _).
    destruct (chained_nonnull _ _ _ Ht0 Ht) as (? & ? & -> & _). by left. }
  assert (pbufs s1 !! t = Some bt) as Hbt1.
  { rewrite H4, ins_notin; [done|]. rewrite Hl in Hnin. unfold cat_head.
    by rewrite fmap_app, bump_fst in *. }
  destruct (pbuf_ref_run _ _ _ _ _ H2 Hbt1 Hlt) as [-> Hi']. eexists. split; [done|].
  apply (inv_own_ext _ _ _ _ Hi'). intros x. unfold add_own. case_decide; lia.
Qed.

Lemma header_step s live own p n force : inv s live own → -32768 ≤ n < 32768 →
  is_Some (pbufs s !! p) → ∃ r s', pbuf_header_impl s p n force = Clean (r, s') ∧ inv s' live own.
Proof.
  intros Hi Hn [b Hb]. unfold pbuf_header_impl. destruct (Z.ltb_spec n 0) as [Hneg|Hpos].
  - rewrite u32_id by (unfold is_u32; lia).
    destruct (remove_header_run s live own p b (- n) Hi Hb) as [H1 H2]; [lia|].
    destruct (decide (- n ≤ len b)) as [Hle|Hgt]; [destruct (H1 Hle) as [-> ?]|rewrite H2 by lia]; eauto.
  - rewrite u32_id by (unfold is_u32; lia). destruct (decide (n = 0)) as [->|Hn0].
    + exists 0, s. split; [|done]. unfold pbuf_add_header_impl.
      pose proof (inv_pos _ _ _ _ _ Hi Hb). by rewrite (proj2 (Z.eqb_neq p NULL)) by (unfold NULL; lia).
    + destruct (add_header_run s live own p b n force Hi Hb) as [H1 H2]; [lia|].
      destruct (decide (add_header_fits p b n force)) as [Hf|Hf]; [destruct (H1 Hf) as [-> ?]|rewrite H2 by done]; eauto.
Qed.

Lemma realloc_step s live own p n l : inv s live own → is_u16 n → is_packet s p l →
  ∃ s' live' log, pbuf_realloc cff s p n = Ret s' log ∧ inv s' live' own.
Proof.
  intros Hi Hn Hl. destruct (is_packet_head _ _ _ Hl) as (b & l' & -> & Hp & Hb & _ & Htot & _).
  pose proof (bo_tot _ _ _ (i_block _ _ _ Hi _ _ Hb)) as Hu. unfold is_u16 in *.
  destruct (decide (tot_len b ≤ n)) as [Hle|Hgt].
  - exists s, live, []. split; [|done]. unfold pbuf_realloc, get.
    rewrite (proj2 (Z.eqb_neq p NULL) Hp), Hb. out_simp. by rewrite (proj2 (Z.leb_le (tot_len b) n)).
  - destruct Hl as (_ & Hc & Hpk).
    destruct (pbuf_realloc_run cff s live own p _ n Hi Hp Hc Hpk) as
      (l0 & q & bq & l2 & r & s' & live' & log & _ & _ & _ & H1 & H2 & _); [cbn; lia..|]. eauto.
Qed.

Lemma step_inv s live own e : inv s live own → allowed s own e →
  ∃ r s' live' log, pexec s e = Ret (r, s') log ∧ inv s' live' (own_after own e r).
Proof.
  intros Hi Ha. destruct e as [layer n type|payload n type|p|p|h t|h t|p|p n|p n|p n]; cbn [pexec allowed own_after] in *.
  - destruct Ha as (Hlay & Hn & Ht).
    destruct (pbuf_alloc_run cff s live own layer n type Hi Hlay Hn Ht) as (r & s' & -> & _ & [(-> & _ & Hi')|(Hr & l & Hal)]).
    + by exists NULL, s', live, [].
    + destruct (al_fresh _ _ _ _ _ _ _ _ _ Hal) as (lv & Hfc). exists r, s', (ins lv live), [].
      rewrite (proj2 (Z.eqb_neq _ _) Hr). split; [done|]. by eapply fresh_chain_inv.
  - destruct Ha as [Hn Ht].
    destruct (alloc_ref_run s live own payload n type Hi Hn Ht) as (r & s' & -> & _ & [(-> & _ & Hi')|(Hr & l & Hal)]).
    + by exists NULL, s', live, [].
    + destruct (al_fresh _ _ _ _ _ _ _ _ _ Hal) as (lv & Hfc). exists r, s', (ins lv live), [].
      rewrite (proj2 (Z.eqb_neq _ _) Hr). split; [done|]. by eapply fresh_chain_inv.
  - destruct (inv_own_chain _ _ _ _ Hi Ha) as (b & l & Hp & Hb & Hc).
    destruct (pbuf_free_run cff s live own p ((p, b) :: l) Hi Ha) as (n & B' & live' & m' & _ & -> & Hi'); [by constructor|].
    eexists _, _, live', []. done.
  - destruct Ha as (b & Hb & Hr). destruct (pbuf_ref_run _ _ _ _ _ Hi Hb Hr) as [-> Hi'].
    eexists 0, _, live, []. done.
  - destruct Ha as (Ho & lh & lt & Hh & Ht & Hd).
    destruct (cat_step _ _ _ _ _ _ _ Hi Ho Hh Ht Hd) as (s' & l0 & q & bq & bt & _ & _ & -> & Hi' & _).
    by eexists 0, _, live, [].
  - destruct Ha as (Ho & (lh & lt & Hh & Ht & Hd) & bt & Hbt & Hr).
    destruct (chain_call_step _ _ _ _ _ _ _ _ Hi Ho Hh Ht Hd Hbt Hr) as (s' & -> & Hi'). by eexists 0, _, live, [].
  - destruct Ha as (l & Hl & Hlen). destruct (is_packet_head _ _ _ Hl) as (b & l' & -> & Hp & Hb & Hc & Htot & Hpk).
    cbn [length] in Hlen.
    destruct (pbuf_dechain_run cff s live own p b l' Hi Hb Hc Htot Hpk) as (n & B' & live' & m' & _ & -> & Hi' & _); [lia|].
    by eexists _, _, live', [].
  - destruct Ha as (Hn & l & Hl). destruct (realloc_step s live own p n l Hi Hn Hl) as (s' & live' & log & -> & Hi').
    exists 0, s', live', (log ++ []). done.
  - destruct Ha as [Hn Hp]. destruct (header_step s live own p n false Hi Hn Hp) as (r & s' & H1 & H2).
    by exists r, s', live, [].
  - destruct Ha as [Hn Hp]. destruct (header_step s live own p n true Hi Hn Hp) as (r & s' & H1 & H2).
    by exists r, s', live, [].
Qed.

(** C3: one call of a client that follows the protocol: it returns (no fault, the loops end
    within their fuel), and afterwards the reference count of every struct is
    again the number of client references plus the number of links to it, every
    chain is finite, and every struct lies in a block of its allocator. *)
Theorem pbuf_protocol_safe s live own e : inv s live own → allowed s own e →
  ∃ r s' live' log, pexec s e = Ret (r, s') log ∧ inv s' live' (own_after own e r).
Proof. apply step_inv. Qed.

(** ** Runs *)

Lemma run_inv s own tr s' own' : run s own tr s' own' → ∀ live, inv s live own →
  ∃ live', inv s' live' own'.
Proof.
  induction 1 as [s own|s own e r s1 log tr s' own' Ha He Hr IH]; intros live Hi; [eauto|].
  destruct (step_inv s live own e Hi Ha) as (r0 & s0 & live0 & log0 & He0 & Hi0).
  rewrite He in He0. injection He0 as <- <- <-. by eapply IH.
Qed.

(** A struct that no client refers to is linked to by another, and so on. *)
Lemma unowned_chains s live own p b : inv s live own → (∀ x, own x = 0) → pbufs s !! p = Some b →
  ∀ n, ∃ q l, q ≠ NULL ∧ chained (pbufs s) q l ∧ (n < length l)%nat.
Proof.
  intros Hi Ho Hb n. induction n as [|n (q & l & Hq & Hc & Hn)].
  - destruct (i_chain _ _ _ Hi _ _ Hb) as [l Hc]. pose proof (inv_pos _ _ _ _ _ Hi Hb).
    assert (p ≠ NULL) as Hp by (unfold NULL; lia). exists p, l. split_and!; [done..|].
    destruct (chained_nonnull _ _ _ Hp Hc) as (? & ? & -> & _). cbn. lia.
  - destruct (chained_nonnull _ _ _ Hq Hc) as (c & l' & _ & Hcq & _).
    pose proof (i_ref _ _ _ Hi _ _ Hcq) as Hr. pose proof (bo_ref _ _ _ (i_block _ _ _ Hi _ _ Hcq)).
    rewrite Ho in Hr. destruct (indeg_pos (pbufs s) q) as (x & cx & Hx & Hn'); [lia|].
    pose proof (inv_pos _ _ _ _ _ Hi Hx). exists x, ((x, cx) :: l).
    split_and!; [unfold NULL; lia| |cbn; lia]. constructor; [unfold NULL; lia|done|by rewrite Hn'].
Qed.

Lemma unowned_empty s live own : inv s live own → (∀ x, own x = 0) → pbufs s = ∅ ∧ live = ∅.
Proof.
  intros Hi Ho. assert (pbufs s = ∅) as Hemp.
  { apply map_empty. intros p. destruct (pbufs s !! p) as [b|] eqn:Hb; [|done].
    destruct (unowned_chains _ _ _ _ _ Hi Ho Hb (size (pbufs s))) as (q & l & _ & Hc & Hn).
    apply chained_length in Hc. lia. }
  split; [done|]. apply map_empty. intros p.
  destruct (live !! p) as [kn|] eqn:E; [|done]. apply (i_live _ _ _ Hi) in E as [b Hb].
  by rewrite Hemp, lookup_empty in Hb.
Qed.

(** C30: when a run of allowed calls ends with no client holding a reference, all structs
    are gone and all their blocks have been given back to the allocators. *)
Theorem pbuf_run_no_leak s live own tr s' own' : inv s live own → run s own tr s' own' →
  (∀ p, own' p = 0) → pbufs s' = ∅ ∧ pa_ok (pmem s') ∅.
Proof.
  intros Hi Hrun Ho. destruct (run_inv _ _ _ _ _ Hrun live Hi) as (live' & Hi').
  destruct (unowned_empty _ _ _ Hi' Ho) as [HB Hl]. split; [done|]. rewrite <- Hl. apply Hi'.
Qed.

(** ** Functional specifications *)

(** [pbuf_free] of a chain the client refers to deallocates the structs from its head
    that nobody else refers to, up to the first shared one, whose count drops
    by one; it returns how many it deallocated (as a [u8_t]), gives exactly
    their blocks back, and leaves all bytes of memory alone. *)
Theorem pbuf_free_spec s live own p l : inv s live own → 0 < own p → chained (pbufs s) p l →
  ∃ n B' live' m', afree l (pbufs s) live = (n, B', live') ∧
    pbuf_free cff s p = Clean (u8 n, Pst m' B' (data s) (pbuf_free_ooseq_pending s)) ∧
    pa_ok m' live' ∧ (∀ x, x ∉ l.*1 → B' !! x = pbufs s !! x).
Proof.
  intros Hi Ho Hc. destruct (pbuf_free_run cff s live own p l Hi Ho Hc) as (n & B' & live' & m' & Ha & Hf & Hi').
  exists n, B', live', m'. split_and!; [done|done|apply Hi'|].
  intros x Hx. by apply (afree_frame _ _ _ _ _ _ x Ha).
Qed.

(** [pbuf_alloc] of any of the four types either returns NULL and changes no struct and
    no block in use (a request the pool cannot satisfy gives back what it had
    taken), or returns a packet of exactly the requested length in fresh
    structs with reference count 1, with the room for the headers of the layer
    in front of the payload. *)
Theorem pbuf_alloc_spec s live own layer n type : inv s live own → 0 ≤ layer ≤ PBUF_TRANSPORT →
  is_u16 n → alloc_type type →
  ∃ r s', pbuf_alloc cff s layer n type = Clean (r, s') ∧ data s' = data s ∧
  ((r = NULL ∧ pbufs s' = pbufs s ∧ pa_ok (pmem s') live) ∨
   (r ≠ NULL ∧ ∃ l, allocated s s' live own type layer n r l)).
Proof.
  intros Hi Hlay Hn Ht. destruct (pbuf_alloc_run cff s live own layer n type Hi Hlay Hn Ht) as
    (r & s' & H1 & H2 & [(? & ? & Hi')|?]); exists r, s'; split_and!; try done; [|by right].
  left. split_and!; [done..|apply Hi'].
Qed.

(** [pbuf_cat] makes one packet of two: its bytes are those of the head followed by
    those of the tail, all [tot_len] fields are right again, and the client's
    reference to the tail now belongs to the packet. *)
Theorem pbuf_cat_spec s live own h t lh lt : inv s live own → 0 < own t → is_packet s h lh →
  is_packet s t lt → (∀ x, x ∈ lh.*1 → x ∉ lt.*1) → lens lh + lens lt < 65536 →
  ∃ s' l, pbuf_cat s h t = Clean s' ∧ inv s' live (add_own own t (-1)) ∧ is_packet s' h l ∧
    l.*1 = lh.*1 ++ lt.*1 ∧ data s' = data s ∧
    content (data s') l = content (data s) lh ++ content (data s) lt.
Proof.
  intros Hi Ho Hh Ht Hd Hlt. pose proof (inv_lens_pos _ _ _ _ _ Hi (proj1 (proj2 Hh))) as Hpos.
  pose proof (inv_lens_pos _ _ _ _ _ Hi (proj1 (proj2 Ht))) as Hpost.
  destruct (cat_step _ _ _ _ _ _ _ Hi Ho Hh (proj1 (proj2 Ht)) Hd) as
    (s' & l0 & q & bq & bt & -> & Hbt & H1 & H2 & H3 & _ & H5).
  destruct (is_packet_head _ _ _ Ht) as (bt' & lt' & -> & Ht0 & Hbt' & _ & Htot & Hpk).
  rewrite Hbt in Hbt'. injection Hbt' as <-.
  exists s', (cat_head (tot_len bt) t l0 q bq ++ (t, bt) :: lt').
  split_and!; [done|done| | |done|].
  - split_and!; [intros Heq; by apply app_nil in Heq as [_ ?]|exact H5|].
    apply packet_cat; try done; [apply Hh|by apply lens_nonneg].
  - unfold cat_head. rewrite !fmap_app, bump_fst. done.
  - rewrite H3, content_app. f_equal. apply content_view, view_cat_head.
Qed.

Lemma set_ref_id b : set_ref b (ref b) = b.
Proof. by destruct b. Qed.

Lemma insert_other_id {A} (B : gmap Z A) x v y w : x ≠ y → B !! x = Some v → B !! y = Some w →
  ∀ v' w', <[y:=w]> (<[x:=v]> (<[y:=w']> (<[x:=v']> B))) = B.
Proof.
  intros Hne Hx Hy v' w'. rewrite (insert_insert_ne _ x y), insert_insert_eq, insert_insert_eq by done.
  by rewrite (insert_id B x v Hx), insert_id.
Qed.

(** putting a single buffer in front of a packet with [pbuf_chain] and taking it off
    again with [pbuf_dechain] gives the packet back and leaves every struct as
    it was. *)
Theorem pbuf_chain_dechain s live own h bh t lt bt : inv s live own → 0 < own t →
  is_packet s h [(h, bh)] → is_packet s t lt → h ∉ lt.*1 → (length lt < 256)%nat →
  len bh + lens lt < 65536 → pbufs s !! t = Some bt → ref bt < 255 →
  ∃ s1 s2, pbuf_chain s h t = Clean s1 ∧ pbuf_dechain cff s1 h = Clean (t, s2) ∧
    pbufs s2 = pbufs s ∧ pmem s2 = pmem s ∧ data s2 = data s.
Proof.
  intros Hi Ho (_ & Hch & Hpk & _) Hlt Hnin Hlen Hsum Hbt Href.
  apply chained_inv_cons in Hch as (_ & Hh & Hbh & Hnh). inversion Hnh as [Hnh0|]. clear Hnh. cbn in Hpk.
  destruct (is_packet_head _ _ _ Hlt) as (bt' & lt' & -> & Ht0 & Hbt' & Hct & Htot & Hpkt).
  rewrite Hbt in Hbt'. injection Hbt' as <-. cbn [lens fmap list_fmap fst] in *.
  apply not_elem_of_cons in Hnin as [Hht Hnin].
  pose proof (bo_len _ _ _ (i_block _ _ _ Hi _ _ Hbh)) as Hlh. unfold is_u16 in Hlh.
  pose proof (bo_ref _ _ _ (i_block _ _ _ Hi _ _ Hbt)) as Hrt.
  pose proof (bo_tot _ _ _ (i_block _ _ _ Hi _ _ Hbt)) as Htt. unfold is_u16 in Htt.
  set (bh1 := set_pnext (set_tot_len bh (tot_len bh + tot_len bt)) t).
  set (bt1 := set_ref bt (ref bt + 1)).
  exists (upd (upd s h bh1) t bt1), (upd (upd (upd (upd s h bh1) t bt1) h bh) t bt).
  split_and!.
  - unfold pbuf_chain, pbuf_cat, pbuf_ref, chain_fuel. cbn [cat_loop].
    rewrite (proj2 (Z.eqb_neq h NULL) Hh), (proj2 (Z.eqb_neq t NULL) Ht0). cbn [negb andb].
    unfold get. rewrite Hbh. out_simp. rewrite <- Hnh0. change (NULL =? NULL) with true. cbn iota. out_simp.
    rewrite Hbh. out_simp. rewrite (proj2 (Z.eqb_eq (tot_len bh) (len bh))) by lia. rewrite <- Hnh0. out_simp.
    rewrite Hbt. out_simp. rewrite u16_id by (unfold is_u16; lia). fold bh1.
    cbn [upd set_pbufs pbufs]. rewrite lookup_insert_ne, Hbt by done. out_simp.
    rewrite u8_id by (unfold is_u8; lia). cbn [ref set_ref]. by rewrite (proj2 (Z.ltb_lt 0 (ref bt + 1))) by lia.
  - set (s1 := upd (upd s h bh1) t bt1).
    assert (pbufs s1 !! h = Some bh1) as Hh1 by (cbn; by rewrite lookup_insert_ne, lookup_insert_eq).
    assert (pbufs s1 !! t = Some bt1) as Ht1 by (apply lookup_insert_eq).
    assert (tot_len bh1 - len bh1 = tot_len bt) as Htb by (unfold bh1; cbn [tot_len len set_pnext set_tot_len]; lia).
    assert (set_tot_len bt1 (u16 (tot_len bh1 - len bh1)) = bt1) as Hbt1.
    { rewrite Htb, u16_id by (unfold is_u16; lia). by destruct bt. }
    assert (set_tot_len (set_pnext bh1 NULL) (len bh1) = bh) as Hbh1.
    { unfold bh1, set_tot_len, set_pnext. destruct bh. cbn in *. f_equal; [done|lia]. }
    unfold pbuf_dechain, get. rewrite Hh1. out_simp. change (next bh1) with t.
    rewrite (proj2 (Z.eqb_neq t NULL) Ht0), Ht1. cbn [negb]. out_simp.
    rewrite (proj2 (Z.eqb_eq (tot_len bt1) (tot_len bh1 - len bh1))) by (by rewrite Htb). out_simp.
    rewrite Hbt1. replace (upd s1 t bt1) with s1 by (unfold upd, set_pbufs; by rewrite (insert_id (pbufs s1) t bt1 Ht1)).
    rewrite Hh1. out_simp. rewrite Hbh1. unfold pbuf_free, chain_fuel. cbn [free_loop].
    rewrite (proj2 (Z.eqb_neq t NULL) Ht0). unfold get.
    assert (pbufs (upd s1 h bh) !! t = Some bt1) as Ht2 by (cbn [upd set_pbufs pbufs]; by rewrite lookup_insert_ne).
    rewrite Ht2. out_simp. cbn [ref set_ref bt1].
    rewrite (proj2 (Z.ltb_lt 0 (ref bt + 1))) by lia. out_simp.
    rewrite u8_id by (unfold is_u8; lia). replace (ref bt + 1 - 1) with (ref bt) by lia.
    rewrite (proj2 (Z.eqb_neq (ref bt) 0)) by lia. out_simp.
    assert (∀ c, pbufs (upd (upd s1 h bh) t c) !! h = Some bh) as Hh2
      by (intros c; cbn [upd set_pbufs pbufs]; by rewrite lookup_insert_ne, lookup_insert_eq).
    rewrite Hh2. out_simp.
    rewrite (proj2 (Z.eqb_eq (tot_len bh) (len bh))) by lia. out_simp. cbn [Z.ltb Z.compare].
    change (set_ref bt1 (ref bt)) with (set_ref bt (ref bt)). by rewrite set_ref_id.
  - cbn. by apply insert_other_id.
  - done.
  - done.
Qed.

Lemma take_prefix d l0 q bq l2 r : Forall (λ kv, 0 ≤ len kv.2) l0 → 0 ≤ r ≤ len bq →
  take (Z.to_nat (r + lens l0)) (content d (l0 ++ (q, bq) :: l2)) =
  content d l0 ++ seg d (payload bq) r.
Proof.
  intros Hpos Hr. pose proof (lens_nonneg _ Hpos). rewrite content_app, content_cons.
  rewrite take_app, content_length by done. f_equal.
  - apply take_ge. rewrite content_length by done. lia.
  - replace (Z.to_nat (r + lens l0) - Z.to_nat (lens l0))%nat with (Z.to_nat r) by lia.
    rewrite take_app_le by (rewrite seg_length; lia). by apply seg_take.
Qed.

Lemma realloc_list_content d k l0 q bq r l2 : Forall (λ kv, 0 ≤ len kv.2) l0 → 0 ≤ r ≤ len bq →
  content d (realloc_list k l0 q bq r) = take (Z.to_nat (r + lens l0)) (content d (l0 ++ (q, bq) :: l2)).
Proof.
  intros Hpos Hr. rewrite take_prefix by done. unfold realloc_list. rewrite content_app, content_cons, app_nil_r. f_equal.
  apply content_view. unfold view. by rewrite <- list_fmap_compose.
Qed.

(** [pbuf_realloc] to fewer bytes keeps exactly the first [n] bytes of the packet (at
    the same addresses), with right [tot_len] fields; the structs behind are
    freed.  A length not below the current one changes nothing. *)
Theorem pbuf_realloc_spec s live own p n l : inv s live own → is_u16 n → is_packet s p l →
  ∃ s' live' log l', pbuf_realloc cff s p n = Ret s' log ∧ inv s' live' own ∧ data s' = data s ∧
    is_packet s' p l' ∧ lens l' = Z.min n (lens l) ∧ (lens l ≤ n → s' = s) ∧
    content (data s) l' = take (Z.to_nat n) (content (data s) l).
Proof.
  intros Hi Hn Hl. pose proof (inv_lens_pos _ _ _ _ _ Hi (proj1 (proj2 Hl))) as Hpos.
  destruct (is_packet_head _ _ _ Hl) as (b & l' & Hcons & Hp & Hb & _ & Htot & _).
  pose proof (bo_tot _ _ _ (i_block _ _ _ Hi _ _ Hb)) as Hu.
  assert (tot_len b = lens l) as Htl by (by rewrite Hcons). unfold is_u16 in *.
  destruct (decide (tot_len b ≤ n)) as [Hle|Hgt].
  - exists s, live, [], l. split_and!; try done; [|lia|].
    + unfold pbuf_realloc, get. rewrite (proj2 (Z.eqb_neq p NULL) Hp), Hb. out_simp.
      by rewrite (proj2 (Z.leb_le (tot_len b) n)).
    + rewrite take_ge; [done|]. rewrite content_length by done. lia.
  - destruct Hl as (_ & Hc & Hpk).
    destruct (pbuf_realloc_run cff s live own p l n Hi Hp Hc Hpk) as
      (l0 & q & bq & l2 & r & s' & live' & log & Hl & Hnr & Hr & H1 & H2 & H3 & H4 & H5 & _); [lia..|].
    rewrite Hl in Hpos. apply Forall_app in Hpos as [Hpos0 _].
    exists s', live', log, (realloc_list (lens l - n) l0 q bq r). split_and!; try done.
    + split_and!; [|done|done]. intros Heq. by apply app_nil in Heq as [_ ?].
    + unfold realloc_list. rewrite lens_app. cbn. rewrite (lens_view (bump _ <$> l0) l0); [lia|].
      unfold view. by rewrite <- list_fmap_compose.
    + lia.
    + rewrite Hnr, Hl. by apply realloc_list_content.
Qed.

(** [pbuf_add_header] succeeds exactly when the length still fits 16 bits and the new
    payload stays behind the struct; then it reveals [n] bytes in front, and the
    payload still lies in the struct's block.  Otherwise it reports failure and
    changes nothing: it never moves the payload of an allocated buffer out of
    its memory, and never for memory the packet only refers to. *)
Theorem pbuf_add_header_spec s live own p b n : inv s live own → pbufs s !! p = Some b → 0 < n →
  len b ≤ tot_len b →
  (n ≤ 0xFFFF ∧ n + tot_len b < 65536 ∧ contiguous b ∧ p + SIZEOF_STRUCT_PBUF ≤ payload b - n →
   let b' := set_tot_len (set_len (set_payload b (payload b - n)) (len b + n)) (tot_len b + n) in
   pbuf_add_header s p n = Clean (0, upd s p b') ∧ inv (upd s p b') live own) ∧
  (¬ (n ≤ 0xFFFF ∧ n + tot_len b < 65536 ∧ contiguous b ∧ p + SIZEOF_STRUCT_PBUF ≤ payload b - n) →
   pbuf_add_header s p n = Clean (1, s)).
Proof.
  intros Hi Hb Hn Hle. pose proof (bo_tot _ _ _ (i_block _ _ _ Hi _ _ Hb)) as Htot.
  pose proof (bo_len _ _ _ (i_block _ _ _ Hi _ _ Hb)) as Hlen. unfold is_u16 in *.
  destruct (add_header_run s live own p b n false Hi Hb Hn) as [Hyes Hno]. unfold pbuf_add_header. split.
  - intros (H1 & H2 & H3 & H4). assert (add_header_fits p b n false) as Hf by done.
    destruct (Hyes Hf) as [Hrun Hinv]. unfold grow in Hrun, Hinv.
    by rewrite !u16_id in Hrun, Hinv by (unfold is_u16; lia).
  - intros Hnot. apply Hno. intros (H1 & H2 & H3 & H4). apply Hnot. split_and!; [done..| |].
    + destruct (decide (contiguous b)) as [|Hc]; [done|by specialize (H4 Hc)].
    + destruct (decide (contiguous b)) as [|Hc]; [auto|by specialize (H4 Hc)].
Qed.

(** hiding a header again with [pbuf_header] undoes revealing it: the store is exactly
    what it was. *)
Theorem pbuf_header_roundtrip s live own p b n s1 : inv s live own → pbufs s !! p = Some b →
  0 < n < 32768 → len b ≤ tot_len b → pbuf_header s p n = Clean (0, s1) →
  pbuf_header s1 p (- n) = Clean (0, s).
Proof.
  intros Hi Hb Hn Hle. unfold pbuf_header, pbuf_header_impl.
  pose proof (bo_tot _ _ _ (i_block _ _ _ Hi _ _ Hb)) as Htot.
  pose proof (bo_len _ _ _ (i_block _ _ _ Hi _ _ Hb)) as Hlen. unfold is_u16 in *.
  rewrite (proj2 (Z.ltb_ge n 0)), (proj2 (Z.ltb_lt (- n) 0)) by lia. rewrite Z.opp_involutive.
  rewrite !u32_id by (unfold is_u32; lia).
  destruct (add_header_run s live own p b n false Hi Hb) as [Hyes Hno]; [lia|].
  destruct (decide (add_header_fits p b n false)) as [Hf|Hf]; [|rewrite Hno by done; done].
  destruct (Hyes Hf) as [-> Hi1]. destruct Hf as (_ & Hsum & _). intros [= <-].
  assert (pbufs (upd s p (grow b n)) !! p = Some (grow b n)) as Hb1 by (apply lookup_insert_eq).
  destruct (remove_header_run _ _ _ p _ n Hi1 Hb1) as [Hrm _]; [lia|]. destruct Hrm as [-> _].
  { cbn. rewrite u16_id by (unfold is_u16; lia). lia. }
  f_equal. f_equal. unfold upd, set_pbufs. cbn [pmem pbufs data pbuf_free_ooseq_pending].
  rewrite shrink_grow by (done || lia).
  rewrite insert_insert_eq, insert_id by done. by destruct s.
Qed.
End Client.

(** ** Witnesses: a heap packet and a pool packet on the allocators of mem.c and memp.c *)

#[local] Instance ex_pm : PbufAlloc (heap * memp_st) := pbuf_allocators ex_arrays ex_arrays_ok.

Definition ex_cff : Z → option (@pst (heap * memp_st) → out (@pst (heap * memp_st))) := λ _, None.
Definition own0 : Z → Z := λ _, 0.
(** [n] bytes of zeroed memory from [a] on. *)
Fixpoint zeros (n : nat) (a : Z) : gmap Z Z :=
  match n with O => ∅ | S n' => <[a:=0]> (zeros n' (a + 1)) end.

Lemma zeros_lookup n : ∀ a x, a ≤ x < a + Z.of_nat n → zeros n a !! x = Some 0.
Proof.
  induction n as [|n IH]; intros a x Hx; [lia|]. cbn [zeros].
  destruct (decide (x = a)) as [->|Hne]; [apply lookup_insert_eq|].
  rewrite lookup_insert_ne by done. apply IH. lia.
Qed.

Definition ex_s0 : @pst (heap * memp_st) :=
  Pst ex_mem ∅ (zeros (Z.to_nat 34000) 1000) false.

Lemma ex_s0_inv : inv ex_s0 ∅ own0.
Proof.
  split; cbn [ex_s0 pmem pbufs data].
  - exact ex_mem_ok.
  - intros p b Hb. by rewrite lookup_empty in Hb.
  - intros p b Hb. by rewrite lookup_empty in Hb.
  - intros p b Hb. by rewrite lookup_empty in Hb.
  - intros p. unfold own0. split; [done|lia].
  - intros p kn Hp. by rewrite lookup_empty in Hp.
  - intros a Ha. exists 0. apply zeros_lookup. rewrite Z2Nat.id by lia. destruct Ha as [Ha|(k & d & Hk & Hd & Ha)].
    + change (hp ex_arrays) with 4096 in Ha. change MEM_SIZE_ALIGNED with 16000 in Ha. lia.
    + unfold in_array in Ha. destruct k; [done|..]; cbn in Hd; injection Hd as <-; cbn in Ha; lia.
Qed.

(** The state after a call that is known to succeed. *)
Definition after (s : @pst (heap * memp_st)) (e : pbuf_ev) : @pst (heap * memp_st) :=
  match pexec ex_cff s e with Ret (_, s') _ => s' | _ => s end.
Definition result (s : @pst (heap * memp_st)) (e : pbuf_ev) : Z :=
  match pexec ex_cff s e with Ret (r, _) _ => r | _ => NULL end.

Lemma after_alloc s live own layer n type p : inv s live own → 0 ≤ layer ≤ PBUF_TRANSPORT → is_u16 n →
  alloc_type type → result s (EAlloc layer n type) = p → p ≠ NULL →
  pbuf_alloc ex_cff s layer n type = Clean (p, after s (EAlloc layer n type)) ∧
  ∃ l, allocated s (after s (EAlloc layer n type)) live own type layer n p l.
Proof.
  intros Hi Hlay Hn Ht Hr Hp. unfold result, after, pexec in *.
  destruct (pbuf_alloc_run ex_cff s live own layer n type Hi Hlay Hn Ht) as (r & s' & H1 & _ & Hc).
  rewrite H1 in *. subst r. split; [done|]. by destruct Hc as [[? _]|[_ ?]].
Qed.

Definition ex_s1 := after ex_s0 (EAlloc PBUF_TRANSPORT 100 PBUF_RAM).
Definition ex_s2 := after ex_s1 (EAlloc PBUF_RAW 700 PBUF_POOL).

Lemma ex_results : result ex_s0 (EAlloc PBUF_TRANSPORT 100 PBUF_RAM) = 4102 ∧
  result ex_s1 (EAlloc PBUF_RAW 700 PBUF_POOL) = 34256.
Proof. vm_compute. done. Qed.

Lemma allocated_packet s s' live own type room n p l : p ≠ NULL →
  allocated (M := heap * memp_st) s s' live own type room n p l → is_packet s' p l.
Proof.
  intros Hp [(lv & Hfc) Hpk _ _ _]. split_and!; [|apply Hfc|done].
  destruct (chained_nonnull _ _ _ Hp (fc_chain _ _ _ _ _ _ _ Hfc)) as (? & ? & -> & _). done.
Qed.

(** 100 bytes in one heap struct at 4102. *)
Lemma ex_s1_ok : ∃ l, allocated ex_s0 ex_s1 ∅ own0 PBUF_RAM PBUF_TRANSPORT 100 4102 l.
Proof.
  refine (proj2 (after_alloc ex_s0 ∅ own0 PBUF_TRANSPORT 100 PBUF_RAM 4102 ex_s0_inv _ _ _ (proj1 ex_results) _)).
  - split; discriminate.
  - split; [discriminate|reflexivity].
  - by left.
  - discriminate.
Qed.

(** Then 700 bytes in pool structs from 34256 on. *)
Lemma ex_s2_ok live own : inv ex_s1 live own →
  ∃ l, allocated ex_s1 ex_s2 live own PBUF_POOL PBUF_RAW 700 34256 l.
Proof.
  intros Hi.
  refine (proj2 (after_alloc ex_s1 live own PBUF_RAW 700 PBUF_POOL 34256 Hi _ _ _ (proj2 ex_results) _)).
  - split; discriminate.
  - split; [discriminate|reflexivity].
  - right. by left.
  - discriminate.
Qed.

Lemma ex_size : (size (pbufs ex_s2) = 3)%nat.
Proof. vm_compute. reflexivity. Qed.

Lemma ex_type : type_internal <$> (pbufs ex_s2 !! 4102) = Some (u8 PBUF_RAM).
Proof. vm_compute. reflexivity. Qed.

#[local] Opaque ex_s0 ex_s1 ex_s2.

(** Both packets together. *)
Lemma ex_two : ∃ bh bt lt live,
  inv ex_s2 live (add_own (add_own own0 4102 1) 34256 1) ∧
  is_packet ex_s2 4102 [(4102, bh)] ∧ len bh = 100 ∧ payload bh = 4102 + 16 + 56 ∧
  is_packet ex_s2 34256 lt ∧ lens lt = 700 ∧
  pbufs ex_s2 !! 34256 = Some bt ∧ ref bt = 1 ∧ 4102 ∉ lt.*1.
Proof.
  assert (4102 ≠ NULL) as Hn1 by discriminate. assert (34256 ≠ NULL) as Hn2 by discriminate.
  destruct ex_s1_ok as [lh Hh]. pose proof Hh as [(lvh & Hfh) Hpkh Hlh Hroom Hone].
  pose proof (fresh_chain_inv _ _ _ _ _ _ _ Hfh Hn1) as Hi1.
  destruct (ex_s2_ok _ _ Hi1) as [lt Ht].
  pose proof (allocated_packet _ _ _ _ _ _ _ _ _ Hn2 Ht) as Hpt.
  pose proof Ht as [(lvt & Hft) Hpkt Hlt _ _].
  pose proof (fresh_chain_inv _ _ _ _ _ _ _ Hft Hn2) as Hi2.
  clear Ht Hh Hpkt Hi1. set (s2 := ex_s2) in *. clearbody s2. set (s1 := ex_s1) in *. clearbody s1.
  destruct (chained_nonnull _ _ _ Hn1 (fc_chain _ _ _ _ _ _ _ Hfh)) as (bh & l & -> & Hbh & Hch).
  specialize (Hone ltac:(discriminate)). destruct l; [|done]. specialize (Hroom (or_introl eq_refl)).
  destruct (chained_nonnull _ _ _ Hn2 (fc_chain _ _ _ _ _ _ _ Hft)) as (bt & l & -> & Hbt & Hct).
  assert (4102 ∉ ((34256, bt) :: l).*1) as Hnin.
  { intros Hx. apply (fc_fresh _ _ _ _ _ _ _ Hft) in Hx as [Hx _]. by rewrite Hbh in Hx. }
  exists bh, bt, ((34256, bt) :: l), (ins lvt (ins lvh ∅)).
  split_and!; try done.
  - split_and!; [done| |done]. apply (chained_frame (pbufs s1)); [apply Hfh|].
    intros q b [= -> ->]%list_elem_of_singleton.
    by rewrite (fc_pbufs _ _ _ _ _ _ _ Hft), ins_notin.
  - cbn in Hlh. lia.
  - pose proof (fc_new _ _ _ _ _ _ _ Hft) as Hnew. apply Forall_cons in Hnew as [(? & _) _]. done.
Qed.

Lemma pbuf_protocol_safe_witness : ∃ live own r s' live' log, inv ex_s2 live own ∧
  allowed ex_s2 own (ECat 4102 34256) ∧ pexec ex_cff ex_s2 (ECat 4102 34256) = Ret (r, s') log ∧
  inv s' live' (own_after own (ECat 4102 34256) r).
Proof.
  destruct ex_two as (bh & bt & lt & live & Hi & Hh & _ & _ & Ht & _ & _ & _ & Hnin).
  assert (allowed ex_s2 (add_own (add_own own0 4102 1) 34256 1) (ECat 4102 34256)) as Ha.
  { split; [reflexivity|]. exists [(4102, bh)], lt. split; [exact Hh|]. split; [apply Ht|].
    intros x Hx. apply list_elem_of_singleton in Hx as ->. exact Hnin. }
  destruct (pbuf_protocol_safe ex_cff ex_s2 live _ _ Hi Ha) as (r & s' & live' & log & H1 & H2).
  exists live, (add_own (add_own own0 4102 1) 34256 1), r, s', live', log.
  split; [exact Hi|]. split; [exact Ha|]. split; [exact H1|exact H2].
Defined.

Lemma ex_free_own : ∀ x, add_own (add_own (add_own (add_own own0 4102 1) 34256 1) 34256 (-1)) 4102 (-1) x = 0.
Proof. intros x. unfold add_own, own0. repeat case_decide; lia. Qed.

(** Allocate both packets, join them, free the result. *)
Lemma pbuf_run_no_leak_witness : ∃ tr s' own', tr.*1 =
    [EAlloc PBUF_TRANSPORT 100 PBUF_RAM; EAlloc PBUF_RAW 700 PBUF_POOL; ECat 4102 34256; EFree 4102] ∧
  run ex_cff ex_s0 own0 tr s' own' ∧ pbufs s' = ∅ ∧ pa_ok (pmem s') ∅.
Proof.
  assert (4102 ≠ NULL) as Hn1 by discriminate. assert (34256 ≠ NULL) as Hn2 by discriminate.
  destruct (after_alloc ex_s0 ∅ own0 PBUF_TRANSPORT 100 PBUF_RAM 4102 ex_s0_inv
    ltac:(split; discriminate) ltac:(split; [discriminate|reflexivity]) ltac:(by left)
    (proj1 ex_results) Hn1) as [H1 (l1 & Hal1)].
  destruct (al_fresh _ _ _ _ _ _ _ _ _ Hal1) as (lv1 & Hf1).
  pose proof (fresh_chain_inv _ _ _ _ _ _ _ Hf1 Hn1) as Hi1.
  destruct (after_alloc ex_s1 _ _ PBUF_RAW 700 PBUF_POOL 34256 Hi1
    ltac:(split; discriminate) ltac:(split; [discriminate|reflexivity]) ltac:(right; by left)
    (proj2 ex_results) Hn2) as [H2 _].
  destruct ex_two as (bh & bt & lt & live & Hi & Hh & _ & _ & Ht & _ & _ & _ & Hnin).
  assert (∀ x, x ∈ [(4102, bh)].*1 → x ∉ lt.*1) as Hd.
  { intros x Hx. apply list_elem_of_singleton in Hx as ->. exact Hnin. }
  destruct (cat_step ex_s2 live _ 4102 34256 _ lt Hi ltac:(reflexivity) Hh (proj1 (proj2 Ht)) Hd)
    as (s3 & l0 & q & bq & bt' & _ & _ & H3 & Hi3 & _).
  destruct (inv_own_chain _ _ _ 4102 Hi3 ltac:(reflexivity)) as (b & l & _ & Hb & Hc).
  destruct (pbuf_free_run ex_cff s3 live _ 4102 _ Hi3 ltac:(reflexivity) (chained_cons _ _ _ _ Hn1 Hb Hc))
    as (n & B' & live' & m' & _ & H4 & _).
  assert (pexec ex_cff ex_s2 (ECat 4102 34256) = Ret (0, s3) []) as H3'.
  { cbn [pexec]. rewrite H3. reflexivity. }
  set (s4 := Pst m' B' (data s3) (pbuf_free_ooseq_pending s3)) in *.
  assert (run ex_cff ex_s0 own0 [(EAlloc PBUF_TRANSPORT 100 PBUF_RAM, 4102); (EAlloc PBUF_RAW 700 PBUF_POOL, 34256);
    (ECat 4102 34256, 0); (EFree 4102, u8 n)] s4
    (add_own (add_own (add_own (add_own own0 4102 1) 34256 1) 34256 (-1)) 4102 (-1))) as Hrun.
  { eapply run_cons; [|exact H1|].
    { split; [split; discriminate|]. split; [split; [discriminate|reflexivity]|by left]. }
    eapply run_cons; [|exact H2|].
    { split; [split; discriminate|]. split; [split; [discriminate|reflexivity]|right; by left]. }
    eapply run_cons; [| |].
    { split; [reflexivity|]. exists [(4102, bh)], lt. split; [exact Hh|]. split; [apply Ht|exact Hd]. }
    { exact H3'. }
    eapply run_cons; [reflexivity|exact H4|]. apply run_nil. }
  eexists _, s4, _. split; [|split; [exact Hrun|]]; [reflexivity|].
  exact (pbuf_run_no_leak ex_cff ex_s0 ∅ own0 _ _ _ ex_s0_inv Hrun ex_free_own).
Defined.

Lemma pbuf_free_spec_witness : ∃ l live n B' live' m', chained (pbufs ex_s2) 34256 l ∧
  afree l (pbufs ex_s2) live = (n, B', live') ∧
  pbuf_free ex_cff ex_s2 34256 =
    Clean (u8 n, Pst m' B' (data ex_s2) (pbuf_free_ooseq_pending ex_s2)) ∧ pa_ok m' live'.
Proof.
  destruct ex_two as (bh & bt & lt & live & Hi & _ & _ & _ & (_ & Ht & _) & _).
  destruct (pbuf_free_spec ex_cff ex_s2 live _ 34256 lt Hi ltac:(reflexivity) Ht)
    as (n & B' & live' & m' & H1 & H2 & H3 & _).
  exists lt, live, n, B', live', m'. split; [exact Ht|]. split; [exact H1|]. split; [exact H2|exact H3].
Defined.

Lemma pbuf_alloc_spec_witness : ∃ r s', pbuf_alloc ex_cff ex_s0 PBUF_TRANSPORT 100 PBUF_RAM = Clean (r, s') ∧
  data s' = data ex_s0.
Proof.
  destruct (pbuf_alloc_spec ex_cff ex_s0 ∅ own0 PBUF_TRANSPORT 100 PBUF_RAM ex_s0_inv
    ltac:(split; discriminate) ltac:(split; [discriminate|reflexivity]) ltac:(by left)) as (r & s' & H1 & H2 & _).
  exists r, s'. split; [exact H1|exact H2].
Defined.

Lemma pbuf_cat_spec_witness : ∃ lh lt s' l, pbuf_cat ex_s2 4102 34256 = Clean s' ∧
  is_packet s' 4102 l ∧ lens lh + lens lt = 800 ∧
  content (data s') l = content (data ex_s2) lh ++ content (data ex_s2) lt.
Proof.
  destruct ex_two as (bh & bt & lt & live & Hi & Hh & Hlen & _ & Ht & Hlt & _ & _ & Hnin).
  assert (∀ x, x ∈ [(4102, bh)].*1 → x ∉ lt.*1) as Hd.
  { intros x Hx. apply list_elem_of_singleton in Hx as ->. exact Hnin. }
  assert (lens [(4102, bh)] + lens lt = 800) as Hs by (cbn [lens]; lia).
  destruct (pbuf_cat_spec ex_s2 live _ 4102 34256 [(4102, bh)] lt Hi ltac:(reflexivity) Hh Ht Hd
    ltac:(lia)) as (s' & l & H1 & _ & H2 & _ & _ & H3).
  exists [(4102, bh)], lt, s', l. split; [exact H1|]. split; [exact H2|]. split; [exact Hs|exact H3].
Defined.

Lemma pbuf_chain_dechain_witness : ∃ s1 s2, pbuf_chain ex_s2 4102 34256 = Clean s1 ∧
  pbuf_dechain ex_cff s1 4102 = Clean (34256, s2) ∧ pbufs s2 = pbufs ex_s2.
Proof.
  destruct ex_two as (bh & bt & lt & live & Hi & Hh & Hlen & _ & Ht & Hlt & Hbt & Href & Hnin).
  assert (length lt < 256)%nat as Hl.
  { destruct Ht as (_ & Hc & _). apply chained_length in Hc. pose proof ex_size. lia. }
  destruct (pbuf_chain_dechain ex_cff ex_s2 live _ 4102 bh 34256 lt bt Hi ltac:(reflexivity) Hh Ht Hnin Hl
    ltac:(lia) Hbt ltac:(lia)) as (s1 & s2 & H1 & H2 & H3 & _).
  exists s1, s2. split; [exact H1|]. split; [exact H2|exact H3].
Defined.

Lemma pbuf_realloc_spec_witness : ∃ s' log l l', is_packet ex_s2 34256 l ∧ lens l = 700 ∧
  pbuf_realloc ex_cff ex_s2 34256 650 = Ret s' log ∧ is_packet s' 34256 l' ∧ lens l' = 650 ∧
  content (data ex_s2) l' = take 650 (content (data ex_s2) l).
Proof.
  destruct ex_two as (bh & bt & lt & live & Hi & _ & _ & _ & Ht & Hlt & _).
  destruct (pbuf_realloc_spec ex_cff ex_s2 live _ 34256 650 lt Hi ltac:(split; [discriminate|reflexivity]) Ht)
    as (s' & live' & log & l' & H1 & _ & _ & H2 & H3 & _ & H4).
  exists s', log, lt, l'. split; [exact Ht|]. split; [exact Hlt|]. split; [exact H1|]. split; [exact H2|].
  split; [rewrite H3, Hlt; reflexivity|exact H4].
Defined.

Lemma ex_head : ∃ live own b, inv ex_s2 live own ∧ pbufs ex_s2 !! 4102 = Some b ∧ len b = 100 ∧
  tot_len b = 100 ∧ payload b = 4174 ∧ contiguous b.
Proof.
  destruct ex_two as (bh & bt & lt & live & Hi & Hh & Hlen & Hpay & _).
  destruct (is_packet_head _ _ _ Hh) as (b & l' & Heq & _ & Hb & _ & Htot & _).
  injection Heq as <- <-. eexists live, _, bh. split; [exact Hi|]. split; [exact Hb|].
  split; [done|]. split; [cbn in Htot; lia|]. split; [exact Hpay|].
  pose proof ex_type as Hty. rewrite Hb in Hty. injection Hty as Hty. unfold contiguous. by rewrite Hty.
Qed.

Lemma pbuf_add_header_spec_witness : ∃ b s1, pbufs ex_s2 !! 4102 = Some b ∧
  pbuf_add_header ex_s2 4102 20 = Clean (0, s1) ∧ pbuf_add_header ex_s2 4102 57 = Clean (1, ex_s2).
Proof.
  destruct ex_head as (live & own & b & Hi & Hb & Hlen & Htot & Hpay & Hc).
  destruct (pbuf_add_header_spec ex_s2 live own 4102 b 20 Hi Hb ltac:(reflexivity) ltac:(lia)) as [H1 _].
  destruct (pbuf_add_header_spec ex_s2 live own 4102 b 57 Hi Hb ltac:(reflexivity) ltac:(lia)) as [_ H2].
  destruct H1 as [H1 _]; [split; [lia|]; split; [lia|]; split; [exact Hc|unfold SIZEOF_STRUCT_PBUF; lia]|].
  eexists b, _. split; [exact Hb|]. split; [exact H1|]. apply H2. unfold SIZEOF_STRUCT_PBUF. lia.
Defined.

Lemma pbuf_header_roundtrip_witness : ∃ s1, pbuf_header ex_s2 4102 20 = Clean (0, s1) ∧
  pbuf_header s1 4102 (-20) = Clean (0, ex_s2).
Proof.
  destruct ex_head as (live & own & b & Hi & Hb & Hlen & Htot & Hpay & Hc).
  destruct (add_header_run ex_s2 live own 4102 b 20 false Hi Hb ltac:(reflexivity)) as [H1 _].
  destruct H1 as [H1 _].
  { split; [lia|]. split; [lia|]. split; [unfold SIZEOF_STRUCT_PBUF; lia|intros Hno; destruct (Hno Hc)]. }
  exists (upd ex_s2 4102 (grow b 20)). split; [exact H1|].
  exact (pbuf_header_roundtrip ex_s2 live own 4102 b 20 _ Hi Hb (conj eq_refl eq_refl) ltac:(lia) H1).
Defined.
