(* ===== verification/PbufData.v ===== *)
(** * The bytes of a packet

    The functions of pbuf.c that read, write, copy, compare and search packet contents,
    against the packet as one list of bytes ([content]). *)
From S2P Require Import Prelude Iface Pbuf PbufChain.

(** ** Memory *)

(** All bytes of [a .. a+n-1] exist. *)
Definition mapped (d : gmap Z Z) (a n : Z) : Prop := ∀ x, a ≤ x < a + n → is_Some (d !! x).

Definition apart (a n b m : Z) : Prop := n ≤ 0 ∨ m ≤ 0 ∨ a + n ≤ b ∨ b + m ≤ a.

(** [d'] is [d] after copying [n] bytes from [src] to [dst]. *)
Definition copied (d d' : gmap Z Z) (dst src n : Z) : Prop :=
  ∀ x, d' !! x = if decide (dst ≤ x < dst + n) then d !! (src + (x - dst)) else d !! x.

Lemma memcpy_spec n : ∀ d dst src, mapped d src (Z.of_nat n) → mapped d dst (Z.of_nat n) →
  apart dst (Z.of_nat n) src (Z.of_nat n) →
  ∃ d', memcpy d dst src n = Clean d' ∧ copied d d' dst src (Z.of_nat n).
Proof.
  induction n as [|n IH]; intros d dst src Hs Hd Ha.
  - exists d. split; [done|]. intros x. rewrite decide_False by lia. done.
  - destruct (Hs src) as [v Hv]; [lia|]. destruct (Hd dst) as [w Hw]; [lia|]. cbn [memcpy].
    rewrite Hv, Hw. out_simp. unfold apart in Ha.
    destruct (IH (<[dst:=v]> d) (dst + 1) (src + 1)) as (d' & -> & Hc).
    + intros x Hx. apply lookup_insert_is_Some'. right. apply Hs. lia.
    + intros x Hx. apply lookup_insert_is_Some'. right. apply Hd. lia.
    + unfold apart. lia.
    + exists d'. split; [done|]. intros x. rewrite (Hc x). destruct (decide (x = dst)) as [->|Hne].
      * rewrite decide_False, lookup_insert_eq, decide_True by lia. by rewrite Z.sub_diag, Z.add_0_r.
      * destruct (decide (dst ≤ x < dst + Z.of_nat (S n))) as [Hin|Hout].
        -- rewrite decide_True by lia. replace (src + 1 + (x - (dst + 1))) with (src + (x - dst)) by lia.
           apply lookup_insert_ne. lia.
        -- rewrite decide_False by lia. by apply lookup_insert_ne.
Qed.

Lemma seg_lookup d a n i : (i < Z.to_nat n)%nat → seg d a n !! i = Some (d !! (a + Z.of_nat i)).
Proof.
  intros Hi. unfold seg. rewrite list_lookup_fmap, lookup_seqZ_lt by lia. done.
Qed.

Lemma seg_ext d d' a b n : (∀ i, 0 ≤ i < n → d !! (a + i) = d' !! (b + i)) → seg d a n = seg d' b n.
Proof.
  intros H. apply list_eq_same_length with (Z.to_nat n); [apply seg_length|apply seg_length|].
  intros i x y Hi. rewrite !seg_lookup by lia. intros [= <-] [= <-]. apply H. lia.
Qed.

Lemma seg_app d a n m : 0 ≤ n → 0 ≤ m → seg d a (n + m) = seg d a n ++ seg d (a + n) m.
Proof. intros Hn Hm. unfold seg. by rewrite seqZ_app, fmap_app by lia. Qed.

Lemma seg_insert_out d a n x v : ¬ (a ≤ x < a + n) → seg (<[x:=v]> d) a n = seg d a n.
Proof. intros Hx. apply seg_ext. intros i Hi. apply lookup_insert_ne. lia. Qed.

Lemma seg_insert_in d a n x v : a ≤ x < a + n →
  seg (<[x:=v]> d) a n = <[Z.to_nat (x - a) := Some v]> (seg d a n).
Proof.
  intros Hx. apply list_eq_same_length with (Z.to_nat n); rewrite ?length_insert, ?seg_length; [done..|].
  intros i u w Hi. rewrite seg_lookup by done. intros [= <-].
  destruct (decide (i = Z.to_nat (x - a))) as [->|Hne].
  - rewrite list_lookup_insert_eq by (rewrite seg_length; lia). intros [= <-].
    rewrite Z2Nat.id by lia. replace (a + (x - a)) with x by lia. apply lookup_insert_eq.
  - rewrite list_lookup_insert_ne, seg_lookup by done. intros [= <-]. apply lookup_insert_ne. lia.
Qed.

Lemma seg_split d a n k : 0 ≤ k ≤ n → seg d a n = seg d a k ++ seg d (a + k) (n - k).
Proof. intros Hk. rewrite <- seg_app by lia. f_equal. lia. Qed.

Lemma seg_drop d a n k : 0 ≤ k ≤ n → drop (Z.to_nat k) (seg d a n) = seg d (a + k) (n - k).
Proof.
  intros Hk. replace n with (k + (n - k)) at 1 by lia. rewrite seg_app by lia.
  by rewrite drop_app_ge, seg_length, Nat.sub_diag by (rewrite seg_length; lia).
Qed.

Lemma seg_nil d a n : n ≤ 0 → seg d a n = [].
Proof. intros Hn. apply nil_length_inv. rewrite seg_length. lia. Qed.

Lemma copied_seg d d' dst src n : copied d d' dst src n → seg d' dst n = seg d src n.
Proof.
  intros Hc. apply seg_ext. intros i Hi. rewrite (Hc _), decide_True by lia. f_equal. lia.
Qed.

Lemma copied_apart d d' dst src n a m : copied d d' dst src n → apart dst n a m →
  seg d' a m = seg d a m.
Proof.
  intros Hc Ha. unfold apart in Ha. apply seg_ext. intros i Hi. rewrite (Hc _), decide_False by lia. done.
Qed.

Lemma copied_mapped d d' dst src n a m : copied d d' dst src n → mapped d src n → mapped d a m → mapped d' a m.
Proof.
  intros Hc Hs Hm x Hx. rewrite (Hc x). case_decide; [apply Hs; lia|by apply Hm].
Qed.

(** ** Packets as lists of bytes *)

Definition wf_lens (l : list (Z * pbuf)) : Prop := Forall (λ kv, is_u16 (len kv.2)) l.

Lemma wf_lens_pos l : wf_lens l → Forall (λ kv, 0 ≤ len kv.2) l.
Proof. intros H. apply (Forall_impl _ _ _ H). intros kv [? _]. done. Qed.

Lemma wf_lens_nonneg l : wf_lens l → 0 ≤ lens l.
Proof. intros H. by apply lens_nonneg, wf_lens_pos. Qed.

Lemma content_lookup d l0 q b l2 r : wf_lens l0 → 0 ≤ r < len b →
  content d (l0 ++ (q, b) :: l2) !! Z.to_nat (lens l0 + r) = Some (d !! (payload b + r)).
Proof.
  intros Hw Hr. pose proof (wf_lens_nonneg _ Hw).
  rewrite content_app, content_cons, lookup_app_r; rewrite (content_length _ _ (wf_lens_pos _ Hw)); [|lia].
  replace (Z.to_nat (lens l0 + r) - Z.to_nat (lens l0))%nat with (Z.to_nat r) by lia.
  rewrite lookup_app_l by (rewrite seg_length; lia). rewrite seg_lookup by lia.
  by rewrite Z2Nat.id by lia.
Qed.

(** The packet as a whole can be accessed. *)
Definition all_mapped (d : gmap Z Z) (l : list (Z * pbuf)) : Prop :=
  Forall (λ kv, mapped d (payload kv.2) (len kv.2)) l.

(** No two of its buffers overlap. *)
Fixpoint separate (l : list (Z * pbuf)) : Prop :=
  match l with
  | [] => True
  | (_, b) :: l' => Forall (λ kv, apart (payload b) (len b) (payload kv.2) (len kv.2)) l' ∧ separate l'
  end.

(** The caller's buffer [a .. a+n-1] is not part of the packet. *)
Definition foreign (l : list (Z * pbuf)) (a n : Z) : Prop :=
  Forall (λ kv, apart a n (payload kv.2) (len kv.2)) l.

Lemma content_frame d d' l : Forall (λ kv, seg d' (payload kv.2) (len kv.2) = seg d (payload kv.2) (len kv.2)) l →
  content d' l = content d l.
Proof. induction 1 as [|[p b] l Hb Hl IH]; [done|]. rewrite !content_cons, IH. cbn in Hb. by rewrite Hb. Qed.

Lemma copied_content d d' dst src n l : copied d d' dst src n → foreign l dst n → content d' l = content d l.
Proof.
  intros Hc Hf. apply content_frame. apply (Forall_impl _ _ _ Hf). intros [p b] Ha. by eapply copied_apart.
Qed.

Lemma copied_all_mapped d d' dst src n l : copied d d' dst src n → mapped d src n → all_mapped d l → all_mapped d' l.
Proof. intros Hc Hs Ha. apply (Forall_impl _ _ _ Ha). intros [p b] Hm. by eapply copied_mapped. Qed.

Section Data.
Context {M : Type}.
Abbreviation pst := (@pst M).

(** A packet the functions of this file are called on. *)
Record readable (s : pst) (p : Z) (l : list (Z * pbuf)) : Prop := Readable {
  rd_chain : chained (pbufs s) p l;
  rd_lens : wf_lens l;
  rd_mapped : all_mapped (data s) l }.

Lemma readable_fuel s p l : readable s p l → (length l ≤ chain_fuel s)%nat.
Proof. intros [Hc _ _]. apply chained_length in Hc. unfold chain_fuel. lia. Qed.

(** ** Finding a position *)

Lemma skip_loop_spec l : ∀ fuel (s : pst) q off, chained (pbufs s) q l → wf_lens l →
  (length l ≤ fuel)%nat → is_u16 off →
  (off < lens l → ∃ l0 q' b l2 r, l = l0 ++ (q', b) :: l2 ∧ off = lens l0 + r ∧ 0 ≤ r < len b ∧
     skip_loop fuel s q off = Clean (q', r)) ∧
  (lens l ≤ off → skip_loop fuel s q off = Clean (NULL, off - lens l)).
Proof.
  induction l as [|[p b] l IH]; intros fuel s q off Hc Hw Hf Hoff.
  - inversion Hc; subst. unfold is_u16 in Hoff. split; [cbn; lia|]. intros _. destruct fuel; cbn; by rewrite Z.sub_0_r.
  - apply chained_inv_cons in Hc as (-> & Hq & Hb & Hc). cbn [length] in Hf. destruct fuel as [|fuel]; [lia|].
    apply Forall_cons in Hw as [Hlb Hw]. cbn in Hlb. pose proof (wf_lens_nonneg _ Hw). unfold is_u16 in *.
    cbn [skip_loop lens]. rewrite (proj2 (Z.eqb_neq q NULL)) by done. unfold get. rewrite Hb. out_simp.
    destruct (Z.leb_spec (len b) off) as [Hle|Hlt].
    + rewrite u16_id by (unfold is_u16; lia).
      destruct (IH fuel s (next b) (off - len b) Hc Hw) as [H1 H2]; [lia|lia|]. split.
      * intros Hlt. destruct H1 as (l0 & q' & b' & l2 & r & -> & Ho & Hr & Hs); [lia|].
        exists ((q, b) :: l0), q', b', l2, r. cbn [lens app]. split_and!; [done|lia|lia|lia|done].
      * intros Hge. rewrite H2 by lia. do 2 f_equal. lia.
    + split; [|lia]. intros _. exists [], q, b, l, off. cbn. split_and!; [done..|lia|lia|done].
Qed.

Lemma skip_found s p l off : readable s p l → 0 ≤ off < lens l → off < 65536 →
  ∃ l0 q b l2 r, l = l0 ++ (q, b) :: l2 ∧ off = lens l0 + r ∧ 0 ≤ r < len b ∧ q ≠ NULL ∧
    pbufs s !! q = Some b ∧ pbuf_skip_const s p off = Clean (q, r) ∧ is_Some (data s !! (payload b + r)).
Proof.
  intros Hr Hoff Hu. destruct (skip_loop_spec l (chain_fuel s) s p off) as [H _];
    [apply Hr|apply Hr|by eapply readable_fuel|unfold is_u16; lia|].
  destruct H as (l0 & q & b & l2 & r & -> & Ho & Hrb & Hs); [lia|].
  assert ((q, b) ∈ l0 ++ (q, b) :: l2) as Hin by (apply elem_of_app; right; by left).
  destruct (chained_elem _ _ _ _ _ (rd_chain _ _ _ Hr) Hin) as [Hq Hb].
  exists l0, q, b, l2, r. split_and!; try done; try lia.
  pose proof (rd_mapped _ _ _ Hr) as Hm. unfold all_mapped in Hm. rewrite Forall_forall in Hm. apply (Hm _ Hin). cbn. lia.
Qed.

Lemma skip_beyond s p l off : readable s p l → lens l ≤ off → is_u16 off →
  pbuf_skip_const s p off = Clean (NULL, off - lens l).
Proof.
  intros Hr Hoff Hu. destruct (skip_loop_spec l (chain_fuel s) s p off) as [_ H];
    [apply Hr|apply Hr|by eapply readable_fuel|done|]. by apply H.
Qed.

Lemma prefix_wf l0 q b l2 : wf_lens (l0 ++ (q, b) :: l2) → wf_lens l0.
Proof. intros H. by apply Forall_app in H as [? _]. Qed.

(** ** Single bytes *)

Lemma try_get_at_run s p l off v : readable s p l → is_u16 off →
  content (data s) l !! Z.to_nat off = Some (Some v) → pbuf_try_get_at s p off = Clean v.
Proof.
  intros Hr Hu Hv. unfold is_u16 in Hu.
  assert (off < lens l) as Hlt.
  { apply lookup_lt_Some in Hv. rewrite (content_length _ _ (wf_lens_pos _ (rd_lens _ _ _ Hr))) in Hv. lia. }
  destruct (skip_found s p l off Hr) as (l0 & q & b & l2 & r & -> & Ho & Hrb & Hq & Hb & Hs & Hm); [lia|lia|].
  rewrite Ho, content_lookup in Hv; [|by eapply prefix_wf, Hr|done]. injection Hv as Hv.
  unfold pbuf_try_get_at. rewrite Hs. out_simp. rewrite (proj2 (Z.eqb_neq q NULL)) by done.
  unfold get. rewrite Hb. out_simp. rewrite (proj2 (Z.ltb_lt r (len b))) by lia. by rewrite Hv.
Qed.

Lemma try_get_at_beyond s p l off : readable s p l → is_u16 off → lens l ≤ off →
  pbuf_try_get_at s p off = Clean (-1).
Proof. intros Hr Hu Hle. unfold pbuf_try_get_at. by rewrite (skip_beyond s p l off). Qed.

Lemma content_mapped d l : all_mapped d l → Forall (λ o, is_Some o) (content d l).
Proof.
  induction 1 as [|[p b] l Hb Hl IH]; [constructor|]. rewrite content_cons. apply Forall_app. split; [|done].
  apply Forall_lookup. intros i x Hi. pose proof (lookup_lt_Some _ _ _ Hi) as Hlt. rewrite seg_length in Hlt.
  rewrite seg_lookup in Hi by done. injection Hi as <-. apply Hb. cbn. lia.
Qed.

(** Every position of the packet holds a byte. *)
Lemma content_byte s p l off : readable s p l → 0 ≤ off < lens l →
  ∃ v, content (data s) l !! Z.to_nat off = Some (Some v).
Proof.
  intros Hr Hoff. destruct (lookup_lt_is_Some_2 (content (data s) l) (Z.to_nat off)) as [o Ho].
  { rewrite (content_length _ _ (wf_lens_pos _ (rd_lens _ _ _ Hr))). lia. }
  pose proof (content_mapped _ _ (rd_mapped _ _ _ Hr)) as Hm. rewrite Forall_lookup in Hm.
  destruct (Hm _ _ Ho) as [v ->]. eauto.
Qed.

Definition bytes_ok (d : gmap Z Z) : Prop := ∀ x v, d !! x = Some v → is_u8 v.

(** The byte at a position, 0 beyond the packet. *)
Definition byte_at (d : gmap Z Z) (l : list (Z * pbuf)) (off : Z) : Z :=
  match content d l !! Z.to_nat off with Some (Some v) => v | _ => 0 end.

Lemma content_u8 d l i v : bytes_ok d → content d l !! i = Some (Some v) → is_u8 v.
Proof.
  intros Hd. revert i. induction l as [|[p b] l IH]; intros i; [done|].
  rewrite content_cons, lookup_app_Some. intros [Hi|[_ Hi]]; [|by eapply IH].
  pose proof (lookup_lt_Some _ _ _ Hi) as Hlt. rewrite seg_length in Hlt.
  rewrite seg_lookup in Hi by done. injection Hi as Hi. by eapply Hd.
Qed.

Lemma byte_at_u8 d l off : bytes_ok d → is_u8 (byte_at d l off).
Proof.
  intros Hd. unfold byte_at. destruct (content d l !! Z.to_nat off) as [[v|]|] eqn:E; [|done..].
  by eapply content_u8.
Qed.

Lemma get_at_run s p l off : readable s p l → bytes_ok (data s) → is_u16 off →
  pbuf_get_at s p off = Clean (byte_at (data s) l off).
Proof.
  intros Hr Hd Hu. unfold pbuf_get_at. unfold is_u16 in *. destruct (decide (off < lens l)) as [Hlt|Hge].
  - destruct (content_byte s p l off Hr) as [v Hv]; [lia|]. rewrite (try_get_at_run s p l off v) by done.
    pose proof (content_u8 _ _ _ _ Hd Hv) as Hv8. out_simp. unfold byte_at. rewrite Hv.
    rewrite u8_id by done. unfold is_u8 in Hv8. by rewrite (proj2 (Z.leb_le 0 v)) by lia.
  - rewrite (try_get_at_beyond s p l off) by (done || lia). out_simp. unfold byte_at.
    rewrite lookup_ge_None_2; [done|].
    rewrite (content_length _ _ (wf_lens_pos _ (rd_lens _ _ _ Hr))). lia.
Qed.

Lemma readable_suffix s p l0 q b l2 : readable s p (l0 ++ (q, b) :: l2) → readable s q ((q, b) :: l2).
Proof.
  intros [H1 H2 H3]. split; [by eapply chained_suffix|by apply Forall_app in H2 as [_ ?]|by apply Forall_app in H3 as [_ ?]].
Qed.

Lemma byte_at_suffix d l0 l2 r : wf_lens l0 → 0 ≤ r → byte_at d (l0 ++ l2) (lens l0 + r) = byte_at d l2 r.
Proof.
  intros Hw Hr. pose proof (wf_lens_nonneg _ Hw). unfold byte_at.
  rewrite content_app, lookup_app_r; rewrite (content_length _ _ (wf_lens_pos _ Hw)); [|lia].
  by replace (Z.to_nat (lens l0 + r) - Z.to_nat (lens l0))%nat with (Z.to_nat r) by lia.
Qed.

(** ** Comparing *)

Lemma memcmp_loop_spec (A Bv : Z → Z) n (s : pst) q start s2 : n < 65536 →
  (∀ j, 0 ≤ j < n → pbuf_get_at s q (u16 (start + j)) = Clean (A j)) →
  (∀ j, 0 ≤ j < n → data s !! (s2 + j) = Some (Bv j)) →
  ∀ k i, 0 ≤ i → i + Z.of_nat k = n → ∃ r, memcmp_loop k s q start s2 i = Clean r ∧
    (r = 0 → ∀ j, i ≤ j < n → A j = Bv j) ∧
    (r ≠ 0 → i < r ≤ n ∧ (∀ j, i ≤ j < r - 1 → A j = Bv j) ∧ A (r - 1) ≠ Bv (r - 1)).
Proof.
  intros Hn HA HB k. induction k as [|k IH]; intros i Hi Hik; cbn [memcmp_loop].
  - exists 0. split; [done|]. split; [intros _ j Hj; lia|done].
  - rewrite HA, HB by lia. out_simp. destruct (Z.eqb_spec (A i) (Bv i)) as [Heq|Hne]; cbn [negb].
    + rewrite u16_id by (unfold is_u16; lia). destruct (IH (i + 1)) as (r & -> & H1 & H2); [lia|lia|].
      exists r. split; [done|]. split.
      * intros Hr j Hj. destruct (decide (j = i)) as [->|]; [done|]. apply H1; [done|lia].
      * intros Hr. destruct (H2 Hr) as (Hr1 & Hr2 & Hr3). split; [lia|]. split; [|done].
        intros j Hj. destruct (decide (j = i)) as [->|]; [done|]. apply Hr2. lia.
    + exists (i + 1). rewrite Z.min_l, u16_id by (unfold is_u16; lia). split; [done|]. split; [lia|].
      intros _. split; [lia|]. split; [intros j Hj; lia|]. by replace (i + 1 - 1) with i by lia.
Qed.

(** The packet as its users see it: bytes, and [tot_len] of its first struct. *)
Definition packet_at (s : pst) (p : Z) (l : list (Z * pbuf)) : Prop :=
  readable s p l ∧ packet l ∧ l ≠ [] ∧ lens l < 65536 ∧ bytes_ok (data s).

Lemma packet_at_head s p l : packet_at s p l → ∃ b, p ≠ NULL ∧ pbufs s !! p = Some b ∧ tot_len b = lens l.
Proof.
  intros (Hr & Hp & Hne & _). destruct l as [|[q b] l]; [done|].
  pose proof (rd_chain _ _ _ Hr) as Hc. apply chained_inv_cons in Hc as (-> & Hq & Hb & _).
  destruct Hp as [Ht _]. exists b. done.
Qed.

(** Position [i] of the packet agrees with the [n] bytes at [s2] up to index [k]. *)
Definition agree (s : pst) (l : list (Z * pbuf)) (off s2 k : Z) : Prop :=
  ∀ j, 0 ≤ j < k → data s !! (s2 + j) = Some (byte_at (data s) l (off + j)).

Lemma memcmp_run s p l off s2 n : packet_at s p l → is_u16 off → 0 ≤ n → mapped (data s) s2 n →
  (lens l < off + n → pbuf_memcmp s p off s2 n = Clean 0xffff) ∧
  (off + n ≤ lens l → ∃ r, pbuf_memcmp s p off s2 n = Clean r ∧
     (r = 0 ↔ agree s l off s2 n) ∧ (r ≠ 0 → 0 < r ≤ n ∧ agree s l off s2 (r - 1) ∧ ¬ agree s l off s2 r)).
Proof.
  intros Hp Hoff Hn Hm. destruct (packet_at_head _ _ _ Hp) as (b & Hp0 & Hb & Htot).
  destruct Hp as (Hr & Hpk & Hne & Hl & Hbytes). unfold pbuf_memcmp, get. rewrite Hb. out_simp. rewrite Htot.
  unfold is_u16 in Hoff. split; [intros H; by rewrite (proj2 (Z.ltb_lt (lens l) _)) by lia|].
  intros Hle. rewrite (proj2 (Z.ltb_ge (lens l) _)) by lia.
  assert (∀ j, 0 ≤ j < n → ∃ v, data s !! (s2 + j) = Some v) as Hex by (intros j Hj; apply Hm; lia).
  set (Bv := λ j, default 0 (data s !! (s2 + j))).
  assert (∀ j, 0 ≤ j < n → data s !! (s2 + j) = Some (Bv j)) as HB.
  { intros j Hj. unfold Bv. destruct (Hex j Hj) as [v ->]. done. }
  assert (∀ k, k ≤ n → agree s l off s2 k ↔ ∀ j, 0 ≤ j < k → byte_at (data s) l (off + j) = Bv j) as Hag.
  { intros k Hk. unfold agree. split; intros H j Hj; specialize (H j Hj).
    - rewrite HB in H by lia. by injection H.
    - rewrite H. apply HB. lia. }
  assert (∃ q start, skip_loop (chain_fuel s) s p off = Clean (q, start) ∧
    ∀ j, 0 ≤ j < n → pbuf_get_at s q (u16 (start + j)) = Clean (byte_at (data s) l (off + j))) as (q & start & -> & HA).
  { destruct (decide (off < lens l)) as [Hlt|Hge].
    - destruct (skip_found s p l off Hr) as (l0 & q & c & l2 & r & -> & Ho & Hrc & Hq & Hc & Hs & _); [lia|lia|].
      exists q, r. split; [exact Hs|]. intros j Hj. pose proof (prefix_wf _ _ _ _ (rd_lens _ _ _ Hr)) as Hw0.
      pose proof (wf_lens_nonneg _ Hw0). rewrite u16_id by (unfold is_u16; lia).
      rewrite (get_at_run s q ((q, c) :: l2)); [|by eapply readable_suffix|done|unfold is_u16; lia].
      rewrite Ho, <- Z.add_assoc, byte_at_suffix by (done || lia). done.
    - eexists _, _. split; [apply (skip_beyond s p l off Hr); [lia|done]|]. intros j Hj. lia. }
  out_simp. destruct (memcmp_loop_spec (λ j, byte_at (data s) l (off + j)) Bv n s q start s2) with (k := Z.to_nat n) (i := 0)
    as (r & Hrun & H0 & H1); [lia|done|done|lia|lia|].
  exists r. split; [done|]. split.
  - rewrite Hag by lia. split; [done|]. intros Hall. destruct (decide (r = 0)) as [|Hr0]; [done|].
    destruct (H1 Hr0) as (Hr1 & _ & Hneq). destruct Hneq. apply Hall. lia.
  - intros Hr0. destruct (H1 Hr0) as (Hr1 & Hr2 & Hr3). split; [done|]. rewrite !Hag by lia. split; [done|].
    intros Hall. apply Hr3, Hall. lia.
Qed.

Lemma put_content d l0 q b l2 r v : wf_lens (l0 ++ (q, b) :: l2) → separate (l0 ++ (q, b) :: l2) → 0 ≤ r < len b →
  content (<[payload b + r:=v]> d) (l0 ++ (q, b) :: l2) =
  <[Z.to_nat (lens l0 + r) := Some v]> (content d (l0 ++ (q, b) :: l2)).
Proof.
  intros Hw Hsep Hr. induction l0 as [|[q0 b0] l0 IH]; cbn [app lens].
  - destruct Hsep as [Hsep _]. rewrite !content_cons, insert_app_l by (rewrite seg_length; lia). f_equal.
    + rewrite seg_insert_in by lia. do 2 f_equal. lia.
    + apply content_frame. apply (Forall_impl _ _ _ Hsep). intros kv Ha. apply seg_insert_out. unfold apart in Ha. lia.
  - destruct Hsep as [Hb0 Hsep]. apply Forall_cons in Hw as [Hw0 Hw]. cbn in Hw0.
    pose proof (wf_lens_nonneg _ (prefix_wf _ _ _ _ Hw)). unfold is_u16 in Hw0.
    rewrite !content_cons, IH by done.
    rewrite insert_app_r_alt by (rewrite seg_length; lia). f_equal.
    + apply seg_insert_out. rewrite Forall_forall in Hb0.
      specialize (Hb0 (q, b) ltac:(apply elem_of_app; right; by left)). cbn in Hb0. unfold apart in Hb0. lia.
    + f_equal. rewrite seg_length. lia.
Qed.

(** ** Searching *)

Lemma memfind_loop_spec s p l mem m mx : packet_at s p l → lens l < 65535 → 0 ≤ m → mapped (data s) mem m →
  m + mx = lens l → ∀ fuel i, 0 ≤ i → i ≤ mx + 1 → (Z.to_nat (mx + 1 - i) ≤ fuel)%nat →
  ∃ r, memfind_loop fuel s p mem m mx i = Clean r ∧
    ((r = 0xFFFF ∧ ∀ j, i ≤ j ≤ mx → ¬ agree s l j mem m) ∨
     (i ≤ r ≤ mx ∧ agree s l r mem m ∧ ∀ j, i ≤ j < r → ¬ agree s l j mem m)).
Proof.
  intros Hp Hl Hm Hmap Hmx fuel. induction fuel as [|fuel IH]; intros i Hi Hle Hf; cbn [memfind_loop].
  - rewrite (proj2 (Z.ltb_lt mx i)) by lia. exists 0xFFFF. split; [done|]. left. split; [done|]. intros j Hj. lia.
  - destruct (Z.ltb_spec mx i) as [Hend|Hmore].
    { exists 0xFFFF. split; [done|]. left. split; [done|]. intros j Hj. lia. }
    destruct (memcmp_run s p l i mem m Hp) as [_ Hcmp]; [unfold is_u16; lia|done|done|].
    destruct Hcmp as (plus & -> & H0 & _); [lia|]. out_simp.
    destruct (Z.eqb_spec plus 0) as [Hz|Hnz].
    + exists i. split; [done|]. right. split; [lia|]. split; [by apply H0|]. intros j Hj. lia.
    + rewrite u16_id by (unfold is_u16; lia). destruct (IH (i + 1)) as (r & -> & Hr); [lia..|].
      exists r. split; [done|].
      assert (¬ agree s l i mem m) as Hno by (by rewrite <- H0).
      destruct Hr as [[-> Hr]|(Hr1 & Hr2 & Hr3)]; [left|right].
      * split; [done|]. intros j Hj. destruct (decide (j = i)) as [->|]; [done|]. apply Hr. lia.
      * split; [lia|]. split; [done|]. intros j Hj. destruct (decide (j = i)) as [->|]; [done|]. apply Hr3. lia.
Qed.

(** ** Copying *)

Lemma copy_bytes_run (s : pst) dst src n : 0 ≤ n → mapped (data s) src n → mapped (data s) dst n →
  apart dst n src n → ∃ d', copy_bytes s dst src n = Clean (set_data s d') ∧ copied (data s) d' dst src n.
Proof.
  intros Hn Hs Hd Ha. destruct (memcpy_spec (Z.to_nat n) (data s) dst src) as (d' & H1 & H2);
    [by rewrite Z2Nat.id..|]. rewrite Z2Nat.id in H2 by done.
  exists d'. split; [|done]. unfold copy_bytes. rewrite H1. by out_simp.
Qed.

Lemma apart_sub a n b m a' n' b' m' : apart a n b m → a ≤ a' → a' + n' ≤ a + n → b ≤ b' → b' + m' ≤ b + m →
  apart a' n' b' m'.
Proof. unfold apart. lia. Qed.

Lemma readable_copied s p l d' dst src n : readable s p l → copied (data s) d' dst src n →
  mapped (data s) src n → readable (set_data s d') p l.
Proof. intros [H1 H2 H3] Hc Hm. split; [done|done|]. by eapply copied_all_mapped. Qed.

Lemma readable_tail s p q b l : readable s p ((q, b) :: l) → q = p ∧ p ≠ NULL ∧ pbufs s !! p = Some b ∧
  is_u16 (len b) ∧ mapped (data s) (payload b) (len b) ∧ readable s (next b) l.
Proof.
  intros [Hc Hw Hm]. apply chained_inv_cons in Hc as (-> & Hp & Hb & Hc).
  apply Forall_cons in Hw as [? ?]. apply Forall_cons in Hm as [? ?]. done.
Qed.

Lemma take_seg_app d a n c k (T : list (option Z)) : 0 ≤ c ≤ n → 0 ≤ k → (c < n → k = 0) →
  take (Z.to_nat (c + k)) (seg d a n ++ T) = seg d a c ++ take (Z.to_nat k) T.
Proof.
  intros Hc Hk Hck. rewrite Z2Nat.inj_add by lia. destruct (decide (c = n)) as [->|Hne].
  - rewrite take_app_ge by (rewrite seg_length; lia). rewrite seg_length. do 2 f_equal. lia.
  - rewrite Hck by lia. rewrite Nat.add_0_r, take_0, app_nil_r.
    rewrite take_app_le by (rewrite seg_length; lia). by apply seg_take.
Qed.

(** [d'] is [d] outside [a .. a+n-1]. *)
Definition same_outside (d d' : gmap Z Z) (a n : Z) : Prop := ∀ x, ¬ (a ≤ x < a + n) → d' !! x = d !! x.

Lemma copy_partial_loop_spec l : ∀ fuel s p dp n off left ct,
  readable s p l → (length l ≤ fuel)%nat → is_u16 off → 0 ≤ n → 0 ≤ left → left + n < 65536 → 0 ≤ ct →
  ct + n < 65536 → mapped (data s) (dp + left) n → foreign l (dp + left) n →
  let k := Z.min n (Z.max 0 (lens l - off)) in
  ∃ d', copy_partial_loop fuel s p dp n off left ct = Clean (ct + k, set_data s d') ∧
    seg d' (dp + left) k = take (Z.to_nat k) (drop (Z.to_nat off) (content (data s) l)) ∧
    same_outside (data s) d' (dp + left) k.
Proof.
  induction l as [|[q b] l IH]; intros fuel s p dp n off left ct Hr Hf Hoff Hn Hleft Hln Hct Hctn Hm Hfo k;
    unfold is_u16 in Hoff.
  - pose proof (rd_chain _ _ _ Hr) as Hc. inversion Hc; subst. exists (data s).
    assert (k = 0) as -> by (unfold k; cbn; lia). split; [|split; [by rewrite seg_nil|by intros x _]].
    rewrite Z.add_0_r. replace (set_data s (data s)) with s by (by destruct s).
    destruct fuel; cbn [copy_partial_loop]; by rewrite orb_true_r.
  - pose proof (wf_lens_nonneg _ (rd_lens _ _ _ Hr)) as Hl0. cbn [length] in Hf. destruct fuel as [|fuel]; [lia|].
    destruct (readable_tail _ _ _ _ _ Hr) as (-> & Hp & Hb & Hlen & Hmb & Hrl).
    pose proof (wf_lens_nonneg _ (rd_lens _ _ _ Hrl)) as Hl1.
    apply Forall_cons in Hfo as [Hfb Hfo]. cbn [snd] in Hfb. unfold is_u16 in Hlen. cbn [copy_partial_loop lens] in *.
    destruct (Z.eqb_spec n 0) as [->|Hn0]; cbn [orb].
    { exists (data s). assert (k = 0) as -> by (unfold k; lia). rewrite Z.add_0_r.
      replace (set_data s (data s)) with s by (by destruct s).
      split; [done|]. split; [by rewrite seg_nil|by intros x _]. }
    rewrite (proj2 (Z.eqb_neq p NULL)) by done. unfold get. rewrite Hb. out_simp.
    destruct (negb (off =? 0) && (len b <=? off)) eqn:Hskip.
    + apply andb_prop in Hskip as [_ Hle%Z.leb_le]. rewrite u16_id by (unfold is_u16; lia).
      destruct (IH fuel s (next b) dp n (off - len b) left ct Hrl) as (d' & H1 & H2 & H3);
        [lia|unfold is_u16; lia|done..|]. exists d'.
      replace (Z.min n (Z.max 0 (lens l - (off - len b)))) with k in * by (unfold k; lia).
      split; [done|]. split; [|done]. rewrite H2, content_cons. f_equal.
      rewrite drop_app_ge by (rewrite seg_length; lia). f_equal. rewrite seg_length. lia.
    + assert (off ≤ len b) as Hle.
      { apply andb_false_iff in Hskip as [?%negb_false_iff%Z.eqb_eq|?%Z.leb_gt]; lia. }
      rewrite (u16_id (len b - off)) by (unfold is_u16; lia).
      set (c := if n <? len b - off then n else len b - off).
      assert (c = Z.min n (len b - off)) as Hc by (unfold c; destruct (Z.ltb_spec n (len b - off)); lia).
      destruct (copy_bytes_run s (dp + left) (payload b + off) c) as (d1 & -> & Hd1);
        [lia|intros x Hx; apply Hmb; lia|intros x Hx; apply Hm; lia|
         apply (apart_sub _ _ _ _ _ _ _ _ Hfb); lia|]. out_simp.
      assert (mapped (data s) (payload b + off) c) as Hsrc by (intros x Hx; apply Hmb; lia).
      rewrite (u16_id (n - c)), (u16_id (left + c)), (u16_id (ct + c)) by (unfold is_u16; lia).
      destruct (IH fuel (set_data s d1) (next b) dp (n - c) 0 (left + c) (ct + c)) as (d2 & H1 & H2 & H3);
        [by eapply readable_copied|lia|done|lia|lia|lia|lia|lia| | |].
      { cbn. eapply copied_mapped; [done|done|]. intros x Hx. apply Hm. lia. }
      { apply (Forall_impl _ _ _ Hfo). intros kv Ha. apply (apart_sub _ _ _ _ _ _ _ _ Ha); lia. }
      set (k' := Z.min (n - c) (Z.max 0 (lens l - 0))) in *.
      assert (k = c + k' ∧ 0 ≤ k') as [Hk Hk'] by (unfold k, k'; lia).
      exists d2. rewrite Hk, Z.add_assoc. split; [exact H1|]. cbn [data set_data] in H2, H3. split.
      * rewrite seg_app by lia. replace (seg d2 (dp + left) c) with (seg (data s) (payload b + off) c).
        2:{ rewrite <- (copied_seg _ _ _ _ _ Hd1). apply seg_ext. intros i Hi. symmetry. apply H3. lia. }
        rewrite <- Z.add_assoc, H2. change (Z.to_nat 0) with 0%nat. rewrite drop_0.
        rewrite (copied_content _ _ _ _ _ l Hd1).
        2:{ apply (Forall_impl _ _ _ Hfo). intros kv Ha. apply (apart_sub _ _ _ _ _ _ _ _ Ha); lia. }
        rewrite content_cons, drop_app_le, seg_drop by (rewrite ?seg_length; lia).
        by rewrite take_seg_app by lia.
      * intros x Hx. rewrite H3 by lia. rewrite (Hd1 x), decide_False by lia. done.
Qed.

(** The first buffer after its part of the data has been stored. *)
Lemma take_content_step d d1 a m src n c (C : list (option Z)) : 0 ≤ n → 0 ≤ m → c = Z.min n m →
  copied d d1 a src c →
  seg d1 a m ++ (seg d (src + c) (n - c) ++ drop (Z.to_nat (n - c)) C) =
  seg d src n ++ drop (Z.to_nat n) (seg d a m ++ C).
Proof.
  intros Hn Hm Hc Hd. destruct (decide (m ≤ n)) as [Hle|Hgt].
  - assert (c = m) as -> by lia. rewrite (copied_seg _ _ _ _ _ Hd).
    rewrite (seg_split d src n m), <- app_assoc by lia. do 2 f_equal.
    rewrite drop_app_ge by (rewrite seg_length; lia). f_equal. rewrite seg_length. lia.
  - assert (c = n) as -> by lia. rewrite Z.sub_diag, (seg_nil d (src + n) 0) by lia. change (Z.to_nat 0) with 0%nat.
    rewrite drop_0, drop_app_le, seg_drop by (rewrite ?seg_length; lia). cbn [app].
    rewrite (seg_split d1 a m n), (copied_seg _ _ _ _ _ Hd), <- app_assoc by lia.
    do 2 f_equal. apply (copied_apart _ _ _ _ _ _ _ Hd). unfold apart. lia.
Qed.

Lemma take_loop_spec l : ∀ fuel (s : pst) p dp n ct,
  readable s p l → (length l ≤ fuel)%nat → separate l → 0 ≤ n ≤ lens l → 0 ≤ ct → ct + n < 65536 →
  mapped (data s) (dp + ct) n → foreign l (dp + ct) n →
  ∃ d', take_loop fuel s p dp n ct = Clean (0, ct + n, set_data s d') ∧
    content d' l = seg (data s) (dp + ct) n ++ drop (Z.to_nat n) (content (data s) l) ∧
    all_mapped d' l ∧ (∀ x, (∀ q b, (q, b) ∈ l → ¬ (payload b ≤ x < payload b + len b)) → d' !! x = data s !! x).
Proof.
  induction l as [|[q b] l IH]; intros fuel s p dp n ct Hr Hf Hsep Hn Hct Hctn Hm Hfo.
  - cbn in Hn. assert (n = 0) as -> by lia. exists (data s). rewrite Z.add_0_r.
    replace (set_data s (data s)) with s by (by destruct s). split; [by destruct fuel|].
    split; [by rewrite seg_nil|]. split; [constructor|done].
  - cbn [length] in Hf. destruct fuel as [|fuel]; [lia|].
    destruct (readable_tail _ _ _ _ _ Hr) as (-> & Hp & Hb & Hlen & Hmb & Hrl).
    pose proof (wf_lens_nonneg _ (rd_lens _ _ _ Hrl)) as Hl1. destruct Hsep as [Hsb Hsep].
    pose proof Hfo as Hfo0. apply Forall_cons in Hfo as [Hfb Hfo]. cbn [snd] in Hfb. unfold is_u16 in Hlen. cbn [take_loop lens] in *.
    destruct (Z.eqb_spec n 0) as [->|Hn0].
    { exists (data s). rewrite Z.add_0_r. replace (set_data s (data s)) with s by (by destruct s).
      split; [done|]. split; [by rewrite seg_nil|]. split; [apply Hr|done]. }
    rewrite (proj2 (Z.eqb_neq p NULL)) by done. cbn [negb]. out_simp. unfold get. rewrite Hb. out_simp.
    set (c := if len b <? n then len b else n).
    assert (c = Z.min n (len b)) as Hc by (unfold c; destruct (Z.ltb_spec (len b) n); lia).
    assert (mapped (data s) (dp + ct) c) as Hsrc by (intros x Hx; apply Hm; lia).
    destruct (copy_bytes_run s (payload b) (dp + ct) c) as (d1 & -> & Hd1);
      [lia|done|intros x Hx; apply Hmb; lia|unfold apart in *; lia|]. out_simp.
    rewrite (u32_id (n - c)), (u32_id (ct + c)) by (unfold is_u32; lia).
    destruct (IH fuel (set_data s d1) (next b) dp (n - c) (ct + c)) as (d2 & H1 & H2 & H3 & H4);
      [by eapply readable_copied|lia|done|lia|lia|lia| | |].
    { cbn. eapply copied_mapped; [done|done|]. intros x Hx. apply Hm. lia. }
    { apply (Forall_impl _ _ _ Hfo). intros kv Ha. apply (apart_sub _ _ _ _ _ _ _ _ Ha); lia. }
    cbn [data set_data] in H2, H4. exists d2.
    assert (∀ x, payload b ≤ x < payload b + len b → d2 !! x = d1 !! x) as Hhead.
    { intros x Hx. apply H4. intros q c' Hin Hx'.
      rewrite Forall_forall in Hsb. specialize (Hsb _ Hin). cbn in Hsb. unfold apart in Hsb. lia. }
    assert (content d1 l = content (data s) l) as Hrest.
    { apply (copied_content _ _ _ _ _ l Hd1). apply (Forall_impl _ _ _ Hsb). intros kv Ha. unfold apart in *. lia. }
    assert (seg d1 (dp + (ct + c)) (n - c) = seg (data s) (dp + (ct + c)) (n - c)) as Hsrc1.
    { apply (copied_apart _ _ _ _ _ _ _ Hd1). unfold apart in *. lia. }
    split_and!.
    + rewrite H1. replace (ct + c + (n - c)) with (ct + n) by lia. done.
    + rewrite !content_cons, H2, Hrest, Hsrc1.
      rewrite (seg_ext d2 d1 (payload b) (payload b) (len b)) by (intros i Hi; apply Hhead; lia).
      rewrite Z.add_assoc. apply (take_content_step (data s) d1); [lia..|done].
    + apply Forall_cons. split; [|done]. cbn. intros x Hx. rewrite Hhead by done.
      by eapply copied_mapped; [exact Hd1|exact Hsrc|exact Hmb|].
    + intros x Hx. rewrite H4 by (intros q c' Hin; apply (Hx q c'); by right).
      rewrite (Hd1 x), decide_False; [done|]. specialize (Hx p b ltac:(by left)). lia.
Qed.

(** ** Specifications *)

(** [pbuf_put_at] inside the packet changes exactly the byte at that offset of the
    packet, whichever buffer of the chain holds it; beyond the packet it does
    nothing; and [pbuf_get_at] reads the bytes of the packet, and 0 beyond. *)
Theorem pbuf_put_get_at s p l off byte : readable s p l → separate l → bytes_ok (data s) →
  is_u16 off → is_u8 byte →
  ∃ s', pbuf_put_at s p off byte = Clean s' ∧ pbufs s' = pbufs s ∧
    ∀ i, is_u16 i → pbuf_get_at s' p i =
      Clean (if decide (i = off ∧ off < lens l) then byte else byte_at (data s) l i).
Proof.
  intros Hr Hsep Hd Hu Hby. unfold pbuf_put_at, pbuf_skip. unfold is_u16 in *.
  destruct (decide (off < lens l)) as [Hlt|Hge].
  - destruct (skip_found s p l off Hr) as (l0 & q & b & l2 & r & -> & Ho & Hrb & Hq & Hb & Hs & Hm); [lia|lia|].
    rewrite Hs. out_simp. rewrite (proj2 (Z.eqb_neq q NULL)) by done. unfold get. rewrite Hb. out_simp.
    rewrite (proj2 (Z.ltb_lt r (len b))) by lia. destruct Hm as [w Hw]. rewrite Hw. out_simp.
    set (d' := <[payload b + r:=byte]> (data s)).
    assert (content d' (l0 ++ (q, b) :: l2) = <[Z.to_nat off := Some byte]> (content (data s) (l0 ++ (q, b) :: l2))) as Hct
      by (rewrite Ho; apply put_content; [apply Hr|done|done]).
    exists (set_data s d'). split; [done|]. split; [done|]. intros i Hi. unfold is_u16 in Hi.
    assert (readable (set_data s d') p (l0 ++ (q, b) :: l2)) as Hr'.
    { destruct Hr as [H1 H2 H3]. split; [done|done|]. apply (Forall_impl _ _ _ H3). intros kv Hkv x Hx.
      apply lookup_insert_is_Some'. right. by apply Hkv. }
    assert (bytes_ok d') as Hd'.
    { intros x v [[_ <-]|[_ Hv]]%lookup_insert_Some; [done|by eapply Hd]. }
    rewrite (get_at_run _ _ _ i Hr' Hd') by done. unfold byte_at. cbn [data set_data]. rewrite Hct.
    destruct (decide (i = off)) as [->|Hne].
    + rewrite list_lookup_insert_eq, decide_True; [done|done|].
      rewrite (content_length _ _ (wf_lens_pos _ (rd_lens _ _ _ Hr))). lia.
    + rewrite list_lookup_insert_ne, decide_False by (lia || tauto). done.
  - rewrite (skip_beyond s p l off) by (done || lia). out_simp. exists s. split; [done|]. split; [done|].
    intros i Hi. rewrite decide_False by lia. by apply get_at_run.
Qed.

(** [pbuf_copy_partial] copies the requested part of the packet, cut at its end, into
    the caller's buffer, returns how many bytes that is, and writes nothing
    else. *)
Theorem pbuf_copy_partial_spec s buf l dataptr n off : readable s buf l → l ≠ [] → dataptr ≠ NULL →
  is_u16 n → is_u16 off → mapped (data s) dataptr n → foreign l dataptr n →
  let k := Z.min n (Z.max 0 (lens l - off)) in
  ∃ d', pbuf_copy_partial s buf dataptr n off = Clean (k, set_data s d') ∧
    seg d' dataptr k = take (Z.to_nat k) (drop (Z.to_nat off) (content (data s) l)) ∧
    same_outside (data s) d' dataptr k.
Proof.
  intros Hr Hne Hdp Hn Hoff Hm Hfo k. unfold is_u16 in Hn.
  destruct l as [|[q b] l]; [done|]. destruct (readable_tail _ _ _ _ _ Hr) as (-> & Hp & _).
  unfold pbuf_copy_partial. rewrite (proj2 (Z.eqb_neq _ _) Hp), (proj2 (Z.eqb_neq _ _) Hdp).
  destruct (copy_partial_loop_spec _ (chain_fuel s) s buf dataptr n off 0 0 Hr (readable_fuel _ _ _ Hr)) as
    (d' & H1 & H2 & H3); try done; try lia; rewrite ?Z.add_0_r in *; try done.
  exists d'. done.
Qed.

(** what [pbuf_take] stores in a packet, [pbuf_copy_partial] reads back: the bytes come
    through the chain unchanged, and the bytes behind them are untouched. *)
Theorem pbuf_take_copy_roundtrip s buf l src n dst : readable s buf l → l ≠ [] → packet l → separate l →
  lens l < 65536 → src ≠ NULL → dst ≠ NULL → 0 ≤ n ≤ lens l → mapped (data s) src n → foreign l src n →
  mapped (data s) dst n → foreign l dst n → apart src n dst n →
  ∃ d1 d2, pbuf_take s buf src n = Clean (ERR_OK, set_data s d1) ∧
    content d1 l = seg (data s) src n ++ drop (Z.to_nat n) (content (data s) l) ∧
    pbuf_copy_partial (set_data s d1) buf dst n 0 = Clean (n, set_data s d2) ∧
    seg d2 dst n = seg (data s) src n.
Proof.
  intros Hr Hne Hpk Hsep Hlt Hsrc Hdst Hn Hms Hfs Hmd Hfd Hap.
  pose proof (readable_fuel _ _ _ Hr) as Hfuel.
  destruct l as [|[q b] l]; [done|]. destruct (readable_tail _ _ _ _ _ Hr) as (-> & Hp & Hb & _).
  destruct Hpk as [Htot _]. set (L := (buf, b) :: l) in *. assert (tot_len b = lens L) as Ht by done.
  destruct (take_loop_spec L (chain_fuel s) s buf src n 0 Hr Hfuel Hsep Hn) as (d1 & H1 & H2 & H3 & H4);
    rewrite ?Z.add_0_r; try done; try lia.
  rewrite Z.add_0_r in H2.
  assert (readable (set_data s d1) buf L) as Hr1 by (destruct Hr; by split).
  assert (∀ x, dst ≤ x < dst + n → d1 !! x = data s !! x) as Hdst1.
  { intros x Hx. apply H4. intros y c Hin Hy. unfold foreign in Hfd. rewrite Forall_forall in Hfd.
    specialize (Hfd _ Hin). cbn in Hfd. unfold apart in Hfd. lia. }
  destruct (copy_partial_loop_spec L (chain_fuel s) (set_data s d1) buf dst n 0 0 0 Hr1 Hfuel) as (d2 & G1 & G2 & G3);
    try done; try lia; rewrite ?Z.add_0_r; try done.
  { intros x Hx. cbn. rewrite Hdst1 by done. by apply Hmd. }
  rewrite Z.add_0_r in G2. replace (Z.min n (Z.max 0 (lens L - 0))) with n in * by lia.
  exists d1, d2. split_and!.
  - unfold pbuf_take. rewrite (proj2 (Z.eqb_neq _ _) Hp), (proj2 (Z.eqb_neq _ _) Hsrc). unfold get. rewrite Hb. out_simp.
    rewrite (proj2 (Z.ltb_ge (tot_len b) n)) by lia. rewrite H1. out_simp. rewrite Z.add_0_l, !Z.eqb_refl. by out_simp.
  - done.
  - unfold pbuf_copy_partial. rewrite (proj2 (Z.eqb_neq _ _) Hp), (proj2 (Z.eqb_neq _ _) Hdst). exact G1.
  - rewrite G2. cbn [data set_data]. change (Z.to_nat 0) with 0%nat. rewrite drop_0, H2.
    rewrite take_app_le, take_ge by (rewrite seg_length; lia). done.
Qed.

(** [pbuf_memfind] returns the first position, from the given offset on, where the
    packet holds the bytes searched for, even across the borders of buffers,
    and 0xFFFF when there is none. *)
Theorem pbuf_memfind_first s p l mem m start : packet_at s p l → lens l < 65535 → is_u16 m → is_u16 start →
  mapped (data s) mem m →
  ∃ r, pbuf_memfind s p mem m start = Clean r ∧
    ((r = 0xFFFF ∧ ∀ j, start ≤ j → j + m ≤ lens l → ¬ agree s l j mem m) ∨
     (start ≤ r ∧ r + m ≤ lens l ∧ agree s l r mem m ∧ ∀ j, start ≤ j < r → ¬ agree s l j mem m)).
Proof.
  intros Hp Hl Hm Hst Hmap. destruct (packet_at_head _ _ _ Hp) as (b & _ & Hb & Htot). unfold is_u16 in *.
  unfold pbuf_memfind, get. rewrite Hb. out_simp. rewrite Htot.
  destruct (Z.leb_spec (m + start) (lens l)) as [Hle|Hgt].
  - rewrite u16_id by (unfold is_u16; lia).
    destruct (memfind_loop_spec s p l mem m (lens l - m) Hp Hl ltac:(lia) Hmap ltac:(lia) (Z.to_nat 65536) start)
      as (r & H1 & H2); [lia..|]. exists r. split; [done|].
    destruct H2 as [[-> H2]|(H2 & H3 & H4)]; [left|right].
    + split; [done|]. intros j Hj Hjm. apply H2. lia.
    + split_and!; [lia|lia|done|done].
  - exists 0xFFFF. split; [done|]. left. split; [done|]. intros j Hj Hjm. lia.
Qed.

(** C40: [pbuf_copy_partial_pbuf] does not skip to the buffer that holds the offset: when
    the offset lies beyond the first buffer of the target, the unsigned
    difference of length and offset wraps, and the very first copy goes to the
    address [offset] bytes after the first payload, outside that buffer, although
    the target packet is long enough. *)
Theorem pbuf_copy_partial_pbuf_overflow (s : pst) p_to p_from bt bf copy_len offset :
  p_to ≠ NULL → p_from ≠ NULL → pbufs s !! p_to = Some bt → pbufs s !! p_from = Some bf →
  0 < copy_len → copy_len ≤ tot_len bf → offset + copy_len ≤ tot_len bt → is_u16 offset →
  0 < len bf < 65536 → 0 ≤ len bt < offset → mapped (data s) (payload bf) (len bf) →
  data s !! (payload bt + offset) = None →
  pbuf_copy_partial_pbuf s p_to p_from copy_len offset = Fault "MEMCPY destination".
Proof.
  intros Hto Hfrom Hbt Hbf Hc Hcf Hct Hoff Hlf Hlt Hm Hnone. unfold is_u16 in Hoff.
  unfold pbuf_copy_partial_pbuf, get. rewrite (proj2 (Z.eqb_neq _ _) Hto), (proj2 (Z.eqb_neq _ _) Hfrom), Hbf, Hbt.
  out_simp. rewrite (proj2 (Z.leb_le copy_len (tot_len bf))), (proj2 (Z.leb_le (offset + copy_len) (tot_len bt))) by done.
  cbn [negb]. out_simp. cbn [negb]. unfold chain_fuel.
  replace (2 * S (size (pbufs s)))%nat with (S (S (2 * size (pbufs s))))%nat by lia. cbn [copy_pbuf_loop].
  unfold get. rewrite Hbt, Hbf. out_simp. rewrite Z.sub_0_r, Z.add_0_r, (u32_id (len bf)) by (unfold is_u32; lia).
  assert (u32 (len bt - offset) = len bt - offset + 4294967296) as -> by width.
  rewrite (proj2 (Z.leb_le (len bf) (len bt - offset + 4294967296))) by lia.
  destruct (Z.to_nat (Z.min copy_len (len bf))) as [|n] eqn:E; [lia|].
  unfold copy_bytes. rewrite E. cbn [memcpy]. destruct (Hm (payload bf)) as [v ->]; [lia|]. out_simp.
  rewrite Hnone. done.
Qed.
End Data.

(** ** Witnesses: five bytes in two buffers *)

Definition ex_pbufs : gmap Z pbuf :=
  {[ 100 := Pbuf 120 200 5 3 0x80 0 1 0; 120 := Pbuf NULL 300 2 2 0x80 0 1 0 ]}.
Definition ex_bytes (a : Z) (l : list Z) : gmap Z Z := foldr (λ kv m, <[kv.1:=kv.2]> m) ∅ (imap (λ i v, (a + Z.of_nat i, v)) l).
Definition ex_st : @pst unit :=
  Pst tt ex_pbufs (ex_bytes 200 [10; 20; 30] ∪ ex_bytes 300 [40; 50] ∪ ex_bytes 400 [30; 40; 7; 8; 9]
                   ∪ ex_bytes 500 [0; 0; 0; 0; 0]) false.
Definition ex_l : list (Z * pbuf) :=
  [(100, Pbuf 120 200 5 3 0x80 0 1 0); (120, Pbuf NULL 300 2 2 0x80 0 1 0)].

(** A range of existing memory is checked byte by byte. *)
Definition mapped_b (d : gmap Z Z) (a n : Z) : bool :=
  forallb (λ x, bool_decide (is_Some (d !! x))) (seqZ a n).

Lemma mapped_b_sound d a n : mapped_b d a n = true → mapped d a n.
Proof.
  unfold mapped_b. rewrite forallb_forall. intros H x Hx. specialize (H x).
  rewrite bool_decide_eq_true in H. apply H. apply list_elem_of_In, elem_of_seqZ. lia.
Qed.

Definition bytes_ok_b (d : gmap Z Z) : bool :=
  forallb (λ kv, bool_decide (is_u8 kv.2)) (map_to_list d).

Lemma bytes_ok_b_sound d : bytes_ok_b d = true → bytes_ok d.
Proof.
  unfold bytes_ok_b. rewrite forallb_forall. intros H x v Hx. specialize (H (x, v)).
  rewrite bool_decide_eq_true in H. apply H. by apply list_elem_of_In, elem_of_map_to_list.
Qed.

Lemma ex_readable : readable ex_st 100 ex_l.
Proof.
  split.
  - apply chained_cons; [discriminate|vm_compute; reflexivity|].
    apply chained_cons; [discriminate|vm_compute; reflexivity|]. apply chained_nil.
  - repeat first [apply Forall_cons; split; [done|]|apply Forall_nil; done].
  - repeat first [apply Forall_cons; split; [apply mapped_b_sound; vm_compute; reflexivity|]|apply Forall_nil; done].
Qed.

Lemma ex_separate : separate ex_l.
Proof.
  split; [|split; [apply Forall_nil; done|done]]. apply Forall_cons. split; [|apply Forall_nil; done].
  unfold apart. cbn. lia.
Qed.

Lemma ex_foreign a : a = 400 ∨ a = 500 → foreign ex_l a 5.
Proof.
  intros Ha. apply Forall_cons. split; [unfold apart; cbn; lia|]. apply Forall_cons.
  split; [unfold apart; cbn; lia|apply Forall_nil; done].
Qed.

Lemma ex_bytes_ok : bytes_ok (data ex_st).
Proof. apply bytes_ok_b_sound. vm_compute. reflexivity. Qed.

Lemma ex_packet : packet ex_l.
Proof. cbn. lia. Qed.

Lemma pbuf_put_get_at_witness : ∃ s', pbuf_put_at ex_st 100 3 99 = Clean s' ∧
  pbuf_get_at s' 100 3 = Clean 99 ∧ pbuf_get_at s' 100 2 = Clean 30 ∧ pbuf_get_at s' 100 7 = Clean 0.
Proof.
  destruct (pbuf_put_get_at ex_st 100 ex_l 3 99 ex_readable ex_separate ex_bytes_ok
    ltac:(by split) ltac:(by split)) as (s' & H1 & _ & H2).
  exists s'. split; [exact H1|]. rewrite !H2 by (by split). split; [reflexivity|split; reflexivity].
Defined.

Lemma pbuf_copy_partial_spec_witness : ∃ d', pbuf_copy_partial ex_st 100 500 5 2 = Clean (3, set_data ex_st d') ∧
  seg d' 500 3 = [Some 30; Some 40; Some 50].
Proof.
  destruct (pbuf_copy_partial_spec ex_st 100 ex_l 500 5 2 ex_readable ltac:(done) ltac:(done) ltac:(by split)
    ltac:(by split) ltac:(apply mapped_b_sound; vm_compute; reflexivity) (ex_foreign 500 (or_intror eq_refl)))
    as (d' & H1 & H2 & _).
  exists d'. split; [exact H1|]. cbn in H2 |- *. exact H2.
Defined.

Lemma pbuf_take_copy_roundtrip_witness : ∃ d1 d2, pbuf_take ex_st 100 400 5 = Clean (ERR_OK, set_data ex_st d1) ∧
  pbuf_copy_partial (set_data ex_st d1) 100 500 5 0 = Clean (5, set_data ex_st d2) ∧
  seg d2 500 5 = [Some 30; Some 40; Some 7; Some 8; Some 9].
Proof.
  destruct (pbuf_take_copy_roundtrip ex_st 100 ex_l 400 5 500 ex_readable ltac:(done) ex_packet ex_separate
    ltac:(done) ltac:(done) ltac:(done) ltac:(done) ltac:(apply mapped_b_sound; vm_compute; reflexivity)
    (ex_foreign 400 (or_introl eq_refl)) ltac:(apply mapped_b_sound; vm_compute; reflexivity)
    (ex_foreign 500 (or_intror eq_refl)) ltac:(unfold apart; lia)) as (d1 & d2 & H1 & _ & H2 & H3).
  exists d1, d2. split; [exact H1|]. split; [exact H2|]. rewrite H3. reflexivity.
Defined.

(** [30; 40] sits across the border of the two buffers. *)
Lemma pbuf_memfind_first_witness : ∃ r, pbuf_memfind ex_st 100 400 2 0 = Clean r ∧ r = 2 ∧
  agree ex_st ex_l 2 400 2.
Proof.
  assert (packet_at ex_st 100 ex_l) as Hp.
  { split; [exact ex_readable|]. split; [exact ex_packet|]. split; [discriminate|]. split; [reflexivity|exact ex_bytes_ok]. }
  destruct (pbuf_memfind_first ex_st 100 ex_l 400 2 0 Hp ltac:(done) ltac:(by split) ltac:(by split)
    ltac:(apply mapped_b_sound; vm_compute; reflexivity)) as (r & H1 & H2).
  assert (r = 2) as ->. { vm_compute in H1. injection H1 as <-. reflexivity. }
  exists 2. split; [exact H1|]. split; [reflexivity|]. destruct H2 as [[? _]|(_ & _ & H & _)]; [discriminate|exact H].
Defined.

(** Four bytes into the five-byte packet: the copy leaves the first buffer. *)
Lemma pbuf_copy_partial_pbuf_overflow_witness :
  pbuf_copy_partial_pbuf (upd ex_st 140 (Pbuf NULL 400 5 5 0x80 0 1 0)) 100 140 1 4 = Fault "MEMCPY destination".
Proof.
  apply (pbuf_copy_partial_pbuf_overflow _ 100 140 (Pbuf 120 200 5 3 0x80 0 1 0) (Pbuf NULL 400 5 5 0x80 0 1 0));
    try discriminate; try (vm_compute; reflexivity); try (split; vm_compute; congruence).
  apply mapped_b_sound. vm_compute. reflexivity.
Defined.
