(* ===== verification/PbufClone.v ===== *)
(** * Copying packets

    [pbuf_copy] into a packet of one buffer, which is what [pbuf_clone] and [pbuf_coalesce] do:
    the loop of [pbuf_copy_partial_pbuf] copies one buffer of the source after
    the other. *)
From S2P Require Import Prelude Def Iface Pbuf PbufChain PbufData.

(** The chain ends with its packet: no buffer follows the one that reaches [tot_len]. *)
Fixpoint whole (l : list (Z * pbuf)) : Prop :=
  match l with
  | [] => True
  | (_, b) :: l' => (len b = tot_len b → l' = []) ∧ whole l'
  end.

Section Clone.
Context {M : Type}.
Abbreviation pst := (@pst M).

Lemma get_run (s : pst) p b : pbufs s !! p = Some b → get s p = Clean b.
Proof. intros Hb. unfold get. by rewrite Hb. Qed.

(** The check for packet queues never strikes. *)
Lemma not_queue (s : pst) q l : chained (pbufs s) q l → whole l →
  (if negb (q =? NULL) then b ← get s q; mret ((len b =? tot_len b) && negb (next b =? NULL)) else mret false)
  = Clean false.
Proof.
  intros Hc Hw. destruct Hc as [|q b l Hq Hb Hc]; [done|].
  rewrite (proj2 (Z.eqb_neq q NULL)) by done. cbn [negb]. unfold get. rewrite Hb. out_simp.
  destruct Hw as [Hw _]. destruct (Z.eqb_spec (len b) (tot_len b)) as [He|]; [|done].
  rewrite (Hw He) in Hc. inversion Hc. done.
Qed.

Lemma mapped_set_data (s : pst) d' q l : readable s q l → (∀ x, is_Some (data s !! x) → is_Some (d' !! x)) →
  readable (set_data s d') q l.
Proof.
  intros [H1 H2 H3] Hd. split; try done. apply (Forall_impl _ _ _ H3). intros kv Hm x Hx. by apply Hd, Hm.
Qed.

Lemma foreign_sub l a n a' n' : foreign l a n → a ≤ a' → a' + n' ≤ a + n → foreign l a' n'.
Proof. intros Hf H1 H2. apply (Forall_impl _ _ _ Hf). intros kv. cbn. unfold apart. lia. Qed.

(** The first [n] bytes of the rest [l] of the source go to offset [off] of the only buffer [bt]
    of the target. *)
Lemma copy_one_loop l : ∀ fuel (s : pst) p_to bt p off n, readable s p l → l ≠ [] → packet l → whole l →
  p_to ≠ NULL → pbufs s !! p_to = Some bt → next bt = NULL → 0 ≤ off → 0 ≤ n ≤ lens l → off + n ≤ len bt → len bt < 65536 →
  foreign l (payload bt) (len bt) → mapped (data s) (payload bt) (len bt) → (length l ≤ fuel)%nat →
  ∃ d', copy_pbuf_loop fuel s p_to p n off 0 = Clean (ERR_OK, set_data s d') ∧
    seg d' (payload bt + off) n = take (Z.to_nat n) (content (data s) l) ∧
    same_outside (data s) d' (payload bt + off) n ∧ (∀ x, is_Some (data s !! x) → is_Some (d' !! x)).
Proof.
  induction l as [|[q b] l IH]; intros fuel s p_to bt p off n Hr Hne Hpk Hw Hto Hbt Hnt Hoff Hn Hlen Hlt Hfo Hm Hfuel; [done|].
  destruct fuel as [|fuel]; cbn [length] in Hfuel; [lia|]. apply readable_tail in Hr as (-> & Hp & Hb & Hlb & Hmb & Hr).
  destruct Hpk as [Htot Hpk]. pose proof Hw as Hw'. destruct Hw as [Hw0 Hw]. apply Forall_cons in Hfo as [Hap Hfo]. cbn [snd] in Hap.
  pose proof (wf_lens_nonneg _ (rd_lens _ _ _ Hr)) as Hpos. cbn [lens] in *. unfold is_u16 in Hlb.
  cbn [copy_pbuf_loop]. rewrite (get_run _ _ _ Hbt), (get_run _ _ _ Hb). out_simp. rewrite Z.sub_0_r, Z.add_0_r.
  rewrite (u32_id (len b)), (u32_id (len bt - off)) by (unfold is_u32; lia).
  set (c := Z.min n (if len b <=? len bt - off then len b else len bt - off)).
  assert (c = Z.min n (len b)) as Hc by (unfold c; destruct (Z.leb_spec (len b) (len bt - off)); lia). clearbody c.
  destruct (copy_bytes_run s (payload bt + off) (payload b) c) as (d1 & -> & Hcp); [lia| | | |].
  { intros x Hx. apply Hmb. lia. }
  { intros x Hx. apply Hm. lia. }
  { eapply apart_sub; [exact Hap|lia..]. }
  assert (∀ x, is_Some (data s !! x) → is_Some (d1 !! x)) as Hs1.
  { intros x Hx. rewrite (Hcp x). case_decide; [apply Hmb; lia|done]. }
  out_simp. rewrite Z.add_0_l, !u32_id by (unfold is_u32; lia). rewrite (u16_id (n - c)) by (unfold is_u16; lia).
  rewrite (proj2 (Z.leb_le (off + c) (len bt))), (proj2 (Z.leb_le c (len b))) by lia. out_simp.
  pose proof (rd_chain _ _ _ Hr) as Hcr.
  assert (seg d1 (payload bt + off) c = seg (data s) (payload b) c) as Hseg by (by apply copied_seg).
  assert (chained (pbufs s) p ((p, b) :: l)) as Hcp0 by (by constructor).
  destruct (decide (n ≤ len b)) as [Hle|Hgt].
  - assert (c = n) as -> by lia. rewrite Z.sub_diag. change (0 =? 0) with true. cbn [negb].
    assert ((if negb ((if len b <=? n then (next b, 0) else (p, n)).1 =? NULL)
      then b0 ← get (set_data s d1) (if len b <=? n then (next b, 0) else (p, n)).1; mret ((len b0 =? tot_len b0) && negb (next b0 =? NULL))
      else mret false) = Clean false) as Hq.
    { destruct (len b <=? n); [by apply (not_queue (set_data s d1) _ l)|by apply (not_queue (set_data s d1) _ ((p, b) :: l))]. }
    destruct (if len b <=? n then (next b, 0) else (p, n)) as [pf o] eqn:E. cbn [fst] in Hq. rewrite andb_false_r.
    exists d1. split_and!; [|rewrite Hseg|intros x Hx; rewrite (Hcp x), decide_False by lia; done|done].
    + destruct (off + n =? len bt); rewrite andb_false_r, Hq, bind_clean.
      * rewrite Hnt. change (NULL =? NULL) with true. cbn [negb]. by out_simp.
      * rewrite (proj2 (Z.eqb_neq p_to NULL)) by done. cbn [negb]. rewrite (get_run (set_data s d1) _ _ Hbt). out_simp.
        rewrite Hnt. change (NULL =? NULL) with true. cbn [negb]. rewrite andb_false_r. done.
    + rewrite content_cons, take_app_le by (rewrite seg_length; lia). rewrite (seg_split _ _ (len b) n), take_app_le by (rewrite ?seg_length; lia).
      by rewrite take_ge by (rewrite seg_length; lia).
  - assert (c = len b) as -> by lia. rewrite Z.leb_refl.
    destruct l as [|[q' b'] l]; [cbn in Hn; lia|].
    pose proof Hcr as Hc0. apply chained_inv_cons in Hc0 as (_ & Hnx & _ & _).
    set (L := (q', b') :: l) in *. rewrite (proj2 (Z.eqb_neq (next b) NULL)) by done. cbn [andb].
    rewrite (proj2 (Z.eqb_neq (off + len b) (len bt))) by lia.
    rewrite (proj2 (Z.eqb_neq (n - len b) 0)) by lia. cbn [negb].
    pose proof (not_queue (set_data s d1) (next b) L Hcr Hw) as Hnq.
    rewrite (proj2 (Z.eqb_neq (next b) NULL)) in Hnq by done. cbn [negb] in Hnq. rewrite Hnq.
    rewrite (proj2 (Z.eqb_neq p_to NULL)) by done. cbn [andb negb]. out_simp.
    rewrite (get_run (set_data s d1) _ _ Hbt). out_simp. rewrite Hnt. change (NULL =? NULL) with true. cbn [negb].
    rewrite andb_false_r.
    destruct (IH fuel (set_data s d1) p_to bt (next b) (off + len b) (n - len b)) as (d' & -> & H1 & H2 & H3); try done; try lia.
    + by apply mapped_set_data.
    + intros x Hx. by apply Hs1, Hm.
    + exists d'. split_and!; [done| | |].
      * replace n with (len b + (n - len b)) at 1 by lia. rewrite seg_app by lia. rewrite content_cons.
        rewrite take_app_ge by (rewrite seg_length; lia). rewrite seg_length. f_equal.
        -- rewrite <- Hseg. apply seg_ext. intros i Hix. apply H2. lia.
        -- rewrite <- Z.add_assoc, H1. replace (Z.to_nat n - Z.to_nat (len b))%nat with (Z.to_nat (n - len b)) by lia.
           f_equal. eapply copied_content; [exact Hcp|]. apply (foreign_sub _ _ _ _ _ Hfo); lia.
      * intros x Hx. rewrite H2 by lia. cbn [data set_data]. rewrite (Hcp x), decide_False by lia. done.
      * intros x Hx. by apply H3, Hs1.
Qed.

(** [n] bytes of the packet to offset [off] of a packet of one buffer. *)
Lemma copy_part_run (s : pst) p_to bt p l n off : readable s p l → l ≠ [] → packet l → whole l → p_to ≠ NULL →
  pbufs s !! p_to = Some bt → next bt = NULL → tot_len bt = len bt → 0 ≤ off → 0 ≤ n ≤ lens l → off + n ≤ len bt →
  len bt < 65536 → foreign l (payload bt) (len bt) → mapped (data s) (payload bt) (len bt) →
  ∃ d', pbuf_copy_partial_pbuf s p_to p n off = Clean (ERR_OK, set_data s d') ∧
    seg d' (payload bt + off) n = take (Z.to_nat n) (content (data s) l) ∧
    same_outside (data s) d' (payload bt + off) n ∧ (∀ x, is_Some (data s !! x) → is_Some (d' !! x)).
Proof.
  intros Hr Hne Hpk Hw Hto Hbt Hnt Htt Hoff Hn Hle Hlen Hfo Hm. pose proof (readable_fuel _ _ _ Hr) as Hfuel.
  destruct l as [|[q b] l]; [done|]. pose proof Hr as Hr0. apply readable_tail in Hr0 as (-> & Hp & Hb & _).
  assert (tot_len b = lens ((p, b) :: l)) as Htot by apply Hpk. set (L := (p, b) :: l) in *.
  unfold pbuf_copy_partial_pbuf. rewrite (proj2 (Z.eqb_neq p NULL)) by done. rewrite (get_run _ _ _ Hb). out_simp.
  rewrite (proj2 (Z.leb_le n (tot_len b))) by lia. out_simp. cbn [negb].
  rewrite (proj2 (Z.eqb_neq p_to NULL)) by done. rewrite (get_run _ _ _ Hbt). out_simp.
  rewrite (proj2 (Z.leb_le (off + n) (tot_len bt))) by lia. cbn [negb].
  apply copy_one_loop; try done; lia.
Qed.

Lemma pbuf_copy_run (s : pst) p_to bt p l : readable s p l → l ≠ [] → packet l → whole l → p_to ≠ NULL →
  pbufs s !! p_to = Some bt → next bt = NULL → tot_len bt = lens l → len bt = lens l → lens l < 65536 →
  foreign l (payload bt) (len bt) → mapped (data s) (payload bt) (len bt) →
  ∃ d', pbuf_copy s p_to p = Clean (ERR_OK, set_data s d') ∧ seg d' (payload bt) (len bt) = content (data s) l ∧
    same_outside (data s) d' (payload bt) (len bt) ∧ (∀ x, is_Some (data s !! x) → is_Some (d' !! x)).
Proof.
  intros Hr Hne Hpk Hw Hto Hbt Hnt Htt Hlt Hlen Hfo Hm. pose proof (wf_lens_nonneg _ (rd_lens _ _ _ Hr)) as Hpos.
  destruct (copy_part_run s p_to bt p l (lens l) 0) as (d' & H & H1 & H2 & H3); try done; try lia.
  rewrite Z.add_0_r in *. rewrite take_ge in H1 by (rewrite content_length by (apply wf_lens_pos, (rd_lens _ _ _ Hr)); lia).
  exists d'. rewrite Hlt. split_and!; [|done..]. rewrite <- H. unfold pbuf_copy.
  destruct l as [|[q b] l]; [done|]. apply readable_tail in Hr as (-> & Hp & Hb & _).
  rewrite (proj2 (Z.eqb_neq p NULL)) by done. rewrite (get_run _ _ _ Hb). out_simp. by destruct Hpk as [-> _].
Qed.
End Clone.
