(* ===== verification/Pcb.v ===== *)
(** * Protocol control blocks

    [IP_PCB] of src/lwip/src/include/lwip/ip.h, [struct udp_pcb] of udp.h and [struct raw_pcb] of
    raw.h, and the variables of udp.c and raw.c.  Built without multicast options, UDP-Lite
    and hints. *)
From S2P Require Import Prelude Stats.

(** [struct ip_pcb]; addresses are in network byte order. *)
Record ip_pcb := IpPcb {
  local_ip : Z;
  remote_ip : Z;
  netif_idx : Z;
  so_options : Z;
  pcb_tos : Z;
  pcb_ttl : Z }.

Definition ip_pcb_zero : ip_pcb := IpPcb 0 0 0 0 0 0.

Definition set_local_ip (x : ip_pcb) (v : Z) : ip_pcb := IpPcb v (remote_ip x) (netif_idx x) (so_options x) (pcb_tos x) (pcb_ttl x).
Definition set_remote_ip (x : ip_pcb) (v : Z) : ip_pcb := IpPcb (local_ip x) v (netif_idx x) (so_options x) (pcb_tos x) (pcb_ttl x).
Definition set_netif_idx (x : ip_pcb) (v : Z) : ip_pcb := IpPcb (local_ip x) (remote_ip x) v (so_options x) (pcb_tos x) (pcb_ttl x).
Definition set_so_options (x : ip_pcb) (v : Z) : ip_pcb := IpPcb (local_ip x) (remote_ip x) (netif_idx x) v (pcb_tos x) (pcb_ttl x).
Definition set_pcb_ttl (x : ip_pcb) (v : Z) : ip_pcb := IpPcb (local_ip x) (remote_ip x) (netif_idx x) (so_options x) (pcb_tos x) v.

(** ** UDP *)

(** [struct udp_pcb]; [u_recv] is a function pointer. *)
Record udp_pcb := UdpPcb {
  u_ip : ip_pcb;
  u_next : Z;
  u_flags : Z;
  u_local_port : Z;
  u_remote_port : Z;
  u_recv : Z;
  u_recv_arg : Z }.

Definition udp_pcb_zero : udp_pcb := UdpPcb ip_pcb_zero 0 0 0 0 0 0.

Definition set_u_ip (x : udp_pcb) (v : ip_pcb) : udp_pcb :=
  UdpPcb v (u_next x) (u_flags x) (u_local_port x) (u_remote_port x) (u_recv x) (u_recv_arg x).
Definition set_u_next (x : udp_pcb) (v : Z) : udp_pcb :=
  UdpPcb (u_ip x) v (u_flags x) (u_local_port x) (u_remote_port x) (u_recv x) (u_recv_arg x).
Definition set_u_flags (x : udp_pcb) (v : Z) : udp_pcb :=
  UdpPcb (u_ip x) (u_next x) v (u_local_port x) (u_remote_port x) (u_recv x) (u_recv_arg x).
Definition set_u_local_port (x : udp_pcb) (v : Z) : udp_pcb :=
  UdpPcb (u_ip x) (u_next x) (u_flags x) v (u_remote_port x) (u_recv x) (u_recv_arg x).
Definition set_u_remote_port (x : udp_pcb) (v : Z) : udp_pcb :=
  UdpPcb (u_ip x) (u_next x) (u_flags x) (u_local_port x) v (u_recv x) (u_recv_arg x).
Definition set_u_recv (x : udp_pcb) (f arg : Z) : udp_pcb :=
  UdpPcb (u_ip x) (u_next x) (u_flags x) (u_local_port x) (u_remote_port x) f arg.

(** [udp_pcbs], [udp_port], the structs by address, the free list of the pool [MEMP_UDP_PCB]
    (a stack, as [memp.c] implements it) and the counters. *)
Record udp_st := UdpSt {
  udp_pcbs : Z;
  udp_port : Z;
  upcbs : gmap Z udp_pcb;
  udp_pool : list Z;
  stat_udp : stats_proto }.

Definition set_udp_pcbs (u : udp_st) (v : Z) : udp_st := UdpSt v (udp_port u) (upcbs u) (udp_pool u) (stat_udp u).
Definition set_udp_port (u : udp_st) (v : Z) : udp_st := UdpSt (udp_pcbs u) v (upcbs u) (udp_pool u) (stat_udp u).
Definition set_upcbs (u : udp_st) (v : gmap Z udp_pcb) : udp_st := UdpSt (udp_pcbs u) (udp_port u) v (udp_pool u) (stat_udp u).
Definition set_udp_pool (u : udp_st) (v : list Z) : udp_st := UdpSt (udp_pcbs u) (udp_port u) (upcbs u) v (stat_udp u).
Definition set_stat_udp (u : udp_st) (v : stats_proto) : udp_st := UdpSt (udp_pcbs u) (udp_port u) (upcbs u) (udp_pool u) v.

(** ** Raw *)

Record raw_pcb := RawPcb {
  r_ip : ip_pcb;
  r_next : Z;
  r_protocol : Z;
  r_flags : Z;
  r_recv : Z;
  r_recv_arg : Z }.

Definition raw_pcb_zero : raw_pcb := RawPcb ip_pcb_zero 0 0 0 0 0.

Definition set_r_ip (x : raw_pcb) (v : ip_pcb) : raw_pcb := RawPcb v (r_next x) (r_protocol x) (r_flags x) (r_recv x) (r_recv_arg x).
Definition set_r_next (x : raw_pcb) (v : Z) : raw_pcb := RawPcb (r_ip x) v (r_protocol x) (r_flags x) (r_recv x) (r_recv_arg x).
Definition set_r_protocol (x : raw_pcb) (v : Z) : raw_pcb := RawPcb (r_ip x) (r_next x) v (r_flags x) (r_recv x) (r_recv_arg x).
Definition set_r_flags (x : raw_pcb) (v : Z) : raw_pcb := RawPcb (r_ip x) (r_next x) (r_protocol x) v (r_recv x) (r_recv_arg x).
Definition set_r_recv (x : raw_pcb) (f arg : Z) : raw_pcb := RawPcb (r_ip x) (r_next x) (r_protocol x) (r_flags x) f arg.

(** [raw_pcbs], the structs by address and the free list of the pool [MEMP_RAW_PCB] *)
Record raw_st := RawSt {
  raw_pcbs : Z;
  rpcbs : gmap Z raw_pcb;
  raw_pool : list Z }.

Definition set_raw_pcbs (r : raw_st) (v : Z) : raw_st := RawSt v (rpcbs r) (raw_pool r).
Definition set_rpcbs (r : raw_st) (v : gmap Z raw_pcb) : raw_st := RawSt (raw_pcbs r) v (raw_pool r).
Definition set_raw_pool (r : raw_st) (v : list Z) : raw_st := RawSt (raw_pcbs r) (rpcbs r) v.
