(* ===== verification/Netif.v ===== *)
(** * Network interfaces and the state of the network layer

    [struct netif] (src/lwip/src/include/lwip/netif.h), the ARP table and the conflict
    detection structs live in one state [nst] beside the packet buffers.  The
    interface of this program is set up by src/app/app.c: its [linkoutput] is
    [netif_output], which copies the packet into a local array and hands that to
    the Ethernet driver.  The driver is device access; the model keeps the list
    of frames handed to it.  The state holds the variables of udp.c and raw.c too.

    Code the model is given from outside is collected in the class [NetEnv]. *)
From S2P Require Import Prelude Def Stats Iface Ip4Addr Pbuf Pcb.

(** ** Constants *)

Definition ETH_HWADDR_LEN : Z := 6.
Definition SIZEOF_ETH_HDR : Z := 14.
Definition SIZEOF_ETHARP_HDR : Z := 28.
Definition ETHTYPE_IP : Z := 0x0800.
Definition ETHTYPE_ARP : Z := 0x0806.
Definition NETIF_FLAG_ETHARP : Z := 0x08.
Definition ARP_TABLE_SIZE : Z := 10.
Definition ERR_BUF : Z := -2.
Definition ERR_RTE : Z := -4.

(** [ethbroadcast] and [ethzero] of ethernet.c *)
Definition ethbroadcast : list Z := [0xff; 0xff; 0xff; 0xff; 0xff; 0xff].
Definition ethzero : list Z := [0; 0; 0; 0; 0; 0].

(** Macros of ip4_addr.h on addresses in network byte order (a little-endian machine). *)
Definition ip4_addr_isany (addr : Z) : bool := addr =? IPADDR_ANY.
Definition ip4_addr_ismulticast (addr : Z) : bool := Z.land addr (lwip_htonl 0xf0000000) =? lwip_htonl 0xe0000000.
Definition ip4_addr_islinklocal (addr : Z) : bool := Z.land addr (lwip_htonl 0xffff0000) =? lwip_htonl 0xa9fe0000.
Definition ip4_addr_isloopback (addr : Z) : bool := Z.land addr (lwip_htonl 0xff000000) =? lwip_htonl 0x7f000000.
Definition ip4_addr_get_byte (addr idx : Z) : Z := Z.land (Z.shiftr addr (8 * idx)) 0xff.

(** ** Data *)

Record netif := Netif {
  nf_next : Z;
  nf_ip_addr : Z;
  nf_netmask : Z;
  nf_gw : Z;
  nf_mtu : Z;
  nf_hwaddr : list Z;
  nf_hwaddr_len : Z;
  nf_flags : Z;
  nf_num : Z;
  nf_acd_list : Z;
  nf_status_callback : Z;
  nf_link_callback : Z;
  nf_dhcp : Z;
  nf_autoip : Z }.

(** [netif_get_index] *)
Definition netif_get_index (f : netif) : Z := u8 (nf_num f + 1).

Definition ip4_addr_isbroadcast (addr : Z) (f : netif) : bool :=
  ip4_addr_isbroadcast_u32 addr (nf_flags f) (nf_ip_addr f) (nf_netmask f).

(** [enum etharp_state], without static entries. *)
Inductive etharp_state :=
| ETHARP_STATE_EMPTY
| ETHARP_STATE_PENDING
| ETHARP_STATE_STABLE
| ETHARP_STATE_STABLE_REREQUESTING_1
| ETHARP_STATE_STABLE_REREQUESTING_2.

#[export] Instance etharp_state_eq_dec : EqDecision etharp_state.
Proof. solve_decision. Defined.

(** The value of the enumerator, for comparisons with [>=]. *)
Definition est (st : etharp_state) : Z :=
  match st with
  | ETHARP_STATE_EMPTY => 0
  | ETHARP_STATE_PENDING => 1
  | ETHARP_STATE_STABLE => 2
  | ETHARP_STATE_STABLE_REREQUESTING_1 => 3
  | ETHARP_STATE_STABLE_REREQUESTING_2 => 4
  end.

Record etharp_entry := EtharpEntry {
  ae_q : Z;
  ae_ipaddr : Z;
  ae_netif : Z;
  ae_ethaddr : list Z;
  ae_ctime : Z;
  ae_state : etharp_state }.

Definition set_ae_q (e : etharp_entry) (v : Z) : etharp_entry :=
  EtharpEntry v (ae_ipaddr e) (ae_netif e) (ae_ethaddr e) (ae_ctime e) (ae_state e).
Definition set_ae_ipaddr (e : etharp_entry) (v : Z) : etharp_entry :=
  EtharpEntry (ae_q e) v (ae_netif e) (ae_ethaddr e) (ae_ctime e) (ae_state e).
Definition set_ae_netif (e : etharp_entry) (v : Z) : etharp_entry :=
  EtharpEntry (ae_q e) (ae_ipaddr e) v (ae_ethaddr e) (ae_ctime e) (ae_state e).
Definition set_ae_ethaddr (e : etharp_entry) (v : list Z) : etharp_entry :=
  EtharpEntry (ae_q e) (ae_ipaddr e) (ae_netif e) v (ae_ctime e) (ae_state e).
Definition set_ae_ctime (e : etharp_entry) (v : Z) : etharp_entry :=
  EtharpEntry (ae_q e) (ae_ipaddr e) (ae_netif e) (ae_ethaddr e) v (ae_state e).
Definition set_ae_state (e : etharp_entry) (v : etharp_state) : etharp_entry :=
  EtharpEntry (ae_q e) (ae_ipaddr e) (ae_netif e) (ae_ethaddr e) (ae_ctime e) v.

(** [acd_state_enum_t] and [acd_callback_enum_t] of prot/acd.h *)
Inductive acd_state :=
| ACD_STATE_OFF
| ACD_STATE_PROBE_WAIT
| ACD_STATE_PROBING
| ACD_STATE_ANNOUNCE_WAIT
| ACD_STATE_ANNOUNCING
| ACD_STATE_ONGOING
| ACD_STATE_PASSIVE_ONGOING
| ACD_STATE_RATE_LIMIT.

#[export] Instance acd_state_eq_dec : EqDecision acd_state.
Proof. solve_decision. Defined.

Inductive acd_callback_enum := ACD_IP_OK | ACD_RESTART_CLIENT | ACD_DECLINE.

#[export] Instance acd_callback_enum_eq_dec : EqDecision acd_callback_enum.
Proof. solve_decision. Defined.

Record acd := Acd {
  acd_next : Z;
  acd_ipaddr : Z;
  acd_st : acd_state;
  acd_sent_num : Z;
  acd_ttw : Z;
  acd_lastconflict : Z;
  acd_num_conflicts : Z;
  acd_conflict_callback : Z }.

(** [struct autoip] (autoip.h); its [struct acd] is the one at its address plus [AUTOIP_ACD]. *)
Inductive autoip_state_enum := AUTOIP_STATE_OFF | AUTOIP_STATE_CHECKING | AUTOIP_STATE_BOUND.

#[export] Instance autoip_state_enum_eq_dec : EqDecision autoip_state_enum.
Proof. solve_decision. Defined.

Record autoip := Autoip {
  llipaddr : Z;
  ai_state : autoip_state_enum;
  tried_llipaddr : Z }.

Definition AUTOIP_ACD : Z := 8.

(** [netif_num] of netif.c, and the AutoIP clients by address. *)
Record if_st := IfSt {
  netif_num : Z;
  autoips : gmap Z autoip }.

(** [struct ip_globals] of ip.h *)
Record ip_globals := IpGlobals {
  current_netif : Z;
  current_input_netif : Z;
  current_ip4_header : Z;
  current_ip_header_tot_len : Z;
  current_iphdr_src : Z;
  current_iphdr_dest : Z }.

Definition ip_globals_zero : ip_globals := IpGlobals NULL NULL NULL 0 IPADDR_ANY IPADDR_ANY.

(** The variables of the IPv4 layer: [ip_id] of ip4.c, [ip_data] of ip.c, the counters. *)
Record ip_st := IpSt {
  ip_id : Z;
  ip_data : ip_globals;
  stat_ip : stats_proto;
  stat_icmp : stats_proto }.

(** ** State *)

Section State.
Context {M : Type}.
Abbreviation pst := (@pst M).

Record nst := Nst {
  pb : pst;
  netifs : gmap Z netif;
  netif_list : Z;
  arp_table : list etharp_entry;
  etharp_cached_entry : Z;
  acds : gmap Z acd;
  stat_link : stats_proto;
  stat_etharp : stats_proto;
  frames : list (list Z);
  rng : Z;
  netif_default : Z;
  ips : ip_st;
  udps : udp_st;
  raws : raw_st;
  ifst : if_st }.

Definition set_pb (s : nst) (v : pst) : nst :=
  Nst v (netifs s) (netif_list s) (arp_table s) (etharp_cached_entry s) (acds s) (stat_link s) (stat_etharp s) (frames s) (rng s) (netif_default s) (ips s) (udps s) (raws s) (ifst s).
Definition set_netifs (s : nst) (v : gmap Z netif) : nst :=
  Nst (pb s) v (netif_list s) (arp_table s) (etharp_cached_entry s) (acds s) (stat_link s) (stat_etharp s) (frames s) (rng s) (netif_default s) (ips s) (udps s) (raws s) (ifst s).
Definition set_arp_table (s : nst) (v : list etharp_entry) : nst :=
  Nst (pb s) (netifs s) (netif_list s) v (etharp_cached_entry s) (acds s) (stat_link s) (stat_etharp s) (frames s) (rng s) (netif_default s) (ips s) (udps s) (raws s) (ifst s).
Definition set_cached (s : nst) (v : Z) : nst :=
  Nst (pb s) (netifs s) (netif_list s) (arp_table s) v (acds s) (stat_link s) (stat_etharp s) (frames s) (rng s) (netif_default s) (ips s) (udps s) (raws s) (ifst s).
Definition set_acds (s : nst) (v : gmap Z acd) : nst :=
  Nst (pb s) (netifs s) (netif_list s) (arp_table s) (etharp_cached_entry s) v (stat_link s) (stat_etharp s) (frames s) (rng s) (netif_default s) (ips s) (udps s) (raws s) (ifst s).
Definition set_stat_link (s : nst) (v : stats_proto) : nst :=
  Nst (pb s) (netifs s) (netif_list s) (arp_table s) (etharp_cached_entry s) (acds s) v (stat_etharp s) (frames s) (rng s) (netif_default s) (ips s) (udps s) (raws s) (ifst s).
Definition set_stat_etharp (s : nst) (v : stats_proto) : nst :=
  Nst (pb s) (netifs s) (netif_list s) (arp_table s) (etharp_cached_entry s) (acds s) (stat_link s) v (frames s) (rng s) (netif_default s) (ips s) (udps s) (raws s) (ifst s).
Definition set_frames (s : nst) (v : list (list Z)) : nst :=
  Nst (pb s) (netifs s) (netif_list s) (arp_table s) (etharp_cached_entry s) (acds s) (stat_link s) (stat_etharp s) v (rng s) (netif_default s) (ips s) (udps s) (raws s) (ifst s).
Definition set_rng (s : nst) (v : Z) : nst :=
  Nst (pb s) (netifs s) (netif_list s) (arp_table s) (etharp_cached_entry s) (acds s) (stat_link s) (stat_etharp s) (frames s) v (netif_default s) (ips s) (udps s) (raws s) (ifst s).

Definition set_ips (s : nst) (v : ip_st) : nst :=
  Nst (pb s) (netifs s) (netif_list s) (arp_table s) (etharp_cached_entry s) (acds s) (stat_link s) (stat_etharp s) (frames s) (rng s) (netif_default s) v (udps s) (raws s) (ifst s).
Definition set_ip_id (s : nst) (v : Z) : nst :=
  set_ips s (IpSt v (ip_data (ips s)) (stat_ip (ips s)) (stat_icmp (ips s))).
Definition set_ip_data (s : nst) (v : ip_globals) : nst :=
  set_ips s (IpSt (ip_id (ips s)) v (stat_ip (ips s)) (stat_icmp (ips s))).

Definition set_udps (s : nst) (v : udp_st) : nst :=
  Nst (pb s) (netifs s) (netif_list s) (arp_table s) (etharp_cached_entry s) (acds s) (stat_link s) (stat_etharp s) (frames s) (rng s) (netif_default s) (ips s) v (raws s) (ifst s).
Definition set_raws (s : nst) (v : raw_st) : nst :=
  Nst (pb s) (netifs s) (netif_list s) (arp_table s) (etharp_cached_entry s) (acds s) (stat_link s) (stat_etharp s) (frames s) (rng s) (netif_default s) (ips s) (udps s) v (ifst s).

Definition set_ifst (s : nst) (v : if_st) : nst :=
  Nst (pb s) (netifs s) (netif_list s) (arp_table s) (etharp_cached_entry s) (acds s) (stat_link s) (stat_etharp s) (frames s) (rng s) (netif_default s) (ips s) (udps s) (raws s) v.
Definition set_netif_list (s : nst) (v : Z) : nst :=
  Nst (pb s) (netifs s) v (arp_table s) (etharp_cached_entry s) (acds s) (stat_link s) (stat_etharp s) (frames s) (rng s) (netif_default s) (ips s) (udps s) (raws s) (ifst s).
Definition set_netif_default (s : nst) (v : Z) : nst :=
  Nst (pb s) (netifs s) (netif_list s) (arp_table s) (etharp_cached_entry s) (acds s) (stat_link s) (stat_etharp s) (frames s) (rng s) v (ips s) (udps s) (raws s) (ifst s).
Definition set_autoips (s : nst) (v : gmap Z autoip) : nst := set_ifst s (IfSt (netif_num (ifst s)) v).

(** [LINK_STATS_INC(link.field)] and [ETHARP_STATS_INC(etharp.field)] *)
Definition LINK_STATS_INC (f : proto_field) (s : nst) : nst := set_stat_link s (proto_inc f (stat_link s)).
Definition ETHARP_STATS_INC (f : proto_field) (s : nst) : nst := set_stat_etharp s (proto_inc f (stat_etharp s)).

(** [IP_STATS_INC(ip.field)] and [ICMP_STATS_INC(icmp.field)] *)
Definition IP_STATS_INC (f : proto_field) (s : nst) : nst :=
  set_ips s (IpSt (ip_id (ips s)) (ip_data (ips s)) (proto_inc f (stat_ip (ips s))) (stat_icmp (ips s))).
Definition ICMP_STATS_INC (f : proto_field) (s : nst) : nst :=
  set_ips s (IpSt (ip_id (ips s)) (ip_data (ips s)) (stat_ip (ips s)) (proto_inc f (stat_icmp (ips s)))).

(** [UDP_STATS_INC(udp.field)] *)
Definition UDP_STATS_INC (f : proto_field) (s : nst) : nst := set_udps s (set_stat_udp (udps s) (proto_inc f (stat_udp (udps s)))).

(** A call into pbuf.c *)
Definition withp {A} (s : nst) (f : pst → out (A * pst)) : out (A * nst) :=
  '(a, p) ← f (pb s); mret (a, set_pb s p).

Definition get_netif (s : nst) (n : Z) : out netif := or_fault "struct netif" (netifs s !! n).
Definition get_entry (s : nst) (i : Z) : out etharp_entry :=
  if i <? 0 then Fault "arp_table" else or_fault "arp_table" (arp_table s !! Z.to_nat i).
Definition set_entry (s : nst) (i : Z) (e : etharp_entry) : nst :=
  set_arp_table s (<[Z.to_nat i := e]> (arp_table s)).
End State.
Arguments nst M : clear implicits.

(** What the program takes from elsewhere: the free functions of custom pbufs; the address of
    the local array of [netif_output]; [rand()] of the C library, from its state to the
    value and the next state; and the conflict callbacks of the address conflict
    detection clients, by function pointer. *)
Class NetEnv (M : Type) := {
  env_custom_free : Z → option (@pst M → out (@pst M));
  mac_send_buffer : Z;
  rand : Z → Z * Z;
  conflict_callback : Z → nst M → Z → acd_callback_enum → out (nst M) }.

(** The layer [ethernet_input] hands IPv4 packets to; [Ip4] is it. *)
Class Ip4Input (M : Type) := ip4_in : nst M → Z → Z → out (nst M).

(** ** Memory *)

(** [n] bytes from [a] on. *)
Fixpoint load (d : gmap Z Z) (a : Z) (n : nat) : out (list Z) :=
  match n with
  | O => mret []
  | S n' => b ← or_fault "read" (d !! a); l ← load d (a + 1) n'; mret (b :: l)
  end.

Fixpoint store (d : gmap Z Z) (a : Z) (l : list Z) : out (gmap Z Z) :=
  match l with
  | [] => mret d
  | b :: l' => _ ← or_fault "write" (d !! a); store (<[a:=b]> d) (a + 1) l'
  end.

(** A little-endian machine. *)
Definition le16 (v : Z) : list Z := [v mod 256; v / 256 mod 256].
Definition le32 (v : Z) : list Z := [v mod 256; v / 2 ^ 8 mod 256; v / 2 ^ 16 mod 256; v / 2 ^ 24 mod 256].
Definition of_le (l : list Z) : Z := foldr (λ b acc, b + 256 * acc) 0 l.

(** A local array comes into scope (its contents are indeterminate, 0 here) and goes. *)
Fixpoint local_array (n : nat) (a : Z) (d : gmap Z Z) : gmap Z Z :=
  match n with O => d | S n' => <[a:=0]> (local_array n' (a + 1) d) end.
Fixpoint drop_array (n : nat) (a : Z) (d : gmap Z Z) : gmap Z Z :=
  match n with O => d | S n' => delete a (drop_array n' (a + 1) d) end.

Section Netif.
Context {M : Type} `{PM : PbufAlloc M} {E : NetEnv M}.
Abbreviation pst := (@pst M).
Abbreviation nst := (nst M).

Definition rd (s : nst) (a n : Z) : out (list Z) := load (data (pb s)) a (Z.to_nat n).
Definition rd8 (s : nst) (a : Z) : out Z := l ← rd s a 1; mret (of_le l).
Definition rd16 (s : nst) (a : Z) : out Z := l ← rd s a 2; mret (of_le l).
Definition rd32 (s : nst) (a : Z) : out Z := l ← rd s a 4; mret (of_le l).
Definition wr (s : nst) (a : Z) (l : list Z) : out nst :=
  d ← store (data (pb s)) a l; mret (set_pb s (set_data (pb s) d)).

(** A [struct eth_addr *]: into memory, to [netif->hwaddr], into the ARP table, or to a
    constant or local struct. *)
Inductive eth_ptr :=
| EMem (a : Z)
| EHw (netif : Z)
| ETab (i : Z)
| EVal (l : list Z).

Definition rd_eth (s : nst) (e : eth_ptr) : out (list Z) :=
  match e with
  | EMem a => rd s a ETH_HWADDR_LEN
  | EHw n => f ← get_netif s n; mret (nf_hwaddr f)
  | ETab i => e ← get_entry s i; mret (ae_ethaddr e)
  | EVal l => mret l
  end.

(** ** Transmission

    [netif_output] of app.c with [nr_lan91c111_tx_frame]. *)
Definition netif_output (s : nst) (netif p : Z) : out (Z * nst) :=
  b ← get (pb s) p;
  let length := tot_len b in
  let s := LINK_STATS_INC Xmit s in
  let scope := set_data (pb s) (local_array (Z.to_nat length) mac_send_buffer (data (pb s))) in
  '(_, q) ← pbuf_copy_partial scope p mac_send_buffer length 0;
  frame ← load (data q) mac_send_buffer (Z.to_nat length);
  let s := set_pb s (set_data q (drop_array (Z.to_nat length) mac_send_buffer (data q))) in
  mret (ERR_OK, set_frames s (frames s ++ [frame])).
End Netif.
