(* ===== verification/NetInv.v ===== *)
(** * The invariant of the network layer

    [ninv s live own]: the packet buffers are consistent, the references the ARP table holds
    to waiting packets are counted beside those ([own]) of everybody else, the
    table and the lists of interfaces and conflict detection structs are well
    formed.  The lemmas say what reading and writing memory and transmitting a
    packet do to such a state. *)
From S2P Require Import Prelude Def Stats Iface Ip4Addr Pbuf PbufChain PbufClient PbufData Pcb Netif.

(** ** Loading and storing bytes *)

(** [d] after storing [l] from [a] on. *)
Fixpoint put (d : gmap Z Z) (a : Z) (l : list Z) : gmap Z Z :=
  match l with [] => d | b :: l' => put (<[a:=b]> d) (a + 1) l' end.

Lemma put_lookup l : ∀ d a x, put d a l !! x =
  if decide (a ≤ x < a + Z.of_nat (length l)) then l !! Z.to_nat (x - a) else d !! x.
Proof.
  induction l as [|b l IH]; intros d a x; cbn [put length]; [by rewrite decide_False by lia|].
  rewrite IH. destruct (decide (x = a)) as [->|Hne].
  - rewrite decide_False, decide_True, lookup_insert_eq by lia. by rewrite Z.sub_diag.
  - rewrite lookup_insert_ne by done. repeat case_decide; try lia; [|done].
    replace (Z.to_nat (x - a)) with (S (Z.to_nat (x - (a + 1)))) by lia. done.
Qed.

Lemma put_out d a l x : ¬ (a ≤ x < a + Z.of_nat (length l)) → put d a l !! x = d !! x.
Proof. intros Hx. by rewrite put_lookup, decide_False. Qed.

Lemma put_is_Some d a l x : is_Some (d !! x) → is_Some (put d a l !! x).
Proof.
  intros Hd. rewrite put_lookup. case_decide; [|done]. apply lookup_lt_is_Some. lia.
Qed.

Lemma put_is_Some_inv d a l x : mapped d a (Z.of_nat (length l)) → is_Some (put d a l !! x) → is_Some (d !! x).
Proof. intros Hm. rewrite put_lookup. case_decide; [intros _; by apply Hm|done]. Qed.

Lemma put_mapped d a l b n : mapped d b n → mapped (put d a l) b n.
Proof. intros Hm x Hx. by apply put_is_Some, Hm. Qed.

Lemma put_seg d a l n : n = Z.of_nat (length l) → seg (put d a l) a n = Some <$> l.
Proof.
  intros ->. apply list_eq_same_length with (length l); rewrite ?seg_length, ?length_fmap; [lia|lia|].
  intros i x y Hi. rewrite seg_lookup, list_lookup_fmap by lia. intros [= <-].
  rewrite put_lookup, decide_True by lia. replace (Z.to_nat (a + Z.of_nat i - a)) with i by lia.
  destruct (l !! i); cbn; congruence.
Qed.

Lemma put_seg_apart d a l b n : apart a (Z.of_nat (length l)) b n → seg (put d a l) b n = seg d b n.
Proof. unfold apart. intros Ha. apply seg_ext. intros i Hi. apply put_out. lia. Qed.

Lemma put_bytes_ok d a l : bytes_ok d → Forall is_u8 l → bytes_ok (put d a l).
Proof.
  intros Hd Hl x v. rewrite put_lookup. case_decide; [|by apply Hd]. intros Hx.
  rewrite Forall_forall in Hl. apply Hl. by eapply list_elem_of_lookup_2.
Qed.

Lemma store_run l : ∀ d a, mapped d a (Z.of_nat (length l)) → store d a l = Clean (put d a l).
Proof.
  induction l as [|b l IH]; intros d a Hm; [done|]. cbn [store put length] in *.
  destruct (Hm a) as [v Hv]; [lia|]. rewrite Hv. out_simp. apply IH.
  intros x Hx. destruct (decide (x = a)) as [->|Hne]; [by rewrite lookup_insert_eq|].
  rewrite lookup_insert_ne by done. apply Hm. lia.
Qed.

Lemma seg_S d a n : seg d a (Z.of_nat (S n)) = (d !! a) :: seg d (a + 1) (Z.of_nat n).
Proof.
  rewrite Nat2Z.inj_succ, <- Z.add_1_l, seg_app by lia. unfold seg at 1.
  by rewrite (seqZ_cons a 1), (seqZ_nil _ (Z.pred 1)) by lia.
Qed.

Lemma load_run n : ∀ d a, mapped d a (Z.of_nat n) →
  ∃ l, load d a n = Clean l ∧ Some <$> l = seg d a (Z.of_nat n).
Proof.
  induction n as [|n IH]; intros d a Hm; [by exists []|]. cbn [load].
  destruct (Hm a) as [v Hv]; [lia|]. rewrite Hv. out_simp.
  destruct (IH d (a + 1)) as (l & -> & Hl); [intros x Hx; apply Hm; lia|]. out_simp.
  exists (v :: l). split; [done|]. by rewrite seg_S, Hv, fmap_cons, Hl.
Qed.

Lemma load_val n d a l : Some <$> l = seg d a (Z.of_nat n) → load d a n = Clean l.
Proof.
  intros Hl. assert (mapped d a (Z.of_nat n)) as Hm.
  { intros x Hx. assert (seg d a (Z.of_nat n) !! Z.to_nat (x - a) = Some (d !! x)) as Hs.
    { rewrite seg_lookup by lia. do 2 f_equal. lia. }
    rewrite <- Hl, list_lookup_fmap in Hs. destruct (l !! Z.to_nat (x - a)); [|done].
    injection Hs as <-. eauto. }
  destruct (load_run n d a Hm) as (l' & -> & Hl'). f_equal.
  apply (inj (fmap Some)). by rewrite Hl, Hl'.
Qed.

Lemma load_bytes n d a l : bytes_ok d → load d a n = Clean l → Forall is_u8 l.
Proof.
  intros Hd. revert a l. induction n as [|n IH]; intros a l; cbn [load]; [intros [= <-]; constructor|].
  destruct (d !! a) as [v|] eqn:Hv; [|done]. out_simp.
  intros (l' & Hl' & [= <-])%bind_clean_inv. constructor; [by eapply Hd|by eapply IH].
Qed.

(** Stores are reasoned about through the lemmas above. *)
#[global] Opaque put.

(** A local array is gone without a trace. *)
Lemma local_lookup n : ∀ a d x, local_array n a d !! x =
  if decide (a ≤ x < a + Z.of_nat n) then Some 0 else d !! x.
Proof.
  induction n as [|n IH]; intros a d x; cbn [local_array]; [by rewrite decide_False by lia|].
  destruct (decide (x = a)) as [->|Hne]; [by rewrite lookup_insert_eq, decide_True by lia|].
  rewrite lookup_insert_ne, IH by done. repeat case_decide; (done || lia).
Qed.

Lemma drop_lookup n : ∀ a d x, drop_array n a d !! x =
  if decide (a ≤ x < a + Z.of_nat n) then None else d !! x.
Proof.
  induction n as [|n IH]; intros a d x; cbn [drop_array]; [by rewrite decide_False by lia|].
  destruct (decide (x = a)) as [->|Hne]; [by rewrite lookup_delete_eq, decide_True by lia|].
  rewrite lookup_delete_ne, IH by done. repeat case_decide; (done || lia).
Qed.

Lemma drop_local n a d d' : (∀ x, a ≤ x < a + Z.of_nat n → d !! x = None) →
  same_outside (local_array n a d) d' a (Z.of_nat n) → drop_array n a d' = d.
Proof.
  intros Hn Hs. apply map_eq. intros x. rewrite drop_lookup. case_decide as Hx; [by rewrite Hn|].
  by rewrite Hs, local_lookup, decide_False.
Qed.

(** ** Little-endian numbers *)

Lemma le16_bytes v : Forall is_u8 (le16 v).
Proof. repeat constructor; unfold is_u8; apply Z.mod_pos_bound; lia. Qed.
Lemma le32_bytes v : Forall is_u8 (le32 v).
Proof. repeat constructor; unfold is_u8; apply Z.mod_pos_bound; lia. Qed.

Lemma of_le_le16 v : is_u16 v → of_le (le16 v) = v.
Proof. intros Hv. unfold of_le, le16. cbn [foldr]. width. Qed.

Lemma of_le_le32 v : is_u32 v → of_le (le32 v) = v.
Proof.
  intros Hv. unfold of_le, le32. cbn [foldr]. change (2 ^ 8) with 256. change (2 ^ 16) with 65536.
  change (2 ^ 24) with 16777216. width.
Qed.

Lemma of_le_range l n : Forall is_u8 l → length l = n → 0 ≤ of_le l < 256 ^ Z.of_nat n.
Proof.
  intros Hl <-. induction Hl as [|b l Hb Hl IH]; [done|]. cbn [of_le foldr length].
  change (foldr _ 0 l) with (of_le l). unfold is_u8 in Hb.
  rewrite Nat2Z.inj_succ, Z.pow_succ_r by lia. nia.
Qed.

(** ** Linked lists in a map *)

(** Following [nxt] from [p] visits exactly [l] and ends. *)
Inductive nchain {A} (nxt : A → Z) (m : gmap Z A) : Z → list Z → Prop :=
| nchain_nil : nchain nxt m NULL []
| nchain_cons p x l : p ≠ NULL → m !! p = Some x → nchain nxt m (nxt x) l → nchain nxt m p (p :: l).
#[export] Hint Constructors nchain : core.

Lemma nchain_det {A} (nxt : A → Z) m p l1 l2 : nchain nxt m p l1 → nchain nxt m p l2 → l1 = l2.
Proof.
  intros H. revert l2. induction H as [|p x l Hp Hx Hc IH]; intros l2 H2; inversion H2; subst; try done.
  assert (x = x0) as <- by congruence. f_equal. by apply IH.
Qed.

Lemma nchain_suffix {A} (nxt : A → Z) m p l1 q l2 : nchain nxt m p (l1 ++ q :: l2) → nchain nxt m q (q :: l2).
Proof.
  revert p. induction l1 as [|q' l1 IH]; intros p; cbn; inversion 1; subst; [by econstructor|by eapply IH].
Qed.

Lemma nchain_elem {A} (nxt : A → Z) m p l q : nchain nxt m p l → q ∈ l → q ≠ NULL ∧ is_Some (m !! q).
Proof.
  intros Hc (l1 & l2 & ->)%list_elem_of_split. apply nchain_suffix in Hc. inversion Hc; subst. eauto.
Qed.

Lemma nchain_NoDup {A} (nxt : A → Z) m p l : nchain nxt m p l → NoDup l.
Proof.
  induction 1 as [|p x l Hp Hx Hc IH]; [constructor|]. constructor; [|done].
  intros (l1 & l2 & ->)%list_elem_of_split.
  pose proof (nchain_suffix _ _ _ _ _ _ Hc) as Hc'.
  assert (p :: l1 ++ p :: l2 = p :: l2) as Heq.
  { eapply nchain_det; [|exact Hc']. by econstructor. }
  apply (f_equal length) in Heq. cbn in Heq. rewrite length_app in Heq. cbn in Heq. lia.
Qed.

Lemma nchain_length {A} (nxt : A → Z) m p l : nchain nxt m p l → (length l ≤ size m)%nat.
Proof.
  intros Hc. rewrite <- (size_list_to_set (C := gset Z) l) by (by eapply nchain_NoDup).
  rewrite <- (size_dom (D := gset Z)). apply subseteq_size. intros x Hx%elem_of_list_to_set.
  apply elem_of_dom. by destruct (nchain_elem _ _ _ _ _ Hc Hx).
Qed.

(** The links are all that matters. *)
Lemma nchain_links {A} (nxt : A → Z) m m' p l : nchain nxt m p l → nxt <$> m' = nxt <$> m → nchain nxt m' p l.
Proof.
  intros Hc Heq. induction Hc as [|p x l Hp Hx Hc IH]; [done|].
  assert ((nxt <$> m') !! p = Some (nxt x)) as Hl by (rewrite Heq, lookup_fmap, Hx; done).
  rewrite lookup_fmap in Hl. destruct (m' !! p) as [x'|] eqn:Hx'; [|done].
  injection Hl as Hn. apply (nchain_cons _ _ _ x'); [done..|]. by rewrite Hn.
Qed.

(** ** References from the ARP table *)

Definition holds (e : etharp_entry) (x : Z) : Z := if decide (ae_q e = x ∧ x ≠ NULL) then 1 else 0.

Definition refs (T : list etharp_entry) (x : Z) : Z := foldr (λ e n, holds e x + n) 0 T.

Lemma holds_range e x : 0 ≤ holds e x ≤ 1.
Proof. unfold holds. case_decide; lia. Qed.

Lemma refs_nonneg T x : 0 ≤ refs T x.
Proof. induction T as [|e T IH]; cbn; [lia|]. pose proof (holds_range e x). unfold refs in IH. lia. Qed.

Lemma refs_app T1 T2 x : refs (T1 ++ T2) x = refs T1 x + refs T2 x.
Proof. induction T1 as [|e T1 IH]; [done|]. cbn [app refs foldr] in *. unfold refs in *. lia. Qed.

Lemma refs_insert T i e e' x : T !! i = Some e → refs (<[i:=e']> T) x = refs T x - holds e x + holds e' x.
Proof.
  intros Hi. pose proof (lookup_lt_Some _ _ _ Hi) as Hlt.
  rewrite insert_take_drop by done. rewrite <- (take_drop_middle T i e Hi) at 3. rewrite !refs_app. cbn. lia.
Qed.

Lemma refs_insert_same T i e e' x : T !! i = Some e → ae_q e' = ae_q e → refs (<[i:=e']> T) x = refs T x.
Proof. intros Hi Hq. rewrite (refs_insert T i e) by done. unfold holds. rewrite Hq. lia. Qed.

Lemma refs_lookup T i e : T !! i = Some e → ae_q e ≠ NULL → 1 ≤ refs T (ae_q e).
Proof.
  intros Hi Hq. rewrite <- (take_drop_middle T i e Hi), refs_app. cbn.
  pose proof (refs_nonneg (take i T) (ae_q e)). pose proof (refs_nonneg (drop (S i) T) (ae_q e)).
  unfold refs in *. unfold holds at 2. rewrite decide_True by done. lia.
Qed.

Lemma holds_null e x : ae_q e = NULL → holds e x = 0.
Proof. intros Hq. unfold holds. rewrite decide_False; [done|]. intros [? ?]. congruence. Qed.

(** ** The invariant *)

Definition mac_ok (l : list Z) : Prop := length l = 6%nat ∧ Forall is_u8 l.

Record netif_ok (f : netif) : Prop := NetifOk {
  nf_ok_ip : is_u32 (nf_ip_addr f);
  nf_ok_mask : is_u32 (nf_netmask f);
  nf_ok_gw : is_u32 (nf_gw f);
  nf_ok_mac : mac_ok (nf_hwaddr f);
  nf_ok_len : nf_hwaddr_len f = ETH_HWADDR_LEN }.

(** Only a pending entry has a waiting packet; an entry in use names an interface and is
    younger than the age at which [etharp_tmr] drops it. *)
Record entry_ok (N : gmap Z netif) (e : etharp_entry) : Prop := EntryOk {
  en_q : ae_q e ≠ NULL → ae_state e = ETHARP_STATE_PENDING;
  en_netif : ae_state e ≠ ETHARP_STATE_EMPTY → is_Some (N !! ae_netif e);
  en_ip : is_u32 (ae_ipaddr e);
  en_mac : mac_ok (ae_ethaddr e);
  en_age : 0 ≤ ae_ctime e < 300;
  en_pending : ae_state e = ETHARP_STATE_PENDING → ae_ctime e < 5 }.

(** No two entries in use are for the same address on the same interface. *)
Definition table_unique (T : list etharp_entry) : Prop := ∀ i j e e', T !! i = Some e → T !! j = Some e' →
  ae_state e ≠ ETHARP_STATE_EMPTY → ae_state e' ≠ ETHARP_STATE_EMPTY →
  ae_ipaddr e = ae_ipaddr e' → ae_netif e = ae_netif e' → i = j.

Record table_ok (N : gmap Z netif) (T : list etharp_entry) : Prop := TableOk {
  tb_len : length T = 10%nat;
  tb_entry i e : T !! i = Some e → entry_ok N e;
  tb_unique : table_unique T }.

(** The fields of the protocol control blocks are in the range of their C types. *)
Record ip_pcb_ok (x : ip_pcb) : Prop := IpPcbOk {
  io_local : is_u32 (local_ip x);
  io_remote : is_u32 (remote_ip x);
  io_idx : is_u8 (netif_idx x);
  io_options : is_u8 (so_options x);
  io_tos : is_u8 (pcb_tos x);
  io_ttl : is_u8 (pcb_ttl x) }.

Record udp_pcb_ok (x : udp_pcb) : Prop := UdpPcbOk {
  uo_ip : ip_pcb_ok (u_ip x);
  uo_flags : is_u8 (u_flags x);
  uo_local_port : is_u16 (u_local_port x);
  uo_remote_port : is_u16 (u_remote_port x) }.

(** The structs in use and the free ones are those of the pool; a struct on the list is bound
    to a port. *)
Definition MEMP_NUM_UDP_PCB : nat := 4.
Record udp_ok (u : udp_st) : Prop := UdpOk {
  uo_list : ∃ l, nchain u_next (upcbs u) (udp_pcbs u) l ∧ ∀ n x, n ∈ l → upcbs u !! n = Some x → u_local_port x ≠ 0;
  uo_pcb n x : upcbs u !! n = Some x → n ≠ NULL ∧ udp_pcb_ok x;
  uo_pool n : n ∈ udp_pool u → n ≠ NULL ∧ upcbs u !! n = None;
  uo_nodup : NoDup (udp_pool u);
  uo_size : (size (upcbs u) + length (udp_pool u) = MEMP_NUM_UDP_PCB)%nat;
  uo_port : 0xc000 ≤ udp_port u ≤ 0xffff }.

Record raw_pcb_ok (x : raw_pcb) : Prop := RawPcbOk {
  ro_ip : ip_pcb_ok (r_ip x);
  ro_protocol : is_u8 (r_protocol x);
  ro_flags : is_u8 (r_flags x) }.

Definition MEMP_NUM_RAW_PCB : nat := 4.
Record raw_ok (r : raw_st) : Prop := RawOk {
  ro_list : ∃ l, nchain r_next (rpcbs r) (raw_pcbs r) l;
  ro_pcb n x : rpcbs r !! n = Some x → n ≠ NULL ∧ raw_pcb_ok x;
  ro_pool n : n ∈ raw_pool r → n ≠ NULL ∧ rpcbs r !! n = None;
  ro_nodup : NoDup (raw_pool r);
  ro_size : (size (rpcbs r) + length (raw_pool r) = MEMP_NUM_RAW_PCB)%nat }.

Section Inv.
Context {M : Type} `{PM : PbufAlloc M} {E : NetEnv M}.
Abbreviation pst := (@pst M).
Abbreviation nst := (nst M).

(** Memory: payload that lies outside its struct's block exists, and the local array does not. *)
Record mem_ok (s : pst) : Prop := MemOk {
  mo_ext p b : pbufs s !! p = Some b → ¬ contiguous b → mapped (data s) (payload b) (len b);
  mo_bytes : bytes_ok (data s);
  mo_stack x : mac_send_buffer ≤ x < mac_send_buffer + 65536 → data s !! x = None;
  mo_stack_null : mac_send_buffer ≠ NULL }.

(** The fields of a conflict detection struct are in the range of their C types. *)
Record acd_ok (x : acd) : Prop := AcdOk {
  ao_ip : is_u32 (acd_ipaddr x);
  ao_sent : is_u8 (acd_sent_num x);
  ao_ttw : is_u16 (acd_ttw x);
  ao_last : is_u8 (acd_lastconflict x);
  ao_conflicts : is_u8 (acd_num_conflicts x) }.

(** The interfaces and their conflict detection structs. *)
Record links_ok (N : gmap Z netif) (nl df : Z) (A : gmap Z acd) : Prop := LinksOk {
  lo_netif n f : N !! n = Some f → n ≠ NULL ∧ netif_ok f;
  lo_list : ∃ l, nchain nf_next N nl l;
  lo_default : df ≠ NULL → is_Some (N !! df);
  lo_acds n f : N !! n = Some f → ∃ l, nchain acd_next A (nf_acd_list f) l;
  lo_types a x : A !! a = Some x → acd_ok x }.

(** The fields of an AutoIP client are in the range of their C types, and its address is link-local once it has one. *)
Record autoip_ok (x : autoip) : Prop := AutoipOk {
  ak_ip : is_u32 (llipaddr x);
  ak_tried : is_u8 (tried_llipaddr x);
  ak_local : ip4_addr_isany (llipaddr x) = true ∨ ip4_addr_islinklocal (llipaddr x) = true }.

(** The client data of an interface points to a client with its conflict detection struct. *)
Record clients_ok (N : gmap Z netif) (A : gmap Z acd) (C : gmap Z autoip) : Prop := ClientsOk {
  co_client n f : N !! n = Some f → nf_autoip f ≠ NULL → is_Some (C !! nf_autoip f) ∧ is_Some (A !! (nf_autoip f + AUTOIP_ACD));
  co_types a x : C !! a = Some x → autoip_ok x }.

Lemma clients_acds N A A' C : clients_ok N A C → (∀ a, is_Some (A !! a) → is_Some (A' !! a)) → clients_ok N A' C.
Proof. intros [H HT] Ha. split; [|done]. intros n f Hf Hn. destruct (H n f Hf Hn). auto. Qed.

Lemma clients_put N A C n f g : clients_ok N A C → N !! n = Some f → nf_autoip g = nf_autoip f → clients_ok (<[n:=g]> N) A C.
Proof. intros [H HT] Hf Hg. split; [|done]. intros m x [[<- <-]|[Hne Hx]]%lookup_insert_Some; [rewrite Hg; by apply (H n)|by apply (H m)]. Qed.

Record ninv (s : nst) (live : gmap Z (asrc * Z)) (own : Z → Z) : Prop := Ninv {
  ni_pb : inv (pb s) live (λ x, own x + refs (arp_table s) x);
  ni_own x : 0 ≤ own x;
  ni_mem : mem_ok (pb s);
  ni_links : links_ok (netifs s) (netif_list s) (netif_default s) (acds s);
  ni_table : table_ok (netifs s) (arp_table s);
  ni_cached : 0 ≤ etharp_cached_entry s < ARP_TABLE_SIZE;
  ni_udp : udp_ok (udps s);
  ni_raw : raw_ok (raws s);
  ni_auto : clients_ok (netifs s) (acds s) (autoips (ifst s)) }.

Lemma block_mapped (s : pst) live own p b : inv s live own → pbufs s !! p = Some b → contiguous b →
  mapped (data s) (p + SIZEOF_STRUCT_PBUF) (payload b + len b - (p + SIZEOF_STRUCT_PBUF)).
Proof.
  intros Hi Hb Hc x Hx. destruct (bo_live _ _ _ (i_block _ _ _ Hi _ _ Hb)) as (k & n & Hl & _ & _ & Hr).
  destruct (Hr Hc) as [H1 H2]. apply (i_data _ _ _ Hi).
  apply (pa_region _ _ _ _ _ (i_alloc _ _ _ Hi) Hl). unfold SIZEOF_STRUCT_PBUF in *. lia.
Qed.

Global Instance contiguous_dec b : Decision (contiguous b).
Proof. unfold contiguous. apply _. Defined.

Lemma ninv_mapped s live own p b : ninv s live own → pbufs (pb s) !! p = Some b →
  mapped (data (pb s)) (payload b) (len b).
Proof.
  intros Hi Hb. destruct (decide (contiguous b)) as [Hc|Hc]; [|by apply (mo_ext _ (ni_mem _ _ _ Hi) p)].
  intros x Hx. apply (block_mapped _ _ _ _ _ (ni_pb _ _ _ Hi) Hb Hc).
  destruct (bo_live _ _ _ (i_block _ _ _ (ni_pb _ _ _ Hi) _ _ Hb)) as (k & n & Hl & _ & _ & Hr).
  destruct (Hr Hc). lia.
Qed.

Lemma ninv_readable s live own p l : ninv s live own → chained (pbufs (pb s)) p l → readable (pb s) p l.
Proof.
  intros Hi Hc. split; [done|..]; apply Forall_forall; intros [q b] Hin;
    destruct (chained_elem _ _ _ _ _ Hc Hin) as [_ Hb]; cbn.
  - apply (bo_len _ _ _ (i_block _ _ _ (ni_pb _ _ _ Hi) _ _ Hb)).
  - by eapply ninv_mapped.
Qed.

(** The local array of [netif_output] overlaps no payload. *)
Lemma stack_foreign s live own p l n : ninv s live own → chained (pbufs (pb s)) p l → 0 ≤ n ≤ 65536 →
  foreign l mac_send_buffer n.
Proof.
  intros Hi Hc Hn. apply Forall_forall. intros [q b] Hin. cbn.
  destruct (chained_elem _ _ _ _ _ Hc Hin) as [_ Hb]. pose proof (ninv_mapped _ _ _ _ _ Hi Hb) as Hm.
  destruct (decide (apart mac_send_buffer n (payload b) (len b))) as [|Hna]; [done|]. exfalso.
  unfold apart in Hna. set (x := Z.max mac_send_buffer (payload b)).
  assert (data (pb s) !! x = None) as Hx by (apply (mo_stack _ (ni_mem _ _ _ Hi)); lia).
  destruct (Hm x) as [v Hv]; [lia|]. congruence.
Qed.

(** ** Transmission *)

Lemma local_readable s live own p l n : ninv s live own → chained (pbufs (pb s)) p l → 0 ≤ n ≤ 65536 →
  readable (set_data (pb s) (local_array (Z.to_nat n) mac_send_buffer (data (pb s)))) p l.
Proof.
  intros Hi Hc Hn. destruct (ninv_readable _ _ _ _ _ Hi Hc) as [H1 H2 H3]. split; [done..|].
  apply (Forall_impl _ _ _ H3). intros kv Hm x Hx. cbn [data set_data]. rewrite local_lookup.
  case_decide; [eauto|by apply Hm].
Qed.

Lemma local_content s live own p l n : ninv s live own → chained (pbufs (pb s)) p l → 0 ≤ n ≤ 65536 →
  content (local_array (Z.to_nat n) mac_send_buffer (data (pb s))) l = content (data (pb s)) l.
Proof.
  intros Hi Hc Hn. apply content_frame. apply (Forall_impl _ _ _ (stack_foreign _ _ _ _ _ n Hi Hc Hn)).
  intros kv Ha. unfold apart in Ha. apply seg_ext. intros i Hx. by rewrite local_lookup, decide_False by lia.
Qed.

(** [netif_output] hands the bytes of the packet to the driver and changes nothing else. *)
Lemma netif_output_run s live own n p b l : ninv s live own → pbufs (pb s) !! p = Some b →
  chained (pbufs (pb s)) p l →
  ∃ F, netif_output s n p = Clean (ERR_OK, set_frames (LINK_STATS_INC Xmit s) (frames s ++ [F])) ∧
    (tot_len b = lens l → Some <$> F = content (data (pb s)) l).
Proof.
  intros Hi Hb Hc. pose proof (bo_tot _ _ _ (i_block _ _ _ (ni_pb _ _ _ Hi) _ _ Hb)) as Htot.
  unfold is_u16 in Htot. set (T := tot_len b) in *.
  pose proof (inv_pos _ _ _ _ _ (ni_pb _ _ _ Hi) Hb) as Hp.
  pose proof (local_readable _ _ _ _ _ T Hi Hc ltac:(lia)) as Hr.
  destruct (copy_partial_loop_spec l (chain_fuel (pb s))
    (set_data (pb s) (local_array (Z.to_nat T) mac_send_buffer (data (pb s)))) p mac_send_buffer T 0 0 0)
    as (d' & H1 & H2 & H3); try done; try lia; rewrite ?Z.add_0_r in *.
  { apply (readable_fuel _ _ _ (ninv_readable _ _ _ _ _ Hi Hc)). }
  { intros x Hx. cbn [data set_data]. rewrite local_lookup, decide_True by lia. eauto. }
  { apply (stack_foreign _ _ _ _ _ _ Hi Hc). lia. }
  set (k := Z.min T (Z.max 0 (lens l - 0))) in *.
  assert (mapped d' mac_send_buffer T) as Hmap.
  { intros x Hx. destruct (decide (x < mac_send_buffer + k)) as [Hlt|Hge].
    - assert (seg d' mac_send_buffer k !! Z.to_nat (x - mac_send_buffer) = Some (d' !! x)) as Hs
        by (rewrite seg_lookup by lia; do 2 f_equal; lia).
      rewrite H2 in Hs. apply list_elem_of_lookup_2, elem_of_take in Hs as (j & Hs & _).
      rewrite lookup_drop in Hs. apply list_elem_of_lookup_2 in Hs.
      pose proof (content_mapped _ _ (rd_mapped _ _ _ Hr)) as Hcm. rewrite Forall_forall in Hcm. by apply Hcm.
    - rewrite H3 by lia. cbn [data set_data]. rewrite local_lookup, decide_True by lia. eauto. }
  destruct (load_run (Z.to_nat T) d' mac_send_buffer) as (F & HF & HF'); [by rewrite Z2Nat.id by lia|].
  exists F. split.
  - unfold netif_output, get. rewrite Hb. out_simp. fold T. unfold pbuf_copy_partial.
    rewrite (proj2 (Z.eqb_neq p NULL)) by (unfold NULL; lia).
    rewrite (proj2 (Z.eqb_neq mac_send_buffer NULL)) by apply (mo_stack_null _ (ni_mem _ _ _ Hi)).
    cbn [pb LINK_STATS_INC set_stat_link] in *. unfold chain_fuel in *. cbn [pbufs set_data] in *.
    rewrite H1. out_simp. cbn [data set_data]. rewrite HF. out_simp. unfold mret, out_ret. do 2 f_equal.
    rewrite (drop_local _ _ (data (pb s)) d').
    + by destruct s as [[]].
    + intros x Hx. apply (mo_stack _ (ni_mem _ _ _ Hi)). lia.
    + intros x Hx. apply H3. lia.
  - intros Heq. rewrite HF', Z2Nat.id by lia. assert (k = T) as Hk by (unfold k; lia). rewrite Hk in H2.
    rewrite H2. change (Z.to_nat 0) with 0%nat. rewrite drop_0. cbn [data set_data].
    rewrite (local_content _ _ _ _ _ _ Hi Hc) by lia. apply take_ge.
    rewrite content_length; [lia|]. apply (inv_lens_pos _ _ _ _ _ (ni_pb _ _ _ Hi) Hc).
Qed.

(** ** Steps that preserve the invariant *)

(** Bytes that exist are overwritten. *)
Lemma mem_ok_put (s : pst) a l : mem_ok s → Forall is_u8 l → mapped (data s) a (Z.of_nat (length l)) →
  mem_ok (set_data s (put (data s) a l)).
Proof.
  intros [H1 H2 H3 H4] Hl Hm. split; cbn [data set_data pbufs].
  - intros p b Hb Hc. by eapply put_mapped, H1.
  - by apply put_bytes_ok.
  - intros x Hx. destruct (put (data s) a l !! x) as [v|] eqn:Hv; [|done].
    destruct (put_is_Some_inv (data s) a l x Hm) as [w Hw]; [by rewrite Hv|]. by rewrite H3 in Hw.
  - done.
Qed.

Lemma inv_put (s : pst) live own a l : inv s live own → inv (set_data s (put (data s) a l)) live own.
Proof. intros [? ? ? ? ? ? H]. split; try done. intros x Hx. by apply put_is_Some, H. Qed.

Lemma ninv_put s live own a l : ninv s live own → Forall is_u8 l →
  mapped (data (pb s)) a (Z.of_nat (length l)) →
  ninv (set_pb s (set_data (pb s) (put (data (pb s)) a l))) live own.
Proof.
  intros [H1 H2 H3 H4 H5 H6 H7 H8 H9] Hl Hm. split; cbn [pb set_pb netifs arp_table acds netif_list etharp_cached_entry]; try done.
  - by apply inv_put.
  - by apply mem_ok_put.
Qed.

Lemma wr_run (s : nst) a l : mapped (data (pb s)) a (Z.of_nat (length l)) →
  wr s a l = Clean (set_pb s (set_data (pb s) (put (data (pb s)) a l))).
Proof. intros Hm. unfold wr. by rewrite store_run. Qed.

(** The fields the invariant reads. *)
Definition same_net (s s' : nst) : Prop :=
  pb s' = pb s ∧ netifs s' = netifs s ∧ netif_list s' = netif_list s ∧ arp_table s' = arp_table s ∧
  etharp_cached_entry s' = etharp_cached_entry s ∧ acds s' = acds s ∧ netif_default s' = netif_default s ∧
  udps s' = udps s ∧ raws s' = raws s ∧ ifst s' = ifst s.

Lemma ninv_same s s' live own : same_net s s' → ninv s live own → ninv s' live own.
Proof.
  intros (H1 & H2 & H3 & H4 & H5 & H6 & H7 & H8 & H9 & H10) [? ? ? ? ? ? ? ? ?].
  split; rewrite ?H1, ?H2, ?H3, ?H4, ?H5, ?H6, ?H7, ?H8, ?H9, ?H10; done.
Qed.

Lemma frames_set_pb (s : nst) q : frames (set_pb s q) = frames s.
Proof. done. Qed.

(** A call into pbuf.c that returns. *)
Lemma withp_run {A} (s : nst) (f : pst → out (A * pst)) a q : f (pb s) = Clean (a, q) →
  withp s f = Clean (a, set_pb s q).
Proof. intros H. unfold withp. rewrite H. by out_simp. Qed.

Lemma ninv_etharp_stat f s live own : ninv s live own → ninv (ETHARP_STATS_INC f s) live own.
Proof. by apply ninv_same. Qed.
Lemma ninv_link_stat f s live own : ninv s live own → ninv (LINK_STATS_INC f s) live own.
Proof. by apply ninv_same. Qed.
Lemma ninv_ips s live own v : ninv s live own → ninv (set_ips s v) live own.
Proof. by apply ninv_same. Qed.
Lemma ninv_frames s live own F : ninv s live own → ninv (set_frames s F) live own.
Proof. by apply ninv_same. Qed.

Lemma ninv_own_ext s live own own' : ninv s live own → (∀ x, own x = own' x) → ninv s live own'.
Proof.
  intros [H1 H2 ? ? ? ? ? ?] Heq. split; try done.
  - apply (inv_own_ext _ _ _ _ H1). intros x. by rewrite Heq.
  - intros x. by rewrite <- Heq.
Qed.

(** Only memory that no block in use contains may have changed. *)
Definition keeps (live : gmap Z (asrc * Z)) (d d' : gmap Z Z) : Prop := ∀ x,
  (pa_arena x → ∃ p k n, live !! p = Some (k, n) ∧ p ≤ x < p + n) → d' !! x = d !! x.

Lemma keeps_refl live d : keeps live d d.
Proof. by intros x _. Qed.

Lemma keeps_trans live d1 d2 d3 : keeps live d1 d2 → keeps live d2 d3 → keeps live d1 d3.
Proof. intros H1 H2 x Hx. by rewrite H2, H1. Qed.

(** The payload of every struct is kept when only free memory is written. *)
Lemma keeps_content (s : pst) live own d' p l : inv s live own → keeps live (data s) d' →
  chained (pbufs s) p l → Forall (λ kv, contiguous kv.2) l → content d' l = content (data s) l.
Proof.
  intros Hi Hk Hc Hcl. apply content_frame. rewrite Forall_forall in Hcl |- *. intros [q b] Hin.
  specialize (Hcl _ Hin). destruct (chained_elem _ _ _ _ _ Hc Hin) as [_ Hb]. cbn in *.
  destruct (bo_live _ _ _ (i_block _ _ _ Hi _ _ Hb)) as (k & n & Hl & _ & _ & Hr).
  destruct (Hr Hcl) as [H1 H2]. apply seg_ext. intros i Hix. apply Hk. intros _. exists q, k, n.
  unfold SIZEOF_STRUCT_PBUF in H1. split; [done|lia].
Qed.

(** ** Freeing and allocating *)

(** Chains of what is left are the chains there were. *)
Lemma sub_ref_chain B B' p l l' : sub_ref B B' → chained B' p l' → chained B p l →
  l'.*1 = l.*1 ∧ view l' = view l ∧ (packet l → packet l').
Proof.
  intros Hs Hc. revert l. induction Hc as [|p b' l' Hp Hb' Hc IH]; intros l H2; [by inversion H2|].
  destruct (chained_nonnull _ _ _ Hp H2) as (b & l0 & -> & Hb & Hl0).
  destruct (Hs _ _ Hb') as (b0 & Hb0 & Eb & _). assert (b0 = b) as -> by congruence.
  rewrite Eb in IH, Hc. destruct (IH l0 Hl0) as (I1 & I2 & I3). split_and!.
  - cbn. by rewrite I1.
  - rewrite Eb. unfold view in *. cbn. by rewrite I2.
  - intros [Ht Hpk]. split; [|auto]. rewrite Eb. cbn. by rewrite (lens_view l' l0).
Qed.

Lemma mem_ok_sub (s s' : pst) : mem_ok s → data s' = data s → sub_ref (pbufs s) (pbufs s') → mem_ok s'.
Proof.
  intros [H1 H2 H3 H4] Hd Hs. split; rewrite ?Hd; try done. intros p b' Hb' Hc.
  destruct (Hs _ _ Hb') as (b & Hb & Eb & _). rewrite Eb in Hc |- *. by apply (H1 p b).
Qed.

Lemma free_run (s : pst) live own p : inv s live own → mem_ok s → 0 < own p → ∃ c q live',
  pbuf_free env_custom_free s p = Clean (c, q) ∧ inv q live' (add_own own p (-1)) ∧ mem_ok q ∧
  data q = data s ∧ live' ⊆ live ∧ sub_ref (pbufs s) (pbufs q).
Proof.
  intros Hi Hm Ho. destruct (inv_own_chain _ _ _ _ Hi Ho) as (b & l & Hp & Hb & Hc).
  assert (chained (pbufs s) p ((p, b) :: l)) as Hcl by (by constructor).
  destruct (pbuf_free_run env_custom_free s live own p _ Hi Ho Hcl) as (n & B' & live' & m' & Ha & -> & Hi').
  destruct (afree_sub ((p, b) :: l) _ _ _ _ _ (λ q c Hin, proj2 (chained_elem _ _ _ _ _ Hcl Hin))
    (chained_NoDup _ _ _ Hcl) Ha) as [H1 H2].
  eexists _, _, live'. split_and!; [done|done| |done|done|done]. by apply (mem_ok_sub s).
Qed.

(** Giving up one of the references held outside the table. *)
Lemma ninv_free s live own p : ninv s live own → 0 < own p → ∃ c q live',
  pbuf_free env_custom_free (pb s) p = Clean (c, q) ∧ ninv (set_pb s q) live' (add_own own p (-1)) ∧
  data q = data (pb s) ∧ live' ⊆ live ∧ sub_ref (pbufs (pb s)) (pbufs q).
Proof.
  intros [H1 H2 H3 H4 H5 H6 H7 H8 H9] Ho.
  destruct (free_run (pb s) live _ p H1 H3) as (c & q & live' & Hf & Hi & Hm & Hd & Hl & Hs).
  { cbn. pose proof (refs_nonneg (arp_table s) p). lia. }
  exists c, q, live'. split_and!; try done. split; cbn [pb set_pb netifs arp_table acds netif_list etharp_cached_entry]; try done.
  - apply (inv_own_ext _ _ _ _ Hi). intros x. unfold add_own. case_decide; lia.
  - intros x. unfold add_own. case_decide as Hx; [subst; lia|done].
Qed.

Lemma ram_contiguous q layer n : contiguous (ram_pbuf q layer n).
Proof. done. Qed.

Lemma mem_ok_new (s : pst) m q b : mem_ok s → contiguous b → mem_ok (upd (set_pmem s m) q b).
Proof.
  intros [H1 H2 H3 H4] Hc. split; try done. cbn [pbufs upd set_pbufs set_pmem data].
  intros p c [[<- <-]|[Hne Hp]]%lookup_insert_Some Hnc; [done|].
  by apply (H1 p c).
Qed.

Lemma ninv_alloc_ram s live own layer n : ninv s live own → 0 ≤ layer ≤ PBUF_TRANSPORT → is_u16 n →
  ∃ m, (pbuf_alloc env_custom_free (pb s) layer n PBUF_RAM = Clean (NULL, set_pmem (pb s) m) ∧
        ninv (set_pb s (set_pmem (pb s) m)) live own) ∨
    ∃ q cap, let s1 := upd (set_pmem (pb s) m) q (ram_pbuf q layer n) in q ≠ NULL ∧
      pbuf_alloc env_custom_free (pb s) layer n PBUF_RAM = Clean (q, s1) ∧
      pbufs (pb s) !! q = None ∧ live !! q = None ∧
      ninv (set_pb s s1) (<[q:=(SrcHeap, cap)]> live) (add_own own q 1).
Proof.
  intros [H1 H2 H3 H4 H5 H6 H7 H8 H9] Hlay Hn.
  destruct (alloc_ram_block env_custom_free (pb s) live _ layer n H1 Hlay Hn) as (m & [[Ha Hi]|(q & cap & Hq & Ha & Hf)]);
    exists m; [left|right].
  - split; [done|]. split; try done. by apply (mem_ok_sub (pb s)); [..|apply sub_ref_refl].
  - exists q, cap. pose proof (fresh_chain_inv _ _ _ _ _ _ _ Hf Hq) as Hi.
    destruct (fc_fresh _ _ _ _ _ _ _ Hf q) as [? ?]; [by left|].
    split_and!; try done. split; cbn [pb set_pb netifs arp_table acds netif_list etharp_cached_entry]; try done.
    + apply (inv_own_ext _ _ _ _ Hi). intros x. unfold add_own. case_decide; lia.
    + intros x. unfold add_own. specialize (H2 x). case_decide; lia.
    + by apply mem_ok_new; [|apply ram_contiguous].
Qed.
End Inv.
