(* ===== verification/Links.v ===== *)
(** * Linked lists of structs

    The pcb lists of udp.c and raw.c: structs in a map, linked by a [next] field.  [nlist m h L]:
    following the links from [h] visits the structs [L] and ends. *)
From S2P Require Import Prelude Def Stats Iface Ip4Addr Pbuf PbufChain PbufClient PbufData Pcb Netif NetInv.

(** ** Chains of addresses *)

(** A list whose elements are linked differently elsewhere only. *)
Lemma nchain_outside {A} (nxt : A → Z) m q y p l : nchain nxt m p l → q ∉ l → nchain nxt (<[q:=y]> m) p l.
Proof.
  intros Hc Hq. induction Hc as [|p x l Hp Hx Hc IH]; [constructor|]. apply not_elem_of_cons in Hq as [Hne Hq].
  apply (nchain_cons _ _ _ x); [done|by rewrite lookup_insert_ne|by apply IH].
Qed.

Lemma filter_absent (a : Z) (l : list Z) : a ∉ l → filter (.≠ a) l = l.
Proof.
  induction l as [|b l IH]; intros Ha; [done|]. apply not_elem_of_cons in Ha as [Hne Ha].
  rewrite filter_cons_True by done. by rewrite IH.
Qed.

(** The successor of [q] is taken out. *)
Lemma nchain_relink {A : Type} (nxt : A → Z) (setn : A → Z → A) m p l1 q y r l2 v : (∀ x v, nxt (setn x v) = v) →
  nchain nxt m p (l1 ++ q :: r :: l2) → m !! q = Some y → q ∉ l1 → q ∉ l2 → nchain nxt m v l2 →
  nchain nxt (<[q:=setn y v]> m) p (l1 ++ q :: l2).
Proof.
  intros Hset Hc Hy H1 H2 Hv. revert p Hc. induction l1 as [|b l1 IH]; intros p Hc; inversion Hc as [|? x ? Hp Hx Hc']; subst.
  - apply (nchain_cons _ _ _ (setn y v)); [done|apply lookup_insert_eq|]. rewrite Hset. by apply nchain_outside.
  - apply not_elem_of_cons in H1 as [Hne H1]. apply (nchain_cons _ _ _ x); [done|by rewrite lookup_insert_ne|]. by apply IH.
Qed.

Section Links.
Context {A : Type} (nxt : A → Z).

Inductive nlist (m : gmap Z A) : Z → list (Z * A) → Prop :=
| nlist_nil : nlist m NULL []
| nlist_cons p x L : p ≠ NULL → m !! p = Some x → nlist m (nxt x) L → nlist m p ((p, x) :: L).

Lemma nlist_chain m h L : nlist m h L → nchain nxt m h L.*1.
Proof. induction 1; [constructor|by econstructor]. Qed.

Lemma chain_nlist m h l : nchain nxt m h l → ∃ L, nlist m h L ∧ L.*1 = l.
Proof.
  induction 1 as [|p x l Hp Hx _ (L & HL & <-)]; [by exists []; split; [constructor|]|].
  exists ((p, x) :: L). split; [by constructor|done].
Qed.

Lemma nlist_elem m h L p x : nlist m h L → (p, x) ∈ L → p ≠ NULL ∧ m !! p = Some x.
Proof. induction 1 as [|q y L Hq Hy _ IH]; [by intros ?%elem_of_nil|]. intros [[= -> ->]|Hin]%elem_of_cons; auto. Qed.

Lemma nlist_NoDup m h L : nlist m h L → NoDup L.*1.
Proof. intros H%nlist_chain. by eapply nchain_NoDup. Qed.

Lemma nlist_length m h L : nlist m h L → (length L ≤ size m)%nat.
Proof. intros H%nlist_chain%nchain_length. by rewrite length_fmap in H. Qed.

Lemma nlist_nonnull m h L : nlist m h L → h ≠ NULL → ∃ x L', L = (h, x) :: L' ∧ m !! h = Some x ∧ nlist m (nxt x) L'.
Proof. intros [|p x L' Hp Hx HL]; [done|]. intros _. by exists x, L'. Qed.

Lemma nlist_null m L : nlist m NULL L → L = [].
Proof. inversion 1; congruence. Qed.

Lemma nlist_det m h L1 L2 : nlist m h L1 → nlist m h L2 → L1 = L2.
Proof.
  intros H. revert L2. induction H as [|p x L Hp Hx HL IH]; intros L2 H2; inversion H2; subst; try done.
  assert (x = x0) as <- by congruence. f_equal. by apply IH.
Qed.

(** Only the structs on the list matter. *)
Lemma nlist_ext m m' h L : nlist m h L → (∀ p x, (p, x) ∈ L → m' !! p = Some x) → nlist m' h L.
Proof.
  induction 1 as [|p x L Hp Hx HL IH]; intros Hm; [constructor|].
  constructor; [done|apply Hm; left|]. apply IH. intros q y Hq. apply Hm. by right.
Qed.

Lemma not_key (L : list (Z * A)) p q x : (q, x) ∈ L → p ∉ L.*1 → p ≠ q.
Proof. intros Hin Hn ->. apply Hn, list_elem_of_fmap. by exists (q, x). Qed.

Lemma nlist_insert m h L p x : nlist m h L → p ∉ L.*1 → nlist (<[p := x]> m) h L.
Proof.
  intros HL Hp. apply (nlist_ext m); [done|]. intros q y Hq. rewrite lookup_insert_ne by by eapply not_key. apply (nlist_elem _ _ _ _ _ HL Hq).
Qed.

Lemma nlist_delete m h L p : nlist m h L → p ∉ L.*1 → nlist (delete p m) h L.
Proof.
  intros HL Hp. apply (nlist_ext m); [done|]. intros q y Hq. rewrite lookup_delete_ne by by eapply not_key. apply (nlist_elem _ _ _ _ _ HL Hq).
Qed.

Lemma nlist_suffix m h L1 p x L2 : nlist m h (L1 ++ (p, x) :: L2) → nlist m p ((p, x) :: L2).
Proof. revert h. induction L1 as [|[q y] L1 IH]; intros h; cbn; inversion 1; subst; [by constructor|by eapply IH]. Qed.

(** ** The struct at [p] changes, but not its link *)

Definition put_at (p : Z) (x : A) (L : list (Z * A)) : list (Z * A) := (λ kx, if decide (kx.1 = p) then (p, x) else kx) <$> L.

Lemma put_at_keys p x L : (put_at p x L).*1 = L.*1.
Proof. unfold put_at. rewrite <- list_fmap_compose. apply list_fmap_ext. intros i [q y] _. cbn. case_decide; by subst. Qed.

Lemma put_at_other p x L : p ∉ L.*1 → put_at p x L = L.
Proof.
  induction L as [|[q y] L IH]; [done|]. cbn. rewrite not_elem_of_cons. intros [Hq Hn]. rewrite decide_False by (cbn; congruence).
  f_equal. by apply IH.
Qed.

Lemma put_at_elem p x L q y : (q, y) ∈ put_at p x L → (q = p ∧ y = x ∧ p ∈ L.*1) ∨ (q ≠ p ∧ (q, y) ∈ L).
Proof.
  intros ([q' y'] & Heq & Hin)%list_elem_of_fmap. cbn in Heq. case_decide as Hd; [|right; injection Heq as -> ->; done].
  left. injection Heq as -> ->. subst. split_and!; [done..|]. apply list_elem_of_fmap. by exists (p, y').
Qed.

Lemma put_at_app p x L1 L2 : put_at p x (L1 ++ L2) = put_at p x L1 ++ put_at p x L2.
Proof. apply fmap_app. Qed.

Lemma split_keys (L1 : list (Z * A)) p x L2 : NoDup (L1 ++ (p, x) :: L2).*1 → p ∉ L1.*1 ∧ p ∉ L2.*1.
Proof.
  rewrite fmap_app. cbn [fmap list_fmap fst]. intros (_ & H1 & H2)%NoDup_app. apply NoDup_cons in H2 as [H2 _].
  split; [|done]. intros Hin. apply (H1 _ Hin). left.
Qed.

Lemma put_at_here p x x' (L1 L2 : list (Z * A)) : NoDup (L1 ++ (p, x) :: L2).*1 → put_at p x' (L1 ++ (p, x) :: L2) = L1 ++ (p, x') :: L2.
Proof.
  intros [H1 H2]%split_keys. rewrite put_at_app, put_at_other by done. f_equal.
  change (put_at p x' ((p, x) :: L2)) with ((if decide (p = p) then (p, x') else (p, x)) :: put_at p x' L2).
  by rewrite decide_True, put_at_other.
Qed.

Lemma put_at_twice p x x' L : put_at p x' (put_at p x L) = put_at p x' L.
Proof.
  unfold put_at. rewrite <- list_fmap_compose. apply list_fmap_ext. intros i [q y] _. cbn. destruct (decide (q = p)) as [->|Hq]; cbn;
    [by rewrite decide_True|by rewrite decide_False].
Qed.

Lemma nlist_put m h L p x x' : nlist m h L → m !! p = Some x → nxt x' = nxt x → nlist (<[p := x']> m) h (put_at p x' L).
Proof.
  intros HL Hx Hn. induction HL as [|q y L Hq Hy HL IH]; [constructor|]. cbn. case_decide as Hd; cbn in Hd.
  - subst q. assert (y = x) as -> by congruence. constructor; [done|apply lookup_insert_eq|]. by rewrite Hn.
  - constructor; [done|by rewrite lookup_insert_ne|done].
Qed.

(** ** Changing links *)

Context (set : A → Z → A) (Hset : ∀ x n, nxt (set x n) = n).

(** The struct at [p], behind [L1], now continues with [L3]. *)
Lemma nlist_retarget m h L1 p x L2 n L3 : nlist m h (L1 ++ (p, x) :: L2) → nlist m n L3 → p ∉ L3.*1 →
  nlist (<[p := set x n]> m) h (L1 ++ (p, set x n) :: L3).
Proof.
  intros H1 H3 Hn. pose proof (nlist_NoDup _ _ _ H1) as Hnd. revert h H1. induction L1 as [|[q y] L1 IH]; intros h H1; cbn in *; inversion H1; subst.
  - constructor; [done|apply lookup_insert_eq|]. rewrite Hset. by apply nlist_insert.
  - rewrite NoDup_cons in Hnd. destruct Hnd as [Hq Hnd]. constructor; [done| |by apply IH].
    rewrite lookup_insert_ne; [done|]. intros ->. apply Hq. rewrite fmap_app, elem_of_app. right. left.
Qed.

(** The struct at [p] leaves the list; [q] is in front of it. *)
Lemma nlist_unlink m h L1 q y p x L2 : nlist m h (L1 ++ (q, y) :: (p, x) :: L2) →
  nlist (<[q := set y (nxt x)]> m) h (L1 ++ (q, set y (nxt x)) :: L2) ∧ p ∉ (L1 ++ (q, set y (nxt x)) :: L2).*1 ∧ p ≠ q.
Proof.
  intros H. pose proof (nlist_suffix _ _ _ _ _ _ H) as Hs. inversion Hs as [|? ? ? _ _ Hs2]; subst.
  inversion Hs2; subst. pose proof (nlist_NoDup _ _ _ H) as Hnd. rewrite !fmap_app in Hnd. cbn [fmap list_fmap fst] in Hnd.
  apply NoDup_app in Hnd as (N1 & N2 & N3). rewrite !NoDup_cons in N3. destruct N3 as (N3 & N4 & _).
  rewrite not_elem_of_cons in N3. destruct N3 as [N3 N5]. split_and!; [|rewrite fmap_app; cbn [fmap list_fmap fst]|done].
  - eapply nlist_retarget; [exact H|done|done].
  - rewrite elem_of_app, elem_of_cons. intros [Hin|[Hin|Hin]]; [|done|done]. apply (N2 _ Hin). right. left.
Qed.

(** A struct that is not on the list becomes its head. *)
Lemma nlist_push m h L p x : nlist m h L → m !! p = Some x → p ≠ NULL → p ∉ L.*1 → nlist (<[p := set x h]> m) p ((p, set x h) :: L).
Proof.
  intros HL Hx Hp Hn. constructor; [done|apply lookup_insert_eq|]. rewrite Hset. by apply nlist_insert.
Qed.
End Links.
