(* ===== verification/EthOut.v ===== *)
(** * Sending Ethernet frames and ARP packets

    [ethernet_output] of src/lwip/src/netif/ethernet.c, and [etharp_raw] of
    src/lwip/src/core/ipv4/etharp.c with the requests built on it. *)
From S2P Require Import Prelude Def Stats Iface Ip4Addr Pbuf PbufChain PbufClient PbufData Pcb Netif NetInv.

Definition ARP_REQUEST : Z := 1.
Definition ARP_REPLY : Z := 2.
Definition LWIP_IANA_HWTYPE_ETHERNET : Z := 1.

Section EthOut.
Context {M : Type} `{PM : PbufAlloc M} {E : NetEnv M}.
Abbreviation pst := (@pst M).
Abbreviation nst := (nst M).

Definition ethernet_output (s : nst) (netif p : Z) (src dst : eth_ptr) (eth_type : Z) : out (Z * nst) :=
  let eth_type_be := lwip_htons eth_type in
  '(r, s) ← withp s (λ q, pbuf_add_header q p SIZEOF_ETH_HDR);
  if negb (r =? 0) then mret (ERR_BUF, LINK_STATS_INC Lenerr s)
  else
    b ← get (pb s) p;
    let ethhdr := payload b in
    s ← wr s (ethhdr + 12) (le16 eth_type_be);
    d ← rd_eth s dst;
    s ← wr s ethhdr d;
    d ← rd_eth s src;
    s ← wr s (ethhdr + 6) d;
    f ← get_netif s netif;
    _ ← lwip_assert "netif->hwaddr_len must be 6 for ethernet_output!" (nf_hwaddr_len f =? ETH_HWADDR_LEN);
    netif_output s netif p.

(** The part of [etharp_raw] that writes the header at [hdr].  Offsets in [struct etharp_hdr]:
    hwtype 0, proto 2, hwlen 4, protolen 5, opcode 6, shwaddr 8, sipaddr 14,
    dhwaddr 18, dipaddr 24. *)
Definition etharp_fill_hdr (s : nst) (netif hdr : Z) (hwsrc_addr : eth_ptr) (ipsrc_addr : Z)
    (hwdst_addr : eth_ptr) (ipdst_addr opcode : Z) : out nst :=
  s ← wr s (hdr + 6) (le16 (lwip_htons opcode));
  f ← get_netif s netif;
  _ ← lwip_assert "netif->hwaddr_len must be the same as ETH_HWADDR_LEN for etharp!"
        (nf_hwaddr_len f =? ETH_HWADDR_LEN);
  d ← rd_eth s hwsrc_addr;
  s ← wr s (hdr + 8) d;
  d ← rd_eth s hwdst_addr;
  s ← wr s (hdr + 18) d;
  s ← wr s (hdr + 14) (le32 ipsrc_addr);
  s ← wr s (hdr + 24) (le32 ipdst_addr);
  s ← wr s hdr (le16 (lwip_htons LWIP_IANA_HWTYPE_ETHERNET));
  s ← wr s (hdr + 2) (le16 (lwip_htons ETHTYPE_IP));
  s ← wr s (hdr + 4) [ETH_HWADDR_LEN];
  wr s (hdr + 5) [4].

Definition etharp_raw (s : nst) (netif : Z) (ethsrc_addr ethdst_addr hwsrc_addr : eth_ptr) (ipsrc_addr : Z)
    (hwdst_addr : eth_ptr) (ipdst_addr opcode : Z) : out (Z * nst) :=
  _ ← lwip_assert "netif != NULL" (negb (netif =? NULL));
  '(p, s) ← withp s (λ q, pbuf_alloc env_custom_free q PBUF_LINK SIZEOF_ETHARP_HDR PBUF_RAM);
  if p =? NULL then mret (ERR_MEM, ETHARP_STATS_INC Memerr s)
  else
    b ← get (pb s) p;
    _ ← lwip_assert "check that first pbuf can hold struct etharp_hdr" (SIZEOF_ETHARP_HDR <=? len b);
    let hdr := payload b in
    s ← etharp_fill_hdr s netif hdr hwsrc_addr ipsrc_addr hwdst_addr ipdst_addr opcode;
    '(_, s) ← (if ip4_addr_islinklocal ipsrc_addr
               then ethernet_output s netif p ethsrc_addr (EVal ethbroadcast) ETHTYPE_ARP
               else ethernet_output s netif p ethsrc_addr ethdst_addr ETHTYPE_ARP);
    let s := ETHARP_STATS_INC Xmit s in
    '(_, s) ← withp s (λ q, pbuf_free env_custom_free q p);
    mret (ERR_OK, s).

Definition etharp_request_dst (s : nst) (netif ipaddr : Z) (hw_dst_addr : eth_ptr) : out (Z * nst) :=
  f ← get_netif s netif;
  etharp_raw s netif (EHw netif) hw_dst_addr (EHw netif) (nf_ip_addr f) (EVal ethzero) ipaddr ARP_REQUEST.

Definition etharp_request (s : nst) (netif ipaddr : Z) : out (Z * nst) :=
  etharp_request_dst s netif ipaddr (EVal ethbroadcast).

Definition etharp_acd_probe (s : nst) (netif ipaddr : Z) : out (Z * nst) :=
  etharp_raw s netif (EHw netif) (EVal ethbroadcast) (EHw netif) IPADDR_ANY (EVal ethzero) ipaddr ARP_REQUEST.

Definition etharp_acd_announce (s : nst) (netif ipaddr : Z) : out (Z * nst) :=
  etharp_raw s netif (EHw netif) (EVal ethbroadcast) (EHw netif) ipaddr (EVal ethzero) ipaddr ARP_REQUEST.

(** ** Pointers to Ethernet addresses *)

(** The pointer can be read. *)
Definition eth_ok (s : nst) (e : eth_ptr) : Prop :=
  match e with
  | EMem a => mapped (data (pb s)) a 6
  | EHw n => is_Some (netifs s !! n)
  | ETab i => 0 ≤ i ∧ is_Some (arp_table s !! Z.to_nat i)
  | EVal l => mac_ok l
  end.

(** It points to [L], which does not lie in the [n] bytes from [a] on. *)
Definition eth_val (s : nst) (e : eth_ptr) (a n : Z) (L : list Z) : Prop :=
  match e with
  | EMem x => seg (data (pb s)) x 6 = Some <$> L ∧ apart x 6 a n
  | EHw i => nf_hwaddr <$> (netifs s !! i) = Some L
  | ETab i => 0 ≤ i ∧ ae_ethaddr <$> (arp_table s !! Z.to_nat i) = Some L
  | EVal l => l = L
  end.

Lemma rd_eth_run s live own e : ninv s live own → eth_ok s e → ∃ L, rd_eth s e = Clean L ∧ mac_ok L.
Proof.
  intros Hi. destruct e as [a|n|i|l]; cbn [rd_eth eth_ok].
  - intros Hm. destruct (load_run 6 (data (pb s)) a Hm) as (L & HL & Hs). exists L. split; [done|]. split.
    + apply (f_equal length) in Hs. by rewrite length_fmap, seg_length in Hs.
    + by apply (load_bytes _ _ _ _ (mo_bytes _ (ni_mem _ _ _ Hi)) HL).
  - intros [f Hf]. unfold get_netif. rewrite Hf. out_simp. exists (nf_hwaddr f). split; [done|].
    apply (nf_ok_mac _ (proj2 (lo_netif _ _ _ _ (ni_links _ _ _ Hi) _ _ Hf))).
  - intros (H0 & e & He). unfold get_entry. rewrite (proj2 (Z.ltb_ge i 0)) by done. rewrite He. out_simp.
    exists (ae_ethaddr e). split; [done|]. apply (en_mac _ _ (tb_entry _ _ (ni_table _ _ _ Hi) _ _ He)).
  - intros Hl. by exists l.
Qed.

(** Reading the pointer after bytes elsewhere have been written. *)
Lemma rd_eth_val (s s' : nst) e a n L L' : eth_val s e a n L → netifs s' = netifs s → arp_table s' = arp_table s →
  (∀ x, ¬ (a ≤ x < a + n) → data (pb s') !! x = data (pb s) !! x) → 0 < n → rd_eth s' e = Clean L' → L' = L.
Proof.
  destruct e as [x|i|i|l]; cbn [eth_val rd_eth]; intros Hv Hnet Htab Hd Hn Hr.
  - destruct Hv as [Hs Ha]. unfold rd, ETH_HWADDR_LEN in Hr. rewrite (load_val 6 _ _ L) in Hr; [by injection Hr|].
    rewrite <- Hs. apply seg_ext. intros j Hj. symmetry. apply Hd. unfold apart in Ha. lia.
  - unfold get_netif in Hr. rewrite Hnet in Hr. destruct (netifs s !! i) as [f|]; [|done]. cbn in Hv, Hr.
    injection Hv as <-. by injection Hr.
  - destruct Hv as [H0 Hv]. unfold get_entry in Hr. rewrite (proj2 (Z.ltb_ge i 0)), Htab in Hr by done.
    destruct (arp_table s !! Z.to_nat i) as [e|]; [|done]. cbn in Hv, Hr. injection Hv as <-. by injection Hr.
  - injection Hr. congruence.
Qed.

Lemma eth_ok_ext (s s' : nst) e : eth_ok s e → netifs s' = netifs s → arp_table s' = arp_table s →
  (∀ x, is_Some (data (pb s) !! x) → is_Some (data (pb s') !! x)) → eth_ok s' e.
Proof.
  destruct e; cbn [eth_ok]; intros H Hn Ht Hd; rewrite ?Hn, ?Ht; try done. intros x Hx. by apply Hd, H.
Qed.

(** ** Ethernet frames *)

(** The three stores of [ethernet_output]: the header at [h]. *)
Definition put_header (d : gmap Z Z) (h ty : Z) (D S : list Z) : gmap Z Z :=
  put (put (put d (h + 12) (le16 (lwip_htons ty))) h D) (h + 6) S.

Lemma put_header_out d h ty D S x : length D = 6%nat → length S = 6%nat → ¬ (h ≤ x < h + 14) →
  put_header d h ty D S !! x = d !! x.
Proof. intros HD HS Hx. unfold put_header. by rewrite !put_out by (rewrite ?HD, ?HS; cbn [length le16]; lia). Qed.

Lemma put_header_seg d h ty D S : length D = 6%nat → length S = 6%nat →
  seg (put_header d h ty D S) h 14 = Some <$> (D ++ S ++ le16 (lwip_htons ty)).
Proof.
  intros HD HS. change 14 with (6 + (6 + 2)). rewrite !seg_app, !fmap_app by lia. unfold put_header.
  rewrite (put_seg_apart _ (h + 6) S h 6) by (unfold apart; lia). rewrite (put_seg _ h D) by lia.
  rewrite (put_seg _ (h + 6) S) by lia. rewrite <- Z.add_assoc. change (6 + 6) with 12.
  rewrite !put_seg_apart by (unfold apart; rewrite ?HD, ?HS; lia). by rewrite put_seg.
Qed.

Lemma put_header_is_Some d h ty D S x : is_Some (d !! x) → is_Some (put_header d h ty D S !! x).
Proof. intros H. by do 3 apply put_is_Some. Qed.

#[local] Opaque put_header.

(** The state after a frame has been sent: the header is in front of the payload. *)
Definition eth_sent (s : nst) (p : Z) (b : pbuf) (ty : Z) (D S F : list Z) : nst :=
  set_frames (LINK_STATS_INC Xmit (set_pb s
    (set_data (upd (pb s) p (grow b 14)) (put_header (data (pb s)) (payload b - 14) ty D S)))) (frames s ++ [F]).

Lemma ninv_grow s live own p b n : ninv s live own → pbufs (pb s) !! p = Some b → 0 < n → add_header_fits p b n false →
  pbuf_add_header (pb s) p n = Clean (0, upd (pb s) p (grow b n)) ∧
  ninv (set_pb s (upd (pb s) p (grow b n))) live own ∧ contiguous b ∧
  mapped (data (pb s)) (payload b - n) (n + len b).
Proof.
  intros Hi Hb Hn Hf. destruct (add_header_run (pb s) live _ p b n false (ni_pb _ _ _ Hi) Hb) as [H1 _]; [done|].
  destruct (H1 Hf) as [Hr Hi']. assert (contiguous b) as Hc.
  { destruct (decide (contiguous b)) as [|Hnc]; [done|]. destruct Hf as (_ & _ & _ & Hf). by specialize (Hf Hnc). }
  split; [done|]. split_and!; [|done|].
  - destruct Hi as [? ? [Hm1 Hm2 Hm3 Hm4] ? ? ?].
    split; cbn [pb set_pb netifs arp_table acds netif_list etharp_cached_entry]; try done.
    split; cbn [data pbufs upd set_pbufs]; try done. intros q c [[<- <-]|[Hne Hq]]%lookup_insert_Some Hnc; [|by apply (Hm1 q)].
    by destruct Hnc.
  - intros x Hx. apply (block_mapped _ _ _ _ _ (ni_pb _ _ _ Hi) Hb Hc). destruct Hf as (_ & _ & Hf & _).
    specialize (Hf Hc). lia.
Qed.

Lemma grow_content (d : gmap Z Z) p b l' h ty D S : length D = 6%nat → length S = 6%nat → h = payload b - 14 →
  0 ≤ len b → len b + 14 < 65536 → foreign ((p, b) :: l') h 14 →
  content (put_header d h ty D S) ((p, grow b 14) :: l') =
  (Some <$> (D ++ S ++ le16 (lwip_htons ty))) ++ content d ((p, b) :: l').
Proof.
  intros HD HS -> Hl Hlt Hfo. rewrite !content_cons. cbn [grow payload len set_payload set_len set_tot_len].
  rewrite u16_id by (unfold is_u16; lia). rewrite (Z.add_comm (len b) 14), seg_app, put_header_seg by (done || lia).
  rewrite <- app_assoc. f_equal. replace (payload b - 14 + 14) with (payload b) by lia. f_equal.
  - apply seg_ext. intros i Hix. apply put_header_out; [done..|]. lia.
  - apply content_frame. apply Forall_cons in Hfo as [_ Hfo]. apply (Forall_impl _ _ _ Hfo). intros kv Ha.
    unfold apart in Ha. apply seg_ext. intros i Hix. apply put_header_out; [done..|]. lia.
Qed.

Lemma ethernet_output_run s live own n p b src dst ty : ninv s live own → is_Some (netifs s !! n) →
  pbufs (pb s) !! p = Some b → eth_ok s src → eth_ok s dst →
  (add_header_fits p b 14 false → ∃ D S F,
     ethernet_output s n p src dst ty = Clean (ERR_OK, eth_sent s p b ty D S F) ∧
     ninv (eth_sent s p b ty D S F) live own ∧ mac_ok D ∧ mac_ok S ∧
     (∀ L, eth_val s dst (payload b - 14) 14 L → D = L) ∧ (∀ L, eth_val s src (payload b - 14) 14 L → S = L) ∧
     ∀ l, chained (pbufs (pb s)) p l → len b ≤ tot_len b → tot_len b = lens l → foreign l (payload b - 14) 14 →
       Some <$> F = (Some <$> (D ++ S ++ le16 (lwip_htons ty))) ++ content (data (pb s)) l) ∧
  (¬ add_header_fits p b 14 false → ethernet_output s n p src dst ty = Clean (ERR_BUF, LINK_STATS_INC Lenerr s)).
Proof.
  intros Hi [f Hf] Hb Hsrc Hdst. unfold ethernet_output, withp. split; intros Hfit.
  2:{ destruct (add_header_run (pb s) live _ p b 14 false (ni_pb _ _ _ Hi) Hb) as [_ H2]; [done|].
      unfold pbuf_add_header. change SIZEOF_ETH_HDR with 14. rewrite (H2 Hfit). out_simp. by destruct s. }
  destruct (ninv_grow _ _ _ _ _ 14 Hi Hb ltac:(done) Hfit) as (Hadd & Hi1 & Hc & Hm).
  change SIZEOF_ETH_HDR with 14. rewrite Hadd. out_simp. cbn [negb Z.eqb].
  unfold get. cbn [pb set_pb upd set_pbufs pbufs]. rewrite lookup_insert_eq. out_simp.
  cbn [grow payload set_payload set_len set_tot_len]. set (h := payload b - 14) in *.
  assert (0 ≤ len b) as Hlen by apply (bo_len _ _ _ (i_block _ _ _ (ni_pb _ _ _ Hi) _ _ Hb)).
  set (s1 := set_pb s _) in *. rewrite wr_run by (intros x Hx; apply Hm; cbn in Hx; lia). out_simp.
  set (s2 := set_pb s1 _). assert (ninv s2 live own) as Hi2.
  { apply ninv_put; [done|apply le16_bytes|]. intros x Hx. apply Hm. cbn in Hx. lia. }
  assert (eth_ok s2 dst) as Hdst2 by (apply (eth_ok_ext s); [done..|intros x Hx; by apply put_is_Some]).
  destruct (rd_eth_run _ _ _ _ Hi2 Hdst2) as (D & HD & HDok). rewrite HD. out_simp.
  rewrite wr_run by (intros x Hx; apply put_mapped with h (14 + len b); [done|]; rewrite (proj1 HDok) in Hx; lia). out_simp.
  set (s3 := set_pb s2 _). assert (ninv s3 live own) as Hi3.
  { apply ninv_put; [done|apply HDok|]. intros x Hx. apply put_mapped with h (14 + len b); [done|].
    rewrite (proj1 HDok) in Hx. lia. }
  assert (eth_ok s3 src) as Hsrc3 by (apply (eth_ok_ext s); [done..|intros x Hx; by apply put_is_Some, put_is_Some]).
  destruct (rd_eth_run _ _ _ _ Hi3 Hsrc3) as (S & HS & HSok). rewrite HS. out_simp.
  rewrite wr_run by (intros x Hx; do 2 apply put_is_Some; apply Hm; rewrite (proj1 HSok) in Hx; lia). out_simp.
  set (s4 := set_pb s3 _). assert (ninv s4 live own) as Hi4.
  { apply ninv_put; [done|apply HSok|]. intros x Hx. do 2 apply put_is_Some. apply Hm.
    rewrite (proj1 HSok) in Hx. lia. }
  unfold get_netif. cbn [netifs s4 s3 s2 s1 set_pb]. rewrite Hf. out_simp.
  rewrite (nf_ok_len _ (proj2 (lo_netif _ _ _ _ (ni_links _ _ _ Hi) _ _ Hf))). cbn [Z.eqb Pos.eqb ETH_HWADDR_LEN]. out_simp.
  destruct (inv_next_chain _ _ _ _ _ (ni_pb _ _ _ Hi) Hb) as (l' & Hl' & Hnin).
  assert (p ≠ NULL) as Hp by (pose proof (inv_pos _ _ _ _ _ (ni_pb _ _ _ Hi) Hb); unfold NULL; lia).
  assert (pbufs (pb s4) !! p = Some (grow b 14)) as Hb4 by apply lookup_insert_eq.
  assert (chained (pbufs (pb s4)) p ((p, grow b 14) :: l')) as Hc4.
  { constructor; [done..|]. by apply chained_insert. }
  destruct (netif_output_run s4 live own n p _ _ Hi4 Hb4 Hc4) as (F & HF & HFc).
  assert (eth_sent s p b ty D S F = set_frames (LINK_STATS_INC Xmit s4) (frames s4 ++ [F])) as Hsent by done.
  exists D, S, F. rewrite Hsent. split_and!; [exact HF|apply (ninv_same s4); [done|exact Hi4]|done|done| | |].
  - intros L HL. apply (rd_eth_val s s2 dst h 14 L D HL); try done.
    intros x Hx. apply put_out. cbn [length le16]. lia.
  - intros L HL. apply (rd_eth_val s s3 src h 14 L S HL); try done.
    intros x Hx. cbn [s3 s2 s1 pb set_pb data set_data upd set_pbufs].
    rewrite !put_out by (rewrite ?(proj1 HDok); cbn [length le16]; lia). done.
  - intros l Hcl Hle Htot Hfo. destruct (chained_nonnull _ _ _ Hp Hcl) as (b0 & l0 & -> & Hb0 & Hl0).
    rewrite Hb in Hb0. injection Hb0 as <-. assert (l0 = l') as -> by (by eapply chained_det).
    destruct Hfit as (_ & Hsum & _ & _).
    pose proof (grow_content (data (pb s)) p b l' h ty D S (proj1 HDok) (proj1 HSok) eq_refl Hlen) as Hg.
    rewrite <- Hg; [|lia|done]. apply HFc. cbn [grow tot_len set_tot_len lens len set_len set_payload] in *.
    rewrite !u16_id by (unfold is_u16; lia). lia.
Qed.

(** ** ARP packets *)

(** The 28 bytes of an ARP packet. *)
Definition arp_packet (opcode : Z) (S : list Z) (sip : Z) (D : list Z) (dip : Z) : list Z :=
  le16 (lwip_htons LWIP_IANA_HWTYPE_ETHERNET) ++ le16 (lwip_htons ETHTYPE_IP) ++ [ETH_HWADDR_LEN] ++ [4] ++
  le16 (lwip_htons opcode) ++ S ++ le32 sip ++ D ++ le32 dip.

(** The stores of [etharp_raw], in its order. *)
Definition put_arp (d : gmap Z Z) (h opcode : Z) (S : list Z) (sip : Z) (D : list Z) (dip : Z) : gmap Z Z :=
  put (put (put (put (put (put (put (put (put d (h + 6) (le16 (lwip_htons opcode))) (h + 8) S) (h + 18) D)
    (h + 14) (le32 sip)) (h + 24) (le32 dip)) h (le16 (lwip_htons LWIP_IANA_HWTYPE_ETHERNET)))
    (h + 2) (le16 (lwip_htons ETHTYPE_IP))) (h + 4) [ETH_HWADDR_LEN]) (h + 5) [4].

Lemma put_arp_out d h op S sip D dip x : length S = 6%nat → length D = 6%nat → ¬ (h ≤ x < h + 28) →
  put_arp d h op S sip D dip !! x = d !! x.
Proof.
  intros HS HD Hx. unfold put_arp. rewrite !put_out by (rewrite ?HS, ?HD; cbn [length le16 le32]; lia). done.
Qed.

Lemma put_arp_seg d h op S sip D dip : length S = 6%nat → length D = 6%nat →
  seg (put_arp d h op S sip D dip) h 28 = Some <$> arp_packet op S sip D dip.
Proof.
  intros HS HD. change 28 with (2 + (2 + (1 + (1 + (2 + (6 + (4 + (6 + 4)))))))).
  rewrite !seg_app by lia. unfold arp_packet. rewrite !fmap_app.
  rewrite <- !Z.add_assoc. cbn [Z.add Pos.add Pos.succ Pos.add_carry]. unfold put_arp.
  repeat (f_equal; [solve [repeat first [rewrite put_seg by (rewrite ?HS, ?HD; cbn [length le16 le32]; lia)
    | rewrite put_seg_apart by (unfold apart; rewrite ?HS, ?HD; cbn [length le16 le32]; lia)]; done]|]).
  repeat first [rewrite put_seg by (cbn [length le16 le32]; lia)
    | rewrite put_seg_apart by (unfold apart; rewrite ?HS, ?HD; cbn [length le16 le32]; lia)]. done.
Qed.

Lemma put_arp_is_Some d h op S sip D dip x : is_Some (d !! x) → is_Some (put_arp d h op S sip D dip !! x).
Proof. intros H. by do 9 apply put_is_Some. Qed.

#[local] Opaque put_arp.

(** [s] with packet buffers [q] and memory [d]. *)
Definition with_mem (s : nst) (q : pst) (d : gmap Z Z) : nst := set_pb s (set_data q d).

Lemma wr_step s q d live own a l : ninv (with_mem s q d) live own → Forall is_u8 l →
  mapped d a (Z.of_nat (length l)) →
  wr (with_mem s q d) a l = Clean (with_mem s q (put d a l)) ∧ ninv (with_mem s q (put d a l)) live own.
Proof. intros Hi Hl Hm. split; [by apply (wr_run (with_mem s q d))|]. by apply (ninv_put (with_mem s q d)). Qed.

(** What sending an ARP packet leaves alone. *)
Record quiet (live : gmap Z (asrc * Z)) (s s' : nst) : Prop := Quiet {
  qu_pbufs : pbufs (pb s') = pbufs (pb s);
  qu_data : keeps live (data (pb s)) (data (pb s'));
  qu_mapped x : is_Some (data (pb s) !! x) → is_Some (data (pb s') !! x);
  qu_netifs : netifs s' = netifs s;
  qu_list : netif_list s' = netif_list s;
  qu_table : arp_table s' = arp_table s;
  qu_cached : etharp_cached_entry s' = etharp_cached_entry s;
  qu_acds : acds s' = acds s;
  qu_rng : rng s' = rng s;
  qu_ifst : ifst s' = ifst s;
  qu_rest : netif_default s' = netif_default s ∧ udps s' = udps s ∧ raws s' = raws s }.

Lemma quiet_refl live s : quiet live s s.
Proof. split; try done. Qed.

Lemma quiet_trans live s1 s2 s3 : quiet live s1 s2 → quiet live s2 s3 → quiet live s1 s3.
Proof.
  intros [A1 A2 A0 A3 A4 A5 A6 A7 A8 A9 (A & A' & A'')] [B1 B2 B0 B3 B4 B5 B6 B7 B8 B9 (B & B' & B'')].
  split; try congruence; [by eapply keeps_trans|auto|split_and!; congruence].
Qed.

(** The pointer reads [L] and goes on doing so while only free memory is written. *)
Definition eth_fix (live : gmap Z (asrc * Z)) (s : nst) (e : eth_ptr) (L : list Z) : Prop :=
  match e with
  | EMem x => seg (data (pb s)) x 6 = Some <$> L ∧
      ∀ i, x ≤ i < x + 6 → pa_arena i → ∃ p k n, live !! p = Some (k, n) ∧ p ≤ i < p + n
  | _ => eth_val s e 0 0 L
  end.

Lemma apart_pointwise a n b m : (∀ x, a ≤ x < a + n → b ≤ x < b + m → False) → apart a n b m.
Proof.
  intros H. unfold apart. destruct (decide (n ≤ 0)); [auto|]. destruct (decide (m ≤ 0)); [auto|].
  destruct (decide (a + n ≤ b)); [auto|]. destruct (decide (b + m ≤ a)); [auto|].
  exfalso. apply (H (Z.max a b)); lia.
Qed.

(** A pointer into memory in use is not into a new block. *)
Lemma eth_fix_val live s e L st p k n a m : eth_fix live s e L → pa_ok st (<[p:=(k, n)]> live) → live !! p = None →
  p ≤ a → a + m ≤ p + n → eth_val s e a m L.
Proof.
  intros Hf Hok Hn Ha Hm. destruct e as [x|i|i|l]; cbn in *; try done. destruct Hf as [Hs Hin]. split; [done|].
  apply apart_pointwise. intros y Hy1 Hy2.
  assert (pa_arena y) as Hy.
  { apply (pa_region _ _ p k n Hok); [apply lookup_insert_eq|lia]. }
  destruct (Hin y Hy1 Hy) as (q & k' & n' & Hq & Hqy). assert (p ≠ q) as Hne by congruence.
  assert (blocks_disjoint p n q n') as Hd.
  { apply (pa_sep _ _ p k n q k' n' Hok); [apply lookup_insert_eq|by rewrite lookup_insert_ne|done]. }
  unfold blocks_disjoint in Hd. lia.
Qed.

Lemma eth_val_frame (s s' : nst) e a n a' n' L : eth_val s e a n L → eth_val s e a' n' L → netifs s' = netifs s →
  arp_table s' = arp_table s → (∀ x, ¬ (a' ≤ x < a' + n') → data (pb s') !! x = data (pb s) !! x) → 0 < n' →
  eth_val s' e a n L.
Proof.
  destruct e as [x|i|i|l]; cbn [eth_val]; intros H H' Hn Ht Hd Hn'; rewrite ?Hn, ?Ht; try done.
  destruct H as [Hs Ha], H' as [_ Ha']. split; [|done]. rewrite <- Hs. apply seg_ext. intros j Hj.
  apply Hd. unfold apart in Ha'. lia.
Qed.

Lemma get_netif_mem (s : nst) q d n : get_netif (with_mem s q d) n = get_netif s n.
Proof. done. Qed.

(** Filling in the header in the [n] bytes at [h] of a new block. *)
Lemma arp_fill s q d live own h op hwsrc sip hwdst dip n f : ninv (with_mem s q d) live own →
  netifs s !! n = Some f → mapped d h 28 → eth_ok (with_mem s q d) hwsrc → eth_ok (with_mem s q d) hwdst →
  ∃ S D, etharp_fill_hdr (with_mem s q d) n h hwsrc sip hwdst dip op = Clean (with_mem s q (put_arp d h op S sip D dip)) ∧
  ninv (with_mem s q (put_arp d h op S sip D dip)) live own ∧ mac_ok S ∧ mac_ok D ∧
  (∀ L, eth_val (with_mem s q d) hwsrc h 28 L → S = L) ∧ (∀ L, eth_val (with_mem s q d) hwdst h 28 L → D = L).
Proof.
  intros Hi Hf Hm Hsrc Hdst. unfold etharp_fill_hdr.
  destruct (wr_step s q d live own (h + 6) (le16 (lwip_htons op)) Hi (le16_bytes _)) as [-> Hi1].
  { intros x Hx. apply Hm. cbn in Hx. lia. }
  rewrite bind_clean, get_netif_mem. unfold get_netif. rewrite Hf. out_simp.
  rewrite (nf_ok_len _ (proj2 (lo_netif _ _ _ _ (ni_links _ _ _ Hi) _ _ Hf))). cbn [Z.eqb Pos.eqb ETH_HWADDR_LEN]. out_simp.
  destruct (rd_eth_run _ _ _ hwsrc Hi1) as (S & HS & HSok); [by apply (eth_ok_ext _ _ _ Hsrc); [..|intros x; apply put_is_Some]|].
  rewrite HS. out_simp. destruct (wr_step s q _ live own (h + 8) S Hi1 (proj2 HSok)) as [-> Hi2].
  { intros x Hx. apply put_is_Some, Hm. rewrite (proj1 HSok) in Hx. lia. }
  out_simp. destruct (rd_eth_run _ _ _ hwdst Hi2) as (D & HD & HDok);
    [by apply (eth_ok_ext _ _ _ Hdst); [..|intros x Hx; by do 2 apply put_is_Some]|].
  rewrite HD. out_simp. destruct (wr_step s q _ live own (h + 18) D Hi2 (proj2 HDok)) as [-> Hi3].
  { intros x Hx. do 2 apply put_is_Some. apply Hm. rewrite (proj1 HDok) in Hx. lia. }
  out_simp. destruct (wr_step s q _ live own (h + 14) (le32 sip) Hi3 (le32_bytes _)) as [-> Hi4].
  { intros x Hx. do 3 apply put_is_Some. apply Hm. cbn in Hx. lia. }
  out_simp. destruct (wr_step s q _ live own (h + 24) (le32 dip) Hi4 (le32_bytes _)) as [-> Hi5].
  { intros x Hx. do 4 apply put_is_Some. apply Hm. cbn in Hx. lia. }
  out_simp. destruct (wr_step s q _ live own h (le16 (lwip_htons LWIP_IANA_HWTYPE_ETHERNET)) Hi5 (le16_bytes _)) as [-> Hi6].
  { intros x Hx. do 5 apply put_is_Some. apply Hm. cbn [length le16] in Hx. lia. }
  out_simp. destruct (wr_step s q _ live own (h + 2) (le16 (lwip_htons ETHTYPE_IP)) Hi6 (le16_bytes _)) as [-> Hi7].
  { intros x Hx. do 6 apply put_is_Some. apply Hm. cbn [length le16] in Hx. lia. }
  out_simp. destruct (wr_step s q _ live own (h + 4) [ETH_HWADDR_LEN] Hi7) as [-> Hi8].
  { repeat constructor; done. }
  { intros x Hx. do 7 apply put_is_Some. apply Hm. cbn in Hx. lia. }
  out_simp. destruct (wr_step s q _ live own (h + 5) [4] Hi8) as [-> Hi9].
  { repeat constructor; done. }
  { intros x Hx. do 8 apply put_is_Some. apply Hm. cbn in Hx. lia. }
  exists S, D. split_and!; [done|exact Hi9|done|done|..]; intros L HL.
  - eapply (rd_eth_val _ _ _ _ _ _ _ HL); [..|exact HS]; [done|done| |done].
    intros x Hx. apply put_out. cbn [length le16]. lia.
  - eapply (rd_eth_val _ _ _ _ _ _ _ HL); [..|exact HD]; [done|done| |done].
    intros x Hx. cbn [with_mem pb set_pb data set_data].
    rewrite !put_out by (rewrite ?(proj1 HSok); cbn [length le16]; lia). done.
Qed.

Lemma ram_fits q : add_header_fits q (ram_pbuf q PBUF_LINK SIZEOF_ETHARP_HDR) 14 false.
Proof.
  unfold add_header_fits, ram_pbuf, PBUF_LINK, PBUF_LINK_HLEN, SIZEOF_ETHARP_HDR, SIZEOF_STRUCT_PBUF. cbn [tot_len payload].
  split_and!; [lia|lia|lia|]. intros Hc. by destruct Hc.
Qed.

(** The destination of the frame: link-local senders broadcast. *)
Definition arp_dst (sip : Z) (e : eth_ptr) : eth_ptr := if ip4_addr_islinklocal sip then EVal ethbroadcast else e.

Lemma bcast_mac : mac_ok ethbroadcast.
Proof. split; [done|]. repeat constructor; done. Qed.

Lemma zero_mac : mac_ok ethzero.
Proof. split; [done|]. repeat constructor; done. Qed.

Lemma arp_dst_ok s sip e : eth_ok s e → eth_ok s (arp_dst sip e).
Proof. unfold arp_dst. destruct (ip4_addr_islinklocal sip); [intros _; apply bcast_mac|done]. Qed.

(** Bytes in a new block are not in use. *)
Lemma keeps_new live d d' st p k n : pa_ok st (<[p:=(k, n)]> live) → live !! p = None →
  (∀ x, ¬ (p ≤ x < p + n) → d' !! x = d !! x) → keeps live d d'.
Proof.
  intros Hok Hn Hd x Hx. apply Hd. intros Hin.
  assert (pa_arena x) as Ha by (apply (pa_region _ _ p k n Hok); [apply lookup_insert_eq|done]).
  destruct (Hx Ha) as (q & k' & n' & Hq & Hqx). assert (p ≠ q) as Hne by congruence.
  assert (blocks_disjoint p n q n') as Hdj.
  { apply (pa_sep _ _ p k n q k' n' Hok); [apply lookup_insert_eq|by rewrite lookup_insert_ne|done]. }
  unfold blocks_disjoint in Hdj. lia.
Qed.

(** Freeing a packet of one struct with one reference. *)
Lemma ninv_free_single s live own p b k B live0 : ninv s live (add_own own p 1) → pbufs (pb s) = <[p:=b]> B →
  B !! p = None → live = <[p:=k]> live0 → live0 !! p = None → next b = NULL → ref b = 1 → (∀ x, 0 ≤ own x) →
  ∃ c m, pbuf_free env_custom_free (pb s) p = Clean (c, Pst m B (data (pb s)) (pbuf_free_ooseq_pending (pb s))) ∧
    ninv (set_pb s (Pst m B (data (pb s)) (pbuf_free_ooseq_pending (pb s)))) live0 own.
Proof.
  intros Hi HB HBn Hl Hln Hnx Href Hown. assert (pbufs (pb s) !! p = Some b) as Hb by (rewrite HB; apply lookup_insert_eq).
  assert (p ≠ NULL) as Hp by (pose proof (inv_pos _ _ _ _ _ (ni_pb _ _ _ Hi) Hb); unfold NULL; lia).
  assert (chained (pbufs (pb s)) p [(p, b)]) as Hc by (constructor; [done..|rewrite Hnx; constructor]).
  destruct (pbuf_free_run env_custom_free (pb s) live _ p [(p, b)] (ni_pb _ _ _ Hi))
    as (c & B' & live' & m & Ha & Hf & Hi'); [|done|].
  { cbn. unfold add_own. rewrite decide_True by done. pose proof (refs_nonneg (arp_table s) p). specialize (Hown p). lia. }
  cbn [afree] in Ha. rewrite Href in Ha. cbn [Z.eqb Pos.eqb] in Ha. injection Ha as <- <- <-.
  rewrite HB, Hl, !delete_insert_id in * by done. eexists _, m. split; [exact Hf|]. destruct Hi as [? ? Hm ? ? ?].
  split; cbn [pb set_pb netifs arp_table acds netif_list etharp_cached_entry]; try done.
  - apply (inv_own_ext _ _ _ _ Hi'). intros x. unfold add_own. case_decide; lia.
  - apply (mem_ok_sub _ _ Hm); [done|]. rewrite HB. intros x b' Hx. cbn in Hx.
    exists b'. split_and!; [|by destruct b'|done]. rewrite lookup_insert_ne; [done|]. intros ->. congruence.
Qed.

(** The frame of an ARP packet. *)
Definition arp_frame (ED ES : list Z) (opcode : Z) (S : list Z) (sip : Z) (D : list Z) (dip : Z) : list Z :=
  ED ++ ES ++ le16 (lwip_htons ETHTYPE_ARP) ++ arp_packet opcode S sip D dip.

Lemma arp_content d q op S sip D dip : mac_ok S → mac_ok D →
  content (put_arp d (q + SIZEOF_STRUCT_PBUF + PBUF_LINK) op S sip D dip)
    [(q, ram_pbuf q PBUF_LINK SIZEOF_ETHARP_HDR)] = Some <$> arp_packet op S sip D dip.
Proof.
  intros HS HD. rewrite content_cons. cbn [ram_pbuf payload len]. unfold content. cbn [fmap list_fmap concat].
  change SIZEOF_ETHARP_HDR with 28. rewrite put_arp_seg by (apply HS || apply HD). apply app_nil_r.
Qed.

Lemma arp_chain B q b : q ≠ NULL → B !! q = Some b → next b = NULL → chained B q [(q, b)].
Proof. intros Hq Hb Hn. constructor; [done..|]. rewrite Hn. constructor. Qed.

(** The fields neither pbuf.c nor the transmission touches. *)
Definition same_tables (s s' : nst) : Prop :=
  netifs s' = netifs s ∧ netif_list s' = netif_list s ∧ arp_table s' = arp_table s ∧
  etharp_cached_entry s' = etharp_cached_entry s ∧ acds s' = acds s ∧ rng s' = rng s ∧ ifst s' = ifst s ∧
  (netif_default s' = netif_default s ∧ udps s' = udps s ∧ raws s' = raws s).

Lemma eth_sent_tables s p b ty D S F : same_tables s (ETHARP_STATS_INC Xmit (eth_sent s p b ty D S F)).
Proof. done. Qed.
Lemma eth_sent_frames s p b ty D S F : frames (ETHARP_STATS_INC Xmit (eth_sent s p b ty D S F)) = frames s ++ [F].
Proof. done. Qed.
Lemma eth_sent_stat s p b ty D S F :
  stat_etharp (ETHARP_STATS_INC Xmit (eth_sent s p b ty D S F)) = proto_inc Xmit (stat_etharp s).
Proof. done. Qed.
Lemma eth_sent_pbufs s p b ty D S F :
  pbufs (pb (ETHARP_STATS_INC Xmit (eth_sent s p b ty D S F))) = <[p:=grow b 14]> (pbufs (pb s)).
Proof. done. Qed.
Lemma eth_sent_data s p b ty D S F :
  data (pb (ETHARP_STATS_INC Xmit (eth_sent s p b ty D S F))) = put_header (data (pb s)) (payload b - 14) ty D S.
Proof. done. Qed.

(** Sending the packet that has been filled in, and freeing it. *)
Lemma arp_send s s1 q cap live own n es ed op S sip D dip :
  ninv s1 (<[q:=(SrcHeap, cap)]> live) (add_own own q 1) → (∀ x, 0 ≤ own x) → pbufs (pb s) !! q = None →
  live !! q = None → mac_ok S → mac_ok D → is_Some (netifs s !! n) → eth_ok s1 es → eth_ok s1 ed →
  pbufs (pb s1) = <[q:=ram_pbuf q PBUF_LINK SIZEOF_ETHARP_HDR]> (pbufs (pb s)) →
  data (pb s1) = put_arp (data (pb s)) (q + 32) op S sip D dip → same_tables s s1 → frames s1 = frames s →
  stat_etharp s1 = stat_etharp s →
  ∃ ED ES s', ('(_, s) ← ethernet_output s1 n q es ed ETHTYPE_ARP;
      let s := ETHARP_STATS_INC Xmit s in
      '(_, s) ← withp s (λ x, pbuf_free env_custom_free x q);
      mret (ERR_OK, s)) = Clean (ERR_OK, s') ∧ ninv s' live own ∧ quiet live s s' ∧
    frames s' = frames s ++ [arp_frame ED ES op S sip D dip] ∧ stat_etharp s' = proto_inc Xmit (stat_etharp s) ∧
    mac_ok ED ∧ mac_ok ES ∧
    (∀ L, eth_val s1 ed (q + 18) 14 L → ED = L) ∧ (∀ L, eth_val s1 es (q + 18) 14 L → ES = L).
Proof.
  intros Hi Hown HB Hl HS HD Hn Hes Hed HB1 Hd1 Htab Hfr1 Hst1. set (b := ram_pbuf q PBUF_LINK SIZEOF_ETHARP_HDR) in *.
  assert (pbufs (pb s1) !! q = Some b) as Hb by (rewrite HB1; apply lookup_insert_eq).
  assert (payload b = q + 32) as Hpl by (cbn; unfold PBUF_LINK, PBUF_LINK_HLEN, SIZEOF_STRUCT_PBUF; lia).
  assert (q ≠ NULL) as Hq by (pose proof (inv_pos _ _ _ _ _ (ni_pb _ _ _ Hi) Hb); unfold NULL; lia).
  destruct (ethernet_output_run s1 _ _ n q b es ed ETHTYPE_ARP Hi) as [Hrun _]; [by rewrite (proj1 Htab)|done..|].
  destruct (Hrun (ram_fits q)) as (ED & ES & F & -> & Hi2 & HED & HES & HEDv & HESv & HF). out_simp.
  specialize (HF [(q, b)] ltac:(by apply arp_chain) ltac:(done) ltac:(done)).
  rewrite Hpl in HEDv, HESv, HF. replace (q + 32 - 14) with (q + 18) in HEDv, HESv, HF by lia.
  apply (ninv_etharp_stat Xmit) in Hi2. pose proof (eth_sent_tables s1 q b ETHTYPE_ARP ED ES F) as Htab2.
  pose proof (eth_sent_frames s1 q b ETHTYPE_ARP ED ES F) as Hfr2.
  pose proof (eth_sent_stat s1 q b ETHTYPE_ARP ED ES F) as Hst2. rewrite Hst1 in Hst2.
  pose proof (eth_sent_pbufs s1 q b ETHTYPE_ARP ED ES F) as HB2.
  pose proof (eth_sent_data s1 q b ETHTYPE_ARP ED ES F) as Hd2.
  rewrite HB1, insert_insert_eq in HB2. rewrite Hd1, Hpl in Hd2. revert Hi2 Htab2 Hfr2 Hst2 HB2 Hd2.
  generalize (ETHARP_STATS_INC Xmit (eth_sent s1 q b ETHTYPE_ARP ED ES F)). intros s2 Hi2 Htab2 Hfr2 Hst2 HB2 Hd2.
  destruct (ninv_free_single s2 _ own q (grow b 14) (SrcHeap, cap) (pbufs (pb s)) live Hi2) as (c & m' & Hf & Hi4); try done.
  erewrite withp_run by exact Hf. out_simp. exists ED, ES. eexists. split_and!; [done|done| | |done|done|done|exact HEDv|exact HESv].
  - unfold same_tables in *. destruct_and!.
    split; cbn [netifs netif_list arp_table etharp_cached_entry acds rng ifst netif_default udps raws set_pb pb data pbufs]; [done|..|congruence|congruence|congruence|congruence|congruence|congruence|congruence|split_and!; congruence].
    2:{ intros x Hx. rewrite Hd2. by apply put_header_is_Some, put_arp_is_Some. }
    rewrite Hd2. eapply (keeps_new live _ _ _ q SrcHeap cap); [apply (i_alloc _ _ _ (ni_pb _ _ _ Hi2))|done|].
    intros x Hx. destruct (bo_live _ _ _ (i_block _ _ _ (ni_pb _ _ _ Hi) _ _ Hb)) as (k & z & Hlz & _ & _ & Hr).
    rewrite lookup_insert_eq in Hlz. injection Hlz as <- <-. destruct (Hr (ram_contiguous _ _ _)) as [_ Hr2].
    rewrite Hpl in Hr2. change (len b) with 28 in Hr2.
    rewrite put_header_out by (apply HED || apply HES || lia). apply put_arp_out; [apply HS|apply HD|lia].
  - rewrite frames_set_pb, Hfr2, Hfr1. do 2 f_equal. apply (inj (fmap Some)). rewrite HF.
    + pose proof (arp_content (data (pb s)) q op S sip D dip HS HD) as Hct.
      replace (q + SIZEOF_STRUCT_PBUF + PBUF_LINK) with (q + 32) in Hct by (unfold SIZEOF_STRUCT_PBUF, PBUF_LINK, PBUF_LINK_HLEN; lia).
      rewrite Hd1. fold b in Hct. rewrite Hct. unfold arp_frame. by rewrite !fmap_app, <- !app_assoc.
    + constructor; [|constructor]. cbn [snd]. rewrite Hpl. unfold apart. lia.
Qed.

(** [etharp_raw] sends one frame or none; beside memory that is free again nothing changes. *)
Lemma etharp_raw_run s live own n es ed hs sip hd dip op : ninv s live own → is_Some (netifs s !! n) →
  eth_ok s es → eth_ok s ed → eth_ok s hs → eth_ok s hd →
  ∃ r s', etharp_raw s n es ed hs sip hd dip op = Clean (r, s') ∧ ninv s' live own ∧ quiet live s s' ∧
    ((r = ERR_MEM ∧ frames s' = frames s ∧ stat_etharp s' = proto_inc Memerr (stat_etharp s)) ∨
     (r = ERR_OK ∧ stat_etharp s' = proto_inc Xmit (stat_etharp s) ∧ ∃ ED ES S D, frames s' = frames s ++ [arp_frame ED ES op S sip D dip] ∧
        (∀ L, eth_fix live s (arp_dst sip ed) L → ED = L) ∧ (∀ L, eth_fix live s es L → ES = L) ∧
        (∀ L, eth_fix live s hs L → S = L) ∧ (∀ L, eth_fix live s hd L → D = L))).
Proof.
  intros Hi [f Hf] Hes Hed Hhs Hhd. unfold etharp_raw.
  rewrite (proj2 (Z.eqb_neq n NULL)) by apply (lo_netif _ _ _ _ (ni_links _ _ _ Hi) _ _ Hf). cbn [negb]. out_simp.
  destruct (ninv_alloc_ram s live own PBUF_LINK SIZEOF_ETHARP_HDR Hi) as (m & [[Ha Hi1]|(q & cap & Hq & Ha & HB & Hl & Hi1)]);
    [done|done|..]; erewrite withp_run by exact Ha; out_simp.
  { change (NULL =? NULL) with true. cbn iota. eexists _, _. split_and!; [done|by apply ninv_etharp_stat|by split|]. by left. }
  rewrite (proj2 (Z.eqb_neq q NULL)) by done. unfold get at 1. cbn [pb set_pb upd set_pbufs pbufs].
  rewrite lookup_insert_eq. out_simp. change (SIZEOF_ETHARP_HDR <=? len (ram_pbuf q PBUF_LINK SIZEOF_ETHARP_HDR)) with true. out_simp.
  change (payload (ram_pbuf q PBUF_LINK SIZEOF_ETHARP_HDR)) with (q + SIZEOF_STRUCT_PBUF + PBUF_LINK).
  replace (q + SIZEOF_STRUCT_PBUF + PBUF_LINK) with (q + 32) by (unfold SIZEOF_STRUCT_PBUF, PBUF_LINK, PBUF_LINK_HLEN; lia).
  set (b := ram_pbuf q PBUF_LINK SIZEOF_ETHARP_HDR) in *. set (q1 := upd (set_pmem (pb s) m) q b) in *.
  change (set_pb s q1) with (with_mem s q1 (data (pb s))) in *. set (h := q + 32).
  assert (payload b = h) as Hpl by (cbn; unfold h, PBUF_LINK, PBUF_LINK_HLEN, SIZEOF_STRUCT_PBUF; lia).
  assert (pbufs q1 !! q = Some b) as Hb by apply lookup_insert_eq.
  assert (mapped (data (pb s)) h 28) as Hm by (rewrite <- Hpl; exact (ninv_mapped _ _ _ _ _ Hi1 Hb)).
  assert (∀ e, eth_ok s e → eth_ok (with_mem s q1 (data (pb s))) e) as Hok by (intros e He; by apply (eth_ok_ext s)).
  destruct (arp_fill s q1 _ _ _ h op hs sip hd dip n f Hi1 Hf Hm (Hok _ Hhs) (Hok _ Hhd)) as (S & D & -> & Hi2 & HS & HD & HSv & HDv).
  out_simp. set (s1 := with_mem s q1 (put_arp (data (pb s)) h op S sip D dip)) in *.
  assert (∀ e, eth_ok s e → eth_ok s1 e) as Hok1.
  { intros e He. apply (eth_ok_ext s); [done..|]. intros x Hx. by apply put_arp_is_Some. }
  destruct (arp_send s s1 q cap live own n es (arp_dst sip ed) op S sip D dip Hi2) as
    (ED & ES & s' & Hs' & Hi' & Hqu & HF & Hst & HED & HES & HEDv & HESv);
    [apply Hi|done|done|done|done|by eexists|by apply Hok1|by apply Hok1, arp_dst_ok|done..|].
  exists ERR_OK, s'. split_and!; [|done|done|].
  { unfold arp_dst in Hs'. destruct (ip4_addr_islinklocal sip); exact Hs'. }
  right. split; [done|]. split; [done|]. exists ED, ES, S, D.
  assert (pa_ok (pmem q1) (<[q:=(SrcHeap, cap)]> live)) as Hpa by apply (i_alloc _ _ _ (ni_pb _ _ _ Hi1)).
  destruct (bo_live _ _ _ (i_block _ _ _ (ni_pb _ _ _ Hi1) _ _ Hb)) as (k & z & Hlz & _ & _ & Hr).
  rewrite lookup_insert_eq in Hlz. injection Hlz as <- <-. destruct (Hr (ram_contiguous _ _ _)) as [_ Hr2].
  rewrite Hpl in Hr2. change (len b) with 28 in Hr2.
  assert (∀ e L, eth_fix live s e L → eth_val s e h 28 L ∧ eth_val s1 e (q + 18) 14 L) as Hval.
  { intros e L He. assert (eth_val s e h 28 L) as H28 by (eapply (eth_fix_val live _ _ _ _ q); try done; lia).
    split; [done|]. apply (eth_val_frame s s1 e (q + 18) 14 h 28); try done.
    - eapply (eth_fix_val live _ _ _ _ q); try done; lia.
    - intros x Hx. apply put_arp_out; [apply HS|apply HD|done]. }
  split_and!; [done|intros L HL..].
  - by apply HEDv, Hval.
  - by apply HESv, Hval.
  - apply HSv. destruct (Hval _ _ HL) as [Hv _]. by destruct hs.
  - apply HDv. destruct (Hval _ _ HL) as [Hv _]. by destruct hd.
Qed.

(** At most one frame: none and [ERR_MEM] when there is no memory for it, which is counted. *)
Definition sends (s s' : nst) (r : Z) (F : list Z) : Prop :=
  (r = ERR_MEM ∧ frames s' = frames s ∧ stat_etharp s' = proto_inc Memerr (stat_etharp s)) ∨
  (r = ERR_OK ∧ frames s' = frames s ++ [F] ∧ stat_etharp s' = proto_inc Xmit (stat_etharp s)).

(** Each frame of [Fs] was handed to [etharp_raw] in turn: it was sent, or counted as an
    error for the lack of memory. *)
Definition attempts (s s' : nst) (Fs : list (list Z)) : Prop :=
  ∃ L, frames s' = frames s ++ L ∧ L `sublist_of` Fs ∧
    u16 (sp_memerr (stat_etharp s')) = u16 (sp_memerr (stat_etharp s) + Z.of_nat (length Fs - length L)).

Lemma attempts_none s s' : frames s' = frames s → stat_etharp s' = stat_etharp s → attempts s s' [].
Proof. intros H1 H2. exists []. rewrite H1, H2, app_nil_r, Z.add_0_r. done. Qed.

Lemma u16_add_l a b : u16 (u16 a + b) = u16 (a + b).
Proof. unfold u16. by rewrite Zplus_mod_idemp_l. Qed.

Lemma attempts_sends s s' r F : sends s s' r F → attempts s s' [F].
Proof.
  intros [(_ & H1 & H2)|(_ & H1 & H2)]; [exists []|exists [F]]; rewrite H1, H2; cbn [proto_inc sp_memerr decide];
    rewrite ?app_nil_r; (split; [done|]); (split; [apply sublist_nil_l || done|]).
  - rewrite decide_True by done. unfold u16. by rewrite Zmod_mod.
  - rewrite decide_False by done. f_equal. cbn. lia.
Qed.

Lemma attempts_app s1 s2 s3 A B : attempts s1 s2 A → attempts s2 s3 B → attempts s1 s3 (A ++ B).
Proof.
  intros (L & F1 & S1 & M1) (K & F2 & S2 & M2). exists (L ++ K). split_and!.
  - by rewrite F2, F1, app_assoc.
  - by apply sublist_app.
  - rewrite M2, <- u16_add_l, M1, u16_add_l. f_equal. apply sublist_length in S1, S2. rewrite !length_app. lia.
Qed.

(** What does neither send nor count. *)
Lemma attempts_same s s0 s1 s2 Fs : frames s1 = frames s → stat_etharp s1 = stat_etharp s →
  attempts s s0 Fs → frames s2 = frames s0 → stat_etharp s2 = stat_etharp s0 → attempts s1 s2 Fs.
Proof. intros H1 H2 (L & HL) H3 H4. exists L. by rewrite H1, H2, H3, H4. Qed.

Lemma eth_fix_hw live s n f : netifs s !! n = Some f → eth_fix live s (EHw n) (nf_hwaddr f).
Proof. intros Hf. cbn. by rewrite Hf. Qed.

(** The destination address of the frame of an ARP packet. *)
Definition arp_dst_val (sip : Z) (L : list Z) : list Z := if ip4_addr_islinklocal sip then ethbroadcast else L.

Lemma etharp_raw_sends s live own n es ed hs sip hd dip op ES ED S D : ninv s live own → is_Some (netifs s !! n) →
  eth_ok s es → eth_ok s ed → eth_ok s hs → eth_ok s hd →
  eth_fix live s es ES → eth_fix live s ed ED → eth_fix live s hs S → eth_fix live s hd D →
  ∃ r s', etharp_raw s n es ed hs sip hd dip op = Clean (r, s') ∧ ninv s' live own ∧ quiet live s s' ∧
    sends s s' r (arp_frame (arp_dst_val sip ED) ES op S sip D dip).
Proof.
  intros Hi Hn H1 H2 H3 H4 F1 F2 F3 F4.
  destruct (etharp_raw_run s live own n es ed hs sip hd dip op Hi Hn H1 H2 H3 H4) as (r & s' & Hr & Hi' & Hq & Hc).
  exists r, s'. split_and!; try done. destruct Hc as [?|(-> & Hst & ED' & ES' & S' & D' & Hf & E1 & E2 & E3 & E4)]; [by left|right].
  split; [done|]. split; [|done]. rewrite Hf. rewrite (E2 ES), (E3 S), (E4 D) by done. do 3 f_equal. apply E1.
  unfold arp_dst, arp_dst_val. by destruct (ip4_addr_islinklocal sip).
Qed.

Lemma request_dst_run s live own n f ip e L : ninv s live own → netifs s !! n = Some f → eth_ok s e →
  eth_fix live s e L → ∃ r s', etharp_request_dst s n ip e = Clean (r, s') ∧ ninv s' live own ∧ quiet live s s' ∧
    sends s s' r (arp_frame (arp_dst_val (nf_ip_addr f) L) (nf_hwaddr f) ARP_REQUEST (nf_hwaddr f) (nf_ip_addr f) ethzero ip).
Proof.
  intros Hi Hf He HL. unfold etharp_request_dst, get_netif. rewrite Hf. out_simp.
  apply etharp_raw_sends; try done; try (by eexists); try (by apply eth_fix_hw). apply zero_mac.
Qed.

Lemma request_run s live own n f ip : ninv s live own → netifs s !! n = Some f →
  ∃ r s', etharp_request s n ip = Clean (r, s') ∧ ninv s' live own ∧ quiet live s s' ∧
    sends s s' r (arp_frame ethbroadcast (nf_hwaddr f) ARP_REQUEST (nf_hwaddr f) (nf_ip_addr f) ethzero ip).
Proof.
  intros Hi Hf. destruct (request_dst_run s live own n f ip (EVal ethbroadcast) ethbroadcast Hi Hf) as (r & s' & H);
    [apply bcast_mac|done|]. exists r, s'. unfold arp_dst_val in H. by destruct (ip4_addr_islinklocal _).
Qed.

Lemma announce_run s live own n f ip : ninv s live own → netifs s !! n = Some f →
  ∃ r s', etharp_acd_announce s n ip = Clean (r, s') ∧ ninv s' live own ∧ quiet live s s' ∧
    sends s s' r (arp_frame ethbroadcast (nf_hwaddr f) ARP_REQUEST (nf_hwaddr f) ip ethzero ip).
Proof.
  intros Hi Hf.
  destruct (etharp_raw_sends s live own n (EHw n) (EVal ethbroadcast) (EHw n) ip (EVal ethzero) ip ARP_REQUEST
    (nf_hwaddr f) ethbroadcast (nf_hwaddr f) ethzero Hi) as (r & s' & H);
    try done; try (by eexists); try (by apply eth_fix_hw); [apply bcast_mac|apply zero_mac|].
  exists r, s'. unfold arp_dst_val in H. by destruct (ip4_addr_islinklocal ip).
Qed.

Lemma probe_run s live own n f ip : ninv s live own → netifs s !! n = Some f →
  ∃ r s', etharp_acd_probe s n ip = Clean (r, s') ∧ ninv s' live own ∧ quiet live s s' ∧
    sends s s' r (arp_frame ethbroadcast (nf_hwaddr f) ARP_REQUEST (nf_hwaddr f) IPADDR_ANY ethzero ip).
Proof.
  intros Hi Hf.
  apply (etharp_raw_sends s live own n (EHw n) (EVal ethbroadcast) (EHw n) IPADDR_ANY (EVal ethzero) ip ARP_REQUEST
    (nf_hwaddr f) ethbroadcast (nf_hwaddr f) ethzero Hi);
    try done; try (by eexists); try (by apply eth_fix_hw); [apply bcast_mac|apply zero_mac].
Qed.
End EthOut.
