(* ===== verification/Region.v ===== *)
(** * A region of memory as a list of bytes

    [over s h L] is [s] with the bytes [L] at [h].  Straight-line code that fills in a header is
    run on the list: a store inside the region is [splice], a load [take] and [drop]. *)
From S2P Require Import Prelude Def Stats Iface Ip4Addr Pbuf PbufChain PbufClient PbufData Pcb Netif NetInv EthOut.

(** [L] with [l] stored at position [k]. *)
Definition splice (k : nat) (l L : list Z) : list Z := take k L ++ l ++ drop (k + length l) L.

Lemma splice_length k l L : (k + length l ≤ length L)%nat → length (splice k l L) = length L.
Proof. intros H. unfold splice. rewrite !length_app, length_take, length_drop. lia. Qed.

Lemma splice_bytes k l L : Forall is_u8 l → Forall is_u8 L → Forall is_u8 (splice k l L).
Proof. intros H1 H2. unfold splice. apply Forall_app_2; [by apply Forall_take|]. apply Forall_app_2; [done|by apply Forall_drop]. Qed.

Lemma splice_lookup k l L i : (k + length l ≤ length L)%nat →
  splice k l L !! i = if decide (k ≤ i < k + length l)%nat then l !! (i - k)%nat else L !! i.
Proof.
  intros Hk. unfold splice. assert (length (take k L) = k) as Ht by (rewrite length_take; lia).
  case_decide as Hi.
  - rewrite lookup_app_r, Ht by lia. by rewrite lookup_app_l by lia.
  - destruct (decide (i < k)%nat); [rewrite lookup_app_l by lia; rewrite lookup_take; by rewrite decide_True by lia|].
    rewrite lookup_app_r, Ht by lia. rewrite lookup_app_r by lia. rewrite lookup_drop. f_equal. lia.
Qed.

(** Fields of a spliced list. *)
Lemma splice_other k l L j n : (k + length l ≤ length L)%nat → (j + n ≤ k ∨ k + length l ≤ j)%nat →
  take n (drop j (splice k l L)) = take n (drop j L).
Proof.
  intros Hk Hj. apply list_eq. intros i. rewrite !lookup_take. case_decide; [|done]. rewrite !lookup_drop, splice_lookup by done.
  by rewrite decide_False by lia.
Qed.

Lemma splice_same k l L n : (k + length l ≤ length L)%nat → n = length l → take n (drop k (splice k l L)) = l.
Proof.
  intros Hk ->. apply list_eq. intros i. rewrite !lookup_take. case_decide as Hi.
  - rewrite lookup_drop, splice_lookup, decide_True by lia. f_equal. lia.
  - symmetry. apply lookup_ge_None_2. lia.
Qed.

Lemma put_splice d h L k l : (k + length l ≤ length L)%nat → put (put d h L) (h + Z.of_nat k) l = put d h (splice k l L).
Proof.
  intros Hk. pose proof (splice_length k l L Hk) as Hlen. apply map_eq. intros x. rewrite (put_lookup (splice k l L)), Hlen, !put_lookup.
  destruct (decide (h + Z.of_nat k ≤ x < h + Z.of_nat k + Z.of_nat (length l))) as [Hin|Hout].
  - rewrite decide_True by lia. unfold splice. rewrite lookup_app_r by (rewrite length_take; lia).
    rewrite lookup_app_l; [|rewrite length_take; lia]. f_equal. rewrite length_take. lia.
  - case_decide as Hx; [|done]. unfold splice. destruct (decide (x < h + Z.of_nat k)) as [Hlt|Hge].
    + rewrite lookup_app_l by (rewrite length_take; lia). rewrite lookup_take. rewrite decide_True by lia. done.
    + rewrite lookup_app_r by (rewrite length_take; lia). rewrite lookup_app_r; rewrite length_take; [|lia].
      rewrite lookup_drop. f_equal. lia.
Qed.

Lemma put_self d h L : Some <$> L = seg d h (Z.of_nat (length L)) → put d h L = d.
Proof.
  intros HL. apply map_eq. intros x. rewrite put_lookup. case_decide as Hx; [|done].
  assert (seg d h (Z.of_nat (length L)) !! Z.to_nat (x - h) = Some (d !! x)) as Hs
    by (rewrite seg_lookup by lia; do 2 f_equal; lia).
  rewrite <- HL, list_lookup_fmap in Hs. destruct (L !! Z.to_nat (x - h)); cbn in Hs; congruence.
Qed.

Lemma put_twice d h L1 L2 : length L1 = length L2 → put (put d h L1) h L2 = put d h L2.
Proof.
  intros Hl. apply map_eq. intros x. rewrite !put_lookup, Hl. by case_decide.
Qed.

(** Two regions side by side. *)
Lemma put_app d h L1 L2 : put (put d h L1) (h + Z.of_nat (length L1)) L2 = put d h (L1 ++ L2).
Proof.
  apply map_eq. intros x. rewrite !put_lookup, length_app. repeat case_decide; try lia; try done.
  - rewrite lookup_app_r by lia. f_equal. lia.
  - by rewrite lookup_app_l by lia.
Qed.

Lemma content_bytes d l P : bytes_ok d → content d l = Some <$> P → Forall is_u8 P.
Proof.
  intros Hb HP. apply Forall_lookup. intros i v Hv. apply (content_u8 d l i v Hb). by rewrite HP, list_lookup_fmap, Hv.
Qed.

Lemma seg_bytes d a n L : bytes_ok d → seg d a n = Some <$> L → Forall is_u8 L.
Proof.
  intros Hb HL. apply Forall_lookup. intros i v Hv. apply (Hb (a + Z.of_nat i)).
  assert (seg d a n !! i = Some (Some v)) as Hs by (by rewrite HL, list_lookup_fmap, Hv).
  assert ((i < Z.to_nat n)%nat) by (apply lookup_lt_Some in Hs; by rewrite seg_length in Hs).
  rewrite seg_lookup in Hs by done. by injection Hs.
Qed.

Lemma of_le_u32 l : Forall is_u8 l → length l = 4%nat → is_u32 (of_le l).
Proof. intros Hb Hl. pose proof (of_le_range l 4 Hb Hl) as Hr. unfold is_u32. cbn in Hr. lia. Qed.

Section Region.
Context {M : Type} `{PM : PbufAlloc M} {E : NetEnv M}.
Abbreviation pst := (@pst M).
Abbreviation nst := (nst M).

Definition over (s : nst) (h : Z) (L : list Z) : nst := set_pb s (set_data (pb s) (put (data (pb s)) h L)).

Lemma over_here s live own h n : ninv s live own → mapped (data (pb s)) h (Z.of_nat n) →
  ∃ L, length L = n ∧ Forall is_u8 L ∧ Some <$> L = seg (data (pb s)) h (Z.of_nat n) ∧ s = over s h L.
Proof.
  intros Hi Hm. destruct (load_run n (data (pb s)) h Hm) as (L & Hl & Hs).
  assert (length L = n) as Hlen by (apply (f_equal length) in Hs; rewrite length_fmap, seg_length in Hs; lia).
  exists L. split_and!; [done|by eapply load_bytes; [apply Hi|]|done|]. unfold over.
  rewrite put_self by (by rewrite Hlen). by destruct s as [[]].
Qed.

Lemma wr_region s h L a l k : a = h + Z.of_nat k → (k + length l ≤ length L)%nat →
  mapped (data (pb s)) h (Z.of_nat (length L)) → wr (over s h L) a l = Clean (over s h (splice k l L)).
Proof.
  intros -> Hk Hm. rewrite wr_run.
  - unfold over. cbn [pb set_pb data set_data]. by rewrite put_splice.
  - cbn [over pb set_pb data set_data]. intros x Hx. apply put_is_Some, Hm. lia.
Qed.

Lemma rd_region s h L a n k : a = h + Z.of_nat k → (k + Z.to_nat n ≤ length L)%nat → 0 ≤ n →
  rd (over s h L) a n = Clean (take (Z.to_nat n) (drop k L)).
Proof.
  intros -> Hk Hn. unfold rd. apply load_val. cbn [over pb set_pb data set_data].
  apply list_eq_same_length with (Z.to_nat n); rewrite ?length_fmap, ?length_take, ?length_drop, ?seg_length; [lia|lia|].
  intros i x y Hi. rewrite list_lookup_fmap, lookup_take, lookup_drop, decide_True, seg_lookup by lia.
  rewrite put_lookup, decide_True by lia. replace (Z.to_nat (h + Z.of_nat k + Z.of_nat i - h)) with (k + i)%nat by lia.
  intros Hx [= <-]. destruct (L !! (k + i)%nat); cbn in Hx; congruence.
Qed.

Lemma ninv_over s live own h L : ninv s live own → Forall is_u8 L → mapped (data (pb s)) h (Z.of_nat (length L)) →
  ninv (over s h L) live own.
Proof. apply ninv_put. Qed.

Lemma over_get s h L p : get (pb (over s h L)) p = get (pb s) p.
Proof. done. Qed.

(** The content of a packet whose first buffer is the region. *)
Lemma over_content d p b l L : len b = Z.of_nat (length L) → foreign l (payload b) (len b) →
  content (put d (payload b) L) ((p, b) :: l) = (Some <$> L) ++ content d l.
Proof.
  intros Hl Hf. rewrite content_cons, (put_seg _ _ _ _ Hl). f_equal. apply content_frame.
  apply (Forall_impl _ _ _ Hf). intros kv Ha. apply put_seg_apart. unfold apart in *. lia.
Qed.
End Region.

(** Runs a store at position [k] of a region of known bytes. *)
Ltac region_step k :=
  rewrite (wr_region _ _ _ _ _ k) by (lia || (cbn [length le16 le32]; lia) || (cbn [length le16 le32 app]; assumption) || done);
  rewrite ?bind_clean; cbn [splice take drop app length Nat.add le16 le32].

(** The length of a list with fields stored in it. *)
Ltac splice_len := repeat (rewrite splice_length; cbn [length le16 le32]); try lia.
