(* ===== verification/Acd.v ===== *)
(** * Address conflict detection (src/lwip/src/core/ipv4/acd.c)

    RFC 5227: before an address is used it is probed and announced, afterwards it is
    defended once per interval.  The structs of the clients hang off their
    interface in a linked list; results go to the client through its conflict
    callback. *)
From S2P Require Import Prelude Def Stats Iface Ip4Addr Pbuf PbufChain PbufClient PbufData Pcb Netif NetInv EthOut.

Definition PROBE_WAIT : Z := 1.
Definition PROBE_MIN : Z := 1.
Definition PROBE_MAX : Z := 2.
Definition PROBE_NUM : Z := 3.
Definition ANNOUNCE_NUM : Z := 2.
Definition ANNOUNCE_INTERVAL : Z := 2.
Definition ANNOUNCE_WAIT : Z := 2.
Definition MAX_CONFLICTS : Z := 10.
Definition RATE_LIMIT_INTERVAL : Z := 60.
Definition DEFEND_INTERVAL : Z := 10.
Definition ACD_TMR_INTERVAL : Z := 100.
Definition ACD_TICKS_PER_SECOND : Z := 1000 / ACD_TMR_INTERVAL.

Definition set_acd_next (a : acd) (v : Z) : acd :=
  Acd v (acd_ipaddr a) (acd_st a) (acd_sent_num a) (acd_ttw a) (acd_lastconflict a) (acd_num_conflicts a) (acd_conflict_callback a).
Definition set_acd_ipaddr (a : acd) (v : Z) : acd :=
  Acd (acd_next a) v (acd_st a) (acd_sent_num a) (acd_ttw a) (acd_lastconflict a) (acd_num_conflicts a) (acd_conflict_callback a).
Definition set_acd_st (a : acd) (v : acd_state) : acd :=
  Acd (acd_next a) (acd_ipaddr a) v (acd_sent_num a) (acd_ttw a) (acd_lastconflict a) (acd_num_conflicts a) (acd_conflict_callback a).
Definition set_acd_sent_num (a : acd) (v : Z) : acd :=
  Acd (acd_next a) (acd_ipaddr a) (acd_st a) v (acd_ttw a) (acd_lastconflict a) (acd_num_conflicts a) (acd_conflict_callback a).
Definition set_acd_ttw (a : acd) (v : Z) : acd :=
  Acd (acd_next a) (acd_ipaddr a) (acd_st a) (acd_sent_num a) v (acd_lastconflict a) (acd_num_conflicts a) (acd_conflict_callback a).
Definition set_acd_lastconflict (a : acd) (v : Z) : acd :=
  Acd (acd_next a) (acd_ipaddr a) (acd_st a) (acd_sent_num a) (acd_ttw a) v (acd_num_conflicts a) (acd_conflict_callback a).
Definition set_acd_num_conflicts (a : acd) (v : Z) : acd :=
  Acd (acd_next a) (acd_ipaddr a) (acd_st a) (acd_sent_num a) (acd_ttw a) (acd_lastconflict a) v (acd_conflict_callback a).
Definition set_acd_callback (a : acd) (v : Z) : acd :=
  Acd (acd_next a) (acd_ipaddr a) (acd_st a) (acd_sent_num a) (acd_ttw a) (acd_lastconflict a) (acd_num_conflicts a) v.

Definition set_nf_acd_list (f : netif) (v : Z) : netif :=
  Netif (nf_next f) (nf_ip_addr f) (nf_netmask f) (nf_gw f) (nf_mtu f) (nf_hwaddr f) (nf_hwaddr_len f) (nf_flags f) (nf_num f) v
    (nf_status_callback f) (nf_link_callback f) (nf_dhcp f) (nf_autoip f).

Section Acd.
Context {M : Type} `{PM : PbufAlloc M} {E : NetEnv M}.
Abbreviation pst := (@pst M).
Abbreviation nst := (nst M).

Definition get_acd (s : nst) (a : Z) : out acd := or_fault "struct acd" (acds s !! a).
Definition put_acd (s : nst) (a : Z) (x : acd) : nst := set_acds s (<[a:=x]> (acds s)).
Definition upd_acd (s : nst) (a : Z) (f : acd → acd) : out nst := x ← get_acd s a; mret (put_acd s a (f x)).
Definition put_netif (s : nst) (n : Z) (f : netif) : nst := set_netifs s (<[n:=f]> (netifs s)).

(** [LWIP_RAND()] of cc.h *)
Definition LWIP_RAND (s : nst) : Z * nst := let '(v, r) := rand (rng s) in (u32 v, set_rng s r).

Definition ACD_RANDOM_PROBE_WAIT (s : nst) : Z * nst :=
  let '(v, s) := LWIP_RAND s in (v mod (PROBE_WAIT * ACD_TICKS_PER_SECOND), s).
Definition ACD_RANDOM_PROBE_INTERVAL (s : nst) : Z * nst :=
  let '(v, s) := LWIP_RAND s in
  (v mod ((PROBE_MAX - PROBE_MIN) * ACD_TICKS_PER_SECOND) + PROBE_MIN * ACD_TICKS_PER_SECOND, s).

(** A list visits every struct at most once. *)
Definition acd_fuel (s : nst) : nat := S (size (acds s)).

(** The search of [acd_add]. *)
Fixpoint acd_on_list (fuel : nat) (s : nst) (acd2 acd : Z) : out bool :=
  if acd2 =? NULL then mret false
  else match fuel with
  | O => NoFuel
  | S fuel' =>
      if acd2 =? acd then mret true
      else x ← get_acd s acd2; acd_on_list fuel' s (acd_next x) acd
  end.

Definition acd_add (s : nst) (netif acd callback : Z) : out (Z * nst) :=
  _ ← lwip_assert "acd_conflict_callback != NULL" (negb (callback =? NULL));
  s ← upd_acd s acd (λ x, set_acd_callback x callback);
  f ← get_netif s netif;
  found ← acd_on_list (acd_fuel s) s (nf_acd_list f) acd;
  if (found : bool) then mret (ERR_OK, s)
  else
    s ← upd_acd s acd (λ x, set_acd_next x (nf_acd_list f));
    mret (ERR_OK, put_netif s netif (set_nf_acd_list f acd)).

(** The loop of [acd_remove]; [prev] is the previous element or NULL. *)
Fixpoint acd_remove_loop (fuel : nat) (s : nst) (netif acd2 prev acd : Z) : out nst :=
  if acd2 =? NULL then
    _ ← lwip_assert "acd_remove(): acd not on list\n" false;
    mret s
  else match fuel with
  | O => NoFuel
  | S fuel' =>
      x ← get_acd s acd2;
      if acd2 =? acd then
        if negb (prev =? NULL) then upd_acd s prev (λ y, set_acd_next y (acd_next x))
        else f ← get_netif s netif; mret (put_netif s netif (set_nf_acd_list f (acd_next x)))
      else acd_remove_loop fuel' s netif (acd_next x) acd2 acd
  end.

Definition acd_remove (s : nst) (netif acd : Z) : out nst :=
  f ← get_netif s netif;
  acd_remove_loop (acd_fuel s) s netif (nf_acd_list f) NULL acd.

Definition acd_start (s : nst) (netif acd ipaddr : Z) : out (Z * nst) :=
  s ← upd_acd s acd (λ x, set_acd_sent_num x 0);
  s ← upd_acd s acd (λ x, set_acd_lastconflict x 0);
  s ← upd_acd s acd (λ x, set_acd_ipaddr x ipaddr);
  s ← upd_acd s acd (λ x, set_acd_st x ACD_STATE_PROBE_WAIT);
  let '(w, s) := ACD_RANDOM_PROBE_WAIT s in
  s ← upd_acd s acd (λ x, set_acd_ttw x (u16 w));
  mret (ERR_OK, s).

Definition acd_stop (s : nst) (acd : Z) : out (Z * nst) :=
  if negb (acd =? NULL) then s ← upd_acd s acd (λ x, set_acd_st x ACD_STATE_OFF); mret (ERR_OK, s)
  else mret (ERR_OK, s).

(** [ACD_FOREACH(acd, list) body]: the next pointer is read after the body has run. *)
Fixpoint acd_foreach (fuel : nat) (s : nst) (acd : Z) (body : nst → Z → out nst) : out nst :=
  if acd =? NULL then mret s
  else match fuel with
  | O => NoFuel
  | S fuel' =>
      s ← body s acd;
      x ← get_acd s acd;
      acd_foreach fuel' s (acd_next x) body
  end.

Definition acd_network_changed_link_down (s : nst) (netif : Z) : out nst :=
  f ← get_netif s netif;
  acd_foreach (acd_fuel s) s (nf_acd_list f) (λ s acd, '(_, s) ← acd_stop s acd; mret s).

(** [acd->acd_conflict_callback(netif, state)] *)
Definition acd_call (s : nst) (netif acd : Z) (st : acd_callback_enum) : out nst :=
  x ← get_acd s acd;
  conflict_callback (acd_conflict_callback x) s netif st.

(** ** The timer *)

(** [ACD_STATE_PROBE_WAIT] and [ACD_STATE_PROBING] with [ttw == 0]. *)
Definition acd_tmr_probe (s : nst) (netif acd : Z) : out nst :=
  s ← upd_acd s acd (λ x, set_acd_st x ACD_STATE_PROBING);
  x ← get_acd s acd;
  '(_, s) ← etharp_acd_probe s netif (acd_ipaddr x);
  s ← upd_acd s acd (λ x, set_acd_sent_num x (u8 (acd_sent_num x + 1)));
  x ← get_acd s acd;
  if PROBE_NUM <=? acd_sent_num x then
    s ← upd_acd s acd (λ x, set_acd_st x ACD_STATE_ANNOUNCE_WAIT);
    s ← upd_acd s acd (λ x, set_acd_sent_num x 0);
    upd_acd s acd (λ x, set_acd_ttw x (u16 (ANNOUNCE_WAIT * ACD_TICKS_PER_SECOND)))
  else
    let '(w, s) := ACD_RANDOM_PROBE_INTERVAL s in
    upd_acd s acd (λ x, set_acd_ttw x (u16 w)).

(** [ACD_STATE_ANNOUNCE_WAIT] and [ACD_STATE_ANNOUNCING] with [ttw == 0]. *)
Definition acd_tmr_announce (s : nst) (netif acd : Z) : out nst :=
  x ← get_acd s acd;
  s ← (if acd_sent_num x =? 0 then
         s ← upd_acd s acd (λ x, set_acd_st x ACD_STATE_ANNOUNCING);
         upd_acd s acd (λ x, set_acd_num_conflicts x 0)
       else mret s);
  x ← get_acd s acd;
  '(_, s) ← etharp_acd_announce s netif (acd_ipaddr x);
  s ← upd_acd s acd (λ x, set_acd_ttw x (ANNOUNCE_INTERVAL * ACD_TICKS_PER_SECOND));
  s ← upd_acd s acd (λ x, set_acd_sent_num x (u8 (acd_sent_num x + 1)));
  x ← get_acd s acd;
  if ANNOUNCE_NUM <=? acd_sent_num x then
    s ← upd_acd s acd (λ x, set_acd_st x ACD_STATE_ONGOING);
    s ← upd_acd s acd (λ x, set_acd_sent_num x 0);
    s ← upd_acd s acd (λ x, set_acd_ttw x 0);
    acd_call s netif acd ACD_IP_OK
  else mret s.

(** The body of the inner loop of [acd_tmr]. *)
Definition acd_tmr_one (netif : Z) (s : nst) (acd : Z) : out nst :=
  s ← upd_acd s acd (λ x, if 0 <? acd_lastconflict x then set_acd_lastconflict x (acd_lastconflict x - 1) else x);
  s ← upd_acd s acd (λ x, if 0 <? acd_ttw x then set_acd_ttw x (acd_ttw x - 1) else x);
  x ← get_acd s acd;
  match acd_st x with
  | ACD_STATE_PROBE_WAIT | ACD_STATE_PROBING => if acd_ttw x =? 0 then acd_tmr_probe s netif acd else mret s
  | ACD_STATE_ANNOUNCE_WAIT | ACD_STATE_ANNOUNCING => if acd_ttw x =? 0 then acd_tmr_announce s netif acd else mret s
  | ACD_STATE_RATE_LIMIT =>
      if acd_ttw x =? 0 then
        '(_, s) ← acd_stop s acd;
        acd_call s netif acd ACD_RESTART_CLIENT
      else mret s
  | _ => mret s
  end.

(** [NETIF_FOREACH(netif)] *)
Fixpoint netif_foreach (fuel : nat) (s : nst) (netif : Z) (body : nst → Z → out nst) : out nst :=
  if netif =? NULL then mret s
  else match fuel with
  | O => NoFuel
  | S fuel' =>
      s ← body s netif;
      f ← get_netif s netif;
      netif_foreach fuel' s (nf_next f) body
  end.

Definition acd_tmr (s : nst) : out nst :=
  netif_foreach (S (size (netifs s))) s (netif_list s) (λ s netif,
    f ← get_netif s netif;
    acd_foreach (acd_fuel s) s (nf_acd_list f) (acd_tmr_one netif)).

(** ** Conflicts *)

Definition acd_restart (s : nst) (netif acd : Z) : out nst :=
  s ← upd_acd s acd (λ x, set_acd_num_conflicts x (u8 (acd_num_conflicts x + 1)));
  s ← acd_call s netif acd ACD_DECLINE;
  x ← get_acd s acd;
  if MAX_CONFLICTS <=? acd_num_conflicts x then
    s ← upd_acd s acd (λ x, set_acd_st x ACD_STATE_RATE_LIMIT);
    upd_acd s acd (λ x, set_acd_ttw x (u16 (RATE_LIMIT_INTERVAL * ACD_TICKS_PER_SECOND)))
  else
    '(_, s) ← acd_stop s acd;
    acd_call s netif acd ACD_RESTART_CLIENT.

Definition acd_handle_arp_conflict (s : nst) (netif acd : Z) : out nst :=
  x ← get_acd s acd;
  if decide (acd_st x = ACD_STATE_PASSIVE_ONGOING) then
    '(_, s) ← acd_stop s acd;
    acd_call s netif acd ACD_DECLINE
  else if 0 <? acd_lastconflict x then acd_restart s netif acd
  else
    '(_, s) ← etharp_acd_announce s netif (acd_ipaddr x);
    upd_acd s acd (λ x, set_acd_lastconflict x (DEFEND_INTERVAL * ACD_TICKS_PER_SECOND)).

(** The body of the loop of [acd_arp_reply]; [hdr] is the address of the ARP packet. *)
Definition acd_arp_reply_one (netif hdr sipaddr dipaddr : Z) (netifaddr : list Z) (s : nst) (acd : Z) : out nst :=
  x ← get_acd s acd;
  match acd_st x with
  | ACD_STATE_OFF | ACD_STATE_RATE_LIMIT => mret s
  | ACD_STATE_PROBE_WAIT | ACD_STATE_PROBING | ACD_STATE_ANNOUNCE_WAIT =>
      if sipaddr =? acd_ipaddr x then acd_restart s netif acd
      else if ip4_addr_isany sipaddr && (dipaddr =? acd_ipaddr x) then
        h ← rd s (hdr + 8) ETH_HWADDR_LEN;
        if negb (bool_decide (netifaddr = h)) then acd_restart s netif acd else mret s
      else mret s
  | ACD_STATE_ANNOUNCING | ACD_STATE_ONGOING | ACD_STATE_PASSIVE_ONGOING =>
      if sipaddr =? acd_ipaddr x then
        h ← rd s (hdr + 8) ETH_HWADDR_LEN;
        if negb (bool_decide (netifaddr = h)) then acd_handle_arp_conflict s netif acd else mret s
      else mret s
  end.

Definition acd_arp_reply (s : nst) (netif hdr : Z) : out nst :=
  f ← get_netif s netif;
  sipaddr ← rd32 s (hdr + 14);
  dipaddr ← rd32 s (hdr + 24);
  acd_foreach (acd_fuel s) s (nf_acd_list f) (acd_arp_reply_one netif hdr sipaddr dipaddr (nf_hwaddr f)).

Definition acd_put_in_passive_mode (s : nst) (netif acd : Z) : out nst :=
  x ← get_acd s acd;
  match acd_st x with
  | ACD_STATE_OFF | ACD_STATE_PASSIVE_ONGOING => mret s
  | ACD_STATE_PROBE_WAIT | ACD_STATE_PROBING | ACD_STATE_ANNOUNCE_WAIT | ACD_STATE_RATE_LIMIT =>
      '(_, s) ← acd_stop s acd;
      acd_call s netif acd ACD_DECLINE
  | ACD_STATE_ANNOUNCING | ACD_STATE_ONGOING => upd_acd s acd (λ x, set_acd_st x ACD_STATE_PASSIVE_ONGOING)
  end.

Definition acd_netif_ip_addr_changed (s : nst) (netif old_addr new_addr : Z) : out nst :=
  if ip4_addr_isany old_addr || ip4_addr_isany new_addr then mret s
  else
    f ← get_netif s netif;
    acd_foreach (acd_fuel s) s (nf_acd_list f) (λ s acd,
      x ← get_acd s acd;
      if acd_ipaddr x =? old_addr then
        if ip4_addr_islinklocal old_addr && negb (ip4_addr_islinklocal new_addr)
        then acd_put_in_passive_mode s netif acd else mret s
      else mret s).

(** ** Running on a well-formed state *)

(** The lists of interfaces and structs are linked as before, and memory is still there. *)
Record same_links (s s' : nst) : Prop := SameLinks {
  sl_next : acd_next <$> acds s' = acd_next <$> acds s;
  sl_acd_list : nf_acd_list <$> netifs s' = nf_acd_list <$> netifs s;
  sl_nf_next : nf_next <$> netifs s' = nf_next <$> netifs s;
  sl_head : netif_list s' = netif_list s;
  sl_data x : is_Some (data (pb s) !! x) → is_Some (data (pb s') !! x) }.

Lemma same_links_refl s : same_links s s.
Proof. done. Qed.

Lemma same_links_trans s1 s2 s3 : same_links s1 s2 → same_links s2 s3 → same_links s1 s3.
Proof. intros [A1 A2 A3 A4 A5] [B1 B2 B3 B4 B5]. split; try congruence. auto. Qed.

Lemma quiet_links live s s' : quiet live s s' → same_links s s'.
Proof. intros [? ? ? Hn ? ? ? Ha ? ?]. split; rewrite ?Hn, ?Ha; done. Qed.

Lemma fmap_is_Some {A} (f : A → Z) (m m' : gmap Z A) x : f <$> m' = f <$> m → is_Some (m !! x) → is_Some (m' !! x).
Proof.
  intros Heq [v Hv]. assert ((f <$> m') !! x = Some (f v)) as H by (rewrite Heq, lookup_fmap, Hv; done).
  rewrite lookup_fmap in H. destruct (m' !! x); [eauto|done].
Qed.

Lemma links_acd s s' a : same_links s s' → is_Some (acds s !! a) → is_Some (acds s' !! a).
Proof. intros Hl. by apply (fmap_is_Some _ _ _ _ (sl_next _ _ Hl)). Qed.

Lemma links_netif s s' n : same_links s s' → is_Some (netifs s !! n) → is_Some (netifs s' !! n).
Proof. intros Hl. by apply (fmap_is_Some _ _ _ _ (sl_acd_list _ _ Hl)). Qed.

(** A computation that returns a well-formed state, with the same references held. *)
Definition safe (own : Z → Z) (s : nst) (m : out nst) : Prop :=
  ∃ s' live', m = Clean s' ∧ ninv s' live' own ∧ same_links s s'.

Lemma safe_ret own s live : ninv s live own → safe own s (mret s).
Proof. intros Hi. exists s, live. split_and!; [done..|apply same_links_refl]. Qed.

Lemma safe_bind own s m k : safe own s m →
  (∀ s' live', ninv s' live' own → same_links s s' → safe own s' (k s')) → safe own s (m ≫= k).
Proof.
  intros (s1 & live1 & -> & Hi & Hl) Hk. rewrite bind_clean.
  destruct (Hk s1 live1 Hi Hl) as (s2 & live2 & H & Hi2 & Hl2). exists s2, live2.
  split_and!; [done..|]. by eapply same_links_trans.
Qed.

(** Struct [a] is on the list of interface [n]. *)
Definition on_list (s : nst) (n a : Z) : Prop :=
  ∃ f l, netifs s !! n = Some f ∧ nchain acd_next (acds s) (nf_acd_list f) l ∧ a ∈ l.

Lemma on_list_netif s n a : on_list s n a → is_Some (netifs s !! n).
Proof. intros (f & l & Hf & _). eauto. Qed.

Lemma on_list_acd s n a : on_list s n a → is_Some (acds s !! a).
Proof. intros (f & l & _ & Hl & Ha). by destruct (nchain_elem _ _ _ _ _ Hl Ha). Qed.

Lemma links_on_list s s' n a : same_links s s' → on_list s n a → on_list s' n a.
Proof.
  intros Hl (f & l & Hf & Hc & Ha). pose proof (f_equal (.!! n) (sl_acd_list _ _ Hl)) as Hn. cbn in Hn.
  rewrite !lookup_fmap, Hf in Hn. destruct (netifs s' !! n) as [f'|] eqn:Hf'; [|done]. injection Hn as Hn.
  exists f', l. split_and!; [done| |done]. rewrite Hn. apply (nchain_links _ (acds s)); [done|apply Hl].
Qed.

(** What the conflict callback of a struct on the list of an interface must do, when it is called for
    that interface: return, keep the state well formed and leave the lists linked as they are. *)
Class AcdClients := acd_client_ok s live own n a x st : ninv s live own → on_list s n a → acds s !! a = Some x →
  safe own s (conflict_callback (acd_conflict_callback x) s n st).

Lemma upd_acd_eq s a f x : acds s !! a = Some x → upd_acd s a f = Clean (put_acd s a (f x)).
Proof. intros Hx. unfold upd_acd, get_acd. rewrite Hx. by out_simp. Qed.

Lemma put_again (s : nst) a x y : put_acd (put_acd s a x) a y = put_acd s a y.
Proof. unfold put_acd, set_acds. cbn. by rewrite insert_insert_eq. Qed.

Lemma put_same (s : nst) a x : acds s !! a = Some x → put_acd s a x = s.
Proof. intros Hx. unfold put_acd, set_acds. rewrite insert_id by done. by destruct s. Qed.

Lemma upd_put (s : nst) a x f : upd_acd (put_acd s a x) a f = Clean (put_acd s a (f x)).
Proof. rewrite (upd_acd_eq _ _ _ x); [by rewrite put_again|]. apply lookup_insert_eq. Qed.

Lemma get_put (s : nst) a x : get_acd (put_acd s a x) a = Clean x.
Proof. unfold get_acd. cbn [acds put_acd set_acds]. by rewrite lookup_insert_eq. Qed.

Lemma put_acd_ok s live own a x y : ninv s live own → acds s !! a = Some x → acd_next y = acd_next x → acd_ok y →
  ninv (put_acd s a y) live own ∧ same_links s (put_acd s a y).
Proof.
  intros [H1 H2 H3 [L1 L2 L5 L3 L4] H5 H6 H7 H8 H9] Hx Hn Hy.
  assert (acd_next <$> acds (put_acd s a y) = acd_next <$> acds s) as Heq.
  { cbn [acds put_acd set_acds]. rewrite fmap_insert, Hn. apply insert_id. by rewrite lookup_fmap, Hx. }
  split; [|by split]. split; try done; [split; try done|].
  - intros n f Hf. destruct (L3 n f Hf) as [l Hl]. exists l. by apply (nchain_links _ (acds s)).
  - cbn [acds put_acd set_acds]. intros b z [[<- <-]|[Hne Hz]]%lookup_insert_Some; [done|by eapply L4].
  - apply (clients_acds _ _ _ _ H9). intros b. by apply (fmap_is_Some _ _ _ _ Heq).
Qed.

Lemma upd_acd_safe s live own a f : ninv s live own → is_Some (acds s !! a) →
  (∀ x, acd_next (f x) = acd_next x) → (∀ x, acd_ok x → acd_ok (f x)) → safe own s (upd_acd s a f).
Proof.
  intros Hi [x Hx] Hf Ht. rewrite (upd_acd_eq _ _ _ _ Hx).
  destruct (put_acd_ok _ _ _ _ _ (f x) Hi Hx (Hf x)) as [? ?]; [|by eexists _, live].
  apply Ht. apply (lo_types _ _ _ _ (ni_links _ _ _ Hi) _ _ Hx).
Qed.

Lemma rng_ok s live own r : ninv s live own → ninv (set_rng s r) live own ∧ same_links s (set_rng s r).
Proof. intros Hi. split; [by apply (ninv_same s)|done]. Qed.

Lemma sent_safe {A} (m : out (A * nst)) live own s r s' : m = Clean (r, s') → ninv s' live own → quiet live s s' →
  safe own s ('(_, s) ← m; mret s).
Proof. intros -> Hi Hq. rewrite bind_clean. exists s', live. split_and!; [done..|by eapply quiet_links]. Qed.

Definition psafe (own : Z → Z) (s : nst) (m : out (Z * nst)) : Prop :=
  ∃ r s' live', m = Clean (r, s') ∧ ninv s' live' own ∧ same_links s s'.

Lemma psafe_bind own s m (k : Z → nst → out nst) : psafe own s m →
  (∀ r s' live', ninv s' live' own → same_links s s' → safe own s' (k r s')) →
  safe own s (m ≫= λ '(r, s'), k r s').
Proof.
  intros (r & s1 & live1 & -> & Hi & Hl) Hk. rewrite bind_clean.
  destruct (Hk r s1 live1 Hi Hl) as (s2 & live2 & H & Hi2 & Hl2). exists s2, live2.
  split_and!; [done..|]. by eapply same_links_trans.
Qed.

Lemma safe_psafe own s m (r : Z) : safe own s m → psafe own s (s ← m; mret (r, s)).
Proof. intros (s' & live' & -> & Hi & Hl). rewrite bind_clean. by eexists r, s', live'. Qed.

Lemma safe_get own s a (k : acd → out nst) : is_Some (acds s !! a) → (∀ x, acds s !! a = Some x → safe own s (k x)) →
  safe own s (get_acd s a ≫= k).
Proof. intros [x Hx] Hk. unfold get_acd. rewrite Hx. out_simp. by apply Hk. Qed.

Lemma safe_get_netif own s n (k : netif → out nst) : is_Some (netifs s !! n) →
  (∀ f, netifs s !! n = Some f → safe own s (k f)) → safe own s (get_netif s n ≫= k).
Proof. intros [x Hx] Hk. unfold get_netif. rewrite Hx. out_simp. by apply Hk. Qed.

Lemma announce_safe s live own n ip : ninv s live own → is_Some (netifs s !! n) → psafe own s (etharp_acd_announce s n ip).
Proof.
  intros Hi [f Hf]. destruct (announce_run s live own n f ip Hi Hf) as (r & s' & H & Hi' & Hq & _).
  exists r, s', live. split_and!; [done..|by eapply quiet_links].
Qed.

Lemma probe_safe s live own n ip : ninv s live own → is_Some (netifs s !! n) → psafe own s (etharp_acd_probe s n ip).
Proof.
  intros Hi [f Hf]. destruct (probe_run s live own n f ip Hi Hf) as (r & s' & H & Hi' & Hq & _).
  exists r, s', live. split_and!; [done..|by eapply quiet_links].
Qed.

(** One step of a function of acd.c on structs and interfaces that exist. *)
Ltac acd_exist := first [eassumption | eapply on_list_acd; eassumption | eapply on_list_netif; eassumption
  | eapply links_on_list; [eassumption|]; acd_exist | eapply links_acd; [eassumption|]; acd_exist | eapply links_netif; [eassumption|]; acd_exist].
Ltac acd_types := intros [] []; split; cbn in *; first [assumption | apply u8_range | apply u16_range | done].
Ltac acd_leaf :=
  first
  [ eapply upd_acd_safe; [eassumption|solve [acd_exist]|by intros []|solve [acd_types]]
  | eapply announce_safe; [eassumption|solve [acd_exist]]
  | eapply probe_safe; [eassumption|solve [acd_exist]]
  | eapply safe_ret; eassumption ].
Ltac acd_step :=
  first
  [ acd_leaf
  | eapply safe_get; [solve [acd_exist]|intros ? ?]
  | eapply safe_get_netif; [solve [acd_exist]|intros ? ?]
  | eapply safe_bind; [|intros ? ? ? ?]
  | eapply psafe_bind; [|intros ? ? ? ? ?] ].

Lemma acd_stop_safe s live own a : ninv s live own → is_Some (acds s !! a) → psafe own s (acd_stop s a).
Proof.
  intros Hi Ha. unfold acd_stop. destruct (negb (a =? NULL)).
  - apply safe_psafe. acd_leaf.
  - exists ERR_OK, s, live. split_and!; [done..|apply same_links_refl].
Qed.

Lemma acd_start_ok s live own n a x ip : ninv s live own → acds s !! a = Some x → is_u32 ip →
  ∃ w r, let s' := put_acd (set_rng s r) a (Acd (acd_next x) ip ACD_STATE_PROBE_WAIT 0 w 0 (acd_num_conflicts x) (acd_conflict_callback x)) in
  0 ≤ w ≤ 9 ∧ acd_start s n a ip = Clean (ERR_OK, s') ∧ ninv s' live own.
Proof.
  intros Hi Hx Hip. unfold acd_start. rewrite (upd_acd_eq _ _ _ x) by done. rewrite bind_clean. do 3 rewrite upd_put, bind_clean.
  unfold ACD_RANDOM_PROBE_WAIT, LWIP_RAND. cbn [rng put_acd set_acds]. destruct (rand (rng s)) as [v r]. cbv zeta iota beta.
  change (set_rng (put_acd s a ?y) r) with (put_acd (set_rng s r) a y). rewrite upd_put, bind_clean.
  change (PROBE_WAIT * ACD_TICKS_PER_SECOND) with 10. pose proof (Z.mod_pos_bound (u32 v) 10 ltac:(lia)) as Hw.
  eexists _, r. split; [|split; [done|]].
  - rewrite u16_id; [lia|]. unfold is_u16. lia.
  - destruct (rng_ok s live own r Hi) as [Hi1 Hl1]. apply (put_acd_ok (set_rng s r) live own a x); try done.
    destruct (lo_types _ _ _ _ (ni_links _ _ _ Hi) _ _ Hx). split; cbn; try done. apply u16_range.
Qed.

Lemma acd_start_safe s live own n a ip : ninv s live own → is_Some (acds s !! a) → is_u32 ip → psafe own s (acd_start s n a ip).
Proof.
  intros Hi [x Hx] Hip. destruct (acd_start_ok s live own n a x ip Hi Hx Hip) as (w & r & _ & Hs & Hi'). eexists ERR_OK, _, live. split; [exact Hs|].
  split; [done|]. split; try done. cbn [acds put_acd set_acds set_rng]. rewrite fmap_insert. apply insert_id. by rewrite lookup_fmap, Hx.
Qed.

Context {HC : AcdClients}.

Lemma acd_call_safe s live own n a st : ninv s live own → on_list s n a → safe own s (acd_call s n a st).
Proof. intros Hi Hn. unfold acd_call. eapply safe_get; [by eapply on_list_acd|]. intros x Hx. by eapply HC. Qed.

Ltac acd_auto := repeat first
  [ eapply acd_stop_safe; [eassumption|solve [acd_exist]]
  | eapply acd_call_safe; [eassumption|solve [acd_exist]]
  | acd_step
  | case_match ].

Lemma acd_restart_safe s live own n a : ninv s live own → on_list s n a →
  safe own s (acd_restart s n a).
Proof. intros Hi Ha. unfold acd_restart. acd_auto. Qed.

Lemma acd_conflict_safe s live own n a : ninv s live own → on_list s n a →
  safe own s (acd_handle_arp_conflict s n a).
Proof. intros Hi Ha. unfold acd_handle_arp_conflict. acd_auto. Qed.

Lemma rng_safe own s live r m : ninv s live own → (∀ s', ninv s' live own → same_links s s' → safe own s' m) →
  safe own (set_rng s r) m.
Proof. intros Hi Hm. destruct (rng_ok _ _ _ r Hi). by apply Hm. Qed.

Lemma probe_interval_safe s live own a : ninv s live own → is_Some (acds s !! a) →
  safe own s (let '(w, s) := ACD_RANDOM_PROBE_INTERVAL s in upd_acd s a (λ x, set_acd_ttw x (u16 w))).
Proof.
  intros Hi Ha. unfold ACD_RANDOM_PROBE_INTERVAL, LWIP_RAND. destruct (rand (rng s)) as [v r]. cbv zeta iota beta.
  destruct (rng_ok _ _ _ r Hi) as [Hi1 Hl1].
  destruct (upd_acd_safe (set_rng s r) live own a (λ x, set_acd_ttw x (u16 (u32 v mod ((PROBE_MAX - PROBE_MIN) * ACD_TICKS_PER_SECOND)
    + PROBE_MIN * ACD_TICKS_PER_SECOND))) Hi1 Ha) as (s' & live' & H1 & H2 & H3); [by intros []|acd_types|].
  exists s', live'. split_and!; [done..|by eapply same_links_trans].
Qed.

Lemma acd_tmr_probe_safe s live own n a : ninv s live own → on_list s n a →
  safe own s (acd_tmr_probe s n a).
Proof.
  intros Hi Ha. unfold acd_tmr_probe. do 5 acd_step. case_match; [acd_auto|].
  eapply probe_interval_safe; [eassumption|acd_exist].
Qed.

Lemma acd_tmr_announce_safe s live own n a : ninv s live own → on_list s n a →
  safe own s (acd_tmr_announce s n a).
Proof. intros Hi Ha. unfold acd_tmr_announce. acd_auto. Qed.

Lemma acd_tmr_one_safe n s live own a : ninv s live own → on_list s n a →
  safe own s (acd_tmr_one n s a).
Proof.
  intros Hi Ha. unfold acd_tmr_one. acd_step.
  { eapply upd_acd_safe; [eassumption|acd_exist|..]; intros x; [by destruct (0 <? acd_lastconflict x)|].
    destruct (Z.ltb_spec 0 (acd_lastconflict x)); [|done]. intros []. split; cbn; try done. unfold is_u8 in *. lia. }
  acd_step.
  { eapply upd_acd_safe; [eassumption|acd_exist|..]; intros x; [by destruct (0 <? acd_ttw x)|].
    destruct (Z.ltb_spec 0 (acd_ttw x)); [|done]. intros []. split; cbn; try done. unfold is_u16 in *. lia. }
  acd_step. case_match; try (by eapply safe_ret); case_match; try (by eapply safe_ret).
  - eapply acd_tmr_probe_safe; [eassumption|acd_exist..].
  - eapply acd_tmr_probe_safe; [eassumption|acd_exist..].
  - eapply acd_tmr_announce_safe; [eassumption|acd_exist..].
  - eapply acd_tmr_announce_safe; [eassumption|acd_exist..].
  - acd_auto.
Qed.

(** ** The loops *)

Lemma acd_foreach_safe own n (P : nst → Prop) body l : ∀ fuel s live a,
  (∀ s live a, ninv s live own → P s → on_list s n a → safe own s (body s a)) →
  (∀ s s', P s → same_links s s' → P s') → ninv s live own → P s → nchain acd_next (acds s) a l →
  (∀ b, b ∈ l → on_list s n b) → (length l ≤ fuel)%nat → safe own s (acd_foreach fuel s a body).
Proof.
  induction l as [|a' l IH]; intros fuel s live a Hb HP Hi Hs Hc Hon Hf; inversion Hc; subst.
  - destruct fuel; by eapply safe_ret.
  - destruct fuel as [|fuel]; cbn in Hf; [lia|]. cbn [acd_foreach]. rewrite (proj2 (Z.eqb_neq a' NULL)) by done.
    eapply safe_bind; [eapply Hb; [done..|]; apply Hon; left|]. intros s' live' Hi' Hl'.
    eapply safe_get; [eapply links_acd; [done|eauto]|]. intros y Hy.
    eapply (IH fuel s' live'); [done|done|done|by eapply HP| |intros b Hb'; eapply links_on_list; [done|]; apply Hon; by right|lia].
    apply (nchain_links _ (acds s)); [|apply Hl'].
    assert (acd_next y = acd_next x) as ->; [|done].
    pose proof (f_equal (λ m, m !! a') (sl_next _ _ Hl')) as Hn. cbn in Hn.
    rewrite !lookup_fmap, Hy in Hn. match goal with H : acds s !! a' = _ |- _ => rewrite H in Hn end. by injection Hn.
Qed.

Lemma netif_foreach_safe own body l : ∀ fuel s live n,
  (∀ s live n, ninv s live own → is_Some (netifs s !! n) → safe own s (body s n)) →
  ninv s live own → nchain nf_next (netifs s) n l → (length l ≤ fuel)%nat → safe own s (netif_foreach fuel s n body).
Proof.
  induction l as [|n' l IH]; intros fuel s live n Hb Hi Hc Hf; inversion Hc; subst.
  - destruct fuel; by eapply safe_ret.
  - destruct fuel as [|fuel]; cbn in Hf; [lia|]. cbn [netif_foreach]. rewrite (proj2 (Z.eqb_neq n' NULL)) by done.
    eapply safe_bind; [by eapply Hb; [..|eauto]|]. intros s' live' Hi' Hl'.
    eapply safe_get_netif; [eapply links_netif; [done|eauto]|]. intros y Hy.
    eapply (IH fuel s' live'); [done|done| |lia].
    apply (nchain_links _ (netifs s)); [|apply Hl'].
    assert (nf_next y = nf_next x) as ->; [|done].
    pose proof (f_equal (λ m, m !! n') (sl_nf_next _ _ Hl')) as Hn. cbn in Hn.
    rewrite !lookup_fmap, Hy in Hn. match goal with H : netifs s !! n' = _ |- _ => rewrite H in Hn end. by injection Hn.
Qed.

(** Running a body on all structs of an interface. *)
Lemma acd_list_safe own (P : nst → Prop) body s live n f : ninv s live own → netifs s !! n = Some f →
  (∀ s live a, ninv s live own → P s → on_list s n a → safe own s (body s a)) →
  (∀ s s', P s → same_links s s' → P s') → P s →
  safe own s (acd_foreach (acd_fuel s) s (nf_acd_list f) body).
Proof.
  intros Hi Hf Hb HP Hs. destruct (lo_acds _ _ _ _ (ni_links _ _ _ Hi) _ _ Hf) as [l Hl].
  eapply (acd_foreach_safe own n P); [done|done|done|done|done|by intros b Hb'; exists f, l|]. apply nchain_length in Hl. unfold acd_fuel. lia.
Qed.

Lemma acd_tmr_safe s live own : ninv s live own → safe own s (acd_tmr s).
Proof.
  intros Hi. destruct (lo_list _ _ _ _ (ni_links _ _ _ Hi)) as [l Hl]. unfold acd_tmr.
  eapply netif_foreach_safe; [|done|done|apply nchain_length in Hl; lia].
  clear Hi Hl l s live. intros s live n Hi Hn. eapply safe_get_netif; [done|]. intros f Hf.
  eapply (acd_list_safe own (λ s, is_Some (netifs s !! n))); [done|done|..|done].
  - intros s1 live1 a Hi1 Hn1 Ha. by eapply acd_tmr_one_safe.
  - intros s1 s2 Hn1 Hl. by eapply links_netif.
Qed.

(** The state an ARP packet at [hdr] is looked at in. *)
Definition arp_in (n hdr : Z) (s : nst) : Prop := is_Some (netifs s !! n) ∧ mapped (data (pb s)) hdr 28.

Lemma arp_in_links n hdr s s' : arp_in n hdr s → same_links s s' → arp_in n hdr s'.
Proof. intros [H1 H2] Hl. split; [by eapply links_netif|]. intros x Hx. apply (sl_data _ _ Hl). by apply H2. Qed.

Lemma acd_reply_one_safe n hdr sip dip mac s live own a : ninv s live own → arp_in n hdr s → on_list s n a →
  safe own s (acd_arp_reply_one n hdr sip dip mac s a).
Proof.
  intros Hi [Hn Hm] Ha. unfold acd_arp_reply_one. eapply safe_get; [by eapply on_list_acd|]. intros x Hx.
  destruct (load_run 6 (data (pb s)) (hdr + 8)) as (h & Hh & _); [intros y Hy; apply Hm; lia|].
  change (rd s (hdr + 8) ETH_HWADDR_LEN) with (load (data (pb s)) (hdr + 8) 6). rewrite Hh, !bind_clean.
  pose proof (acd_restart_safe s live own n a Hi Ha). pose proof (acd_conflict_safe s live own n a Hi Ha).
  pose proof (safe_ret own s live Hi).
  destruct (acd_st x), (sip =? acd_ipaddr x), (ip4_addr_isany sip && (dip =? acd_ipaddr x)),
    (negb (bool_decide (mac = h))); done.
Qed.

Lemma rd32_run s live own a : ninv s live own → mapped (data (pb s)) a 4 → ∃ v, rd32 s a = Clean v ∧ is_u32 v.
Proof.
  intros Hi Hm. destruct (load_run 4 (data (pb s)) a Hm) as (l & Hl & Hs). exists (of_le l). split.
  - unfold rd32, rd. change (Z.to_nat 4) with 4%nat. rewrite Hl. by out_simp.
  - pose proof (load_bytes _ _ _ _ (mo_bytes _ (ni_mem _ _ _ Hi)) Hl) as Hb.
    apply (f_equal length) in Hs. rewrite length_fmap, seg_length in Hs.
    pose proof (of_le_range l 4 Hb Hs) as Hr. unfold is_u32. cbn in Hr. lia.
Qed.

Lemma acd_arp_reply_safe n hdr s live own : ninv s live own → arp_in n hdr s → safe own s (acd_arp_reply s n hdr).
Proof.
  intros Hi Hin. pose proof Hin as [Hn Hm]. unfold acd_arp_reply. eapply safe_get_netif; [done|]. intros f Hf.
  destruct (rd32_run s live own (hdr + 14) Hi) as (sip & -> & _); [intros x Hx; apply Hm; lia|].
  destruct (rd32_run s live own (hdr + 24) Hi) as (dip & -> & _); [intros x Hx; apply Hm; lia|]. rewrite !bind_clean.
  eapply (acd_list_safe own (arp_in n hdr)); [done|done|..|done].
  - intros s1 live1 a Hi1 Hin1 Ha. by eapply acd_reply_one_safe.
  - intros s1 s2. apply arp_in_links.
Qed.

Lemma acd_passive_safe s live own n a : ninv s live own → on_list s n a →
  safe own s (acd_put_in_passive_mode s n a).
Proof. intros Hi Ha. unfold acd_put_in_passive_mode. acd_auto. Qed.

Lemma acd_addr_changed_safe s live own n old new : ninv s live own → is_Some (netifs s !! n) →
  safe own s (acd_netif_ip_addr_changed s n old new).
Proof.
  intros Hi Hn. unfold acd_netif_ip_addr_changed. case_match; [by eapply safe_ret|].
  eapply safe_get_netif; [done|]. intros f Hf.
  eapply (acd_list_safe own (λ s, is_Some (netifs s !! n))); [done|done|..|done].
  - intros s1 live1 a Hi1 Hn1 Ha. eapply safe_get; [by eapply on_list_acd|]. intros x Hx.
    case_match; [|by eapply safe_ret]. case_match; [|by eapply safe_ret]. by eapply acd_passive_safe.
  - intros s1 s2 Hn1 Hl. by eapply links_netif.
Qed.

Lemma acd_link_down_safe s live own n : ninv s live own → is_Some (netifs s !! n) →
  safe own s (acd_network_changed_link_down s n).
Proof.
  intros Hi Hn. unfold acd_network_changed_link_down. eapply safe_get_netif; [done|]. intros f Hf.
  eapply (acd_list_safe own (λ _, True)); [done|done|..|done|done].
  intros s1 live1 a Hi1 _ Ha. eapply psafe_bind; [eapply acd_stop_safe; [done|by eapply on_list_acd]|]. intros r s' live' Hi' _. by eapply safe_ret.
Qed.
End Acd.
