(* ===== verification/Autoip.v ===== *)
(** * AutoIP, the client data (src/lwip/src/core/ipv4/autoip.c)

    A client of address conflict detection that gives an interface an address of 169.254/16 (RFC 3927).
    Here are its structs, the addresses it tries, and the questions the IPv4 layer and the DHCP client
    ask; the state machine, which changes the address of the interface, is in [AutoipRun]. *)
From S2P Require Import Prelude Def Stats Iface Ip4Addr Pbuf Pcb Netif Acd.

Definition AUTOIP_NET : Z := 0xA9FE0000.
Definition AUTOIP_RANGE_START : Z := Z.lor AUTOIP_NET 0x0100.
Definition AUTOIP_RANGE_END : Z := Z.lor AUTOIP_NET 0xFEFF.

Definition set_llipaddr (x : autoip) (v : Z) : autoip := Autoip v (ai_state x) (tried_llipaddr x).
Definition set_ai_state (x : autoip) (v : autoip_state_enum) : autoip := Autoip (llipaddr x) v (tried_llipaddr x).
Definition set_tried (x : autoip) (v : Z) : autoip := Autoip (llipaddr x) (ai_state x) v.
Definition autoip_zero : autoip := Autoip 0 AUTOIP_STATE_OFF 0.
Definition acd_zero : acd := Acd NULL 0 ACD_STATE_OFF 0 0 0 0 NULL.

Definition set_nf_autoip (f : netif) (v : Z) : netif :=
  Netif (nf_next f) (nf_ip_addr f) (nf_netmask f) (nf_gw f) (nf_mtu f) (nf_hwaddr f) (nf_hwaddr_len f) (nf_flags f) (nf_num f) (nf_acd_list f)
    (nf_status_callback f) (nf_link_callback f) (nf_dhcp f) v.

(** [LWIP_AUTOIP_CREATE_SEED_ADDR] *)
Definition LWIP_AUTOIP_CREATE_SEED_ADDR (f : netif) : Z :=
  lwip_htonl (u32 (AUTOIP_RANGE_START + Z.lor (nth 4 (nf_hwaddr f) 0) (Z.shiftl (nth 5 (nf_hwaddr f) 0) 8))).

Section Autoip.
Context {M : Type}.
Abbreviation nst := (nst M).

Definition get_autoip (s : nst) (a : Z) : out autoip := or_fault "struct autoip" (autoips (ifst s) !! a).
Definition put_autoip (s : nst) (a : Z) (x : autoip) : nst := set_autoips s (<[a:=x]> (autoips (ifst s))).
Definition upd_autoip (s : nst) (a : Z) (g : autoip → autoip) : out nst := x ← get_autoip s a; mret (put_autoip s a (g x)).
Definition upd_netif (s : nst) (n : Z) (g : netif → netif) : out nst := f ← get_netif s n; mret (put_netif s n (g f)).

(** [netif_autoip_data] *)
Definition netif_autoip_data (s : nst) (netif : Z) : out Z := f ← get_netif s netif; mret (nf_autoip f).

(** [memset(autoip, 0, sizeof(struct autoip))] *)
Definition clear_autoip (s : nst) (a : Z) : nst := set_acds (put_autoip s a autoip_zero) (<[a + AUTOIP_ACD := acd_zero]> (acds s)).

Definition autoip_set_struct (s : nst) (netif autoip : Z) : out nst :=
  _ ← lwip_assert "netif != NULL" (negb (netif =? NULL));
  _ ← lwip_assert "autoip != NULL" (negb (autoip =? NULL));
  a ← netif_autoip_data s netif;
  _ ← lwip_assert "netif already has a struct autoip set" (a =? NULL);
  upd_netif (clear_autoip s autoip) netif (λ f, set_nf_autoip f autoip).

Definition autoip_remove_struct (s : nst) (netif : Z) : out nst :=
  _ ← lwip_assert "netif != NULL" (negb (netif =? NULL));
  a ← netif_autoip_data s netif;
  _ ← lwip_assert "netif has no struct autoip set" (negb (a =? NULL));
  upd_netif s netif (λ f, set_nf_autoip f NULL).

(** The address to try next. *)
Definition autoip_create_addr (s : nst) (netif : Z) : out Z :=
  a ← netif_autoip_data s netif;
  f ← get_netif s netif;
  let addr := lwip_htonl (LWIP_AUTOIP_CREATE_SEED_ADDR f) in
  x ← get_autoip s a;
  let addr := u32 (addr + tried_llipaddr x) in
  let addr := Z.lor AUTOIP_NET (Z.land addr 0xffff) in
  let addr := if addr <? AUTOIP_RANGE_START then u32 (addr + (AUTOIP_RANGE_END - AUTOIP_RANGE_START + 1)) else addr in
  let addr := if AUTOIP_RANGE_END <? addr then u32 (addr - (AUTOIP_RANGE_END - AUTOIP_RANGE_START + 1)) else addr in
  _ ← lwip_assert "AUTOIP address not in range" ((AUTOIP_RANGE_START <=? addr) && (addr <=? AUTOIP_RANGE_END));
  mret (lwip_htonl addr).

(** The answer of [autoip_supplied_address] and [autoip_accept_packet] for the address [addr]. *)
Definition autoip_is_bound (s : nst) (netif addr : Z) : out bool :=
  a ← netif_autoip_data s netif;
  if a =? NULL then mret false
  else x ← get_autoip s a; mret ((addr =? llipaddr x) && bool_decide (ai_state x = AUTOIP_STATE_BOUND)).

Definition autoip_supplied_address (s : nst) (netif : Z) : out bool :=
  f ← get_netif s netif; autoip_is_bound s netif (nf_ip_addr f).

Definition autoip_accept_packet (s : nst) (netif addr : Z) : out bool := autoip_is_bound s netif addr.
End Autoip.
