(* ===== verification/Etharp.v ===== *)
(** * The ARP cache (src/lwip/src/core/ipv4/etharp.c)

    A table of [ARP_TABLE_SIZE] entries maps IPv4 addresses to Ethernet addresses.  An entry
    is empty, pending (a request has been sent, one packet may wait for the answer)
    or stable; [etharp_tmr] ages the entries once a second.

    Built with [ETHARP_TABLE_MATCH_NETIF], [LWIP_ACD] and [LWIP_AUTOIP], without
    [ARP_QUEUEING], [ETHARP_SUPPORT_STATIC_ENTRIES] and [LWIP_NETIF_HWADDRHINT];
    [LWIP_DEBUG] is defined in this repository's debug.h. *)
From S2P Require Import Prelude Def Stats Iface Ip4Addr Pbuf PbufChain PbufClient PbufData Pcb Netif EthOut Acd.

Definition ARP_MAXAGE : Z := 300.
Definition ARP_AGE_REREQUEST_USED_UNICAST : Z := ARP_MAXAGE - 30.
Definition ARP_AGE_REREQUEST_USED_BROADCAST : Z := ARP_MAXAGE - 15.
Definition ARP_MAXPENDING : Z := 5.
Definition ETHARP_FLAG_TRY_HARD : Z := 1.
Definition ETHARP_FLAG_FIND_ONLY : Z := 2.
Definition NETIF_ADDR_IDX_MAX : Z := 0x7F.
Definition LL_IP4_MULTICAST_ADDR_0 : Z := 0x01.
Definition LL_IP4_MULTICAST_ADDR_1 : Z := 0x00.
Definition LL_IP4_MULTICAST_ADDR_2 : Z := 0x5e.

(** [PBUF_NEEDS_COPY(p)] of pbuf.h *)
Definition PBUF_NEEDS_COPY (b : pbuf) : bool :=
  negb (Z.land (type_internal b) PBUF_TYPE_FLAG_DATA_VOLATILE =? 0).

(** The candidates for replacement [etharp_find_entry] remembers, with the ages of the
    oldest ones. *)
Record cand := Cand {
  c_empty : Z;
  c_pending : Z; c_age_pending : Z;
  c_stable : Z; c_age_stable : Z;
  c_queue : Z; c_age_queue : Z }.

Definition cand0 : cand := Cand ARP_TABLE_SIZE ARP_TABLE_SIZE 0 ARP_TABLE_SIZE 0 ARP_TABLE_SIZE 0.

(** What the search remembers of the entry at [i] that is in use and does not match. *)
Definition cand_used (i : Z) (e : etharp_entry) (c : cand) : cand :=
  if decide (ae_state e = ETHARP_STATE_PENDING) then
    if negb (ae_q e =? NULL) then
      if c_age_queue c <=? ae_ctime e
      then Cand (c_empty c) (c_pending c) (c_age_pending c) (c_stable c) (c_age_stable c) i (ae_ctime e)
      else c
    else
      if c_age_pending c <=? ae_ctime e
      then Cand (c_empty c) i (ae_ctime e) (c_stable c) (c_age_stable c) (c_queue c) (c_age_queue c)
      else c
  else if est ETHARP_STATE_STABLE <=? est (ae_state e) then
    if c_age_stable c <=? ae_ctime e
    then Cand (c_empty c) (c_pending c) (c_age_pending c) i (ae_ctime e) (c_queue c) (c_age_queue c)
    else c
  else c.

(** The search loop of [etharp_find_entry] from entry [i] on: the index of the match, or the
    candidates.  [ipaddr] is a pointer that may be NULL. *)
Fixpoint find_scan (T : list etharp_entry) (i : Z) (ipaddr : option Z) (netif : Z) (c : cand) : out (Z + cand) :=
  match T with
  | [] => mret (inr c)
  | e :: T' =>
      let state := ae_state e in
      if (c_empty c =? ARP_TABLE_SIZE) && bool_decide (state = ETHARP_STATE_EMPTY) then
        find_scan T' (i + 1) ipaddr netif
          (Cand i (c_pending c) (c_age_pending c) (c_stable c) (c_age_stable c) (c_queue c) (c_age_queue c))
      else if negb (bool_decide (state = ETHARP_STATE_EMPTY)) then
        _ ← lwip_assert "state == ETHARP_STATE_PENDING || state >= ETHARP_STATE_STABLE"
              (bool_decide (state = ETHARP_STATE_PENDING) || (est ETHARP_STATE_STABLE <=? est state));
        if match ipaddr with Some a => a =? ae_ipaddr e | None => false end
           && ((netif =? NULL) || (netif =? ae_netif e))
        then mret (inl i)
        else find_scan T' (i + 1) ipaddr netif (cand_used i e c)
      else find_scan T' (i + 1) ipaddr netif c
  end.

Section Etharp.
Context {M : Type} `{PM : PbufAlloc M} {E : NetEnv M}.
Abbreviation pst := (@pst M).
Abbreviation nst := (nst M).

(** [arp_table[i].field = v] *)
Definition upd_entry (s : nst) (i : Z) (f : etharp_entry → etharp_entry) : out nst :=
  e ← get_entry s i; mret (set_entry s i (f e)).

Definition etharp_free_entry (s : nst) (i : Z) : out nst :=
  e ← get_entry s i;
  s ← (if negb (ae_q e =? NULL) then
         '(_, s) ← withp s (λ q, pbuf_free env_custom_free q (ae_q e));
         upd_entry s i (λ e, set_ae_q e NULL)
       else mret s);
  s ← upd_entry s i (λ e, set_ae_state e ETHARP_STATE_EMPTY);
  s ← upd_entry s i (λ e, set_ae_ctime e 0);
  s ← upd_entry s i (λ e, set_ae_netif e NULL);
  s ← upd_entry s i (λ e, set_ae_ipaddr e 0);
  upd_entry s i (λ e, set_ae_ethaddr e ethzero).

(** The body of the loop of [etharp_tmr]. *)
Definition etharp_tmr_one (s : nst) (i : Z) : out nst :=
  e ← get_entry s i;
  if decide (ae_state e = ETHARP_STATE_EMPTY) then mret s
  else
    s ← upd_entry s i (λ e, set_ae_ctime e (u16 (ae_ctime e + 1)));
    e ← get_entry s i;
    if (ARP_MAXAGE <=? ae_ctime e)
       || (bool_decide (ae_state e = ETHARP_STATE_PENDING) && (ARP_MAXPENDING <=? ae_ctime e))
    then etharp_free_entry s i
    else match ae_state e with
    | ETHARP_STATE_STABLE_REREQUESTING_1 =>
        upd_entry s i (λ e, set_ae_state e ETHARP_STATE_STABLE_REREQUESTING_2)
    | ETHARP_STATE_STABLE_REREQUESTING_2 =>
        upd_entry s i (λ e, set_ae_state e ETHARP_STATE_STABLE)
    | ETHARP_STATE_PENDING => '(_, s) ← etharp_request s (ae_netif e) (ae_ipaddr e); mret s
    | _ => mret s
    end.

(** [for (i = 0; i < ARP_TABLE_SIZE; ++i)]: [k] iterations are left, from [i] on. *)
Fixpoint table_loop (k : nat) (i : Z) (s : nst) (body : nst → Z → out nst) : out nst :=
  match k with
  | O => mret s
  | S k' => s ← body s i; table_loop k' (i + 1) s body
  end.

Definition etharp_tmr (s : nst) : out nst := table_loop (Z.to_nat ARP_TABLE_SIZE) 0 s etharp_tmr_one.

(** The entry to recycle when none is empty: the index, or -1 when there is none. *)
Definition find_recycle (s : nst) (c : cand) : out Z :=
  if c_stable c <? ARP_TABLE_SIZE then
    e ← get_entry s (c_stable c);
    _ ← lwip_assert "arp_table[i].q == NULL" (ae_q e =? NULL);
    mret (c_stable c)
  else if c_pending c <? ARP_TABLE_SIZE then mret (c_pending c)
  else if c_queue c <? ARP_TABLE_SIZE then mret (c_queue c)
  else mret (-1).

Definition etharp_find_entry (s : nst) (ipaddr : option Z) (flags netif : Z) : out (Z * nst) :=
  r ← find_scan (arp_table s) 0 ipaddr netif cand0;
  match r with
  | inl i => mret (i, s)
  | inr c =>
      if negb (Z.land flags ETHARP_FLAG_FIND_ONLY =? 0)
         || ((c_empty c =? ARP_TABLE_SIZE) && (Z.land flags ETHARP_FLAG_TRY_HARD =? 0))
      then mret (ERR_MEM, s)
      else
        '(i, s) ← (if c_empty c <? ARP_TABLE_SIZE then mret (c_empty c, s)
                   else
                     i ← find_recycle s c;
                     if i <? 0 then mret (i, s)
                     else
                       _ ← lwip_assert "i < ARP_TABLE_SIZE" (i <? ARP_TABLE_SIZE);
                       s ← etharp_free_entry s i;
                       mret (i, s));
        if i <? 0 then mret (ERR_MEM, s)
        else
          _ ← lwip_assert "i < ARP_TABLE_SIZE" (i <? ARP_TABLE_SIZE);
          e ← get_entry s i;
          _ ← lwip_assert "arp_table[i].state == ETHARP_STATE_EMPTY" (bool_decide (ae_state e = ETHARP_STATE_EMPTY));
          s ← match ipaddr with
              | Some a => upd_entry s i (λ e, set_ae_ipaddr e a)
              | None => mret s
              end;
          s ← upd_entry s i (λ e, set_ae_ctime e 0);
          s ← upd_entry s i (λ e, set_ae_netif e netif);
          mret (i, s)
  end.

(** [ip4_addr_isany || ip4_addr_isbroadcast || ip4_addr_ismulticast] *)
Definition non_unicast (f : netif) (ipaddr : Z) : bool :=
  ip4_addr_isany ipaddr || ip4_addr_isbroadcast ipaddr f || ip4_addr_ismulticast ipaddr.

(** Sends the packet that waits on entry [i]. *)
Definition send_queued (s : nst) (netif i : Z) (ethaddr : eth_ptr) : out nst :=
  e ← get_entry s i;
  if negb (ae_q e =? NULL) then
    let p := ae_q e in
    s ← upd_entry s i (λ e, set_ae_q e NULL);
    '(_, s) ← ethernet_output s netif p (EHw netif) ethaddr ETHTYPE_IP;
    '(_, s) ← withp s (λ q, pbuf_free env_custom_free q p);
    mret s
  else mret s.

Definition etharp_update_arp_entry (s : nst) (netif ipaddr : Z) (ethaddr : eth_ptr) (flags : Z) : out (Z * nst) :=
  f ← get_netif s netif;
  _ ← lwip_assert "netif->hwaddr_len == ETH_HWADDR_LEN" (nf_hwaddr_len f =? ETH_HWADDR_LEN);
  if non_unicast f ipaddr then mret (ERR_ARG, s)
  else
    '(i, s) ← etharp_find_entry s (Some ipaddr) flags netif;
    if i <? 0 then mret (i, s)
    else
      s ← upd_entry s i (λ e, set_ae_state e ETHARP_STATE_STABLE);
      s ← upd_entry s i (λ e, set_ae_netif e netif);
      a ← rd_eth s ethaddr;
      s ← upd_entry s i (λ e, set_ae_ethaddr e a);
      s ← upd_entry s i (λ e, set_ae_ctime e 0);
      s ← send_queued s netif i ethaddr;
      mret (ERR_OK, s).

Definition etharp_cleanup_netif (s : nst) (netif : Z) : out nst :=
  table_loop (Z.to_nat ARP_TABLE_SIZE) 0 s (λ s i,
    e ← get_entry s i;
    if negb (bool_decide (ae_state e = ETHARP_STATE_EMPTY)) && (ae_netif e =? netif)
    then etharp_free_entry s i else mret s).

(** The index (or -1); with a non-negative index, the addresses [*eth_ret] and [*ip_ret] are
    those of the entry. *)
Definition etharp_find_addr (s : nst) (netif ipaddr : Z) : out (Z * option (list Z * Z) * nst) :=
  '(i, s) ← etharp_find_entry s (Some ipaddr) ETHARP_FLAG_FIND_ONLY netif;
  if 0 <=? i then
    e ← get_entry s i;
    if est ETHARP_STATE_STABLE <=? est (ae_state e)
    then mret (i, Some (ae_ethaddr e, ae_ipaddr e), s) else mret (-1, None, s)
  else mret (-1, None, s).

(** [None] for the return value 0. *)
Definition etharp_get_entry (s : nst) (i : Z) : out (option (Z * Z * list Z)) :=
  if i <? ARP_TABLE_SIZE then
    e ← get_entry s i;
    if est ETHARP_STATE_STABLE <=? est (ae_state e)
    then mret (Some (ae_ipaddr e, ae_netif e, ae_ethaddr e)) else mret None
  else mret None.

(** ** Input *)

Definition etharp_input (s : nst) (p netif : Z) : out nst :=
  if netif =? NULL then mret s
  else
    b ← get (pb s) p;
    let hdr := payload b in
    hwtype ← rd16 s hdr;
    hwlen ← rd8 s (hdr + 4);
    protolen ← rd8 s (hdr + 5);
    proto ← rd16 s (hdr + 2);
    if negb (hwtype =? lwip_htons LWIP_IANA_HWTYPE_ETHERNET) || negb (hwlen =? ETH_HWADDR_LEN)
       || negb (protolen =? 4) || negb (proto =? lwip_htons ETHTYPE_IP) then
      let s := ETHARP_STATS_INC Drop (ETHARP_STATS_INC Proterr s) in
      '(_, s) ← withp s (λ q, pbuf_free env_custom_free q p);
      mret s
    else
      let s := ETHARP_STATS_INC Recv s in
      s ← acd_arp_reply s netif hdr;
      sipaddr ← rd32 s (hdr + 14);
      dipaddr ← rd32 s (hdr + 24);
      f ← get_netif s netif;
      let '(for_us, from_us) :=
        if ip4_addr_isany (nf_ip_addr f) then (false, false)
        else (dipaddr =? nf_ip_addr f, sipaddr =? nf_ip_addr f) in
      '(_, s) ← etharp_update_arp_entry s netif sipaddr (EMem (hdr + 8))
                  (if for_us then ETHARP_FLAG_TRY_HARD else ETHARP_FLAG_FIND_ONLY);
      opcode ← rd16 s (hdr + 6);
      s ← (if opcode =? lwip_htons ARP_REQUEST then
             if for_us && negb from_us then
               f ← get_netif s netif;
               '(_, s) ← etharp_raw s netif (EHw netif) (EMem (hdr + 8)) (EHw netif) (nf_ip_addr f)
                           (EMem (hdr + 8)) sipaddr ARP_REPLY;
               mret s
             else mret s
           else if opcode =? lwip_htons ARP_REPLY then mret s
           else mret (ETHARP_STATS_INC Err s));
      '(_, s) ← withp s (λ q, pbuf_free env_custom_free q p);
      mret s.

(** ** Output *)

Definition etharp_output_to_arp_index (s : nst) (netif q arp_idx : Z) : out (Z * nst) :=
  e ← get_entry s arp_idx;
  _ ← lwip_assert "arp_table[arp_idx].state >= ETHARP_STATE_STABLE" (est ETHARP_STATE_STABLE <=? est (ae_state e));
  s ← (if decide (ae_state e = ETHARP_STATE_STABLE) then
         if ARP_AGE_REREQUEST_USED_BROADCAST <=? ae_ctime e then
           '(r, s) ← etharp_request s netif (ae_ipaddr e);
           if r =? ERR_OK then upd_entry s arp_idx (λ e, set_ae_state e ETHARP_STATE_STABLE_REREQUESTING_1)
           else mret s
         else if ARP_AGE_REREQUEST_USED_UNICAST <=? ae_ctime e then
           '(r, s) ← etharp_request_dst s netif (ae_ipaddr e) (ETab arp_idx);
           if r =? ERR_OK then upd_entry s arp_idx (λ e, set_ae_state e ETHARP_STATE_STABLE_REREQUESTING_1)
           else mret s
         else mret s
       else mret s);
  ethernet_output s netif q (EHw netif) (ETab arp_idx) ETHTYPE_IP.

(** The while loop of [etharp_query]: is there a pbuf that must be copied? *)
Fixpoint copy_needed_loop (fuel : nat) (s : pst) (p : Z) : out bool :=
  if p =? NULL then mret false
  else match fuel with
  | O => NoFuel
  | S fuel' =>
      b ← get s p;
      _ ← lwip_assert "no packet queues allowed!" (negb (len b =? tot_len b) || (next b =? NULL));
      if PBUF_NEEDS_COPY b then mret true else copy_needed_loop fuel' s (next b)
  end.

(** Keeps packet [q] on the pending entry [i]. *)
Definition query_queue (s : nst) (i q : Z) : out (Z * nst) :=
  copy_needed ← copy_needed_loop (chain_fuel (pb s)) (pb s) q;
  '(p, s) ← (if (copy_needed : bool) then withp s (λ x, pbuf_clone env_custom_free x PBUF_LINK PBUF_RAM q)
             else x ← pbuf_ref (pb s) q; mret (q, set_pb s x));
  if negb (p =? NULL) then
    e ← get_entry s i;
    s ← (if negb (ae_q e =? NULL)
         then '(_, s) ← withp s (λ x, pbuf_free env_custom_free x (ae_q e)); mret s else mret s);
    s ← upd_entry s i (λ e, set_ae_q e p);
    mret (ERR_OK, s)
  else mret (ERR_MEM, ETHARP_STATS_INC Memerr s).

Definition etharp_query (s : nst) (netif ipaddr q : Z) : out (Z * nst) :=
  f ← get_netif s netif;
  if non_unicast f ipaddr then mret (ERR_ARG, s)
  else
    '(i_err, s) ← etharp_find_entry s (Some ipaddr) ETHARP_FLAG_TRY_HARD netif;
    if i_err <? 0 then mret (i_err, if negb (q =? NULL) then ETHARP_STATS_INC Memerr s else s)
    else
      _ ← lwip_assert "type overflow" (i_err <? NETIF_ADDR_IDX_MAX);
      let i := u8 i_err in
      e ← get_entry s i;
      '(is_new_entry, s) ←
        (if decide (ae_state e = ETHARP_STATE_EMPTY) then
           s ← upd_entry s i (λ e, set_ae_state e ETHARP_STATE_PENDING);
           s ← upd_entry s i (λ e, set_ae_netif e netif);
           mret (true, s)
         else mret (false, s));
      e ← get_entry s i;
      _ ← lwip_assert "arp_table[i].state == PENDING or STABLE"
            (bool_decide (ae_state e = ETHARP_STATE_PENDING) || (est ETHARP_STATE_STABLE <=? est (ae_state e)));
      '(result, s) ←
        (if (is_new_entry : bool) || (q =? NULL) then
           '(result, s) ← etharp_request s netif ipaddr;
           if negb (result =? ERR_OK) then mret (result, s)
           else
             e ← get_entry s i;
             if bool_decide (ae_state e = ETHARP_STATE_PENDING) && negb is_new_entry
             then s ← upd_entry s i (λ e, set_ae_ctime e 0); mret (result, s)
             else mret (result, s)
         else mret (ERR_MEM, s));
      if q =? NULL then mret (result, s)
      else
        e ← get_entry s i;
        if est ETHARP_STATE_STABLE <=? est (ae_state e) then
          ethernet_output (set_cached s i) netif q (EHw netif) (ETab i) ETHTYPE_IP
        else if decide (ae_state e = ETHARP_STATE_PENDING) then query_queue s i q
        else mret (result, s).

(** The loop over the table in [etharp_output]: the first stable entry for the address. *)
Fixpoint find_stable (T : list etharp_entry) (i dst_addr netif : Z) : option Z :=
  match T with
  | [] => None
  | e :: T' =>
      if (est ETHARP_STATE_STABLE <=? est (ae_state e)) && (ae_netif e =? netif) && (dst_addr =? ae_ipaddr e)
      then Some i else find_stable T' (i + 1) dst_addr netif
  end.

(** The address to resolve for a unicast destination: itself or the gateway; [None] when the
    destination is not on the local network and there is no gateway. *)
Definition etharp_next_hop (s : nst) (f : netif) (q ipaddr : Z) : out (option Z) :=
  if negb (ip4_addr_net_eq ipaddr (nf_ip_addr f) (nf_netmask f)) && negb (ip4_addr_islinklocal ipaddr) then
    b ← get (pb s) q;
    src ← rd32 s (payload b + 12);
    if negb (ip4_addr_islinklocal src) then
      if negb (ip4_addr_isany (nf_gw f)) then mret (Some (nf_gw f)) else mret None
    else mret (Some ipaddr)
  else mret (Some ipaddr).

(** [mcastaddr] for an IPv4 multicast address. *)
Definition multicast_addr (ipaddr : Z) : list Z :=
  [LL_IP4_MULTICAST_ADDR_0; LL_IP4_MULTICAST_ADDR_1; LL_IP4_MULTICAST_ADDR_2;
   Z.land (ip4_addr_get_byte ipaddr 1) 0x7f; ip4_addr_get_byte ipaddr 2; ip4_addr_get_byte ipaddr 3].

Definition etharp_output (s : nst) (netif q ipaddr : Z) : out (Z * nst) :=
  _ ← lwip_assert "netif != NULL" (negb (netif =? NULL));
  _ ← lwip_assert "q != NULL" (negb (q =? NULL));
  f ← get_netif s netif;
  if ip4_addr_isbroadcast ipaddr f then ethernet_output s netif q (EHw netif) (EVal ethbroadcast) ETHTYPE_IP
  else if ip4_addr_ismulticast ipaddr then
    ethernet_output s netif q (EHw netif) (EVal (multicast_addr ipaddr)) ETHTYPE_IP
  else
    hop ← etharp_next_hop s f q ipaddr;
    match hop with
    | None => mret (ERR_RTE, s)
    | Some dst_addr =>
        e ← get_entry s (etharp_cached_entry s);
        if (est ETHARP_STATE_STABLE <=? est (ae_state e)) && (ae_netif e =? netif) && (dst_addr =? ae_ipaddr e) then
          let s := ETHARP_STATS_INC Cachehit s in
          etharp_output_to_arp_index s netif q (etharp_cached_entry s)
        else match find_stable (arp_table s) 0 dst_addr netif with
        | Some i => etharp_output_to_arp_index (set_cached s i) netif q i
        | None => etharp_query s netif dst_addr q
        end
    end.
End Etharp.
