(* ===== verification/EtharpInv.v ===== *)
(** * The ARP cache keeps its invariant

    What each function of etharp.c does to a well-formed state ([NetInv.ninv]): it returns, no
    assertion fails, and the state is well formed again. *)
From S2P Require Import Prelude Def Stats Iface Ip4Addr Pbuf PbufChain PbufClient PbufData Pcb Netif NetInv EthOut Acd Etharp.

(** ** The search *)

(** [c] is the index of the oldest entry of [T] with property [P], and [age] its age; there
    is none when [c] is [ARP_TABLE_SIZE]. *)
Definition oldest (P : etharp_entry → Prop) (T : list etharp_entry) (c age : Z) : Prop :=
  (c = ARP_TABLE_SIZE ∧ age = 0 ∧ ∀ j e, T !! j = Some e → ¬ P e) ∨
  (∃ i e, c = Z.of_nat i ∧ T !! i = Some e ∧ P e ∧ age = ae_ctime e ∧
     ∀ j e', T !! j = Some e' → P e' → ae_ctime e' ≤ age).

(** The three classes of entries that can be recycled. *)
Definition is_stable (e : etharp_entry) : Prop := est ETHARP_STATE_STABLE ≤ est (ae_state e).
Definition is_idle (e : etharp_entry) : Prop := ae_state e = ETHARP_STATE_PENDING ∧ ae_q e = NULL.
Definition is_waiting (e : etharp_entry) : Prop := ae_state e = ETHARP_STATE_PENDING ∧ ae_q e ≠ NULL.

Definition first_empty (T : list etharp_entry) (c : Z) : Prop :=
  (c = ARP_TABLE_SIZE ∧ ∀ j e, T !! j = Some e → ae_state e ≠ ETHARP_STATE_EMPTY) ∨
  (∃ i e, c = Z.of_nat i ∧ T !! i = Some e ∧ ae_state e = ETHARP_STATE_EMPTY ∧
     ∀ j e', (j < i)%nat → T !! j = Some e' → ae_state e' ≠ ETHARP_STATE_EMPTY).

Record cand_spec (T : list etharp_entry) (c : cand) : Prop := CandSpec {
  cs_empty : first_empty T (c_empty c);
  cs_stable : oldest is_stable T (c_stable c) (c_age_stable c);
  cs_pending : oldest is_idle T (c_pending c) (c_age_pending c);
  cs_queue : oldest is_waiting T (c_queue c) (c_age_queue c) }.

(** Does the entry answer a search? *)
Definition matches (ipaddr : option Z) (netif : Z) (e : etharp_entry) : Prop :=
  ae_state e ≠ ETHARP_STATE_EMPTY ∧ ipaddr = Some (ae_ipaddr e) ∧ (netif = NULL ∨ netif = ae_netif e).

#[export] Instance matches_dec ipaddr netif e : Decision (matches ipaddr netif e).
Proof. unfold matches. apply _. Defined.

Lemma lookup_snoc_inv {A} (T : list A) e j x : (T ++ [e]) !! j = Some x →
  T !! j = Some x ∨ (j = length T ∧ x = e).
Proof.
  intros [H|[Hj H]]%lookup_app_Some; [by left|right].
  destruct (j - length T)%nat as [|k] eqn:E; [|by destruct k]. cbn in H. injection H as <-. split; [lia|done].
Qed.

Lemma oldest_skip P T e c age : oldest P T c age → ¬ P e → oldest P (T ++ [e]) c age.
Proof.
  intros [(-> & -> & H)|(i & e0 & -> & Hi & HP & -> & H)] Hn.
  - left. split_and!; [done..|]. intros j x [Hj|[_ ->]]%lookup_snoc_inv; [by eapply H|done].
  - right. exists i, e0. split_and!; try done; [by apply lookup_app_l_Some|].
    intros j x [Hj|[_ ->]]%lookup_snoc_inv Hx; [by eapply H|done].
Qed.

Lemma oldest_take P T e c age i : oldest P T c age → P e → i = Z.of_nat (length T) → age ≤ ae_ctime e →
  oldest P (T ++ [e]) i (ae_ctime e).
Proof.
  intros H HP -> Hage. right. exists (length T), e. split_and!; try done.
  - rewrite lookup_app_r, Nat.sub_diag by done. done.
  - intros j x [Hj|[_ ->]]%lookup_snoc_inv Hx; [|done].
    destruct H as [(_ & _ & H)|(k & e0 & _ & _ & _ & -> & H)]; [by destruct (H j x Hj)|]. specialize (H j x Hj Hx). lia.
Qed.

Lemma oldest_keep P T e c age : oldest P T c age → P e → 0 ≤ ae_ctime e → ¬ age ≤ ae_ctime e →
  oldest P (T ++ [e]) c age.
Proof.
  intros [(-> & -> & H)|(i & e0 & -> & Hi & HP0 & -> & H)] HP Hct Hage; [lia|].
  right. exists i, e0. split_and!; try done; [by apply lookup_app_l_Some|].
  intros j x [Hj|[_ ->]]%lookup_snoc_inv Hx; [by eapply H|lia].
Qed.

Lemma cand_used_spec T e c i : cand_spec T c → ae_state e ≠ ETHARP_STATE_EMPTY → 0 ≤ ae_ctime e →
  i = Z.of_nat (length T) → cand_spec (T ++ [e]) (cand_used i e c).
Proof.
  intros [He Hs Hp Hq] Hne Hct Hi.
  assert (first_empty (T ++ [e]) (c_empty c)) as He'.
  { destruct He as [[-> H]|(k & x & -> & Hk & Hx & H)]; [left|right].
    - split; [done|]. intros j y [Hj|[_ ->]]%lookup_snoc_inv; [by eapply H|done].
    - exists k, x. split_and!; try done; [by apply lookup_app_l_Some|].
      intros j y Hj [Hy|[-> ->]]%lookup_snoc_inv; [by eapply H|done]. }
  unfold cand_used. destruct (decide (ae_state e = ETHARP_STATE_PENDING)) as [Hpend|Hnp].
  - assert (¬ is_stable e) as Hns by (unfold is_stable; rewrite Hpend; cbn; lia).
    destruct (Z.eqb_spec (ae_q e) NULL) as [Hq0|Hq0]; cbn [negb].
    + assert (is_idle e) as Hid by done. assert (¬ is_waiting e) as Hnw by (intros [_ ?]; done).
      destruct (Z.leb_spec (c_age_pending c) (ae_ctime e)); split; cbn; try done;
        try (by apply oldest_skip); [by eapply oldest_take|apply oldest_keep; try done; lia].
    + assert (is_waiting e) as Hw by done. assert (¬ is_idle e) as Hni by (intros [_ ?]; done).
      destruct (Z.leb_spec (c_age_queue c) (ae_ctime e)); split; cbn; try done;
        try (by apply oldest_skip); [by eapply oldest_take|apply oldest_keep; try done; lia].
  - assert (is_stable e) as Hst by (unfold is_stable; destruct (ae_state e); cbn; (done || lia)).
    assert (¬ is_idle e) as Hni by (intros [? _]; done). assert (¬ is_waiting e) as Hnw by (intros [? _]; done).
    rewrite (proj2 (Z.leb_le _ _) Hst).
    destruct (Z.leb_spec (c_age_stable c) (ae_ctime e)); split; cbn; try done;
      try (by apply oldest_skip); [by eapply oldest_take|apply oldest_keep; try done; lia].
Qed.

Lemma cand_empty_spec T e c : cand_spec T c → ae_state e = ETHARP_STATE_EMPTY →
  (c_empty c ≠ ARP_TABLE_SIZE → cand_spec (T ++ [e]) c) ∧
  (c_empty c = ARP_TABLE_SIZE → Z.of_nat (length T) < ARP_TABLE_SIZE →
   cand_spec (T ++ [e]) (Cand (Z.of_nat (length T)) (c_pending c) (c_age_pending c) (c_stable c) (c_age_stable c)
     (c_queue c) (c_age_queue c))).
Proof.
  intros [He Hs Hp Hq] Hemp.
  assert (¬ is_stable e ∧ ¬ is_idle e ∧ ¬ is_waiting e) as (N1 & N2 & N3).
  { unfold is_stable, is_idle, is_waiting. rewrite Hemp. cbn. split_and!; [lia|by intros [? _]..]. }
  split.
  - intros Hc. split; try (by apply oldest_skip). destruct He as [[? _]|(k & x & -> & Hk & Hx & H)]; [done|].
    right. exists k, x. split_and!; try done; [by apply lookup_app_l_Some|].
    intros j y Hj [Hy|[-> ->]]%lookup_snoc_inv; [by eapply H|]. apply lookup_lt_Some in Hk. lia.
  - intros Hc Hlt. split; cbn; try (by apply oldest_skip). right. exists (length T), e. split_and!; try done.
    + rewrite lookup_app_r, Nat.sub_diag by done. done.
    + intros j y Hj [Hy|[-> ->]]%lookup_snoc_inv; [|lia].
      destruct He as [[_ H]|(k & x & E & Hk & _)]; [by eapply H|].
      rewrite Hc in E. apply lookup_lt_Some in Hk. lia.
Qed.

Definition scan_spec (ip : option Z) (n : Z) (T : list etharp_entry) (r : Z + cand) : Prop :=
  match r with
  | inl i => ∃ k e, i = Z.of_nat k ∧ T !! k = Some e ∧ matches ip n e ∧
      ∀ j x, (j < k)%nat → T !! j = Some x → ¬ matches ip n x
  | inr c => cand_spec T c ∧ ∀ j x, T !! j = Some x → ¬ matches ip n x
  end.

Lemma find_scan_spec ip n T : ∀ T0 c, (length T0 + length T = 10)%nat → Forall (λ e, 0 ≤ ae_ctime e) T →
  cand_spec T0 c → (∀ j x, T0 !! j = Some x → ¬ matches ip n x) →
  ∃ r, find_scan T (Z.of_nat (length T0)) ip n c = Clean r ∧ scan_spec ip n (T0 ++ T) r.
Proof.
  induction T as [|e T IH]; intros T0 c Hlen Hct Hc Hno; cbn [find_scan length] in *.
  { exists (inr c). split; [done|]. by rewrite app_nil_r. }
  apply Forall_cons in Hct as [He Hct]. rewrite (cons_middle e T0 T), app_assoc in *.
  assert (Z.of_nat (length T0) + 1 = Z.of_nat (length (T0 ++ [e]))) as Hi by (rewrite length_app; cbn; lia).
  assert (length (T0 ++ [e]) + length T = 10)%nat as Hlen' by (rewrite length_app; cbn; lia).
  destruct (decide (ae_state e = ETHARP_STATE_EMPTY)) as [Hemp|Hne].
  - rewrite (bool_decide_eq_true_2 (ae_state e = _)) by done. destruct (cand_empty_spec T0 e c Hc Hemp) as [H1 H2].
    assert (∀ j x, (T0 ++ [e]) !! j = Some x → ¬ matches ip n x) as Hno'.
    { intros j x [Hj|[_ ->]]%lookup_snoc_inv; [by eapply Hno|]. by intros [? _]. }
    rewrite Hi. destruct (Z.eqb_spec (c_empty c) ARP_TABLE_SIZE) as [E|E]; cbn [andb negb].
    + apply IH; try done. apply H2; [done|]. unfold ARP_TABLE_SIZE. lia.
    + apply IH; try done. by apply H1.
  - rewrite (bool_decide_eq_false_2 (ae_state e = _)) by done. rewrite andb_false_r. cbn [negb].
    replace (bool_decide (ae_state e = ETHARP_STATE_PENDING) || (est ETHARP_STATE_STABLE <=? est (ae_state e)))
      with true by (by destruct (ae_state e)). out_simp.
    assert ((match ip with Some a => a =? ae_ipaddr e | None => false end &&
      ((n =? NULL) || (n =? ae_netif e)))%bool = bool_decide (matches ip n e)) as ->.
    { apply eq_true_iff_eq. rewrite bool_decide_eq_true, andb_true_iff, orb_true_iff, !Z.eqb_eq. unfold matches.
      destruct ip as [a|]; [rewrite Z.eqb_eq|]; split; intros; destruct_and?; split_and?; try done; congruence. }
    case_bool_decide as Hm.
    + exists (inl (Z.of_nat (length T0))). split; [done|]. exists (length T0), e. split_and!; [done| |done|].
      * rewrite <- app_assoc, lookup_app_r, Nat.sub_diag by done. done.
      * intros j x Hj. rewrite <- app_assoc, lookup_app_l by done. by apply Hno.
    + rewrite Hi. apply IH; try done; [by apply cand_used_spec|].
      intros j x [Hj|[_ ->]]%lookup_snoc_inv; [by eapply Hno|done].
Qed.

Section Etharp.
Context {M : Type} `{PM : PbufAlloc M} {E : NetEnv M}.
Abbreviation pst := (@pst M).
Abbreviation nst := (nst M).

Lemma find_scan_run s live own ip n : ninv s live own →
  ∃ r, find_scan (arp_table s) 0 ip n cand0 = Clean r ∧ scan_spec ip n (arp_table s) r.
Proof.
  intros Hi. destruct (ni_table _ _ _ Hi) as [Hlen Hent _].
  apply (find_scan_spec ip n (arp_table s) [] cand0); [done| | |done].
  - apply Forall_forall. intros e [i He]%list_elem_of_lookup_1. apply (en_age _ _ (Hent i e He)).
  - split; left; done.
Qed.

(** ** Entries *)

Lemma get_entry_run (s : nst) i e : arp_table s !! i = Some e → get_entry s (Z.of_nat i) = Clean e.
Proof. intros He. unfold get_entry. rewrite (proj2 (Z.ltb_ge _ _)) by lia. by rewrite Nat2Z.id, He. Qed.

Lemma upd_entry_run (s : nst) i e f : arp_table s !! i = Some e →
  upd_entry s (Z.of_nat i) f = Clean (set_arp_table s (<[i:=f e]> (arp_table s))).
Proof. intros He. unfold upd_entry. rewrite (get_entry_run _ _ _ He). out_simp. unfold set_entry. by rewrite Nat2Z.id. Qed.

(** Two updates of the same entry. *)
Lemma upd_entry_again (s : nst) i e x f : arp_table s !! i = Some e →
  upd_entry (set_arp_table s (<[i:=x]> (arp_table s))) (Z.of_nat i) f =
  Clean (set_arp_table s (<[i:=f x]> (arp_table s))).
Proof.
  intros He. rewrite (upd_entry_run _ i x).
  - cbn [arp_table set_arp_table]. unfold set_arp_table. cbn. by rewrite list_insert_insert_eq.
  - cbn. apply list_lookup_insert_eq. by eapply lookup_lt_Some.
Qed.

(** An entry is replaced by one that holds the same packet. *)
Lemma table_ok_insert N T i e e' : table_ok N T → T !! i = Some e → entry_ok N e' →
  (ae_state e' ≠ ETHARP_STATE_EMPTY → ∀ j x, j ≠ i → T !! j = Some x → ae_state x ≠ ETHARP_STATE_EMPTY →
     ae_ipaddr x = ae_ipaddr e' → ae_netif x ≠ ae_netif e') →
  table_ok N (<[i:=e']> T).
Proof.
  intros [H1 H2 H3] Hi He' Hu. split.
  - by rewrite length_insert.
  - intros j x [(-> & <- & _)|[Hne Hj]]%list_lookup_insert_Some; [done|]. by eapply H2.
  - intros j k x y Hj Hk Hx Hy Hip Hn.
    apply list_lookup_insert_Some in Hj as [(-> & <- & _)|[Hj0 Hj]];
      apply list_lookup_insert_Some in Hk as [(-> & <- & _)|[Hk0 Hk]]; [done|..].
    + by destruct (Hu Hx k y (not_eq_sym Hk0) Hk Hy).
    + by destruct (Hu Hy j x (not_eq_sym Hj0) Hj Hx).
    + by eapply H3.
Qed.

Lemma ninv_entry s live own i e e' : ninv s live own → arp_table s !! i = Some e → ae_q e' = ae_q e →
  entry_ok (netifs s) e' →
  (ae_state e' ≠ ETHARP_STATE_EMPTY → ∀ j x, j ≠ i → arp_table s !! j = Some x → ae_state x ≠ ETHARP_STATE_EMPTY →
     ae_ipaddr x = ae_ipaddr e' → ae_netif x ≠ ae_netif e') →
  ninv (set_arp_table s (<[i:=e']> (arp_table s))) live own.
Proof.
  intros [H1 H2 H3 H4 H5 H6 H7 H8 H9] Hi Hq Hok Hu. split; try done.
  - apply (inv_own_ext _ _ _ _ H1). intros x. cbn [arp_table set_arp_table]. by rewrite (refs_insert_same _ _ e).
  - by apply (table_ok_insert _ _ _ e).
Qed.

(** When the address and interface stay the same, so does uniqueness. *)
Lemma unique_same N T i e e' : table_ok N T → T !! i = Some e → ae_state e ≠ ETHARP_STATE_EMPTY →
  ae_ipaddr e' = ae_ipaddr e → ae_netif e' = ae_netif e →
  ∀ j x, j ≠ i → T !! j = Some x → ae_state x ≠ ETHARP_STATE_EMPTY →
    ae_ipaddr x = ae_ipaddr e' → ae_netif x ≠ ae_netif e'.
Proof.
  intros Ht Hi He Hip Hn j x Hj Hx Hxe Hxip Hxn. apply Hj.
  apply (tb_unique _ _ Ht j i x e); congruence.
Qed.

(** An entry as [etharp_free_entry] leaves it. *)
Definition entry_free : etharp_entry := EtharpEntry NULL 0 NULL ethzero 0 ETHARP_STATE_EMPTY.

Lemma entry_free_ok N : entry_ok N entry_free.
Proof. split; cbn; try done. apply zero_mac. Qed.

(** Only the table changed, and packets may have been freed. *)
Record kept (live live' : gmap Z (asrc * Z)) (s s' : nst) : Prop := Kept {
  kp_netifs : netifs s' = netifs s;
  kp_list : netif_list s' = netif_list s;
  kp_acds : acds s' = acds s;
  kp_cached : etharp_cached_entry s' = etharp_cached_entry s;
  kp_frames : frames s' = frames s;
  kp_stat : stat_etharp s' = stat_etharp s;
  kp_rng : rng s' = rng s;
  kp_data : data (pb s') = data (pb s);
  kp_live : live' ⊆ live;
  kp_sub : sub_ref (pbufs (pb s)) (pbufs (pb s'));
  kp_default : netif_default s' = netif_default s;
  kp_pcbs : udps s' = udps s ∧ raws s' = raws s ∧ ifst s' = ifst s }.

Lemma kept_refl live s : kept live live s s.
Proof. split; try done. apply sub_ref_refl. Qed.

Lemma kept_trans l1 l2 l3 s1 s2 s3 : kept l1 l2 s1 s2 → kept l2 l3 s2 s3 → kept l1 l3 s1 s3.
Proof.
  intros [A1 A2 A3 A4 A5 A9 A0 A6 A7 A8 A10 (A11 & A12 & A13)] [B1 B2 B3 B4 B5 B9 B0 B6 B7 B8 B10 (B11 & B12 & B13)].
  split; try congruence; [by etrans|by eapply sub_ref_trans|split_and!; congruence].
Qed.

Lemma kept_table live s T : kept live live s (set_arp_table s T).
Proof. split; try done. apply sub_ref_refl. Qed.

Lemma free_tail (s : nst) i e : arp_table s !! i = Some e →
  (s ← upd_entry s (Z.of_nat i) (λ e, set_ae_state e ETHARP_STATE_EMPTY);
   s ← upd_entry s (Z.of_nat i) (λ e, set_ae_ctime e 0);
   s ← upd_entry s (Z.of_nat i) (λ e, set_ae_netif e NULL);
   s ← upd_entry s (Z.of_nat i) (λ e, set_ae_ipaddr e 0);
   upd_entry s (Z.of_nat i) (λ e, set_ae_ethaddr e ethzero)) =
  Clean (set_arp_table s (<[i:=EtharpEntry (ae_q e) 0 NULL ethzero 0 ETHARP_STATE_EMPTY]> (arp_table s))).
Proof.
  intros He. rewrite (upd_entry_run _ _ _ _ He), bind_clean. do 3 rewrite (upd_entry_again _ _ e), bind_clean by done.
  by rewrite (upd_entry_again _ _ e).
Qed.

(** The entry may have been changed since the invariant held, but not its packet. *)
Lemma free_changed_run s live own i e e' : ninv s live own → arp_table s !! i = Some e → ae_q e' = ae_q e →
  ∃ s' live', etharp_free_entry (set_arp_table s (<[i:=e']> (arp_table s))) (Z.of_nat i) = Clean s' ∧
    ninv s' live' own ∧ kept live live' s s' ∧ arp_table s' = <[i:=entry_free]> (arp_table s).
Proof.
  intros Hi He Heq. set (s0 := set_arp_table s (<[i:=e']> (arp_table s))).
  assert (arp_table s0 !! i = Some e') as He0 by (cbn; apply list_lookup_insert_eq; by eapply lookup_lt_Some).
  unfold etharp_free_entry. rewrite (get_entry_run _ _ _ He0), bind_clean.
  assert (∀ s' live', inv (pb s') live' (λ x, own x + refs (<[i:=entry_free]> (arp_table s)) x) → mem_ok (pb s') →
    kept live live' s s' → ninv (set_arp_table s' (<[i:=entry_free]> (arp_table s))) live' own) as Hfin.
  { intros s' live' H1 H2 [K1 K2 K3 K4 _ _ _ _ _ _ K5 (K6 & K7 & K8)]. destruct Hi as [_ H4 _ H5 H6 H7 H8 H9 H10].
    split; cbn [pb set_arp_table netifs netif_list acds arp_table etharp_cached_entry netif_default udps raws ifst]; rewrite ?K1, ?K2, ?K3, ?K4, ?K5, ?K6, ?K7, ?K8; try done.
    apply (table_ok_insert _ _ _ e); [done..|apply entry_free_ok|by intros []]. }
  assert (∀ x, refs (<[i:=entry_free]> (arp_table s)) x = refs (arp_table s) x - holds e x) as Hrefs.
  { intros x. rewrite (refs_insert _ _ e) by done. rewrite (holds_null entry_free) by done. lia. }
  destruct (Z.eqb_spec (ae_q e') NULL) as [Hq|Hq]; cbn [negb].
  - rewrite bind_ret_l, (free_tail _ _ _ He0), Hq. cbn [s0 arp_table set_arp_table]. rewrite list_insert_insert_eq.
    eexists _, live. split_and!; [done| |apply (kept_table live s)|done].
    apply (Hfin s); [|apply Hi|apply kept_refl]. apply (inv_own_ext _ _ _ _ (ni_pb _ _ _ Hi)).
    intros x. rewrite Hrefs, holds_null by congruence. lia.
  - rewrite Heq in *.
    destruct (free_run (pb s) live _ (ae_q e) (ni_pb _ _ _ Hi) (ni_mem _ _ _ Hi)) as (c & q & live' & Hf & Hi' & Hm & Hd & Hl & Hs).
    { cbn. pose proof (refs_lookup _ _ _ He Hq). pose proof (ni_own _ _ _ Hi (ae_q e)). lia. }
    rewrite (withp_run s0 (λ x, pbuf_free env_custom_free x (ae_q e)) c q) by exact Hf. out_simp.
    rewrite (upd_entry_run (set_pb s0 q) i e') by done. out_simp.
    cbn [arp_table set_pb]. set (s1 := set_arp_table (set_pb s0 q) _).
    rewrite (free_tail s1 i (set_ae_q e' NULL))
      by (cbn; apply list_lookup_insert_eq; rewrite length_insert; by eapply lookup_lt_Some).
    cbn [s1 s0 arp_table set_arp_table ae_q set_ae_q]. rewrite !list_insert_insert_eq.
    assert (kept live live' s (set_pb s q)) as Hk by (split; done).
    eexists _, live'. split_and!; [done| |split; try done; apply Hk|done].
    change (ninv (set_arp_table (set_pb s q) (<[i:=entry_free]> (arp_table s))) live' own). apply Hfin; try done.
    apply (inv_own_ext _ _ _ _ Hi'). intros x. cbn. rewrite Hrefs. unfold add_own, holds.
    destruct (decide (x = ae_q e)) as [->|Hx]; [rewrite decide_True by done; lia|].
    rewrite decide_False by (intros [? ?]; congruence). lia.
Qed.

Lemma set_table_id (s : nst) i e : arp_table s !! i = Some e → set_arp_table s (<[i:=e]> (arp_table s)) = s.
Proof. intros He. rewrite list_insert_id by done. by destruct s. Qed.

Lemma free_entry_run s live own i e : ninv s live own → arp_table s !! i = Some e →
  ∃ s' live', etharp_free_entry s (Z.of_nat i) = Clean s' ∧ ninv s' live' own ∧ kept live live' s s' ∧
    arp_table s' = <[i:=entry_free]> (arp_table s).
Proof.
  intros Hi He. destruct (free_changed_run s live own i e e Hi He eq_refl) as (s' & live' & H).
  rewrite (set_table_id _ _ _ He) in H. by exists s', live'.
Qed.

(** ** [etharp_find_entry] *)

(** [e] at [i] is the entry that makes room: the first empty one; without empty ones the
    oldest stable one; without those the oldest pending one that has no packet;
    without those the oldest one that has. *)
Definition replaces (T : list etharp_entry) (i : nat) (e : etharp_entry) : Prop :=
  T !! i = Some e ∧
  ((ae_state e = ETHARP_STATE_EMPTY ∧ ∀ j x, (j < i)%nat → T !! j = Some x → ae_state x ≠ ETHARP_STATE_EMPTY) ∨
   ((∀ j x, T !! j = Some x → ae_state x ≠ ETHARP_STATE_EMPTY) ∧
    ((is_stable e ∧ ∀ j x, T !! j = Some x → is_stable x → ae_ctime x ≤ ae_ctime e) ∨
     ((∀ j x, T !! j = Some x → ¬ is_stable x) ∧
      ((is_idle e ∧ ∀ j x, T !! j = Some x → is_idle x → ae_ctime x ≤ ae_ctime e) ∨
       ((∀ j x, T !! j = Some x → ¬ is_idle x) ∧
        is_waiting e ∧ ∀ j x, T !! j = Some x → is_waiting x → ae_ctime x ≤ ae_ctime e)))))).

(** The result [r] of a search for [a] on interface [n] and the table [T'] it leaves. *)
Inductive found (T : list etharp_entry) (a fl n : Z) : Z → list etharp_entry → Prop :=
| found_match i e : T !! i = Some e → matches (Some a) n e →
    (∀ j x, (j < i)%nat → T !! j = Some x → ¬ matches (Some a) n x) → found T a fl n (Z.of_nat i) T
| found_none : (∀ j x, T !! j = Some x → ¬ matches (Some a) n x) →
    (Z.land fl ETHARP_FLAG_FIND_ONLY ≠ 0 ∨
     (Z.land fl ETHARP_FLAG_TRY_HARD = 0 ∧ ∀ j x, T !! j = Some x → ae_state x ≠ ETHARP_STATE_EMPTY)) →
    found T a fl n ERR_MEM T
| found_new i e : (∀ j x, T !! j = Some x → ¬ matches (Some a) n x) → Z.land fl ETHARP_FLAG_FIND_ONLY = 0 →
    replaces T i e → (Z.land fl ETHARP_FLAG_TRY_HARD = 0 → ae_state e = ETHARP_STATE_EMPTY) →
    found T a fl n (Z.of_nat i) (<[i:=EtharpEntry NULL a n
      (if decide (ae_state e = ETHARP_STATE_EMPTY) then ae_ethaddr e else ethzero) 0 ETHARP_STATE_EMPTY]> T).

Lemma some_class e : ae_state e ≠ ETHARP_STATE_EMPTY → is_stable e ∨ is_idle e ∨ is_waiting e.
Proof.
  unfold is_stable, is_idle, is_waiting. destruct (ae_state e), (decide (ae_q e = NULL)); cbn; intros; try done; auto; left; lia.
Qed.

Lemma oldest_lt P T c age : oldest P T c age → c < ARP_TABLE_SIZE → length T = 10%nat →
  ∃ i e, c = Z.of_nat i ∧ T !! i = Some e ∧ P e ∧ ∀ j x, T !! j = Some x → P x → ae_ctime x ≤ ae_ctime e.
Proof. intros [(-> & _)|(i & e & -> & He & HP & -> & H)] Hc Hl; [unfold ARP_TABLE_SIZE in *; lia|]. by exists i, e. Qed.

Lemma oldest_ge P T c age : oldest P T c age → ¬ c < ARP_TABLE_SIZE → length T = 10%nat → ∀ j x, T !! j = Some x → ¬ P x.
Proof.
  intros [(_ & _ & H)|(i & e & -> & He & _)] Hc Hl; [done|]. apply lookup_lt_Some in He. unfold ARP_TABLE_SIZE in *. lia.
Qed.

(** The entry [find_recycle] picks. *)
Lemma find_recycle_run s live own c : ninv s live own → cand_spec (arp_table s) c →
  (∀ j x, arp_table s !! j = Some x → ae_state x ≠ ETHARP_STATE_EMPTY) →
  ∃ i e, find_recycle s c = Clean (Z.of_nat i) ∧ replaces (arp_table s) i e.
Proof.
  intros Hi [_ Hs Hp Hq] Hne. pose proof (ni_table _ _ _ Hi) as [Hlen Hent _]. unfold find_recycle, replaces.
  destruct (Z.ltb_spec (c_stable c) ARP_TABLE_SIZE) as [H1|H1%Z.le_ngt].
  { destruct (oldest_lt _ _ _ _ Hs H1 Hlen) as (i & e & -> & He & Hst & Hold). exists i, e.
    rewrite (get_entry_run _ _ _ He), bind_clean. destruct (Z.eqb_spec (ae_q e) NULL) as [_|Hq0]; [|exfalso].
    - out_simp. split_and!; [done..|]. right. auto.
    - unfold is_stable in Hst. rewrite (en_q _ _ (Hent _ _ He) Hq0) in Hst. cbn in Hst. lia. }
  pose proof (oldest_ge _ _ _ _ Hs H1 Hlen) as Hns.
  destruct (Z.ltb_spec (c_pending c) ARP_TABLE_SIZE) as [H2|H2%Z.le_ngt].
  { destruct (oldest_lt _ _ _ _ Hp H2 Hlen) as (i & e & -> & He & Hst & Hold). exists i, e. split_and!; [done..|].
    right. split; [done|]. right. auto. }
  pose proof (oldest_ge _ _ _ _ Hp H2 Hlen) as Hni.
  destruct (Z.ltb_spec (c_queue c) ARP_TABLE_SIZE) as [H3|H3%Z.le_ngt].
  { destruct (oldest_lt _ _ _ _ Hq H3 Hlen) as (i & e & -> & He & Hst & Hold). exists i, e. split_and!; [done..|].
    right. split; [done|]. right. split; [done|]. right. auto. }
  exfalso. pose proof (oldest_ge _ _ _ _ Hq H3 Hlen) as Hnw.
  destruct (lookup_lt_is_Some_2 (arp_table s) 0) as [e He]; [rewrite Hlen; lia|].
  destruct (some_class e (Hne _ _ He)) as [?|[?|?]]; [by eapply Hns|by eapply Hni|by eapply Hnw].
Qed.

(** The last part of [etharp_find_entry]: the empty entry [i] is given its address. *)
Lemma new_entry_run s live own i e a n : ninv s live own → arp_table s !! i = Some e →
  ae_state e = ETHARP_STATE_EMPTY → is_u32 a →
  let s' := set_arp_table s (<[i:=EtharpEntry NULL a n (ae_ethaddr e) 0 ETHARP_STATE_EMPTY]> (arp_table s)) in
  (_ ← lwip_assert "i < ARP_TABLE_SIZE" (Z.of_nat i <? ARP_TABLE_SIZE);
   e ← get_entry s (Z.of_nat i);
   _ ← lwip_assert "arp_table[i].state == ETHARP_STATE_EMPTY" (bool_decide (ae_state e = ETHARP_STATE_EMPTY));
   s ← upd_entry s (Z.of_nat i) (λ e, set_ae_ipaddr e a);
   s ← upd_entry s (Z.of_nat i) (λ e, set_ae_ctime e 0);
   s ← upd_entry s (Z.of_nat i) (λ e, set_ae_netif e n);
   mret (Z.of_nat i, s)) = Clean (Z.of_nat i, s') ∧ ninv s' live own.
Proof.
  intros Hi He Hemp Ha s'. pose proof (ni_table _ _ _ Hi) as [Hlen Hent _]. destruct (Hent _ _ He) as [Hq _ _ Hmac _ _].
  assert (ae_q e = NULL) as Hq0.
  { destruct (decide (ae_q e = NULL)) as [|Hne]; [done|]. specialize (Hq Hne). congruence. }
  pose proof (lookup_lt_Some _ _ _ He) as Hlt.
  rewrite (proj2 (Z.ltb_lt (Z.of_nat i) ARP_TABLE_SIZE)) by (unfold ARP_TABLE_SIZE; lia). out_simp.
  rewrite (get_entry_run _ _ _ He), bind_clean. rewrite (bool_decide_eq_true_2 (ae_state e = _)) by done. out_simp.
  rewrite (upd_entry_run _ _ _ _ He), bind_clean. do 2 rewrite (upd_entry_again _ _ e), bind_clean by done.
  unfold set_ae_netif, set_ae_ctime, set_ae_ipaddr. cbn [ae_q ae_ipaddr ae_netif ae_ethaddr ae_ctime ae_state].
  rewrite Hq0, Hemp. split; [done|]. apply (ninv_entry _ _ _ _ e); [done|done|by rewrite Hq0| |done].
  split; cbn; try done.
Qed.

Lemma find_entry_run s live own a fl n : ninv s live own → is_u32 a →
  ∃ r s' live', etharp_find_entry s (Some a) fl n = Clean (r, s') ∧ ninv s' live' own ∧ kept live live' s s' ∧
    found (arp_table s) a fl n r (arp_table s') ∧
    (s' = s ∨ ∃ i e, r = Z.of_nat i ∧ arp_table s' !! i = Some e ∧ ae_state e = ETHARP_STATE_EMPTY).
Proof.
  intros Hi Ha. destruct (find_scan_run s live own (Some a) n Hi) as (r & Hr & Hspec).
  unfold etharp_find_entry. rewrite Hr, bind_clean. pose proof (tb_len _ _ (ni_table _ _ _ Hi)) as Hlen.
  destruct r as [i|c]; cbn [scan_spec] in Hspec.
  { destruct Hspec as (k & e & -> & He & Hm & Hfirst). eexists _, s, live.
    split_and!; [done|done|apply kept_refl|by eapply found_match|by left]. }
  destruct Hspec as [Hc Hno].
  assert (c_empty c = ARP_TABLE_SIZE → ∀ j x, arp_table s !! j = Some x → ae_state x ≠ ETHARP_STATE_EMPTY) as Hfull.
  { intros Heq. destruct (cs_empty _ _ Hc) as [[_ H]|(k & x & E1 & Hk & _)]; [done|].
    apply lookup_lt_Some in Hk. unfold ARP_TABLE_SIZE in *. lia. }
  destruct (_ || _) eqn:Hgive.
  { eexists _, s, live. split_and!; [done|done|apply kept_refl| |by left]. apply found_none; [done|].
    apply orb_true_iff in Hgive as [H|[H1 H2]%andb_true_iff].
    - left. by apply negb_true_iff, Z.eqb_neq in H.
    - right. split; [by apply Z.eqb_eq|]. apply Hfull. by apply Z.eqb_eq. }
  apply orb_false_iff in Hgive as [Hfo Hth]. apply negb_false_iff, Z.eqb_eq in Hfo.
  destruct (Z.ltb_spec (c_empty c) ARP_TABLE_SIZE) as [Hlt|Hge].
  - destruct (cs_empty _ _ Hc) as [[? _]|(i & e & Ei & He & Hemp & Hfirst)]; [unfold ARP_TABLE_SIZE in *; lia|].
    rewrite Ei, bind_ret_l. rewrite (proj2 (Z.ltb_ge (Z.of_nat i) 0)) by lia.
    destruct (new_entry_run s live own i e a n Hi He Hemp Ha) as [-> Hi']. eexists _, _, live.
    split_and!; [done|done|apply kept_table| |].
    2:{ right. eexists i, _. split_and!; [done|apply list_lookup_insert_eq; by eapply lookup_lt_Some|done]. }
    cbn [arp_table set_arp_table].
    replace (ae_ethaddr e) with (if decide (ae_state e = ETHARP_STATE_EMPTY) then ae_ethaddr e else ethzero)
      by (by rewrite decide_True).
    apply found_new; [done..|split; [done|by left]|done].
  - assert (c_empty c = ARP_TABLE_SIZE) as Hemp.
    { destruct (cs_empty _ _ Hc) as [[? _]|(i & e & Ei & He & _)]; [done|]. apply lookup_lt_Some in He.
      unfold ARP_TABLE_SIZE in *. lia. }
    rewrite Hemp in Hth. cbn in Hth. apply Z.eqb_neq in Hth.
    destruct (find_recycle_run s live own c Hi Hc (Hfull Hemp)) as (i & e & -> & Hrep). rewrite bind_clean.
    pose proof Hrep as [He _]. pose proof (lookup_lt_Some _ _ _ He) as Hi10.
    rewrite (proj2 (Z.ltb_ge (Z.of_nat i) 0)) by lia.
    rewrite (proj2 (Z.ltb_lt (Z.of_nat i) ARP_TABLE_SIZE)) by (unfold ARP_TABLE_SIZE; lia). out_simp.
    destruct (free_entry_run s live own i e Hi He) as (s1 & live1 & -> & Hi1 & Hk1 & Ht1). out_simp.
    rewrite (proj2 (Z.ltb_ge (Z.of_nat i) 0)) by lia.
    assert (arp_table s1 !! i = Some entry_free) as He1 by (rewrite Ht1; by apply list_lookup_insert_eq).
    destruct (new_entry_run s1 live1 own i entry_free a n Hi1 He1 eq_refl Ha) as [H Hi'].
    rewrite H.
    eexists _, _, live1. split_and!; [done|done|eapply kept_trans; [done|apply kept_table]| |].
    2:{ right. eexists i, _. split_and!; [done|apply list_lookup_insert_eq; by eapply lookup_lt_Some|done]. }
    cbn [arp_table set_arp_table]. rewrite Ht1, list_insert_insert_eq.
    replace (ae_ethaddr entry_free) with (if decide (ae_state e = ETHARP_STATE_EMPTY) then ae_ethaddr e else ethzero)
      by (rewrite decide_False; [done|by eapply Hfull]).
    by apply found_new.
Qed.

(** The entry a successful search returns: the only one in use for the address. *)
Lemma found_entry N T a fl n r T' : table_ok N T → found T a fl n r T' → 0 ≤ r → n ≠ NULL → ∃ i e, r = Z.of_nat i ∧
  T' !! i = Some e ∧ ae_ipaddr e = a ∧ ae_netif e = n ∧
  (∀ j x, j ≠ i → T' !! j = Some x → ae_state x ≠ ETHARP_STATE_EMPTY → ae_ipaddr x = a → ae_netif x ≠ n) ∧
  (ae_state e = ETHARP_STATE_EMPTY → ae_q e = NULL ∧ ae_ctime e = 0) ∧
  (ae_state e ≠ ETHARP_STATE_EMPTY → T' = T ∧ matches (Some a) n e).
Proof.
  intros Ht Hf Hr Hn. destruct Hf as [i e He (Hst & Hip & Hnet) _|_ _|i e Hno Hfo [He _] _].
  - exists i, e. injection Hip as ->. destruct Hnet as [?|Hnet]; [done|]. split_and!; try done.
    + intros j x Hj Hx Hxs Hxi Hxn. apply Hj. apply (tb_unique _ _ Ht j i x e); congruence.
    + intros _. split; [done|]. split_and!; [done|done|by right].
  - unfold ERR_MEM in Hr. lia.
  - eexists i, _. split_and!; [done|apply list_lookup_insert_eq; by eapply lookup_lt_Some|done|done| |done|by intros []].
    intros j x Hj Hx Hxs Hxi Hxn. rewrite list_lookup_insert_ne in Hx by done. apply (Hno j x Hx).
    split_and!; [done|by rewrite Hxi|by right].
Qed.

(** A new entry has no packet. *)
Lemma found_entry_q N T a fl n i T' e : table_ok N T → found T a fl n (Z.of_nat i) T' → T' !! i = Some e →
  ae_q e = NULL ∨ T' = T.
Proof.
  intros Ht Hf He. inversion Hf as [j x Hj Hm Hfirst Heq|Hno Hor Heq|j x Hno Hfo [Hj _] Hth Heq]; subst.
  - by right.
  - by right.
  - apply Nat2Z.inj in Heq as ->. rewrite list_lookup_insert_eq in He by (by eapply lookup_lt_Some).
    injection He as <-. by left.
Qed.
End Etharp.
