(* ===== verification/EtharpTmr.v ===== *)
(** * Ageing of the ARP cache

    What [etharp_tmr] and [etharp_cleanup_netif] do to the table: every entry is
    replaced by a function of itself, and requests go out for the entries that
    stay pending. *)
From S2P Require Import Prelude Def Stats Iface Ip4Addr Pbuf PbufChain PbufClient PbufData Pcb Netif NetInv EthOut Acd Etharp EtharpInv.

(** One second passes for an entry. *)
Definition aged (e : etharp_entry) : etharp_entry :=
  if decide (ae_state e = ETHARP_STATE_EMPTY) then e
  else if decide (ARP_MAXAGE ≤ ae_ctime e + 1 ∨ (ae_state e = ETHARP_STATE_PENDING ∧ ARP_MAXPENDING ≤ ae_ctime e + 1))
  then entry_free
  else EtharpEntry (ae_q e) (ae_ipaddr e) (ae_netif e) (ae_ethaddr e) (ae_ctime e + 1)
    match ae_state e with
    | ETHARP_STATE_STABLE_REREQUESTING_1 => ETHARP_STATE_STABLE_REREQUESTING_2
    | ETHARP_STATE_STABLE_REREQUESTING_2 => ETHARP_STATE_STABLE
    | st => st
    end.

(** The ARP request for an entry. *)
Definition request_frame (N : gmap Z netif) (e : etharp_entry) : list Z :=
  match N !! ae_netif e with
  | Some f => arp_frame ethbroadcast (nf_hwaddr f) ARP_REQUEST (nf_hwaddr f) (nf_ip_addr f) ethzero (ae_ipaddr e)
  | None => []
  end.

(** The requests one second brings for an entry. *)
Definition asked (N : gmap Z netif) (e : etharp_entry) : list (list Z) :=
  if decide (ae_state (aged e) = ETHARP_STATE_PENDING) then [request_frame N e] else [].

Section Tmr.
Context {M : Type} `{PM : PbufAlloc M} {E : NetEnv M}.
Abbreviation pst := (@pst M).
Abbreviation nst := (nst M).

(** What the functions of etharp.c leave alone; only bytes outside the blocks still in use,
    and of block [q], may have changed. *)
Record moves (live' : gmap Z (asrc * Z)) (q : Z) (s s' : nst) : Prop := Moves {
  mv_netifs : netifs s' = netifs s;
  mv_list : netif_list s' = netif_list s;
  mv_acds : acds s' = acds s;
  mv_rng : rng s' = rng s;
  mv_mapped x : is_Some (data (pb s) !! x) → is_Some (data (pb s') !! x);
  mv_data : keeps (delete q live') (data (pb s)) (data (pb s'));
  mv_rest : netif_default s' = netif_default s ∧ udps s' = udps s ∧ raws s' = raws s ∧ ifst s' = ifst s }.

Lemma moves_refl live q s : moves live q s s.
Proof. by split. Qed.

Lemma keeps_sub (l1 l2 : gmap Z (asrc * Z)) d d' : l2 ⊆ l1 → keeps l1 d d' → keeps l2 d d'.
Proof.
  intros Hs Hk x Hx. apply Hk. intros Ha. destruct (Hx Ha) as (p & k & n & Hp & Hr).
  exists p, k, n. split; [|done]. by eapply lookup_weaken.
Qed.

Lemma moves_sub l1 l2 q s s' : l2 ⊆ l1 → moves l1 q s s' → moves l2 q s s'.
Proof. intros Hs [? ? ? ? ? Hd ?]. split; try done. eapply keeps_sub; [|done]. by apply delete_mono. Qed.

Lemma moves_trans l q s1 s2 s3 : moves l q s1 s2 → moves l q s2 s3 → moves l q s1 s3.
Proof.
  intros [A1 A2 A3 A4 A5 A6 (? & ? & ? & ?)] [B1 B2 B3 B4 B5 B6 (? & ? & ? & ?)].
  split; try congruence; [by auto|by eapply keeps_trans|split_and!; congruence].
Qed.

Lemma quiet_moves live q s s' : quiet live s s' → moves live q s s'.
Proof. intros [? ? ? ? ? ? ? ? ? ? (? & ? & ?)]. split; try done. eapply keeps_sub; [|done]. apply delete_subseteq. Qed.

Lemma kept_moves live live' q s s' : kept live live' s s' → moves live' q s s'.
Proof. intros [? ? ? ? ? ? ? Hd ? ? ? ?]. split; rewrite ?Hd; done. Qed.

Lemma moves_links live q s s' : moves live q s s' → same_links s s'.
Proof. intros [Hn ? Ha ? ? ? ?]. split; rewrite ?Hn, ?Ha; done. Qed.

(** The new table and the frames sent, when every entry [e] becomes [f e] and the frames [g e]
    are to be sent for it. *)
Definition entry_step (own : Z → Z) (f : etharp_entry → etharp_entry) (g : etharp_entry → list (list Z))
    (body : nst → Z → out nst) (N : gmap Z netif) : Prop :=
  ∀ s live i e, ninv s live own → netifs s = N → arp_table s !! i = Some e →
  ∃ s' live', body s (Z.of_nat i) = Clean s' ∧ ninv s' live' own ∧ live' ⊆ live ∧ moves live' NULL s s' ∧
    etharp_cached_entry s' = etharp_cached_entry s ∧
    arp_table s' = <[i:=f e]> (arp_table s) ∧ attempts s s' (g e).

Lemma table_loop_run own f g body N k : ∀ i s live, entry_step own f g body N → ninv s live own → netifs s = N →
  (i + k = 10)%nat →
  ∃ s' live', table_loop k (Z.of_nat i) s body = Clean s' ∧ ninv s' live' own ∧ live' ⊆ live ∧ moves live' NULL s s' ∧
    etharp_cached_entry s' = etharp_cached_entry s ∧
    arp_table s' = take i (arp_table s) ++ (f <$> drop i (arp_table s)) ∧ attempts s s' (drop i (arp_table s) ≫= g).
Proof.
  induction k as [|k IH]; intros i s live Hb Hi HN Hik; cbn [table_loop].
  { pose proof (tb_len _ _ (ni_table _ _ _ Hi)) as Hlen. exists s, live.
    rewrite drop_ge, take_ge by (rewrite Hlen; lia). rewrite !app_nil_r. split_and!; try done. by apply attempts_none. }
  pose proof (tb_len _ _ (ni_table _ _ _ Hi)) as Hlen.
  destruct (lookup_lt_is_Some_2 (arp_table s) i) as [e He]; [lia|].
  destruct (Hb s live i e Hi HN He) as (s1 & live1 & -> & Hi1 & Hl1 & Hm1 & Hc1 & Ht1 & Hf1). rewrite bind_clean.
  replace (Z.of_nat i + 1) with (Z.of_nat (S i)) by lia.
  destruct (IH (S i) s1 live1 Hb Hi1) as (s2 & live2 & -> & Hi2 & Hl2 & Hm2 & Hc2 & Ht2 & Hf2); [|lia|].
  { by rewrite (mv_netifs _ _ _ _ Hm1). }
  exists s2, live2. split_and!; try done; [by etrans| |congruence|..].
  - eapply moves_trans; [|done]. by eapply moves_sub.
  - rewrite Ht2, Ht1, drop_insert_lt by lia. rewrite (drop_S (arp_table s) e i) by done. rewrite (take_S_r _ _ (f e))
      by (apply list_lookup_insert_eq; lia). rewrite take_insert_ge by lia. by rewrite <- app_assoc.
  - rewrite (drop_S (arp_table s) e i) by done. rewrite Ht1, drop_insert_lt in Hf2 by lia.
    exact (attempts_app _ _ _ _ _ Hf1 Hf2).
Qed.

(** ** One second *)

Lemma aged_ok N e : entry_ok N e → entry_ok N (aged e).
Proof.
  intros [H1 H2 H3 H4 H5 H6]. unfold aged, ARP_MAXAGE, ARP_MAXPENDING. case_decide as He; [done|].
  case_decide as Ha; [apply entry_free_ok|]. split; cbn; try done.
  - intros Hq. by rewrite (H1 Hq).
  - intros _. by apply H2.
  - lia.
  - destruct (ae_state e); try done. intros _. destruct (decide (ae_ctime e + 1 < 5)); [done|]. destruct Ha. right. split; [done|lia].
Qed.

Lemma aged_key e : ae_state (aged e) ≠ ETHARP_STATE_EMPTY →
  ae_q (aged e) = ae_q e ∧ ae_ipaddr (aged e) = ae_ipaddr e ∧ ae_netif (aged e) = ae_netif e ∧
  ae_state e ≠ ETHARP_STATE_EMPTY.
Proof. unfold aged. repeat case_decide; done. Qed.

(** Replacing an entry in use by one for the same key. *)
Lemma ninv_rekey s live own i e e' : ninv s live own → arp_table s !! i = Some e → ae_state e ≠ ETHARP_STATE_EMPTY →
  ae_q e' = ae_q e → ae_ipaddr e' = ae_ipaddr e → ae_netif e' = ae_netif e → entry_ok (netifs s) e' →
  ninv (set_arp_table s (<[i:=e']> (arp_table s))) live own.
Proof.
  intros Hi He Hne Hq Hip Hn Hok. apply (ninv_entry _ _ _ _ e); try done. intros _.
  apply (unique_same (netifs s) _ _ e); try done. apply Hi.
Qed.

Lemma tmr_one_step own N : entry_step own aged (asked N) etharp_tmr_one N.
Proof.
  intros s live i e Hi HN He. pose proof (tb_entry _ _ (ni_table _ _ _ Hi) _ _ He) as Hok.
  unfold etharp_tmr_one. rewrite (get_entry_run _ _ _ He), bind_clean.
  destruct (decide (ae_state e = ETHARP_STATE_EMPTY)) as [Hemp|Hne].
  { assert (aged e = e) as Hag by (unfold aged; by rewrite decide_True).
    assert (asked N e = []) as -> by (unfold asked; rewrite Hag; apply decide_False; congruence). exists s, live.
    rewrite Hag, list_insert_id by done. split_and!; try done. by apply attempts_none. }
  pose proof (en_age _ _ Hok) as Hage. set (e1 := set_ae_ctime e (ae_ctime e + 1)).
  rewrite (upd_entry_run _ _ _ _ He), u16_id by (unfold is_u16; lia). rewrite bind_clean. fold e1.
  assert ((i < length (arp_table s))%nat) as Hlt by (by eapply lookup_lt_Some).
  rewrite (get_entry_run _ _ e1) by (by apply list_lookup_insert_eq). rewrite bind_clean.
  cbn [ae_state ae_ctime e1 set_ae_ctime ae_netif ae_ipaddr].
  assert (((ARP_MAXAGE <=? ae_ctime e + 1) || (bool_decide (ae_state e = ETHARP_STATE_PENDING) && (ARP_MAXPENDING <=? ae_ctime e + 1)))%bool
    = bool_decide (ARP_MAXAGE ≤ ae_ctime e + 1 ∨ (ae_state e = ETHARP_STATE_PENDING ∧ ARP_MAXPENDING ≤ ae_ctime e + 1))) as ->.
  { apply eq_true_iff_eq. by rewrite orb_true_iff, andb_true_iff, !bool_decide_eq_true, !Z.leb_le. }
  case_bool_decide as Hold.
  { assert (aged e = entry_free) as Hag by (unfold aged; by rewrite decide_False, decide_True).
    destruct (free_changed_run s live own i e e1 Hi He eq_refl) as (s' & live' & -> & Hi' & Hk & Ht).
    assert (asked N e = []) as -> by (unfold asked; rewrite Hag; by apply decide_False).
    exists s', live'. rewrite Hag. split_and!; try done; [apply Hk|by eapply kept_moves|apply Hk|].
    apply attempts_none; apply Hk. }
  set (st := match ae_state e with
    | ETHARP_STATE_STABLE_REREQUESTING_1 => ETHARP_STATE_STABLE_REREQUESTING_2
    | ETHARP_STATE_STABLE_REREQUESTING_2 => ETHARP_STATE_STABLE
    | st => st end).
  assert (aged e = set_ae_state e1 st) as Hag by (unfold aged; by rewrite !decide_False).
  assert (ninv (set_arp_table s (<[i:=aged e]> (arp_table s))) live own) as Hi1.
  { assert (ae_state (aged e) ≠ ETHARP_STATE_EMPTY) as Hnz by (rewrite Hag; cbn; unfold st; by destruct (ae_state e)).
    destruct (aged_key e Hnz) as (? & ? & ? & _). apply (ninv_rekey _ _ _ _ e); try done. by apply aged_ok. }
  assert (ae_state (aged e) ≠ ETHARP_STATE_PENDING → ∃ s' live', Clean (set_arp_table s (<[i:=aged e]> (arp_table s))) = Clean s' ∧ ninv s' live' own ∧ live' ⊆ live ∧
    moves live' NULL s s' ∧ etharp_cached_entry s' = etharp_cached_entry s ∧ arp_table s' = <[i:=aged e]> (arp_table s) ∧
    attempts s s' (asked N e)) as Hquiet.
  { intros Hnp. assert (asked N e = []) as -> by (unfold asked; by apply decide_False).
    exists (set_arp_table s (<[i:=aged e]> (arp_table s))), live. split_and!; try done. by apply attempts_none. }
  destruct (ae_state e) eqn:Est; cbn [st] in Hag; try done.
  - assert (aged e = e1) as Hag' by (rewrite Hag; unfold e1; destruct e; cbn in *; by subst).
    destruct (en_netif _ _ Hok) as [f Hf]; [congruence|]. rewrite Hag' in *. clear Hquiet.
    destruct (request_run _ live own (ae_netif e) f (ae_ipaddr e) Hi1 Hf) as (r & s' & -> & Hi' & Hqu & Hs).
    rewrite bind_clean. assert (asked N e = [request_frame N e]) as Has.
    { unfold asked. rewrite decide_True; [done|]. by rewrite Hag'. }
    assert (request_frame N e = arp_frame ethbroadcast (nf_hwaddr f) ARP_REQUEST (nf_hwaddr f) (nf_ip_addr f) ethzero (ae_ipaddr e)) as Hrf.
    { unfold request_frame. by rewrite <- HN, Hf. }
    exists s', live. rewrite Has.
    split_and!; try done; [by destruct (quiet_moves _ NULL _ _ Hqu)|apply Hqu|apply Hqu|].
    rewrite Hrf. eapply attempts_sends, Hs.
  - assert (aged e = e1) as Hag' by (rewrite Hag; unfold e1; destruct e; cbn in *; by subst). rewrite Hag' in *. apply Hquiet. cbn. congruence.
  - rewrite (upd_entry_again _ _ e) by done. rewrite Hag in *. by apply Hquiet.
  - rewrite (upd_entry_again _ _ e) by done. rewrite Hag in *. by apply Hquiet.
Qed.

Lemma tmr_run s live own : ninv s live own → ∃ s' live', etharp_tmr s = Clean s' ∧ ninv s' live' own ∧
  live' ⊆ live ∧ moves live' NULL s s' ∧ etharp_cached_entry s' = etharp_cached_entry s ∧
  arp_table s' = aged <$> arp_table s ∧ attempts s s' (arp_table s ≫= asked (netifs s)).
Proof. intros Hi. by apply (table_loop_run own aged (asked (netifs s)) etharp_tmr_one (netifs s) 10 0 s live (tmr_one_step _ _)). Qed.

(** ** An interface goes away *)

Definition cleaned (n : Z) (e : etharp_entry) : etharp_entry :=
  if decide (ae_state e ≠ ETHARP_STATE_EMPTY ∧ ae_netif e = n) then entry_free else e.

Lemma cleanup_run s live own n : ninv s live own → ∃ s' live', etharp_cleanup_netif s n = Clean s' ∧ ninv s' live' own ∧
  live' ⊆ live ∧ moves live' NULL s s' ∧ etharp_cached_entry s' = etharp_cached_entry s ∧
  arp_table s' = cleaned n <$> arp_table s ∧ frames s' = frames s.
Proof.
  intros Hi. unfold etharp_cleanup_netif. change (Z.to_nat ARP_TABLE_SIZE) with 10%nat. change 0 with (Z.of_nat 0).
  match goal with |- context [table_loop 10 _ s ?b] => set (body := b) end.
  assert (entry_step own (cleaned n) (λ _, []) body (netifs s)) as Hb.
  { subst body. generalize (netifs s). clear s live Hi. intros N s live i e Hi HN He. cbv beta. rewrite (get_entry_run _ _ _ He), bind_clean.
    replace (negb (bool_decide (ae_state e = ETHARP_STATE_EMPTY)) && (ae_netif e =? n))%bool
      with (bool_decide (ae_state e ≠ ETHARP_STATE_EMPTY ∧ ae_netif e = n)).
    2:{ apply eq_true_iff_eq. by rewrite andb_true_iff, negb_true_iff, bool_decide_eq_true, bool_decide_eq_false, Z.eqb_eq. }
    unfold cleaned. case_bool_decide as Hc.
    - destruct (free_entry_run s live own i e Hi He) as (s' & live' & -> & Hi' & Hk & Ht). rewrite decide_True by done.
      exists s', live'. split_and!; try done; [apply Hk|by eapply kept_moves|apply Hk|]. apply attempts_none; apply Hk.
    - rewrite decide_False by done. exists s, live. rewrite list_insert_id by done. split_and!; try done. by apply attempts_none. }
  destruct (table_loop_run own _ _ body (netifs s) 10 0 s live Hb Hi) as (s' & live' & H1 & H2 & H3 & H4 & H5 & H6 & L & H7 & H8 & _); [done..|].
  exists s', live'. split_and!; try done. rewrite H7. replace (drop 0 (arp_table s) ≫= λ _, []) with (@nil (list Z)) in H8.
  - apply sublist_nil_r in H8. by rewrite H8, app_nil_r.
  - clear. by induction (drop 0 (arp_table s)).
Qed.
End Tmr.
