(* ===== verification/EtharpRes.v ===== *)
(** * Address resolution

    Transmitting a packet as the ARP module does it, and [etharp_update_arp_entry]: an answer
    makes the entry stable and sends the packet that waited for it. *)
From S2P Require Import Prelude Def Stats Iface Ip4Addr Pbuf PbufChain PbufClient PbufData Pcb Netif NetInv EthOut Acd Etharp EtharpInv EtharpTmr.

Section Res.
Context {M : Type} `{PM : PbufAlloc M} {E : NetEnv M}.
Abbreviation pst := (@pst M).
Abbreviation nst := (nst M).

(** ** References between the table and the rest *)

(** The packet of entry [i] is taken out of the table. *)
Lemma ninv_take s live own i e e' : ninv s live own → arp_table s !! i = Some e → ae_q e ≠ NULL → ae_q e' = NULL →
  entry_ok (netifs s) e' → ae_state e ≠ ETHARP_STATE_EMPTY → ae_ipaddr e' = ae_ipaddr e → ae_netif e' = ae_netif e →
  ninv (set_arp_table s (<[i:=e']> (arp_table s))) live (add_own own (ae_q e) 1).
Proof.
  intros [H1 H2 H3 H4 H5 H6 H7 H8 H9] He Hq Hq' Hok Hne Hip Hn. split; try done; cbn [pb set_arp_table arp_table netifs].
  - apply (inv_own_ext _ _ _ _ H1). intros x. rewrite (refs_insert _ _ e), (holds_null e') by done.
    unfold add_own, holds. destruct (decide (x = ae_q e)) as [->|Hx]; [rewrite decide_True by done; lia|].
    rewrite decide_False by (intros [? ?]; congruence). lia.
  - intros x. unfold add_own. specialize (H2 x). case_decide; lia.
  - apply (table_ok_insert _ _ _ e); try done. intros _. by apply (unique_same (netifs s) _ _ e).
Qed.

(** A packet is put on entry [i], which has none. *)
Lemma ninv_give s live own i e p : ninv s live own → arp_table s !! i = Some e → ae_q e = NULL → 0 < own p →
  ae_state e = ETHARP_STATE_PENDING →
  ninv (set_arp_table s (<[i:=set_ae_q e p]> (arp_table s))) live (add_own own p (-1)).
Proof.
  intros [H1 H2 H3 H4 H5 H6 H7 H8 H9] He Hq Hp Hst.
  assert (p ≠ NULL) as Hp0.
  { intros ->. pose proof (inv_own_null _ _ _ H1) as H0. cbn in H0. pose proof (refs_nonneg (arp_table s) NULL). lia. }
  split; try done; cbn [pb set_arp_table arp_table netifs].
  - apply (inv_own_ext _ _ _ _ H1). intros x. rewrite (refs_insert _ _ e), (holds_null e) by done.
    unfold add_own, holds. cbn [ae_q set_ae_q]. destruct (decide (x = p)) as [->|Hx]; [rewrite decide_True by done; lia|].
    rewrite decide_False by (intros [? ?]; congruence). lia.
  - intros x. unfold add_own. specialize (H2 x). case_decide as Hx; [subst|]; lia.
  - destruct (tb_entry _ _ H5 _ _ He). apply (table_ok_insert _ _ _ e); try done. intros _.
    apply (unique_same (netifs s) _ _ e); try done. congruence.
Qed.

(** ** Transmission *)

(** The frames [L] handed to the driver for packet [q]: none without room for the header,
    otherwise one, which for a well-formed packet is the header and its bytes. *)
Definition transmits (s : nst) (q : Z) (b : pbuf) (D S : list Z) (ty r : Z) (L : list (list Z)) : Prop :=
  (¬ add_header_fits q b 14 false ∧ r = ERR_BUF ∧ L = []) ∨
  (add_header_fits q b 14 false ∧ r = ERR_OK ∧ ∃ F, L = [F] ∧
     ∀ l, chained (pbufs (pb s)) q l → len b ≤ tot_len b → tot_len b = lens l → foreign l (payload b - 14) 14 →
       Some <$> F = (Some <$> (D ++ S ++ le16 (lwip_htons ty))) ++ content (data (pb s)) l).

Lemma eth_sent_fields (s : nst) p b ty D S F : netifs (eth_sent s p b ty D S F) = netifs s ∧
  netif_list (eth_sent s p b ty D S F) = netif_list s ∧ acds (eth_sent s p b ty D S F) = acds s ∧
  rng (eth_sent s p b ty D S F) = rng s ∧ arp_table (eth_sent s p b ty D S F) = arp_table s ∧
  etharp_cached_entry (eth_sent s p b ty D S F) = etharp_cached_entry s ∧
  frames (eth_sent s p b ty D S F) = frames s ++ [F] ∧ stat_etharp (eth_sent s p b ty D S F) = stat_etharp s ∧
  data (pb (eth_sent s p b ty D S F)) = put_header (data (pb s)) (payload b - 14) ty D S ∧
  netif_default (eth_sent s p b ty D S F) = netif_default s ∧ udps (eth_sent s p b ty D S F) = udps s ∧
  raws (eth_sent s p b ty D S F) = raws s ∧ ifst (eth_sent s p b ty D S F) = ifst s.
Proof. done. Qed.

(** Bytes of one block. *)
Lemma keeps_block st live p k n d d' : pa_ok st live → live !! p = Some (k, n) →
  (∀ x, ¬ (p ≤ x < p + n) → d' !! x = d !! x) → keeps (delete p live) d d'.
Proof.
  intros Hok Hp Hd x Hx. apply Hd. intros Hin.
  destruct (Hx (proj2 (pa_region _ _ _ _ _ Hok Hp) x Hin)) as (q & k' & m & Hq & Hr).
  apply lookup_delete_Some in Hq as [Hne Hq]. pose proof (pa_sep _ _ _ _ _ _ _ _ Hok Hp Hq Hne) as Hs.
  unfold blocks_disjoint in Hs. lia.
Qed.

(** The head room of a packet lies in its block. *)
Lemma head_room_block s live own q b m : ninv s live own → pbufs (pb s) !! q = Some b → add_header_fits q b m false →
  ∃ k n, live !! q = Some (k, n) ∧ q ≤ payload b - m ∧ payload b ≤ q + n.
Proof.
  intros Hi Hb (_ & _ & Hf & Hnc). destruct (decide (contiguous b)) as [Hc|Hc]; [|by specialize (Hnc Hc)].
  pose proof (i_block _ _ _ (ni_pb _ _ _ Hi) _ _ Hb) as Hbo. destruct (bo_live _ _ _ Hbo) as (k & n & Hl & _ & _ & Hr).
  specialize (Hf Hc). destruct (Hr Hc). pose proof (bo_len _ _ _ Hbo) as Hlen. unfold is_u16, SIZEOF_STRUCT_PBUF in *.
  exists k, n. split; [done|]. lia.
Qed.

Lemma output_run s live own n f q b dst ty : ninv s live own → netifs s !! n = Some f → pbufs (pb s) !! q = Some b →
  eth_ok s dst → ∃ r s' D L, ethernet_output s n q (EHw n) dst ty = Clean (r, s') ∧ ninv s' live own ∧
    moves live q s s' ∧ arp_table s' = arp_table s ∧ etharp_cached_entry s' = etharp_cached_entry s ∧
    stat_etharp s' = stat_etharp s ∧ frames s' = frames s ++ L ∧ transmits s q b D (nf_hwaddr f) ty r L ∧
    (∀ A, eth_val s dst (payload b - 14) 14 A → add_header_fits q b 14 false → D = A).
Proof.
  intros Hi Hf Hb Hdst.
  destruct (ethernet_output_run s live own n q b (EHw n) dst ty Hi) as [H1 H2]; [eauto|done|cbn; eauto|done|].
  destruct (decide (14 ≤ 0xFFFF ∧ 14 + tot_len b < 65536 ∧ (contiguous b → q + SIZEOF_STRUCT_PBUF ≤ payload b - 14) ∧
    (¬ contiguous b → false = true))) as [Hfit|Hnf].
  - destruct (H1 Hfit) as (D & S & F & Hr & Hi' & HD & HS & HDv & HSv & HF).
    assert (S = nf_hwaddr f) as -> by (apply HSv; cbn; by rewrite Hf).
    destruct (eth_sent_fields s q b ty D (nf_hwaddr f) F) as (E1 & E2 & E3 & E4 & E5 & E6 & E7 & E9 & E8 & E10 & E11 & E12 & E13).
    revert Hr Hi' E1 E2 E3 E4 E5 E6 E7 E9 E8 E10 E11 E12 E13. generalize (eth_sent s q b ty D (nf_hwaddr f) F).
    intros s' Hr Hi' E1 E2 E3 E4 E5 E6 E7 E9 E8 E10 E11 E12 E13. exists ERR_OK, s', D, [F]. split_and!; try done.
    + split; try done; try rewrite E8.
      * intros x Hx. by apply put_header_is_Some.
      * destruct (head_room_block _ _ _ _ _ 14 Hi Hb Hfit) as (k & z & Hl & Hlo & Hhi).
        eapply keeps_block; [apply (i_alloc _ _ _ (ni_pb _ _ _ Hi))|done|]. intros x Hx.
        apply put_header_out; [apply HD|apply HS|lia].
    + right. split_and!; try done. exists F. split; [done|]. intros l. by apply HF.
    + intros A HA _. by apply HDv.
  - exists ERR_BUF, (LINK_STATS_INC Lenerr s), [], []. rewrite app_nil_r. split_and!; try done.
    + by apply H2.
    + by apply ninv_link_stat.
    + by left.
Qed.

(** ** [etharp_update_arp_entry] *)

(** What the entry [e] becomes. *)
Definition resolved_entry (ip n : Z) (A : list Z) : etharp_entry := EtharpEntry NULL ip n A 0 ETHARP_STATE_STABLE.

(** The queued packet [q] is sent to [A]. *)
Definition flushed (s s' : nst) (f : netif) (q a : Z) (A : list Z) : Prop :=
  (q = NULL ∧ frames s' = frames s) ∨
  (q ≠ NULL ∧ ∃ b r D L, pbufs (pb s) !! q = Some b ∧ frames s' = frames s ++ L ∧
     transmits s q b D (nf_hwaddr f) ETHTYPE_IP r L ∧ (apart a 6 (payload b - 14) 14 → add_header_fits q b 14 false → D = A)).

Lemma send_queued_null (s : nst) n i e eth : arp_table s !! i = Some e → ae_q e = NULL →
  send_queued s n (Z.of_nat i) eth = Clean s.
Proof. intros He Hq. unfold send_queued. rewrite (get_entry_run _ _ _ He), bind_clean, Hq. done. Qed.

(** The entry of a waiting packet has become stable for address [A], which lies at [a]. *)
Lemma send_queued_run s live own n f i e ip a A : ninv s live own → netifs s !! n = Some f → arp_table s !! i = Some e →
  ae_q e ≠ NULL → ae_ipaddr e = ip → ae_netif e = n → mac_ok A → seg (data (pb s)) a 6 = Some <$> A →
  mapped (data (pb s)) a 6 →
  ∃ s' live', send_queued (set_arp_table s (<[i:=set_ae_q (resolved_entry ip n A) (ae_q e)]> (arp_table s))) n (Z.of_nat i) (EMem a)
      = Clean s' ∧ ninv s' live' own ∧ live' ⊆ live ∧ moves live' (ae_q e) s s' ∧
    etharp_cached_entry s' = etharp_cached_entry s ∧ arp_table s' = <[i:=resolved_entry ip n A]> (arp_table s) ∧
    flushed s s' f (ae_q e) a A.
Proof.
  intros Hi Hf He Hq Hip Hn HA Hseg Hm. pose proof (tb_entry _ _ (ni_table _ _ _ Hi) _ _ He) as Hok.
  pose proof (en_q _ _ Hok Hq) as Hst. set (q := ae_q e) in *. assert ((i < length (arp_table s))%nat) as Hlt by (by eapply lookup_lt_Some).
  unfold send_queued. rewrite (get_entry_run _ i (set_ae_q (resolved_entry ip n A) q)) by (by apply list_lookup_insert_eq).
  rewrite bind_clean. cbn [ae_q set_ae_q]. rewrite (proj2 (Z.eqb_neq q NULL)) by done. cbn [negb].
  rewrite (upd_entry_again _ _ e), bind_clean by done.
  change (set_ae_q (set_ae_q (resolved_entry ip n A) q) NULL) with (resolved_entry ip n A).
  set (s1 := set_arp_table s (<[i:=resolved_entry ip n A]> (arp_table s))).
  assert (ninv s1 live (add_own own q 1)) as Hi1.
  { apply (ninv_take s live own i e); try done.
    - split; cbn; try done. rewrite <- Hip. apply Hok.
    - congruence. }
  assert (0 < add_own own q 1 q) as Hoq.
  { unfold add_own. rewrite decide_True by done. pose proof (ni_own _ _ _ Hi q). lia. }
  destruct (i_own _ _ _ (ni_pb _ _ _ Hi1) q) as [_ [b Hb]].
  { cbv beta. pose proof (refs_nonneg (arp_table s1) q). lia. }
  destruct (output_run s1 live _ n f q b (EMem a) ETHTYPE_IP Hi1 Hf Hb Hm) as (r & s2 & D & L & -> & Hi2 & Hmv & Ht2 & Hc2 & _ & Hfr & Htr & HD).
  rewrite bind_clean. destruct (ninv_free s2 live _ q Hi2 Hoq) as (c & p2 & live' & Hfree & Hi3 & Hd3 & Hl3 & _).
  erewrite withp_run by exact Hfree. rewrite bind_clean.
  exists (set_pb s2 p2), live'. split_and!; try done.
  - apply (ninv_own_ext _ _ _ _ Hi3). intros x. unfold add_own. case_decide; lia.
  - destruct (moves_sub _ _ _ _ _ Hl3 Hmv) as [B1 B2 B3 B4 B5 B6 B7]. split; cbn [pb set_pb netifs netif_list acds rng]; rewrite ?Hd3; done.
  - right. split; [done|]. exists b, r, D, L. split_and!; try done. intros Ha. by apply HD.
Qed.

Inductive updated (live' : gmap Z (asrc * Z)) (s : nst) (n : Z) (f : netif) (ip a : Z) (A : list Z) (fl : Z) : Z → nst → Prop :=
| updated_arg : non_unicast f ip = true → updated live' s n f ip a A fl ERR_ARG s
| updated_none : non_unicast f ip = false → found (arp_table s) ip fl n ERR_MEM (arp_table s) →
    updated live' s n f ip a A fl ERR_MEM s
| updated_ok i e T s' : non_unicast f ip = false → found (arp_table s) ip fl n (Z.of_nat i) T → T !! i = Some e →
    arp_table s' = <[i:=resolved_entry ip n A]> T → moves live' (ae_q e) s s' →
    etharp_cached_entry s' = etharp_cached_entry s → flushed s s' f (ae_q e) a A →
    updated live' s n f ip a A fl ERR_OK s'.

Lemma update_run s live own n f ip a A fl : ninv s live own → netifs s !! n = Some f → is_u32 ip →
  Some <$> A = seg (data (pb s)) a 6 →
  ∃ r s' live', etharp_update_arp_entry s n ip (EMem a) fl = Clean (r, s') ∧ ninv s' live' own ∧ live' ⊆ live ∧
    updated live' s n f ip a A fl r s'.
Proof.
  intros Hi Hf Hip HA. pose proof (load_val 6 _ _ _ HA) as Hload.
  assert (mapped (data (pb s)) a 6) as Hm.
  { intros x Hx. assert (seg (data (pb s)) a 6 !! Z.to_nat (x - a) = Some (data (pb s) !! x)) as Hs.
    { rewrite seg_lookup by lia. do 2 f_equal. lia. }
    rewrite <- HA, list_lookup_fmap in Hs. destruct (A !! Z.to_nat (x - a)); [|done]. injection Hs as <-. eauto. }
  assert (mac_ok A) as HAok.
  { split; [|by apply (load_bytes _ _ _ _ (mo_bytes _ (ni_mem _ _ _ Hi)) Hload)].
    apply (f_equal length) in HA. by rewrite length_fmap, seg_length in HA. }
  assert (n ≠ NULL) as Hn0 by apply (lo_netif _ _ _ _ (ni_links _ _ _ Hi) _ _ Hf).
  unfold etharp_update_arp_entry, get_netif. rewrite Hf. out_simp.
  rewrite (nf_ok_len _ (proj2 (lo_netif _ _ _ _ (ni_links _ _ _ Hi) _ _ Hf))). cbn [Z.eqb Pos.eqb ETH_HWADDR_LEN]. out_simp.
  destruct (non_unicast f ip) eqn:Hnu; [exists ERR_ARG, s, live; split_and!; try done; by constructor|].
  destruct (find_entry_run s live own ip fl n Hi Hip) as (r & s1 & live1 & -> & Hi1 & Hk1 & Hfound & Hcase). rewrite bind_clean.
  destruct (Z.ltb_spec r 0) as [Hneg|Hpos].
  { destruct Hcase as [->|(i & e & -> & _)]; [|lia]. exists r, s, live1. split_and!; try done; [apply Hk1|].
    inversion Hfound; subst; try lia. by apply updated_none. }
  destruct (found_entry _ _ _ _ _ _ _ (ni_table _ _ _ Hi) Hfound Hpos Hn0) as (i & e & -> & He & Heip & Hen & Huniq & HT & _).
  pose proof (tb_entry _ _ (ni_table _ _ _ Hi1) _ _ He) as Hok.
  rewrite (upd_entry_run _ _ _ _ He), bind_clean, (upd_entry_again _ _ e), bind_clean by done.
  assert (data (pb s1) = data (pb s)) as Hd1 by apply Hk1.
  cbn [rd_eth]. unfold rd. change (Z.to_nat ETH_HWADDR_LEN) with 6%nat. cbn [pb set_arp_table]. rewrite Hd1, Hload, bind_clean.
  do 2 rewrite (upd_entry_again _ _ e), bind_clean by done.
  unfold set_ae_ctime, set_ae_ethaddr, set_ae_netif, set_ae_state. cbn [ae_q ae_ipaddr ae_netif ae_ethaddr ae_ctime ae_state].
  rewrite Heip. change (EtharpEntry (ae_q e) ip n A 0 ETHARP_STATE_STABLE) with (set_ae_q (resolved_entry ip n A) (ae_q e)).
  assert (netifs s1 !! n = Some f) as Hf1 by (by rewrite (kp_netifs _ _ _ _ Hk1)).
  destruct (decide (ae_q e = NULL)) as [Hq|Hq].
  - rewrite Hq. change (set_ae_q (resolved_entry ip n A) NULL) with (resolved_entry ip n A).
    rewrite (send_queued_null _ n i (resolved_entry ip n A)) by (try done; apply list_lookup_insert_eq; by eapply lookup_lt_Some).
    rewrite bind_clean. eexists ERR_OK, _, live1. split_and!; [done| |apply Hk1|].
    + by apply (ninv_entry _ _ _ _ e).
    + eapply updated_ok; try done; rewrite ?Hq.
      * by destruct (kept_moves _ _ NULL _ _ Hk1).
      * apply Hk1.
      * left. split; [done|]. apply Hk1.
  - assert (s1 = s) as ->.
    { destruct Hcase as [?|(j & e0 & Hj & He0 & Hemp)]; [done|]. apply Nat2Z.inj in Hj as <-.
      rewrite He in He0. injection He0 as <-. rewrite (en_q _ _ Hok Hq) in Hemp. done. }
    destruct (send_queued_run s live1 own n f i e ip a A Hi1 Hf He Hq Heip Hen HAok (eq_sym HA) Hm)
      as (s2 & live2 & -> & Hi2 & Hl2 & Hmv & Hc2 & Ht2 & Hfl).
    rewrite bind_clean. exists ERR_OK, s2, live2. split_and!; try done; [etrans; [done|apply Hk1]|].
    by eapply updated_ok.
Qed.
End Res.
