(* ===== verification/EtharpQuery.v ===== *)
(** * Packets that wait for an address

    [etharp_query] sends a packet when the address is known and otherwise keeps it, or a
    copy when it refers to memory the caller may change, on a pending entry. *)
From S2P Require Import Prelude Def Stats Iface Ip4Addr Pbuf PbufChain PbufClient PbufData PbufClone Pcb Netif NetInv EthOut Acd Etharp EtharpInv EtharpTmr EtharpRes.

Section Query.
Context {M : Type} `{PM : PbufAlloc M} {E : NetEnv M}.
Abbreviation pst := (@pst M).
Abbreviation nst := (nst M).

(** ** Packets that can be sent *)

(** Data a [PBUF_REF] or [PBUF_ROM] refers to does not lie in the memory of the allocators. *)
Definition anchored (l : list (Z * pbuf)) : Prop := Forall (λ kv, ¬ contiguous kv.2 →
  ∀ x, payload kv.2 ≤ x < payload kv.2 + len kv.2 → ¬ pa_arena x) l.

Record sendable (s : nst) (q : Z) (b : pbuf) (l : list (Z * pbuf)) : Prop := Sendable {
  sd_head : pbufs (pb s) !! q = Some b;
  sd_chain : chained (pbufs (pb s)) q l;
  sd_packet : packet l;
  sd_whole : whole l;
  sd_ext : anchored l;
  sd_ref : ref b < 255 }.

(** A payload is apart from every other block. *)
Lemma payload_apart st L live p k n q b a m : pa_ok st L → L !! p = Some (k, n) → live ⊆ L → block_ok live q b → q ≠ p →
  (¬ contiguous b → ∀ x, payload b ≤ x < payload b + len b → ¬ pa_arena x) → p ≤ a → a + m ≤ p + n →
  apart a m (payload b) (len b).
Proof.
  intros Hok Hp Hsub Hb Hne Hext Ha Hm. apply apart_pointwise. intros x Hx1 Hx2.
  destruct (decide (contiguous b)) as [Hc|Hc].
  - destruct (bo_live _ _ _ Hb) as (k' & n' & Hl & _ & _ & Hr). destruct (Hr Hc) as [H1 H2].
    pose proof (pa_sep _ _ _ _ _ _ _ _ Hok Hp (lookup_weaken _ _ _ _ Hl Hsub) (not_eq_sym Hne)) as Hd.
    unfold blocks_disjoint, SIZEOF_STRUCT_PBUF in *. lia.
  - apply (Hext Hc x Hx2). apply (pa_region _ _ _ _ _ Hok Hp). lia.
Qed.

Lemma foreign_new s live own q l st p k n a m : ninv s live own → chained (pbufs (pb s)) q l → anchored l →
  pa_ok st (<[p:=(k, n)]> live) → live !! p = None → p ≤ a → a + m ≤ p + n → foreign l a m.
Proof.
  intros Hi Hc Hext Hok Hp Ha Hm. apply Forall_forall. intros [x b] Hin. cbn.
  destruct (chained_elem _ _ _ _ _ Hc Hin) as [_ Hb]. pose proof (i_block _ _ _ (ni_pb _ _ _ Hi) _ _ Hb) as Hbo.
  assert (x ≠ p) as Hne by (destruct (bo_live _ _ _ Hbo) as (? & ? & ? & _); congruence).
  eapply (payload_apart st _ live p k n x b); try done; [apply lookup_insert_eq|by apply insert_subseteq|].
  unfold anchored in Hext. rewrite Forall_forall in Hext. apply (Hext _ Hin).
Qed.

Lemma sendable_cons s live own q b l : ninv s live own → sendable s q b l → ∃ l', l = (q, b) :: l' ∧ q ≠ NULL.
Proof.
  intros Hi [Hb Hc _ _ _ _]. assert (q ≠ NULL) as Hq.
  { intros ->. by rewrite (inv_null _ _ _ (ni_pb _ _ _ Hi)) in Hb. }
  destruct (chained_nonnull _ _ _ Hq Hc) as (b' & l' & -> & Hb' & _). exists l'. split; [congruence|done].
Qed.

(** The head room of the packet is not payload. *)
Lemma sendable_foreign s live own q b l m : ninv s live own → sendable s q b l → add_header_fits q b m false →
  foreign l (payload b - m) m.
Proof.
  intros Hi Hs Hf. destruct (sendable_cons _ _ _ _ _ _ Hi Hs) as (l' & -> & Hq). destruct Hs as [Hb Hc _ _ Hext _].
  destruct (head_room_block _ _ _ _ _ m Hi Hb Hf) as (k & n & Hl & H1 & H2).
  pose proof (chained_NoDup _ _ _ Hc) as Hnd. apply NoDup_cons in Hnd as [Hnin _].
  constructor; [cbn; unfold apart; lia|]. apply Forall_forall. intros [x c] Hin. cbn.
  destruct (chained_elem _ _ _ x c Hc) as [_ Hx]; [by right|].
  eapply (payload_apart (pmem (pb s)) live live q k n x c); try done; [apply Hi|by apply (i_block _ _ _ (ni_pb _ _ _ Hi))| | |lia].
  - intros ->. apply Hnin. by apply (list_elem_of_fmap_2 fst) in Hin.
  - apply Forall_cons in Hext as [_ Hext]. rewrite Forall_forall in Hext. apply (Hext _ Hin).
Qed.

(** The frame a packet goes out in. *)
Definition ip_frame (s : nst) (D S : list Z) (l : list (Z * pbuf)) (F : list Z) : Prop :=
  Some <$> F = (Some <$> (D ++ S ++ le16 (lwip_htons ETHTYPE_IP))) ++ content (data (pb s)) l.

Definition sent (s : nst) (q : Z) (b : pbuf) (l : list (Z * pbuf)) (D S : list Z) (r : Z) (L : list (list Z)) : Prop :=
  (¬ add_header_fits q b 14 false ∧ r = ERR_BUF ∧ L = []) ∨
  (add_header_fits q b 14 false ∧ r = ERR_OK ∧ ∃ F, L = [F] ∧ ip_frame s D S l F).

Lemma transmits_sent s live own q b l D S r L : ninv s live own → sendable s q b l →
  transmits s q b D S ETHTYPE_IP r L → sent s q b l D S r L.
Proof.
  intros Hi Hs [?|(Hf & -> & F & -> & HF)]; [by left|right]. split_and!; [done..|]. exists F. split; [done|].
  pose proof (sendable_foreign _ _ _ _ _ _ 14 Hi Hs Hf) as Hfo. destruct (sendable_cons _ _ _ _ _ _ Hi Hs) as (l' & -> & Hq).
  destruct Hs as [Hb Hc [Ht Hpk] _ _ _]. apply HF; try done.
  pose proof (inv_lens_pos _ _ _ _ _ (ni_pb _ _ _ Hi) Hc) as Hp. apply Forall_cons in Hp as [_ Hp].
  apply lens_nonneg in Hp. cbn [lens] in Ht. lia.
Qed.

(** Chains that differ in their reference counts only. *)
Definition same_but_ref (l l' : list (Z * pbuf)) : Prop :=
  Forall2 (λ x y, y.1 = x.1 ∧ y.2 = set_ref x.2 (ref y.2)) l l'.

Lemma sub_ref_same B B' p l l' : sub_ref B B' → chained B' p l' → chained B p l → same_but_ref l l'.
Proof.
  intros Hs Hc. revert l. induction Hc as [|p b' l' Hp Hb' Hc IH]; intros l H2; [inversion H2; [constructor|done]|].
  destruct (chained_nonnull _ _ _ Hp H2) as (b & l0 & -> & Hb & Hl0).
  destruct (Hs _ _ Hb') as (b0 & Hb0 & Eb & _). assert (b0 = b) as -> by congruence.
  constructor; [done|]. apply IH. rewrite Eb. done.
Qed.

Lemma same_lens l l' : same_but_ref l l' → lens l' = lens l.
Proof. induction 1 as [|[? b] [? b'] l l' [_ Hb] _ IH]; [done|]. cbn in *. rewrite Hb, IH. done. Qed.

Lemma same_content d l l' : same_but_ref l l' → content d l' = content d l.
Proof. induction 1 as [|[? b] [? b'] l l' [_ Hb] _ IH]; [done|]. rewrite !content_cons, IH. cbn in Hb. by rewrite Hb. Qed.

Lemma same_packet l l' : same_but_ref l l' → packet l → packet l'.
Proof.
  induction 1 as [|[? b] [? b'] l l' [_ Hb] Hl IH]; [done|]. intros [Ht Hp]. split; [|auto]. cbn in *.
  rewrite Hb. cbn. by rewrite (same_lens _ _ Hl).
Qed.

Lemma same_whole l l' : same_but_ref l l' → whole l → whole l'.
Proof.
  induction 1 as [|[? b] [? b'] l l' [_ Hb] Hl IH]; [done|]. intros [Ht Hp]. split; [|auto]. cbn in *. rewrite Hb. cbn.
  intros Heq. specialize (Ht Heq). subst l. by inversion Hl.
Qed.

Lemma same_anchored l l' : same_but_ref l l' → anchored l → anchored l'.
Proof.
  induction 1 as [|[? b] [? b'] l l' [_ Hb] Hl IH]; [done|]. intros [H1 H2]%Forall_cons. constructor; [|by apply IH].
  cbn in *. by rewrite Hb.
Qed.

(** Packets other than this one have been freed. *)
Lemma sendable_sub s s' live' own q b l : ninv s' live' own → 0 < own q → sub_ref (pbufs (pb s)) (pbufs (pb s')) →
  sendable s q b l → ∃ b' l', sendable s' q b' l' ∧ same_but_ref l l' ∧ b' = set_ref b (ref b').
Proof.
  intros Hi Hq Hsub [Hb Hc Hpk Hw Hext Href].
  destruct (i_own _ _ _ (ni_pb _ _ _ Hi) q) as [_ [b' Hb']].
  { cbv beta. pose proof (refs_nonneg (arp_table s') q). lia. }
  destruct (i_chain _ _ _ (ni_pb _ _ _ Hi) _ _ Hb') as [l' Hc'].
  pose proof (sub_ref_same _ _ _ _ _ Hsub Hc' Hc) as Hsame.
  destruct (Hsub _ _ Hb') as (b0 & Hb0 & Eb & Hle). assert (b0 = b) as -> by congruence.
  exists b', l'. split_and!; try done. split; try done.
  - by eapply same_packet.
  - by eapply same_whole.
  - by eapply same_anchored.
  - lia.
Qed.

(** A request has been sent. *)
Lemma sendable_quiet live s s' q b l : quiet live s s' → sendable s q b l → sendable s' q b l.
Proof. intros Hqu [? ? ? ? ? ?]. split; rewrite ?(qu_pbufs _ _ _ Hqu); done. Qed.

(** The bytes of a packet that can be sent do not lie in free memory. *)
Lemma sendable_content live own s d' q b l : ninv s live own → sendable s q b l → keeps live (data (pb s)) d' →
  content d' l = content (data (pb s)) l.
Proof.
  intros Hi [Hb Hc _ _ Hext _] Hk. apply content_frame. unfold anchored in Hext. rewrite Forall_forall in Hext |- *.
  intros [x c] Hin. specialize (Hext _ Hin). destruct (chained_elem _ _ _ _ _ Hc Hin) as [_ Hx]. cbn in *.
  apply seg_ext. intros i Hix. apply Hk. intros Ha. destruct (decide (contiguous c)) as [Hcc|Hcc].
  - destruct (bo_live _ _ _ (i_block _ _ _ (ni_pb _ _ _ Hi) _ _ Hx)) as (k & n & Hl & _ & _ & Hr).
    destruct (Hr Hcc). unfold SIZEOF_STRUCT_PBUF in *. exists x, k, n. split; [done|lia].
  - by destruct (Hext Hcc (payload c + i)); [lia|].
Qed.

(** ** Cloning *)

(** Memory has changed in bytes that exist. *)
Lemma ninv_data s live own d' : ninv s live own → (∀ x, is_Some (d' !! x) ↔ is_Some (data (pb s) !! x)) → bytes_ok d' →
  ninv (set_pb s (set_data (pb s) d')) live own.
Proof.
  intros [H1 H2 [M1 M2 M3 M4] H4 H5 H6 H7 H8 H9] Hd Hb. split; try done.
  - destruct H1 as [? ? ? ? ? ? H]. split; try done. intros x Hx. by apply Hd, H.
  - split; try done; cbn.
    + intros p b Hp Hc x Hx. apply Hd. by apply (M1 p b).
    + intros x Hx. apply eq_None_not_Some. intros Hs. apply Hd in Hs. rewrite M3 in Hs by done. by destruct Hs.
Qed.

Lemma copied_bytes d d' a n (C : list (option Z)) : bytes_ok d → same_outside d d' a n → seg d' a n = C →
  (∀ i v, C !! i = Some (Some v) → is_u8 v) → bytes_ok d'.
Proof.
  intros Hb Ho Hs HC x v Hx. destruct (decide (a ≤ x < a + n)) as [Hin|Hout]; [|rewrite Ho in Hx by done; by eapply Hb].
  apply (HC (Z.to_nat (x - a))). rewrite <- Hs, seg_lookup by lia. rewrite <- Hx. do 2 f_equal. lia.
Qed.

Lemma clone_run s live own q b l : ninv s live own → sendable s q b l → ∃ m,
  (pbuf_clone env_custom_free (pb s) PBUF_LINK PBUF_RAM q = Clean (NULL, set_pmem (pb s) m) ∧
   ninv (set_pb s (set_pmem (pb s) m)) live own) ∨
  ∃ p cap d', let c := ram_pbuf p PBUF_LINK (lens l) in let s1 := set_data (upd (set_pmem (pb s) m) p c) d' in
    p ≠ NULL ∧ pbuf_clone env_custom_free (pb s) PBUF_LINK PBUF_RAM q = Clean (p, s1) ∧
    pbufs (pb s) !! p = None ∧ live !! p = None ∧ ninv (set_pb s s1) (<[p:=(SrcHeap, cap)]> live) (add_own own p 1) ∧
    content d' [(p, c)] = content (data (pb s)) l ∧ keeps live (data (pb s)) d' ∧
    (∀ x, is_Some (data (pb s) !! x) → is_Some (d' !! x)).
Proof.
  intros Hi Hs. destruct (sendable_cons _ _ _ _ _ _ Hi Hs) as (l' & Hl & Hq). pose proof Hs as [Hb Hc Hpk Hw Hext _].
  assert (tot_len b = lens l) as Htot by (rewrite Hl in Hpk |- *; apply Hpk).
  pose proof (bo_tot _ _ _ (i_block _ _ _ (ni_pb _ _ _ Hi) _ _ Hb)) as Hu. rewrite Htot in Hu.
  unfold pbuf_clone. rewrite (get_run _ _ _ Hb), bind_clean, Htot.
  destruct (ninv_alloc_ram s live own PBUF_LINK (lens l) Hi) as (m & [[-> Hi1]|(p & cap & Hp & -> & HB & Hlv & Hi1)]); [done|done|..].
  { exists m. left. rewrite bind_clean. done. }
  exists m. right. rewrite bind_clean, (proj2 (Z.eqb_neq p NULL)) by done. set (c := ram_pbuf p PBUF_LINK (lens l)) in *.
  set (s1 := upd (set_pmem (pb s) m) p c) in *. assert (pbufs s1 !! p = Some c) as Hcp by apply lookup_insert_eq.
  assert (chained (pbufs s1) q l) as Hc1.
  { apply chained_insert; [|done]. intros Hin. apply list_elem_of_fmap in Hin as ([x y] & -> & Hin).
    destruct (chained_elem _ _ _ _ _ Hc Hin) as [_ Hx]. cbn in HB. congruence. }
  destruct (bo_live _ _ _ (i_block _ _ _ (ni_pb _ _ _ Hi1) _ _ Hcp)) as (k & n & Hlz & _ & _ & Hr).
  rewrite lookup_insert_eq in Hlz. injection Hlz as <- <-. destruct (Hr (ram_contiguous _ _ _)) as [Hr1 Hr2].
  pose proof (i_alloc _ _ _ (ni_pb _ _ _ Hi1)) as Hpa. unfold SIZEOF_STRUCT_PBUF in Hr1. unfold is_u16 in Hu.
  assert (foreign l (payload c) (len c)) as Hfo by (eapply foreign_new; [exact Hi|done|done|exact Hpa|done|lia|done]).
  destruct (pbuf_copy_run s1 p c q l) as (d' & -> & H1 & H2 & H3); try done.
  { exact (ninv_readable _ _ _ _ _ Hi1 Hc1). }
  { by rewrite Hl. }
  { by apply Hu. }
  { exact (ninv_mapped _ _ _ _ _ Hi1 Hcp). }
  rewrite bind_clean. change (ERR_OK =? ERR_OK) with true. out_simp. exists p, cap, d'.
  change (data s1) with (data (pb s)) in *. split_and!; try done.
  - apply (ninv_data (set_pb s s1)); [done| |].
    + intros x. split; [|apply H3]. destruct (decide (payload c ≤ x < payload c + len c)) as [Hin|Hout].
      * intros _. by apply (ninv_mapped _ _ _ _ _ Hi1 Hcp).
      * by rewrite H2.
    + eapply copied_bytes; [apply (mo_bytes _ (ni_mem _ _ _ Hi))|exact H2|exact H1|]. intros i v. apply content_u8.
      apply (mo_bytes _ (ni_mem _ _ _ Hi)).
  - change (content d' [(p, c)] = content (data (pb s)) l). rewrite content_cons, H1. unfold content at 2. cbn. by rewrite app_nil_r.
  - eapply keeps_new; [exact Hpa|done|]. intros x Hx. apply H2. lia.
Qed.

(** ** Keeping a packet on an entry *)

Lemma copy_needed_run fuel : ∀ (s : pst) q l, chained (pbufs s) q l → whole l → (length l ≤ fuel)%nat →
  copy_needed_loop fuel s q = Clean (existsb (λ kv, PBUF_NEEDS_COPY kv.2) l).
Proof.
  induction fuel as [|fuel IH]; intros s q l Hc Hw Hf; destruct Hc as [|q b l Hq Hb Hc]; cbn [length] in Hf; try done; [lia|].
  cbn [copy_needed_loop existsb snd]. rewrite (proj2 (Z.eqb_neq q NULL)), (get_run _ _ _ Hb) by done. out_simp.
  destruct Hw as [Hw0 Hw]. replace (negb (len b =? tot_len b) || (next b =? NULL))%bool with true.
  2:{ destruct (Z.eqb_spec (len b) (tot_len b)) as [He|]; [|done]. rewrite (Hw0 He) in Hc. by inversion Hc. }
  out_simp. destruct (PBUF_NEEDS_COPY b); [done|]. apply IH; [done..|lia].
Qed.

(** The packet on entry [i] is replaced by [p]. *)
Lemma replace_queued s live own i e p : ninv s live own → arp_table s !! i = Some e →
  ae_state e = ETHARP_STATE_PENDING → 0 < own p →
  ∃ s' live', (s ← (if negb (ae_q e =? NULL)
      then '(_, s) ← withp s (λ x, pbuf_free env_custom_free x (ae_q e)); mret s else mret s);
    s ← upd_entry s (Z.of_nat i) (λ e, set_ae_q e p); mret (ERR_OK, s)) = Clean (ERR_OK, s') ∧
    ninv s' live' (add_own own p (-1)) ∧ kept live live' s s' ∧ arp_table s' = <[i:=set_ae_q e p]> (arp_table s).
Proof.
  intros Hi He Hst Hp. assert ((i < length (arp_table s))%nat) as Hlt by (by eapply lookup_lt_Some).
  destruct (Z.eqb_spec (ae_q e) NULL) as [Hq|Hq]; cbn [negb].
  { rewrite bind_ret_l, (upd_entry_run _ _ _ _ He), bind_clean. eexists _, live. split_and!; [done| |apply kept_table|done].
    by apply (ninv_give _ _ _ _ e). }
  pose proof (tb_entry _ _ (ni_table _ _ _ Hi) _ _ He) as [O1 O2 O3 O4 O5 O6].
  assert (ninv (set_arp_table s (<[i:=set_ae_q e NULL]> (arp_table s))) live (add_own own (ae_q e) 1)) as Hi1.
  { apply (ninv_take _ _ _ _ e); try done. congruence. }
  destruct (ninv_free _ live _ (ae_q e) Hi1) as (c & x & live' & Hf & Hi2 & Hd & Hl & Hs).
  { unfold add_own. rewrite decide_True by done. pose proof (ni_own _ _ _ Hi (ae_q e)). lia. }
  rewrite (withp_run s (λ x, pbuf_free env_custom_free x (ae_q e)) c x) by exact Hf. out_simp.
  rewrite (upd_entry_run (set_pb s x) i e) by done. out_simp. cbn [arp_table set_pb].
  eexists _, live'. split_and!; [done| |split; try done; exact Hd|done].
  assert (ninv (set_pb (set_arp_table s (<[i:=set_ae_q e NULL]> (arp_table s))) x) live' own) as Hi3.
  { apply (ninv_own_ext _ _ _ _ Hi2). intros y. unfold add_own. case_decide; lia. }
  pose proof (ninv_give _ _ _ i (set_ae_q e NULL) p Hi3) as Hg. cbn [arp_table set_arp_table set_pb] in Hg.
  rewrite list_insert_insert_eq in Hg. apply Hg; [by apply list_lookup_insert_eq|done..].
Qed.

(** What waits on the entry: the packet itself or a copy of its bytes. *)
Definition waits (s s' : nst) (q : Z) (l : list (Z * pbuf)) (p : Z) : Prop :=
  if existsb (λ kv, PBUF_NEEDS_COPY kv.2) l
  then p ≠ q ∧
    ∃ l', chained (pbufs (pb s')) p l' ∧ content (data (pb s')) l' = content (data (pb s)) l
  else p = q.

Lemma kept_links live live' (s s' : nst) : kept live live' s s' → same_links s s'.
Proof. intros Hk. exact (moves_links _ _ _ _ (kept_moves _ _ NULL _ _ Hk)). Qed.

Lemma query_queue_run s live own i e q b l : ninv s live own → arp_table s !! i = Some e →
  ae_state e = ETHARP_STATE_PENDING → sendable s q b l →
  ∃ r s' live', query_queue s (Z.of_nat i) q = Clean (r, s') ∧ ninv s' live' own ∧ same_links s s' ∧
    frames s' = frames s ∧ etharp_cached_entry s' = etharp_cached_entry s ∧
    ((r = ERR_MEM ∧ stat_etharp s' = proto_inc Memerr (stat_etharp s) ∧ arp_table s' = arp_table s) ∨
     (r = ERR_OK ∧ stat_etharp s' = stat_etharp s ∧
       ∃ p, p ≠ NULL ∧ arp_table s' = <[i:=set_ae_q e p]> (arp_table s) ∧ waits s s' q l p)).
Proof.
  intros Hi He Hst Hs. pose proof Hs as [Hb Hc Hpk Hw Hext Href].
  unfold query_queue. rewrite (copy_needed_run _ _ _ l Hc Hw) by (pose proof (chained_length _ _ _ Hc); unfold chain_fuel; lia).
  rewrite bind_clean. unfold waits. destruct (existsb _ l) eqn:Hcopy.
  - destruct (clone_run s live own q b l Hi Hs) as (m & [[Hcl Hi1]|(p & cap & d' & Hp & Hcl & HB & Hlv & Hi1 & Hct & Hkp & Hmp)]);
      rewrite (withp_run s (λ x, pbuf_clone env_custom_free x PBUF_LINK PBUF_RAM q) _ _ Hcl), bind_clean.
    { change (NULL =? NULL) with true. cbn [negb]. eexists _, _, live. split_and!; [done|by apply ninv_etharp_stat|by split|done|done|by left]. }
    rewrite (proj2 (Z.eqb_neq p NULL)) by done. cbn [negb].
    set (c := ram_pbuf p PBUF_LINK (lens l)) in *. set (s1 := set_data (upd (set_pmem (pb s) m) p c) d') in *.
    rewrite (get_entry_run (set_pb s s1) i e He), bind_clean.
    destruct (replace_queued (set_pb s s1) _ _ i e p Hi1 He Hst) as (s' & live' & -> & Hi2 & Hk & Ht).
    { unfold add_own. rewrite decide_True by done. pose proof (ni_own _ _ _ Hi p). lia. }
    exists ERR_OK, s', live'. split_and!; [done| | | | |].
    + apply (ninv_own_ext _ _ _ _ Hi2). intros x. unfold add_own. case_decide; lia.
    + eapply same_links_trans; [|by eapply kept_links]. by split.
    + apply Hk.
    + apply Hk.
    + right. split; [done|]. split; [apply Hk|]. exists p. split_and!; [done|done|congruence|].
      assert (is_Some (pbufs (pb s') !! p)) as [b' Hb'].
      { apply (i_own _ _ _ (ni_pb _ _ _ Hi2)). cbv beta. unfold add_own at 1. rewrite decide_True by done.
        pose proof (refs_lookup (arp_table s') i (set_ae_q e p)) as Hrl. cbn [ae_q set_ae_q] in Hrl.
        rewrite Ht in Hrl at 1. specialize (Hrl ltac:(apply list_lookup_insert_eq; by eapply lookup_lt_Some) Hp).
        pose proof (ni_own _ _ _ Hi p). unfold add_own. rewrite decide_True by done. lia. }
      destruct (i_chain _ _ _ (ni_pb _ _ _ Hi2) _ _ Hb') as [l' Hl']. exists l'. split; [done|].
      assert (chained (pbufs s1) p [(p, c)]) as Hc1 by (apply arp_chain; [done|apply lookup_insert_eq|done]).
      rewrite (same_content _ _ _ (sub_ref_same _ _ _ _ _ (kp_sub _ _ _ _ Hk) Hl' Hc1)).
      rewrite (kp_data _ _ _ _ Hk). exact Hct.
  - destruct (pbuf_ref_run (pb s) live _ q b (ni_pb _ _ _ Hi) Hb Href) as [-> Hi1]. rewrite !bind_clean, bind_ret_l.
    set (s1 := upd (pb s) q (set_ref b (ref b + 1))) in *.
    assert (q ≠ NULL) as Hq by (destruct (sendable_cons _ _ _ _ _ _ Hi Hs) as (? & _ & ?); done).
    rewrite (proj2 (Z.eqb_neq q NULL)) by done. cbn [negb]. rewrite (get_entry_run (set_pb s s1) i e He), bind_clean.
    assert (ninv (set_pb s s1) live (add_own own q 1)) as Hi2.
    { destruct Hi as [H1 H2 H3 H4 H5 H6 H7 H8 H9]. split; try done.
      - apply (inv_own_ext _ _ _ _ Hi1). intros x. cbn [arp_table set_pb]. unfold add_own. case_decide; lia.
      - intros x. unfold add_own. specialize (H2 x). case_decide; lia.
      - destruct H3 as [M1 M2 M3 M4]. split; try done. cbn [pb set_pb s1 upd pbufs set_pbufs data].
        intros p c [[<- <-]|[Hne Hp]]%lookup_insert_Some Hnc; [by apply (M1 q b)|by apply (M1 p c)]. }
    destruct (replace_queued (set_pb s s1) _ _ i e q Hi2 He Hst) as (s' & live' & -> & Hi3 & Hk & Ht).
    { unfold add_own. rewrite decide_True by done. pose proof (ni_own _ _ _ Hi q). lia. }
    exists ERR_OK, s', live'. split_and!; [done| | | | |].
    + apply (ninv_own_ext _ _ _ _ Hi3). intros x. unfold add_own. case_decide; lia.
    + eapply same_links_trans; [|by eapply kept_links]. by split.
    + apply Hk.
    + apply Hk.
    + right. split; [done|]. split; [apply Hk|]. by exists q.
Qed.

(** ** [etharp_query] *)

(** The entry [e] once a request has gone out for it. *)
Definition pending_entry (e : etharp_entry) (n : Z) : etharp_entry :=
  EtharpEntry (ae_q e) (ae_ipaddr e) n (ae_ethaddr e) (ae_ctime e) ETHARP_STATE_PENDING.

Definition request_for (f : netif) (ip : Z) : list Z :=
  arp_frame ethbroadcast (nf_hwaddr f) ARP_REQUEST (nf_hwaddr f) (nf_ip_addr f) ethzero ip.

(** What [etharp_query] does with packet [q], whose bytes are those of [l]. *)
Inductive queried (s : nst) (n : Z) (f : netif) (ip q : Z) (b : pbuf) (l : list (Z * pbuf)) : Z → nst → Prop :=
| queried_arg : non_unicast f ip = true → queried s n f ip q b l ERR_ARG s
| queried_sent i e r L s' : non_unicast f ip = false → arp_table s !! i = Some e → matches (Some ip) n e → is_stable e →
    arp_table s' = arp_table s → etharp_cached_entry s' = Z.of_nat i → frames s' = frames s ++ L →
    sent s q b l (ae_ethaddr e) (nf_hwaddr f) r L → queried s n f ip q b l r s'
| queried_waits i e T r s1 s' : non_unicast f ip = false → found (arp_table s) ip ETHARP_FLAG_TRY_HARD n (Z.of_nat i) T →
    T !! i = Some e → ¬ is_stable e → etharp_cached_entry s' = etharp_cached_entry s →
    attempts s s1 (if decide (ae_state e = ETHARP_STATE_EMPTY) then [request_for f ip] else []) → frames s' = frames s1 →
    ((r = ERR_MEM ∧ stat_etharp s' = proto_inc Memerr (stat_etharp s1) ∧ arp_table s' = <[i:=pending_entry e n]> T) ∨
     (r = ERR_OK ∧ stat_etharp s' = stat_etharp s1 ∧ ∃ p, p ≠ NULL ∧ arp_table s' = <[i:=set_ae_q (pending_entry e n) p]> T ∧ waits s s' q l p)) →
    queried s n f ip q b l r s'.

Lemma same_existsb g l l' : (∀ b r, g (set_ref b r) = g b) → same_but_ref l l' →
  existsb (λ kv : Z * pbuf, g kv.2) l' = existsb (λ kv, g kv.2) l.
Proof.
  intros Hg. induction 1 as [|[? b] [? b'] l l' [_ Hb] _ IH]; [done|]. cbn [existsb]. rewrite IH. f_equal. cbn in *. by rewrite Hb.
Qed.

(** [waits] seen from an earlier state. *)
Lemma waits_before (s s1 s' : nst) q l l1 p : same_but_ref l l1 → content (data (pb s1)) l1 = content (data (pb s)) l →
  waits s1 s' q l1 p → waits s s' q l p.
Proof.
  unfold waits. intros Hsame Hct. rewrite (same_existsb PBUF_NEEDS_COPY _ _ ltac:(done) Hsame), Hct. done.
Qed.

Lemma u8_index i : (i < 10)%nat → u8 (Z.of_nat i) = Z.of_nat i ∧ (Z.of_nat i <? NETIF_ADDR_IDX_MAX) = true.
Proof. intros Hi. split; [apply u8_id; unfold is_u8; lia|]. apply Z.ltb_lt. unfold NETIF_ADDR_IDX_MAX. lia. Qed.

(** The last part of [etharp_query], for an entry that is pending. *)
Lemma query_pending s s1 live1 own i e n f ip q b l T r1 :
  ninv s1 live1 own → 0 < own q → non_unicast f ip = false →
  found (arp_table s) ip ETHARP_FLAG_TRY_HARD n (Z.of_nat i) T → T !! i = Some e → ¬ is_stable e →
  arp_table s1 = <[i:=pending_entry e n]> T → etharp_cached_entry s1 = etharp_cached_entry s → same_links s s1 →
  attempts s s1 (if decide (ae_state e = ETHARP_STATE_EMPTY) then [request_for f ip] else []) →
  (∃ b1 l1, sendable s1 q b1 l1 ∧ same_but_ref l l1 ∧ content (data (pb s1)) l1 = content (data (pb s)) l) →
  ∃ r s' live', (e ← get_entry s1 (Z.of_nat i);
      if est ETHARP_STATE_STABLE <=? est (ae_state e)
      then ethernet_output (set_cached s1 (Z.of_nat i)) n q (EHw n) (ETab (Z.of_nat i)) ETHTYPE_IP
      else if decide (ae_state e = ETHARP_STATE_PENDING) then query_queue s1 (Z.of_nat i) q else mret (r1, s1)) = Clean (r, s') ∧
    ninv s' live' own ∧ same_links s s' ∧ queried s n f ip q b l r s'.
Proof.
  intros Hi Hq Hnu Hfound He Hns Ht Hc Hl Hf (b1 & l1 & Hs & Hsame & Hct).
  assert (arp_table s1 !! i = Some (pending_entry e n)) as He1.
  { rewrite Ht. apply list_lookup_insert_eq. by eapply lookup_lt_Some. }
  rewrite (get_entry_run _ _ _ He1), bind_clean. cbn [ae_state pending_entry]. change (est ETHARP_STATE_STABLE <=? est ETHARP_STATE_PENDING) with false.
  cbn iota. rewrite decide_True by done.
  destruct (query_queue_run s1 live1 own i _ q b1 l1 Hi He1 eq_refl Hs) as (r & s' & live' & -> & Hi' & Hl' & Hf' & Hc' & Hcase).
  exists r, s', live'. split_and!; [done|done|by eapply same_links_trans|].
  eapply queried_waits; [done|exact Hfound|done|done|congruence|exact Hf|exact Hf'|].
  destruct Hcase as [(-> & Hstat & Hta)|(-> & Hstat & p & Hp & Hta & Hw)]; [left; by rewrite Hta, Ht|right].
  rewrite Ht, list_insert_insert_eq in Hta. split; [done|]. split; [done|]. exists p. split_and!; try done. by eapply waits_before.
Qed.

Lemma stable_or e : is_stable e ∨ ae_state e = ETHARP_STATE_EMPTY ∨ ae_state e = ETHARP_STATE_PENDING.
Proof. unfold is_stable. destruct (ae_state e); cbn; auto; left; lia. Qed.

Lemma same_but_ref_refl l : same_but_ref l l.
Proof. induction l as [|[p b] l IH]; constructor; [|done]. split; [done|]. by destruct b. Qed.

Lemma query_run s live own n f ip q b l : ninv s live own → netifs s !! n = Some f → is_u32 ip → 0 < own q →
  sendable s q b l → ∃ r s' live', etharp_query s n ip q = Clean (r, s') ∧ ninv s' live' own ∧ same_links s s' ∧
    queried s n f ip q b l r s'.
Proof.
  intros Hi Hf Hip Hq Hs. destruct (sendable_cons _ _ _ _ _ _ Hi Hs) as (_ & _ & Hq0).
  assert (n ≠ NULL) as Hn0 by apply (lo_netif _ _ _ _ (ni_links _ _ _ Hi) _ _ Hf).
  unfold etharp_query, get_netif. rewrite Hf. out_simp.
  destruct (non_unicast f ip) eqn:Hnu; [exists ERR_ARG, s, live; split_and!; try done; by constructor|].
  destruct (find_entry_run s live own ip ETHARP_FLAG_TRY_HARD n Hi Hip) as (r0 & s1 & live1 & -> & Hi1 & Hk1 & Hfound & Hcase).
  rewrite bind_clean. assert (0 ≤ r0) as Hpos by (inversion Hfound as [| ? [Hz|[Hz _]] |]; [lia|done|done|lia]).
  rewrite (proj2 (Z.ltb_ge r0 0)) by done.
  destruct (found_entry _ _ _ _ _ _ _ (ni_table _ _ _ Hi) Hfound Hpos Hn0) as (i & e & -> & He & Heip & Hen & Huniq & Hnew & Hold).
  assert ((i < 10)%nat) as Hi10 by (rewrite <- (tb_len _ _ (ni_table _ _ _ Hi1)); by eapply lookup_lt_Some).
  destruct (u8_index i Hi10) as [-> ->]. out_simp. rewrite (get_entry_run _ _ _ He), bind_clean.
  rewrite (proj2 (Z.eqb_neq q NULL)) by done.
  pose proof (tb_entry _ _ (ni_table _ _ _ Hi1) _ _ He) as Hok.
  destruct (decide (ae_state e = ETHARP_STATE_EMPTY)) as [Hemp|Hne].
  - rewrite (upd_entry_run _ _ _ _ He), bind_clean, (upd_entry_again _ _ e), !bind_clean, bind_ret_l by done.
    unfold set_ae_netif, set_ae_state. cbn [ae_q ae_ipaddr ae_netif ae_ethaddr ae_ctime ae_state]. fold (pending_entry e n).
    set (s2 := set_arp_table s1 (<[i:=pending_entry e n]> (arp_table s1))).
    assert (netifs s1 !! n = Some f) as Hf1 by (by rewrite (kp_netifs _ _ _ _ Hk1)).
    assert (arp_table s2 !! i = Some (pending_entry e n)) as He2 by (apply list_lookup_insert_eq; by eapply lookup_lt_Some).
    assert (ninv s2 live1 own) as Hi2.
    { destruct (Hnew Hemp) as [Hqe Hct].
      apply (ninv_entry _ _ _ _ e); [done..| |].
      - destruct Hok as [? ? ? ? ? ?]. split; cbn; try done; lia.
      - intros _ j x. cbn [ae_ipaddr ae_netif pending_entry]. rewrite Heip. apply Huniq. }
    rewrite (get_entry_run _ _ _ He2), bind_clean. cbn [ae_state pending_entry]. rewrite bool_decide_eq_true_2 by done. cbn [orb]. out_simp.
    destruct (request_run s2 live1 own n f ip Hi2 Hf1) as (r1 & s3 & -> & Hi3 & Hqu & Hsend). rewrite bind_clean.
    assert (arp_table s3 !! i = Some (pending_entry e n)) as He3 by (by rewrite (qu_table _ _ _ Hqu)).
    rewrite (get_entry_run _ _ _ He3), bind_clean. cbn [negb]. rewrite andb_false_r.
    replace (if negb (r1 =? ERR_OK) then mret (r1, s3) else mret (r1, s3)) with (mret (r1, s3) : out (Z * nst)) by (by case_match).
    rewrite bind_ret_l. destruct (sendable_sub s s1 live1 own q b l Hi1 Hq (kp_sub _ _ _ _ Hk1) Hs) as (b1 & l1 & Hs1 & Hsame & _).
    assert (sendable s2 q b1 l1) as Hs2 by (by destruct Hs1).
    eapply (query_pending s s3 live1 own i e n f ip q b l _ r1); try done.
    + unfold is_stable. rewrite Hemp. cbn. lia.
    + rewrite (qu_table _ _ _ Hqu). done.
    + rewrite (qu_cached _ _ _ Hqu). apply Hk1.
    + eapply same_links_trans; [by eapply kept_links|]. by destruct (quiet_links _ _ _ Hqu).
    + destruct (decide (ae_state e = ETHARP_STATE_EMPTY)); [|done].
      eapply (attempts_same s2 s3); [symmetry; apply Hk1|symmetry; apply Hk1|by eapply attempts_sends|done|done].
    + exists b1, l1. split_and!; [by eapply sendable_quiet|done|].
      rewrite (sendable_content live1 own s2 (data (pb s3)) q b1 l1 Hi2 Hs2 (qu_data _ _ _ Hqu)).
      rewrite (same_content _ _ _ Hsame). cbn [s2 pb set_arp_table]. by rewrite (kp_data _ _ _ _ Hk1).
  - destruct (Hold Hne) as [HT Hm]. assert (s1 = s) as ->.
    { destruct Hcase as [?|(j & e0 & Hj & He0 & Hemp)]; [done|]. apply Nat2Z.inj in Hj as <-.
      rewrite He in He0. injection He0 as <-. done. }
    rewrite bind_ret_l, (get_entry_run _ _ _ He), bind_clean.
    replace (bool_decide (ae_state e = ETHARP_STATE_PENDING) || (est ETHARP_STATE_STABLE <=? est (ae_state e)))%bool
      with true by (by destruct (ae_state e)). out_simp. cbn [orb]. rewrite bind_ret_l.
    destruct (stable_or e) as [Hst|[?|Hpe]]; [|done|].
    + rewrite (get_entry_run _ _ _ He), bind_clean, (proj2 (Z.leb_le _ _) Hst).
      assert (ninv (set_cached s (Z.of_nat i)) live1 own) as Hi2.
      { destruct Hi1. split; try done. cbn. unfold ARP_TABLE_SIZE. lia. }
      destruct (output_run (set_cached s (Z.of_nat i)) live1 own n f q b (ETab (Z.of_nat i)) ETHTYPE_IP Hi2 Hf)
        as (r & s' & D & L & -> & Hi' & Hmv & Ht' & Hc' & _ & Hfr & Htr & HD); [apply Hs|cbn; rewrite Nat2Z.id; split; [lia|by eexists]|].
      exists r, s', live1. split_and!; [done|done|by destruct (moves_links _ _ _ _ Hmv)|].
      eapply queried_sent; [done|exact He|done|done|done|done|exact Hfr|].
      apply (transmits_sent (set_cached s (Z.of_nat i)) live1 own) with (l := l) in Htr; [|done|by destruct Hs].
      destruct Htr as [?|(Hfit & -> & F & -> & HF)]; [by left|right]. split_and!; try done. exists F. split; [done|].
      rewrite (HD (ae_ethaddr e)) in HF; [done| |done]. cbn. rewrite Nat2Z.id, He. split; [lia|done].
    + assert (pending_entry e n = e) as Hpend by (unfold pending_entry; rewrite <- Hen, <- Hpe; by destruct e).
      eapply (query_pending s s live1 own i e n f ip q b l _ ERR_MEM Hi1); try done.
      * unfold is_stable. rewrite Hpe. cbn. lia.
      * rewrite Hpend. by rewrite list_insert_id.
      * rewrite decide_False by done. by apply attempts_none.
      * exists b, l. split_and!; [done|apply same_but_ref_refl|done].
Qed.
End Query.
