(* ===== verification/EtharpOut.v ===== *)
(** * Sending IPv4 packets

    [etharp_output] picks the Ethernet address for the next hop of a packet, from the table
    when it is there, and asks for it otherwise. *)
From S2P Require Import Prelude Def Stats Iface Ip4Addr Pbuf PbufChain PbufClient PbufData PbufClone Pcb Netif NetInv EthOut Acd Etharp EtharpInv EtharpTmr EtharpRes EtharpQuery.

(** The next hop of a packet from [src] to [ip]. *)
Definition next_hop (f : netif) (ip src : Z) : option Z :=
  if ip4_addr_net_eq ip (nf_ip_addr f) (nf_netmask f) || ip4_addr_islinklocal ip || ip4_addr_islinklocal src
  then Some ip
  else if ip4_addr_isany (nf_gw f) then None else Some (nf_gw f).

(** The requests that refresh a stable entry in use. *)
Definition refresh (f : netif) (e : etharp_entry) : list (list Z) :=
  if decide (ae_state e = ETHARP_STATE_STABLE) then
    if decide (ARP_AGE_REREQUEST_USED_BROADCAST ≤ ae_ctime e) then [request_for f (ae_ipaddr e)]
    else if decide (ARP_AGE_REREQUEST_USED_UNICAST ≤ ae_ctime e) then
      [arp_frame (arp_dst_val (nf_ip_addr f) (ae_ethaddr e)) (nf_hwaddr f) ARP_REQUEST (nf_hwaddr f) (nf_ip_addr f)
         ethzero (ae_ipaddr e)]
    else []
  else [].

(** An entry that answers for [dst] on interface [n]. *)
Definition answers (n dst : Z) (e : etharp_entry) : Prop := is_stable e ∧ ae_netif e = n ∧ ae_ipaddr e = dst.

Lemma answers_b n dst e : ((est ETHARP_STATE_STABLE <=? est (ae_state e)) && (ae_netif e =? n) && (dst =? ae_ipaddr e))%bool = true
  ↔ answers n dst e.
Proof. unfold answers, is_stable. rewrite !andb_true_iff, Z.leb_le, !Z.eqb_eq. intuition congruence. Qed.

Lemma find_stable_spec n dst T : ∀ i,
  (∃ k e, find_stable T i dst n = Some (i + Z.of_nat k) ∧ T !! k = Some e ∧ answers n dst e) ∨
  (find_stable T i dst n = None ∧ ∀ k e, T !! k = Some e → ¬ answers n dst e).
Proof.
  induction T as [|e T IH]; intros i; [by right|]. cbn [find_stable].
  destruct (_ && _ && _) eqn:Hb.
  - left. exists 0%nat, e. rewrite Z.add_0_r. split_and!; [done..|by apply answers_b].
  - assert (¬ answers n dst e) as Hn by (rewrite <- answers_b; by rewrite Hb).
    destruct (IH (i + 1)) as [(k & x & -> & Hk & Hx)|[-> Hno]]; [left|right].
    + exists (S k), x. split_and!; [f_equal; lia|done..].
    + split; [done|]. intros [|k] x; cbn; [by intros [= <-]|apply Hno].
Qed.

Section Out.
Context {M : Type} `{PM : PbufAlloc M} {E : NetEnv M}.
Abbreviation pst := (@pst M).
Abbreviation nst := (nst M).

(** The entry after the refresh requests [L0] have gone out. *)
Definition refreshed (e : etharp_entry) (L0 : list (list Z)) : etharp_entry :=
  if decide (L0 = []) then e else set_ae_state e ETHARP_STATE_STABLE_REREQUESTING_1.

(** The refresh requests of [e] went out, or an error was counted for the lack of memory. *)
Definition refresh_sent (f : netif) (e : etharp_entry) (t : stats_proto) (L0 : list (list Z)) (t' : stats_proto) : Prop :=
  L0 = refresh f e ∨ (L0 = [] ∧ sp_memerr t' = u16 (sp_memerr t + 1)).

Lemma refresh_run s live own n f i e : ninv s live own → netifs s !! n = Some f → arp_table s !! i = Some e →
  ∃ s' L0, (if decide (ae_state e = ETHARP_STATE_STABLE) then
         if ARP_AGE_REREQUEST_USED_BROADCAST <=? ae_ctime e then
           '(r, s) ← etharp_request s n (ae_ipaddr e);
           if r =? ERR_OK then upd_entry s (Z.of_nat i) (λ e, set_ae_state e ETHARP_STATE_STABLE_REREQUESTING_1)
           else mret s
         else if ARP_AGE_REREQUEST_USED_UNICAST <=? ae_ctime e then
           '(r, s) ← etharp_request_dst s n (ae_ipaddr e) (ETab (Z.of_nat i));
           if r =? ERR_OK then upd_entry s (Z.of_nat i) (λ e, set_ae_state e ETHARP_STATE_STABLE_REREQUESTING_1)
           else mret s
         else mret s
       else mret s) = Clean s' ∧ ninv s' live own ∧ moves live NULL s s' ∧ pbufs (pb s') = pbufs (pb s) ∧
    keeps live (data (pb s)) (data (pb s')) ∧
    etharp_cached_entry s' = etharp_cached_entry s ∧ arp_table s' = <[i:=refreshed e L0]> (arp_table s) ∧
    frames s' = frames s ++ L0 ∧ refresh_sent f e (stat_etharp s) L0 (stat_etharp s').
Proof.
  intros Hi Hf He.
  assert (refresh f e = [] → ∃ s' L0, Clean s = Clean s' ∧ ninv s' live own ∧ moves live NULL s s' ∧ pbufs (pb s') = pbufs (pb s) ∧
    keeps live (data (pb s)) (data (pb s')) ∧
    etharp_cached_entry s' = etharp_cached_entry s ∧ arp_table s' = <[i:=refreshed e L0]> (arp_table s) ∧
    frames s' = frames s ++ L0 ∧ refresh_sent f e (stat_etharp s) L0 (stat_etharp s')) as Hid.
  { intros He0. exists s, []. rewrite app_nil_r. unfold refreshed. rewrite decide_True by done. rewrite list_insert_id by done.
    split_and!; try done. by left. }
  destruct (decide (ae_state e = ETHARP_STATE_STABLE)) as [Hst|Hst]; [|apply Hid; unfold refresh; by rewrite decide_False].
  assert (∀ m F, (∃ r s', m = Clean (r, s') ∧ ninv s' live own ∧ quiet live s s' ∧ sends s s' r F) → refresh f e = [F] →
    ∃ s' L0, ('(r, s) ← m; if r =? ERR_OK
        then upd_entry s (Z.of_nat i) (λ e, set_ae_state e ETHARP_STATE_STABLE_REREQUESTING_1) else mret s) = Clean s' ∧
      ninv s' live own ∧ moves live NULL s s' ∧ pbufs (pb s') = pbufs (pb s) ∧ keeps live (data (pb s)) (data (pb s')) ∧
      etharp_cached_entry s' = etharp_cached_entry s ∧ arp_table s' = <[i:=refreshed e L0]> (arp_table s) ∧
      frames s' = frames s ++ L0 ∧ refresh_sent f e (stat_etharp s) L0 (stat_etharp s')) as Hreq.
  { intros m F (r & s' & -> & Hi' & Hqu & Hs) HF. rewrite bind_clean. clear Hid.
    assert (arp_table s' !! i = Some e) as He' by (by rewrite (qu_table _ _ _ Hqu)).
    pose proof (quiet_moves _ NULL _ _ Hqu) as Hmv. destruct Hs as [(-> & Hfr & Hsm)|(-> & Hfr & Hsx)].
    - exists s', []. change (ERR_MEM =? ERR_OK) with false. rewrite app_nil_r. unfold refreshed. rewrite decide_True by done.
      rewrite list_insert_id by done. split_and!; try done; [apply Hqu|apply Hqu|apply Hqu|apply Hqu|right; by rewrite Hsm].
    - change (ERR_OK =? ERR_OK) with true. cbn iota. rewrite (upd_entry_run _ _ _ _ He').
      exists (set_arp_table s' (<[i:=set_ae_state e ETHARP_STATE_STABLE_REREQUESTING_1]> (arp_table s'))), [F].
      split_and!; [done| |by destruct Hmv|apply Hqu|apply Hqu|apply Hqu| |done|by left].
      + destruct (tb_entry _ _ (ni_table _ _ _ Hi') _ _ He') as [O1 O2 O3 O4 O5 O6]. apply (ninv_rekey _ _ _ _ e); try done; [congruence|].
        split; cbn; try done; [|intros _; apply O2; congruence]. intros Hq. specialize (O1 Hq). congruence.
      + cbn. by rewrite (qu_table _ _ _ Hqu). }
  destruct (Z.leb_spec ARP_AGE_REREQUEST_USED_BROADCAST (ae_ctime e)) as [H1|H1%Z.lt_nge].
  - eapply Hreq; [by apply request_run|]. unfold refresh. by rewrite !decide_True.
  - destruct (Z.leb_spec ARP_AGE_REREQUEST_USED_UNICAST (ae_ctime e)) as [H2|H2%Z.lt_nge];
      [|apply Hid; unfold refresh; by rewrite decide_True, !decide_False].
    eapply Hreq; [eapply request_dst_run; [done|done| |]|].
    + cbn. rewrite Nat2Z.id. split; [lia|by eexists].
    + cbn. rewrite Nat2Z.id, He. split; [lia|done].
    + unfold refresh. rewrite decide_True, decide_False, decide_True by done. done.
Qed.

Lemma to_index_run s live own n f q b l i e : ninv s live own → netifs s !! n = Some f → arp_table s !! i = Some e →
  is_stable e → sendable s q b l →
  ∃ r s' L0 L, etharp_output_to_arp_index s n q (Z.of_nat i) = Clean (r, s') ∧ ninv s' live own ∧ moves live q s s' ∧
    etharp_cached_entry s' = etharp_cached_entry s ∧ arp_table s' = <[i:=refreshed e L0]> (arp_table s) ∧
    frames s' = frames s ++ L0 ++ L ∧ refresh_sent f e (stat_etharp s) L0 (stat_etharp s') ∧ sent s q b l (ae_ethaddr e) (nf_hwaddr f) r L.
Proof.
  intros Hi Hf He Hst Hs. unfold etharp_output_to_arp_index. rewrite (get_entry_run _ _ _ He), bind_clean.
  rewrite (proj2 (Z.leb_le _ _) Hst). out_simp.
  destruct (refresh_run s live own n f i e Hi Hf He) as (s1 & L0 & -> & Hi1 & Hm1 & Hpb1 & Hk1 & Hc1 & Ht1 & Hf1 & HL0).
  rewrite bind_clean. assert (sendable s1 q b l) as Hs1 by (destruct Hs; split; rewrite ?Hpb1; done).
  assert (arp_table s1 !! i = Some (refreshed e L0)) as He1.
  { rewrite Ht1. apply list_lookup_insert_eq. by eapply lookup_lt_Some. }
  assert (netifs s1 !! n = Some f) as Hn1 by (by rewrite (mv_netifs _ _ _ _ Hm1)).
  destruct (output_run s1 live own n f q b (ETab (Z.of_nat i)) ETHTYPE_IP Hi1 Hn1)
    as (r & s' & D & L & -> & Hi' & Hmv & Ht' & Hc' & Hst' & Hfr & Htr & HD); [apply Hs1|cbn; rewrite Nat2Z.id; split; [lia|by eexists]|].
  exists r, s', L0, L. split_and!; try done; try congruence.
  - eapply moves_trans; [|exact Hmv]. destruct Hm1. split; try done. eapply keeps_sub; [|exact Hk1]. apply delete_subseteq.
  - by rewrite Hfr, Hf1, app_assoc.
  - apply (transmits_sent s1 live own) with (l := l) in Htr; [|done|done].
    destruct Htr as [?|(Hfit & -> & F & -> & HF)]; [by left|right]. split_and!; try done. exists F. split; [done|].
    unfold ip_frame in *. rewrite (sendable_content _ _ _ _ _ _ _ Hi Hs Hk1) in HF.
    rewrite (HD (ae_ethaddr e)) in HF; [done| |done]. cbn. rewrite Nat2Z.id, He1. split; [lia|].
    unfold refreshed. by case_decide.
Qed.

(** What [etharp_output] does with a packet from [src] to [ip]. *)
Inductive routed (s : nst) (n : Z) (f : netif) (ip src q : Z) (b : pbuf) (l : list (Z * pbuf)) : Z → nst → Prop :=
| routed_broadcast r L s' : ip4_addr_isbroadcast ip f = true → arp_table s' = arp_table s → frames s' = frames s ++ L →
    sent s q b l ethbroadcast (nf_hwaddr f) r L → routed s n f ip src q b l r s'
| routed_multicast r L s' : ip4_addr_isbroadcast ip f = false → ip4_addr_ismulticast ip = true →
    arp_table s' = arp_table s → frames s' = frames s ++ L →
    sent s q b l (multicast_addr ip) (nf_hwaddr f) r L → routed s n f ip src q b l r s'
| routed_nowhere : ip4_addr_isbroadcast ip f = false → ip4_addr_ismulticast ip = false → next_hop f ip src = None →
    routed s n f ip src q b l ERR_RTE s
| routed_known hop i e L0 L r s' : ip4_addr_isbroadcast ip f = false → ip4_addr_ismulticast ip = false →
    next_hop f ip src = Some hop → arp_table s !! i = Some e → answers n hop e → etharp_cached_entry s' = Z.of_nat i →
    arp_table s' = <[i:=refreshed e L0]> (arp_table s) → frames s' = frames s ++ L0 ++ L →
    refresh_sent f e (stat_etharp s) L0 (stat_etharp s') → sent s q b l (ae_ethaddr e) (nf_hwaddr f) r L → routed s n f ip src q b l r s'
| routed_unknown hop r s' : ip4_addr_isbroadcast ip f = false → ip4_addr_ismulticast ip = false →
    next_hop f ip src = Some hop → (∀ j x, arp_table s !! j = Some x → ¬ answers n hop x) →
    queried s n f hop q b l r s' → routed s n f ip src q b l r s'.

Lemma multicast_mac ip : is_u32 ip → mac_ok (multicast_addr ip).
Proof.
  intros Hip. split; [done|]. assert (∀ v, is_u8 (Z.land v 0xff)) as Hff.
  { intros v. change 0xff with (Z.ones 8). rewrite Z.land_ones by lia. unfold is_u8. apply Z.mod_pos_bound. lia. }
  repeat constructor; try apply Hff; try (unfold is_u8; done).
  - change 0x7f with (Z.ones 7). rewrite Z.land_ones by lia. apply Z.mod_pos_bound. lia.
  - change 0x7f with (Z.ones 7). rewrite Z.land_ones by lia.
    pose proof (Z.mod_pos_bound (ip4_addr_get_byte ip 1) (2 ^ 7)). unfold is_u8. lia.
Qed.

Lemma next_hop_run s live own f q b ip src : ninv s live own → pbufs (pb s) !! q = Some b →
  rd32 s (payload b + 12) = Clean src → etharp_next_hop s f q ip = Clean (next_hop f ip src).
Proof.
  intros Hi Hb Hsrc. unfold etharp_next_hop, next_hop. rewrite (get_run _ _ _ Hb), bind_clean, Hsrc, bind_clean.
  destruct (ip4_addr_net_eq _ _ _), (ip4_addr_islinklocal ip), (ip4_addr_islinklocal src), (ip4_addr_isany (nf_gw f)); done.
Qed.

Lemma next_hop_u32 f ip src hop : netif_ok f → is_u32 ip → next_hop f ip src = Some hop → is_u32 hop.
Proof. intros [? ? ? ? ?] Hip. unfold next_hop. repeat case_match; intros [= <-]; done. Qed.

(** Sending straight to an address. *)
Lemma send_val_run s live own n f q b l D : ninv s live own → netifs s !! n = Some f → sendable s q b l → mac_ok D →
  ∃ r s' L, ethernet_output s n q (EHw n) (EVal D) ETHTYPE_IP = Clean (r, s') ∧ ninv s' live own ∧ same_links s s' ∧
    arp_table s' = arp_table s ∧ frames s' = frames s ++ L ∧ sent s q b l D (nf_hwaddr f) r L.
Proof.
  intros Hi Hf Hs HD. destruct (output_run s live own n f q b (EVal D) ETHTYPE_IP Hi Hf (sd_head _ _ _ _ Hs) HD)
    as (r & s' & D' & L & H & Hi' & Hmv & Ht & Hc & _ & Hfr & Htr & HDv).
  exists r, s', L. split_and!; try done; [by eapply moves_links|].
  apply (transmits_sent s live own) with (l := l) in Htr; [|done|done].
  destruct Htr as [?|(Hfit & -> & F & -> & HF)]; [by left|right]. split_and!; try done. exists F. split; [done|].
  by rewrite (HDv D) in HF.
Qed.

Lemma etharp_output_run s live own n f ip src q b l : ninv s live own → netifs s !! n = Some f → is_u32 ip → 0 < own q →
  sendable s q b l → rd32 s (payload b + 12) = Clean src →
  ∃ r s' live', etharp_output s n q ip = Clean (r, s') ∧ ninv s' live' own ∧ same_links s s' ∧
    routed s n f ip src q b l r s'.
Proof.
  intros Hi Hf Hip Hq Hs Hsrc. destruct (sendable_cons _ _ _ _ _ _ Hi Hs) as (_ & _ & Hq0).
  destruct (lo_netif _ _ _ _ (ni_links _ _ _ Hi) _ _ Hf) as [Hn0 Hfok].
  unfold etharp_output, get_netif. rewrite (proj2 (Z.eqb_neq n NULL)), (proj2 (Z.eqb_neq q NULL)), Hf by done. cbn [negb]. out_simp.
  destruct (ip4_addr_isbroadcast ip f) eqn:Hbc.
  { destruct (send_val_run s live own n f q b l ethbroadcast Hi Hf Hs bcast_mac) as (r & s' & L & -> & Hi' & Hl & Ht & Hfr & HL).
    exists r, s', live. split_and!; try done. by eapply routed_broadcast. }
  destruct (ip4_addr_ismulticast ip) eqn:Hmc.
  { destruct (send_val_run s live own n f q b l (multicast_addr ip) Hi Hf Hs (multicast_mac ip Hip)) as (r & s' & L & -> & Hi' & Hl & Ht & Hfr & HL).
    exists r, s', live. split_and!; try done. by eapply routed_multicast. }
  rewrite (next_hop_run _ _ _ _ _ _ _ _ Hi (sd_head _ _ _ _ Hs) Hsrc), bind_clean.
  destruct (next_hop f ip src) as [hop|] eqn:Hhop; [|exists ERR_RTE, s, live; split_and!; try done; by constructor].
  assert (∀ s0 i e, ninv s0 live own → pb s0 = pb s → netifs s0 = netifs s → arp_table s0 = arp_table s → frames s0 = frames s →
    sp_memerr (stat_etharp s0) = sp_memerr (stat_etharp s) → same_links s s0 → etharp_cached_entry s0 = Z.of_nat i →
    arp_table s !! i = Some e → answers n hop e → ∃ r s' live', etharp_output_to_arp_index s0 n q (Z.of_nat i) = Clean (r, s') ∧
      ninv s' live' own ∧ same_links s s' ∧ routed s n f ip src q b l r s') as Hknown.
  { intros s0 i e Hi0 E1 E2 E3 E4 E5 Hl0 Hc0 He Ha.
    destruct (to_index_run s0 live own n f q b l i e Hi0) as (r & s' & L0 & L & -> & Hi' & Hmv & Hc & Ht & Hfr & HL0 & HL);
      [by rewrite E2|by rewrite E3|apply Ha|destruct Hs; split; by rewrite ?E1|].
    exists r, s', live. split_and!; try done; [eapply same_links_trans; [done|by eapply moves_links]|].
    eapply routed_known; try done; [congruence|by rewrite Ht, E3|by rewrite Hfr, E4|unfold refresh_sent in *; by rewrite <- E5|].
    destruct HL as [?|(? & ? & F & ? & HF)]; [by left|right]. split_and!; try done. exists F. split; [done|].
    unfold ip_frame in *. by rewrite E1 in HF. }
  pose proof (ni_cached _ _ _ Hi) as Hc. pose proof (tb_len _ _ (ni_table _ _ _ Hi)) as Hlen. unfold ARP_TABLE_SIZE in Hc.
  assert (∃ c, etharp_cached_entry s = Z.of_nat c ∧ (c < 10)%nat) as (c & Hcz & Hc10)
    by (exists (Z.to_nat (etharp_cached_entry s)); lia).
  destruct (lookup_lt_is_Some_2 (arp_table s) c) as [e He]; [lia|].
  rewrite Hcz, (get_entry_run _ _ _ He), bind_clean.
  destruct (_ && _ && _) eqn:Hb1; [apply answers_b in Hb1|].
  - cbv zeta. change (etharp_cached_entry (ETHARP_STATS_INC Cachehit s)) with (etharp_cached_entry s). rewrite Hcz.
    eapply Hknown; try done. by apply ninv_etharp_stat.
  - destruct (find_stable_spec n hop (arp_table s) 0) as [(k & x & -> & Hx & Ha)|[-> Hno]].
    + rewrite Z.add_0_l. eapply Hknown; try done. apply lookup_lt_Some in Hx.
      destruct Hi. split; try done. cbn. unfold ARP_TABLE_SIZE. lia.
    + destruct (query_run s live own n f hop q b l Hi Hf) as (r & s' & live' & -> & Hi' & Hl & Hqd); [by eapply next_hop_u32|done|done|].
      exists r, s', live'. split_and!; try done. by eapply routed_unknown.
Qed.
End Out.
