(* ===== verification/EtharpIn.v ===== *)
(** * Receiving ARP packets

    [etharp_input] returns a well-formed state, without the packet, for every packet that has
    room for the header; the answers it learns go into the table, and requests
    for the address of the interface are replied to. *)
From S2P Require Import Prelude Def Stats Iface Ip4Addr Pbuf PbufChain PbufClient PbufData PbufClone Pcb Netif NetInv EthOut Acd Etharp EtharpInv EtharpTmr EtharpRes.

(** Is the packet from [sip] to [dip] for the interface, and from it? *)
Definition for_us (f : netif) (dip : Z) : bool := negb (ip4_addr_isany (nf_ip_addr f)) && (dip =? nf_ip_addr f).
Definition from_us (f : netif) (sip : Z) : bool := negb (ip4_addr_isany (nf_ip_addr f)) && (sip =? nf_ip_addr f).

Lemma us_pair f sip dip :
  (if ip4_addr_isany (nf_ip_addr f) then (false, false) else (dip =? nf_ip_addr f, sip =? nf_ip_addr f))
  = (for_us f dip, from_us f sip).
Proof. unfold for_us, from_us. by destruct (ip4_addr_isany (nf_ip_addr f)). Qed.

(** The flags of the update. *)
Definition update_flag (f : netif) (dip : Z) : Z := if for_us f dip then ETHARP_FLAG_TRY_HARD else ETHARP_FLAG_FIND_ONLY.

Section In.
Context {M : Type} `{PM : PbufAlloc M} {E : NetEnv M}.
Abbreviation pst := (@pst M).
Abbreviation nst := (nst M).

Lemma mapped_sub (d : gmap Z Z) a n b m : mapped d a n → a ≤ b → b + m ≤ a + n → mapped d b m.
Proof. intros Hm H1 H2 x Hx. apply Hm. lia. Qed.

Lemma rd8_some (s : nst) a : mapped (data (pb s)) a 1 → ∃ v, rd8 s a = Clean v.
Proof. intros Hm. destruct (load_run 1 _ _ Hm) as (l & Hl & _). exists (of_le l). unfold rd8, rd. change (Z.to_nat 1) with 1%nat. rewrite Hl. by out_simp. Qed.

Lemma rd16_some (s : nst) a : mapped (data (pb s)) a 2 → ∃ v, rd16 s a = Clean v.
Proof. intros Hm. destruct (load_run 2 _ _ Hm) as (l & Hl & _). exists (of_le l). unfold rd16, rd. change (Z.to_nat 2) with 2%nat. rewrite Hl. by out_simp. Qed.

(** [updated] states keep their links. *)
Lemma updated_links live' s n f ip a A fl r s' : updated live' s n f ip a A fl r s' → same_links s s'.
Proof. intros [|?|i e T s1 ? ? ? ? Hm ? ?]; [done..|by eapply moves_links]. Qed.

(** The reply to a request from [sip]: [hdr + 8] holds the sender's address.  Without memory for
    it an error is counted instead. *)
Definition replied (live : gmap Z (asrc * Z)) (s s' : nst) (f : netif) (hdr sip : Z) (L : list (list Z)) : Prop :=
  (L = [] ∧ stat_etharp s' = proto_inc Memerr (stat_etharp s)) ∨ ∃ ED D, L = [arp_frame ED (nf_hwaddr f) ARP_REPLY (nf_hwaddr f) (nf_ip_addr f) D sip] ∧
    ∀ A, eth_fix live s (EMem (hdr + 8)) A → ED = arp_dst_val (nf_ip_addr f) A ∧ D = A.

(** Acting on the message. *)
Lemma act_run s live own n f hdr sip fu fm op : ninv s live own → netifs s !! n = Some f → mapped (data (pb s)) hdr 28 →
  ∃ s' L, (if op =? lwip_htons ARP_REQUEST then
             if (fu && negb fm)%bool then
               f ← get_netif s n;
               '(_, s) ← etharp_raw s n (EHw n) (EMem (hdr + 8)) (EHw n) (nf_ip_addr f)
                           (EMem (hdr + 8)) sip ARP_REPLY;
               mret s
             else mret s
           else if op =? lwip_htons ARP_REPLY then mret s
           else mret (ETHARP_STATS_INC Err s)) = Clean s' ∧ ninv s' live own ∧ same_links s s' ∧
    arp_table s' = arp_table s ∧ etharp_cached_entry s' = etharp_cached_entry s ∧ frames s' = frames s ++ L ∧
    (if decide (op = lwip_htons ARP_REQUEST ∧ fu = true ∧ fm = false) then replied live s s' f hdr sip L else L = []).
Proof.
  intros Hi Hf Hm. destruct (Z.eqb_spec op (lwip_htons ARP_REQUEST)) as [Hop|Hop].
  - destruct fu, fm; cbn [andb negb].
    2:{ unfold get_netif. rewrite Hf. out_simp.
      assert (mapped (data (pb s)) (hdr + 8) 6) as Hm8 by (eapply mapped_sub; [exact Hm|lia..]).
      destruct (etharp_raw_run s live own n (EHw n) (EMem (hdr + 8)) (EHw n) (nf_ip_addr f) (EMem (hdr + 8)) sip ARP_REPLY Hi)
        as (r & s' & -> & Hi' & Hqu & Hcase); [by eexists|cbn; by eexists|done|cbn; by eexists|done|].
      rewrite bind_clean. exists s'. destruct (decide _) as [_|Hd]; [|by destruct Hd].
      assert (∀ L, frames s' = frames s ++ L → replied live s s' f hdr sip L →
        ∃ L, mret s' = Clean s' ∧ ninv s' live own ∧ same_links s s' ∧ arp_table s' = arp_table s ∧
          etharp_cached_entry s' = etharp_cached_entry s ∧ frames s' = frames s ++ L ∧ replied live s s' f hdr sip L) as Hfin.
      { intros L HL Hr. exists L. split_and!; try done; [by eapply quiet_links|apply Hqu|apply Hqu]. }
      destruct Hcase as [(_ & Hfr & Hst)|(_ & _ & ED & ES & S & D & Hfr & E1 & E2 & E3 & E4)].
      { apply (Hfin []); [by rewrite Hfr, app_nil_r|by left]. }
      rewrite (E2 _ (eth_fix_hw live s n f Hf)), (E3 _ (eth_fix_hw live s n f Hf)) in Hfr. eapply Hfin; [exact Hfr|].
      right. exists ED, D. split; [done|]. intros A HA. split; [|by apply E4]. apply E1. unfold arp_dst, arp_dst_val.
      by destruct (ip4_addr_islinklocal (nf_ip_addr f)). }
    all: exists s, []; rewrite app_nil_r, decide_False by (intros (_ & ? & ?); done); split_and!; done.
  - destruct (op =? lwip_htons ARP_REPLY); eexists _, []; rewrite app_nil_r, decide_False by (intros (? & _); done); split_and!; try done.
    by apply ninv_etharp_stat.
Qed.

(** [etharp_input] after conflict detection. *)
Lemma input_tail s live own p n f hdr : ninv s live own → 0 < own p → netifs s !! n = Some f → mapped (data (pb s)) hdr 28 →
  ∃ sip dip A r s2 live2 op s' live' L, rd32 s (hdr + 14) = Clean sip ∧ rd32 s (hdr + 24) = Clean dip ∧
    Some <$> A = seg (data (pb s)) (hdr + 8) 6 ∧ ninv s2 live2 own ∧ live2 ⊆ live ∧
    updated live2 s n f sip (hdr + 8) A (update_flag f dip) r s2 ∧ rd16 s2 (hdr + 6) = Clean op ∧
    (sipaddr ← rd32 s (hdr + 14);
      dipaddr ← rd32 s (hdr + 24);
      f ← get_netif s n;
      let '(for_us, from_us) :=
        if ip4_addr_isany (nf_ip_addr f) then (false, false)
        else (dipaddr =? nf_ip_addr f, sipaddr =? nf_ip_addr f) in
      '(_, s) ← etharp_update_arp_entry s n sipaddr (EMem (hdr + 8))
                  (if for_us then ETHARP_FLAG_TRY_HARD else ETHARP_FLAG_FIND_ONLY);
      opcode ← rd16 s (hdr + 6);
      s ← (if opcode =? lwip_htons ARP_REQUEST then
             if for_us && negb from_us then
               f ← get_netif s n;
               '(_, s) ← etharp_raw s n (EHw n) (EMem (hdr + 8)) (EHw n) (nf_ip_addr f)
                           (EMem (hdr + 8)) sipaddr ARP_REPLY;
               mret s
             else mret s
           else if opcode =? lwip_htons ARP_REPLY then mret s
           else mret (ETHARP_STATS_INC Err s));
      '(_, s) ← withp s (λ q, pbuf_free env_custom_free q p);
      mret s) = Clean s' ∧ ninv s' live' (add_own own p (-1)) ∧ same_links s s' ∧ arp_table s' = arp_table s2 ∧
    etharp_cached_entry s' = etharp_cached_entry s2 ∧ frames s' = frames s2 ++ L ∧
    (if decide (op = lwip_htons ARP_REQUEST ∧ for_us f dip = true ∧ from_us f sip = false)
     then replied live2 s2 s' f hdr sip L else L = []).
Proof.
  intros Hi Hp Hf Hm.
  destruct (rd32_run s live own (hdr + 14) Hi) as (sip & Hsip & Hsu); [eapply mapped_sub; [exact Hm|lia..]|].
  destruct (rd32_run s live own (hdr + 24) Hi) as (dip & Hdip & _); [eapply mapped_sub; [exact Hm|lia..]|].
  destruct (load_run 6 (data (pb s)) (hdr + 8)) as (A & _ & HA); [eapply mapped_sub; [exact Hm|lia..]|].
  destruct (update_run s live own n f sip (hdr + 8) A (update_flag f dip) Hi Hf Hsu HA) as (r & s2 & live2 & Hup & Hi2 & Hsub & Hupd).
  pose proof (updated_links _ _ _ _ _ _ _ _ _ _ Hupd) as Hl2.
  assert (mapped (data (pb s2)) hdr 28) as Hm2 by (intros x Hx; by apply (sl_data _ _ Hl2), Hm).
  destruct (rd16_some s2 (hdr + 6)) as [op Hop]; [eapply mapped_sub; [exact Hm2|lia..]|].
  assert (netifs s2 !! n = Some f) as Hf2 by (destruct Hupd as [|?|? ? ? ? ? ? ? ? Hmv ? ?]; [done..|by rewrite (mv_netifs _ _ _ _ Hmv)]).
  destruct (act_run s2 live2 own n f hdr sip (for_us f dip) (from_us f sip) op Hi2 Hf2 Hm2)
    as (s3 & L & Hact & Hi3 & Hl3 & Ht3 & Hc3 & Hfr3 & HL).
  destruct (ninv_free s3 live2 own p Hi3 Hp) as (c & q & live' & Hfree & Hi4 & Hd4 & _ & _).
  exists sip, dip, A, r, s2, live2, op, (set_pb s3 q), live', L. split_and!; try done.
  - assert (get_netif s n = Clean f) as Hg by (unfold get_netif; by rewrite Hf).
    rewrite Hsip, Hdip, !bind_clean, Hg, bind_clean, us_pair.
    fold (update_flag f dip). rewrite Hup, bind_clean, Hop, bind_clean, Hact, bind_clean.
    rewrite (withp_run s3 (λ x, pbuf_free env_custom_free x p) c q Hfree). by out_simp.
  - eapply same_links_trans; [exact Hl2|]. eapply same_links_trans; [exact Hl3|]. split; try done. cbn. by rewrite Hd4.
Qed.

(** The check of the header. *)
Definition arp_header_ok (hwtype hwlen protolen proto : Z) : bool :=
  negb (negb (hwtype =? lwip_htons LWIP_IANA_HWTYPE_ETHERNET) || negb (hwlen =? ETH_HWADDR_LEN)
       || negb (protolen =? 4) || negb (proto =? lwip_htons ETHTYPE_IP)).

Lemma etharp_input_safe `{HC : !AcdClients} s live own p b n : ninv s live own → 0 < own p → pbufs (pb s) !! p = Some b →
  is_Some (netifs s !! n) → mapped (data (pb s)) (payload b) 28 →
  ∃ s' live', etharp_input s p n = Clean s' ∧ ninv s' live' (add_own own p (-1)) ∧ same_links s s'.
Proof.
  intros Hi Hp Hb [f Hf] Hm. unfold etharp_input. rewrite (proj2 (Z.eqb_neq n NULL)) by apply (lo_netif _ _ _ _ (ni_links _ _ _ Hi) _ _ Hf).
  rewrite (get_run _ _ _ Hb), bind_clean. set (hdr := payload b) in *.
  destruct (rd16_some s hdr) as [hwtype ->]; [eapply mapped_sub; [exact Hm|lia..]|].
  destruct (rd8_some s (hdr + 4)) as [hwlen ->]; [eapply mapped_sub; [exact Hm|lia..]|].
  destruct (rd8_some s (hdr + 5)) as [protolen ->]; [eapply mapped_sub; [exact Hm|lia..]|].
  destruct (rd16_some s (hdr + 2)) as [proto ->]; [eapply mapped_sub; [exact Hm|lia..]|]. rewrite !bind_clean.
  destruct (_ || _ || _ || _).
  - destruct (ninv_free s live own p Hi Hp) as (c & q & live' & Hfree & Hi' & Hd & _).
    erewrite withp_run by exact Hfree. out_simp. eexists _, live'. split_and!; [done|by apply (ninv_same (set_pb s q))|].
    split; try done. cbn. by rewrite Hd.
  - assert (arp_in n hdr (ETHARP_STATS_INC Recv s)) as Hin by (split; [by eexists|done]).
    destruct (acd_arp_reply_safe n hdr _ live own (ninv_etharp_stat Recv _ _ _ Hi) Hin) as (s1 & live1 & -> & Hi1 & Hl1).
    rewrite bind_clean. destruct (arp_in_links _ _ _ _ Hin Hl1) as [[f1 Hf1] Hm1].
    destruct (input_tail s1 live1 own p n f1 hdr Hi1 Hp Hf1 Hm1)
      as (? & ? & ? & ? & ? & ? & ? & s' & live' & ? & _ & _ & _ & _ & _ & _ & _ & -> & Hi' & Hl' & _).
    exists s', live'. split_and!; [done|done|]. eapply same_links_trans; [|exact Hl']. by destruct Hl1.
Qed.

(** ** The fields of a packet *)

Lemma seg_sub d a n (L : list Z) off k : seg d a n = Some <$> L → 0 ≤ off → 0 ≤ k → off + k ≤ n →
  seg d (a + off) k = Some <$> take (Z.to_nat k) (drop (Z.to_nat off) L).
Proof.
  intros Hs H1 H2 H3. rewrite fmap_take, fmap_drop, <- Hs. by rewrite seg_drop, seg_take by lia.
Qed.

Lemma rd_sub (s : nst) a n L off k : seg (data (pb s)) a n = Some <$> L → 0 ≤ off → 0 ≤ k → off + k ≤ n →
  rd s (a + off) k = Clean (take (Z.to_nat k) (drop (Z.to_nat off) L)).
Proof.
  intros Hs H1 H2 H3. unfold rd. apply load_val. rewrite Z2Nat.id by done. symmetry. by apply (seg_sub _ _ n).
Qed.

Lemma htons_inj a b : is_u16 a → is_u16 b → lwip_htons a = lwip_htons b → a = b.
Proof. intros Ha Hb Heq. rewrite <- (lwip_htons_involutive a), <- (lwip_htons_involutive b) by done. by rewrite Heq. Qed.

(** The 28 bytes at [hdr] are an ARP packet. *)
Definition arp_at (s : nst) (hdr op : Z) (S : list Z) (sip : Z) (D : list Z) (dip : Z) : Prop :=
  seg (data (pb s)) hdr 28 = Some <$> arp_packet op S sip D dip.

Lemma arp_fields (s : nst) hdr op S sip D dip : arp_at s hdr op S sip D dip → length S = 6%nat → length D = 6%nat →
  is_u16 op → is_u32 sip → is_u32 dip →
  rd16 s hdr = Clean (lwip_htons LWIP_IANA_HWTYPE_ETHERNET) ∧ rd8 s (hdr + 4) = Clean ETH_HWADDR_LEN ∧
  rd8 s (hdr + 5) = Clean 4 ∧ rd16 s (hdr + 2) = Clean (lwip_htons ETHTYPE_IP) ∧
  rd16 s (hdr + 6) = Clean (lwip_htons op) ∧ rd32 s (hdr + 14) = Clean sip ∧ rd32 s (hdr + 24) = Clean dip ∧
  seg (data (pb s)) (hdr + 8) 6 = Some <$> S.
Proof.
  intros Ha HS HD Hop Hs Hd. unfold arp_at in Ha.
  do 7 (destruct S as [|? S]; try done). do 7 (destruct D as [|? D]; try done).
  unfold rd8, rd16, rd32. rewrite <- (Z.add_0_r hdr) at 1.
  rewrite !(rd_sub s hdr 28 _ _ _ Ha), (seg_sub _ hdr 28 _ 8 6 Ha) by lia. out_simp.
  unfold arp_packet. split_and!; try done.
  - cbn [le16 le32 app take drop Z.to_nat Pos.to_nat Pos.iter_op Nat.add]. unfold mret, out_ret. f_equal.
    apply of_le_le16, lwip_htons_range.
  - unfold mret, out_ret. f_equal. by apply (of_le_le32 sip).
  - unfold mret, out_ret. f_equal. by apply (of_le_le32 dip).
Qed.

(** The update leaves the bytes of a packet alone that does not wait in the table. *)
Lemma updated_bytes live live2 own s n f ip a A fl r s2 p k z x : ninv s live own → ninv s2 live2 own → live2 ⊆ live →
  updated live2 s n f ip a A fl r s2 → 0 < own p → refs (arp_table s) p = 0 → live !! p = Some (k, z) → p ≤ x < p + z →
  live2 !! p = Some (k, z) ∧ data (pb s2) !! x = data (pb s) !! x.
Proof.
  intros Hi Hi2 Hsub Hupd Hp Hrefs Hl Hx.
  assert (live2 !! p = Some (k, z)) as Hl2.
  { destruct (i_own _ _ _ (ni_pb _ _ _ Hi2) p) as [_ [b Hb]]; [cbv beta; pose proof (refs_nonneg (arp_table s2) p); lia|].
    destruct (bo_live _ _ _ (i_block _ _ _ (ni_pb _ _ _ Hi2) _ _ Hb)) as (k' & z' & Hl' & _).
    rewrite (lookup_weaken _ _ _ _ Hl' Hsub) in Hl. congruence. }
  split; [done|]. destruct Hupd as [|?|i e T s2 _ Hfound He _ Hmv _ _]; [done..|].
  apply (mv_data _ _ _ _ Hmv). intros _. exists p, k, z. split; [|done]. rewrite lookup_delete_ne; [done|].
  destruct (found_entry_q _ _ _ _ _ _ _ _ (ni_table _ _ _ Hi) Hfound He) as [Hq|HT].
  - rewrite Hq. intros <-. pose proof (inv_own_null _ _ _ (ni_pb _ _ _ Hi2)) as H0. cbn in H0.
    pose proof (refs_nonneg (arp_table s2) NULL). lia.
  - intros Hq. subst T. assert (ae_q e ≠ NULL) as Hne.
    { intros H0. rewrite H0 in Hq. subst p. pose proof (inv_own_null _ _ _ (ni_pb _ _ _ Hi2)) as Hz. cbn in Hz.
      pose proof (refs_nonneg (arp_table s2) NULL). lia. }
    pose proof (refs_lookup _ _ _ He Hne). rewrite Hq in *. lia.
Qed.

Lemma acd_reply_none s n f hdr sip dip : netifs s !! n = Some f → nf_acd_list f = NULL → rd32 s (hdr + 14) = Clean sip →
  rd32 s (hdr + 24) = Clean dip → acd_arp_reply s n hdr = Clean s.
Proof.
  intros Hf Ha Hs Hd. unfold acd_arp_reply, get_netif. rewrite Hf. out_simp. rewrite Hs, Hd, !bind_clean, Ha. by destruct (acd_fuel s).
Qed.

(** The reply to a request. *)
Definition arp_reply_frame (f : netif) (S : list Z) (sip : Z) : list Z :=
  arp_frame (arp_dst_val (nf_ip_addr f) S) (nf_hwaddr f) ARP_REPLY (nf_hwaddr f) (nf_ip_addr f) S sip.

Lemma etharp_input_run s live own p b n f op S sip D dip k z : ninv s live own → 0 < own p → pbufs (pb s) !! p = Some b →
  live !! p = Some (k, z) → p ≤ payload b → payload b + 28 ≤ p + z → refs (arp_table s) p = 0 →
  netifs s !! n = Some f → nf_acd_list f = NULL → arp_at s (payload b) op S sip D dip →
  mac_ok S → mac_ok D → is_u16 op → is_u32 sip → is_u32 dip →
  ∃ r s1 live1 s' live' L, etharp_input s p n = Clean s' ∧ ninv s' live' (add_own own p (-1)) ∧
    updated live1 (ETHARP_STATS_INC Recv s) n f sip (payload b + 8) S (update_flag f dip) r s1 ∧
    arp_table s' = arp_table s1 ∧ etharp_cached_entry s' = etharp_cached_entry s1 ∧ frames s' = frames s1 ++ L ∧
    (if decide (op = ARP_REQUEST ∧ for_us f dip = true ∧ from_us f sip = false)
     then L = [arp_reply_frame f S sip] ∨ (L = [] ∧ stat_etharp s' = proto_inc Memerr (stat_etharp s1)) else L = []).
Proof.
  intros Hi Hp Hb Hl Hlo Hhi Hrefs Hf Ha Hat HS HD Hop Hsip Hdip. set (hdr := payload b) in *.
  destruct (arp_fields s hdr op S sip D dip Hat (proj1 HS) (proj1 HD) Hop Hsip Hdip) as (R1 & R2 & R3 & R4 & R5 & R6 & R7 & R8).
  unfold etharp_input. rewrite (proj2 (Z.eqb_neq n NULL)) by apply (lo_netif _ _ _ _ (ni_links _ _ _ Hi) _ _ Hf).
  rewrite (get_run _ _ _ Hb), bind_clean. fold hdr. rewrite R1, R2, R3, R4, !bind_clean, !Z.eqb_refl. cbn [negb orb].
  set (s0 := ETHARP_STATS_INC Recv s). assert (ninv s0 live own) as Hi0 by (by apply ninv_etharp_stat).
  rewrite (acd_reply_none s0 n f hdr sip dip Hf Ha R6 R7), bind_clean.
  assert (mapped (data (pb s0)) hdr 28) as Hm.
  { intros x Hx. apply (i_data _ _ _ (ni_pb _ _ _ Hi)). apply (pa_region _ _ _ _ _ (i_alloc _ _ _ (ni_pb _ _ _ Hi)) Hl). lia. }
  destruct (input_tail s0 live own p n f hdr Hi0 Hp Hf Hm)
    as (sip' & dip' & A & r & s2 & live2 & op' & s' & live' & L & T1 & T2 & T3 & Hi2 & Hsub & Hupd & Hop' & -> & Hi' & Hl' & Ht & Hc & Hfr & HL).
  assert (sip' = sip) as -> by (change (rd32 s (hdr + 14) = Clean sip') in T1; rewrite R6 in T1; by injection T1).
  assert (dip' = dip) as -> by (change (rd32 s (hdr + 24) = Clean dip') in T2; rewrite R7 in T2; by injection T2).
  assert (A = S) as -> by (apply (inj (fmap Some)); rewrite T3; exact R8).
  assert (∀ x, hdr ≤ x < hdr + 28 → live2 !! p = Some (k, z) ∧ data (pb s2) !! x = data (pb s) !! x) as Hbytes.
  { intros x Hx. eapply (updated_bytes live live2 own s0); try done. lia. }
  assert (op' = lwip_htons op) as ->.
  { assert (arp_at s2 hdr op S sip D dip) as Hat2.
    { unfold arp_at in *. rewrite <- Hat. apply seg_ext. intros i Hix. apply Hbytes. lia. }
    destruct (arp_fields s2 hdr op S sip D dip Hat2 (proj1 HS) (proj1 HD) Hop Hsip Hdip) as (_ & _ & _ & _ & Q5 & _).
    rewrite Q5 in Hop'. by injection Hop'. }
  exists r, s2, live2, s', live', L. split_and!; try done.
  destruct (decide (op = ARP_REQUEST ∧ _)) as [(-> & Hfu & Hfm)|Hno].
  - rewrite decide_True in HL by done. destruct HL as [?|(ED & D' & -> & HA)]; [by right|left].
    destruct (HA S) as [-> ->]; [|done]. split.
    + rewrite <- R8. apply seg_ext. intros i Hix. apply Hbytes. lia.
    + intros i Hix _. exists p, k, z. destruct (Hbytes i) as [Hb2 _]; [lia|]. split; [done|lia].
  - rewrite decide_False in HL; [done|]. intros (H1 & H2 & H3). apply Hno. split_and!; try done.
    apply htons_inj; done.
Qed.
End In.
