(* ===== verification/EthIn.v ===== *)
(** * Receiving Ethernet frames

    [ethernet_input] of src/lwip/src/netif/ethernet.c and [process_frames] of src/app/app.c, which
    the driver calls with every frame it has read.  Built with [LWIP_ARP] and
    [LWIP_IPV4], without VLAN, PPPoE, IPv6 and [ETH_PAD_SIZE]. *)
From S2P Require Import Prelude Def Stats Iface Ip4Addr Pbuf PbufChain PbufClient PbufData PbufClone Pcb Netif NetInv EthOut Acd Etharp EtharpInv EtharpTmr EtharpRes EtharpQuery EtharpIn.

Definition PBUF_FLAG_LLBCAST : Z := 0x08.
Definition PBUF_FLAG_LLMCAST : Z := 0x10.

Definition set_if_idx (b : pbuf) (v : Z) : pbuf :=
  Pbuf (next b) (payload b) (tot_len b) (len b) (type_internal b) (flags b) (ref b) v.

(** The flag [ethernet_input] sets for the destination address. *)
Definition ll_flag (dest : list Z) : Z :=
  if negb (Z.land (nth 0 dest 0) 1 =? 0) then
    if nth 0 dest 0 =? LL_IP4_MULTICAST_ADDR_0 then
      if (nth 1 dest 0 =? LL_IP4_MULTICAST_ADDR_1) && (nth 2 dest 0 =? LL_IP4_MULTICAST_ADDR_2)
      then PBUF_FLAG_LLMCAST else 0
    else if bool_decide (dest = ethbroadcast) then PBUF_FLAG_LLBCAST else 0
  else 0.

Section EthIn.
Context {M : Type} `{PM : PbufAlloc M} {E : NetEnv M} {II : Ip4Input M}.
Abbreviation pst := (@pst M).
Abbreviation nst := (nst M).

(** [free_and_return:] *)
Definition free_and_return (s : nst) (p : Z) : out (Z * nst) :=
  '(_, s) ← withp s (λ q, pbuf_free env_custom_free q p);
  mret (ERR_OK, s).

Definition ethernet_input (s : nst) (p netif : Z) : out (Z * nst) :=
  b ← get (pb s) p;
  if len b <=? SIZEOF_ETH_HDR then
    free_and_return (ETHARP_STATS_INC Drop (ETHARP_STATS_INC Proterr s)) p
  else
    let ethhdr := payload b in
    type ← rd16 s (ethhdr + 12);
    f ← get_netif s netif;
    let b := if if_idx b =? NETIF_NO_INDEX then set_if_idx b (netif_get_index f) else b in
    dest ← rd s ethhdr ETH_HWADDR_LEN;
    let b := set_flags b (Z.lor (flags b) (ll_flag dest)) in
    let s := set_pb s (upd (pb s) p b) in
    if type =? lwip_htons ETHTYPE_IP then
      if Z.land (nf_flags f) NETIF_FLAG_ETHARP =? 0 then free_and_return s p
      else
        '(r, s) ← withp s (λ q, pbuf_remove_header q p SIZEOF_ETH_HDR);
        if negb (r =? 0) then free_and_return s p
        else s ← ip4_in s p netif; mret (ERR_OK, s)
    else if type =? lwip_htons ETHTYPE_ARP then
      if Z.land (nf_flags f) NETIF_FLAG_ETHARP =? 0 then free_and_return s p
      else
        '(r, s) ← withp s (λ q, pbuf_remove_header q p SIZEOF_ETH_HDR);
        if negb (r =? 0) then free_and_return (ETHARP_STATS_INC Drop (ETHARP_STATS_INC Lenerr s)) p
        else s ← etharp_input s p netif; mret (ERR_OK, s)
    else free_and_return (ETHARP_STATS_INC Drop (ETHARP_STATS_INC Proterr s)) p.

(** [e0netif] is the address of the only interface. *)
Definition process_frames (e0netif : Z) (s : nst) (frame frame_len : Z) : out (Z * nst) :=
  '(p, s) ← withp s (λ q, pbuf_alloc env_custom_free q PBUF_RAW (u16 frame_len) PBUF_POOL);
  if negb (p =? NULL) then
    '(r, s) ← withp s (λ q, pbuf_take q p frame (u16 frame_len));
    if negb (r =? ERR_OK) then
      '(_, s) ← withp s (λ q, pbuf_free env_custom_free q p);
      mret (0, LINK_STATS_INC Drop s)
    else
      '(r, s) ← ethernet_input s p e0netif;
      if negb (r =? ERR_OK) then
        '(_, s) ← withp s (λ q, pbuf_free env_custom_free q p);
        mret (0, LINK_STATS_INC Drop s)
      else mret (0, s)
  else mret (0, LINK_STATS_INC Drop (LINK_STATS_INC Memerr s)).

(** ** Every frame is consumed *)

(** A packet as [process_frames] makes it: buffers of the pool, none empty behind the first;
    [m] bytes from the payload on exist, however short the packet is. *)
Record received (s : nst) (p m : Z) (b : pbuf) (l : list (Z * pbuf)) : Prop := Received {
  rv_chain : chained (pbufs (pb s)) p ((p, b) :: l);
  rv_packet : packet ((p, b) :: l);
  rv_pool : Forall (λ kv, type_internal kv.2 = u8 PBUF_POOL) ((p, b) :: l);
  rv_tail : Forall (λ kv, 0 < len kv.2) l;
  rv_ref : ref b = 1;
  rv_mapped : mapped (data (pb s)) (payload b) m }.

(** The header of 20 bytes or more at [a] is not that of a fragment: its flag for more fragments and its offset are zero. *)
Definition whole_at (s : nst) (a : Z) : Prop := ∀ v, rd16 s (a + 6) = Clean v → Z.land v (lwip_htons 0x3fff) = 0.

(** The frame at [a] does not hold a fragment of an IPv4 packet; too short ones are not looked at. *)
Definition whole_frame (s : nst) (a n : Z) : Prop :=
  rd16 s (a + 12) = Clean (lwip_htons ETHTYPE_IP) → SIZEOF_ETH_HDR + 20 ≤ n → whole_at s (a + SIZEOF_ETH_HDR).

(** What the IPv4 layer must do with a received packet that is not a fragment, of which it may
    read 64 bytes (a header with options and the ports behind it): return, keep the state
    well formed and give up the packet. *)
Class Ip4Layer := ip4_layer_ok s live own p b l n : ninv s live own → 0 < own p → received s p 64 b l →
  is_Some (netifs s !! n) → (20 ≤ len b → whole_at s (payload b)) →
  ∃ s' live', ip4_in s p n = Clean s' ∧ ninv s' live' (add_own own p (-1)) ∧ same_links s s'.

Lemma ninv_upd s live own p b b' : ninv s live own → pbufs (pb s) !! p = Some b → next b' = next b → ref b' = ref b →
  block_ok live p b' → (¬ contiguous b' → mapped (data (pb s)) (payload b') (len b')) →
  ninv (set_pb s (upd (pb s) p b')) live own.
Proof.
  intros [H1 H2 [M1 M2 M3 M4] H4 H5 H6 H7 H8 H9] Hb Hn Hr Hok Hm. split; try done.
  - apply (inv_upd _ live (λ x, own x + refs (arp_table s) x) p b); try done.
    + intros x. apply (i_own _ _ _ H1).
    + intros x. cbn [arp_table set_pb]. rewrite Hr. case_decide; lia.
  - split; try done. cbn [pb set_pb upd set_pbufs pbufs data]. intros q c [[<- <-]|[Hne Hq]]%lookup_insert_Some Hc; [by apply Hm|by apply (M1 q)].
Qed.

Lemma free_return_run s live own p : ninv s live own → 0 < own p →
  ∃ s' live', free_and_return s p = Clean (ERR_OK, s') ∧ ninv s' live' (add_own own p (-1)) ∧ same_links s s'.
Proof.
  intros Hi Hp. destruct (ninv_free s live own p Hi Hp) as (c & q & live' & Hf & Hi' & Hd & _).
  unfold free_and_return. rewrite (withp_run s (λ x, pbuf_free env_custom_free x p) c q Hf). out_simp.
  exists (set_pb s q), live'. split_and!; try done. split; try done. cbn. by rewrite Hd.
Qed.

Lemma ll_flag_custom f dest : Z.land (Z.lor f (ll_flag dest)) 2 = Z.land f 2.
Proof.
  rewrite Z.land_lor_distr_l. replace (Z.land (ll_flag dest) 2) with 0; [apply Z.lor_0_r|].
  unfold ll_flag. repeat case_match; reflexivity.
Qed.

(** The fields [ethernet_input] sets in the first struct. *)
Definition marked (b : pbuf) (f : netif) (dest : list Z) : pbuf :=
  let b := if if_idx b =? NETIF_NO_INDEX then set_if_idx b (netif_get_index f) else b in
  set_flags b (Z.lor (flags b) (ll_flag dest)).

Lemma marked_fields b f dest : next (marked b f dest) = next b ∧ payload (marked b f dest) = payload b ∧
  len (marked b f dest) = len b ∧ tot_len (marked b f dest) = tot_len b ∧ ref (marked b f dest) = ref b ∧
  type_internal (marked b f dest) = type_internal b ∧ is_custom (marked b f dest) = is_custom b.
Proof.
  unfold marked. destruct (if_idx b =? NETIF_NO_INDEX); split_and!; try done;
    unfold is_custom, PBUF_FLAG_IS_CUSTOM; cbn; by rewrite ll_flag_custom.
Qed.

Lemma ninv_marked s live own p b f dest : ninv s live own → pbufs (pb s) !! p = Some b →
  ninv (set_pb s (upd (pb s) p (marked b f dest))) live own.
Proof.
  intros Hi Hb. destruct (marked_fields b f dest) as (E1 & E2 & E3 & E4 & E5 & E6 & E7).
  pose proof (i_block _ _ _ (ni_pb _ _ _ Hi) _ _ Hb) as [B1 B2 B3 B4 (k & z & B5 & B6 & B7 & B8)].
  apply (ninv_upd _ _ _ _ b); try done.
  - split; rewrite ?E3, ?E4, ?E5, ?E7; try done. exists k, z. unfold contiguous in *. rewrite ?E2, ?E3, ?E6. done.
  - unfold contiguous. rewrite E2, E3, E6. by apply (mo_ext _ (ni_mem _ _ _ Hi) p b).
Qed.

Lemma ninv_shrink s live own p b n : ninv s live own → pbufs (pb s) !! p = Some b → 0 < n ≤ len b →
  pbuf_remove_header (pb s) p n = Clean (0, upd (pb s) p (shrink_front b n)) ∧
  ninv (set_pb s (upd (pb s) p (shrink_front b n))) live own.
Proof.
  intros Hi Hb Hn. destruct (remove_header_run (pb s) live _ p b n (ni_pb _ _ _ Hi) Hb) as [H _]; [lia|].
  destruct (H ltac:(lia)) as [Hr Hi']. split; [done|]. apply (ninv_upd _ _ _ _ b); try done.
  - apply (i_block _ _ _ Hi'). apply lookup_insert_eq.
  - intros Hc x Hx. apply (mo_ext _ (ni_mem _ _ _ Hi) p b Hb Hc). pose proof (bo_len _ _ _ (i_block _ _ _ (ni_pb _ _ _ Hi) _ _ Hb)) as Hl.
    cbn [shrink_front payload len set_len set_tot_len set_payload] in Hx. unfold is_u16 in Hl.
    rewrite u16_id in Hx by (unfold is_u16; lia). lia.
Qed.
Context `{HC : !AcdClients} `{HI : !Ip4Layer}.

(** The first struct of a received packet gets new fields. *)
Lemma received_upd s p m m' b l b' : received s p m b l → next b' = next b → type_internal b' = type_internal b →
  ref b' = ref b → tot_len b' = len b' + lens l → mapped (data (pb s)) (payload b') m' →
  received (set_pb s (upd (pb s) p b')) p m' b' l.
Proof.
  intros [H1 [_ H2] H3 H4 H5 H6] Hn Ht Hr Htot Hm. apply chained_inv_cons in H1 as (_ & Hp & Hb & Hc). split; try done.
  - constructor; [done|apply lookup_insert_eq|]. rewrite Hn. apply chained_insert; [|done].
    by apply (chained_next_notin _ _ _ _ Hb).
  - apply Forall_cons in H3 as [H3 H7]. cbn in H3. apply Forall_cons. split; [cbn; congruence|done].
  - congruence.
Qed.

Lemma received_contiguous s p m b l : received s p m b l → Forall (λ kv, contiguous kv.2) ((p, b) :: l).
Proof. intros [_ _ H _ _ _]. apply (Forall_impl _ _ _ H). intros kv Hk. unfold contiguous. by rewrite Hk. Qed.

Lemma received_head s p m b l : received s p m b l → pbufs (pb s) !! p = Some b.
Proof. intros [H _ _ _ _ _]. by apply chained_inv_cons in H as (_ & _ & ? & _). Qed.

Lemma received_tot s p m b l : received s p m b l → tot_len b = len b + lens l.
Proof. intros [_ [H _] _ _ _ _]. exact H. Qed.

Lemma received_marked s p m b l f dest : received s p m b l →
  received (set_pb s (upd (pb s) p (marked b f dest))) p m (marked b f dest) l.
Proof.
  intros Hr. destruct (marked_fields b f dest) as (E1 & E2 & E3 & E4 & E5 & E6 & _).
  apply (received_upd _ _ m m b); try done; [|by rewrite E2; apply Hr].
  rewrite E3, E4. by eapply received_tot.
Qed.

Lemma received_shrink s live own p m b l n : ninv s live own → received s p m b l → 0 ≤ n ≤ len b →
  received (set_pb s (upd (pb s) p (shrink_front b n))) p (m - n) (shrink_front b n) l.
Proof.
  intros Hi Hr Hn. pose proof (i_block _ _ _ (ni_pb _ _ _ Hi) _ _ (received_head _ _ _ _ _ Hr)) as [Hl Ht _ _ _].
  pose proof (received_tot _ _ _ _ _ Hr) as Htot. unfold is_u16 in *.
  pose proof (inv_lens_pos _ _ _ _ _ (ni_pb _ _ _ Hi) (rv_chain _ _ _ _ _ Hr)) as Hpos. apply Forall_cons in Hpos as [_ Hpos].
  apply lens_nonneg in Hpos.
  apply (received_upd _ _ m _ b); try done; cbn [shrink_front tot_len len payload set_tot_len set_len set_payload].
  - rewrite !u16_id by (unfold is_u16; lia). lia.
  - intros x Hx. apply (rv_mapped _ _ _ _ _ Hr). lia.
Qed.

Lemma ethernet_input_run s live own p b l n : ninv s live own → 0 < own p → received s p 78 b l →
  is_Some (netifs s !! n) → whole_frame s (payload b) (len b) →
  ∃ s' live', ethernet_input s p n = Clean (ERR_OK, s') ∧ ninv s' live' (add_own own p (-1)) ∧ same_links s s'.
Proof.
  intros Hi Hp Hrv [f Hf] Hwhole. pose proof (received_head _ _ _ _ _ Hrv) as Hb. pose proof (rv_mapped _ _ _ _ _ Hrv) as Hm.
  unfold ethernet_input. rewrite (get_run _ _ _ Hb), bind_clean.
  assert (∀ s0 live0, ninv s0 live0 own → same_links s s0 → ∃ s' live', free_and_return s0 p = Clean (ERR_OK, s') ∧
    ninv s' live' (add_own own p (-1)) ∧ same_links s s') as Hfree.
  { intros s0 live0 Hi0 Hl0. destruct (free_return_run s0 live0 own p Hi0 Hp) as (s' & live' & H1 & H2 & H3).
    exists s', live'. split_and!; try done. by eapply same_links_trans. }
  destruct (Z.leb_spec (len b) SIZEOF_ETH_HDR) as [|Hlen].
  { apply (Hfree _ live); [by do 2 apply ninv_etharp_stat|done]. }
  destruct (rd16_some s (payload b + 12)) as [ty Hty]; [eapply mapped_sub; [exact Hm|lia..]|]. rewrite Hty, bind_clean.
  unfold get_netif. rewrite Hf. out_simp.
  destruct (load_run 6 (data (pb s)) (payload b)) as (dest & Hd & _); [eapply mapped_sub; [exact Hm|lia..]|].
  change (rd s (payload b) ETH_HWADDR_LEN) with (load (data (pb s)) (payload b) 6). rewrite Hd, bind_clean.
  fold (marked b f dest). set (s1 := set_pb s (upd (pb s) p (marked b f dest))).
  assert (ninv s1 live own) as Hi1 by (by apply ninv_marked).
  assert (pbufs (pb s1) !! p = Some (marked b f dest)) as Hb1 by apply lookup_insert_eq.
  destruct (marked_fields b f dest) as (_ & E2 & E3 & _).
  destruct (ninv_shrink s1 live own p _ SIZEOF_ETH_HDR Hi1 Hb1) as [Hrm Hi2]; [unfold SIZEOF_ETH_HDR in *; lia|].
  pose proof (received_shrink s1 live own p 78 _ l SIZEOF_ETH_HDR Hi1 (received_marked _ _ _ _ _ f dest Hrv)
    ltac:(unfold SIZEOF_ETH_HDR in *; lia)) as Hrv2.
  set (s2 := set_pb s1 _) in Hi2. assert (same_links s s2) as Hl2 by (by split).
  destruct (Z.eqb_spec ty (lwip_htons ETHTYPE_IP)) as [->|]; [|destruct (ty =? lwip_htons ETHTYPE_ARP)].
  - destruct (Z.land (nf_flags f) NETIF_FLAG_ETHARP =? 0); [by apply (Hfree _ live)|].
    rewrite (withp_run s1 (λ q, pbuf_remove_header q p SIZEOF_ETH_HDR) _ _ Hrm), bind_clean. cbn [negb Z.eqb].
    destruct (HI s2 live own p _ l n Hi2 Hp Hrv2) as (s' & live' & H1 & H2 & H3); [by eexists| |].
    { cbn [shrink_front len payload set_len set_tot_len set_payload]. rewrite E2, E3. unfold is_u16 in *.
      pose proof (bo_len _ _ _ (i_block _ _ _ (ni_pb _ _ _ Hi) _ _ Hb)) as Hl16. unfold is_u16, SIZEOF_ETH_HDR in *.
      rewrite u16_id by (unfold is_u16; lia). intros H20. apply (Hwhole Hty). unfold SIZEOF_ETH_HDR. lia. }
    change (set_pb s1 _) with s2. rewrite H1, bind_clean. exists s', live'. split_and!; try done. by eapply same_links_trans.
  - destruct (Z.land (nf_flags f) NETIF_FLAG_ETHARP =? 0); [by apply (Hfree _ live)|].
    rewrite (withp_run s1 (λ q, pbuf_remove_header q p SIZEOF_ETH_HDR) _ _ Hrm), bind_clean. cbn [negb Z.eqb].
    destruct (etharp_input_safe s2 live own p (shrink_front (marked b f dest) SIZEOF_ETH_HDR) n Hi2 Hp) as (s' & live' & H1 & H2 & H3);
      [apply lookup_insert_eq|by eexists| |].
    { cbn [shrink_front payload set_tot_len set_len set_payload]. rewrite E2. eapply mapped_sub; [exact Hm|unfold SIZEOF_ETH_HDR; lia..]. }
    change (set_pb s1 _) with s2. rewrite H1, bind_clean. exists s', live'. split_and!; try done. by eapply same_links_trans.
  - apply (Hfree _ live); [by do 2 apply ninv_etharp_stat|done].
Qed.

(** ** Frames from the driver *)

Lemma chain_separate s live own p l : ninv s live own → chained (pbufs (pb s)) p l → Forall (λ kv, contiguous kv.2) l → separate l.
Proof.
  intros Hi Hc Hcl. pose proof (chained_NoDup _ _ _ Hc) as Hnd.
  assert (∀ x c, (x, c) ∈ l → pbufs (pb s) !! x = Some c) as Hin by (intros x c Hx; apply (chained_elem _ _ _ _ _ Hc Hx)).
  clear Hc. induction l as [|[q b] l IH]; [done|]. apply NoDup_cons in Hnd as [Hnin Hnd]. apply Forall_cons in Hcl as [Hb Hcl].
  cbn in Hb. split; [|apply IH; try done; intros x c Hx; apply Hin; by right].
  apply Forall_forall. intros [x c] Hx. cbn.
  pose proof (i_block _ _ _ (ni_pb _ _ _ Hi) _ _ (Hin q b ltac:(by left))) as Hbo.
  destruct (bo_live _ _ _ Hbo) as (k & z & Hl & _ & _ & Hr). destruct (Hr Hb).
  eapply (payload_apart (pmem (pb s)) live live q k z x c); try done; [apply Hi| | | |unfold SIZEOF_STRUCT_PBUF in *; lia].
  - apply (i_block _ _ _ (ni_pb _ _ _ Hi)). apply Hin. by right.
  - intros ->. apply Hnin. by apply (list_elem_of_fmap_2 fst) in Hx.
  - intros Hnc. rewrite Forall_forall in Hcl. by destruct Hnc; apply (Hcl _ Hx).
Qed.

(** Data outside the memory of the allocators is apart from every packet of the pool. *)
Lemma outside_foreign s live own p l a n : ninv s live own → chained (pbufs (pb s)) p l → Forall (λ kv, contiguous kv.2) l →
  (∀ x, a ≤ x < a + n → ¬ pa_arena x) → foreign l a n.
Proof.
  intros Hi Hc Hcl Hout. apply Forall_forall. intros [x c] Hx. cbn. rewrite Forall_forall in Hcl.
  destruct (chained_elem _ _ _ _ _ Hc Hx) as [_ Hb].
  destruct (bo_live _ _ _ (i_block _ _ _ (ni_pb _ _ _ Hi) _ _ Hb)) as (k & z & Hl & _ & _ & Hr). destruct (Hr (Hcl _ Hx)) as [H1 H2].
  apply apart_pointwise. intros y Hy1 Hy2. apply (Hout y Hy1). unfold SIZEOF_STRUCT_PBUF in H1.
  apply (pa_region _ _ _ _ _ (i_alloc _ _ _ (ni_pb _ _ _ Hi)) Hl). lia.
Qed.

(** Storing bytes in the payload of a packet. *)
Lemma ninv_content s live own p l d' : ninv s live own → chained (pbufs (pb s)) p l → all_mapped d' l →
  (∀ x, (∀ q b, (q, b) ∈ l → ¬ (payload b ≤ x < payload b + len b)) → d' !! x = data (pb s) !! x) →
  (∀ v, Some v ∈ content d' l → is_u8 v) → ninv (set_pb s (set_data (pb s) d')) live own.
Proof.
  intros Hi Hc Hm Hout Hu.
  assert (∀ x, (∃ q b, (q, b) ∈ l ∧ payload b ≤ x < payload b + len b) ∨ d' !! x = data (pb s) !! x) as Hcase.
  { intros x. destruct (decide (Exists (λ kv, payload kv.2 ≤ x < payload kv.2 + len kv.2) l)) as [He|Hn].
    - left. apply Exists_exists in He as ([q b] & Hin & Hx). by exists q, b.
    - right. apply Hout. intros q b Hin Hx. apply Hn. apply Exists_exists. by exists (q, b). }
  apply ninv_data; [done|..].
  - intros x. destruct (Hcase x) as [(q & b & Hin & Hx)|Heq]; [|by rewrite Heq].
    destruct (chained_elem _ _ _ _ _ Hc Hin) as [_ Hb]. split; intros _.
    + by apply (ninv_mapped _ _ _ _ _ Hi Hb).
    + unfold all_mapped in Hm. rewrite Forall_forall in Hm. by apply (Hm _ Hin).
  - intros x v Hv. destruct (Hcase x) as [(q & b & Hin & Hx)|Heq]; [|rewrite Heq in Hv; by apply (mo_bytes _ (ni_mem _ _ _ Hi) x)].
    apply Hu. apply list_elem_of_split in Hin as (l1 & l2 & ->). rewrite content_app, content_cons.
    apply elem_of_app. right. apply elem_of_app. left. apply (list_elem_of_lookup_2 _ (Z.to_nat (x - payload b))).
    rewrite seg_lookup by lia. rewrite <- Hv. do 2 f_equal. lia.
Qed.

Lemma pooled_contiguous l lv : pooled l lv → Forall (λ kv, contiguous kv.2) l.
Proof. intros [H _]. apply (Forall_impl _ _ _ H). intros kv [Hk _]. unfold contiguous. by rewrite Hk. Qed.

Lemma ninv_alloc_pool s live own n : ninv s live own → is_u16 n →
  ∃ r s1, pbuf_alloc env_custom_free (pb s) PBUF_RAW n PBUF_POOL = Clean (r, s1) ∧ data s1 = data (pb s) ∧
  ((r = NULL ∧ ninv (set_pb s s1) live own) ∨
   (r ≠ NULL ∧ ∃ l live' b, ninv (set_pb s s1) live' (add_own own r 1) ∧ received (set_pb s s1) r 592 b l ∧
      lens ((r, b) :: l) = n)).
Proof.
  intros Hi Hn. destruct (alloc_pool_run env_custom_free (pb s) live _ n (ni_pb _ _ _ Hi) Hn) as (r & s1 & Ha & Hd & Hcase).
  exists r, s1. split_and!; [done..|]. pose proof Hi as [H1 H2 [M1 M2 M3 M4] H4 H5 H6 H7 H8 H9].
  destruct Hcase as [(-> & HB & Hi1)|(Hr & l & lv & Hf & Hpk & Hl & Hhr & Hpool)]; [left|right]; split; try done.
  - split; try done. split; cbn [pb set_pb]; rewrite ?Hd, ?HB; done.
  - pose proof (fresh_chain_inv _ _ _ _ _ _ _ Hf Hr) as Hi1. destruct Hf as [_ HB Hc Hlv _ Hfr _].
    pose proof (pooled_contiguous _ _ Hpool) as Hcl.
    destruct (chained_nonnull _ _ _ Hr Hc) as (b & l' & Hl' & Hb & _).
    assert (ninv (set_pb s s1) (ins lv live) (add_own own r 1)) as Hi2.
    { split; try done.
      - apply (inv_own_ext _ _ _ _ Hi1). intros x. unfold add_own. cbn [arp_table set_pb]. case_decide; lia.
      - intros x. unfold add_own. specialize (H2 x). case_decide; lia.
      - split; cbn [pb set_pb]; rewrite ?Hd; try done. intros q c Hq Hnc.
        destruct (decide (q ∈ l.*1)) as [Hin|Hnin].
        + exfalso. apply list_elem_of_fmap in Hin as ([x y] & -> & Hin). destruct (chained_elem _ _ _ _ _ Hc Hin) as [_ Hx].
          rewrite Forall_forall in Hcl. specialize (Hcl _ Hin). cbn in *. assert (c = y) as -> by congruence. done.
        + rewrite HB, ins_notin in Hq by done. by apply (M1 q c). }
    exists l', (ins lv live), b. rewrite Hl' in *. split_and!; try done. destruct Hpool as (Hty & Hlv0 & Htl).
    split; try done; [by apply (Forall_impl _ _ _ Hty); intros kv [? _]|by apply Forall_cons in Hty as [[_ ?] _]|]. pose proof (chained_NoDup _ _ _ Hc) as Hnd. rewrite <- Hlv in Hnd. cbn [head_room] in Hhr.
    destruct lv as [|[q kc] lv]; [done|]. injection Hlv as -> _. apply Forall_cons in Hlv0 as [Hcap _]. cbn in Hcap.
    intros x Hx. cbn [pb set_pb]. rewrite Hd. apply (i_data _ _ _ H1). destruct kc as [k cap]. cbn in Hcap.
    assert (ins ((r, (k, cap)) :: lv) live !! r = Some (k, cap)) as Hlr.
    { apply ins_in; [done|by left]. }
    apply (pa_region _ _ _ _ _ (i_alloc _ _ _ Hi1) Hlr). rewrite Hhr in Hx.
    unfold SIZEOF_STRUCT_PBUF, PBUF_POOL_BUFSIZE_ALIGNED, PBUF_RAW in *. lia.
Qed.

(** [pbuf_take] of the whole packet. *)
Lemma ninv_take_all s live own p l frame : ninv s live own → chained (pbufs (pb s)) p l → p ≠ NULL → packet l →
  Forall (λ kv, contiguous kv.2) l → frame ≠ NULL → mapped (data (pb s)) frame (lens l) →
  (∀ x, frame ≤ x < frame + lens l → ¬ pa_arena x) → lens l < 65536 →
  ∃ d', pbuf_take (pb s) p frame (lens l) = Clean (ERR_OK, set_data (pb s) d') ∧ content d' l = seg (data (pb s)) frame (lens l) ∧
    ninv (set_pb s (set_data (pb s) d')) live own ∧ (∀ x, is_Some (data (pb s) !! x) → is_Some (d' !! x)).
Proof.
  intros Hi Hc Hp Hpk Hcl Hfr Hm Hout Hlt. pose proof (ninv_readable _ _ _ _ _ Hi Hc) as Hr.
  pose proof (wf_lens_nonneg _ (rd_lens _ _ _ Hr)) as Hpos.
  destruct (take_loop_spec l (chain_fuel (pb s)) (pb s) p frame (lens l) 0 Hr) as (d' & H1 & H2 & H3 & H4); rewrite ?Z.add_0_r; try done; try lia.
  { by eapply readable_fuel. }
  { by eapply chain_separate. }
  { by eapply outside_foreign. }
  rewrite Z.add_0_r, drop_ge, app_nil_r in H2 by (rewrite content_length by (by eapply (inv_lens_pos _ _ _ _ _ (ni_pb _ _ _ Hi))); lia).
  destruct (chained_nonnull _ _ _ Hp Hc) as (b & l' & Hl' & Hb & _).
  assert (tot_len b = lens l) as Htot by (rewrite Hl' in Hpk |- *; apply Hpk).
  assert (ninv (set_pb s (set_data (pb s) d')) live own) as Hi'.
  { eapply ninv_content; try done. intros v. rewrite H2. intros (i & Hv)%list_elem_of_lookup_1.
    assert ((i < Z.to_nat (lens l))%nat) as Hlti by (apply lookup_lt_Some in Hv; by rewrite seg_length in Hv).
    rewrite seg_lookup in Hv by done. injection Hv as Hv. by apply (mo_bytes _ (ni_mem _ _ _ Hi) _ _ Hv). }
  exists d'. split_and!; try done.
  - unfold pbuf_take. rewrite (proj2 (Z.eqb_neq _ _) Hp), (proj2 (Z.eqb_neq _ _) Hfr), (get_run _ _ _ Hb). out_simp.
    rewrite (proj2 (Z.ltb_ge (tot_len b) (lens l))) by lia. rewrite H1. out_simp. rewrite Z.add_0_l, !Z.eqb_refl. by out_simp.
  - intros x Hx. destruct (decide (Exists (λ kv, payload kv.2 ≤ x < payload kv.2 + len kv.2) l)) as [He|Hn].
    + apply Exists_exists in He as ([q c] & Hin & Hxc). unfold all_mapped in H3. rewrite Forall_forall in H3. by apply (H3 _ Hin).
    + rewrite H4; [done|]. intros q c Hin Hxc. apply Hn. apply Exists_exists. by exists (q, c).
Qed.

(** The packet holds a copy of the frame. *)
Lemma copied_byte d d' p b l frame i : content d' ((p, b) :: l) = seg d frame (lens ((p, b) :: l)) → Forall (λ kv, 0 ≤ len kv.2) ((p, b) :: l) →
  0 ≤ i < len b → d' !! (payload b + i) = d !! (frame + i).
Proof.
  intros Hc Hpos Hi. apply Forall_cons in Hpos as [Hb Hl]. apply lens_nonneg in Hl. cbn [lens] in Hc.
  apply (f_equal (.!! Z.to_nat i)) in Hc. rewrite content_cons, lookup_app_l, !seg_lookup in Hc by (rewrite ?seg_length; lia).
  rewrite !Z2Nat.id in Hc by lia. by injection Hc.
Qed.

Lemma rd16_ext (s s' : nst) a b : (∀ i, 0 ≤ i < 2 → data (pb s') !! (b + i) = data (pb s) !! (a + i)) → rd16 s' b = rd16 s a.
Proof.
  intros H. unfold rd16, rd. change (Z.to_nat 2) with 2%nat. cbn [load]. pose proof (H 0 ltac:(lia)) as H0. rewrite !Z.add_0_r in H0.
  by rewrite H0, (H 1) by lia.
Qed.

Lemma copied_whole (s s' : nst) p b l frame : content (data (pb s')) ((p, b) :: l) = seg (data (pb s)) frame (lens ((p, b) :: l)) →
  Forall (λ kv, 0 ≤ len kv.2) ((p, b) :: l) → whole_frame s frame (lens ((p, b) :: l)) → whole_frame s' (payload b) (len b).
Proof.
  unfold whole_frame, whole_at, SIZEOF_ETH_HDR. intros Hc Hpos Hw Hty Hlen v Hv. pose proof (λ i, copied_byte _ _ _ _ _ _ i Hc Hpos) as Hb.
  assert (∀ k, 0 ≤ k → k + 2 ≤ len b → rd16 s' (payload b + k) = rd16 s (frame + k)) as Hrd.
  { intros k H1 H2. apply rd16_ext. intros i Hi. rewrite <- !Z.add_assoc. apply Hb. lia. }
  apply Forall_cons in Hpos as [_ Hpos]. apply lens_nonneg in Hpos. cbn [lens] in Hw.
  rewrite Hrd in Hty by lia. rewrite <- Z.add_assoc, Hrd in Hv by lia. apply (Hw Hty); [lia|]. by rewrite <- Z.add_assoc.
Qed.

Lemma process_frames_run s live own n frame frame_len : ninv s live own → is_Some (netifs s !! n) → 0 ≤ frame_len < 65536 →
  frame ≠ NULL → mapped (data (pb s)) frame frame_len → (∀ x, frame ≤ x < frame + frame_len → ¬ pa_arena x) →
  whole_frame s frame frame_len →
  ∃ s' live', process_frames n s frame frame_len = Clean (0, s') ∧ ninv s' live' own ∧ same_links s s'.
Proof.
  intros Hi Hn Hlen Hfr Hm Hout Hwhole. unfold process_frames. rewrite u16_id by done.
  destruct (ninv_alloc_pool s live own frame_len Hi) as (r & s1 & Ha & Hd & Hcase); [done|].
  rewrite (withp_run s (λ q, pbuf_alloc env_custom_free q PBUF_RAW frame_len PBUF_POOL) r s1 Ha), bind_clean.
  destruct Hcase as [[-> Hi1]|(Hr & l & live1 & b & Hi1 & Hrv & Hl)].
  { change (NULL =? NULL) with true. cbn [negb]. eexists _, live. split_and!; [done|by do 2 apply ninv_link_stat|].
    split; try done. cbn. by rewrite Hd. }
  rewrite (proj2 (Z.eqb_neq r NULL)) by done. cbn [negb]. rewrite <- Hl, <- Hd in *.
  destruct (ninv_take_all (set_pb s s1) live1 _ r _ frame Hi1 (rv_chain _ _ _ _ _ Hrv)) as (d' & Ht & Hct & Hi2 & Hs2); try done;
    [apply Hrv|by eapply received_contiguous|lia|].
  rewrite (withp_run (set_pb s s1) (λ q, pbuf_take q r frame (lens ((r, b) :: l))) _ _ Ht), bind_clean.
  change (negb (ERR_OK =? ERR_OK)) with false. cbn iota.
  destruct (ethernet_input_run _ live1 _ r b l n Hi2) as (s' & live' & H1 & H2 & H3); [| |done| |].
  { unfold add_own. rewrite decide_True by done. pose proof (ni_own _ _ _ Hi r). lia. }
  { destruct Hrv. split; try done. intros x Hx. apply Hs2. apply rv_mapped0. lia. }
  { apply (copied_whole (set_pb s s1) (set_pb (set_pb s s1) (set_data (pb (set_pb s s1)) d')) r b l frame Hct).
    - apply (Forall_impl _ _ _ (inv_lens_pos _ _ _ _ _ (ni_pb _ _ _ Hi1) (rv_chain _ _ _ _ _ Hrv))). done.
    - unfold whole_frame, whole_at, rd16, rd in *. cbn [pb set_pb]. by rewrite Hd. }
  change (set_pb (set_pb s s1) (set_data (pb (set_pb s s1)) d')) with (set_pb s (set_data s1 d')) in *.
  rewrite H1, bind_clean. change (negb (ERR_OK =? ERR_OK)) with false. cbn iota. exists s', live'. split_and!; [done| |].
  - apply (ninv_own_ext _ _ _ _ H2). intros x. unfold add_own. case_decide; lia.
  - eapply same_links_trans; [|exact H3]. split; try done. cbn. intros x Hx. apply Hs2. cbn. by rewrite Hd.
Qed.
End EthIn.
