(* ===== verification/Ip4Out.v ===== *)
(** * IPv4 output

    Routing and sending, [ip4_route], [ip4_output_if_src], [ip4_output_if] and [ip4_output] of
    src/lwip/src/core/ipv4/ip4.c.  Built without [IP_FORWARD], [IP_OPTIONS_SEND], loopback,
    hooks and per-interface checksum control; the header checksum is computed
    inline.  [netif->output] is [etharp_output] (src/app/app.c).

    Pointers to addresses are [option Z]: [None] is NULL, which for a destination is
    [LWIP_IP_HDRINCL]. *)
From S2P Require Import Prelude Def Stats Iface Ip4Addr Pbuf Pcb Netif EthOut Etharp.

Definition IP_HLEN : Z := 20.
Definition IP_PROTO_ICMP : Z := 1.
Definition IP_PROTO_TCP : Z := 6.
Definition IP_PROTO_UDP : Z := 17.
Definition NETIF_FLAG_UP : Z := 0x01.
Definition NETIF_FLAG_LINK_UP : Z := 0x04.
Definition NETIF_FLAG_ETHERNET : Z := 0x10.

Definition netif_is_up (f : netif) : bool := negb (Z.land (nf_flags f) NETIF_FLAG_UP =? 0).
Definition netif_is_link_up (f : netif) : bool := negb (Z.land (nf_flags f) NETIF_FLAG_LINK_UP =? 0).

(** [IPH_V] and [IPH_HL_BYTES] of the first byte of a header *)
Definition IPH_V (v_hl : Z) : Z := Z.shiftr v_hl 4.
Definition IPH_HL_BYTES (v_hl : Z) : Z := u8 (Z.land v_hl 0x0f * 4).

(** [ip4_addr_isany] *)
Definition isany_ptr (addr : option Z) : bool :=
  match addr with None => true | Some a => ip4_addr_isany a end.

(** What ip4.c, icmp.c and the layers above have from parts of the stack that are not part of
    this model: fragmentation, reassembly, [tcp_input], the link-local addresses
    [autoip_accept_packet] knows, and the receive functions of the UDP and raw pcbs, by function
    pointer.  A receive function gets the state, its argument, the pcb, the packet, the
    source address and, for UDP, the source port; the one of a raw pcb says whether it
    has eaten the packet. *)
Inductive raw_input_state := RAW_INPUT_NONE | RAW_INPUT_EATEN | RAW_INPUT_DELIVERED.

#[export] Instance raw_input_state_eq_dec : EqDecision raw_input_state.
Proof. solve_decision. Defined.

Class IpUpper (M : Type) := {
  ip4_frag : nst M → Z → Z → Z → out (Z * nst M);
  ip4_reass : nst M → Z → out (Z * nst M);
  raw_recv_fn : Z → nst M → Z → Z → Z → Z → out (Z * nst M);
  udp_recv_fn : Z → nst M → Z → Z → Z → Z → Z → out (nst M);
  tcp_input : nst M → Z → Z → out (nst M) }.

Section Ip4Out.
Context {M : Type} `{PM : PbufAlloc M} {E : NetEnv M} {U : IpUpper M}.
Abbreviation nst := (nst M).

Definition netif_fuel (s : nst) : nat := S (size (netifs s)).

(** ** Routing *)

(** The loop of [ip4_route]: the first usable interface on whose network [dest] lies. *)
Fixpoint ip4_route_loop (fuel : nat) (s : nst) (netif : Z) (dest : option Z) : out Z :=
  if netif =? NULL then mret NULL
  else match fuel with
  | O => NoFuel
  | S fuel' =>
      f ← get_netif s netif;
      if netif_is_up f && netif_is_link_up f && negb (ip4_addr_isany (nf_ip_addr f)) then
        d ← or_fault "dest" dest;
        if ip4_addr_net_eq d (nf_ip_addr f) (nf_netmask f) then mret netif
        else if (Z.land (nf_flags f) NETIF_FLAG_BROADCAST =? 0) && (d =? nf_gw f) then mret netif
        else ip4_route_loop fuel' s (nf_next f) dest
      else ip4_route_loop fuel' s (nf_next f) dest
  end.

(** Whether [netif_default] cannot be used. *)
Definition default_unusable (s : nst) (dest : option Z) : out bool :=
  if netif_default s =? NULL then mret true
  else
    f ← get_netif s (netif_default s);
    if negb (netif_is_up f) || negb (netif_is_link_up f) || ip4_addr_isany (nf_ip_addr f) then mret true
    else d ← or_fault "dest" dest; mret (ip4_addr_isloopback d).

Definition ip4_route (s : nst) (dest : option Z) : out (Z * nst) :=
  n ← ip4_route_loop (netif_fuel s) s (netif_list s) dest;
  if negb (n =? NULL) then mret (n, s)
  else
    bad ← default_unusable s dest;
    if (bad : bool) then mret (NULL, IP_STATS_INC Rterr s)
    else mret (netif_default s, s).

(** [netif_get_by_index] of netif.c *)
Fixpoint netif_index_loop (fuel : nat) (s : nst) (idx netif : Z) : out Z :=
  if netif =? NULL then mret NULL
  else match fuel with
  | O => NoFuel
  | S fuel' =>
      f ← get_netif s netif;
      if idx =? netif_get_index f then mret netif else netif_index_loop fuel' s idx (nf_next f)
  end.

Definition netif_get_by_index (s : nst) (idx : Z) : out Z :=
  if negb (idx =? NETIF_NO_INDEX) then netif_index_loop (netif_fuel s) s idx (netif_list s) else mret NULL.

(** ** Sending *)

(** The header [ip4_output_if_src] writes at [iphdr], with the checksum it sums up on the way. *)
Definition ip4_fill_hdr (s : nst) (iphdr tot_len_p src dest ttl tos proto : Z) : out nst :=
  let chk_sum := 0 in
  s ← wr s (iphdr + 8) [u8 ttl];
  s ← wr s (iphdr + 9) [u8 proto];
  let chk_sum := u32 (chk_sum + lwip_htons (Z.lor proto (Z.shiftl ttl 8))) in
  s ← wr s (iphdr + 16) (le32 dest);
  let chk_sum := u32 (chk_sum + Z.land dest 0xFFFF) in
  let chk_sum := u32 (chk_sum + Z.shiftr dest 16) in
  let v_hl := u8 (Z.lor (Z.shiftl 4 4) (IP_HLEN / 4)) in
  s ← wr s iphdr [v_hl];
  s ← wr s (iphdr + 1) [u8 tos];
  let chk_sum := u32 (chk_sum + lwip_htons (Z.lor tos (Z.shiftl v_hl 8))) in
  s ← wr s (iphdr + 2) (le16 (lwip_htons tot_len_p));
  let chk_sum := u32 (chk_sum + lwip_htons tot_len_p) in
  s ← wr s (iphdr + 6) (le16 0);
  s ← wr s (iphdr + 4) (le16 (lwip_htons (ip_id (ips s))));
  let chk_sum := u32 (chk_sum + lwip_htons (ip_id (ips s))) in
  let s := set_ip_id s (u16 (ip_id (ips s) + 1)) in
  s ← wr s (iphdr + 12) (le32 src);
  let chk_sum := u32 (chk_sum + Z.land src 0xFFFF) in
  let chk_sum := u32 (chk_sum + Z.shiftr src 16) in
  let chk_sum := u32 (Z.shiftr chk_sum 16 + Z.land chk_sum 0xFFFF) in
  let chk_sum := u32 (Z.shiftr chk_sum 16 + chk_sum) in
  let chk_sum := u32 (Z.lnot chk_sum) in
  wr s (iphdr + 10) (le16 (u16 chk_sum)).

(** The end of [ip4_output_if_src]: the packet starts with its header. *)
Definition ip4_transmit (s : nst) (p dest netif : Z) : out (Z * nst) :=
  let s := IP_STATS_INC Xmit s in
  f ← get_netif s netif;
  b ← get (pb s) p;
  if negb (nf_mtu f =? 0) && (nf_mtu f <? tot_len b) then ip4_frag s p netif dest
  else etharp_output s netif p dest.

Definition ip4_output_if_src (s : nst) (p : Z) (src dest : option Z) (ttl tos proto netif : Z) : out (Z * nst) :=
  b ← get (pb s) p;
  _ ← lwip_assert "p->ref == 1" (ref b =? 1);
  match dest with
  | Some d =>
      '(r, s) ← withp s (λ q, pbuf_add_header q p IP_HLEN);
      if negb (r =? 0) then mret (ERR_BUF, IP_STATS_INC Err s)
      else
        b ← get (pb s) p;
        _ ← lwip_assert "check that first pbuf can hold struct ip_hdr" (IP_HLEN <=? len b);
        s ← ip4_fill_hdr s (payload b) (tot_len b) (default IPADDR_ANY src) d ttl tos proto;
        ip4_transmit s p d netif
  | None =>
      if len b <? IP_HLEN then mret (ERR_BUF, IP_STATS_INC Err s)
      else
        d ← rd32 s (payload b + 16);
        ip4_transmit s p d netif
  end.

Definition ip4_output_if (s : nst) (p : Z) (src dest : option Z) (ttl tos proto netif : Z) : out (Z * nst) :=
  f ← get_netif s netif;
  let src_used := match dest with
                  | Some _ => if isany_ptr src then Some (nf_ip_addr f) else src
                  | None => src
                  end in
  ip4_output_if_src s p src_used dest ttl tos proto netif.

Definition ip4_output (s : nst) (p : Z) (src dest : option Z) (ttl tos proto : Z) : out (Z * nst) :=
  b ← get (pb s) p;
  _ ← lwip_assert "p->ref == 1" (ref b =? 1);
  '(netif, s) ← ip4_route s dest;
  if netif =? NULL then mret (ERR_RTE, IP_STATS_INC Rterr s)
  else ip4_output_if s p src dest ttl tos proto netif.
End Ip4Out.
