(* ===== verification/Ip4OutInv.v ===== *)
(** * IPv4 output keeps the state well formed

    Which interface [ip4_route] chooses, the header [ip4_output_if_src] writes, and what is sent. *)
From S2P Require Import Prelude Def Chksum Stats Iface Ip4Addr Pbuf PbufChain PbufClient PbufData PbufClone Pcb Netif NetInv EthOut Region Acd Etharp EtharpInv EtharpTmr EtharpRes EtharpQuery EtharpOut Ip4Out.

(** ** The choice of an interface *)

(** The interface is up, has a link and an address. *)
Definition usable (f : netif) : bool := netif_is_up f && netif_is_link_up f && negb (ip4_addr_isany (nf_ip_addr f)).

(** [dest] is on its network, or is its peer. *)
Definition reaches (dest : Z) (f : netif) : bool :=
  ip4_addr_net_eq dest (nf_ip_addr f) (nf_netmask f) ||
  ((Z.land (nf_flags f) NETIF_FLAG_BROADCAST =? 0) && (dest =? nf_gw f)).

Definition route_to (dest : Z) (f : netif) : Prop := usable f = true ∧ reaches dest f = true.

Section Out.
Context {M : Type} `{PM : PbufAlloc M} {E : NetEnv M} {U : IpUpper M}.
Abbreviation pst := (@pst M).
Abbreviation nst := (nst M).

Definition no_route (s : nst) (dest : Z) (l : list Z) : Prop :=
  ∀ m g, m ∈ l → netifs s !! m = Some g → ¬ route_to dest g.

Lemma route_loop_run (s : nst) dest l : ∀ fuel n, nchain nf_next (netifs s) n l → (length l ≤ fuel)%nat →
  (∃ l1 l2 m f, l = l1 ++ m :: l2 ∧ netifs s !! m = Some f ∧ route_to dest f ∧ no_route s dest l1 ∧ m ≠ NULL ∧
     ip4_route_loop fuel s n (Some dest) = Clean m) ∨
  (no_route s dest l ∧ ip4_route_loop fuel s n (Some dest) = Clean NULL).
Proof.
  induction l as [|m l IH]; intros fuel n Hc Hf.
  - right. split; [by intros m g Hm%elem_of_nil|]. inversion Hc. by destruct fuel.
  - inversion Hc as [|m' f l' Hm Hl Hc']; subst. destruct fuel as [|fuel]; cbn [length] in Hf; [lia|].
    cbn [ip4_route_loop]. rewrite (proj2 (Z.eqb_neq m NULL)) by done. unfold get_netif. rewrite Hl. out_simp.
    fold (usable f).
    assert (¬ route_to dest f → (∃ l1 l2 m0 f0, m :: l = l1 ++ m0 :: l2 ∧ netifs s !! m0 = Some f0 ∧ route_to dest f0 ∧
       no_route s dest l1 ∧ m0 ≠ NULL ∧ ip4_route_loop fuel s (nf_next f) (Some dest) = Clean m0) ∨
      (no_route s dest (m :: l) ∧ ip4_route_loop fuel s (nf_next f) (Some dest) = Clean NULL)) as Hrest.
    { intros Hno. assert (∀ l1, no_route s dest l1 → no_route s dest (m :: l1)) as Hcons.
      { intros l1 Hn x g [->|Hx]%elem_of_cons Hg; [congruence|by eapply Hn]. }
      destruct (IH fuel (nf_next f) Hc') as [(l1 & l2 & m0 & f0 & -> & ? & ? & ? & ? & ?)|[? ?]]; [lia|left|right].
      - exists (m :: l1), l2, m0, f0. split_and!; try done. by apply Hcons.
      - split; [by apply Hcons|done]. }
    destruct (usable f) eqn:Hu; [|apply Hrest; by intros [? _]; congruence].
    assert (reaches dest f = true → ∃ l1 l2 m0 f0, m :: l = l1 ++ m0 :: l2 ∧ netifs s !! m0 = Some f0 ∧ route_to dest f0 ∧
       no_route s dest l1 ∧ m0 ≠ NULL ∧ @Ret Z m [] = Clean m0) as Hfound.
    { intros Hr. exists [], l, m, f. split_and!; try done. by intros x g Hx%elem_of_nil. }
    unfold route_to, reaches in *. destruct (ip4_addr_net_eq _ _ _); [by left; apply Hfound|].
    destruct (_ && _); [by left; apply Hfound|]. apply Hrest. by intros [_ ?].
Qed.

(** What [ip4_route] returns for [dest] when [l] are the interfaces in order. *)
Inductive routes (s : nst) (dest : Z) (l : list Z) : Z → Prop :=
| routes_net l1 l2 n f : l = l1 ++ n :: l2 → netifs s !! n = Some f → route_to dest f → no_route s dest l1 →
    routes s dest l n
| routes_default f : no_route s dest l → netifs s !! netif_default s = Some f → usable f = true →
    ip4_addr_isloopback dest = false → routes s dest l (netif_default s)
| routes_nowhere : no_route s dest l →
    (∀ f, netif_default s ≠ NULL → netifs s !! netif_default s = Some f →
       usable f = false ∨ ip4_addr_isloopback dest = true) → routes s dest l NULL.

Lemma routes_ext (s s' : nst) dest l n : netifs s' = netifs s → netif_default s' = netif_default s →
  routes s dest l n → routes s' dest l n.
Proof.
  intros Hn Hd [l1 l2 m f Hl Hf Hr Hno|f Hno Hf Hu Hlo|Hno Hu].
  - eapply routes_net; rewrite ?Hn; try done. intros x g Hx. rewrite Hn. by apply Hno.
  - rewrite <- Hd in *. eapply routes_default; rewrite ?Hn; try done. intros x g Hx. rewrite Hn. by apply Hno.
  - apply routes_nowhere; [intros x g Hx; rewrite Hn; by apply Hno|]. rewrite Hn, Hd. done.
Qed.

Lemma usable_neg f : negb (netif_is_up f) || negb (netif_is_link_up f) || ip4_addr_isany (nf_ip_addr f) = negb (usable f).
Proof. unfold usable. by destruct (netif_is_up f), (netif_is_link_up f), (ip4_addr_isany (nf_ip_addr f)). Qed.

Lemma route_run s live own dest l : ninv s live own → nchain nf_next (netifs s) (netif_list s) l →
  ∃ n, ip4_route s (Some dest) = Clean (n, if n =? NULL then IP_STATS_INC Rterr s else s) ∧ routes s dest l n ∧
    (n ≠ NULL → is_Some (netifs s !! n)).
Proof.
  intros Hi Hc. unfold ip4_route.
  destruct (route_loop_run s dest l (netif_fuel s) _ Hc) as [(l1 & l2 & m & f & Hl & Hm & Hr & Hn & Hm0 & ->)|[Hno ->]].
  { unfold netif_fuel. pose proof (nchain_length _ _ _ _ Hc). lia. }
  - rewrite bind_clean. rewrite (proj2 (Z.eqb_neq m NULL)) by done. cbn [negb]. exists m.
    rewrite (proj2 (Z.eqb_neq m NULL)) by done. split_and!; [done|by eapply routes_net|by eexists].
  - rewrite bind_clean. change (NULL =? NULL) with true. cbn [negb]. unfold default_unusable.
    destruct (Z.eqb_spec (netif_default s) NULL) as [Hd|Hd]; out_simp.
    { exists NULL. split_and!; try done. by apply routes_nowhere. }
    destruct (lo_default _ _ _ _ (ni_links _ _ _ Hi) Hd) as [f Hf]. unfold get_netif. rewrite Hf. out_simp.
    rewrite usable_neg. destruct (usable f) eqn:Hu; cbn [negb]; out_simp.
    + destruct (ip4_addr_isloopback dest) eqn:Hlo.
      * exists NULL. split_and!; try done. apply routes_nowhere; [done|]. by right.
      * exists (netif_default s). rewrite (proj2 (Z.eqb_neq _ NULL)) by done. split_and!; try done. by eapply routes_default.
    + exists NULL. split_and!; try done. apply routes_nowhere; [done|]. intros g _ Hg. left. congruence.
Qed.

(** ** The header *)

(** The 20 bytes of a header without options, with the checksum [c]. *)
Definition ip_header (tot id ttl tos proto c src dest : Z) : list Z :=
  [0x45; u8 tos] ++ le16 (lwip_htons tot) ++ le16 (lwip_htons id) ++ le16 0 ++ [u8 ttl; u8 proto] ++ le16 c ++ le32 src ++ le32 dest.

Lemma ip_header_length tot id ttl tos proto c src dest : length (ip_header tot id ttl tos proto c src dest) = 20%nat.
Proof. done. Qed.

Lemma ip_header_bytes tot id ttl tos proto c src dest : Forall is_u8 (ip_header tot id ttl tos proto c src dest).
Proof.
  unfold ip_header. repeat apply Forall_app_2; try apply le16_bytes; try apply le32_bytes;
    repeat constructor; try apply u8_range; unfold is_u8; lia.
Qed.

(** The sum of its words, and the checksum of [ip4_output_if_src]. *)
Definition hdr_sum (tot id ttl tos proto src dest : Z) : Z :=
  lwip_htons (Z.lor proto (Z.shiftl ttl 8)) + dest mod 65536 + dest / 65536 +
  lwip_htons (Z.lor tos (Z.shiftl 0x45 8)) + lwip_htons tot + lwip_htons id + src mod 65536 + src / 65536.

Definition inline_chksum (sum : Z) : Z :=
  let c := u32 (Z.shiftr sum 16 + Z.land sum 0xFFFF) in
  let c := u32 (Z.shiftr c 16 + c) in
  u16 (u32 (Z.lnot c)).

Lemma htons_pair a b : is_u8 a → is_u8 b → lwip_htons (Z.lor a (Z.shiftl b 8)) = b + 256 * a.
Proof.
  intros Ha Hb. rewrite Z.shiftl_mul_pow2, Z.lor_comm by lia. rewrite lor_add; [|lia|exact Ha].
  change (2 ^ 8) with 256. rewrite lwip_htons_eq; width.
Qed.

Lemma hdr_sum_bsum tot id ttl tos proto src dest : is_u8 ttl → is_u8 tos → is_u8 proto → is_u32 src → is_u32 dest →
  bsum false (ip_header tot id ttl tos proto 0 src dest) = hdr_sum tot id ttl tos proto src dest.
Proof.
  intros H1 H2 H3 H4 H5. unfold hdr_sum. rewrite !htons_pair by (done || (unfold is_u8; lia)).
  pose proof (lwip_htons_range tot) as Ht. pose proof (lwip_htons_range id) as Hid.
  unfold ip_header, le16, le32. cbn [app bsum negb]. rewrite !(u8_id _) by done.
  change (2 ^ 8) with 256. change (2 ^ 16) with 65536. change (2 ^ 24) with 16777216.
  set (T := lwip_htons tot) in *. set (I := lwip_htons id) in *. clearbody T I. width.
Qed.

Lemma land_low16 x : Z.land x 0xFFFF = x mod 65536.
Proof. change 0xFFFF with (Z.ones 16). by rewrite Z.land_ones by lia. Qed.

Lemma inline_canon sum : 0 < sum < 16 * 65536 → inline_chksum sum = 65535 - canon sum.
Proof.
  intros Hs. unfold inline_chksum. rewrite land_low16, !Z.shiftr_div_pow2 by lia.
  change (2 ^ 16) with 65536. set (a := sum / 65536 + sum mod 65536).
  assert (0 < a < 65536 + 16) as Ha by (unfold a; width). assert (oc_eq a sum) as Hoc by (unfold a, oc_eq; split; width).
  clearbody a. rewrite (u32_id a) by (unfold is_u32; lia).
  assert (a / 65536 + a = (if a <? 65536 then a else a + 1)) as -> by (destruct (Z.ltb_spec a 65536); width).
  rewrite (u32_id (if a <? 65536 then a else a + 1)) by (unfold is_u32; destruct (Z.ltb_spec a 65536); lia).
  assert (canon sum = if a <? 65536 then a else a - 65535) as ->.
  { symmetry. apply canon_unique; [lia|destruct (Z.ltb_spec a 65536); lia|].
    destruct (Z.ltb_spec a 65536); [done|]. destruct Hoc as [H1 H2]. split; [|lia]. rewrite <- H1. width. }
  unfold Z.lnot. destruct (Z.ltb_spec a 65536); width.
Qed.

(** Eight words fit into the accumulator. *)
Lemma u32_sum8 a b c d e f g h : Forall is_u16 [a; b; c; d; e; f; g; h] →
  u32 (u32 (u32 (u32 (u32 (u32 (u32 (u32 (0 + a) + b) + c) + d) + e) + f) + g) + h) = a + b + c + d + e + f + g + h.
Proof.
  intros Hw. decompose_Forall_hyps. unfold is_u16 in *.
  repeat (rewrite (u32_id (0 + a)) || rewrite (u32_id (a + b)) || rewrite (u32_id (_ + _ + _))); unfold is_u32; lia.
Qed.

(** [ip4_fill_hdr] writes the header, with the checksum [inet_chksum] computes. *)
Lemma fill_hdr_run s live own h tot src dest ttl tos proto : ninv s live own → mapped (data (pb s)) h 20 →
  is_u8 ttl → is_u8 tos → is_u8 proto → is_u32 src → is_u32 dest →
  let id := ip_id (ips s) in
  let hdr c := ip_header tot id ttl tos proto c src dest in
  ip4_fill_hdr s h tot src dest ttl tos proto = Clean (over (set_ip_id s (u16 (id + 1))) h (hdr (inet_chksum h (hdr 0)))).
Proof.
  intros Hi Hm H1 H2 H3 H4 H5 id hdr. destruct (over_here s live own h 20 Hi Hm) as (L & HL & _ & _ & Hs).
  do 20 (destruct L as [|? L]; [done|]). destruct L; [|done]. clear HL.
  assert (inet_chksum h (hdr 0) = inline_chksum (hdr_sum tot id ttl tos proto src dest)) as Hc.
  { pose proof (hdr_sum_bsum tot id ttl tos proto src dest H1 H2 H3 H4 H5) as Hb. fold (hdr 0) in Hb.
    pose proof (lwip_htons_range tot). pose proof (lwip_htons_range id). unfold is_u16, is_u32 in *.
    assert (0 < hdr_sum tot id ttl tos proto src dest < 16 * 65536).
    { unfold hdr_sum. rewrite !htons_pair by (done || (unfold is_u8; lia)). unfold is_u8 in *. width. }
    unfold inet_chksum. rewrite lwip_standard_chksum_canon, Hb by (apply ip_header_bytes || done).
    rewrite inline_canon by done. apply lnot_u16, canon_range. }
  pose proof (u32_sum8 (lwip_htons (Z.lor proto (Z.shiftl ttl 8))) (Z.land dest 0xFFFF) (Z.shiftr dest 16)
    (lwip_htons (Z.lor tos (Z.shiftl (u8 (Z.lor (Z.shiftl 4 4) (IP_HLEN / 4))) 8))) (lwip_htons tot) (lwip_htons id)
    (Z.land src 0xFFFF) (Z.shiftr src 16)) as Hsum.
  rewrite !land_low16, !Z.shiftr_div_pow2 in Hsum by lia.
  change (u8 (Z.lor (Z.shiftl 4 4) (IP_HLEN / 4))) with 0x45 in Hsum. change (2 ^ 16) with 65536 in Hsum.
  fold (hdr_sum tot id ttl tos proto src dest) in Hsum.
  rewrite Hc. unfold ip4_fill_hdr. rewrite Hs at 1.
  region_step 8%nat. region_step 9%nat. region_step 16%nat. region_step 0%nat. region_step 1%nat. region_step 2%nat.
  region_step 6%nat. region_step 4%nat.
  match goal with |- context [set_ip_id (over s h ?L) ?v] => change (set_ip_id (over s h L) v) with (over (set_ip_id s (u16 (id + 1))) h L) end.
  region_step 12%nat. region_step 10%nat. repeat change (ip_id (ips (over s h _))) with id.
  do 2 f_equal. unfold hdr, ip_header, inline_chksum. rewrite !land_low16, !Z.shiftr_div_pow2 by lia.
  change (u8 (Z.lor (Z.shiftl 4 4) (IP_HLEN / 4))) with 0x45. change (2 ^ 16) with 65536. rewrite Hsum; [done|].
  repeat constructor; try apply lwip_htons_range; unfold is_u16, is_u32 in *; width.
Qed.
(** ** Sending *)

(** What [ip4_frag] must do with a packet that is too long for its interface: return, keep the
    state well formed and leave the packet to the caller. *)
Class FragOk := frag_ok s live own p b l n f dest : ninv s live own → 0 < own p → sendable s p b l → 20 ≤ len b →
  netifs s !! n = Some f → is_u32 dest → nf_mtu f < tot_len b → psafe own s (ip4_frag s p n dest).

(** The packet fits the interface. *)
Definition fits_mtu (f : netif) (b : pbuf) : Prop := nf_mtu f = 0 ∨ tot_len b ≤ nf_mtu f.

Lemma over_links (s : nst) h L : same_links s (over s h L).
Proof. split; try done. intros x Hx. by apply put_is_Some. Qed.

Lemma sendable_over (s : nst) h L p b l : sendable s p b l → sendable (over s h L) p b l.
Proof. by intros [? ? ? ? ? ?]. Qed.

Lemma sendable_udps (s : nst) v p b l : sendable s p b l → sendable (set_udps s v) p b l.
Proof. by intros [? ? ? ? ? ?]. Qed.

Lemma sendable_ips (s : nst) v p b l : sendable s p b l → sendable (set_ips s v) p b l.
Proof. by intros [? ? ? ? ? ?]. Qed.

Lemma sendable_grow s live own p b l n : ninv s live own → sendable s p b ((p, b) :: l) → 0 < n → add_header_fits p b n false →
  sendable (set_pb s (upd (pb s) p (grow b n))) p (grow b n) ((p, grow b n) :: l).
Proof.
  intros Hi [Hb Hc [Ht Hpk] [Hw1 Hw2] Ha Hr] Hn (Hf1 & Hf2 & Hf3 & Hf4). apply chained_inv_cons in Hc as (_ & Hp & _ & Hc).
  pose proof (i_block _ _ _ (ni_pb _ _ _ Hi) _ _ Hb) as [Hl Htl _ _ _]. unfold is_u16 in *.
  pose proof (inv_lens_pos _ _ _ _ _ (ni_pb _ _ _ Hi) Hc) as Hpos%lens_nonneg. cbn [lens] in Ht.
  split.
  - apply lookup_insert_eq.
  - constructor; [done|apply lookup_insert_eq|]. apply chained_insert; [|done]. by apply (chained_next_notin _ _ _ _ Hb).
  - split; [|done]. cbn. rewrite !u16_id by (unfold is_u16; lia). lia.
  - split; [|done]. cbn. rewrite !u16_id by (unfold is_u16; lia). intros Heq. apply Hw1. lia.
  - apply Forall_cons in Ha as [_ Ha]. constructor; [|done]. intros Hnc. by specialize (Hf4 Hnc).
  - done.
Qed.
Context `{HF : !FragOk}.

Lemma transmit_run s live own p b l n f dest src : ninv s live own → 0 < own p → sendable s p b l → 20 ≤ len b →
  netifs s !! n = Some f → is_u32 dest → rd32 s (payload b + 12) = Clean src →
  ∃ r s' live', ip4_transmit s p dest n = Clean (r, s') ∧ ninv s' live' own ∧ same_links s s' ∧
    (fits_mtu f b → routed (IP_STATS_INC Xmit s) n f dest src p b l r s').
Proof.
  intros Hi Hp Hs Hlen Hf Hd Hsrc. unfold ip4_transmit. set (s1 := IP_STATS_INC Xmit s).
  assert (ninv s1 live own) as Hi1 by (by apply ninv_ips). assert (same_links s s1) as Hl1 by (by split). assert (sendable s1 p b l) as Hs1 by (by apply sendable_ips).
  unfold get_netif. change (netifs s1) with (netifs s). rewrite Hf. out_simp.
  rewrite (get_run _ _ _ (sd_head _ _ _ _ Hs1)), bind_clean. destruct (_ && _) eqn:Hb.
  - apply andb_prop in Hb as [H1%negb_true_iff%Z.eqb_neq H2%Z.ltb_lt].
    destruct (HF s1 live own p b l n f dest Hi1 Hp Hs1 Hlen Hf Hd H2) as (r & s' & live' & H & Hi' & Hl).
    exists r, s', live'. split_and!; [done|done|by eapply same_links_trans|]. intros [?|?]; [congruence|lia].
  - destruct (etharp_output_run s1 live own n f dest src p b l Hi1 Hf Hd Hp Hs1 Hsrc) as (r & s' & live' & H & Hi' & Hl & Hr).
    exists r, s', live'. split_and!; try done. by eapply same_links_trans.
Qed.

(** The header of the packet and the state in which it is sent. *)
Definition sent_header (s : nst) (b : pbuf) (src dest ttl tos proto : Z) : list Z :=
  let hdr c := ip_header (tot_len b + 20) (ip_id (ips s)) ttl tos proto c src dest in
  hdr (inet_chksum (payload b - 20) (hdr 0)).

Definition ip_ready (s : nst) (p : Z) (b : pbuf) (src dest ttl tos proto : Z) : nst :=
  over (set_ip_id (set_pb s (upd (pb s) p (grow b 20))) (u16 (ip_id (ips s) + 1))) (payload b - 20)
    (sent_header s b src dest ttl tos proto).

Lemma ip_ready_content s live own p b l src dest ttl tos proto : ninv s live own → sendable s p b ((p, b) :: l) →
  add_header_fits p b 20 false →
  content (data (pb (ip_ready s p b src dest ttl tos proto))) ((p, grow b 20) :: l) =
  (Some <$> sent_header s b src dest ttl tos proto) ++ content (data (pb s)) ((p, b) :: l).
Proof.
  intros Hi Hs Hf. pose proof (i_block _ _ _ (ni_pb _ _ _ Hi) _ _ (sd_head _ _ _ _ Hs)) as [Hl Htl _ _ _]. unfold is_u16 in *.
  pose proof (inv_lens_pos _ _ _ _ _ (ni_pb _ _ _ Hi) (sd_chain _ _ _ _ Hs)) as Hpos. apply Forall_cons in Hpos as [_ Hpos%lens_nonneg].
  destruct (sd_packet _ _ _ _ Hs) as [Ht _]. cbn [lens] in Ht. pose proof Hf as (_ & Hf2 & _).
  assert (length (sent_header s b src dest ttl tos proto) = 20%nat) as Hlen by done.
  rewrite !content_cons. cbn [ip_ready over pb set_pb set_ip_id set_ips data set_data upd set_pbufs grow payload len set_tot_len set_len set_payload].
  rewrite (u16_id (len b + 20)) by (unfold is_u16; lia). replace (len b + 20) with (20 + len b) by lia. rewrite seg_app by lia.
  rewrite (put_seg _ _ _ 20) by (by rewrite Hlen). rewrite <- app_assoc. f_equal. f_equal.
  - replace (payload b - 20 + 20) with (payload b) by lia. apply put_seg_apart. rewrite Hlen. unfold apart. lia.
  - pose proof (sendable_foreign _ _ _ _ _ _ 20 Hi Hs Hf) as Hfo. apply Forall_cons in Hfo as [_ Hfo].
    apply content_frame. apply (Forall_impl _ _ _ Hfo). intros kv Ha. by apply put_seg_apart.
Qed.

Lemma output_src_run s live own p b l src dest ttl tos proto n f : ninv s live own → 0 < own p →
  sendable s p b ((p, b) :: l) → ref b = 1 → is_u8 ttl → is_u8 tos → is_u8 proto → is_u32 (default IPADDR_ANY src) → is_u32 dest →
  netifs s !! n = Some f →
  ∃ r s' live', ip4_output_if_src s p src (Some dest) ttl tos proto n = Clean (r, s') ∧ ninv s' live' own ∧ same_links s s' ∧
    (¬ add_header_fits p b 20 false → r = ERR_BUF ∧ s' = IP_STATS_INC Err s) ∧
    (add_header_fits p b 20 false → fits_mtu f (grow b 20) →
       let s1 := ip_ready s p b (default IPADDR_ANY src) dest ttl tos proto in
       routed (IP_STATS_INC Xmit s1) n f dest (default IPADDR_ANY src) p (grow b 20) ((p, grow b 20) :: l) r s').
Proof.
  intros Hi Hp Hs Href H1 H2 H3 H4 H5 Hf. unfold ip4_output_if_src. pose proof (sd_head _ _ _ _ Hs) as Hb.
  rewrite (get_run _ _ _ Hb), bind_clean, Href. change (1 =? 1) with true. out_simp.
  assert (Decision (add_header_fits p b 20 false)) as Hdec by (unfold add_header_fits; apply _).
  destruct (decide (add_header_fits p b 20 false)) as [Hfit|Hnf].
  2:{ destruct (add_header_run (pb s) live _ p b 20 false (ni_pb _ _ _ Hi) Hb) as [_ Hno]; [done|].
      rewrite (withp_run s (λ q, pbuf_add_header q p IP_HLEN) _ _ (Hno Hnf)), bind_clean. change (negb (1 =? 0)) with true. cbn iota.
      exists ERR_BUF, (IP_STATS_INC Err s), live. replace (set_pb s (pb s)) with s by (by destruct s).
      split_and!; [done|by apply ninv_ips|by split|done|done]. }
  destruct (ninv_grow s live own p b 20 Hi Hb ltac:(done) Hfit) as (Hadd & Hi1 & Hc & Hm).
  rewrite (withp_run s (λ q, pbuf_add_header q p IP_HLEN) _ _ Hadd), bind_clean. change (negb (0 =? 0)) with false. cbn iota.
  pose proof (sendable_grow _ _ _ _ _ _ 20 Hi Hs ltac:(done) Hfit) as Hs1.
  set (s1 := set_pb s (upd (pb s) p (grow b 20))) in *.
  pose proof (i_block _ _ _ (ni_pb _ _ _ Hi) _ _ Hb) as [Hl Htl _ _ _]. unfold is_u16 in *.
  pose proof (inv_lens_pos _ _ _ _ _ (ni_pb _ _ _ Hi) (sd_chain _ _ _ _ Hs)) as Hpos. apply Forall_cons in Hpos as [_ Hpos%lens_nonneg].
  destruct (sd_packet _ _ _ _ Hs) as [Ht _]. cbn [lens] in Ht. pose proof Hfit as (_ & Hf2 & _).
  rewrite (get_run _ _ _ (sd_head _ _ _ _ Hs1)), bind_clean.
  cbn [grow payload len tot_len set_tot_len set_len set_payload]. rewrite !u16_id by (unfold is_u16; lia).
  rewrite (proj2 (Z.leb_le IP_HLEN (len b + 20))) by (unfold IP_HLEN; lia). out_simp.
  assert (mapped (data (pb s1)) (payload b - 20) 20) as Hm1 by (intros x Hx; apply Hm; lia).
  rewrite (fill_hdr_run s1 live own (payload b - 20) (tot_len b + 20) (default IPADDR_ANY src) dest ttl tos proto Hi1 Hm1) by done.
  rewrite bind_clean. change (over _ _ _) with (ip_ready s p b (default IPADDR_ANY src) dest ttl tos proto).
  set (s2 := ip_ready s p b _ dest ttl tos proto).
  assert (ninv s2 live own) as Hi2.
  { apply ninv_over; [by apply ninv_ips|apply ip_header_bytes|done]. }
  assert (sendable s2 p (grow b 20) ((p, grow b 20) :: l)) as Hs2 by (by apply sendable_over, sendable_ips).
  assert (rd32 s2 (payload (grow b 20) + 12) = Clean (default IPADDR_ANY src)) as Hsrc.
  { unfold rd32, s2, ip_ready. cbn [grow payload set_tot_len set_len set_payload].
    assert (length (sent_header s b (default IPADDR_ANY src) dest ttl tos proto) = 20%nat) as Hlen by done.
    rewrite (rd_region _ _ _ _ 4 12) by (done || rewrite ?Hlen; lia). out_simp. unfold mret, out_ret. f_equal.
    change (take _ _) with (le32 (default IPADDR_ANY src)). by apply of_le_le32. }
  destruct (transmit_run s2 live own p _ _ n f dest (default IPADDR_ANY src) Hi2 Hp Hs2) as (r & s' & live' & H & Hi' & Hl' & Hr); try done.
  { cbn [grow len set_tot_len set_len set_payload]. rewrite (u16_id (len b + 20)) by (unfold is_u16; lia). lia. }
  exists r, s', live'. split_and!; try done. eapply same_links_trans; [|exact Hl']. eapply same_links_trans; [|apply over_links].
  by split.
Qed.

(** A packet that starts with its header. *)
Lemma output_hdrincl_run s live own p b l src dest ttl tos proto n f : ninv s live own → 0 < own p →
  sendable s p b l → ref b = 1 → netifs s !! n = Some f → 20 ≤ len b →
  rd32 s (payload b + 16) = Clean dest →
  ∃ r s' live', ip4_output_if s p src None ttl tos proto n = Clean (r, s') ∧ ninv s' live' own ∧ same_links s s' ∧
    (fits_mtu f b → ∃ osrc, rd32 s (payload b + 12) = Clean osrc ∧ routed (IP_STATS_INC Xmit s) n f dest osrc p b l r s').
Proof.
  intros Hi Hp Hs Href Hf Hlen Hd. unfold ip4_output_if, get_netif. rewrite Hf. out_simp. unfold ip4_output_if_src.
  rewrite (get_run _ _ _ (sd_head _ _ _ _ Hs)), bind_clean, Href. change (1 =? 1) with true. out_simp.
  rewrite (proj2 (Z.ltb_ge (len b) IP_HLEN)) by done. rewrite Hd, bind_clean.
  destruct (rd32_run s live own (payload b + 12) Hi) as (osrc & Hsrc & _).
  { intros x Hx. apply (ninv_mapped _ _ _ _ _ Hi (sd_head _ _ _ _ Hs)). lia. }
  destruct (rd32_run s live own (payload b + 16) Hi) as (d0 & Hd0 & Hu).
  { intros x Hx. apply (ninv_mapped _ _ _ _ _ Hi (sd_head _ _ _ _ Hs)). lia. }
  rewrite Hd in Hd0. injection Hd0 as <-.
  destruct (transmit_run s live own p b l n f dest osrc Hi Hp Hs Hlen Hf Hu Hsrc) as (r & s' & live' & H & Hi' & Hl & Hr).
  exists r, s', live'. split_and!; try done. intros Hm. exists osrc. split; [done|]. by apply Hr.
Qed.
End Out.
