(* ===== verification/Icmp.v ===== *)
(** * ICMP

    src/lwip/src/core/ipv4/icmp.c: echo replies, destination unreachable and time exceeded
    messages.  Built without multicast and broadcast pings. *)
From S2P Require Import Prelude Def Chksum Stats Iface Ip4Addr Pbuf Pcb Netif EthOut Etharp Ip4Out.

Definition ICMP_ER : Z := 0.
Definition ICMP_DUR : Z := 3.
Definition ICMP_ECHO : Z := 8.
Definition ICMP_TE : Z := 11.
Definition ICMP_DUR_PROTO : Z := 2.
Definition ICMP_DUR_PORT : Z := 3.
Definition ICMP_TE_FRAG : Z := 1.
Definition ICMP_TTL : Z := 255.
Definition SIZEOF_ICMP_HDR : Z := 8.
Definition ICMP_DEST_UNREACH_DATASIZE : Z := 8.

Section Icmp.
Context {M : Type} `{PM : PbufAlloc M} {E : NetEnv M} {U : IpUpper M}.
Abbreviation nst := (nst M).

(** The payloads of a chain, which [inet_chksum_pbuf] sums up. *)
Fixpoint pbuf_segments (fuel : nat) (s : nst) (q : Z) : out (list segment) :=
  if q =? NULL then mret []
  else match fuel with
  | O => NoFuel
  | S fuel' =>
      b ← get (pb s) q;
      d ← rd s (payload b) (len b);
      rest ← pbuf_segments fuel' s (next b);
      mret ((payload b, d) :: rest)
  end.

(** [pbuf_free(p)] *)
Definition free_pbuf (s : nst) (p : Z) : out nst :=
  '(_, s) ← withp s (λ q, pbuf_free env_custom_free q p);
  mret s.

(** [lenerr:] and [icmperr:] *)
Definition icmp_lenerr (s : nst) (p : Z) : out nst :=
  s ← free_pbuf s p; mret (ICMP_STATS_INC Lenerr s).
Definition icmp_icmperr (s : nst) (p : Z) : out nst :=
  s ← free_pbuf s p; mret (ICMP_STATS_INC Err s).

(** A copy of the request with room for the link header; [None] is [goto icmperr]. *)
Definition icmp_echo_copy (s : nst) (p hlen iphdr_in : Z) : out (option Z * nst) :=
  b ← get (pb s) p;
  let alloc_len := u16 (tot_len b + hlen) in
  if alloc_len <? tot_len b then mret (None, s)
  else
    '(r, s) ← withp s (λ q, pbuf_alloc env_custom_free q PBUF_LINK alloc_len PBUF_RAM);
    if r =? NULL then mret (None, s)
    else
      br ← get (pb s) r;
      if len br <? hlen + SIZEOF_ICMP_HDR then s ← free_pbuf s r; mret (None, s)
      else
        hdr ← rd s iphdr_in hlen;
        s ← wr s (payload br) hdr;
        '(e, s) ← withp s (λ q, pbuf_remove_header q r hlen);
        if negb (e =? 0) then
          _ ← lwip_assert "icmp_input: moving r->payload to icmp header failed" false;
          s ← free_pbuf s r; mret (None, s)
        else
          '(e, s) ← withp s (λ q, pbuf_copy q r p);
          if negb (e =? ERR_OK) then s ← free_pbuf s r; mret (None, s)
          else s ← free_pbuf s p; mret (Some r, s).

(** The packet the reply is made in: [p] itself when it has room for the link header. *)
Definition icmp_echo_room (s : nst) (p hlen iphdr_in : Z) : out (option Z * nst) :=
  '(e, s) ← withp s (λ q, pbuf_add_header q p (hlen + PBUF_LINK_HLEN));
  if negb (e =? 0) then icmp_echo_copy s p hlen iphdr_in
  else
    '(e, s) ← withp s (λ q, pbuf_remove_header q p (hlen + PBUF_LINK_HLEN));
    if negb (e =? 0) then
      _ ← lwip_assert "icmp_input: restoring original p->payload failed" false; mret (None, s)
    else mret (Some p, s).

(** The checksum of the reply, adjusted for the new type. *)
Definition icmp_adjust (chksum : Z) : Z :=
  if lwip_htons (0xffff - Z.shiftl ICMP_ECHO 8) <? chksum
  then u16 (chksum + lwip_htons (u16 (Z.shiftl ICMP_ECHO 8)) + 1)
  else u16 (chksum + lwip_htons (Z.shiftl ICMP_ECHO 8)).

(** The request at [p] becomes the reply and is sent. *)
Definition icmp_echo_reply (s : nst) (p src hlen inp : Z) : out nst :=
  b ← get (pb s) p;
  let iecho := payload b in
  '(e, s) ← withp s (λ q, pbuf_add_header q p hlen);
  if negb (e =? 0) then mret s
  else
    b ← get (pb s) p;
    let iphdr := payload b in
    s ← wr s (iphdr + 12) (le32 src);
    s ← wr s (iphdr + 16) (le32 (current_iphdr_src (ip_data (ips s))));
    s ← wr s iecho [ICMP_ER];
    c ← rd16 s (iecho + 2);
    s ← wr s (iecho + 2) (le16 (icmp_adjust c));
    s ← wr s (iphdr + 8) [u8 ICMP_TTL];
    s ← wr s (iphdr + 10) (le16 0);
    hdr ← rd s iphdr hlen;
    s ← wr s (iphdr + 10) (le16 (inet_chksum iphdr hdr));
    let s := ICMP_STATS_INC Xmit s in
    '(_, s) ← ip4_output_if s p (Some src) None ICMP_TTL 0 IP_PROTO_ICMP inp;
    mret s.

(** The case [ICMP_ECHO] of [icmp_input]. *)
Definition icmp_echo (s : nst) (p hlen iphdr_in inp : Z) : out nst :=
  let src := current_iphdr_dest (ip_data (ips s)) in
  if ip4_addr_ismulticast src then icmp_icmperr s p
  else
    f ← get_netif s (current_netif (ip_data (ips s)));
    if ip4_addr_isbroadcast src f then icmp_icmperr s p
    else
      b ← get (pb s) p;
      if tot_len b <? SIZEOF_ICMP_HDR then icmp_lenerr s p
      else
        segs ← pbuf_segments (chain_fuel (pb s)) s p;
        if negb (inet_chksum_pbuf segs =? 0) then s ← free_pbuf s p; mret (ICMP_STATS_INC Chkerr s)
        else
          '(r, s) ← icmp_echo_room s p hlen iphdr_in;
          match r with
          | None => icmp_icmperr s p
          | Some r => s ← icmp_echo_reply s r src hlen inp; free_pbuf s r
          end.

Definition icmp_input (s : nst) (p inp : Z) : out nst :=
  let s := ICMP_STATS_INC Recv s in
  let iphdr_in := current_ip4_header (ip_data (ips s)) in
  v ← rd8 s iphdr_in;
  let hlen := IPH_HL_BYTES v in
  if hlen <? IP_HLEN then icmp_lenerr s p
  else
    b ← get (pb s) p;
    if len b <? 4 then icmp_lenerr s p
    else
      type ← rd8 s (payload b);
      if type =? ICMP_ER then free_pbuf s p
      else if type =? ICMP_ECHO then icmp_echo s p hlen iphdr_in inp
      else free_pbuf (ICMP_STATS_INC Drop (ICMP_STATS_INC Proterr s)) p.

Definition icmp_send_response (s : nst) (p type code : Z) : out nst :=
  b ← get (pb s) p;
  let response_pkt_len := IP_HLEN + ICMP_DEST_UNREACH_DATASIZE in
  let response_pkt_len := if tot_len b <? response_pkt_len then tot_len b else response_pkt_len in
  '(q, s) ← withp s (λ x, pbuf_alloc env_custom_free x PBUF_IP (SIZEOF_ICMP_HDR + response_pkt_len) PBUF_RAM);
  if q =? NULL then mret s
  else
    bq ← get (pb s) q;
    _ ← lwip_assert "check that first pbuf can hold icmp message" (SIZEOF_ICMP_HDR + response_pkt_len <=? len bq);
    let iphdr := payload b in
    let icmphdr := payload bq in
    s ← wr s icmphdr [u8 type];
    s ← wr s (icmphdr + 1) [u8 code];
    s ← wr s (icmphdr + 4) (le32 0);
    '(_, s) ← withp s (λ x, pbuf_copy_partial_pbuf x q p response_pkt_len SIZEOF_ICMP_HDR);
    iphdr_src ← rd32 s (iphdr + 12);
    '(netif, s) ← ip4_route s (Some iphdr_src);
    s ← (if negb (netif =? NULL) then
           s ← wr s (icmphdr + 2) (le16 0);
           msg ← rd s icmphdr (len bq);
           s ← wr s (icmphdr + 2) (le16 (inet_chksum icmphdr msg));
           let s := ICMP_STATS_INC Xmit s in
           '(_, s) ← ip4_output_if s q None (Some iphdr_src) ICMP_TTL 0 IP_PROTO_ICMP netif;
           mret s
         else mret s);
    free_pbuf s q.

Definition icmp_dest_unreach (s : nst) (p t : Z) : out nst := icmp_send_response s p ICMP_DUR t.
Definition icmp_time_exceeded (s : nst) (p t : Z) : out nst := icmp_send_response s p ICMP_TE t.
End Icmp.
