(* ===== verification/Udp.v ===== *)
(** * UDP

    src/lwip/src/core/udp.c: ports, binding, connecting, demultiplexing and sending.  Built with
    [SO_REUSE] and checksums, without UDP-Lite, IPv6, multicast options and broadcast
    filters.  The structs of the pool [MEMP_UDP_PCB] are named by their addresses. *)
From S2P Require Import Prelude Def Chksum Stats Iface Ip4Addr Pbuf Pcb Netif EthOut Etharp Ip4Out Icmp.

Definition UDP_LOCAL_PORT_RANGE_START : Z := 0xc000.
Definition UDP_LOCAL_PORT_RANGE_END : Z := 0xffff.
Definition UDP_ENSURE_LOCAL_PORT_RANGE (port : Z) : Z :=
  u16 (Z.land port (u16 (Z.lnot UDP_LOCAL_PORT_RANGE_START)) + UDP_LOCAL_PORT_RANGE_START).
Definition UDP_HLEN : Z := 8.
Definition UDP_FLAGS_NOCHKSUM : Z := 0x01.
Definition UDP_FLAGS_CONNECTED : Z := 0x04.
Definition UDP_TTL : Z := 255.
Definition SOF_REUSEADDR : Z := 0x04.
Definition ERR_USE : Z := -8.

(** [ip_get_option] and [udp_is_flag_set] *)
Definition has_flag (flags f : Z) : bool := negb (Z.land flags f =? 0).
(** [udp_clear_flags] *)
Definition clear_flag (flags f : Z) : Z := u8 (Z.land flags (u8 (Z.land (Z.lnot f) 0xff))).

(** The cast to [s16_t] *)
Definition s16 (x : Z) : Z := if u16 x <? 2 ^ 15 then u16 x else u16 x - 2 ^ 16.

Section Udp.
Context {M : Type} `{PM : PbufAlloc M} {E : NetEnv M} {U : IpUpper M}.
Abbreviation nst := (nst M).

Definition get_upcb (s : nst) (pcb : Z) : out udp_pcb := or_fault "struct udp_pcb" (upcbs (udps s) !! pcb).
Definition upd_upcb (s : nst) (pcb : Z) (f : udp_pcb → udp_pcb) : out nst :=
  x ← get_upcb s pcb; mret (set_udps s (set_upcbs (udps s) (<[pcb := f x]> (upcbs (udps s))))).
Definition udp_fuel (s : nst) : nat := S (size (upcbs (udps s))).

(** ** Pcbs *)

(** [ip_set_option] *)
Definition ip_set_option (s : nst) (pcb opt : Z) : out nst :=
  upd_upcb s pcb (λ x, set_u_ip x (set_so_options (u_ip x) (u8 (Z.lor (so_options (u_ip x)) opt)))).

Definition udp_init (s : nst) : nst :=
  let '(r, g) := rand (rng s) in
  set_udps (set_rng s g) (set_udp_port (udps s) (UDP_ENSURE_LOCAL_PORT_RANGE (u32 r))).

(** The inner loop of [udp_new_port]: whether [udp_port] is some pcb's port. *)
Fixpoint udp_port_used (fuel : nat) (s : nst) (pcb : Z) : out bool :=
  if pcb =? NULL then mret false
  else match fuel with
  | O => NoFuel
  | S fuel' =>
      x ← get_upcb s pcb;
      if u_local_port x =? udp_port (udps s) then mret true else udp_port_used fuel' s (u_next x)
  end.

(** From [again:] on. *)
Fixpoint udp_new_port_loop (fuel : nat) (s : nst) (n : Z) : out (Z * nst) :=
  match fuel with
  | O => NoFuel
  | S fuel' =>
      let port := udp_port (udps s) in
      let s := set_udps s (set_udp_port (udps s) (u16 (port + 1))) in
      let s := if port =? UDP_LOCAL_PORT_RANGE_END
               then set_udps s (set_udp_port (udps s) UDP_LOCAL_PORT_RANGE_START) else s in
      used ← udp_port_used (udp_fuel s) s (udp_pcbs (udps s));
      if (used : bool) then
        let n := u16 (n + 1) in
        if UDP_LOCAL_PORT_RANGE_END - UDP_LOCAL_PORT_RANGE_START <? n then mret (0, s)
        else udp_new_port_loop fuel' s n
      else mret (udp_port (udps s), s)
  end.

(** Every port of the range is tried at most once. *)
Definition udp_new_port (s : nst) : out (Z * nst) := udp_new_port_loop (Z.to_nat 0x4000) s 0.

(** Whether [pcb] is on the list from [ipcb] on. *)
Fixpoint udp_listed (fuel : nat) (s : nst) (pcb ipcb : Z) : out bool :=
  if ipcb =? NULL then mret false
  else match fuel with
  | O => NoFuel
  | S fuel' =>
      if pcb =? ipcb then mret true
      else x ← get_upcb s ipcb; udp_listed fuel' s pcb (u_next x)
  end.

(** The double bind check. *)
Fixpoint udp_bind_taken (fuel : nat) (s : nst) (pcb ipaddr port ipcb : Z) : out bool :=
  if ipcb =? NULL then mret false
  else match fuel with
  | O => NoFuel
  | S fuel' =>
      x ← get_upcb s ipcb;
      if negb (pcb =? ipcb) then
        y ← get_upcb s pcb;
        if (negb (has_flag (so_options (u_ip y)) SOF_REUSEADDR) || negb (has_flag (so_options (u_ip x)) SOF_REUSEADDR)) &&
           ((u_local_port x =? port) &&
            ((local_ip (u_ip x) =? ipaddr) || ip4_addr_isany ipaddr || ip4_addr_isany (local_ip (u_ip x))))
        then mret true
        else udp_bind_taken fuel' s pcb ipaddr port (u_next x)
      else udp_bind_taken fuel' s pcb ipaddr port (u_next x)
  end.

(** [pcb->next = udp_pcbs; udp_pcbs = pcb] *)
Definition udp_link (s : nst) (pcb : Z) : out nst :=
  s ← upd_upcb s pcb (λ x, set_u_next x (udp_pcbs (udps s)));
  mret (set_udps s (set_udp_pcbs (udps s) pcb)).

Definition udp_bind (s : nst) (pcb : Z) (ipaddr : option Z) (port : Z) : out (Z * nst) :=
  let ipaddr := default IPADDR_ANY ipaddr in
  if pcb =? NULL then mret (ERR_ARG, s)
  else
    rebind ← udp_listed (udp_fuel s) s pcb (udp_pcbs (udps s));
    '(r, s) ←
      (if port =? 0 then
         '(port, s) ← udp_new_port s;
         mret (if port =? 0 then None else Some port, s)
       else
         taken ← udp_bind_taken (udp_fuel s) s pcb ipaddr port (udp_pcbs (udps s));
         mret (if (taken : bool) then None else Some port, s));
    match r with
    | None => mret (ERR_USE, s)
    | Some port =>
        s ← upd_upcb s pcb (λ x, set_u_ip x (set_local_ip (u_ip x) ipaddr));
        s ← upd_upcb s pcb (λ x, set_u_local_port x port);
        s ← (if (rebind : bool) then mret s else udp_link s pcb);
        mret (ERR_OK, s)
    end.

Definition udp_bind_netif (s : nst) (pcb netif : Z) : out nst :=
  idx ← (if netif =? NULL then mret NETIF_NO_INDEX else f ← get_netif s netif; mret (netif_get_index f));
  upd_upcb s pcb (λ x, set_u_ip x (set_netif_idx (u_ip x) idx)).

(** [if (pcb->local_port == 0) udp_bind(pcb, &pcb->local_ip, pcb->local_port)], as [udp_connect] and
    [udp_sendto_if_src] have it. *)
Definition udp_auto_bind (s : nst) (pcb : Z) : out (Z * nst) :=
  x ← get_upcb s pcb;
  if u_local_port x =? 0 then udp_bind s pcb (Some (local_ip (u_ip x))) (u_local_port x) else mret (ERR_OK, s).

Definition udp_connect (s : nst) (pcb : Z) (ipaddr : option Z) (port : Z) : out (Z * nst) :=
  if pcb =? NULL then mret (ERR_ARG, s)
  else match ipaddr with
  | None => mret (ERR_ARG, s)
  | Some ipaddr =>
      '(err, s) ← udp_auto_bind s pcb;
      if negb (err =? ERR_OK) then mret (err, s)
      else
        s ← upd_upcb s pcb (λ x, set_u_ip x (set_remote_ip (u_ip x) ipaddr));
        s ← upd_upcb s pcb (λ x, set_u_remote_port x port);
        s ← upd_upcb s pcb (λ x, set_u_flags x (u8 (Z.lor (u_flags x) UDP_FLAGS_CONNECTED)));
        on ← udp_listed (udp_fuel s) s pcb (udp_pcbs (udps s));
        s ← (if (on : bool) then mret s else udp_link s pcb);
        mret (ERR_OK, s)
  end.

Definition udp_disconnect (s : nst) (pcb : Z) : out nst :=
  if pcb =? NULL then mret s
  else
    s ← upd_upcb s pcb (λ x, set_u_ip x (set_remote_ip (u_ip x) IPADDR_ANY));
    s ← upd_upcb s pcb (λ x, set_u_remote_port x 0);
    s ← upd_upcb s pcb (λ x, set_u_ip x (set_netif_idx (u_ip x) NETIF_NO_INDEX));
    upd_upcb s pcb (λ x, set_u_flags x (clear_flag (u_flags x) UDP_FLAGS_CONNECTED)).

Definition udp_recv (s : nst) (pcb recv recv_arg : Z) : out nst :=
  if pcb =? NULL then mret s else upd_upcb s pcb (λ x, set_u_recv x recv recv_arg).

(** The loop of [udp_remove]. *)
Fixpoint udp_unlink (fuel : nat) (s : nst) (pcb pcb2 : Z) : out nst :=
  if pcb2 =? NULL then mret s
  else match fuel with
  | O => NoFuel
  | S fuel' =>
      x2 ← get_upcb s pcb2;
      if negb (u_next x2 =? NULL) && (u_next x2 =? pcb)
      then x ← get_upcb s pcb; upd_upcb s pcb2 (λ x2, set_u_next x2 (u_next x))
      else udp_unlink fuel' s pcb (u_next x2)
  end.

(** [memp_free(MEMP_UDP_PCB, pcb)] *)
Definition udp_memp_free (s : nst) (pcb : Z) : out nst :=
  _ ← get_upcb s pcb;
  mret (set_udps s (set_udp_pool (set_upcbs (udps s) (delete pcb (upcbs (udps s)))) (pcb :: udp_pool (udps s)))).

Definition udp_remove (s : nst) (pcb : Z) : out nst :=
  if pcb =? NULL then mret s
  else
    s ← (if udp_pcbs (udps s) =? pcb
         then x ← get_upcb s (udp_pcbs (udps s)); mret (set_udps s (set_udp_pcbs (udps s) (u_next x)))
         else udp_unlink (udp_fuel s) s pcb (udp_pcbs (udps s)));
    udp_memp_free s pcb.

Definition udp_new (s : nst) : Z * nst :=
  match udp_pool (udps s) with
  | [] => (NULL, s)
  | pcb :: rest =>
      let x := set_u_ip udp_pcb_zero (set_pcb_ttl ip_pcb_zero UDP_TTL) in
      (pcb, set_udps s (set_udp_pool (set_upcbs (udps s) (<[pcb := x]> (upcbs (udps s)))) rest))
  end.

Definition udp_new_ip_type (s : nst) (type : Z) : Z * nst := udp_new s.

Fixpoint udp_netif_loop (fuel : nat) (s : nst) (old_addr new_addr upcb : Z) : out nst :=
  if upcb =? NULL then mret s
  else match fuel with
  | O => NoFuel
  | S fuel' =>
      x ← get_upcb s upcb;
      s ← (if local_ip (u_ip x) =? old_addr
           then upd_upcb s upcb (λ x, set_u_ip x (set_local_ip (u_ip x) new_addr)) else mret s);
      udp_netif_loop fuel' s old_addr new_addr (u_next x)
  end.

Definition udp_netif_ip_addr_changed (s : nst) (old_addr new_addr : option Z) : out nst :=
  match old_addr, new_addr with
  | Some old_addr, Some new_addr =>
      if negb (ip4_addr_isany old_addr) && negb (ip4_addr_isany new_addr)
      then udp_netif_loop (udp_fuel s) s old_addr new_addr (udp_pcbs (udps s)) else mret s
  | _, _ => mret s
  end.

(** ** Receiving *)

Definition udp_input_local_match (s : nst) (x : udp_pcb) (inp : Z) (broadcast : bool) : out bool :=
  other ← (if negb (netif_idx (u_ip x) =? NETIF_NO_INDEX)
           then f ← get_netif s (current_input_netif (ip_data (ips s))); mret (negb (netif_idx (u_ip x) =? netif_get_index f))
           else mret false);
  if (other : bool) then mret false
  else
    let dest := current_iphdr_dest (ip_data (ips s)) in
    if broadcast then
      if ip4_addr_isany (local_ip (u_ip x)) || (dest =? IPADDR_BROADCAST) then mret true
      else f ← get_netif s inp; mret (ip4_addr_net_eq (local_ip (u_ip x)) dest (nf_netmask f))
    else mret (ip4_addr_isany (local_ip (u_ip x)) || (local_ip (u_ip x) =? dest)).

(** The choice of [uncon_pcb] when the unconnected [pcb] matches. *)
Definition udp_uncon (s : nst) (pcb : Z) (x : udp_pcb) (uncon_pcb inp : Z) (broadcast : bool) : out Z :=
  if uncon_pcb =? NULL then mret pcb
  else if broadcast && (current_iphdr_dest (ip_data (ips s)) =? IPADDR_BROADCAST) then
    y ← get_upcb s uncon_pcb;
    f ← get_netif s inp;
    mret (if negb (local_ip (u_ip y) =? nf_ip_addr f) && (local_ip (u_ip x) =? nf_ip_addr f) then pcb else uncon_pcb)
  else if negb (ip4_addr_isany (local_ip (u_ip x))) then mret pcb
  else mret uncon_pcb.

(** The pcb found moves to the front. *)
Definition udp_to_front (s : nst) (pcb prev : Z) : out nst :=
  if negb (prev =? NULL) then
    x ← get_upcb s pcb;
    s ← upd_upcb s prev (λ y, set_u_next y (u_next x));
    udp_link s pcb
  else mret (UDP_STATS_INC Cachehit s).

(** The loop over the pcbs: [pcb] and [uncon_pcb] after it. *)
Fixpoint udp_search (fuel : nat) (s : nst) (inp src dest : Z) (broadcast : bool) (pcb prev uncon_pcb : Z) : out (Z * Z * nst) :=
  if pcb =? NULL then mret (NULL, uncon_pcb, s)
  else match fuel with
  | O => NoFuel
  | S fuel' =>
      x ← get_upcb s pcb;
      ok ← (if u_local_port x =? dest then udp_input_local_match s x inp broadcast else mret false);
      if (ok : bool) then
        uncon_pcb ← (if has_flag (u_flags x) UDP_FLAGS_CONNECTED then mret uncon_pcb
                     else udp_uncon s pcb x uncon_pcb inp broadcast);
        if (u_remote_port x =? src) &&
           (ip4_addr_isany (remote_ip (u_ip x)) || (remote_ip (u_ip x) =? current_iphdr_src (ip_data (ips s))))
        then s ← udp_to_front s pcb prev; mret (pcb, uncon_pcb, s)
        else udp_search fuel' s inp src dest broadcast (u_next x) pcb uncon_pcb
      else udp_search fuel' s inp src dest broadcast (u_next x) pcb uncon_pcb
  end.

(** The checksum over the pseudo header and the packet. *)
Definition udp_chksum (s : nst) (p src dest : Z) : out Z :=
  b ← get (pb s) p;
  segs ← pbuf_segments (chain_fuel (pb s)) s p;
  mret (ip_chksum_pseudo segs IP_PROTO_UDP (tot_len b) src dest).

(** [pbuf_free(p)], and the counters of the datagram. *)
Definition udp_drop (s : nst) (p : Z) (f : proto_field) : out nst :=
  free_pbuf (UDP_STATS_INC Drop (UDP_STATS_INC f s)) p.

(** No pcb, but our address. *)
Definition udp_unreachable (s : nst) (p : Z) (broadcast : bool) : out nst :=
  s ← (if negb broadcast && negb (ip4_addr_ismulticast (current_iphdr_dest (ip_data (ips s)))) then
         '(_, s) ← withp s (λ q, pbuf_header_force q p (s16 (current_ip_header_tot_len (ip_data (ips s)) + UDP_HLEN)));
         icmp_dest_unreach s p ICMP_DUR_PORT
       else mret s);
  udp_drop s p Proterr.

(** The header is gone: the datagram goes to [pcb]. *)
Definition udp_deliver (s : nst) (p pcb src : Z) (broadcast : bool) : out nst :=
  if negb (pcb =? NULL) then
    x ← get_upcb s pcb;
    if negb (u_recv x =? NULL)
    then udp_recv_fn (u_recv x) s (u_recv_arg x) pcb p (current_iphdr_src (ip_data (ips s))) src
    else free_pbuf s p
  else udp_unreachable s p broadcast.

Definition udp_input (s : nst) (p inp : Z) : out nst :=
  let s := UDP_STATS_INC Recv s in
  b ← get (pb s) p;
  if len b <? UDP_HLEN then udp_drop s p Lenerr
  else
    let udphdr := payload b in
    f ← get_netif s (current_netif (ip_data (ips s)));
    let broadcast := ip4_addr_isbroadcast (current_iphdr_dest (ip_data (ips s))) f in
    src ← rd16 s udphdr;
    let src := lwip_htons src in
    dest ← rd16 s (udphdr + 2);
    let dest := lwip_htons dest in
    '(pcb, uncon_pcb, s) ← udp_search (udp_fuel s) s inp src dest broadcast (udp_pcbs (udps s)) NULL NULL;
    let pcb := if pcb =? NULL then uncon_pcb else pcb in
    for_us ← (if negb (pcb =? NULL) then mret true
              else f ← get_netif s inp; mret (nf_ip_addr f =? current_iphdr_dest (ip_data (ips s))));
    if (for_us : bool) then
      chksum ← rd16 s (udphdr + 6);
      bad ← (if negb (chksum =? 0) then
               c ← udp_chksum s p (current_iphdr_src (ip_data (ips s))) (current_iphdr_dest (ip_data (ips s)));
               mret (negb (c =? 0))
             else mret false);
      if (bad : bool) then udp_drop s p Chkerr
      else
        '(e, s) ← withp s (λ q, pbuf_remove_header q p UDP_HLEN);
        if negb (e =? 0) then
          _ ← lwip_assert "pbuf_remove_header failed" false;
          free_pbuf (UDP_STATS_INC Drop s) p
        else udp_deliver s p pcb src broadcast
    else free_pbuf s p.

(** ** Sending *)

(** The packet with room for the header: [p] itself, or a new buffer in front of it; NULL is
    [return ERR_MEM]. *)
Definition udp_header_room (s : nst) (p : Z) : out (Z * nst) :=
  '(e, s) ← withp s (λ x, pbuf_add_header x p UDP_HLEN);
  if negb (e =? 0) then
    '(q, s) ← withp s (λ x, pbuf_alloc env_custom_free x PBUF_IP UDP_HLEN PBUF_RAM);
    if q =? NULL then mret (NULL, s)
    else
      b ← get (pb s) p;
      s ← (if negb (tot_len b =? 0) then x ← pbuf_chain (pb s) q p; mret (set_pb s x) else mret s);
      mret (q, s)
  else mret (p, s).

(** The header is filled in. *)
Definition udp_fill_hdr (s : nst) (pcb q dst_ip dst_port src_ip : Z) : out nst :=
  b ← get (pb s) q;
  _ ← lwip_assert "check that first pbuf can hold struct udp_hdr" (UDP_HLEN <=? len b);
  let udphdr := payload b in
  x ← get_upcb s pcb;
  s ← wr s udphdr (le16 (lwip_htons (u_local_port x)));
  s ← wr s (udphdr + 2) (le16 (lwip_htons dst_port));
  s ← wr s (udphdr + 6) (le16 0);
  s ← wr s (udphdr + 4) (le16 (lwip_htons (tot_len b)));
  if has_flag (u_flags x) UDP_FLAGS_NOCHKSUM then mret s
  else
    udpchksum ← udp_chksum s q src_ip dst_ip;
    let udpchksum := if udpchksum =? 0 then 0xffff else udpchksum in
    wr s (udphdr + 6) (le16 udpchksum).

Definition udp_sendto_if_src (s : nst) (pcb p : Z) (dst_ip : option Z) (dst_port netif : Z) (src_ip : option Z) : out (Z * nst) :=
  if (pcb =? NULL) || (p =? NULL) then mret (ERR_ARG, s)
  else match dst_ip, src_ip with
  | Some dst_ip, Some src_ip =>
      if netif =? NULL then mret (ERR_ARG, s)
      else
        '(err, s) ← udp_auto_bind s pcb;
        if negb (err =? ERR_OK) then mret (err, s)
        else
          b ← get (pb s) p;
          if u16 (tot_len b + UDP_HLEN) <? tot_len b then mret (ERR_MEM, s)
          else
            '(q, s) ← udp_header_room s p;
            if q =? NULL then mret (ERR_MEM, s)
            else
              s ← udp_fill_hdr s pcb q dst_ip dst_port src_ip;
              x ← get_upcb s pcb;
              '(err, s) ← ip4_output_if_src s q (Some src_ip) (Some dst_ip) (pcb_ttl (u_ip x)) (pcb_tos (u_ip x)) IP_PROTO_UDP netif;
              s ← (if negb (q =? p) then free_pbuf s q else mret s);
              mret (err, UDP_STATS_INC Xmit s)
  | _, _ => mret (ERR_ARG, s)
  end.

Definition udp_sendto_if (s : nst) (pcb p : Z) (dst_ip : option Z) (dst_port netif : Z) : out (Z * nst) :=
  if (pcb =? NULL) || (p =? NULL) then mret (ERR_ARG, s)
  else match dst_ip with
  | None => mret (ERR_ARG, s)
  | Some _ =>
      if netif =? NULL then mret (ERR_ARG, s)
      else
        x ← get_upcb s pcb;
        f ← get_netif s netif;
        if ip4_addr_isany (local_ip (u_ip x)) || ip4_addr_ismulticast (local_ip (u_ip x))
        then udp_sendto_if_src s pcb p dst_ip dst_port netif (Some (nf_ip_addr f))
        else if negb (local_ip (u_ip x) =? nf_ip_addr f) then mret (ERR_RTE, s)
        else udp_sendto_if_src s pcb p dst_ip dst_port netif (Some (local_ip (u_ip x)))
  end.

Definition udp_sendto (s : nst) (pcb p : Z) (dst_ip : option Z) (dst_port : Z) : out (Z * nst) :=
  if (pcb =? NULL) || (p =? NULL) then mret (ERR_ARG, s)
  else match dst_ip with
  | None => mret (ERR_ARG, s)
  | Some _ =>
      x ← get_upcb s pcb;
      '(netif, s) ← (if negb (netif_idx (u_ip x) =? NETIF_NO_INDEX)
                     then n ← netif_get_by_index s (netif_idx (u_ip x)); mret (n, s)
                     else ip4_route s dst_ip);
      if netif =? NULL then mret (ERR_RTE, UDP_STATS_INC Rterr s)
      else udp_sendto_if s pcb p dst_ip dst_port netif
  end.

Definition udp_send (s : nst) (pcb p : Z) : out (Z * nst) :=
  if (pcb =? NULL) || (p =? NULL) then mret (ERR_ARG, s)
  else x ← get_upcb s pcb; udp_sendto s pcb p (Some (remote_ip (u_ip x))) (u_remote_port x).
End Udp.
