(* ===== verification/Raw.v ===== *)
(** * Raw IP pcbs

    src/lwip/src/core/raw.c: matching received packets, binding, connecting and sending.  Built
    without IPv6, multicast options and broadcast filters.  The structs of the pool
    [MEMP_RAW_PCB] are named by their addresses. *)
From S2P Require Import Prelude Def Stats Iface Ip4Addr Pbuf Pcb Netif EthOut Etharp Ip4Out Icmp Udp.

Definition RAW_FLAGS_CONNECTED : Z := 0x01.
Definition RAW_FLAGS_HDRINCL : Z := 0x02.
Definition RAW_TTL : Z := 255.

Section Raw.
Context {M : Type} `{PM : PbufAlloc M} {E : NetEnv M} {U : IpUpper M}.
Abbreviation nst := (nst M).

Definition get_rpcb (s : nst) (pcb : Z) : out raw_pcb := or_fault "struct raw_pcb" (rpcbs (raws s) !! pcb).
Definition upd_rpcb (s : nst) (pcb : Z) (f : raw_pcb → raw_pcb) : out nst :=
  x ← get_rpcb s pcb; mret (set_raws s (set_rpcbs (raws s) (<[pcb := f x]> (rpcbs (raws s))))).
Definition raw_fuel (s : nst) : nat := S (size (rpcbs (raws s))).

(** ** Receiving *)

Definition raw_input_local_match (s : nst) (x : raw_pcb) (broadcast : bool) : out bool :=
  other ← (if negb (netif_idx (r_ip x) =? NETIF_NO_INDEX)
           then f ← get_netif s (current_input_netif (ip_data (ips s))); mret (negb (netif_idx (r_ip x) =? netif_get_index f))
           else mret false);
  if (other : bool) then mret false
  else if broadcast then mret (ip4_addr_isany (local_ip (r_ip x)))
  else mret (ip4_addr_isany (local_ip (r_ip x)) || (local_ip (r_ip x) =? current_iphdr_dest (ip_data (ips s)))).

(** The condition of the loop of [raw_input]. *)
Definition raw_match (s : nst) (x : raw_pcb) (proto : Z) (broadcast : bool) : out bool :=
  if r_protocol x =? proto then
    ok ← raw_input_local_match s x broadcast;
    mret (ok && (negb (has_flag (r_flags x) RAW_FLAGS_CONNECTED) || (remote_ip (r_ip x) =? current_iphdr_src (ip_data (ips s)))))
  else mret false.

(** [pcb->next = raw_pcbs; raw_pcbs = pcb] *)
Definition raw_link (s : nst) (pcb : Z) : out nst :=
  s ← upd_rpcb s pcb (λ x, set_r_next x (raw_pcbs (raws s)));
  mret (set_raws s (set_raw_pcbs (raws s) pcb)).

(** The pcb that has eaten the packet moves to the front. *)
Definition raw_to_front (s : nst) (pcb prev : Z) : out nst :=
  if negb (prev =? NULL) then
    x ← get_rpcb s pcb;
    s ← upd_rpcb s prev (λ y, set_r_next y (r_next x));
    raw_link s pcb
  else mret s.

Fixpoint raw_input_loop (fuel : nat) (s : nst) (p proto : Z) (broadcast : bool) (pcb prev : Z) (ret : raw_input_state)
  : out (raw_input_state * nst) :=
  if pcb =? NULL then mret (ret, s)
  else match fuel with
  | O => NoFuel
  | S fuel' =>
      x ← get_rpcb s pcb;
      ok ← raw_match s x proto broadcast;
      if (ok : bool) && negb (r_recv x =? NULL) then
        b ← get (pb s) p;
        let old_payload := payload b in
        '(eaten, s) ← raw_recv_fn (r_recv x) s (r_recv_arg x) pcb p (current_iphdr_src (ip_data (ips s)));
        if negb (eaten =? 0) then s ← raw_to_front s pcb prev; mret (RAW_INPUT_EATEN, s)
        else
          b ← get (pb s) p;
          _ ← lwip_assert "raw pcb recv callback altered pbuf payload pointer without eating packet" (payload b =? old_payload);
          x ← get_rpcb s pcb;
          raw_input_loop fuel' s p proto broadcast (r_next x) pcb RAW_INPUT_DELIVERED
      else raw_input_loop fuel' s p proto broadcast (r_next x) pcb ret
  end.

Definition raw_input (s : nst) (p inp : Z) : out (raw_input_state * nst) :=
  f ← get_netif s (current_netif (ip_data (ips s)));
  let broadcast := ip4_addr_isbroadcast (current_iphdr_dest (ip_data (ips s))) f in
  b ← get (pb s) p;
  proto ← rd8 s (payload b + 9);
  raw_input_loop (raw_fuel s) s p proto broadcast (raw_pcbs (raws s)) NULL RAW_INPUT_NONE.

(** ** Pcbs *)

Definition raw_bind (s : nst) (pcb : Z) (ipaddr : option Z) : out (Z * nst) :=
  match ipaddr with
  | Some ipaddr =>
      if pcb =? NULL then mret (ERR_VAL, s)
      else s ← upd_rpcb s pcb (λ x, set_r_ip x (set_local_ip (r_ip x) ipaddr)); mret (ERR_OK, s)
  | None => mret (ERR_VAL, s)
  end.

Definition raw_bind_netif (s : nst) (pcb netif : Z) : out nst :=
  idx ← (if netif =? NULL then mret NETIF_NO_INDEX else f ← get_netif s netif; mret (netif_get_index f));
  upd_rpcb s pcb (λ x, set_r_ip x (set_netif_idx (r_ip x) idx)).

Definition raw_connect (s : nst) (pcb : Z) (ipaddr : option Z) : out (Z * nst) :=
  match ipaddr with
  | Some ipaddr =>
      if pcb =? NULL then mret (ERR_VAL, s)
      else
        s ← upd_rpcb s pcb (λ x, set_r_ip x (set_remote_ip (r_ip x) ipaddr));
        s ← upd_rpcb s pcb (λ x, set_r_flags x (u8 (Z.lor (r_flags x) RAW_FLAGS_CONNECTED)));
        mret (ERR_OK, s)
  | None => mret (ERR_VAL, s)
  end.

Definition raw_disconnect (s : nst) (pcb : Z) : out nst :=
  s ← upd_rpcb s pcb (λ x, set_r_ip x (set_remote_ip (r_ip x) IPADDR_ANY));
  s ← upd_rpcb s pcb (λ x, set_r_ip x (set_netif_idx (r_ip x) NETIF_NO_INDEX));
  upd_rpcb s pcb (λ x, set_r_flags x (clear_flag (r_flags x) RAW_FLAGS_CONNECTED)).

Definition raw_recv (s : nst) (pcb recv recv_arg : Z) : out nst := upd_rpcb s pcb (λ x, set_r_recv x recv recv_arg).

(** The loop of [raw_remove]. *)
Fixpoint raw_unlink (fuel : nat) (s : nst) (pcb pcb2 : Z) : out nst :=
  if pcb2 =? NULL then mret s
  else match fuel with
  | O => NoFuel
  | S fuel' =>
      x2 ← get_rpcb s pcb2;
      if negb (r_next x2 =? NULL) && (r_next x2 =? pcb)
      then x ← get_rpcb s pcb; upd_rpcb s pcb2 (λ x2, set_r_next x2 (r_next x))
      else raw_unlink fuel' s pcb (r_next x2)
  end.

(** [memp_free(MEMP_RAW_PCB, pcb)] *)
Definition raw_memp_free (s : nst) (pcb : Z) : out nst :=
  _ ← get_rpcb s pcb;
  mret (set_raws s (set_raw_pool (set_rpcbs (raws s) (delete pcb (rpcbs (raws s)))) (pcb :: raw_pool (raws s)))).

Definition raw_remove (s : nst) (pcb : Z) : out nst :=
  s ← (if raw_pcbs (raws s) =? pcb
       then x ← get_rpcb s (raw_pcbs (raws s)); mret (set_raws s (set_raw_pcbs (raws s) (r_next x)))
       else raw_unlink (raw_fuel s) s pcb (raw_pcbs (raws s)));
  raw_memp_free s pcb.

Definition raw_new (s : nst) (proto : Z) : Z * nst :=
  match raw_pool (raws s) with
  | [] => (NULL, s)
  | pcb :: rest =>
      let x := set_r_next (set_r_ip (set_r_protocol raw_pcb_zero proto) (set_pcb_ttl ip_pcb_zero RAW_TTL)) (raw_pcbs (raws s)) in
      (pcb, set_raws s (set_raw_pcbs (set_raw_pool (set_rpcbs (raws s) (<[pcb := x]> (rpcbs (raws s)))) rest) pcb))
  end.

Definition raw_new_ip_type (s : nst) (type proto : Z) : Z * nst := raw_new s proto.

Fixpoint raw_netif_loop (fuel : nat) (s : nst) (old_addr new_addr rpcb : Z) : out nst :=
  if rpcb =? NULL then mret s
  else match fuel with
  | O => NoFuel
  | S fuel' =>
      x ← get_rpcb s rpcb;
      s ← (if local_ip (r_ip x) =? old_addr
           then upd_rpcb s rpcb (λ x, set_r_ip x (set_local_ip (r_ip x) new_addr)) else mret s);
      raw_netif_loop fuel' s old_addr new_addr (r_next x)
  end.

Definition raw_netif_ip_addr_changed (s : nst) (old_addr new_addr : option Z) : out nst :=
  match old_addr, new_addr with
  | Some old_addr, Some new_addr =>
      if negb (ip4_addr_isany old_addr) && negb (ip4_addr_isany new_addr)
      then raw_netif_loop (raw_fuel s) s old_addr new_addr (raw_pcbs (raws s)) else mret s
  | _, _ => mret s
  end.

(** ** Sending *)

(** The packet [ip4_output_if] can put its header in front of: [p] itself, or an empty buffer in front of it;
    NULL is [return ERR_MEM]. *)
Definition raw_header_room (s : nst) (p : Z) : out (Z * nst) :=
  '(e, s) ← withp s (λ x, pbuf_add_header x p IP_HLEN);
  if negb (e =? 0) then
    '(q, s) ← withp s (λ x, pbuf_alloc env_custom_free x PBUF_IP 0 PBUF_RAM);
    if q =? NULL then mret (NULL, s)
    else
      b ← get (pb s) p;
      s ← (if negb (tot_len b =? 0) then x ← pbuf_chain (pb s) q p; mret (set_pb s x) else mret s);
      mret (q, s)
  else
    '(e, s) ← withp s (λ x, pbuf_remove_header x p IP_HLEN);
    if negb (e =? 0) then _ ← lwip_assert "Can't restore header we just removed!" false; mret (NULL, s)
    else mret (p, s).

Definition raw_sendto_if_src (s : nst) (pcb p : Z) (dst_ip : option Z) (netif : Z) (src_ip : option Z) : out (Z * nst) :=
  match dst_ip, src_ip with
  | Some dst_ip, Some src_ip =>
      if (pcb =? NULL) || (netif =? NULL) then mret (ERR_VAL, s)
      else
        x ← get_rpcb s pcb;
        b ← get (pb s) p;
        if has_flag (r_flags x) RAW_FLAGS_HDRINCL then
          if len b <? IP_HLEN then mret (ERR_VAL, s)
          else ip4_output_if s p (Some src_ip) None 0 0 0 netif
        else if u16 (tot_len b + IP_HLEN) <? tot_len b then mret (ERR_MEM, s)
        else
          '(q, s) ← raw_header_room s p;
          if q =? NULL then mret (ERR_MEM, s)
          else
            x ← get_rpcb s pcb;
            '(err, s) ← ip4_output_if s q (Some src_ip) (Some dst_ip) (pcb_ttl (r_ip x)) (pcb_tos (r_ip x)) (r_protocol x) netif;
            s ← (if negb (q =? p) then free_pbuf s q else mret s);
            mret (err, s)
  | _, _ => mret (ERR_VAL, s)
  end.

Definition raw_sendto (s : nst) (pcb p : Z) (ipaddr : option Z) : out (Z * nst) :=
  match ipaddr with
  | None => mret (ERR_VAL, s)
  | Some _ =>
      if pcb =? NULL then mret (ERR_VAL, s)
      else
        x ← get_rpcb s pcb;
        '(netif, s) ← (if negb (netif_idx (r_ip x) =? NETIF_NO_INDEX)
                       then n ← netif_get_by_index s (netif_idx (r_ip x)); mret (n, s)
                       else ip4_route s ipaddr);
        if netif =? NULL then mret (ERR_RTE, s)
        else
          f ← get_netif s netif;
          let src_ip := if ip4_addr_isany (local_ip (r_ip x)) || ip4_addr_ismulticast (local_ip (r_ip x))
                        then nf_ip_addr f else local_ip (r_ip x) in
          raw_sendto_if_src s pcb p ipaddr netif (Some src_ip)
  end.

Definition raw_send (s : nst) (pcb p : Z) : out (Z * nst) :=
  x ← get_rpcb s pcb; raw_sendto s pcb p (Some (remote_ip (r_ip x))).
End Raw.
