(* ===== verification/UdpInv.v ===== *)
(** * UDP pcbs

    What the operations on UDP pcbs do to the list of pcbs, that they return, and that they keep
    the state well formed. *)
From S2P Require Import Prelude Def Chksum Stats Iface Ip4Addr Pbuf PbufChain PbufClient PbufData PbufClone Pcb Netif NetInv Links EthOut Region Acd Etharp EtharpInv EtharpTmr EtharpRes EtharpQuery EtharpOut EtharpIn EthIn Ip4Out Ip4OutInv Icmp Udp.

(** ** The numbers of ports *)

(** The [k]th port [udp_new_port] tries, from [start] on. *)
Definition port_at (start : Z) (k : nat) : Z := 0xc000 + (start - 0xc000 + Z.of_nat k) mod 0x4000.

Lemma port_at_range start k : 0xc000 ≤ port_at start k ≤ 0xffff.
Proof. unfold port_at. pose proof (Z.mod_pos_bound (start - 0xc000 + Z.of_nat k) 0x4000). lia. Qed.

Lemma port_at_0 port : 0xc000 ≤ port ≤ 0xffff → port_at port 0 = port.
Proof. intros Hp. unfold port_at. rewrite Z.mod_small by lia. lia. Qed.

Lemma port_at_S start k : (if port_at start k =? 0xffff then 0xc000 else u16 (port_at start k + 1)) = port_at start (S k).
Proof.
  pose proof (port_at_range start k). unfold port_at in *. rewrite Nat2Z.inj_succ. set (x := start - 0xc000 + Z.of_nat k) in *.
  replace (start - 0xc000 + Z.succ (Z.of_nat k)) with (x + 1) by lia. clearbody x.
  pose proof (Z.mod_pos_bound (x + 1) 0x4000) as Hb.
  assert (x mod 0x4000 = 0x3fff ∧ (x + 1) mod 0x4000 = 0 ∨ (x + 1) mod 0x4000 = x mod 0x4000 + 1) as Hc by (Z.div_mod_to_equations; lia).
  destruct (Z.eqb_spec (0xc000 + x mod 0x4000) 0xffff) as [He|He]; [lia|]. rewrite u16_id by (unfold is_u16; lia). lia.
Qed.

Lemma port_at_inj start i j : Z.of_nat i < 0x4000 → Z.of_nat j < 0x4000 → port_at start i = port_at start j → i = j.
Proof. unfold port_at. intros Hi Hj Heq. Z.div_mod_to_equations. lia. Qed.

(** Among more ports than are in use one is free. *)
Lemma port_pigeon start (k : nat) (used : list Z) : Z.of_nat k ≤ 0x4000 → (∀ j, (j < k)%nat → port_at start j ∈ used) → (k ≤ length used)%nat.
Proof.
  intros Hk Hall. assert (length (port_at start <$> seq 0 k) ≤ length used)%nat as Hl; [|by rewrite length_fmap, length_seq in Hl].
  apply submseteq_length, NoDup_submseteq.
  - apply NoDup_fmap_2_strong; [|apply NoDup_seq]. intros i j [_ Hi]%elem_of_seq [_ Hj]%elem_of_seq. apply port_at_inj; lia.
  - intros x (j & -> & [_ Hj]%elem_of_seq)%list_elem_of_fmap. apply Hall. lia.
Qed.

(** ** The list of pcbs *)

Abbreviation upcb_list := (list (Z * udp_pcb)).

Definition port_in (port : Z) (L : upcb_list) : bool := existsb (λ kx, u_local_port kx.2 =? port) L.

Lemma port_in_ports port L : port_in port L = true ↔ port ∈ (λ kx, u_local_port kx.2) <$> L.
Proof.
  unfold port_in. rewrite existsb_exists, list_elem_of_fmap. setoid_rewrite Z.eqb_eq. setoid_rewrite <- list_elem_of_In.
  split; intros (kx & H1 & H2); by exists kx.
Qed.

(** The rule of the double bind check, for a pcb [y] that asks for [ip] and [port]. *)
Definition clash (y : udp_pcb) (ip port : Z) (x : udp_pcb) : bool :=
  (negb (has_flag (so_options (u_ip y)) SOF_REUSEADDR) || negb (has_flag (so_options (u_ip x)) SOF_REUSEADDR)) &&
  ((u_local_port x =? port) && ((local_ip (u_ip x) =? ip) || ip4_addr_isany ip || ip4_addr_isany (local_ip (u_ip x)))).

Definition taken (pcb : Z) (y : udp_pcb) (ip port : Z) (L : upcb_list) : bool :=
  existsb (λ kx, negb (pcb =? kx.1) && clash y ip port kx.2) L.

(** The fields the operations set. *)
Definition bound_to (x : udp_pcb) (ip port : Z) : udp_pcb := set_u_local_port (set_u_ip x (set_local_ip (u_ip x) ip)) port.
Definition connected_to (x : udp_pcb) (ip port : Z) : udp_pcb :=
  set_u_flags (set_u_remote_port (set_u_ip x (set_remote_ip (u_ip x) ip)) port) (u8 (Z.lor (u_flags x) UDP_FLAGS_CONNECTED)).
Definition disconnected (x : udp_pcb) : udp_pcb :=
  set_u_flags (set_u_ip (set_u_remote_port x 0) (set_netif_idx (set_remote_ip (u_ip x) IPADDR_ANY) NETIF_NO_INDEX))
    (clear_flag (u_flags x) UDP_FLAGS_CONNECTED).
Definition udp_fresh : udp_pcb := set_u_ip udp_pcb_zero (set_pcb_ttl ip_pcb_zero UDP_TTL).

Lemma bound_ok x ip port : udp_pcb_ok x → is_u32 ip → is_u16 port → udp_pcb_ok (bound_to x ip port).
Proof. intros [[? ? ? ? ? ?] ? ? ?] Hi Hp. split; [by split|done..]. Qed.

Lemma connected_ok x ip port : udp_pcb_ok x → is_u32 ip → is_u16 port → udp_pcb_ok (connected_to x ip port).
Proof. intros [[? ? ? ? ? ?] ? ? ?] Hi Hp. split; [by split|apply u8_range|done..]. Qed.

Lemma disconnected_ok x : udp_pcb_ok x → udp_pcb_ok (disconnected x).
Proof. intros [[? ? ? ? ? ?] ? ? ?]. split; [by split|apply u8_range|done..]. Qed.

Lemma fresh_ok : udp_pcb_ok udp_fresh.
Proof. split; [by split|done..]. Qed.

(** ** [udp_ok] in terms of the list *)

Lemma udp_ok_list u : udp_ok u → ∃ L, nlist u_next (upcbs u) (udp_pcbs u) L ∧ Forall (λ kx, u_local_port kx.2 ≠ 0) L.
Proof.
  intros Hu. destruct (uo_list _ Hu) as (l & Hc & Hl). apply chain_nlist in Hc as (L & HL & <-). exists L. split; [done|].
  apply Forall_forall. intros [p x] Hin. apply (Hl p); [apply list_elem_of_fmap; by exists (p, x)|]. by apply (nlist_elem _ _ _ _ _ _ HL Hin).
Qed.

Lemma udp_ok_ports u L : udp_ok u → nlist u_next (upcbs u) (udp_pcbs u) L → Forall (λ kx, u_local_port kx.2 ≠ 0) L.
Proof. intros Hu HL. destruct (udp_ok_list u Hu) as (L' & HL' & HF). by rewrite (nlist_det _ _ _ _ _ HL HL'). Qed.

(** A list for the structs of the pool. *)
Lemma udp_ok_intro u L : nlist u_next (upcbs u) (udp_pcbs u) L → Forall (λ kx, u_local_port kx.2 ≠ 0) L →
  (∀ n x, upcbs u !! n = Some x → n ≠ NULL ∧ udp_pcb_ok x) → (∀ n, n ∈ udp_pool u → n ≠ NULL ∧ upcbs u !! n = None) →
  NoDup (udp_pool u) → (size (upcbs u) + length (udp_pool u) = MEMP_NUM_UDP_PCB)%nat → 0xc000 ≤ udp_port u ≤ 0xffff → udp_ok u.
Proof.
  intros HL HF H1 H2 H3 H4 H5. split; [|done..]. exists L.*1. split; [by apply nlist_chain|].
  intros n x ([p y] & -> & Hin)%list_elem_of_fmap Hx. destruct (nlist_elem _ _ _ _ _ _ HL Hin) as [_ Hy].
  rewrite Forall_forall in HF. specialize (HF _ Hin). cbn in *. congruence.
Qed.

Section Pcbs.
Context {M : Type} `{PM : PbufAlloc M} {E : NetEnv M} {U : IpUpper M}.
Abbreviation pst := (@pst M).
Abbreviation nst := (nst M).

Definition ulist (s : nst) (L : upcb_list) : Prop := nlist u_next (upcbs (udps s)) (udp_pcbs (udps s)) L.

Lemma ninv_udps s live own u : ninv s live own → udp_ok u → ninv (set_udps s u) live own.
Proof. intros [? ? ? ? ? ? ? ?] Hu. by split. Qed.

Lemma ninv_udp_stat f s live own : ninv s live own → ninv (UDP_STATS_INC f s) live own.
Proof. intros Hi. apply ninv_udps; [done|]. by destruct (ni_udp _ _ _ Hi). Qed.

Lemma ninv_ulist s live own : ninv s live own → ∃ L, ulist s L.
Proof. intros Hi. destruct (udp_ok_list _ (ni_udp _ _ _ Hi)) as (L & HL & _). by exists L. Qed.

Lemma ulist_size s live own L : ninv s live own → ulist s L → (length L ≤ 4)%nat ∧ (length L ≤ udp_fuel s)%nat.
Proof.
  intros Hi HL. pose proof (nlist_length _ _ _ _ HL) as Hl. pose proof (uo_size _ (ni_udp _ _ _ Hi)) as Hs.
  unfold MEMP_NUM_UDP_PCB, udp_fuel in *. lia.
Qed.

Lemma ulist_NoDup s L : ulist s L → NoDup L.*1.
Proof. apply nlist_NoDup. Qed.

Lemma upcb_ok s live own p x : ninv s live own → upcbs (udps s) !! p = Some x → p ≠ NULL ∧ udp_pcb_ok x.
Proof. intros Hi. apply (uo_pcb _ (ni_udp _ _ _ Hi)). Qed.

(** A pcb on the list is bound. *)
Lemma listed_port s live own L p x : ninv s live own → ulist s L → upcbs (udps s) !! p = Some x → p ∈ L.*1 → u_local_port x ≠ 0.
Proof.
  intros Hi HL Hx ([q y] & -> & Hin)%list_elem_of_fmap. pose proof (udp_ok_ports _ _ (ni_udp _ _ _ Hi) HL) as HF.
  rewrite Forall_forall in HF. specialize (HF _ Hin). destruct (nlist_elem _ _ _ _ _ _ HL Hin) as [_ Hy]. cbn in *. congruence.
Qed.

Lemma get_upcb_run (s : nst) p x : upcbs (udps s) !! p = Some x → get_upcb s p = Clean x.
Proof. intros Hx. unfold get_upcb. by rewrite Hx. Qed.

(** The struct at [p] is [x]. *)
Definition put_upcb (s : nst) (p : Z) (x : udp_pcb) : nst := set_udps s (set_upcbs (udps s) (<[p := x]> (upcbs (udps s)))).

Lemma upd_upcb_run (s : nst) p x f : upcbs (udps s) !! p = Some x → upd_upcb s p f = Clean (put_upcb s p (f x)).
Proof. intros Hx. unfold upd_upcb. rewrite (get_upcb_run _ _ _ Hx). by out_simp. Qed.

Lemma put_upcb_lookup (s : nst) p x : upcbs (udps (put_upcb s p x)) !! p = Some x.
Proof. apply lookup_insert_eq. Qed.

Lemma upd_upcb_again (s : nst) p x f : upd_upcb (put_upcb s p x) p f = Clean (put_upcb s p (f x)).
Proof.
  rewrite (upd_upcb_run _ _ x) by apply put_upcb_lookup. unfold put_upcb, set_udps, set_upcbs. cbn [udps upcbs udp_pcbs udp_port udp_pool stat_udp].
  by rewrite insert_insert_eq.
Qed.

Lemma put_upcb_ok s live own L p x x' : ninv s live own → ulist s L → upcbs (udps s) !! p = Some x → udp_pcb_ok x' →
  u_next x' = u_next x → (p ∈ L.*1 → u_local_port x' ≠ 0) →
  ninv (put_upcb s p x') live own ∧ ulist (put_upcb s p x') (put_at p x' L).
Proof.
  intros Hi HL Hx Hok Hn Hport. pose proof (ni_udp _ _ _ Hi) as Hu. pose proof (nlist_put _ _ _ _ p x x' HL Hx Hn) as HL'.
  split; [|done]. apply ninv_udps; [done|]. destruct Hu as [U1 U2 U3 U4 U5 U6]. apply (udp_ok_intro (udps (put_upcb s p x')) (put_at p x' L) HL'); try done.
  - apply Forall_forall. intros [q y] [(-> & -> & Hin)|[Hne Hin]]%put_at_elem; [by apply Hport|].
    pose proof (udp_ok_ports _ _ (ni_udp _ _ _ Hi) HL) as HF. rewrite Forall_forall in HF. by apply (HF _ Hin).
  - cbn. intros n y [[<- <-]|[_ Hy]]%lookup_insert_Some; [|by apply U2]. split; [|done]. by apply (U2 p x).
  - cbn. intros n Hn'. destruct (U3 n Hn') as [? ?]. split; [done|]. rewrite lookup_insert_ne; [done|]. intros ->. congruence.
  - cbn. rewrite <- U5. f_equal. apply map_size_insert_Some. by eexists.
Qed.

(** The struct at [p], not on the list, becomes its head. *)
Definition link_upcb (s : nst) (p : Z) (x : udp_pcb) : nst :=
  let s1 := put_upcb s p (set_u_next x (udp_pcbs (udps s))) in set_udps s1 (set_udp_pcbs (udps s1) p).

Lemma udp_link_run (s : nst) p x : upcbs (udps s) !! p = Some x → udp_link s p = Clean (link_upcb s p x).
Proof. intros Hx. unfold udp_link. rewrite (upd_upcb_run _ _ _ _ Hx), bind_clean. done. Qed.

Lemma link_upcb_ok s live own L p x x' : ninv s live own → ulist s L → upcbs (udps s) !! p = Some x → udp_pcb_ok x' →
  p ∉ L.*1 → u_local_port x' ≠ 0 →
  ninv (link_upcb s p x') live own ∧ ulist (link_upcb s p x') ((p, set_u_next x' (udp_pcbs (udps s))) :: L).
Proof.
  intros Hi HL Hx Hok Hn Hport. pose proof (ni_udp _ _ _ Hi) as Hu. destruct (upcb_ok _ _ _ _ _ Hi Hx) as [Hp _].
  assert (ulist (link_upcb s p x') ((p, set_u_next x' (udp_pcbs (udps s))) :: L)) as HL'.
  { constructor; [done|apply lookup_insert_eq|]. by apply (nlist_insert _ _ _ _ _ _ HL). }
  split; [|done]. change (link_upcb s p x') with (set_udps s (udps (link_upcb s p x'))). apply ninv_udps; [done|]. destruct Hu as [U1 U2 U3 U4 U5 U6]. apply (udp_ok_intro (udps (link_upcb s p x')) _ HL'); try done.
  - apply Forall_cons. split; [done|]. by apply (udp_ok_ports _ _ (ni_udp _ _ _ Hi)).
  - cbn. intros n y [[<- <-]|[_ Hy]]%lookup_insert_Some; [by destruct Hok|by apply U2].
  - cbn. intros n Hn'. destruct (U3 n Hn') as [? ?]. split; [done|]. rewrite lookup_insert_ne; [done|]. intros ->. congruence.
  - cbn. rewrite <- U5. f_equal. apply map_size_insert_Some. by eexists.
Qed.
(** ** Walking along the list *)

Lemma listed_run (s : nst) pcb L : ∀ fuel h, nlist u_next (upcbs (udps s)) h L → (length L ≤ fuel)%nat →
  udp_listed fuel s pcb h = Clean (bool_decide (pcb ∈ L.*1)).
Proof.
  induction L as [|[q x] L IH]; intros fuel h HL Hf.
  - inversion HL; subst. by destruct fuel.
  - inversion HL; subst. destruct fuel as [|fuel]; [cbn in Hf; lia|]. cbn [udp_listed].
    rewrite (proj2 (Z.eqb_neq q NULL)) by done. destruct (Z.eqb_spec pcb q) as [->|Hne].
    + rewrite bool_decide_eq_true_2 by left. done.
    + rewrite (get_upcb_run _ _ x), bind_clean by done. rewrite IH by (done || (cbn in Hf; lia)). f_equal.
      apply bool_decide_ext. cbn. rewrite elem_of_cons. naive_solver.
Qed.

Lemma port_used_run (s : nst) L : ∀ fuel h, nlist u_next (upcbs (udps s)) h L → (length L ≤ fuel)%nat →
  udp_port_used fuel s h = Clean (port_in (udp_port (udps s)) L).
Proof.
  induction L as [|[q x] L IH]; intros fuel h HL Hf.
  - inversion HL; subst. by destruct fuel.
  - inversion HL; subst. destruct fuel as [|fuel]; [cbn in Hf; lia|]. cbn [udp_port_used].
    rewrite (proj2 (Z.eqb_neq q NULL)) by done. rewrite (get_upcb_run _ _ x), bind_clean by done. cbn [port_in existsb snd].
    destruct (_ =? _); [done|]. rewrite IH by (done || (cbn in Hf; lia)). done.
Qed.

Lemma bind_taken_run (s : nst) pcb y ip port L : upcbs (udps s) !! pcb = Some y → ∀ fuel h, nlist u_next (upcbs (udps s)) h L →
  (length L ≤ fuel)%nat → udp_bind_taken fuel s pcb ip port h = Clean (taken pcb y ip port L).
Proof.
  intros Hy. induction L as [|[q x] L IH]; intros fuel h HL Hf.
  - inversion HL; subst. by destruct fuel.
  - inversion HL; subst. destruct fuel as [|fuel]; [cbn in Hf; lia|]. cbn [udp_bind_taken].
    rewrite (proj2 (Z.eqb_neq q NULL)) by done. rewrite (get_upcb_run _ q x), bind_clean by done.
    cbn [taken existsb fst snd]. fold (taken pcb y ip port L). destruct (Z.eqb_spec pcb q) as [->|Hne]; cbn [negb andb].
    + apply IH; [done|cbn in Hf; lia].
    + rewrite (get_upcb_run _ pcb y), bind_clean by done. fold (clash y ip port x). destruct (clash y ip port x); [done|].
      apply IH; [done|cbn in Hf; lia].
Qed.

(** ** A new port *)

(** Not the port of any pcb. *)
Definition free_port (L : upcb_list) (port : Z) : Prop := 0xc000 ≤ port ≤ 0xffff ∧ port_in port L = false.

Definition at_port (s : nst) (port : Z) : nst := set_udps s (set_udp_port (udps s) port).

Lemma at_port_ok s live own L port : ninv s live own → ulist s L → 0xc000 ≤ port ≤ 0xffff → ninv (at_port s port) live own ∧ ulist (at_port s port) L.
Proof. intros Hi HL Hp. split; [|done]. apply ninv_udps; [done|]. by destruct (ni_udp _ _ _ Hi). Qed.

(** [k] ports have been tried. *)
Lemma new_port_loop_run (s : nst) L start : ulist s L → (length L ≤ udp_fuel s)%nat → Z.of_nat (length L) < 0x4000 →
  ∀ fuel k, (length L < fuel + k)%nat → (∀ j, (j < k)%nat → port_at start (S j) ∈ (λ kx, u_local_port kx.2) <$> L) →
  (k ≤ length L)%nat → ∃ k', (k < k' ≤ S (length L))%nat ∧ port_in (port_at start k') L = false ∧
    (∀ j, (0 < j < k')%nat → port_in (port_at start j) L = true) ∧
    udp_new_port_loop fuel (at_port s (port_at start k)) (Z.of_nat k) = Clean (port_at start k', at_port s (port_at start k')).
Proof.
  intros HL Hfu Hsz. induction fuel as [|fuel IH]; intros k Hf Hused Hk; [lia|]. cbn [udp_new_port_loop].
  assert (∀ b : bool, (if b then set_udps (set_udps (at_port s (port_at start k)) (set_udp_port (udps (at_port s (port_at start k))) (u16 (port_at start k + 1))))
      (set_udp_port (udps (set_udps (at_port s (port_at start k)) (set_udp_port (udps (at_port s (port_at start k))) (u16 (port_at start k + 1))))) UDP_LOCAL_PORT_RANGE_START)
    else set_udps (at_port s (port_at start k)) (set_udp_port (udps (at_port s (port_at start k))) (u16 (port_at start k + 1)))) =
    at_port s (if b then 0xc000 else u16 (port_at start k + 1))) as Hst by (by intros []).
  change (udp_port (udps (at_port s (port_at start k)))) with (port_at start k). rewrite Hst.
  change UDP_LOCAL_PORT_RANGE_END with 0xffff. rewrite port_at_S.
  change (udp_fuel (at_port s _)) with (udp_fuel s). change (udp_pcbs (udps (at_port s _))) with (udp_pcbs (udps s)).
  rewrite (port_used_run _ L) by done. rewrite bind_clean. change (udp_port (udps (at_port s ?p))) with p.
  destruct (port_in (port_at start (S k)) L) eqn:Hin.
  - assert (S k ≤ length L)%nat as HSk.
    { rewrite <- (length_fmap (λ kx : Z * udp_pcb, u_local_port kx.2) L). apply (port_pigeon (start + 1)); [lia|]. intros j Hj.
      assert (port_at (start + 1) j = port_at start (S j)) as -> by (unfold port_at; do 2 f_equal; lia).
      destruct (decide (j = k)) as [->|Hne]; [by apply port_in_ports|]. apply Hused. lia. }
    change (0xffff - UDP_LOCAL_PORT_RANGE_START) with 0x3fff. rewrite u16_id by (unfold is_u16; lia).
    rewrite (proj2 (Z.ltb_ge 0x3fff _)) by lia. replace (Z.of_nat k + 1) with (Z.of_nat (S k)) by lia.
    destruct (IH (S k)) as (k' & H1 & H2 & H3 & ->); [lia| |done|exists k'; split_and!; try done; lia].
    intros j Hj. destruct (decide (j = k)) as [->|Hne]; [by apply port_in_ports|]. apply Hused. lia.
  - exists (S k). split_and!; try done; [lia|lia|]. intros j Hj. apply port_in_ports. destruct j as [|j]; [lia|]. apply Hused. lia.
Qed.

Lemma at_port_id s live own : ninv s live own → at_port s (port_at (udp_port (udps s)) 0) = s.
Proof.
  intros Hi. rewrite port_at_0 by apply (uo_port _ (ni_udp _ _ _ Hi)). unfold at_port, set_udp_port. destruct s as [? ? ? ? ? ? ? ? ? ? ? ? [] ?]. done.
Qed.

Lemma new_port_run s live own L : ninv s live own → ulist s L → ∃ k, (0 < k ≤ S (length L))%nat ∧
  let port := port_at (udp_port (udps s)) k in
  free_port L port ∧ (∀ j, (0 < j < k)%nat → port_in (port_at (udp_port (udps s)) j) L = true) ∧
  udp_new_port s = Clean (port, at_port s port).
Proof.
  intros Hi HL. destruct (ulist_size _ _ _ _ Hi HL) as [H4 Hf].
  destruct (new_port_loop_run s L (udp_port (udps s)) HL Hf ltac:(lia) (Z.to_nat 0x4000) 0) as (k & H1 & H2 & H3 & H5); [|intros j Hj; lia|lia|].
  { rewrite Nat.add_0_r. apply Nat2Z.inj_lt. rewrite Z2Nat.id; lia. }
  exists k. split; [lia|]. split; [split; [apply port_at_range|done]|]. split; [done|]. unfold udp_new_port. rewrite (at_port_id _ _ _ Hi) in H5. exact H5.
Qed.
(** ** Binding and connecting *)

(** The struct at [p] is [x], and is on the list. *)
Definition stored (s : nst) (p : Z) (x : udp_pcb) (L : upcb_list) : nst :=
  if decide (p ∈ L.*1) then put_upcb s p x else link_upcb s p x.
Definition stored_list (s : nst) (p : Z) (x : udp_pcb) (L : upcb_list) : upcb_list :=
  if decide (p ∈ L.*1) then put_at p x L else (p, set_u_next x (udp_pcbs (udps s))) :: L.

Lemma stored_ok s live own L p x x' : ninv s live own → ulist s L → upcbs (udps s) !! p = Some x → udp_pcb_ok x' →
  u_next x' = u_next x → u_local_port x' ≠ 0 → ninv (stored s p x' L) live own ∧ ulist (stored s p x' L) (stored_list s p x' L).
Proof.
  intros Hi HL Hx Hok Hn Hport. unfold stored, stored_list. case_decide; [by eapply put_upcb_ok|by eapply link_upcb_ok].
Qed.

Lemma link_put (s : nst) p y x : link_upcb (put_upcb s p y) p x = link_upcb s p x.
Proof. unfold link_upcb, put_upcb, set_udps, set_upcbs, set_udp_pcbs. cbn [udps upcbs udp_pcbs udp_port udp_pool stat_udp]. by rewrite insert_insert_eq. Qed.

(** Storing a struct and putting it on the list if it is not there. *)
Lemma rebind_run (s : nst) p x x' L : upcbs (udps s) !! p = Some x →
  (s1 ← mret (put_upcb s p x'); s1 ← (if bool_decide (p ∈ L.*1) then mret s1 else udp_link s1 p); mret (ERR_OK, s1)) =
  Clean (ERR_OK, stored s p x' L).
Proof.
  intros Hx. rewrite bind_ret_l. unfold stored. destruct (decide (p ∈ L.*1)) as [H|H].
  - by rewrite (bool_decide_eq_true_2 _ H).
  - rewrite (bool_decide_eq_false_2 _ H), (udp_link_run _ _ x') by apply put_upcb_lookup.
    rewrite bind_clean, link_put. done.
Qed.

(** What [udp_bind] answers, the state and the list of pcbs after it. *)
Inductive bind_result (s : nst) (pcb : Z) (x : udp_pcb) (ip port : Z) (L : upcb_list) : Z → nst → upcb_list → Prop :=
| bind_taken : port ≠ 0 → taken pcb x ip port L = true → bind_result s pcb x ip port L ERR_USE s L
| bind_asked : port ≠ 0 → taken pcb x ip port L = false →
    bind_result s pcb x ip port L ERR_OK (stored s pcb (bound_to x ip port) L) (stored_list s pcb (bound_to x ip port) L)
| bind_fresh new : port = 0 → free_port L new →
    bind_result s pcb x ip port L ERR_OK (stored (at_port s new) pcb (bound_to x ip new) L) (stored_list s pcb (bound_to x ip new) L).

Lemma bind_run s live own pcb x ip port L : ninv s live own → ulist s L → upcbs (udps s) !! pcb = Some x → is_u32 ip → is_u16 port →
  ∃ r s' L', udp_bind s pcb (Some ip) port = Clean (r, s') ∧ bind_result s pcb x ip port L r s' L' ∧ ninv s' live own ∧ ulist s' L'.
Proof.
  intros Hi HL Hx Hip Hport. destruct (upcb_ok _ _ _ _ _ Hi Hx) as [Hnull Hok]. destruct (ulist_size _ _ _ _ Hi HL) as [_ Hf].
  unfold udp_bind. cbn [default from_option id]. rewrite (proj2 (Z.eqb_neq pcb NULL)) by done. rewrite (listed_run _ _ L) by done. rewrite bind_clean.
  assert (∀ s0 p, upcbs (udps s0) !! pcb = Some x →
    (s1 ← upd_upcb s0 pcb (λ x, set_u_ip x (set_local_ip (u_ip x) ip)); s1 ← upd_upcb s1 pcb (λ x, set_u_local_port x p);
     s1 ← (if bool_decide (pcb ∈ L.*1) then mret s1 else udp_link s1 pcb); mret (ERR_OK, s1)) = Clean (ERR_OK, stored s0 pcb (bound_to x ip p) L)) as Hst.
  { intros s0 p Hx0. rewrite (upd_upcb_run _ _ x _ Hx0), bind_clean, upd_upcb_again. exact (rebind_run s0 pcb x (bound_to x ip p) L Hx0). }
  destruct (Z.eqb_spec port 0) as [->|Hp0].
  - destruct (new_port_run s live own L Hi HL) as (k & _ & Hfree & _ & ->). set (new := port_at _ k) in *. rewrite !bind_clean.
    assert (is_u16 new ∧ new ≠ 0) as [Hu Hn0] by (destruct Hfree; unfold is_u16; lia). rewrite (proj2 (Z.eqb_neq new 0)) by done.
    destruct (at_port_ok s live own L new Hi HL (proj1 Hfree)) as [Hi1 HL1]. rewrite bind_ret_l, Hst by done.
    eexists _, _, _. split; [done|]. split; [by apply bind_fresh|].
    apply (stored_ok (at_port s new) live own L pcb x); try done. by apply bound_ok.
  - rewrite (bind_taken_run s pcb x ip port L Hx) by done. rewrite !bind_clean. destruct (taken pcb x ip port L) eqn:Ht; rewrite bind_ret_l.
    + eexists _, _, _. split; [done|]. split; [by apply bind_taken|done].
    + rewrite Hst by done. eexists _, _, _. split; [done|]. split; [by apply bind_asked|]. apply (stored_ok s live own L pcb x); try done. by apply bound_ok.
Qed.

Lemma auto_bind_run s live own pcb x L : ninv s live own → ulist s L → upcbs (udps s) !! pcb = Some x →
  ∃ s' x' L', udp_auto_bind s pcb = Clean (ERR_OK, s') ∧ ninv s' live own ∧ ulist s' L' ∧ upcbs (udps s') !! pcb = Some x' ∧
    u_local_port x' ≠ 0 ∧
    ((u_local_port x ≠ 0 ∧ s' = s ∧ x' = x ∧ L' = L) ∨
     ∃ new, u_local_port x = 0 ∧ free_port L new ∧ let y := bound_to x (local_ip (u_ip x)) new in
       s' = stored (at_port s new) pcb y L ∧ L' = stored_list s pcb y L ∧ (x' = y ∨ x' = set_u_next y (udp_pcbs (udps s)))).
Proof.
  intros Hi HL Hx. destruct (upcb_ok _ _ _ _ _ Hi Hx) as [_ Hok]. unfold udp_auto_bind. rewrite (get_upcb_run _ _ _ Hx), bind_clean.
  destruct (Z.eqb_spec (u_local_port x) 0) as [H0|H0].
  - destruct (bind_run s live own pcb x (local_ip (u_ip x)) (u_local_port x) L Hi HL Hx) as (r & s' & L' & -> & Hr & Hi' & HL'); [apply Hok|apply Hok|].
    destruct Hr as [?|?|new _ Hfree]; [done..|]. set (y := bound_to x (local_ip (u_ip x)) new) in *.
    assert (new ≠ 0) as Hn0 by (destruct Hfree; lia). unfold stored, stored_list in *. case_decide as Hin.
    + eexists _, y, _. split; [done|]. split; [done|]. split; [done|]. split; [apply lookup_insert_eq|]. split; [done|]. right. exists new. by split_and!; [..|left].
    + eexists _, (set_u_next y (udp_pcbs (udps s))), _. split; [done|]. split; [done|]. split; [done|]. split; [apply lookup_insert_eq|].
      split; [done|]. right. exists new. by split_and!; [..|right].
  - eexists s, x, L. split_and!; try done. by left.
Qed.

Lemma connect_run s live own pcb x ip port L : ninv s live own → ulist s L → upcbs (udps s) !! pcb = Some x → is_u32 ip → is_u16 port →
  ∃ s1 x1 L1, udp_auto_bind s pcb = Clean (ERR_OK, s1) ∧ ulist s1 L1 ∧ upcbs (udps s1) !! pcb = Some x1 ∧
    let s' := stored s1 pcb (connected_to x1 ip port) L1 in
    udp_connect s pcb (Some ip) port = Clean (ERR_OK, s') ∧ ninv s' live own ∧ ulist s' (stored_list s1 pcb (connected_to x1 ip port) L1).
Proof.
  intros Hi HL Hx Hip Hport. destruct (upcb_ok _ _ _ _ _ Hi Hx) as [Hnull _].
  destruct (auto_bind_run s live own pcb x L Hi HL Hx) as (s1 & x1 & L1 & Hb & Hi1 & HL1 & Hx1 & H0 & _).
  exists s1, x1, L1. split; [done|]. split; [done|]. split; [done|]. cbv zeta.
  destruct (upcb_ok _ _ _ _ _ Hi1 Hx1) as [_ Hok]. destruct (ulist_size _ _ _ _ Hi1 HL1) as [_ Hf].
  split; [|apply (stored_ok s1 live own L1 pcb x1); try done; by apply connected_ok].
  unfold udp_connect. rewrite (proj2 (Z.eqb_neq pcb NULL)) by done. rewrite Hb, bind_clean. change (negb (ERR_OK =? ERR_OK)) with false. cbn iota.
  rewrite (upd_upcb_run _ _ x1 _ Hx1), bind_clean, upd_upcb_again, bind_clean, upd_upcb_again, bind_clean.
  set (x2 := set_u_flags _ _). change x2 with (connected_to x1 ip port). clear x2. set (x2 := connected_to x1 ip port).
  pose proof (nlist_put _ _ _ _ pcb x1 x2 HL1 Hx1 eq_refl) as HL2.
  assert (length (put_at pcb x2 L1) = length L1) as Hlen by apply length_fmap.
  assert (udp_fuel (put_upcb s1 pcb x2) = udp_fuel s1) as Hfu.
  { unfold udp_fuel. cbn. f_equal. apply map_size_insert_Some. by eexists. }
  rewrite (listed_run (put_upcb s1 pcb x2) pcb (put_at pcb x2 L1)), bind_clean; [|exact HL2|by rewrite Hlen, Hfu]. rewrite put_at_keys.
  pose proof (rebind_run s1 pcb x1 x2 L1 Hx1) as Hs. rewrite bind_ret_l in Hs. exact Hs.
Qed.
End Pcbs.
