(* ===== verification/UdpOps.v ===== *)
(** * The list of UDP pcbs

    Removing, creating and reordering pcbs, as operations on the list of pcbs without their links. *)
From S2P Require Import Prelude Def Chksum Stats Iface Ip4Addr Pbuf PbufChain PbufClient PbufData PbufClone Pcb Netif NetInv Links EthOut Region Acd Etharp EtharpInv EtharpTmr EtharpRes EtharpQuery EtharpOut EtharpIn EthIn Ip4Out Ip4OutInv Icmp Udp UdpInv.

(** A pcb without its link, and the list the program means. *)
Definition bare (kx : Z * udp_pcb) : Z * udp_pcb := (kx.1, set_u_next kx.2 NULL).
Definition pcbs_of (L : upcb_list) : upcb_list := bare <$> L.

Definition without (p : Z) (A : upcb_list) : upcb_list := filter (λ kx, kx.1 ≠ p) A.

Lemma pcbs_of_app L1 L2 : pcbs_of (L1 ++ L2) = pcbs_of L1 ++ pcbs_of L2.
Proof. apply fmap_app. Qed.

Lemma pcbs_of_relink L1 q y n L2 : pcbs_of (L1 ++ (q, set_u_next y n) :: L2) = pcbs_of (L1 ++ (q, y) :: L2).
Proof. by rewrite !pcbs_of_app. Qed.

Lemma pcbs_of_keys L : (pcbs_of L).*1 = L.*1.
Proof. unfold pcbs_of. rewrite <- list_fmap_compose. by apply list_fmap_ext. Qed.

Lemma without_absent p A : p ∉ A.*1 → without p A = A.
Proof.
  induction A as [|[q x] A IH]; [done|]. cbn [fmap list_fmap fst]. rewrite not_elem_of_cons. intros [Hq Hn]. unfold without in *.
  rewrite filter_cons_True by (cbn; congruence). by rewrite IH.
Qed.

Lemma without_here p x A1 A2 : p ∉ A1.*1 → p ∉ A2.*1 → without p (A1 ++ (p, x) :: A2) = A1 ++ A2.
Proof.
  intros H1 H2. unfold without. rewrite filter_app, filter_cons_False by (cbn; congruence).
  f_equal; by apply without_absent.
Qed.

Lemma without_split p x L1 L2 : NoDup (L1 ++ (p, x) :: L2).*1 → without p (pcbs_of (L1 ++ (p, x) :: L2)) = pcbs_of (L1 ++ L2).
Proof.
  intros [H1 H2]%split_keys. rewrite !pcbs_of_app. apply without_here; by rewrite pcbs_of_keys.
Qed.

Section Ops.
Context {M : Type} `{PM : PbufAlloc M} {E : NetEnv M} {U : IpUpper M}.
Abbreviation pst := (@pst M).
Abbreviation nst := (nst M).

(** The pcbs of the state are [A]. *)
Definition upcbs_are (s : nst) (A : upcb_list) : Prop := ∃ L, ulist s L ∧ pcbs_of L = A.

(** ** Fields *)

Lemma disconnect_run s live own p x L : ninv s live own → ulist s L → upcbs (udps s) !! p = Some x →
  let s' := put_upcb s p (disconnected x) in
  udp_disconnect s p = Clean s' ∧ ninv s' live own ∧ ulist s' (put_at p (disconnected x) L).
Proof.
  intros Hi HL Hx s'. destruct (upcb_ok _ _ _ _ _ Hi Hx) as [Hp Hok]. split.
  - unfold udp_disconnect. rewrite (proj2 (Z.eqb_neq p NULL)) by done.
    by rewrite (upd_upcb_run _ _ x _ Hx), bind_clean, upd_upcb_again, bind_clean, upd_upcb_again, bind_clean, upd_upcb_again.
  - apply (put_upcb_ok s live own L p x); try done; [by apply disconnected_ok|]. by apply (listed_port s live own L p x).
Qed.

Lemma recv_run s live own p x L f arg : ninv s live own → ulist s L → upcbs (udps s) !! p = Some x →
  let s' := put_upcb s p (set_u_recv x f arg) in
  udp_recv s p f arg = Clean s' ∧ ninv s' live own ∧ ulist s' (put_at p (set_u_recv x f arg) L).
Proof.
  intros Hi HL Hx s'. destruct (upcb_ok _ _ _ _ _ Hi Hx) as [Hp Hok]. split.
  - unfold udp_recv. rewrite (proj2 (Z.eqb_neq p NULL)) by done. by rewrite (upd_upcb_run _ _ x _ Hx).
  - apply (put_upcb_ok s live own L p x); try done; [by destruct Hok|]. by apply (listed_port s live own L p x).
Qed.

(** ** Removing *)

Lemma unlink_run (s : nst) p L : p ≠ NULL → ∀ fuel h, nlist u_next (upcbs (udps s)) h L → (length L ≤ fuel)%nat →
  (p ∉ tail L.*1 ∧ udp_unlink fuel s p h = Clean s) ∨
  (∃ L1 q y x L2, L = L1 ++ (q, y) :: (p, x) :: L2 ∧ udp_unlink fuel s p h = Clean (put_upcb s q (set_u_next y (u_next x)))).
Proof.
  intros Hp. induction L as [|[q y] L IH]; intros fuel h HL Hf.
  { inversion HL; subst. left. split; [apply not_elem_of_nil|]. by destruct fuel. }
  inversion HL as [|? ? ? Hq Hy HL']; subst. destruct fuel as [|fuel]; [cbn in Hf; lia|]. cbn [udp_unlink].
  rewrite (proj2 (Z.eqb_neq q NULL)), (get_upcb_run _ q y), bind_clean by done.
  destruct (Z.eqb_spec (u_next y) p) as [Hn|Hn].
  - right. rewrite Hn in HL' |- *. rewrite (proj2 (Z.eqb_neq p NULL)) by done. cbn [negb andb].
    apply nlist_nonnull in HL' as (x & L2 & -> & Hx & _); [|done].
    exists [], q, y, x, L2. split; [done|]. by rewrite (get_upcb_run _ _ x), bind_clean, (upd_upcb_run _ _ y).
  - rewrite andb_false_r. destruct (IH fuel (u_next y) HL') as [[H1 H2]|(L1 & q' & y' & x & L2 & -> & H2)]; [cbn in Hf; lia|left|right].
    + split; [|done]. cbn [fmap list_fmap fst tail]. destruct L as [|[q' y'] L]; [apply not_elem_of_nil|].
      inversion HL'; subst. cbn [fmap list_fmap fst]. apply not_elem_of_cons. split; [congruence|done].
    + exists ((q, y) :: L1), q', y', x, L2. split; [done|]. done.
Qed.

(** No struct has got another port. *)
Definition same_ports (s s' : nst) : Prop := ∀ q y', upcbs (udps s') !! q = Some y' →
  ∃ y, upcbs (udps s) !! q = Some y ∧ u_local_port y' = u_local_port y.

(** The struct at [p] is given back. *)
Lemma memp_free_ok s live own p x L : ninv s live own → ulist s L → upcbs (udps s) !! p = Some x → p ∉ L.*1 →
  ∃ s', udp_memp_free s p = Clean s' ∧ ninv s' live own ∧ ulist s' L ∧ upcbs (udps s') = delete p (upcbs (udps s)) ∧
    udp_pool (udps s') = p :: udp_pool (udps s) ∧ s' = set_udps s (udps s').
Proof.
  intros Hi HL Hx Hn. destruct (upcb_ok _ _ _ _ _ Hi Hx) as [Hp _]. unfold udp_memp_free. rewrite (get_upcb_run _ _ _ Hx), bind_clean.
  set (u := set_udp_pool _ _). exists (set_udps s u). split; [done|].
  assert (ulist (set_udps s u) L) as HL' by (by apply nlist_delete). split; [|done]. apply ninv_udps; [done|].
  pose proof (udp_ok_ports _ _ (ni_udp _ _ _ Hi) HL) as HF. destruct (ni_udp _ _ _ Hi) as [U1 U2 U3 U4 U5 U6].
  apply (udp_ok_intro u L HL' HF); cbn.
  - intros n y [_ Hy]%lookup_delete_Some. by apply (U2 n).
  - intros n [->|Hin]%elem_of_cons; [split; [done|apply lookup_delete_eq]|]. destruct (U3 n Hin) as [? ?]. split; [done|].
    rewrite lookup_delete_ne; [done|]. intros ->. congruence.
  - constructor; [|done]. intros Hin. destruct (U3 p Hin). congruence.
  - assert (is_Some (upcbs (udps s) !! p)) as Hsome by (by eexists). pose proof (map_size_delete_Some p _ Hsome) as Hsz.
    pose proof (map_size_ne_0_lookup_2 _ p Hsome). rewrite Hsz. lia.
  - done.
Qed.

(** Another struct is first. *)
Definition head_upcb (s : nst) (h : Z) : nst := set_udps s (set_udp_pcbs (udps s) h).

Lemma head_upcb_ok s live own p x L : ninv s live own → ulist s ((p, x) :: L) →
  ninv (head_upcb s (u_next x)) live own ∧ ulist (head_upcb s (u_next x)) L.
Proof.
  intros Hi HL. assert (ulist (head_upcb s (u_next x)) L) as HL' by (by inversion HL). split; [|done].
  pose proof (udp_ok_ports _ _ (ni_udp _ _ _ Hi) HL) as HF. apply Forall_cons in HF as [_ HF].
  apply ninv_udps; [done|]. destruct (ni_udp _ _ _ Hi) as [U1 U2 U3 U4 U5 U6]. by apply (udp_ok_intro _ L HL').
Qed.

Lemma relink_ok s live own L1 q y p x L2 : ninv s live own → ulist s (L1 ++ (q, y) :: (p, x) :: L2) →
  let s1 := put_upcb s q (set_u_next y (u_next x)) in
  ninv s1 live own ∧ ulist s1 (L1 ++ (q, set_u_next y (u_next x)) :: L2) ∧ upcbs (udps s1) !! p = Some x ∧ p ≠ NULL ∧
  udp_pcb_ok x ∧ u_local_port x ≠ 0 ∧ p ∉ (L1 ++ (q, set_u_next y (u_next x)) :: L2).*1.
Proof.
  intros Hi HL s1. destruct (nlist_unlink u_next set_u_next (λ _ _, eq_refl) _ _ _ _ _ _ _ _ HL) as (HL1 & Hn & Hpq).
  assert ((p, x) ∈ L1 ++ (q, y) :: (p, x) :: L2) as Hin by (apply elem_of_app; right; right; left).
  destruct (nlist_elem _ _ _ _ _ _ HL Hin) as [Hp Hx]. pose proof (udp_ok_ports _ _ (ni_udp _ _ _ Hi) HL) as HF.
  destruct (nlist_elem _ _ _ _ q y HL) as [_ Hy]; [apply elem_of_app; right; left|].
  destruct (upcb_ok _ _ _ _ _ Hi Hx) as [_ Hxok]. destruct (upcb_ok _ _ _ _ _ Hi Hy) as [Hq Hyok].
  split_and!; try done.
  - apply ninv_udps; [done|]. rewrite Forall_app, !Forall_cons in HF. destruct HF as (F1 & F2 & F3 & F4).
    destruct (ni_udp _ _ _ Hi) as [U1 U2 U3 U4 U5 U6]. apply (udp_ok_intro (udps s1) _ HL1); try done.
    + apply Forall_app_2; [done|]. by constructor.
    + cbn. intros n z [[<- <-]|[_ Hz]]%lookup_insert_Some; [|by apply U2]. split; [done|]. by destruct Hyok.
    + cbn. intros n Hn'. destruct (U3 n Hn') as [? ?]. split; [done|]. rewrite lookup_insert_ne; [done|]. intros ->. congruence.
    + cbn. rewrite <- U5. f_equal. apply map_size_insert_Some. by eexists.
  - cbn. by rewrite lookup_insert_ne.
  - rewrite Forall_forall in HF. by apply (HF _ Hin).
Qed.

Lemma remove_run s live own p x L : ninv s live own → ulist s L → upcbs (udps s) !! p = Some x →
  ∃ s' L', udp_remove s p = Clean s' ∧ ninv s' live own ∧ ulist s' L' ∧ pcbs_of L' = without p (pcbs_of L) ∧
    upcbs (udps s') !! p = None ∧ udp_pool (udps s') = p :: udp_pool (udps s) ∧ same_ports s s' ∧ s' = set_udps s (udps s').
Proof.
  intros Hi HL Hx. destruct (upcb_ok _ _ _ _ _ Hi Hx) as [Hp _]. destruct (ulist_size _ _ _ _ Hi HL) as [_ Hf].
  unfold udp_remove. rewrite (proj2 (Z.eqb_neq p NULL)) by done.
  assert (∀ s1 L1, ninv s1 live own → ulist s1 L1 → upcbs (udps s1) !! p = Some x → p ∉ L1.*1 → pcbs_of L1 = without p (pcbs_of L) →
    udp_pool (udps s1) = udp_pool (udps s) → same_ports s s1 → s1 = set_udps s (udps s1) → ∃ s' L', udp_memp_free s1 p = Clean s' ∧ ninv s' live own ∧ ulist s' L' ∧
    pcbs_of L' = without p (pcbs_of L) ∧ upcbs (udps s') !! p = None ∧ udp_pool (udps s') = p :: udp_pool (udps s) ∧ same_ports s s' ∧ s' = set_udps s (udps s')) as Hfree.
  { intros s1 L1 Hi1 HL1 Hx1 Hn HA Hpool Hsp Hs1. destruct (memp_free_ok s1 live own p x L1 Hi1 HL1 Hx1 Hn) as (s' & H1 & H2 & H3 & H4 & H5 & H6).
    exists s', L1. split_and!; try done; [by rewrite H4, lookup_delete_eq|by rewrite H5, Hpool| |by rewrite H6, Hs1].
    intros q y. rewrite H4. intros [_ Hy]%lookup_delete_Some. by apply Hsp. }
  destruct (Z.eqb_spec (udp_pcbs (udps s)) p) as [Hh|Hh].
  - destruct (nlist_nonnull _ _ _ _ HL) as (y & L0 & -> & Hy & _); [congruence|]. rewrite Hh in *. assert (y = x) as -> by congruence.
    rewrite (get_upcb_run _ _ _ Hx), bind_clean, bind_ret_l. destruct (head_upcb_ok s live own p x L0 Hi HL) as [Hi1 HL1].
    pose proof (ulist_NoDup _ _ HL) as Hnd. apply (Hfree _ L0 Hi1 HL1); try done; [by apply NoDup_cons in Hnd as [? _]| |by intros q z Hz; exists z].
    symmetry. exact (without_split p x [] L0 Hnd).
  - destruct (unlink_run s p L Hp (udp_fuel s) _ HL Hf) as [[Hn ->]|(L1 & q & y & x' & L2 & -> & ->)]; rewrite bind_clean.
    + assert (p ∉ L.*1) as Hnl.
      { destruct L as [|[h y] L]; [apply not_elem_of_nil|]. inversion HL; subst. cbn [fmap list_fmap fst]. apply not_elem_of_cons. split; [congruence|done]. }
      apply (Hfree s L); try done; [|by intros q y Hy; exists y|by destruct s]. symmetry. apply without_absent. by rewrite pcbs_of_keys.
    + destruct (relink_ok s live own L1 q y p x' L2 Hi HL) as (Hi1 & HL1 & Hx1 & _ & _ & _ & Hn).
      assert (x' = x) as ->.
      { destruct (nlist_elem _ _ _ _ p x' HL) as [_ Hx']; [apply elem_of_app; right; right; left|]. congruence. }
      apply (Hfree _ _ Hi1 HL1); try done.
      2:{ destruct (nlist_elem _ _ _ _ q y HL) as [_ Hy]; [apply elem_of_app; right; left|].
          intros r z Hr. change (<[q := set_u_next y (u_next x)]> (upcbs (udps s)) !! r = Some z) in Hr. apply lookup_insert_Some in Hr as [[<- <-]|[_ Hz]]; [by exists y|by exists z]. }
      rewrite pcbs_of_relink.
      pose proof (without_split p x (L1 ++ [(q, y)]) L2) as Hw. rewrite <- !app_assoc in Hw. symmetry. apply Hw. by apply ulist_NoDup in HL.
Qed.

(** ** Creating *)

Lemma new_run s live own L : ninv s live own → ulist s L →
  match udp_pool (udps s) with
  | [] => udp_new s = (NULL, s)
  | p :: rest => ∃ s', udp_new s = (p, s') ∧ ninv s' live own ∧ ulist s' L ∧ p ≠ NULL ∧ upcbs (udps s) !! p = None ∧
      upcbs (udps s') = <[p := udp_fresh]> (upcbs (udps s)) ∧ udp_pool (udps s') = rest ∧ s' = set_udps s (udps s')
  end.
Proof.
  intros Hi HL. unfold udp_new. destruct (udp_pool (udps s)) as [|p rest] eqn:Hpool; [done|].
  pose proof (udp_ok_ports _ _ (ni_udp _ _ _ Hi) HL) as HF. destruct (ni_udp _ _ _ Hi) as [U1 U2 U3 U4 U5 U6]. rewrite Hpool in *.
  destruct (U3 p) as [Hp Hx]; [left|]. set (u := set_udp_pool _ _).
  assert (p ∉ L.*1) as Hn.
  { intros ([q y] & -> & Hin)%list_elem_of_fmap. destruct (nlist_elem _ _ _ _ _ _ HL Hin) as [_ Hy]. cbn in *. congruence. }
  assert (ulist (set_udps s u) L) as HL' by (by apply (nlist_insert _ _ _ _ _ _ HL)).
  apply NoDup_cons in U4 as [U4 U4']. eexists. split; [done|]. split; [|done]. apply ninv_udps; [done|].
  apply (udp_ok_intro u L HL' HF); cbn.
  - intros n y [[<- <-]|[_ Hy]]%lookup_insert_Some; [split; [done|apply fresh_ok]|by apply (U2 n)].
  - intros n Hin. destruct (U3 n) as [? ?]; [by right|]. split; [done|]. rewrite lookup_insert_ne; [done|]. by intros ->.
  - done.
  - rewrite <- U5, map_size_insert_None by done. cbn. lia.
  - done.
Qed.

(** ** Reordering *)

(** The pcb behind [L1] becomes the first; the first one is only counted. *)
Lemma to_front_run s live own L1 p x L2 : ninv s live own → ulist s (L1 ++ (p, x) :: L2) →
  ∃ s' L' x', udp_to_front s p (default NULL (fst <$> last L1)) = Clean s' ∧ ninv s' live own ∧ ulist s' L' ∧
    pcbs_of L' = pcbs_of ((p, x) :: L1 ++ L2) ∧ upcbs (udps s') !! p = Some x' ∧ set_u_next x' NULL = set_u_next x NULL ∧
    s' = set_udps s (udps s') ∧ (stat_udp (udps s') = if decide (L1 = []) then proto_inc Cachehit (stat_udp (udps s)) else stat_udp (udps s)).
Proof.
  intros Hi HL. destruct L1 as [|[q y] L0 _] using rev_ind; cbn [last fmap option_fmap option_map default from_option].
  - change (udp_to_front s p NULL) with (Clean (UDP_STATS_INC Cachehit s)). exists (UDP_STATS_INC Cachehit s), ((p, x) :: L2), x.
    split; [done|]. split; [apply ninv_udps; [done|]; by destruct (ni_udp _ _ _ Hi)|]. split; [done|]. split; [done|]. split; [|done].
    cbn. apply (nlist_elem _ _ _ _ _ _ HL). left.
  - rewrite last_snoc. cbn [fmap option_fmap option_map default from_option fst id]. rewrite <- !app_assoc in *. cbn [app] in *.
    destruct (relink_ok s live own L0 q y p x L2 Hi HL) as (Hi1 & HL1 & Hx1 & Hp & Hok & Hport & Hn). set (s1 := put_upcb s q _) in *.
    destruct (nlist_elem _ _ _ _ q y HL) as [Hq Hy]; [apply elem_of_app; right; left|].
    unfold udp_to_front. rewrite (proj2 (Z.eqb_neq q NULL)) by done. cbn [negb].
    rewrite (get_upcb_run s p x), bind_clean by (apply (nlist_elem _ _ _ _ _ _ HL); apply elem_of_app; right; right; left).
    rewrite (upd_upcb_run s q y), bind_clean by done. fold s1. rewrite (udp_link_run s1 p x Hx1).
    destruct (link_upcb_ok s1 live own _ p x x Hi1 HL1 Hx1 Hok Hn Hport) as [Hi2 HL2].
    eexists _, _, _. split; [done|]. split; [done|]. split; [exact HL2|]. split; [|split; [apply lookup_insert_eq|]].
    + change (pcbs_of (?a :: ?b)) with (bare a :: pcbs_of b). by rewrite pcbs_of_relink.
    + split; [done|]. split; [done|]. rewrite decide_False; [done|]. by destruct L0.
Qed.
End Ops.
