(* ===== verification/UdpApi.v ===== *)
(** * Calls of UDP clients

    The calls on pcbs as events: every one returns into a well-formed state, and no call lets two pcbs
    have the same local end, unless both allow it. *)
From S2P Require Import Prelude Def Chksum Stats Iface Ip4Addr Pbuf PbufChain PbufClient PbufData PbufClone Pcb Netif NetInv Links EthOut Region Acd Etharp EtharpInv EtharpTmr EtharpRes EtharpQuery EtharpOut EtharpIn EthIn Ip4Out Ip4OutInv Icmp Udp UdpInv UdpOps.

(** ** Local ends *)

Definition shares (x : udp_pcb) : bool := has_flag (so_options (u_ip x)) SOF_REUSEADDR.

(** A datagram can be for both pcbs. *)
Definition overlap (x y : udp_pcb) : Prop :=
  u_local_port x = u_local_port y ∧
  (local_ip (u_ip x) = local_ip (u_ip y) ∨ ip4_addr_isany (local_ip (u_ip x)) = true ∨ ip4_addr_isany (local_ip (u_ip y)) = true).

(** Pcbs with overlapping local ends are marked [SOF_REUSEADDR]. *)
Definition exclusive (L : upcb_list) : Prop := ∀ p x q y, (p, x) ∈ L → (q, y) ∈ L → p ≠ q → overlap x y → shares x = true ∧ shares y = true.

Lemma overlap_sym x y : overlap x y → overlap y x.
Proof. intros [H1 H2]. split; [done|]. naive_solver. Qed.

(** [x] gets along with the others. *)
Definition fits_in (p : Z) (x : udp_pcb) (L : upcb_list) : Prop := ∀ q y, (q, y) ∈ L → q ≠ p → overlap x y → shares x = true ∧ shares y = true.

Lemma exclusive_fits L p x : exclusive L → (p, x) ∈ L → fits_in p x L.
Proof. intros HL Hx q y Hy Hne Ho. by apply (HL p x q y). Qed.

Lemma exclusive_put L p x : exclusive L → fits_in p x L → exclusive (put_at p x L).
Proof.
  intros HL Hx q y r z [(-> & -> & _)|[Hq Hy]]%put_at_elem [(-> & -> & _)|[Hr Hz]]%put_at_elem Hne Ho; [done|by apply (Hx r z)| |by apply (HL q y r z)].
  destruct (Hx q y Hy Hq (overlap_sym _ _ Ho)). done.
Qed.

Lemma exclusive_cons L p x : exclusive L → fits_in p x L → exclusive ((p, x) :: L).
Proof.
  intros HL Hx q y r z [[= -> ->]|Hy]%elem_of_cons [[= -> ->]|Hz]%elem_of_cons Hne Ho; [done|by apply (Hx r z)| |by apply (HL q y r z)].
  destruct (Hx q y Hy Hne (overlap_sym _ _ Ho)). done.
Qed.

Lemma exclusive_sub L L' : exclusive L → (∀ kx, kx ∈ L' → kx ∈ L) → exclusive L'.
Proof. intros HL Hs p x q y Hx Hy. apply HL; by apply Hs. Qed.

Lemma exclusive_bare L : exclusive (pcbs_of L) ↔ exclusive L.
Proof.
  assert (∀ p x, (p, x) ∈ L → (p, set_u_next x NULL) ∈ pcbs_of L) as Hb by (intros p x Hin; apply list_elem_of_fmap; by exists (p, x)).
  split; intros HL p x q y Hx Hy Hne Ho.
  - by apply (HL p (set_u_next x NULL) q (set_u_next y NULL) (Hb _ _ Hx) (Hb _ _ Hy)).
  - apply list_elem_of_fmap in Hx as ([p' x'] & [= -> ->] & Hx), Hy as ([q' y'] & [= -> ->] & Hy). by apply (HL p' x' q' y').
Qed.

(** The same local end, and no less sharing. *)
Definition keeps_end (x x' : udp_pcb) : Prop :=
  u_local_port x' = u_local_port x ∧ local_ip (u_ip x') = local_ip (u_ip x) ∧ (shares x = true → shares x' = true).

Lemma fits_keeps p x x' L : keeps_end x x' → fits_in p x L → fits_in p x' L.
Proof.
  intros (K1 & K2 & K3) Hx q y Hy Hne [H1 H2]. destruct (Hx q y Hy Hne) as [? ?]; [|by split; [apply K3|]].
  rewrite K1, K2 in *. by split.
Qed.

Lemma fits_taken p y ip port L : taken p y ip port L = false → fits_in p (bound_to y ip port) L.
Proof.
  intros Ht q x Hx Hne [Ho1 Ho2]. cbn in Ho1, Ho2. unfold shares. change (so_options (u_ip (bound_to y ip port))) with (so_options (u_ip y)).
  assert (clash y ip port x = false) as Hc.
  { destruct (clash y ip port x) eqn:Hc; [|done]. rewrite <- Ht. symmetry. unfold taken. apply existsb_exists. exists (q, x).
    split; [by apply list_elem_of_In|]. cbn. rewrite Hc, (proj2 (Z.eqb_neq p q)) by done. done. }
  unfold clash in Hc. rewrite <- Ho1, Z.eqb_refl in Hc. cbn [andb] in Hc.
  assert ((local_ip (u_ip x) =? ip) || ip4_addr_isany ip || ip4_addr_isany (local_ip (u_ip x)) = true) as He.
  { destruct Ho2 as [->|[->| ->]]; [by rewrite Z.eqb_refl|by rewrite orb_true_r|by rewrite !orb_true_r]. }
  rewrite He, andb_true_r in Hc. apply orb_false_iff in Hc as [H1 H2]. by apply negb_false_iff in H1, H2.
Qed.

Lemma fits_fresh p y ip port L : free_port L port → fits_in p (bound_to y ip port) L.
Proof.
  intros [_ Hp] q x Hx _ [Ho _]. exfalso. assert (port_in port L = true) as Hin; [|congruence].
  apply port_in_ports, list_elem_of_fmap. by exists (q, x).
Qed.

Section Api.
Context {M : Type} `{PM : PbufAlloc M} {E : NetEnv M} {U : IpUpper M}.
Abbreviation pst := (@pst M).
Abbreviation nst := (nst M).

(** ** More operations *)

Definition on_netif (x : udp_pcb) (idx : Z) : udp_pcb := set_u_ip x (set_netif_idx (u_ip x) idx).
Definition reusing (x : udp_pcb) : udp_pcb := set_u_ip x (set_so_options (u_ip x) (u8 (Z.lor (so_options (u_ip x)) SOF_REUSEADDR))).

Lemma put_same_ports (s : nst) p x x' : upcbs (udps s) !! p = Some x → u_local_port x' = u_local_port x → same_ports s (put_upcb s p x').
Proof.
  intros Hx Hp q y' Hy. change (<[p := x']> (upcbs (udps s)) !! q = Some y') in Hy.
  apply lookup_insert_Some in Hy as [[<- <-]|[_ Hy]]; [by exists x|by exists y'].
Qed.

Lemma bind_netif_run s live own p x L n : ninv s live own → ulist s L → upcbs (udps s) !! p = Some x → n = NULL ∨ is_Some (netifs s !! n) →
  ∃ idx, let s' := put_upcb s p (on_netif x idx) in
  udp_bind_netif s p n = Clean s' ∧ ninv s' live own ∧ ulist s' (put_at p (on_netif x idx) L).
Proof.
  intros Hi HL Hx Hn. destruct (upcb_ok _ _ _ _ _ Hi Hx) as [_ [[? ? ? ? ? ?] ? ? ?]].
  assert (∃ idx, is_u8 idx ∧ (if n =? NULL then mret NETIF_NO_INDEX else f ← get_netif s n; mret (netif_get_index f)) = Clean idx) as (idx & Hu & Hr).
  { destruct (Z.eqb_spec n NULL) as [->|Hne]; [by exists NETIF_NO_INDEX|]. destruct Hn as [?|[f Hf]]; [done|]. unfold get_netif. rewrite Hf. out_simp.
    exists (netif_get_index f). split; [apply u8_range|done]. }
  exists idx. cbv zeta. split; [unfold udp_bind_netif; by rewrite Hr, bind_clean, (upd_upcb_run _ _ x)|].
  apply (put_upcb_ok s live own L p x); try done. by apply (listed_port s live own L p x).
Qed.

Lemma reuse_run s live own p x L : ninv s live own → ulist s L → upcbs (udps s) !! p = Some x →
  let s' := put_upcb s p (reusing x) in
  ip_set_option s p SOF_REUSEADDR = Clean s' ∧ ninv s' live own ∧ ulist s' (put_at p (reusing x) L).
Proof.
  intros Hi HL Hx. destruct (upcb_ok _ _ _ _ _ Hi Hx) as [_ [[? ? ? ? ? ?] ? ? ?]]. cbv zeta. split; [by apply upd_upcb_run|].
  apply (put_upcb_ok s live own L p x); try done; [|by apply (listed_port s live own L p x)].
  split; [split; try done; apply u8_range|done..].
Qed.

Lemma reusing_shares x : is_u8 (so_options (u_ip x)) → shares (reusing x) = true.
Proof.
  intros Hu. unfold shares, has_flag, reusing. cbn [u_ip set_u_ip so_options set_so_options]. apply negb_true_iff, Z.eqb_neq. intros H0.
  assert (Z.testbit (Z.land (u8 (Z.lor (so_options (u_ip x)) SOF_REUSEADDR)) SOF_REUSEADDR) 2 = true) as Ht; [|by rewrite H0, Z.bits_0 in Ht].
  rewrite Z.land_spec. unfold u8. change 256 with (2 ^ 8). rewrite Z.mod_pow2_bits_low, Z.lor_spec by lia.
  change (Z.testbit SOF_REUSEADDR 2) with true. by rewrite orb_true_r.
Qed.

(** ** The ends of all pcbs *)

(** The ends on the list exclude each other, and a pcb that is not on the list is not bound. *)
Definition ends_ok (s : nst) (L : upcb_list) : Prop :=
  exclusive L ∧ ∀ p x, upcbs (udps s) !! p = Some x → p ∉ L.*1 → u_local_port x = 0.

Lemma ends_put s p x x' L : upcbs (udps s) !! p = Some x → ulist s L → ends_ok s L → keeps_end x x' → ends_ok (put_upcb s p x') (put_at p x' L).
Proof.
  intros Hx HL [He H0] Hk. split.
  - destruct (decide (p ∈ L.*1)) as [Hin|Hn]; [|by rewrite put_at_other]. apply list_elem_of_fmap in Hin as ([q y] & -> & Hin). cbn [fst] in *.
    destruct (nlist_elem _ _ _ _ _ _ HL Hin) as [_ Hy]. assert (y = x) as -> by congruence.
    apply exclusive_put; [done|]. apply (fits_keeps _ x); [done|]. by apply exclusive_fits.
  - intros q y Hy. rewrite put_at_keys. intros Hn. change (<[p := x']> (upcbs (udps s)) !! q = Some y) in Hy.
    apply lookup_insert_Some in Hy as [[<- <-]|[_ Hy]]; [|by apply (H0 q)]. destruct Hk as (-> & _). by apply (H0 p).
Qed.

Lemma fits_stored (s : nst) p x y L : fits_in p x L → fits_in p x (stored_list s p y L).
Proof.
  intros Hf q z Hz Hne. unfold stored_list in Hz. case_decide as Hin.
  - apply put_at_elem in Hz as [(? & _)|[_ Hz]]; [done|by apply (Hf q)].
  - apply elem_of_cons in Hz as [[= ? _]|Hz]; [done|by apply (Hf q)].
Qed.

Lemma ends_stored s p x x' L : upcbs (udps s) !! p = Some x → ends_ok s L → fits_in p x' L → ends_ok (stored s p x' L) (stored_list s p x' L).
Proof.
  intros Hx [He H0] Hf. unfold stored, stored_list. case_decide as Hin; (split; [|intros q y Hy]).
  - by apply exclusive_put.
  - rewrite put_at_keys. intros Hn. change (<[p := x']> (upcbs (udps s)) !! q = Some y) in Hy.
    apply lookup_insert_Some in Hy as [[<- <-]|[_ Hy]]; [done|by apply (H0 q)].
  - by apply exclusive_cons.
  - cbn [fmap list_fmap fst]. rewrite not_elem_of_cons. intros [Hq Hn]. cbn in Hy.
    apply lookup_insert_Some in Hy as [[<- <-]|[_ Hy]]; [done|by apply (H0 q)].
Qed.

(** ** Calls *)

Inductive udp_call :=
| UNew
| UBind (pcb ip port : Z)
| UBindNetif (pcb netif : Z)
| UConnect (pcb ip port : Z)
| UDisconnect (pcb : Z)
| URecv (pcb fn arg : Z)
| UReuse (pcb : Z)
| URemove (pcb : Z).

Definition udp_exec (s : nst) (c : udp_call) : out (Z * nst) :=
  match c with
  | UNew => mret (udp_new s)
  | UBind pcb ip port => udp_bind s pcb (Some ip) port
  | UBindNetif pcb netif => s ← udp_bind_netif s pcb netif; mret (0, s)
  | UConnect pcb ip port => udp_connect s pcb (Some ip) port
  | UDisconnect pcb => s ← udp_disconnect s pcb; mret (0, s)
  | URecv pcb fn arg => s ← udp_recv s pcb fn arg; mret (0, s)
  | UReuse pcb => s ← ip_set_option s pcb SOF_REUSEADDR; mret (0, s)
  | URemove pcb => s ← udp_remove s pcb; mret (0, s)
  end.

(** What the callers respect: pcbs are in use, interfaces exist. *)
Definition udp_allowed (s : nst) (c : udp_call) : Prop :=
  match c with
  | UNew => True
  | UBind pcb ip port | UConnect pcb ip port => is_Some (upcbs (udps s) !! pcb) ∧ is_u32 ip ∧ is_u16 port
  | UBindNetif pcb netif => is_Some (upcbs (udps s) !! pcb) ∧ (netif = NULL ∨ is_Some (netifs s !! netif))
  | UDisconnect pcb | URecv pcb _ _ | UReuse pcb | URemove pcb => is_Some (upcbs (udps s) !! pcb)
  end.

(** The call returns into a well-formed state, and spoils no local end. *)
Definition call_ok (s : nst) (live : gmap Z (asrc * Z)) (own : Z → Z) (L : upcb_list) (m : out (Z * nst)) : Prop :=
  ∃ r s' L', m = Clean (r, s') ∧ ninv s' live own ∧ ulist s' L' ∧ s' = set_udps s (udps s') ∧ (ends_ok s L → ends_ok s' L').

Lemma call_put s live own p x x' L (m : out nst) : upcbs (udps s) !! p = Some x → ulist s L →
  m = Clean (put_upcb s p x') → ninv (put_upcb s p x') live own → ulist (put_upcb s p x') (put_at p x' L) → keeps_end x x' →
  call_ok s live own L (s ← m; mret (0, s)).
Proof.
  intros Hx HL -> Hi HL' Hk. rewrite bind_clean. exists 0, (put_upcb s p x'), (put_at p x' L). split_and!; try done.
  intros He. by apply (ends_put s p x).
Qed.

Lemma bind_call s live own p ip port L : ninv s live own → ulist s L → is_Some (upcbs (udps s) !! p) → is_u32 ip → is_u16 port →
  call_ok s live own L (udp_bind s p (Some ip) port).
Proof.
  intros Hi HL [x Hx] Hip Hport. destruct (bind_run s live own p x ip port L Hi HL Hx Hip Hport) as (r & s' & L' & Hr & Hb & Hi' & HL').
  exists r, s', L'. split; [done|]. split; [done|]. split; [done|]. destruct Hb as [_ _|_ Ht|new _ Hf].
  - by destruct s.
  - split; [unfold stored; by case_decide|]. intros He. apply (ends_stored s p x); [done|done|by apply fits_taken].
  - split; [unfold stored; by case_decide|]. intros He. apply (ends_stored (at_port s new) p x); [done|done|by apply fits_fresh].
Qed.

Lemma connect_call s live own p ip port L : ninv s live own → ulist s L → is_Some (upcbs (udps s) !! p) → is_u32 ip → is_u16 port →
  call_ok s live own L (udp_connect s p (Some ip) port).
Proof.
  intros Hi HL [x Hx] Hip Hport. destruct (auto_bind_run s live own p x L Hi HL Hx) as (s1 & x1 & L1 & Hb & Hi1 & HL1 & Hx1 & Hp1 & Hcase).
  destruct (connect_run s live own p x ip port L Hi HL Hx Hip Hport) as (s2 & x2 & L2 & Hb2 & HL2 & Hx2 & Hr & Hi' & HL').
  rewrite Hb in Hb2. injection Hb2 as <-. assert (x2 = x1) as -> by congruence. assert (L2 = L1) as -> by (by apply (nlist_det _ _ _ _ _ HL2 HL1)).
  eexists ERR_OK, _, _. split; [exact Hr|]. split; [exact Hi'|]. split; [exact HL'|].
  assert (s1 = set_udps s (udps s1)) as Hs1.
  { destruct Hcase as [(_ & -> & _)|(new & _ & _ & -> & _)]; [by destruct s|]. unfold stored. by case_decide. }
  split; [unfold stored; case_decide; by rewrite Hs1|].
  intros He. destruct Hcase as [(H0 & -> & -> & ->)|(new & H0 & Hf & -> & -> & Hx1')].
  - apply (ends_stored s p x); [done|done|]. apply (fits_keeps _ x); [done|]. apply exclusive_fits; [apply He|].
    destruct (decide (p ∈ L.*1)) as [Hin|Hn]; [|by destruct H0; apply (proj2 He p)].
    apply list_elem_of_fmap in Hin as ([q y] & -> & Hin). destruct (nlist_elem _ _ _ _ _ _ HL Hin) as [_ Hy]. cbn [fst] in *. by replace x with y by congruence.
  - set (y := bound_to x (local_ip (u_ip x)) new) in *. assert (fits_in p y L) as Hfy by (by apply fits_fresh).
    apply (ends_stored _ p x1); [done|apply (ends_stored (at_port s new) p x); done|].
    apply (fits_keeps _ y); [|by apply fits_stored]. by destruct Hx1' as [->| ->].
Qed.

Lemma remove_call s live own p L : ninv s live own → ulist s L → is_Some (upcbs (udps s) !! p) →
  call_ok s live own L (s ← udp_remove s p; mret (0, s)).
Proof.
  intros Hi HL [x Hx]. destruct (remove_run s live own p x L Hi HL Hx) as (s' & L' & -> & Hi' & HL' & HA & Hp & _ & Hsp & Hs').
  rewrite bind_clean. exists 0, s', L'. split; [done|]. split; [done|]. split; [done|]. split; [done|]. intros [He H0].
  assert (∀ kx, kx ∈ pcbs_of L' → kx ∈ pcbs_of L ∧ kx.1 ≠ p) as Hsub.
  { intros kx. rewrite HA. unfold without. intros [? ?]%list_elem_of_filter. done. }
  split; [apply exclusive_bare, (exclusive_sub (pcbs_of L)); [by apply exclusive_bare|]; intros kx Hk; by apply Hsub|].
  intros q y Hy Hn. destruct (Hsp q y Hy) as (y0 & Hy0 & ->). apply (H0 q y0 Hy0). intros Hin. apply Hn.
  rewrite <- (pcbs_of_keys L) in Hin. rewrite <- (pcbs_of_keys L'). apply list_elem_of_fmap in Hin as (kx & -> & Hin).
  apply list_elem_of_fmap. exists kx. split; [done|]. rewrite HA. apply list_elem_of_filter. split; [|done]. intros Hq. rewrite Hq in Hy. congruence.
Qed.

Lemma new_call s live own L : ninv s live own → ulist s L → call_ok s live own L (mret (udp_new s)).
Proof.
  intros Hi HL. pose proof (new_run s live own L Hi HL) as Hn. destruct (udp_pool (udps s)) as [|p rest].
  - rewrite Hn. exists NULL, s, L. split_and!; try done. by destruct s.
  - destruct Hn as (s' & -> & Hi' & HL' & _ & Hx & Hm & _ & Hs'). exists p, s', L. split_and!; try done. intros [He H0]. split; [done|].
    intros q y. rewrite Hm. intros [[<- <-]|[_ Hy]]%lookup_insert_Some; [done|by apply H0].
Qed.

Lemma udp_call_run s live own L c : ninv s live own → ulist s L → udp_allowed s c → call_ok s live own L (udp_exec s c).
Proof.
  intros Hi HL Ha. destruct c as [|p ip port|p n|p ip port|p|p fn arg|p|p]; cbn [udp_exec udp_allowed] in *.
  - by apply new_call.
  - destruct Ha as (? & ? & ?). by apply bind_call.
  - destruct Ha as [[x Hx] Hn]. destruct (bind_netif_run s live own p x L n Hi HL Hx Hn) as (idx & H1 & H2 & H3). by apply (call_put s live own p x (on_netif x idx)).
  - destruct Ha as (? & ? & ?). by apply connect_call.
  - destruct Ha as [x Hx]. destruct (disconnect_run s live own p x L Hi HL Hx) as (H1 & H2 & H3). by apply (call_put s live own p x (disconnected x)).
  - destruct Ha as [x Hx]. destruct (recv_run s live own p x L fn arg Hi HL Hx) as (H1 & H2 & H3). by apply (call_put s live own p x (set_u_recv x fn arg)).
  - destruct Ha as [x Hx]. destruct (reuse_run s live own p x L Hi HL Hx) as (H1 & H2 & H3). apply (call_put s live own p x (reusing x)); try done.
    split; [done|]. split; [done|]. intros _. apply reusing_shares. by apply (upcb_ok _ _ _ _ _ Hi Hx).
  - by apply remove_call.
Qed.

(** Sequences of calls. *)
Inductive udp_run : nst → list udp_call → nst → Prop :=
| udp_run_nil s : udp_run s [] s
| udp_run_cons s c r s1 log cs s' : udp_allowed s c → udp_exec s c = Ret (r, s1) log → udp_run s1 cs s' → udp_run s (c :: cs) s'.

Lemma udp_run_ok s cs s' : udp_run s cs s' → ∀ live own L, ninv s live own → ulist s L → ends_ok s L →
  ∃ L', ninv s' live own ∧ ulist s' L' ∧ ends_ok s' L'.
Proof.
  induction 1 as [s|s c r s1 log cs s' Ha He Hr IH]; intros live own L Hi HL Hends; [by exists L|].
  destruct (udp_call_run s live own L c Hi HL Ha) as (r0 & s0 & L0 & He0 & Hi0 & HL0 & _ & Hends0).
  rewrite He in He0. injection He0 as <- <- _. by apply (IH live own L0); [..|apply Hends0].
Qed.

(** ** Another address of an interface *)

Definition moved (old new : Z) (kx : Z * udp_pcb) : Z * udp_pcb :=
  (kx.1, if local_ip (u_ip kx.2) =? old then set_u_ip kx.2 (set_local_ip (u_ip kx.2) new) else kx.2).

Lemma netif_loop_run live own old new L2 : is_u32 new → ∀ fuel s h L1, ninv s live own → ulist s (L1 ++ L2) →
  nlist u_next (upcbs (udps s)) h L2 → (length L2 ≤ fuel)%nat →
  ∃ s', udp_netif_loop fuel s old new h = Clean s' ∧ ninv s' live own ∧ ulist s' (L1 ++ (moved old new <$> L2)) ∧ s' = set_udps s (udps s').
Proof.
  intros Hnew. induction L2 as [|[p x] L2 IH]; intros fuel s h L1 Hi HL Hh Hf.
  { inversion Hh; subst. exists s. split; [by destruct fuel|]. split; [done|]. split; [done|]. by destruct s. }
  assert (h = p) as -> by (by inversion Hh). inversion Hh as [|? ? ? Hp Hx Hh']; subst. destruct fuel as [|fuel]; [cbn in Hf; lia|]. cbn [length] in Hf.
  cbn [udp_netif_loop]. rewrite (proj2 (Z.eqb_neq p NULL)), (get_upcb_run _ p x), bind_clean by done.
  change (moved old new <$> (p, x) :: L2) with (moved old new (p, x) :: (moved old new <$> L2)). unfold moved at 1. cbn [fst snd].
  destruct (local_ip (u_ip x) =? old).
  - rewrite (upd_upcb_run s p x _ Hx), bind_clean. set (x' := set_u_ip x _). set (s1 := put_upcb s p x').
    assert (p ∈ (L1 ++ (p, x) :: L2).*1) as Hin by (rewrite fmap_app; apply elem_of_app; right; left).
    destruct (upcb_ok _ _ _ _ _ Hi Hx) as [_ [[? ? ? ? ? ?] ? ? ?]].
    destruct (put_upcb_ok s live own _ p x x' Hi HL Hx) as [Hi1 HL1]; [split; [by split|done..]|done|intros _; by apply (listed_port s live own _ p x Hi HL)|].
    rewrite put_at_here in HL1 by (by apply ulist_NoDup in HL). fold s1 in Hi1, HL1.
    pose proof (nlist_suffix _ _ _ _ _ _ _ HL1) as Hsf. inversion Hsf as [|? ? ? _ _ Hsf']; subst.
    destruct (IH fuel s1 (u_next x) (L1 ++ [(p, x')]) Hi1) as (s' & H1 & H2 & H3 & H4); [by rewrite <- app_assoc|exact Hsf'|lia|].
    rewrite <- app_assoc in H3. by exists s'.
  - rewrite bind_ret_l. destruct (IH fuel s (u_next x) (L1 ++ [(p, x)]) Hi) as (s' & H1 & H2 & H3 & H4); [by rewrite <- app_assoc|done|lia|].
    rewrite <- app_assoc in H3. by exists s'.
Qed.

Lemma netif_changed_run s live own L old new : ninv s live own → ulist s L → is_u32 new → ip4_addr_isany old = false → ip4_addr_isany new = false →
  ∃ s', udp_netif_ip_addr_changed s (Some old) (Some new) = Clean s' ∧ ninv s' live own ∧ ulist s' (moved old new <$> L) ∧ s' = set_udps s (udps s').
Proof.
  intros Hi HL Hn Ho Hne. destruct (ulist_size _ _ _ _ Hi HL) as [_ Hf]. unfold udp_netif_ip_addr_changed. rewrite Ho, Hne. cbn [negb andb].
  by apply (netif_loop_run live own old new L Hn _ s _ []).
Qed.
End Api.
