(* ===== verification/UdpIn.v ===== *)
(** * Which UDP pcb gets a datagram

    The loop of [udp_input] against a choice defined on the list of pcbs. *)
From S2P Require Import Prelude Def Chksum Stats Iface Ip4Addr Pbuf PbufChain PbufClient PbufData PbufClone Pcb Netif NetInv Links EthOut Region Acd Etharp EtharpInv EtharpTmr EtharpRes EtharpQuery EtharpOut EtharpIn EthIn Ip4Out Ip4OutInv Icmp Udp UdpInv UdpOps.

(** A datagram as [udp_input] sees it: the interface it came in on, the one it is processed for, its
    addresses and ports, and whether it is a broadcast. *)
Record datagram := Datagram {
  dg_inp : netif;
  dg_input_netif : netif;
  dg_src : Z;
  dg_dest : Z;
  dg_sport : Z;
  dg_dport : Z;
  dg_broadcast : bool }.

Section Choice.
Context (d : datagram).

(** [udp_input_local_match] *)
Definition local_match (x : udp_pcb) : bool :=
  ((netif_idx (u_ip x) =? NETIF_NO_INDEX) || (netif_idx (u_ip x) =? netif_get_index (dg_input_netif d))) &&
  (if dg_broadcast d
   then ip4_addr_isany (local_ip (u_ip x)) || (dg_dest d =? IPADDR_BROADCAST) ||
        ip4_addr_net_eq (local_ip (u_ip x)) (dg_dest d) (nf_netmask (dg_inp d))
   else ip4_addr_isany (local_ip (u_ip x)) || (local_ip (u_ip x) =? dg_dest d)).

(** The pcb is bound to the destination. *)
Definition hit (x : udp_pcb) : bool := (u_local_port x =? dg_dport d) && local_match x.

(** A perfect match: the remote end is the source, too. *)
Definition perfect (x : udp_pcb) : bool :=
  hit x && ((u_remote_port x =? dg_sport d) && (ip4_addr_isany (remote_ip (u_ip x)) || (remote_ip (u_ip x) =? dg_src d))).

(** Without a perfect match, an unconnected pcb. *)
Definition open_hit (x : udp_pcb) : bool := hit x && negb (has_flag (u_flags x) UDP_FLAGS_CONNECTED).

(** [x] is taken in place of [y], which is further to the front. *)
Definition preferred (y x : udp_pcb) : bool :=
  if dg_broadcast d && (dg_dest d =? IPADDR_BROADCAST)
  then negb (local_ip (u_ip y) =? nf_ip_addr (dg_inp d)) && (local_ip (u_ip x) =? nf_ip_addr (dg_inp d))
  else negb (ip4_addr_isany (local_ip (u_ip x))).

Definition candidate (best : option (Z * udp_pcb)) (kx : Z * udp_pcb) : option (Z * udp_pcb) :=
  if open_hit kx.2 then
    match best with
    | None => Some kx
    | Some ky => if preferred ky.2 kx.2 then Some kx else best
    end
  else best.

Definition open_pcb (L : upcb_list) : option (Z * udp_pcb) := foldl candidate None L.
Definition perfect_pcb (L : upcb_list) : option (Z * udp_pcb) := find (λ kx, perfect kx.2) L.

(** The pcb that gets the datagram. *)
Definition chosen_pcb (L : upcb_list) : option (Z * udp_pcb) :=
  match perfect_pcb L with Some kx => Some kx | None => open_pcb L end.

Lemma open_pcb_snoc L kx : open_pcb (L ++ [kx]) = candidate (open_pcb L) kx.
Proof. unfold open_pcb. by rewrite foldl_app. Qed.

Lemma open_pcb_elem L kx : open_pcb L = Some kx → kx ∈ L ∧ open_hit kx.2 = true.
Proof.
  induction L as [|ky L IH] using rev_ind; [done|]. rewrite open_pcb_snoc. unfold candidate.
  destruct (open_hit ky.2) eqn:Hh; [|intros [H1 H2]%IH; split; [|done]; apply elem_of_app; by left].
  destruct (open_pcb L) as [kz|].
  - destruct (preferred kz.2 ky.2); [intros [= <-]; split; [apply elem_of_app; right; left|done]|].
    intros H. destruct (IH H) as [H1 H2]. split; [|done]. apply elem_of_app. by left.
  - intros [= <-]. split; [apply elem_of_app; right; left|done].
Qed.

Lemma open_pcb_none L : open_pcb L = None → ∀ kx, kx ∈ L → open_hit kx.2 = false.
Proof.
  induction L as [|ky L IH] using rev_ind; [by intros _ kx ?%elem_of_nil|]. rewrite open_pcb_snoc. unfold candidate.
  destruct (open_hit ky.2) eqn:Hh; [destruct (open_pcb L) as [kz|]; [destruct (preferred kz.2 ky.2)|]; done|].
  intros H kx [Hin|[->|Hin%elem_of_nil]%elem_of_cons]%elem_of_app; [by apply IH|done|done].
Qed.

Lemma perfect_split L kx : perfect_pcb L = Some kx → ∃ L1 L2, L = L1 ++ kx :: L2 ∧ perfect kx.2 = true ∧ Forall (λ ky, perfect ky.2 = false) L1.
Proof.
  unfold perfect_pcb. induction L as [|ky L IH]; [done|]. cbn [find]. destruct (perfect ky.2) eqn:Hp.
  - intros [= <-]. by exists [], L.
  - intros (L1 & L2 & -> & H1 & H2)%IH. exists (ky :: L1), L2. split; [done|]. split; [done|]. by constructor.
Qed.

Lemma perfect_none L : perfect_pcb L = None → Forall (λ ky, perfect ky.2 = false) L.
Proof.
  unfold perfect_pcb. induction L as [|ky L IH]; [by constructor|]. cbn [find]. destruct (perfect ky.2) eqn:Hp; [done|].
  intros H. constructor; [done|by apply IH].
Qed.

Lemma perfect_hit x : perfect x = true → hit x = true.
Proof. unfold perfect. intros [H _]%andb_prop. done. Qed.

(** Whoever gets the datagram is bound to its destination. *)
Lemma chosen_hit L kx : chosen_pcb L = Some kx → kx ∈ L ∧ hit kx.2 = true.
Proof.
  unfold chosen_pcb. destruct (perfect_pcb L) as [ky|] eqn:Hp.
  - intros [= <-]. apply perfect_split in Hp as (L1 & L2 & -> & H & _). split; [apply elem_of_app; right; left|by apply perfect_hit].
  - intros [H1 H2]%open_pcb_elem. split; [done|]. unfold open_hit in H2. by apply andb_prop in H2 as [? _].
Qed.

(** Nobody gets it only when no pcb may. *)
Lemma chosen_none L : chosen_pcb L = None → ∀ kx, kx ∈ L → perfect kx.2 = false ∧ open_hit kx.2 = false.
Proof.
  unfold chosen_pcb. destruct (perfect_pcb L) eqn:Hp; [done|]. intros Ho kx Hin.
  apply perfect_none in Hp. rewrite Forall_forall in Hp. split; [by apply (Hp _ Hin)|by eapply open_pcb_none].
Qed.
End Choice.

Section Search.
Context {M : Type} `{PM : PbufAlloc M} {E : NetEnv M} {U : IpUpper M}.
Abbreviation pst := (@pst M).
Abbreviation nst := (nst M).

(** The datagram being processed has come in on [n]. *)
Record processed (s : nst) (n : Z) (d : datagram) : Prop := Processed {
  pd_inp : netifs s !! n = Some (dg_inp d);
  pd_input_netif : netifs s !! current_input_netif (ip_data (ips s)) = Some (dg_input_netif d);
  pd_src : current_iphdr_src (ip_data (ips s)) = dg_src d;
  pd_dest : current_iphdr_dest (ip_data (ips s)) = dg_dest d }.

Lemma local_match_run s n d x : processed s n d → udp_input_local_match s x n (dg_broadcast d) = Clean (local_match d x).
Proof.
  intros [H1 H2 H3 H4]. unfold udp_input_local_match, local_match, get_netif. rewrite H1, H2, H4.
  destruct (netif_idx (u_ip x) =? NETIF_NO_INDEX); cbn [negb orb]; out_simp; [|destruct (_ =? netif_get_index _); [|done]].
  all: cbn [negb andb]; destruct (dg_broadcast d); [|done]; destruct (_ || _); [done|]; out_simp; done.
Qed.

Lemma uncon_run s n d p x best : processed s n d → (∀ ky, best = Some ky → ky.1 ≠ NULL ∧ upcbs (udps s) !! ky.1 = Some ky.2) →
  hit d x = true → (if has_flag (u_flags x) UDP_FLAGS_CONNECTED then mret (default NULL (fst <$> best))
    else udp_uncon s p x (default NULL (fst <$> best)) n (dg_broadcast d)) = Clean (default NULL (fst <$> candidate d best (p, x))).
Proof.
  intros [H1 H2 H3 H4] Hb Hh. unfold candidate, open_hit. cbn [snd]. rewrite Hh.
  destruct (has_flag _ _); cbn [negb andb]; [done|]. unfold udp_uncon, preferred. rewrite H4. destruct best as [[q y]|]; [|done].
  destruct (Hb _ eq_refl) as [Hq Hy]. cbn [fmap option_fmap option_map default from_option id fst snd] in *.
  rewrite (proj2 (Z.eqb_neq q NULL)) by done. destruct (_ && (_ =? IPADDR_BROADCAST)).
  - rewrite (get_upcb_run _ _ _ Hy), bind_clean. unfold get_netif. rewrite H1. out_simp. by destruct (_ && _).
  - by destruct (negb _).
Qed.

(** The loop, after the pcbs [L1]. *)
Lemma search_run s live own n d L2 : ninv s live own → processed s n d → ∀ fuel h L1, ulist s (L1 ++ L2) →
  nlist u_next (upcbs (udps s)) h L2 → (length L2 ≤ fuel)%nat → Forall (λ ky, perfect d ky.2 = false) L1 →
  match perfect_pcb d L2 with
  | None => udp_search fuel s n (dg_sport d) (dg_dport d) (dg_broadcast d) h (default NULL (fst <$> last L1))
              (default NULL (fst <$> open_pcb d L1)) = Clean (NULL, default NULL (fst <$> open_pcb d (L1 ++ L2)), s)
  | Some (p, x) => ∃ A B u s', L1 ++ L2 = A ++ (p, x) :: B ∧
      udp_to_front s p (default NULL (fst <$> last A)) = Clean s' ∧
      udp_search fuel s n (dg_sport d) (dg_dport d) (dg_broadcast d) h (default NULL (fst <$> last L1))
              (default NULL (fst <$> open_pcb d L1)) = Clean (p, u, s')
  end.
Proof.
  intros Hi Hd. induction L2 as [|[p x] L2 IH]; intros fuel h L1 HL Hh Hf HF.
  { inversion Hh; subst. cbn [perfect_pcb find]. rewrite app_nil_r. by destruct fuel. }
  assert (h = p) as -> by (by inversion Hh). inversion Hh as [|? ? ? Hp Hx Hh']; subst. destruct fuel as [|fuel]; [cbn in Hf; lia|]. cbn [length] in Hf.
  cbn [udp_search]. rewrite (proj2 (Z.eqb_neq p NULL)), (get_upcb_run _ p x), bind_clean by done.
  assert ((if u_local_port x =? dg_dport d then udp_input_local_match s x n (dg_broadcast d) else mret false) = Clean (hit d x)) as ->.
  { unfold hit. destruct (_ =? _); [|done]. by apply local_match_run. }
  rewrite bind_clean. assert (∀ ky, open_pcb d L1 = Some ky → ky.1 ≠ NULL ∧ upcbs (udps s) !! ky.1 = Some ky.2) as Hb.
  { intros [q y] [Hin _]%open_pcb_elem. apply (nlist_elem _ _ _ _ q y HL). apply elem_of_app. by left. }
  pose proof (IH fuel (u_next x) (L1 ++ [(p, x)])) as IH'. rewrite <- !app_assoc, last_snoc, open_pcb_snoc in IH'. cbn [app] in IH'.
  cbn [perfect_pcb find snd]. fold (perfect_pcb d L2).
  assert (perfect d x = false → Forall (λ ky : Z * udp_pcb, perfect d ky.2 = false) (L1 ++ [(p, x)])) as HF'.
  { intros Hn. apply Forall_app_2; [done|by repeat constructor]. }
  assert (∀ u, perfect d x = false → u = default NULL (fst <$> candidate d (open_pcb d L1) (p, x)) →
    match perfect_pcb d L2 with
    | Some (q, x0) => ∃ A B u0 s', L1 ++ (p, x) :: L2 = A ++ (q, x0) :: B ∧ udp_to_front s q (default NULL (fst <$> last A)) = Clean s' ∧
        udp_search fuel s n (dg_sport d) (dg_dport d) (dg_broadcast d) (u_next x) p u = Clean (q, u0, s')
    | None => udp_search fuel s n (dg_sport d) (dg_dport d) (dg_broadcast d) (u_next x) p u =
        Clean (NULL, default NULL (fst <$> open_pcb d (L1 ++ (p, x) :: L2)), s)
    end) as Hrest.
  { intros u Hn ->. apply IH'; [done|done|lia|by apply HF']. }
  unfold perfect in *. destruct (hit d x) eqn:Hhit; cbn [andb] in *.
  - rewrite (uncon_run s n d p x (open_pcb d L1)), bind_clean by done. rewrite (pd_src _ _ _ Hd).
    destruct (_ && _) eqn:Hperf; [|by apply Hrest].
    destruct (to_front_run s live own L1 p x L2 Hi HL) as (s' & L' & x' & Hfr & _). rewrite Hfr, bind_clean.
    by exists L1, L2, (default NULL (fst <$> candidate d (open_pcb d L1) (p, x))), s'.
  - apply Hrest; [done|]. unfold candidate, open_hit. cbn [snd]. by rewrite Hhit.
Qed.

(** The state after the loop: the pcb of a perfect match is at the front. *)
Definition found_state (s : nst) (live : gmap Z (asrc * Z)) (own : Z → Z) (d : datagram) (L : upcb_list) (s' : nst) : Prop :=
  ninv s' live own ∧ s' = set_udps s (udps s') ∧
  match perfect_pcb d L with
  | None => s' = s
  | Some (p, x) => upcbs_are s' (bare (p, x) :: without p (pcbs_of L)) ∧
      stat_udp (udps s') = (if decide (fst <$> head L = Some p) then proto_inc Cachehit (stat_udp (udps s)) else stat_udp (udps s))
  end.

Lemma search_spec s live own n d L : ninv s live own → processed s n d → ulist s L → ∃ pcb uncon s',
  udp_search (udp_fuel s) s n (dg_sport d) (dg_dport d) (dg_broadcast d) (udp_pcbs (udps s)) NULL NULL = Clean (pcb, uncon, s') ∧
  found_state s live own d L s' ∧
  match chosen_pcb d L with
  | None => pcb = NULL ∧ uncon = NULL
  | Some (p, x) => p ≠ NULL ∧ (if pcb =? NULL then uncon else pcb) = p ∧
      ∃ x', upcbs (udps s') !! p = Some x' ∧ set_u_next x' NULL = set_u_next x NULL
  end.
Proof.
  intros Hi Hd HL. destruct (ulist_size _ _ _ _ Hi HL) as [_ Hf].
  pose proof (search_run s live own n d L Hi Hd (udp_fuel s) (udp_pcbs (udps s)) [] HL HL Hf (Forall_nil_2 _)) as Hrun.
  cbn [app last fmap option_fmap option_map default from_option open_pcb foldl] in Hrun. unfold chosen_pcb, found_state.
  destruct (perfect_pcb d L) as [[p x]|] eqn:Hp.
  - destruct Hrun as (A & B & u & s' & HAB & Hfr & Hs). destruct (to_front_run s live own A p x B) as (s1 & L' & x' & H1 & H2 & H3 & H4 & H5 & H6 & H7 & H8); [done|by rewrite <- HAB|].
    rewrite Hfr in H1. injection H1 as <-. exists p, u, s'. split; [done|]. rewrite HAB in HL. destruct (nlist_elem _ _ _ _ p x HL) as [Hnull _]; [apply elem_of_app; right; left|].
    split; [|rewrite (proj2 (Z.eqb_neq p NULL)) by done; split; [done|]; split; [done|by exists x']].
    split; [done|]. split; [done|]. rewrite HAB. pose proof (ulist_NoDup _ _ HL) as Hnd. split.
    + exists L'. split; [done|]. rewrite H4, without_split by done. done.
    + rewrite H8. destruct A as [|[q y] A]; cbn [app head fmap option_fmap option_map fst]; [by rewrite !decide_True|].
      rewrite !decide_False; [done| |done]. intros [= ->]. cbn in Hnd. apply NoDup_cons in Hnd as [Hnd _].
      apply Hnd. rewrite fmap_app. apply elem_of_app. right. left.
  - exists NULL, (default NULL (fst <$> open_pcb d L)), s. split; [exact Hrun|].
    split; [split; [done|]; split; [by destruct s|done]|].
    destruct (open_pcb d L) as [[p x]|] eqn:Ho; [|done]. destruct (open_pcb_elem _ _ _ Ho) as [Hin _].
    destruct (nlist_elem _ _ _ _ _ _ HL Hin) as [Hnull Hx]. split; [done|]. split; [done|]. by exists x.
Qed.
End Search.
