(* ===== verification/IcmpInv.v ===== *)
(** * Making and sending packets

    New packets in heap memory, what a sent packet means for the link layer, and what
    [icmp_send_response] does. *)
From S2P Require Import Prelude Def Chksum Stats Iface Ip4Addr Pbuf PbufChain PbufClient PbufData PbufClone Pcb Netif NetInv EthOut Region Acd Etharp EtharpInv EtharpTmr EtharpRes EtharpQuery EtharpOut EtharpIn EthIn Ip4Out Ip4OutInv Icmp.

Lemma put_same_outside (d d' : gmap Z Z) a n X : same_outside d d' a n → Some <$> X = seg d' a n → n = Z.of_nat (length X) →
  d' = put d a X.
Proof.
  intros Hs HX ->. apply map_eq. intros x. rewrite put_lookup. case_decide as Hx; [|by apply Hs].
  assert (seg d' a (Z.of_nat (length X)) !! Z.to_nat (x - a) = Some (d' !! x)) as Hl
    by (rewrite seg_lookup by lia; do 2 f_equal; lia).
  rewrite <- HX, list_lookup_fmap in Hl. destruct (X !! Z.to_nat (x - a)); cbn in Hl; congruence.
Qed.

Section Packets.
Context {M : Type} `{PM : PbufAlloc M} {E : NetEnv M} {U : IpUpper M}.
Abbreviation pst := (@pst M).
Abbreviation nst := (nst M).

(** ** New packets *)

(** [q] is a new packet of [n] bytes with [layer] bytes of room in front. *)
Record ram_new (s : nst) (live : gmap Z (asrc * Z)) (own : Z → Z) (layer n q : Z) (s1 : nst) : Prop := RamNew {
  rn_null : q ≠ NULL;
  rn_get : pbufs (pb s1) !! q = Some (ram_pbuf q layer n);
  rn_new : pbufs (pb s) !! q = None;
  rn_inv : ∃ live1, ninv s1 live1 (add_own own q 1);
  rn_state : ∃ m, s1 = set_pb s (upd (set_pmem (pb s) m) q (ram_pbuf q layer n));
  rn_chain p l : chained (pbufs (pb s)) p l → chained (pbufs (pb s1)) p l;
  rn_foreign p l a m : chained (pbufs (pb s)) p l → anchored l → q + 16 ≤ a → a + m ≤ q + 16 + layer + n → foreign l a m;
  rn_keeps (d : gmap Z Z) : (∀ x, ¬ (q + 16 ≤ x < q + 16 + layer + n) → d !! x = data (pb s) !! x) → keeps live (data (pb s)) d;
  rn_mapped : mapped (data (pb s)) (q + 16) (layer + n) }.

(** There is no memory for a packet of [n] bytes. *)
Definition no_memory (s : nst) (layer n : Z) : Prop :=
  65536 ≤ n ∨ ∃ q, pbuf_alloc env_custom_free (pb s) layer n PBUF_RAM = Clean (NULL, q).

Lemma ram_new_run s live own layer n : ninv s live own → 0 ≤ layer ≤ PBUF_TRANSPORT → is_u16 n →
  ∃ r s1, withp s (λ q, pbuf_alloc env_custom_free q layer n PBUF_RAM) = Clean (r, s1) ∧
    ((r = NULL ∧ ninv s1 live own ∧ no_memory s layer n ∧ ∃ m, s1 = set_pb s (set_pmem (pb s) m)) ∨ ram_new s live own layer n r s1).
Proof.
  intros Hi Hlay Hn. destruct (ninv_alloc_ram s live own layer n Hi Hlay Hn) as (m & [[Ha Hi1]|(q & cap & Hq & Ha & HB & Hlv & Hi1)]).
  - exists NULL, (set_pb s (set_pmem (pb s) m)). rewrite (withp_run s (λ q, pbuf_alloc env_custom_free q layer n PBUF_RAM) _ _ Ha).
    split; [done|]. left. split_and!; [done|done|by right; exists (set_pmem (pb s) m)|by exists m].
  - exists q, (set_pb s (upd (set_pmem (pb s) m) q (ram_pbuf q layer n))).
    rewrite (withp_run s (λ q, pbuf_alloc env_custom_free q layer n PBUF_RAM) _ _ Ha). split; [done|]. right.
    set (c := ram_pbuf q layer n) in *. set (s1 := set_pb s _) in *.
    assert (pbufs (pb s1) !! q = Some c) as Hc by apply lookup_insert_eq.
    destruct (bo_live _ _ _ (i_block _ _ _ (ni_pb _ _ _ Hi1) _ _ Hc)) as (k & z & Hlz & _ & _ & Hr).
    rewrite lookup_insert_eq in Hlz. injection Hlz as <- <-. destruct (Hr (ram_contiguous _ _ _)) as [Hr1 Hr2].
    pose proof (i_alloc _ _ _ (ni_pb _ _ _ Hi1)) as Hpa. cbn [c ram_pbuf payload len] in Hr1, Hr2. unfold SIZEOF_STRUCT_PBUF in *.
    split; try done.
    + by eexists.
    + by exists m.
    + intros p l Hl. apply chained_insert; [|done]. intros Hin. apply list_elem_of_fmap in Hin as ([x y] & -> & Hin).
      destruct (chained_elem _ _ _ _ _ Hl Hin) as [_ Hx]. cbn in HB. congruence.
    + intros p l a w Hl Hanc Ha1 Ha2. eapply foreign_new; [exact Hi|done|done|exact Hpa|done|lia|lia].
    + intros d Hd. eapply keeps_new; [exact Hpa|done|]. intros x Hx. apply Hd. lia.
    + intros x Hx. apply (i_data _ _ _ (ni_pb _ _ _ Hi)). apply (pa_region _ _ q SrcHeap cap Hpa); [apply lookup_insert_eq|lia].
Qed.

(** ** What has been sent *)

(** The packet [P] has gone to the link layer, as [etharp_output] treats it in the ARP table of [s]. *)
Definition packet_sent (s : nst) (n : Z) (f : netif) (dest src : Z) (P : list Z) (s' : nst) : Prop :=
  ∃ s1 q b l r s2, frames s1 = frames s ∧ arp_table s1 = arp_table s ∧ netifs s1 = netifs s ∧
    etharp_cached_entry s1 = etharp_cached_entry s ∧
    sendable s1 q b l ∧ content (data (pb s1)) l = Some <$> P ∧ routed s1 n f dest src q b l r s2 ∧
    frames s' = frames s2 ∧ arp_table s' = arp_table s2.

Lemma packet_sent_ext (s s0 : nst) n f dest src P s' : frames s0 = frames s → arp_table s0 = arp_table s → netifs s0 = netifs s →
  etharp_cached_entry s0 = etharp_cached_entry s → packet_sent s0 n f dest src P s' → packet_sent s n f dest src P s'.
Proof.
  intros E1 E2 E3 E4 (s1 & q & b & l & r & s2 & H1 & H2 & H3 & H4 & H5). exists s1, q, b, l, r, s2.
  rewrite <- E1, <- E2, <- E3, <- E4. done.
Qed.

(** [pbuf_free(p)] *)
Lemma free_pbuf_run s live own p : ninv s live own → 0 < own p → ∃ q live', free_pbuf s p = Clean (set_pb s q) ∧
  ninv (set_pb s q) live' (add_own own p (-1)) ∧ data q = data (pb s) ∧ live' ⊆ live ∧ sub_ref (pbufs (pb s)) (pbufs q).
Proof.
  intros Hi Hp. destruct (ninv_free s live own p Hi Hp) as (c & q & live' & Hf & Hi' & Hd & Hl & Hs).
  exists q, live'. unfold free_pbuf. rewrite (withp_run s (λ x, pbuf_free env_custom_free x p) c q Hf). out_simp. done.
Qed.

Lemma free_pbuf_safe s live own p : ninv s live own → 0 < own p → safe (add_own own p (-1)) s (free_pbuf s p).
Proof.
  intros Hi Hp. destruct (free_pbuf_run s live own p Hi Hp) as (q & live' & -> & Hi' & Hd & _).
  exists (set_pb s q), live'. split_and!; [done..|]. split; try done. cbn. by rewrite Hd.
Qed.

(** A chain is read byte by byte into segments. *)
Lemma segments_run fuel : ∀ (s : nst) q l, readable (pb s) q l → bytes_ok (data (pb s)) → (length l ≤ fuel)%nat →
  ∃ segs, pbuf_segments fuel s q = Clean segs ∧ Forall segment_ok segs ∧ Some <$> chain_data segs = content (data (pb s)) l.
Proof.
  induction fuel as [|fuel IH]; intros s q l Hr Hb Hf; destruct l as [|[q' b] l]; try (cbn in Hf; lia).
  1, 2: exists []; destruct Hr as [Hc _ _]; by inversion Hc.
  - cbn [length] in Hf. apply readable_tail in Hr as (-> & Hp & Hq & Hl & Hm & Hr). cbn [pbuf_segments].
    rewrite (proj2 (Z.eqb_neq q NULL)), (get_run _ _ _ Hq) by done. out_simp. unfold is_u16 in Hl.
    destruct (load_run (Z.to_nat (len b)) (data (pb s)) (payload b)) as (d & Hd & Hs); [by rewrite Z2Nat.id by lia|].
    unfold rd. rewrite Hd. out_simp. destruct (IH s (next b) l Hr Hb) as (segs & -> & Hok & Hc); [lia|]. out_simp.
    rewrite Z2Nat.id in Hs by lia. pose proof (f_equal length Hs) as Hlen. rewrite length_fmap, seg_length in Hlen.
    exists ((payload b, d) :: segs). split_and!; [done| |].
    + constructor; [|done]. split; cbn; [by eapply load_bytes|]. lia.
    + unfold chain_data in *. cbn. by rewrite fmap_app, Hs, Hc.
Qed.

(** ** [ip4_output_if] *)

Definition used_src (f : netif) (src : option Z) : Z :=
  if isany_ptr src then nf_ip_addr f else default IPADDR_ANY src.

Context `{HF : !FragOk}.

(** [ip4_output_if_src] with a source address sends the packet behind a header. *)
Lemma output_src_sent s live own p b l src dest ttl tos proto n f P : ninv s live own → 0 < own p →
  sendable s p b ((p, b) :: l) → ref b = 1 → is_u8 ttl → is_u8 tos → is_u8 proto → is_u32 (default IPADDR_ANY src) → is_u32 dest →
  netifs s !! n = Some f → content (data (pb s)) ((p, b) :: l) = Some <$> P → let src' := default IPADDR_ANY src in
  ∃ r s' live', ip4_output_if_src s p src (Some dest) ttl tos proto n = Clean (r, s') ∧ ninv s' live' own ∧ same_links s s' ∧
    (¬ add_header_fits p b 20 false → r = ERR_BUF ∧ s' = IP_STATS_INC Err s) ∧
    (add_header_fits p b 20 false → fits_mtu f (grow b 20) →
       packet_sent s n f dest src' (sent_header s b src' dest ttl tos proto ++ P) s').
Proof.
  intros Hi Hp Hs Href H1 H2 H3 Hu H5 Hf HP src'.
  destruct (output_src_run s live own p b l src dest ttl tos proto n f Hi Hp Hs Href H1 H2 H3 Hu H5 Hf)
    as (r & s' & live' & H & Hi' & Hl & Hno & Hyes). exists r, s', live'. split_and!; try done. intros Hfit Hm.
  specialize (Hyes Hfit Hm). eexists _, p, (grow b 20), _, r, s'. split_and!; [| | | | | |exact Hyes|done..]; try done.
  - apply sendable_ips, sendable_over, sendable_ips. by apply (sendable_grow s live own).
  - cbn [IP_STATS_INC pb set_ips]. rewrite (ip_ready_content s live own) by done. by rewrite HP, fmap_app.
Qed.

Lemma output_if_run s live own p b l src dest ttl tos proto n f P : ninv s live own → 0 < own p →
  sendable s p b ((p, b) :: l) → ref b = 1 → is_u8 ttl → is_u8 tos → is_u8 proto → is_u32 (default IPADDR_ANY src) → is_u32 dest →
  netifs s !! n = Some f → content (data (pb s)) ((p, b) :: l) = Some <$> P →
  ∃ r s' live', ip4_output_if s p src (Some dest) ttl tos proto n = Clean (r, s') ∧ ninv s' live' own ∧ same_links s s' ∧
    (¬ add_header_fits p b 20 false → r = ERR_BUF ∧ s' = IP_STATS_INC Err s) ∧
    (add_header_fits p b 20 false → fits_mtu f (grow b 20) →
       packet_sent s n f dest (used_src f src) (sent_header s b (used_src f src) dest ttl tos proto ++ P) s').
Proof.
  intros Hi Hp Hs Href H1 H2 H3 H4 H5 Hf HP. unfold ip4_output_if, get_netif. rewrite Hf. out_simp.
  pose proof (nf_ok_ip _ (proj2 (lo_netif _ _ _ _ (ni_links _ _ _ Hi) _ _ Hf))) as Hip.
  unfold used_src, isany_ptr in *. destruct src as [a|]; [destruct (ip4_addr_isany a)|]; by apply (output_src_sent s live own p b l).
Qed.

(** [ip4_output]: the packet gets its header and goes to the interface of the route. *)
Lemma ip4_output_run s live own p b l src dest ttl tos proto nl P : ninv s live own → 0 < own p →
  nchain nf_next (netifs s) (netif_list s) nl → sendable s p b ((p, b) :: l) → ref b = 1 → is_u8 ttl → is_u8 tos → is_u8 proto →
  is_u32 (default IPADDR_ANY src) → is_u32 dest → content (data (pb s)) ((p, b) :: l) = Some <$> P →
  ∃ r s' live' n, ip4_output s p src (Some dest) ttl tos proto = Clean (r, s') ∧ ninv s' live' own ∧ same_links s s' ∧
    routes s dest nl n ∧ (n = NULL → r = ERR_RTE ∧ s' = IP_STATS_INC Rterr (IP_STATS_INC Rterr s)) ∧
    (n ≠ NULL → ∃ f, netifs s !! n = Some f ∧ (¬ add_header_fits p b 20 false → r = ERR_BUF ∧ s' = IP_STATS_INC Err s) ∧
      (add_header_fits p b 20 false → fits_mtu f (grow b 20) →
         packet_sent s n f dest (used_src f src) (sent_header s b (used_src f src) dest ttl tos proto ++ P) s')).
Proof.
  intros Hi Hp Hnl Hs Href H1 H2 H3 H4 H5 HP. unfold ip4_output. rewrite (get_run _ _ _ (sd_head _ _ _ _ Hs)), bind_clean, Href.
  change (1 =? 1) with true. out_simp. destruct (route_run s live own dest nl Hi Hnl) as (n & -> & Hr & Hsome). rewrite bind_clean.
  destruct (Z.eqb_spec n NULL) as [Hn|Hn].
  - exists ERR_RTE, (IP_STATS_INC Rterr (IP_STATS_INC Rterr s)), live, n. split_and!; try done. by do 2 apply ninv_ips.
  - destruct (Hsome Hn) as [f Hf].
    destruct (output_if_run s live own p b l src dest ttl tos proto n f P Hi Hp Hs Href H1 H2 H3 H4 H5 Hf HP)
      as (r & s' & live' & H & Hi' & Hl & Hno & Hyes). exists r, s', live', n. split_and!; try done. intros _. by exists f.
Qed.

(** ** ICMP messages *)

(** The eight bytes of the header and the data. *)
Definition icmp_msg (type code chksum : Z) (body : list Z) : list Z :=
  [u8 type; u8 code] ++ le16 chksum ++ le32 0 ++ body.

Lemma icmp_msg_bytes type code c body : Forall is_u8 body → Forall is_u8 (icmp_msg type code c body).
Proof.
  intros Hb. unfold icmp_msg. repeat apply Forall_app_2; try done; try apply le16_bytes; try apply le32_bytes.
  repeat constructor; apply u8_range.
Qed.

Lemma splice_app_l k l A B : (k + length l ≤ length A)%nat → splice k l (A ++ B) = splice k l A ++ B.
Proof.
  intros H. unfold splice. rewrite take_app_le, drop_app_le by lia. by rewrite <- !app_assoc.
Qed.

Lemma splice_app_r k l A B : (length A ≤ k)%nat → splice k l (A ++ B) = A ++ splice (k - length A) l B.
Proof.
  intros H. unfold splice. rewrite take_app_ge, drop_app_ge by lia. rewrite <- app_assoc. do 3 f_equal. f_equal. lia.
Qed.

Lemma splice_all l B : length l = length B → splice 0 l B = l.
Proof. intros H. unfold splice. cbn. by rewrite drop_ge, app_nil_r by lia. Qed.

(** How much of the offending packet [icmp_send_response] quotes. *)
Definition quoted (P : list Z) : list Z := take 28 P.

(** Its effect, when the packet at [p] has the bytes [P] and came from [src]; [nl] are the
    interfaces in order. *)
Inductive responded (s : nst) (nl : list Z) (type code src : Z) (P : list Z) (s' : nst) : Prop :=
| responded_nomem : no_memory s PBUF_IP (8 + Z.of_nat (length (quoted P))) → frames s' = frames s → arp_table s' = arp_table s → ips s' = ips s → responded s nl type code src P s'
| responded_noroute : routes s src nl NULL → frames s' = frames s → arp_table s' = arp_table s →
    ips s' = ips (IP_STATS_INC Rterr s) → responded s nl type code src P s'
| responded_sent n f q c cs : routes s src nl n → netifs s !! n = Some f →
    let msg x := icmp_msg type code x (quoted P) in cs = inet_chksum (q + 52) (msg 0) →
    c = ram_pbuf q PBUF_IP (Z.of_nat (length (msg cs))) →
    (fits_mtu f (grow c 20) → packet_sent s n f src (nf_ip_addr f)
       (sent_header s c (nf_ip_addr f) src ICMP_TTL 0 IP_PROTO_ICMP ++ msg cs) s') → responded s nl type code src P s'.

(** The message is put together at [h]. *)
Lemma response_fill s live own h n type code : ninv s live own → 8 ≤ n → mapped (data (pb s)) h n →
  ∃ a b rest, Z.of_nat (length rest) = n - 8 ∧
    (∀ B (k : nst → out B), (s ← wr s h [u8 type]; s ← wr s (h + 1) [u8 code]; s ← wr s (h + 4) (le32 0); k s) =
      k (over s h ([u8 type; u8 code; a; b] ++ le32 0 ++ rest))) ∧ Forall is_u8 ([u8 type; u8 code; a; b] ++ le32 0 ++ rest).
Proof.
  intros Hi Hn Hm. destruct (over_here s live own h (Z.to_nat n) Hi) as (L & HL & HB & _ & Hs); [by rewrite Z2Nat.id by lia|].
  assert (mapped (data (pb s)) h (Z.of_nat (length L))) as Hm' by (by rewrite HL, Z2Nat.id by lia).
  do 8 (destruct L as [|? L]; [cbn in HL; lia|]). cbn [length] in HL.
  eexists _, _, L. split_and!; [lia| |].
  { intros B k. rewrite Hs at 1. region_step 0%nat. region_step 1%nat. region_step 4%nat. done. }
  do 8 (apply Forall_cons in HB as [? HB]). rewrite !Forall_app. split_and!; [|apply le32_bytes|done].
  rewrite !Forall_cons. split_and!; first [apply u8_range|done|by apply Forall_nil_2].
Qed.

(** ** A new packet can be sent *)

Lemma single_sendable (s : nst) q c : q ≠ NULL → pbufs (pb s) !! q = Some c → next c = NULL → tot_len c = len c →
  contiguous c → ref c < 255 → sendable s q c [(q, c)].
Proof.
  intros Hq Hb Hn Ht Hc Hr. split; [done| | |done| |done].
  - constructor; [done..|]. rewrite Hn. constructor.
  - split; [|done]. cbn. lia.
  - constructor; [|constructor]. intros Hnc. by destruct Hnc.
Qed.

Lemma ram_sendable (s : nst) q layer n : q ≠ NULL → pbufs (pb s) !! q = Some (ram_pbuf q layer n) →
  sendable s q (ram_pbuf q layer n) [(q, ram_pbuf q layer n)].
Proof. intros Hq Hb. by apply single_sendable. Qed.

Lemma sendable_len s live own p b l : ninv s live own → sendable s p b ((p, b) :: l) → len b ≤ tot_len b.
Proof.
  intros Hi Hs. destruct (sd_packet _ _ _ _ Hs) as [Htot _]. cbn [lens] in Htot.
  pose proof (inv_lens_pos _ _ _ _ _ (ni_pb _ _ _ Hi) (sd_chain _ _ _ _ Hs)) as Hpos. apply Forall_cons in Hpos as [_ Hpos%lens_nonneg]. lia.
Qed.

(** The packet [p] has the bytes [P] and none of the [n] bytes from [h] on. *)
Record beside (p : Z) (l : list (Z * pbuf)) (P : list Z) (h n : Z) (s : nst) : Prop := Beside {
  bs_read : readable (pb s) p l;
  bs_foreign : foreign l h n;
  bs_content : content (data (pb s)) l = Some <$> P }.

Lemma ram_beside s live own layer n q s1 p b l P : ninv s live own → ram_new s live own layer n q s1 → sendable s p b l →
  content (data (pb s)) l = Some <$> P → beside p l P (q + 16) (layer + n) s1.
Proof.
  intros Hi Hn Hs HP. destruct (rn_inv _ _ _ _ _ _ _ Hn) as [live1 Hi1]. pose proof (sd_chain _ _ _ _ Hs) as Hc. split.
  - eapply ninv_readable; [exact Hi1|]. by eapply rn_chain.
  - eapply rn_foreign; [done..|apply Hs|lia|lia].
  - destruct (rn_state _ _ _ _ _ _ _ Hn) as [m ->]. done.
Qed.

Lemma beside_over (s : nst) p l P h n a L : beside p l P h n s → h ≤ a → a + Z.of_nat (length L) ≤ h + n →
  beside p l P h n (over s a L).
Proof.
  intros [H1 H2 H3] Ha1 Ha2. split; [|done|].
  - destruct H1 as [R1 R2 R3]. split; [done..|]. apply (Forall_impl _ _ _ R3). intros kv Hm. cbn. by apply put_mapped.
  - rewrite <- H3. cbn [over pb set_pb data set_data]. apply content_frame. apply (Forall_impl _ _ _ H2). intros kv Hap.
    apply put_seg_apart. unfold apart in *. lia.
Qed.

(** Bytes of the first buffer. *)
Lemma content_field d p b l P k n : content d ((p, b) :: l) = Some <$> P → 0 ≤ k → 0 ≤ n → k + n ≤ len b →
  Some <$> take (Z.to_nat n) (drop (Z.to_nat k) P) = seg d (payload b + k) n.
Proof.
  intros HP Hk Hn Hle. rewrite fmap_take, fmap_drop, <- HP, content_cons.
  rewrite (seg_split _ _ (len b) k) by lia. rewrite <- app_assoc, drop_app_length' by (rewrite seg_length; lia).
  rewrite (seg_split _ _ (len b - k) n) by lia. rewrite <- app_assoc. by rewrite take_app_length' by (rewrite seg_length; lia).
Qed.

Lemma beside_rd32 (s : nst) p b l P h n k : beside p ((p, b) :: l) P h n s → 0 ≤ k → k + 4 ≤ len b →
  rd32 s (payload b + k) = Clean (of_le (take 4 (drop (Z.to_nat k) P))).
Proof.
  intros [_ _ HP] Hk Hle. unfold rd32, rd. change (Z.to_nat 4) with 4%nat.
  rewrite (load_val 4 _ _ (take 4 (drop (Z.to_nat k) P))); [by out_simp|].
  exact (content_field _ _ _ _ _ _ 4 HP Hk ltac:(done) Hle).
Qed.

(** The first [n] bytes of the packet are copied behind [k] bytes of the new one. *)
Lemma copy_into_new (s : nst) p b l P h q layer m L k n : beside p ((p, b) :: l) P h (Z.of_nat (length L)) (over s h L) →
  packet ((p, b) :: l) → whole ((p, b) :: l) → q ≠ NULL → pbufs (pb s) !! q = Some (ram_pbuf q layer m) →
  h = q + 16 + layer → m = Z.of_nat (length L) → m < 65536 → mapped (data (pb s)) h m →
  0 ≤ k → 0 ≤ n ≤ Z.of_nat (length P) → k + n ≤ m →
  withp (over s h L) (λ x, pbuf_copy_partial_pbuf x q p n k) =
    Clean (ERR_OK, over s h (splice (Z.to_nat k) (take (Z.to_nat n) P) L)).
Proof.
  intros [Hr Hf HP] Hpk Hw Hq Hb -> -> Hlt Hm Hk Hn Hle. set (h := q + 16 + layer) in *.
  assert (lens ((p, b) :: l) = Z.of_nat (length P)) as Hlens.
  { pose proof (f_equal length HP) as HL. rewrite content_length, length_fmap in HL by (apply wf_lens_pos, (rd_lens _ _ _ Hr)).
    pose proof (wf_lens_nonneg _ (rd_lens _ _ _ Hr)). lia. }
  destruct (copy_part_run (pb (over s h L)) q (ram_pbuf q layer (Z.of_nat (length L))) p ((p, b) :: l) n k) as (d' & H & H1 & H2 & _);
    try done; try lia; cbn [ram_pbuf payload len next tot_len]; unfold SIZEOF_STRUCT_PBUF; fold h.
  - cbn [over pb set_pb data set_data]. by apply put_mapped.
  - rewrite (withp_run _ (λ x, pbuf_copy_partial_pbuf x q p n k) _ _ H). cbn [ram_pbuf payload] in H1, H2. unfold SIZEOF_STRUCT_PBUF in *.
    fold h in H1, H2. rewrite HP, <- fmap_take in H1.
    assert (length (take (Z.to_nat n) P) = Z.to_nat n) as Hlen by (rewrite length_take; lia).
    rewrite (put_same_outside _ d' _ n (take (Z.to_nat n) P) H2) by (done || rewrite Hlen; lia).
    cbn [over pb set_pb data set_data]. rewrite <- (Z2Nat.id k) by lia. rewrite put_splice by lia. rewrite Nat2Z.id. done.
Qed.

Lemma beside_sub (s : nst) p l P h n h' n' : beside p l P h n s → h ≤ h' → h' + n' ≤ h + n → beside p l P h' n' s.
Proof. intros [H1 H2 H3] Ha Hb. split; [done| |done]. by eapply foreign_sub. Qed.

Lemma beside_length (s : nst) p l P h n : beside p l P h n s → lens l = Z.of_nat (length P).
Proof.
  intros [H1 _ H3]. pose proof (f_equal length H3) as HL.
  rewrite content_length, length_fmap in HL by (apply wf_lens_pos, (rd_lens _ _ _ H1)).
  pose proof (wf_lens_nonneg _ (rd_lens _ _ _ H1)). lia.
Qed.

(** ** [icmp_send_response] *)

(** The message without its checksum is in the new packet. *)
Lemma response_message s live own p b l P type code n q s1 : ninv s live own → sendable s p b ((p, b) :: l) →
  content (data (pb s)) ((p, b) :: l) = Some <$> P → 0 ≤ n ≤ Z.of_nat (length P) → n ≤ 28 →
  ram_new s live own PBUF_IP (8 + n) q s1 →
  let h := q + 52 in
  ∃ x y, let s2 := over s1 h ([u8 type; u8 code; x; y] ++ le32 0 ++ take (Z.to_nat n) P) in
    is_u8 x ∧ is_u8 y ∧
    (∀ B (k : Z * nst → out B), (s ← wr s1 h [u8 type]; s ← wr s (h + 1) [u8 code]; s ← wr s (h + 4) (le32 0);
       r ← withp s (λ z, pbuf_copy_partial_pbuf z q p n SIZEOF_ICMP_HDR); k r) = k (ERR_OK, s2)) ∧
    beside p ((p, b) :: l) P h (8 + n) s2.
Proof.
  intros Hi Hs HP Hn Hn28 Hnew h. destruct (rn_inv _ _ _ _ _ _ _ Hnew) as [live1 Hi1].
  assert (mapped (data (pb s1)) h (8 + n)) as Hm.
  { destruct (rn_state _ _ _ _ _ _ _ Hnew) as [m ->]. eapply mapped_sub; [apply (rn_mapped _ _ _ _ _ _ _ Hnew)|unfold h, PBUF_IP, PBUF_LINK_HLEN, PBUF_IP_HLEN; lia..]. }
  destruct (response_fill s1 live1 _ h (8 + n) type code Hi1) as (x & y & rest & Hrest & Hfill & HB); [lia|done|].
  exists x, y. set (L := [u8 type; u8 code; x; y] ++ le32 0 ++ rest) in *.
  assert (Z.of_nat (length L) = 8 + n) as HL by (unfold L; rewrite !length_app; cbn [length le32]; lia).
  assert (beside p ((p, b) :: l) P h (8 + n) s1) as Hbs.
  { eapply beside_sub; [exact (ram_beside _ _ _ _ _ _ _ _ _ _ _ Hi Hnew Hs HP)|unfold h, PBUF_IP, PBUF_LINK_HLEN, PBUF_IP_HLEN; lia..]. }
  assert (splice 8 (take (Z.to_nat n) P) L = [u8 type; u8 code; x; y] ++ le32 0 ++ take (Z.to_nat n) P) as Hspl.
  { unfold L. rewrite !app_assoc. rewrite splice_app_r by done. f_equal. apply splice_all. rewrite length_take. lia. }
  apply Forall_app in HB as [HB _]. rewrite !Forall_cons in HB. destruct HB as (_ & _ & Hx & Hy & _).
  split_and!; [done..| |].
  - intros B k. rewrite Hfill, <- Hspl. change 8%nat with (Z.to_nat SIZEOF_ICMP_HDR).
    rewrite (copy_into_new s1 p b l P h q PBUF_IP (8 + n)); [by rewrite bind_clean|..]; try done; try lia; try apply Hs; try apply Hnew.
    + rewrite HL. apply beside_over; [done|lia|lia].
    + unfold h, PBUF_IP, PBUF_LINK_HLEN, PBUF_IP_HLEN. lia.
  - apply beside_over; [done|lia|]. rewrite !length_app, length_take. cbn [length le32]. lia.
Qed.

(** The checksum is filled in and the message sent. *)
Lemma response_send (s : nst) live own q c h x y type code X src n f : ninv s live own → 0 < own q → q ≠ NULL →
  pbufs (pb s) !! q = Some c → c = ram_pbuf q PBUF_IP (8 + Z.of_nat (length X)) → h = q + 52 → (length X ≤ 28)%nat →
  Forall is_u8 X → mapped (data (pb s)) h (len c) → is_u8 type → is_u8 code → is_u32 src → netifs s !! n = Some f →
  let msg z := icmp_msg type code z X in let cs := inet_chksum h (msg 0) in
  ∃ s' live', (s ← wr (over s h ([u8 type; u8 code; x; y] ++ le32 0 ++ X)) (h + 2) (le16 0);
     m ← rd s h (len c);
     s ← wr s (h + 2) (le16 (inet_chksum h m));
     '(_, s) ← ip4_output_if (ICMP_STATS_INC Xmit s) q None (Some src) ICMP_TTL 0 IP_PROTO_ICMP n;
     mret s) = Clean s' ∧ ninv s' live' own ∧ same_links s s' ∧
    (fits_mtu f (grow c 20) → packet_sent s n f src (nf_ip_addr f)
       (sent_header s c (nf_ip_addr f) src ICMP_TTL 0 IP_PROTO_ICMP ++ msg cs) s').
Proof.
  intros Hi Hq Hq0 Hb -> -> HX HXB Hm Ht Hco Hsrc Hf msg cs. set (h := q + 52) in *. set (c := ram_pbuf _ _ _) in *.
  assert (Forall is_u8 (msg cs)) as HM by (by apply icmp_msg_bytes).
  assert (length (msg cs) = (8 + length X)%nat) as HL by done.
  set (L := [u8 type; u8 code; x; y] ++ le32 0 ++ X). assert (length L = (8 + length X)%nat) as HL0 by done.
  assert (mapped (data (pb s)) h (Z.of_nat (8 + length X))) as Hmap.
  { eapply mapped_sub; [exact Hm|lia|]. cbn [c ram_pbuf len]. lia. }
  rewrite (wr_region s h L (h + 2) _ 2) by (rewrite ?HL0; cbn [length le16]; (lia || exact Hmap)). rewrite bind_clean.
  change (splice 2 (le16 0) L) with (msg 0).
  assert (length (msg 0) = (8 + length X)%nat) as HL1 by done.
  rewrite (rd_region s h (msg 0) h (len c) 0) by (rewrite ?HL1; cbn [c ram_pbuf len]; lia). rewrite bind_clean, drop_0.
  rewrite take_ge by (rewrite HL1; cbn [c ram_pbuf len]; lia). fold cs.
  rewrite (wr_region s h (msg 0) (h + 2) _ 2) by (rewrite ?HL1; cbn [length le16]; (lia || exact Hmap)). rewrite bind_clean.
  change (splice 2 (le16 cs) (msg 0)) with (msg cs).
  set (s1 := ICMP_STATS_INC Xmit (over s h (msg cs))).
  assert (ninv s1 live own) as Hi1 by (apply ninv_ips, ninv_over; [done|done|by rewrite HL]).
  assert (sendable s1 q c [(q, c)]) as Hs by (by apply ram_sendable).
  assert (content (data (pb s1)) [(q, c)] = Some <$> msg cs) as Hcont.
  { rewrite content_cons. cbn [content flat_map mjoin list_join]. rewrite app_nil_r.
    cbn [s1 ICMP_STATS_INC over pb set_pb set_ips data set_data c ram_pbuf payload len].
    replace (q + SIZEOF_STRUCT_PBUF + PBUF_IP) with h by (unfold h, SIZEOF_STRUCT_PBUF, PBUF_IP, PBUF_LINK_HLEN, PBUF_IP_HLEN; lia).
    apply put_seg. rewrite HL. lia. }
  assert (add_header_fits q c 20 false) as Hfit by (split_and!; cbn; [done|unfold is_u16 in *; lia|intros _; unfold SIZEOF_STRUCT_PBUF, PBUF_IP, PBUF_LINK_HLEN, PBUF_IP_HLEN; lia|by intros []]).
  destruct (output_if_run s1 live own q c [] None src ICMP_TTL 0 IP_PROTO_ICMP n f (msg cs) Hi1 Hq Hs) as (r & s' & live' & H & Hi' & Hl & _ & Hyes);
    try done.
  rewrite H, bind_clean. exists s', live'. split_and!; [done|done| |].
  - apply (same_links_trans _ s1); [|exact Hl]. apply (same_links_trans _ (over s h (msg cs))); [apply over_links|by split].
  - intros Hmtu. exact (Hyes Hfit Hmtu).
Qed.

Lemma add_back own p s live : ninv s live (add_own (add_own own p 1) p (-1)) → ninv s live own.
Proof. intros Hi. apply (ninv_own_ext _ _ _ _ Hi). intros x. unfold add_own. case_decide; lia. Qed.

Lemma send_response_run s live own p b l type code P nl : ninv s live own → nchain nf_next (netifs s) (netif_list s) nl →
  sendable s p b ((p, b) :: l) → 20 ≤ len b → content (data (pb s)) ((p, b) :: l) = Some <$> P → is_u8 type → is_u8 code →
  ∃ s' live', icmp_send_response s p type code = Clean s' ∧ ninv s' live' own ∧ same_links s s' ∧
    responded s nl type code (of_le (take 4 (drop 12 P))) P s'.
Proof.
  intros Hi Hnl Hs Hlen HP Ht Hco. set (src := of_le (take 4 (drop 12 P))).
  pose proof (ninv_readable _ _ _ _ _ Hi (sd_chain _ _ _ _ Hs)) as Hrd.
  assert (tot_len b = Z.of_nat (length P)) as Htot.
  { rewrite <- (beside_length s p ((p, b) :: l) P 0 0); [apply Hs|]. split; [done| |done].
    apply Forall_forall. intros kv _. unfold apart. lia. }
  assert (20 ≤ Z.of_nat (length P)) as HP20.
  { pose proof (sendable_len _ _ _ _ _ _ Hi Hs). lia. }
  unfold icmp_send_response. rewrite (get_run _ _ _ (sd_head _ _ _ _ Hs)), bind_clean. unfold IP_HLEN, ICMP_DEST_UNREACH_DATASIZE, SIZEOF_ICMP_HDR.
  set (n := if tot_len b <? 20 + 8 then tot_len b else 20 + 8).
  assert (n = Z.min 28 (Z.of_nat (length P))) as Hn by (unfold n; destruct (Z.ltb_spec (tot_len b) (20 + 8)); lia). clearbody n.
  destruct (ram_new_run s live own PBUF_IP (8 + n) Hi) as (q & s1 & Ha & Hcase); [done|unfold is_u16; lia|].
  rewrite Ha, bind_clean. destruct Hcase as [(-> & Hi1 & Hno & m & ->)|Hnew].
  { change (NULL =? NULL) with true. cbn iota. exists (set_pb s (set_pmem (pb s) m)), live. split_and!; [done|done|by split|].
    apply responded_nomem; try done. unfold quoted. rewrite length_take. by replace (Z.of_nat (28 `min` length P)) with n by lia. }
  rewrite (proj2 (Z.eqb_neq q NULL)) by apply Hnew. destruct (rn_inv _ _ _ _ _ _ _ Hnew) as [live1 Hi1].
  pose proof (rn_get _ _ _ _ _ _ _ Hnew) as Hq. set (c := ram_pbuf q PBUF_IP (8 + n)) in *.
  destruct (rn_state _ _ _ _ _ _ _ Hnew) as [m Hs1].
  subst s1. set (s1 := set_pb s (upd _ _ _)) in *. rewrite (get_run _ _ _ Hq), bind_clean. change (len c) with (8 + n). rewrite Z.leb_refl. out_simp.
  change (payload c) with (q + 16 + 36). replace (q + 16 + 36) with (q + 52) by lia.
  destruct (response_message s live own p b l P type code n q s1 Hi Hs HP) as (x & y & Hx & Hy & Hmsg & Hbs); [lia|lia|done|].
  set (X := take (Z.to_nat n) P) in *. assert (X = quoted P) as HX.
  { unfold X, quoted. destruct (decide (28 ≤ length P)%nat); [f_equal; lia|]. rewrite !take_ge by lia. done. }
  assert (Z.of_nat (length X) = n) as HXl by (unfold X; rewrite length_take; lia).
  rewrite Hmsg. cbn iota beta. set (h := q + 52) in *. set (s2 := over s1 h _).
  assert (Forall is_u8 X) as HXB.
  { apply Forall_take. apply (content_bytes _ _ _ (mo_bytes _ (ni_mem _ _ _ Hi)) HP). }
  assert (mapped (data (pb s1)) h (8 + n)) as Hm.
  { eapply mapped_sub; [apply (rn_mapped _ _ _ _ _ _ _ Hnew)|unfold h, PBUF_IP, PBUF_LINK_HLEN, PBUF_IP_HLEN; lia..]. }
  assert (is_u32 src) as Hsrc.
  { apply of_le_u32; [by apply Forall_take, Forall_drop, (content_bytes _ _ _ (mo_bytes _ (ni_mem _ _ _ Hi)) HP)|rewrite length_take, length_drop; lia]. }
  rewrite (beside_rd32 s2 p b l P h (8 + n) 12 Hbs), bind_clean by lia.
  change (Z.to_nat 12) with 12%nat. fold src.
  assert (ninv s2 live1 (add_own own q 1)) as Hi2.
  { apply ninv_over; [done|..]; rewrite ?length_app; cbn [length le32]; [|rewrite <- HXl in Hm; eapply mapped_sub; [exact Hm|lia..]].
    rewrite !Forall_app, !Forall_cons. split_and!; try apply u8_range; try apply le32_bytes; try done. }
  destruct (route_run s2 live1 _ src nl Hi2) as (n0 & Hrt & Hroutes & Hsome); [done|].
  rewrite Hrt, bind_clean. assert (0 < add_own own q 1 q) as Hoq.
  { unfold add_own. rewrite decide_True by done. pose proof (ni_own _ _ _ Hi q). lia. }
  assert (routes s src nl n0) as Hr0 by (by eapply routes_ext; [| |exact Hroutes]).
  clear Hrt Hroutes. destruct (Z.eqb_spec n0 NULL) as [Hn0|Hn0]; [subst n0|]; cbn [negb].
  - out_simp. destruct (free_pbuf_run (IP_STATS_INC Rterr s2) live1 (add_own own q 1) q) as (q3 & live3 & -> & Hi3 & Hd3 & _ & _); [by apply ninv_ips|done|].
    eexists _, live3. split_and!; [done|by eapply add_back| |].
    + split; try done. intros z Hz. cbn [pb set_pb]. rewrite Hd3. by apply put_is_Some.
    + by apply responded_noroute.
  - destruct (Hsome Hn0) as [f Hf].
    destruct (response_send s1 live1 (add_own own q 1) q c h x y type code X src n0 f Hi1 Hoq) as (s3 & live3 & H3 & Hi3 & Hl3 & Hp3); try done.
    { apply Hnew. }
    { by rewrite HXl. }
    { lia. }
    change (len c) with (8 + n) in H3. change (over s1 h _) with s2 in H3. rewrite H3, bind_clean.
    destruct (free_pbuf_run s3 live3 (add_own own q 1) q) as (q4 & live4 & -> & Hi4 & Hd4 & _ & _); [done|done|].
    eexists _, live4. split_and!; [done|by eapply add_back| |].
    + apply (same_links_trans _ s3); [|split; try done; intros z Hz; cbn [pb set_pb]; by rewrite Hd4].
      apply (same_links_trans _ s1); [by split|done].
    + apply (responded_sent _ _ _ _ _ _ _ n0 f q c (inet_chksum h (icmp_msg type code 0 X))); rewrite <- ?HX; try done.
      unfold c. f_equal. rewrite <- HXl. unfold icmp_msg. rewrite !length_app. cbn [length le16 le32]. lia.
Qed.
End Packets.
