(* ===== verification/IcmpEcho.v ===== *)
(** * Echo replies

    What the case [ICMP_ECHO] of [icmp_input] does with a request: the packet the reply is made
    in, and the bytes that are sent. *)
From S2P Require Import Prelude Def Chksum Stats Iface Ip4Addr Pbuf PbufChain PbufClient PbufData PbufClone Pcb Netif NetInv EthOut Region Acd Etharp EtharpInv EtharpTmr EtharpRes EtharpQuery EtharpOut EtharpIn EthIn Ip4Out Ip4OutInv Icmp IcmpInv.

Section Echo.
Context {M : Type} `{PM : PbufAlloc M} {E : NetEnv M} {U : IpUpper M}.
Abbreviation pst := (@pst M).
Abbreviation nst := (nst M).

(** A received packet can be sent. *)
Lemma received_sendable s live own p m b l : ninv s live own → received s p m b l → sendable s p b ((p, b) :: l).
Proof.
  intros Hi Hr. pose proof (received_contiguous _ _ _ _ _ Hr) as Hc. pose proof (received_tot _ _ _ _ _ Hr) as Htot.
  split; try apply Hr.
  - by eapply received_head.
  - pose proof (rv_packet _ _ _ _ _ Hr) as [_ Hpk]. pose proof (rv_tail _ _ _ _ _ Hr) as Ht. clear Hr Hi Hc.
    assert (∀ c l, len c = tot_len c → tot_len c = len c + lens l → Forall (λ kv, 0 < len kv.2) l → l = []) as Hnil.
    { intros c [|[q e] l'] H1 H2 Ht'; [done|]. apply Forall_cons in Ht' as [H3 H4]. cbn [lens] in H2. cbn in H3.
      assert (0 ≤ lens l') by (apply lens_nonneg; eapply Forall_impl; [exact H4|]; cbn; lia). lia. }
    split; [intros He; by eapply Hnil|]. clear Htot. induction l as [|[q c] l IH]; [done|].
    apply Forall_cons in Ht as [Hc Ht]. destruct Hpk as [H1 Hpk]. cbn [lens] in H1. split; [|by apply IH].
    intros He. by eapply Hnil.
  - apply (Forall_impl _ _ _ Hc). intros kv Hk Hn. done.
  - rewrite (rv_ref _ _ _ _ _ Hr). lia.
Qed.

(** What is left of a packet that is not freed. *)
Lemma free_other s live own p r br : ninv s live own → 0 < own p → 0 < add_own own p (-1) r → pbufs (pb s) !! r = Some br →
  ref br = 1 → ∃ q live', free_pbuf s p = Clean (set_pb s q) ∧ ninv (set_pb s q) live' (add_own own p (-1)) ∧
    data q = data (pb s) ∧ pbufs q !! r = Some br.
Proof.
  intros Hi Hp Hr Hb Href. destruct (free_pbuf_run s live own p Hi Hp) as (q & live' & H & Hi' & Hd & _ & Hsub).
  exists q, live'. split_and!; try done. pose proof (ni_pb _ _ _ Hi') as Hpb.
  pose proof (refs_nonneg (arp_table s) r) as Hrn.
  destruct (i_own _ _ _ Hpb r) as [_ [b' Hb']]; [cbn [arp_table set_pb]; lia|]. cbn [pb set_pb] in Hb'.
  destruct (Hsub _ _ Hb') as (b0 & Hb0 & Heq & Hle). rewrite Hb in Hb0. injection Hb0 as <-.
  pose proof (i_ref _ _ _ Hpb r b' Hb') as Hcount. cbn [arp_table set_pb pb] in Hcount.
  pose proof (indeg_nonneg (pbufs q) r). assert (ref b' = 1) as Hr1 by lia. rewrite Hb'. f_equal.
  transitivity (set_ref br (ref br)); [congruence|by destruct br].
Qed.

(** [r] is a packet with the ICMP message [P] and the header [H] in front, in which the reply
    can be made; it belongs to us instead of [p]. *)
Record room (s : nst) (own : Z → Z) (p : Z) (H P : list Z) (r : Z) (s' : nst) : Prop := Room {
  rm_links : same_links s s';
  rm_same : frames s' = frames s ∧ arp_table s' = arp_table s ∧ ips s' = ips s ∧ netifs s' = netifs s ∧
    etharp_cached_entry s' = etharp_cached_entry s;
  rm_packet : ∃ live' br lr own', ninv s' live' own' ∧ (∀ x, own' x = add_own (add_own own p (-1)) r 1 x) ∧
    sendable s' r br ((r, br) :: lr) ∧ foreign lr (payload br) (len br) ∧ ref br = 1 ∧ 4 ≤ len br ∧
    add_header_fits r br (Z.of_nat (length H)) false ∧ content (data (pb s')) ((r, br) :: lr) = Some <$> P ∧
    seg (data (pb s')) (payload br - Z.of_nat (length H)) (Z.of_nat (length H)) = Some <$> H }.

(** The request itself has room. *)
Lemma room_here s live own p b l H P : ninv s live own → 0 < own p → sendable s p b ((p, b) :: l) →
  foreign l (payload b) (len b) → ref b = 1 → 4 ≤ len b →
  add_header_fits p b (Z.of_nat (length H) + PBUF_LINK_HLEN) false → content (data (pb s)) ((p, b) :: l) = Some <$> P →
  seg (data (pb s)) (payload b - Z.of_nat (length H)) (Z.of_nat (length H)) = Some <$> H →
  withp s (λ q, pbuf_add_header q p (Z.of_nat (length H) + PBUF_LINK_HLEN)) =
    Clean (0, set_pb s (upd (pb s) p (grow b (Z.of_nat (length H) + PBUF_LINK_HLEN)))) ∧
  withp (set_pb s (upd (pb s) p (grow b (Z.of_nat (length H) + PBUF_LINK_HLEN))))
    (λ q, pbuf_remove_header q p (Z.of_nat (length H) + PBUF_LINK_HLEN)) = Clean (0, s) ∧
  room s own p H P p s.
Proof.
  intros Hi Hp Hs Hsep Href Hlen Hfit HP HH. set (n := Z.of_nat (length H) + PBUF_LINK_HLEN) in *.
  assert (0 < n) as Hn by (unfold n, PBUF_LINK_HLEN; lia). pose proof (sd_head _ _ _ _ Hs) as Hb.
  pose proof (i_block _ _ _ (ni_pb _ _ _ Hi) _ _ Hb) as [Hl Ht _ _ _].
  destruct (ninv_grow s live own p b n Hi Hb Hn Hfit) as (Hadd & Hi1 & _).
  pose proof Hfit as (F1 & F2 & F3 & F4).
  assert (len b ≤ tot_len b) as Hle.
  { exact (sendable_len _ _ _ _ _ _ Hi Hs). }
  split_and!.
  - by rewrite (withp_run s (λ q, pbuf_add_header q p n) _ _ Hadd).
  - set (s1 := set_pb s _) in *. assert (pbufs (pb s1) !! p = Some (grow b n)) as Hb1 by apply lookup_insert_eq.
    destruct (ninv_shrink s1 live own p _ n Hi1 Hb1) as [Hrm _].
    { cbn [grow len set_tot_len set_len set_payload]. unfold is_u16 in *. rewrite u16_id by (unfold is_u16; lia). lia. }
    rewrite (withp_run s1 (λ q, pbuf_remove_header q p n) _ _ Hrm). unfold is_u16 in *. rewrite shrink_grow by (unfold is_u16; lia).
    unfold s1, upd, set_pbufs. cbn [pb set_pb pbufs pmem data pbuf_free_ooseq_pending]. rewrite insert_insert_eq, (insert_id _ _ _ Hb).
    by destruct s as [[]].
  - assert (add_header_fits p b (Z.of_nat (length H)) false) as Hfit'.
    { unfold n, PBUF_LINK_HLEN in *. split_and!; [lia|lia| |done]. intros Hc. specialize (F3 Hc). lia. }
    split; [done|done|]. exists live, b, l, own. split; [done|]. split_and!; try done.
    intros x. unfold add_own. repeat case_decide; lia.
Qed.

(** There was no memory for the reply. *)
Definition given_up (s : nst) (own : Z → Z) (n : Z) (s' : nst) : Prop :=
  no_memory s PBUF_LINK n ∧ (∃ live', ninv s' live' own) ∧ same_links s s' ∧ frames s' = frames s ∧ arp_table s' = arp_table s ∧ ips s' = ips s.

(** The request is copied. *)
Lemma room_copy s live own p b l m h H P : ninv s live own → 0 < own p → received s p m b l → (8 ≤ length P)%nat →
  (20 ≤ length H ≤ 60)%nat → content (data (pb s)) ((p, b) :: l) = Some <$> P → seg (data (pb s)) h (Z.of_nat (length H)) = Some <$> H →
  ∃ o s', icmp_echo_copy s p (Z.of_nat (length H)) h = Clean (o, s') ∧
    match o with
    | Some r => room s own p H P r s'
    | None => given_up s own (Z.of_nat (length H + length P)) s'
    end.
Proof.
  intros Hi Hp Hrv HP8 HHl HP HH. set (hl := Z.of_nat (length H)) in *.
  pose proof (received_sendable _ _ _ _ _ _ _ Hi Hrv) as Hs. pose proof (sd_head _ _ _ _ Hs) as Hb.
  pose proof (i_block _ _ _ (ni_pb _ _ _ Hi) _ _ Hb) as [Hl Ht _ _ _]. unfold is_u16 in *.
  pose proof (ninv_readable _ _ _ _ _ Hi (sd_chain _ _ _ _ Hs)) as Hrd.
  assert (lens ((p, b) :: l) = Z.of_nat (length P)) as Hlens.
  { apply (beside_length s p _ P 0 0). split; [done| |done]. apply Forall_forall. intros kv _. unfold apart. lia. }
  assert (tot_len b = Z.of_nat (length P)) as Htot by (rewrite <- Hlens; apply Hs).
  unfold icmp_echo_copy. rewrite (get_run _ _ _ Hb), bind_clean. set (n := u16 (tot_len b + hl)).
  destruct (Z.ltb_spec n (tot_len b)) as [Hov|Hno].
  { exists None, s. split; [done|]. split_and!; try done; [|by exists live]. left.
    assert (n = (tot_len b + hl) mod 65536) as Hmod by done. clearbody n. unfold hl in *. width. }
  assert (n = tot_len b + hl ∧ is_u16 n) as [Hn Hnu].
  { assert (n = (tot_len b + hl) mod 65536) as Hmod by done. clearbody n. unfold is_u16. width. }
  clearbody n. destruct (ram_new_run s live own PBUF_LINK n Hi) as (r & s1 & Ha & Hcase); [done|done|].
  rewrite Ha, bind_clean. destruct Hcase as [(-> & Hi1 & Hnm & m1 & ->)|Hnew].
  { change (NULL =? NULL) with true. cbn iota. eexists None, _. split; [done|]. split_and!; try done; [|by exists live].
    by replace (Z.of_nat (length H + length P)) with n by (unfold hl in *; lia). }
  rewrite (proj2 (Z.eqb_neq r NULL)) by apply Hnew. destruct (rn_inv _ _ _ _ _ _ _ Hnew) as [live1 Hi1].
  pose proof (rn_get _ _ _ _ _ _ _ Hnew) as Hr. set (c := ram_pbuf r PBUF_LINK n) in *.
  rewrite (get_run _ _ _ Hr), bind_clean. change (len c) with n. rewrite (proj2 (Z.ltb_ge n _)) by (unfold SIZEOF_ICMP_HDR; lia).
  destruct (rn_state _ _ _ _ _ _ _ Hnew) as [m1 Hs1]. subst s1. set (s1 := set_pb s (upd _ _ _)) in *.
  set (a := r + 32). assert (mapped (data (pb s1)) a n) as Hm.
  { eapply mapped_sub; [apply (rn_mapped _ _ _ _ _ _ _ Hnew)|unfold a, PBUF_LINK, PBUF_LINK_HLEN; lia..]. }
  change (payload c) with (r + 16 + 16). replace (r + 16 + 16) with a by (unfold a; lia).
  unfold rd at 1. rewrite (load_val _ (data (pb s1)) h H) by (rewrite Z2Nat.id by lia; exact (eq_sym HH)). rewrite bind_clean.
  assert (Forall is_u8 H) as HHB by exact (seg_bytes _ _ _ _ (mo_bytes _ (ni_mem _ _ _ Hi)) HH).
  rewrite wr_run by (eapply mapped_sub; [exact Hm|lia..]). rewrite bind_clean. fold (over s1 a H). set (s2 := over s1 a H).
  assert (ninv s2 live1 (add_own own r 1)) as Hi2 by (apply ninv_over; [done|done|eapply mapped_sub; [exact Hm|lia..]]).
  assert (len b ≤ tot_len b) as Hbt by exact (sendable_len _ _ _ _ _ _ Hi Hs).
  set (ct := shrink_front c hl). assert (len ct = tot_len b ∧ tot_len ct = tot_len b ∧ payload ct = a + hl) as (Hctl & Hctt & Hctp).
  { unfold ct. cbn [shrink_front len tot_len payload set_tot_len set_len set_payload c ram_pbuf]. rewrite !u16_id by (unfold is_u16 in *; lia).
    unfold a, SIZEOF_STRUCT_PBUF, PBUF_LINK, PBUF_LINK_HLEN. lia. }
  destruct (ninv_shrink s2 live1 _ r c hl Hi2 Hr) as [Hrm Hi3]; [change (len c) with n; lia|]. fold ct in Hrm, Hi3.
  set (s3 := set_pb s2 (upd (pb s2) r ct)) in *.
  rewrite (withp_run s2 (λ q, pbuf_remove_header q r hl) _ _ Hrm), bind_clean. change (negb (0 =? 0)) with false. cbn iota.
  change (set_pb s2 _) with s3. assert (pbufs (pb s3) !! r = Some ct) as Hct by apply lookup_insert_eq.
  assert (r ∉ ((p, b) :: l).*1) as Hnin.
  { intros Hin. apply list_elem_of_fmap in Hin as ([x y] & -> & Hin). destruct (chained_elem _ _ _ _ _ (sd_chain _ _ _ _ Hs) Hin) as [_ Hx].
    pose proof (rn_new _ _ _ _ _ _ _ Hnew) as Hx0. cbn in Hx0. congruence. }
  assert (chained (pbufs (pb s3)) p ((p, b) :: l)) as Hc3 by (do 2 (apply chained_insert; [done|]); apply Hs).
  assert (foreign ((p, b) :: l) a n) as Hfo.
  { apply (rn_foreign _ _ _ _ _ _ _ Hnew p); [apply Hs..| |]; unfold a, PBUF_LINK, PBUF_LINK_HLEN; lia. }
  assert (content (data (pb s3)) ((p, b) :: l) = Some <$> P) as HP3.
  { rewrite <- HP. apply content_frame. apply (Forall_impl _ _ _ Hfo). intros kv Hap. apply put_seg_apart. unfold apart in *. lia. }
  destruct (pbuf_copy_run (pb s3) r ct p ((p, b) :: l)) as (d' & Hcopy & Hd1 & Hd2 & _); rewrite ?Hctl, ?Hctt, ?Hctp; try done; try apply Hs; try lia.
  { by eapply ninv_readable. }
  { apply Hnew. }
  { eapply foreign_sub; [exact Hfo|lia..]. }
  { intros x Hx. apply put_is_Some, Hm. lia. }
  rewrite (withp_run s3 (λ q, pbuf_copy q r p) _ _ Hcopy), bind_clean. change (negb (ERR_OK =? ERR_OK)) with false. cbn iota.
  rewrite Hctl, Hctp in Hd1, Hd2. rewrite HP3 in Hd1. pose proof (put_same_outside _ _ _ _ _ Hd2 (eq_sym Hd1) Htot) as ->.
  fold (over s3 (a + hl) P). set (s4 := over s3 (a + hl) P).
  assert (ninv s4 live1 (add_own own r 1)) as Hi4.
  { apply ninv_over; [done|apply (content_bytes _ _ _ (mo_bytes _ (ni_mem _ _ _ Hi)) HP)|]. intros x Hx. apply put_is_Some, Hm. lia. }
  assert (r ≠ p) as Hrp by (intros ->; apply Hnin; by left).
  pose proof (ni_own _ _ _ Hi r) as Hor.
  destruct (free_other s4 live1 (add_own own r 1) p r ct Hi4) as (q & live2 & -> & Hi5 & Hd5 & Hq); [..|done|done|].
  { unfold add_own. by rewrite decide_False. }
  { unfold add_own. rewrite decide_False, decide_True by done. lia. }
  rewrite bind_clean. exists (Some r), (set_pb s4 q). split; [done|].
  split; [|done|].
  { split; try done. intros x Hx. cbn [pb set_pb]. rewrite Hd5. by do 2 apply put_is_Some. }
  exists live2, ct, [], (add_own (add_own own r 1) p (-1)). split; [done|]. split_and!.
  - intros x. unfold add_own. repeat case_decide; lia.
  - apply single_sendable; [apply Hnew|done|done|congruence|done|done].
  - constructor.
  - done.
  - lia.
  - fold hl. unfold is_u16 in Hnu. split_and!; [lia|lia| |by intros []]. intros _. rewrite Hctp. unfold a, SIZEOF_STRUCT_PBUF. lia.
  - cbn [pb set_pb]. rewrite content_cons, Hd5, Hctl, Hctp, Htot. cbn [content]. rewrite app_nil_r. by apply put_seg.
  - cbn [pb set_pb]. rewrite Hd5, Hctp. fold hl. replace (a + hl - hl) with a by lia. cbn [s4 over pb set_pb data set_data].
    rewrite put_seg_apart by (unfold apart; lia). by apply put_seg.
Qed.

(** ** The reply *)

(** The header [H] of the request, at [a], as it is sent back. *)
Definition echo_hdr (a : Z) (H : list Z) (src dst : Z) : list Z :=
  let H1 := splice 10 (le16 0) (splice 8 [u8 ICMP_TTL] (splice 16 (le32 dst) (splice 12 (le32 src) H))) in
  splice 10 (le16 (inet_chksum a H1)) H1.

(** The message of the reply to [P]. *)
Definition echo_msg (P : list Z) : list Z :=
  splice 2 (le16 (icmp_adjust (of_le (take 2 (drop 2 P))))) (splice 0 [ICMP_ER] P).

Lemma echo_hdr_length a H src dst : (20 ≤ length H)%nat → length (echo_hdr a H src dst) = length H.
Proof. intros HH. unfold echo_hdr. splice_len. Qed.

Lemma echo_hdr_src a H src dst : (20 ≤ length H)%nat → take 4 (drop 12 (echo_hdr a H src dst)) = le32 src.
Proof.
  intros HH. unfold echo_hdr. do 4 (rewrite splice_other; cbn [length le16 le32]; [|splice_len|lia]).
  apply splice_same; cbn [length le32]; lia.
Qed.

Lemma echo_hdr_dest a H src dst : (20 ≤ length H)%nat → take 4 (drop 16 (echo_hdr a H src dst)) = le32 dst.
Proof.
  intros HH. unfold echo_hdr. do 3 (rewrite splice_other; cbn [length le16 le32]; [|splice_len|lia]).
  apply splice_same; cbn [length le32]; [splice_len|done].
Qed.

Lemma echo_hdr_bytes a H src dst : Forall is_u8 H → Forall is_u8 (echo_hdr a H src dst).
Proof.
  intros HH. unfold echo_hdr. repeat (apply splice_bytes; [first [apply le16_bytes|apply le32_bytes|by repeat constructor; apply u8_range]|]). done.
Qed.

Lemma echo_msg_length P : (4 ≤ length P)%nat → length (echo_msg P) = length P.
Proof. intros HP. unfold echo_msg. splice_len. Qed.

Lemma echo_msg_bytes P : Forall is_u8 P → Forall is_u8 (echo_msg P).
Proof. intros HP. unfold echo_msg. apply splice_bytes; [apply le16_bytes|]. apply splice_bytes; [by repeat constructor|done]. Qed.

Lemma echo_msg_app P R : (4 ≤ length P)%nat → echo_msg (P ++ R) = echo_msg P ++ R.
Proof.
  intros HP. unfold echo_msg. rewrite drop_app_le, take_app_le by (rewrite ?length_drop; lia).
  rewrite !splice_app_l; cbn [length le16]; splice_len. done.
Qed.

(** Stores in the header and in the message behind it. *)
Lemma wr_hdr (s : nst) h H P a l k n : a = h + Z.of_nat k → (k + length l ≤ length H)%nat → n = Z.of_nat (length H + length P) →
  mapped (data (pb s)) h n → wr (over s h (H ++ P)) a l = Clean (over s h (splice k l H ++ P)).
Proof.
  intros Ha Hk -> Hm. rewrite (wr_region s h _ a l k), splice_app_l; rewrite ?length_app; try done; lia.
Qed.

Lemma wr_msg (s : nst) h H P a l k n : a = h + Z.of_nat (length H) + Z.of_nat k → (k + length l ≤ length P)%nat →
  n = Z.of_nat (length H + length P) → mapped (data (pb s)) h n →
  wr (over s h (H ++ P)) a l = Clean (over s h (H ++ splice k l P)).
Proof.
  intros Ha Hk -> Hm. rewrite (wr_region s h _ a l (length H + k)), splice_app_r; rewrite ?length_app; try done; try lia.
  do 4 f_equal. lia.
Qed.

(** The stores of [icmp_echo_reply]. *)
Lemma echo_stores (s : nst) h H P src n : (20 ≤ length H)%nat → (4 ≤ length P)%nat → n = Z.of_nat (length H + length P) →
  mapped (data (pb s)) h n → let hl := Z.of_nat (length H) in let dst := current_iphdr_src (ip_data (ips s)) in
  ∀ B (k : nst → out B), (s ← wr (over s h (H ++ P)) (h + 12) (le32 src);
    s ← wr s (h + 16) (le32 (current_iphdr_src (ip_data (ips s))));
    s ← wr s (h + hl) [ICMP_ER];
    c ← rd16 s (h + hl + 2);
    s ← wr s (h + hl + 2) (le16 (icmp_adjust c));
    s ← wr s (h + 8) [u8 ICMP_TTL];
    s ← wr s (h + 10) (le16 0);
    hdr ← rd s h hl;
    s ← wr s (h + 10) (le16 (inet_chksum h hdr)); k s) = k (over s h (echo_hdr h H src dst ++ echo_msg P)).
Proof.
  intros HH HP Hn Hm hl dst B k.
  rewrite (wr_hdr _ _ _ _ _ _ 12 n), bind_clean by (done || (cbn [length le32]; lia)).
  change (current_iphdr_src _) with dst. set (H1 := splice 12 _ H). assert (length H1 = length H) as L1 by (apply splice_length; cbn [length le32]; lia).
  rewrite (wr_hdr _ _ _ _ _ _ 16 n), bind_clean by (rewrite ?L1; done || (cbn [length le32]; lia)).
  set (H2 := splice 16 _ H1). assert (length H2 = length H) as L2 by (rewrite <- L1; apply splice_length; cbn [length le32]; lia).
  rewrite (wr_msg _ _ _ _ _ _ 0 n), bind_clean by (rewrite ?L2; done || (unfold hl; cbn [length le32]; lia)).
  set (P1 := splice 0 _ P). assert (length P1 = length P) as L3 by (apply splice_length; cbn [length le32]; lia).
  unfold rd16. rewrite (rd_region _ _ _ _ 2 (length H2 + 2)) by (rewrite ?length_app, ?L2, ?L3; unfold hl; lia). rewrite bind_clean.
  rewrite drop_app_ge by lia. replace (length H2 + 2 - length H2)%nat with 2%nat by lia.
  replace (drop 2 P1) with (drop 2 P) by (unfold P1, splice; cbn [take app length Nat.add]; change 2%nat with (1 + 1)%nat at 1; rewrite <- drop_drop; done).
  rewrite bind_ret_l. change (Z.to_nat 2) with 2%nat.
  rewrite (wr_msg _ _ _ _ _ _ 2 n), bind_clean by (rewrite ?L2, ?L3; done || (unfold hl; cbn [length le16]; lia)).
  change (splice 2 _ P1) with (echo_msg P). assert (length (echo_msg P) = length P) as L4.
  { rewrite <- L3. apply splice_length. cbn [length le16]. lia. }
  rewrite (wr_hdr _ _ _ _ _ _ 8 n), bind_clean by (rewrite ?L2, ?L4; done || (cbn [length]; lia)).
  set (H3 := splice 8 _ H2). assert (length H3 = length H) as L5 by (rewrite <- L2; apply splice_length; cbn [length]; lia).
  rewrite (wr_hdr _ _ _ _ _ _ 10 n), bind_clean by (rewrite ?L5, ?L4; done || (cbn [length le16]; lia)).
  set (H4 := splice 10 _ H3). assert (length H4 = length H) as L6 by (rewrite <- L5; apply splice_length; cbn [length le16]; lia).
  rewrite (rd_region _ _ _ _ hl 0) by (rewrite ?length_app, ?L6, ?L4; unfold hl; lia). rewrite bind_clean, drop_0, take_app_length' by (unfold hl; lia).
  rewrite (wr_hdr _ _ _ _ _ _ 10 n), bind_clean by (rewrite ?L6, ?L4; done || (cbn [length le16]; lia)). done.
Qed.
Context `{HF : !FragOk}.

Lemma echo_reply_run s live own p b l H P src n f : ninv s live own → 0 < own p → sendable s p b ((p, b) :: l) →
  foreign l (payload b) (len b) → ref b = 1 → 4 ≤ len b → (20 ≤ length H ≤ 60)%nat → let hl := Z.of_nat (length H) in
  add_header_fits p b hl false → content (data (pb s)) ((p, b) :: l) = Some <$> P →
  seg (data (pb s)) (payload b - hl) hl = Some <$> H → netifs s !! n = Some f → is_u32 src →
  let dst := current_iphdr_src (ip_data (ips s)) in is_u32 dst →
  ∃ s' live', icmp_echo_reply s p src hl n = Clean s' ∧ ninv s' live' own ∧ same_links s s' ∧
    (fits_mtu f (grow b hl) → packet_sent s n f dst src (echo_hdr (payload b - hl) H src dst ++ echo_msg P) s').
Proof.
  intros Hi Hp Hs Hsep Href Hlen HHl hl Hfit HP HH Hf Hsrc dst Hdst. pose proof (sd_head _ _ _ _ Hs) as Hb.
  pose proof (i_block _ _ _ (ni_pb _ _ _ Hi) _ _ Hb) as [Hl Ht _ _ _]. unfold is_u16 in *.
  pose proof (sendable_len _ _ _ _ _ _ Hi Hs) as Hle. pose proof Hfit as (_ & F2 & _ & _).
  assert (0 < hl) as Hhl by (unfold hl; lia).
  destruct (ninv_grow s live own p b hl Hi Hb Hhl Hfit) as (Hadd & Hi1 & _ & Hm). pose proof (sendable_grow _ _ _ _ _ _ hl Hi Hs Hhl Hfit) as Hs1.
  set (s1 := set_pb s (upd (pb s) p (grow b hl))) in *. set (h := payload b - hl) in *.
  unfold icmp_echo_reply. rewrite (get_run _ _ _ Hb), bind_clean.
  rewrite (withp_run s (λ q, pbuf_add_header q p hl) _ _ Hadd), bind_clean. change (negb (0 =? 0)) with false. cbn iota.
  change (set_pb s _) with s1. rewrite (get_run _ _ _ (sd_head _ _ _ _ Hs1)), bind_clean. change (payload (grow b hl)) with h.
  set (P1 := take (Z.to_nat (len b)) P). set (L := H ++ P1).
  assert (Some <$> L = seg (data (pb s1)) h (hl + len b)) as HL.
  { unfold L, P1. rewrite seg_app by lia. rewrite fmap_app. f_equal; [exact (eq_sym HH)|].
    replace (h + hl) with (payload b + 0) by (unfold h; lia). exact (content_field (data (pb s)) p b l P 0 (len b) HP ltac:(done) ltac:(lia) ltac:(lia)). }
  assert (length L = Z.to_nat (hl + len b)) as HLl by (apply (f_equal length) in HL; by rewrite length_fmap, seg_length in HL).
  assert (s1 = over s1 h L) as Hover.
  { unfold over. rewrite put_self by (rewrite HLl, Z2Nat.id by lia; exact HL). done. }
  assert (length P1 = Z.to_nat (len b)) as HP1 by (unfold L in HLl; rewrite length_app in HLl; unfold hl in *; lia).
  replace (payload b) with (h + hl) by (unfold h; lia). pose proof (echo_stores s1 h H P1 src (hl + len b)) as Hst.
  fold L in Hst. rewrite <- Hover in Hst. rewrite Hst by (done || (rewrite ?HP1; unfold hl; lia)). clear Hst.
  change (current_iphdr_src (ip_data (ips s1))) with dst. set (L' := echo_hdr h H src dst ++ echo_msg P1).
  assert (length L' = Z.to_nat (hl + len b)) as HL'l.
  { unfold L'. rewrite length_app, echo_hdr_length, echo_msg_length, HP1 by lia. unfold hl. lia. }
  assert (Forall is_u8 L) as HLB by exact (seg_bytes _ _ _ _ (mo_bytes _ (ni_mem _ _ _ Hi1)) (eq_sym HL)).
  apply Forall_app in HLB as [HHB HPB].
  set (s2 := ICMP_STATS_INC Xmit (over s1 h L')). assert (ninv s2 live own) as Hi2.
  { apply ninv_ips, ninv_over; [done| |rewrite HL'l, Z2Nat.id by lia; exact Hm].
    apply Forall_app_2; [by apply echo_hdr_bytes|by apply echo_msg_bytes]. }
  assert (∀ k v, (k + 4 ≤ length H)%nat → take 4 (drop k (echo_hdr h H src dst)) = le32 v → is_u32 v →
    rd32 s2 (h + Z.of_nat k) = Clean v) as Hfield.
  { intros k v Hk Hv Hu. unfold rd32. change (rd s2) with (rd (over s1 h L')). rewrite (rd_region s1 h L' _ 4 k) by lia.
    unfold L'. rewrite drop_app_le, take_app_le by (rewrite ?length_drop, echo_hdr_length; lia). change (Z.to_nat 4) with 4%nat.
    rewrite Hv, bind_clean. by rewrite of_le_le32. }
  assert (len (grow b hl) = hl + len b) as Hlg by (cbn; rewrite u16_id by (unfold is_u16; lia); lia).
  assert (sendable s2 p (grow b hl) ((p, grow b hl) :: l)) as Hs2 by (by apply sendable_ips, sendable_over).
  assert (content (data (pb s2)) ((p, grow b hl) :: l) = Some <$> (echo_hdr h H src dst ++ echo_msg P)) as Hcont.
  { change (data (pb s2)) with (put (data (pb s)) h L'). change h with (payload (grow b hl)) at 1. rewrite over_content; [|lia|].
    - rewrite content_cons in HP. assert (content (data (pb s)) l = Some <$> drop (Z.to_nat (len b)) P) as ->.
      { rewrite fmap_drop, <- HP, drop_app_length' by (rewrite seg_length; lia). done. }
      rewrite <- fmap_app. unfold L'. rewrite <- app_assoc, <- echo_msg_app by lia. unfold P1. by rewrite take_drop.
    - pose proof (sendable_foreign _ _ _ _ _ _ hl Hi Hs Hfit) as Hfo. apply Forall_cons in Hfo as [_ Hfo].
      unfold foreign in *. rewrite Forall_forall in Hsep, Hfo |- *. intros kv Hkv. specialize (Hsep kv Hkv). specialize (Hfo kv Hkv).
      change (payload (grow b hl)) with h. rewrite Hlg. unfold apart, h in *. lia. }
  destruct (output_hdrincl_run s2 live own p (grow b hl) _ (Some src) dst ICMP_TTL 0 IP_PROTO_ICMP n f Hi2 Hp Hs2) as (r & s' & live' & H1 & Hi' & Hl' & Hr);
    try done; try lia.
  { apply (Hfield 16%nat); [lia|apply echo_hdr_dest; lia|done]. }
  rewrite H1, bind_clean. exists s', live'. split_and!; [done|done| |].
  - apply (same_links_trans _ s2); [|exact Hl']. apply (same_links_trans _ (over s1 h L')); [|by split].
    apply (same_links_trans _ s1); [by split|apply over_links].
  - intros Hmtu. destruct (Hr Hmtu) as (osrc & Hosrc & Hrt). change (payload (grow b hl) + 12) with (h + Z.of_nat 12) in Hosrc.
    rewrite (Hfield 12%nat src) in Hosrc by (done || (try apply echo_hdr_src); lia). injection Hosrc as <-.
    exists (IP_STATS_INC Xmit s2), p, (grow b hl), ((p, grow b hl) :: l), r, s'. split_and!; try done. by apply sendable_ips.
Qed.
(** ** The packet for the reply *)

Lemma echo_room_run s live own p b l m H P : ninv s live own → 0 < own p → received s p m b l → 4 ≤ len b → (8 ≤ length P)%nat →
  (20 ≤ length H ≤ 60)%nat → content (data (pb s)) ((p, b) :: l) = Some <$> P → let hl := Z.of_nat (length H) in
  seg (data (pb s)) (payload b - hl) hl = Some <$> H →
  ∃ o s', icmp_echo_room s p hl (payload b - hl) = Clean (o, s') ∧
    match o with Some r => room s own p H P r s' | None => given_up s own (Z.of_nat (length H + length P)) s' end.
Proof.
  intros Hi Hp Hrv Hlen HP8 HHl HP hl HH. pose proof (received_sendable _ _ _ _ _ _ _ Hi Hrv) as Hs. unfold icmp_echo_room.
  assert (Decision (add_header_fits p b (hl + PBUF_LINK_HLEN) false)) as Hdec by (unfold add_header_fits; apply _).
  destruct (decide (add_header_fits p b (hl + PBUF_LINK_HLEN) false)) as [Hfit|Hno].
  - assert (foreign l (payload b) (len b)) as Hsep.
    { pose proof (received_contiguous _ _ _ _ _ Hrv) as Hc.
      pose proof (chain_separate _ _ _ _ _ Hi (rv_chain _ _ _ _ _ Hrv) Hc) as [Hsep _].
      apply (Forall_impl _ _ _ Hsep). intros kv. unfold apart. lia. }
    destruct (room_here s live own p b l H P Hi Hp Hs Hsep (rv_ref _ _ _ _ _ Hrv) Hlen Hfit HP HH) as (H1 & H2 & H3).
    fold hl in H1, H2. rewrite H1, bind_clean. change (negb (0 =? 0)) with false. cbn iota. rewrite H2, bind_clean.
    change (negb (0 =? 0)) with false. cbn iota. by exists (Some p), s.
  - destruct (add_header_run (pb s) live _ p b (hl + PBUF_LINK_HLEN) false (ni_pb _ _ _ Hi) (sd_head _ _ _ _ Hs)) as [_ Hr];
      [unfold PBUF_LINK_HLEN; lia|].
    rewrite (withp_run s (λ q, pbuf_add_header q p (hl + PBUF_LINK_HLEN)) _ _ (Hr Hno)), bind_clean. change (negb (1 =? 0)) with true. cbn iota.
    replace (set_pb s (pb s)) with s by (by destruct s). by eapply room_copy.
Qed.

End Echo.
