(* ===== verification/IcmpIn.v ===== *)
(** * Receiving ICMP messages

    [icmp_input] consumes its packet, answers echo requests for our address whose checksum is
    right, and does nothing else. *)
From S2P Require Import Prelude Def Chksum Stats Iface Ip4Addr Pbuf PbufChain PbufClient PbufData PbufClone Pcb Netif NetInv EthOut Region Acd Etharp EtharpInv EtharpTmr EtharpRes EtharpQuery EtharpOut EtharpIn EthIn Ip4Out Ip4OutInv Icmp IcmpInv IcmpEcho.

(** ** Checksums *)

(** The new type is made up for in the checksum. *)
Lemma icmp_adjust_oc c : is_u16 c → 0 < icmp_adjust c ≤ 65535 ∧ icmp_adjust c mod 65535 = (c + 8) mod 65535.
Proof.
  unfold is_u16, icmp_adjust. intros Hc. change (lwip_htons (0xffff - Z.shiftl ICMP_ECHO 8)) with 65527.
  change (lwip_htons (u16 (Z.shiftl ICMP_ECHO 8))) with 8. change (lwip_htons (Z.shiftl ICMP_ECHO 8)) with 8.
  destruct (Z.ltb_spec 65527 c).
  - assert (u16 (c + 8 + 1) = c + 8 - 65535) as -> by (unfold u16; change (2 ^ 16) with 65536; width). width.
  - rewrite u16_id by (unfold is_u16; lia). lia.
Qed.

Lemma echo_msg_verifies P : bytes P → hd 0 P = ICMP_ECHO → (4 ≤ length P)%nat → verifies P → verifies (echo_msg P).
Proof.
  intros HB Hty Hl Hv. pose proof (echo_msg_bytes P HB) as HB'. rewrite verifies_canon in * by done.
  do 4 (destruct P as [|? P]; [cbn in Hl; lia|]). cbn [hd] in Hty. subst z.
  change (echo_msg _) with ([ICMP_ER; z0] ++ le16 (icmp_adjust (of_le [z1; z2])) ++ P) in *.
  unfold bytes in HB. rewrite !Forall_cons in HB. destruct HB as (_ & H0 & H1 & H2 & HP). pose proof (bsum_nonneg false P HP) as Hn.
  unfold is_u8 in *. destruct (icmp_adjust_oc (of_le [z1; z2])) as [Ha Hm].
  { unfold is_u16, of_le. cbn [foldr]. lia. }
  set (c := icmp_adjust (of_le [z1; z2])) in *. clearbody c. change (of_le [z1; z2]) with (z1 + 256 * (z2 + 256 * 0)) in Hm.
  cbn [bsum app le16 negb] in *. change ICMP_ECHO with 8 in *. change ICMP_ER with 0 in *.
  assert (c / 256 mod 256 = c / 256) as -> by width.
  rewrite <- Hv. apply canon_proper; [width|lia|]. split; width.
Qed.

(** A field that has been filled in with [inet_chksum]. *)
Lemma filled_verifies a L : bytes L → (12 ≤ length L)%nat → Z.of_nat (length L) ≤ 0xffff →
  verifies (splice 10 (le16 (inet_chksum a (splice 10 (le16 0) L))) L).
Proof.
  intros HB Hl Hle. pose proof (inet_chksum_u16 a (splice 10 (le16 0) L)) as Hc. set (c := inet_chksum a _) in *. unfold is_u16 in Hc.
  unfold splice. replace (le16 c) with [c mod 256; c / 256] by (unfold le16; do 3 f_equal; width). cbn [length Nat.add].
  assert (length (take 10 L) = 10%nat) as H10 by (rewrite length_take; lia).
  apply (chksum_filled a (take 10 L) (drop 12 L)); [by apply Forall_take|by apply Forall_drop|by rewrite H10|].
  rewrite H10, length_drop. lia.
Qed.

Lemma splice_again k l l' L : (k + length l ≤ length L)%nat → length l' = length l → splice k l' (splice k l L) = splice k l' L.
Proof.
  intros Hk Hl. unfold splice at 1 3. rewrite Hl. f_equal; [|f_equal].
  - unfold splice. rewrite take_app_le, take_take by (rewrite length_take; lia). f_equal. lia.
  - unfold splice. rewrite drop_app_ge, drop_app_ge by (rewrite ?length_take; lia). rewrite length_take.
    replace (k + length l - k `min` length L - length l)%nat with 0%nat by lia. done.
Qed.

Lemma echo_hdr_verifies a H src dst : bytes H → (20 ≤ length H ≤ 60)%nat → verifies (echo_hdr a H src dst).
Proof.
  intros HB HH. unfold echo_hdr. set (L := splice 8 _ _). assert (length L = length H) as HL by (unfold L; splice_len).
  rewrite splice_again by (cbn [length le16]; lia || done). apply filled_verifies; [|lia|lia].
  unfold L. repeat (apply splice_bytes; [first [apply le32_bytes|by repeat constructor; apply u8_range]|]). done.
Qed.

Section IcmpIn.
Context {M : Type} `{PM : PbufAlloc M} {E : NetEnv M} {U : IpUpper M} `{HF : !FragOk}.
Abbreviation pst := (@pst M).
Abbreviation nst := (nst M).

(** The message [P] asks for a reply; the packet came to the address of [ip_data], on the interface [fc]. *)
Definition answerable (s : nst) (fc : netif) (P : list Z) : Prop :=
  hd 0 P = ICMP_ECHO ∧ ip4_addr_ismulticast (current_iphdr_dest (ip_data (ips s))) = false ∧
  ip4_addr_isbroadcast (current_iphdr_dest (ip_data (ips s))) fc = false ∧ (8 ≤ length P)%nat ∧ verifies P.

(** What [icmp_input] does with the message [P], the first [k] bytes of which are in the first buffer, behind the
    header [H], from interface [n]. *)
Inductive icmp_effect (s : nst) (n : Z) (f fc : netif) (k : Z) (H P : list Z) (s' : nst) : Prop :=
| icmp_quiet : k < 4 ∨ ¬ answerable s fc P → frames s' = frames s → arp_table s' = arp_table s → icmp_effect s n f fc k H P s'
| icmp_nomem : answerable s fc P → no_memory s PBUF_LINK (Z.of_nat (length H + length P)) → frames s' = frames s →
    arp_table s' = arp_table s → icmp_effect s n f fc k H P s'
| icmp_replied a : answerable s fc P →
    let src := current_iphdr_dest (ip_data (ips s)) in let dst := current_iphdr_src (ip_data (ips s)) in
    (nf_mtu f = 0 ∨ Z.of_nat (length H + length P) ≤ nf_mtu f →
     packet_sent s n f dst src (echo_hdr a H src dst ++ echo_msg P) s') → icmp_effect s n f fc k H P s'.

Lemma free_stat s live own p (g : nst → nst) : ninv s live own → 0 < own p → (∀ t, ∃ v, g t = set_ips t v) →
  ∃ s' live', (s ← free_pbuf s p; mret (g s)) = Clean s' ∧ ninv s' live' (add_own own p (-1)) ∧ same_links s s' ∧
    frames s' = frames s ∧ arp_table s' = arp_table s.
Proof.
  intros Hi Hp Hg. destruct (free_pbuf_run s live own p Hi Hp) as (q & live' & -> & Hi' & Hd & _). rewrite bind_clean.
  destruct (Hg (set_pb s q)) as [v Hv]. eexists _, live'. rewrite Hv. split_and!; [done|by apply ninv_ips| |done|done].
  split; try done. cbn. by rewrite Hd.
Qed.

Lemma icmp_echo_run s live own p b l m H P n f fc : ninv s live own → 0 < own p → received s p m b l → 4 ≤ len b →
  (20 ≤ length H ≤ 60)%nat → content (data (pb s)) ((p, b) :: l) = Some <$> P → let hl := Z.of_nat (length H) in
  seg (data (pb s)) (payload b - hl) hl = Some <$> H → netifs s !! n = Some f →
  netifs s !! current_netif (ip_data (ips s)) = Some fc → is_u32 (current_iphdr_dest (ip_data (ips s))) →
  is_u32 (current_iphdr_src (ip_data (ips s))) → hd 0 P = ICMP_ECHO →
  ∃ s' live', icmp_echo s p hl (payload b - hl) n = Clean s' ∧ ninv s' live' (add_own own p (-1)) ∧ same_links s s' ∧
    icmp_effect s n f fc (len b) H P s'.
Proof.
  intros Hi Hp Hrv Hlen HHl HP hl HH Hf Hfc Hdu Hsu Hty. pose proof (received_sendable _ _ _ _ _ _ _ Hi Hrv) as Hs.
  assert (∀ g : nst → nst, (∀ t, ∃ v, g t = set_ips t v) → ¬ answerable s fc P → ∃ s' live', (s ← free_pbuf s p; mret (g s)) = Clean s' ∧
    ninv s' live' (add_own own p (-1)) ∧ same_links s s' ∧ icmp_effect s n f fc (len b) H P s') as Hquiet.
  { intros g Hg Hno. destruct (free_stat s live own p g Hi Hp Hg) as (s' & live' & H1 & H2 & H3 & H4 & H5).
    exists s', live'. split_and!; [done..|]. apply icmp_quiet; [by right|done|done]. }
  unfold icmp_echo. destruct (ip4_addr_ismulticast _) eqn:Hmc.
  { apply (Hquiet (ICMP_STATS_INC Err)); [by intros t; eexists|]. intros (_ & ? & _). congruence. }
  unfold get_netif. rewrite Hfc. out_simp. destruct (ip4_addr_isbroadcast _ fc) eqn:Hbc.
  { apply (Hquiet (ICMP_STATS_INC Err)); [by intros t; eexists|]. intros (_ & _ & ? & _). congruence. }
  rewrite (get_run _ _ _ (sd_head _ _ _ _ Hs)), bind_clean.
  pose proof (ninv_readable _ _ _ _ _ Hi (sd_chain _ _ _ _ Hs)) as Hrd.
  assert (lens ((p, b) :: l) = Z.of_nat (length P)) as Hlens.
  { apply (beside_length s p _ P 0 0). split; [done| |done]. apply Forall_forall. intros kv _. unfold apart. lia. }
  assert (tot_len b = Z.of_nat (length P)) as Htot by (rewrite <- Hlens; apply Hs).
  destruct (Z.ltb_spec (tot_len b) SIZEOF_ICMP_HDR) as [Hshort|Hlong]; unfold SIZEOF_ICMP_HDR in *.
  { apply (Hquiet (ICMP_STATS_INC Lenerr)); [by intros t; eexists|]. intros (_ & _ & _ & ? & _). lia. }
  destruct (segments_run (chain_fuel (pb s)) s p _ Hrd (mo_bytes _ (ni_mem _ _ _ Hi)) (readable_fuel _ _ _ Hrd)) as (segs & Hsg & Hok & Hcd).
  rewrite Hsg, bind_clean. rewrite HP in Hcd. assert (chain_data segs = P) as HcP by (eapply list_fmap_eq_inj; [|exact Hcd]; by intros ? ? [=]).
  destruct (Z.eqb_spec (inet_chksum_pbuf segs) 0) as [Hck|Hck]; cbn [negb].
  2:{ apply (Hquiet (ICMP_STATS_INC Chkerr)); [by intros t; eexists|]. intros (_ & _ & _ & _ & Hv). apply Hck, inet_chksum_pbuf_zero; [done|]. by rewrite HcP. }
  assert (answerable s fc P) as Hans.
  { split_and!; [done..|lia|]. rewrite <- HcP. by apply inet_chksum_pbuf_zero. }
  assert (8 ≤ length P)%nat as HP8 by lia.
  destruct (echo_room_run s live own p b l m H P Hi Hp Hrv Hlen HP8 HHl HP HH) as (o & s1 & Hroom & Hcase). fold hl in Hroom.
  rewrite Hroom, bind_clean. destruct o as [r|].
  - destruct Hcase as [Hl1 (Hfr & Harp & Hips & Hnet & Hca) (live1 & br & lr & own' & Hi1 & Hown & Hs1 & Hsep & Href & Hlr & Hfit & HP1 & HH1)].
    assert (0 < own' r) as Hor.
    { rewrite Hown. unfold add_own. pose proof (ni_own _ _ _ Hi r). rewrite decide_True by done. case_decide; subst; lia. }
    destruct (echo_reply_run s1 live1 own' r br lr H P (current_iphdr_dest (ip_data (ips s))) n f Hi1 Hor Hs1) as (s2 & live2 & H2 & Hi2 & Hl2 & Hsent);
      try done; rewrite ?Hnet, ?Hips; try done.
    rewrite Hips in Hsent. fold hl in H2. rewrite H2, bind_clean.
    destruct (free_pbuf_run s2 live2 own' r Hi2 Hor) as (q & live3 & -> & Hi3 & Hd3 & _).
    eexists _, live3. split_and!; [done| | |].
    + apply (ninv_own_ext _ _ _ _ Hi3). intros x. unfold add_own at 1. rewrite Hown. unfold add_own. repeat case_decide; subst; lia.
    + apply (same_links_trans _ s1); [done|]. apply (same_links_trans _ s2); [done|]. split; try done. cbn. by rewrite Hd3.
    + eapply icmp_replied; [done|]. intros Hmtu.
      assert (fits_mtu f (grow br hl)) as Hfm.
      { destruct Hmtu as [?|Hmtu]; [by left|right]. destruct (sd_packet _ _ _ _ Hs1) as [Htr _].
        pose proof (ninv_readable _ _ _ _ _ Hi1 (sd_chain _ _ _ _ Hs1)) as Hrd1.
        assert (lens ((r, br) :: lr) = Z.of_nat (length P)) as Hlens1.
        { apply (beside_length s1 r _ P 0 0). split; [done| |done]. apply Forall_forall. intros kv _. unfold apart. lia. }
        assert (tot_len br = Z.of_nat (length P)) as Htb by (rewrite <- Hlens1; exact Htr). pose proof Hfit as (_ & F2 & _).
        unfold fits_mtu. cbn [grow tot_len set_tot_len]. rewrite u16_id by (unfold is_u16, hl; lia). unfold hl. lia. }
      specialize (Hsent Hfm). destruct Hsent as (t & q1 & b1 & l1 & r1 & t1 & E1 & E2 & E3 & E4 & E5 & E6 & E7 & E8 & E9).
      exists t, q1, b1, l1, r1, t1. split_and!; try done; cbn [frames arp_table set_pb]; congruence.
  - destruct Hcase as (Hnm & (live1 & Hi1) & Hl1 & Hfr & Harp & Hips).
    destruct (free_stat s1 live1 own p (ICMP_STATS_INC Err) Hi1 Hp) as (s' & live' & H1 & H2 & H3 & H4 & H5); [by intros t; eexists|].
    exists s', live'. split_and!; [done|done|by eapply same_links_trans|]. apply icmp_nomem; [done|done|congruence|congruence].
Qed.

(** The header of the packet being processed is [H], right in front of the payload. *)
Record current_hdr (s : nst) (p : Z) (b : pbuf) (H : list Z) : Prop := CurrentHdr {
  ch_len : (20 ≤ length H ≤ 60)%nat;
  ch_hl : IPH_HL_BYTES (hd 0 H) = Z.of_nat (length H);
  ch_ptr : current_ip4_header (ip_data (ips s)) = payload b - Z.of_nat (length H);
  ch_seg : seg (data (pb s)) (payload b - Z.of_nat (length H)) (Z.of_nat (length H)) = Some <$> H;
  ch_dest : is_u32 (current_iphdr_dest (ip_data (ips s)));
  ch_src : is_u32 (current_iphdr_src (ip_data (ips s)));
  ch_tot : current_ip_header_tot_len (ip_data (ips s)) = Z.of_nat (length H);
  ch_back : add_header_fits p b (Z.of_nat (length H)) true }.

Lemma seg_rd8 (s : nst) a n L : seg (data (pb s)) a n = Some <$> L → 0 < n → rd8 s a = Clean (hd 0 L).
Proof.
  intros HL Hn. unfold rd8, rd. change (Z.to_nat 1) with 1%nat.
  rewrite (load_val 1 _ _ (take 1 L)).
  - out_simp. unfold mret, out_ret. f_equal. destruct L as [|x L]; [|change (take 1 (x :: L)) with [x]; cbn [of_le foldr hd]; lia].
    apply (f_equal length) in HL. rewrite seg_length, length_fmap in HL. cbn [length] in HL. lia.
  - rewrite fmap_take, <- HL. rewrite (seg_split _ _ n 1) by lia. by rewrite take_app_length' by (rewrite seg_length; lia).
Qed.

Lemma icmp_input_run s live own p b l m H P n f fc : ninv s live own → 0 < own p → received s p m b l → current_hdr s p b H →
  content (data (pb s)) ((p, b) :: l) = Some <$> P → netifs s !! n = Some f →
  netifs s !! current_netif (ip_data (ips s)) = Some fc →
  ∃ s' live', icmp_input s p n = Clean s' ∧ ninv s' live' (add_own own p (-1)) ∧ same_links s s' ∧
    icmp_effect s n f fc (len b) H P s'.
Proof.
  intros Hi Hp Hrv [C1 C2 C3 C4 C5 C6 _ _] HP Hf Hfc. unfold icmp_input. set (s1 := ICMP_STATS_INC Recv s).
  assert (ninv s1 live own) as Hi1 by (by apply ninv_ips). assert (received s1 p m b l) as Hrv1 by (by destruct Hrv).
  assert (∀ g : nst → nst, (∀ t, ∃ v, g t = set_ips t v) → len b < 4 ∨ ¬ answerable s fc P → ∃ s' live', (s ← free_pbuf s1 p; mret (g s)) = Clean s' ∧
    ninv s' live' (add_own own p (-1)) ∧ same_links s s' ∧ icmp_effect s n f fc (len b) H P s') as Hquiet.
  { intros g Hg Hno. destruct (free_stat s1 live own p g Hi1 Hp Hg) as (s' & live' & H1 & H2 & H3 & H4 & H5).
    exists s', live'. split_and!; [done|done|apply (same_links_trans _ s1); [by split|done]|]. by apply icmp_quiet. }
  change (current_ip4_header _) with (current_ip4_header (ip_data (ips s))). rewrite C3.
  rewrite (seg_rd8 s1 _ _ H C4), bind_clean, C2 by lia. rewrite (proj2 (Z.ltb_ge _ IP_HLEN)) by (unfold IP_HLEN; lia).
  pose proof (received_head _ _ _ _ _ Hrv) as Hb. rewrite (get_run (pb s1) _ _ Hb), bind_clean.
  destruct (Z.ltb_spec (len b) 4) as [Hshort|Hlen].
  { apply (Hquiet (ICMP_STATS_INC Lenerr)); [by intros t; eexists|by left]. }
  assert (hd 0 (take (Z.to_nat (len b)) P) = hd 0 P) as Hhd.
  { destruct P as [|x P]; [by rewrite take_nil|]. destruct (Z.to_nat (len b)) eqn:?; [lia|done]. }
  rewrite (seg_rd8 s1 _ (len b) (take (Z.to_nat (len b)) P)), bind_clean, Hhd; [|change (data (pb s1)) with (data (pb s))|lia].
  2:{ replace (payload b) with (payload b + 0) by lia. symmetry. exact (content_field (data (pb s)) p b l P 0 (len b) HP ltac:(done) ltac:(lia) ltac:(lia)). }
  assert (∀ t, ∃ v, (λ x : nst, x) t = set_ips t v) as Hid by (intros t; exists (ips t); by destruct t).
  assert (∀ s2, (∃ v, s2 = set_ips s1 v) → hd 0 P ≠ ICMP_ECHO → ∃ s' live', free_pbuf s2 p = Clean s' ∧
    ninv s' live' (add_own own p (-1)) ∧ same_links s s' ∧ icmp_effect s n f fc (len b) H P s') as Hfree.
  { intros s2 [v ->] Hne. destruct (free_pbuf_run (set_ips s1 v) live own p) as (q & live' & -> & Hi' & Hd & _); [by apply ninv_ips|done|].
    eexists _, live'. split_and!; [done|done|split; try done; cbn; by rewrite Hd|]. apply icmp_quiet; [right; by intros []|done|done]. }
  destruct (Z.eqb_spec (hd 0 P) ICMP_ER) as [Her|Her].
  { apply Hfree; [exists (ips s1); by destruct s1|]. rewrite Her. done. }
  destruct (Z.eqb_spec (hd 0 P) ICMP_ECHO) as [Hecho|Hne]; [|by apply Hfree; [eexists|]].
  destruct (icmp_echo_run s1 live own p b l m H P n f fc Hi1 Hp Hrv1) as (s' & live' & H1 & H2 & H3 & H4); try done.
  exists s', live'. split_and!; [done|done|by apply (same_links_trans _ s1); [split|]|].
  destruct H4 as [H4 H5 H6|H4 H5 H6 H7|a H4 src dst H5]; [by apply icmp_quiet|by apply icmp_nomem|by eapply icmp_replied].
Qed.
End IcmpIn.
