(* ===== verification/Received.v ===== *)
(** * Received packets

    The header at the start of a received packet, consuming a packet, and taking its header
    off and putting it back. *)
From S2P Require Import Prelude Def Chksum Stats Iface Ip4Addr Pbuf PbufChain PbufClient PbufData PbufClone Pcb Netif NetInv EthOut Region Acd Etharp EtharpInv EtharpTmr EtharpRes EtharpQuery EtharpOut EtharpIn EthIn Ip4Out Ip4OutInv Icmp IcmpInv IcmpEcho IcmpIn.

Section Received.
Context {M : Type} `{PM : PbufAlloc M} {E : NetEnv M}.
Abbreviation pst := (@pst M).
Abbreviation nst := (nst M).

(** The header [H] of the packet is at its start. *)
Record has_hdr (s : nst) (b : pbuf) (H : list Z) : Prop := HasHdr {
  hh_len : (20 ≤ length H ≤ 60)%nat;
  hh_hl : IPH_HL_BYTES (hd 0 H) = Z.of_nat (length H);
  hh_first : Z.of_nat (length H) ≤ len b;
  hh_seg : seg (data (pb s)) (payload b) (Z.of_nat (length H)) = Some <$> H }.

Record ifs_ok (s : nst) (n : Z) : Prop := IfsOk {
  if_in : is_Some (netifs s !! n);
  if_netif : is_Some (netifs s !! current_netif (ip_data (ips s)));
  if_input : is_Some (netifs s !! current_input_netif (ip_data (ips s))) }.

Definition consumes (own : Z → Z) (p : Z) (s : nst) (m : out nst) : Prop :=
  ∃ s' live', m = Clean s' ∧ ninv s' live' (add_own own p (-1)) ∧ same_links s s'.

Lemma consumes_free s live own p (g : nst → nst) : ninv s live own → 0 < own p → (∀ t, ∃ v, g t = set_ips t v) →
  consumes own p s (s ← free_pbuf s p; mret (g s)).
Proof.
  intros Hi Hp Hg. destruct (free_stat s live own p g Hi Hp Hg) as (s' & live' & H1 & H2 & H3 & _). by exists s', live'.
Qed.

Lemma consumes_from s s1 own p m : same_links s s1 → consumes own p s1 m → consumes own p s m.
Proof. intros Hl (s' & live' & H1 & H2 & H3). exists s', live'. split_and!; [done|done|by eapply same_links_trans]. Qed.

Lemma consumes_bind s own p m (g : nst → nst) : consumes own p s m → (∀ t, ∃ v, g t = set_ips t v) → consumes own p s (s ← m; mret (g s)).
Proof.
  intros (s' & live' & -> & H2 & H3) Hg. rewrite bind_clean. destruct (Hg s') as [v Hv]. exists (g s'), live'. rewrite Hv.
  split_and!; [done|by apply ninv_ips|]. by apply (same_links_trans _ s'); [|split].
Qed.

(** A field of the header. *)
Lemma hdr_rd (s : nst) b H k n : has_hdr s b H → (k + n ≤ 20)%nat →
  rd s (payload b + Z.of_nat k) (Z.of_nat n) = Clean (take n (drop k H)).
Proof.
  intros [H1 _ _ H4] Hk. unfold rd. rewrite Nat2Z.id. apply load_val. rewrite fmap_take, fmap_drop, <- H4.
  rewrite (seg_split _ _ _ (Z.of_nat k)) by lia. rewrite drop_app_length' by (rewrite seg_length; lia).
  rewrite (seg_split _ _ (Z.of_nat (length H) - Z.of_nat k) (Z.of_nat n)) by lia. rewrite take_app_length' by (rewrite seg_length; lia). done.
Qed.

Lemma hdr_bytes s live own b H : ninv s live own → has_hdr s b H → Forall is_u8 H.
Proof. intros Hi [_ _ _ H4]. exact (seg_bytes _ _ _ _ (mo_bytes _ (ni_mem _ _ _ Hi)) H4). Qed.

(** [iphdr->_proto], [iphdr->src], [iphdr->dest] and [IPH_OFFSET(iphdr)] *)
Definition h_proto (H : list Z) : Z := of_le (take 1 (drop 9 H)).
Definition h_src (H : list Z) : Z := of_le (take 4 (drop 12 H)).
Definition h_dest (H : list Z) : Z := of_le (take 4 (drop 16 H)).
Definition h_offset (H : list Z) : Z := of_le (take 2 (drop 6 H)).

Lemma hdr_proto (s : nst) b H : has_hdr s b H → rd8 s (payload b + 9) = Clean (h_proto H).
Proof. intros HH. unfold rd8. by rewrite (hdr_rd s b H 9 1 HH ltac:(lia) : rd s (payload b + 9) 1 = _). Qed.
Lemma hdr_src (s : nst) b H : has_hdr s b H → rd32 s (payload b + 12) = Clean (h_src H).
Proof. intros HH. unfold rd32. by rewrite (hdr_rd s b H 12 4 HH ltac:(lia) : rd s (payload b + 12) 4 = _). Qed.
Lemma hdr_dest (s : nst) b H : has_hdr s b H → rd32 s (payload b + 16) = Clean (h_dest H).
Proof. intros HH. unfold rd32. by rewrite (hdr_rd s b H 16 4 HH ltac:(lia) : rd s (payload b + 16) 4 = _). Qed.
Lemma hdr_offset (s : nst) b H : has_hdr s b H → rd16 s (payload b + 6) = Clean (h_offset H).
Proof. intros HH. unfold rd16. by rewrite (hdr_rd s b H 6 2 HH ltac:(lia) : rd s (payload b + 6) 2 = _). Qed.

Lemma hdr_addr_u32 s live own b H : ninv s live own → has_hdr s b H → is_u32 (h_src H) ∧ is_u32 (h_dest H).
Proof.
  intros Hi HH. pose proof (hdr_bytes _ _ _ _ _ Hi HH) as HB. destruct HH as [H1 _ _ _].
  split; (apply of_le_u32; [by apply Forall_take, Forall_drop|rewrite length_take, length_drop; lia]).
Qed.

Lemma received_le (s : nst) p m m' b l : received s p m b l → m' ≤ m → received s p m' b l.
Proof. intros [H1 H2 H3 H4 H5 H6] Hm. split; try done. intros x Hx. apply H6. lia. Qed.

(** Removing a header and putting it back. *)
Lemma grow_shrink b n : 0 ≤ n ≤ len b → len b ≤ tot_len b → tot_len b < 65536 → grow (shrink_front b n) n = b.
Proof.
  intros Hn Hl Ht. unfold grow, shrink_front, set_payload, set_len, set_tot_len. destruct b. cbn in *.
  rewrite (u16_id (len - n)), (u16_id (tot_len - n)) by (unfold is_u16; lia).
  rewrite !u16_id by (unfold is_u16; lia). f_equal; lia.
Qed.

Lemma received_facts s live own p m b l : ninv s live own → received s p m b l →
  pbufs (pb s) !! p = Some b ∧ contiguous b ∧ p + SIZEOF_STRUCT_PBUF ≤ payload b ∧ 0 ≤ len b ≤ tot_len b ∧ tot_len b < 65536.
Proof.
  intros Hi Hrv. pose proof (received_head _ _ _ _ _ Hrv) as Hb. pose proof (received_contiguous _ _ _ _ _ Hrv) as Hc.
  apply Forall_cons in Hc as [Hc _]. cbn in Hc. pose proof (i_block _ _ _ (ni_pb _ _ _ Hi) _ _ Hb) as [Hl Ht _ _ (k & z & _ & _ & _ & Hreg)].
  pose proof (sendable_len _ _ _ _ _ _ Hi (received_sendable _ _ _ _ _ _ _ Hi Hrv)). unfold is_u16 in *.
  destruct (Hreg Hc) as [Hreg1 Hreg2]. split_and!; try done; lia.
Qed.

Lemma strip_hdr s live own p b l H : ninv s live own → received s p 64 b l → has_hdr s b H → let hl := Z.of_nat (length H) in
  let s1 := set_pb s (upd (pb s) p (shrink_front b hl)) in
  withp s (λ q, pbuf_remove_header q p hl) = Clean (0, s1) ∧ ninv s1 live own ∧ received s1 p 4 (shrink_front b hl) l ∧
  withp s1 (λ q, pbuf_header_force q p hl) = Clean (0, s).
Proof.
  intros Hi Hrv [H1 H2 H3 H4] hl s1. destruct (received_facts _ _ _ _ _ _ _ Hi Hrv) as (Hb & Hc & Hpay & Hlen & Htot).
  destruct (ninv_shrink s live own p b hl Hi Hb) as [Hrm Hi1]; [unfold hl; lia|]. fold s1 in Hi1.
  split_and!; [by rewrite (withp_run s (λ q, pbuf_remove_header q p hl) _ _ Hrm)|done| |].
  - eapply received_le; [apply (received_shrink s live own p 64); [done|done|unfold hl; lia]|unfold hl; lia].
  - assert (pbufs (pb s1) !! p = Some (shrink_front b hl)) as Hb1 by apply lookup_insert_eq.
    destruct (add_header_run (pb s1) live _ p _ hl true (ni_pb _ _ _ Hi1) Hb1) as [Hadd _]; [unfold hl; lia|].
    destruct Hadd as [Hadd _].
    { unfold add_header_fits. cbn [shrink_front tot_len payload set_tot_len set_len set_payload]. rewrite u16_id by (unfold is_u16, hl; lia).
      split_and!; [unfold hl; lia|lia|lia|done]. }
    assert (pbuf_header_force (pb s1) p hl = Clean (0, upd (pb s1) p (grow (shrink_front b hl) hl))) as Hforce.
    { unfold pbuf_header_force, pbuf_header_impl. rewrite (proj2 (Z.ltb_ge hl 0)) by (unfold hl; lia). rewrite u32_id by (unfold is_u32, hl; lia). exact Hadd. }
    rewrite (withp_run s1 (λ q, pbuf_header_force q p hl) _ _ Hforce), grow_shrink by (unfold hl; lia).
    unfold s1, upd, set_pbufs. cbn [pb set_pb pbufs pmem data pbuf_free_ooseq_pending]. rewrite insert_insert_eq, (insert_id _ _ _ Hb).
    by destruct s as [[]].
Qed.
Lemma content_some s live own p l : ninv s live own → chained (pbufs (pb s)) p l → ∃ P, content (data (pb s)) l = Some <$> P.
Proof.
  intros Hi Hc. pose proof (content_mapped _ _ (rd_mapped _ _ _ (ninv_readable _ _ _ _ _ Hi Hc))) as Hm.
  induction Hm as [|o L [v ->] Hm IH]; [by exists []|]. destruct IH as [P ->]. by exists (v :: P).
Qed.
End Received.
