(* ===== verification/UdpInput.v ===== *)
(** * UDP input keeps the state well formed

    What [udp_input] does with a datagram, and that it is consumed.  The receive functions of the
    pcbs are clients; what they must do is the class [UdpClients]. *)
From S2P Require Import Prelude Def Chksum Stats Iface Ip4Addr Pbuf PbufChain PbufClient PbufData PbufClone Pcb Netif NetInv Links EthOut Region Acd Etharp EtharpInv EtharpTmr EtharpRes EtharpQuery EtharpOut EtharpIn EthIn Ip4Out Ip4OutInv Icmp Udp UdpInv UdpOps UdpIn IcmpInv IcmpEcho IcmpIn Received.

(** The checksum of a datagram over its pseudo header. *)
Definition udp_sum (src dest : Z) (P : list Z) : Z :=
  65535 - rfc1071 (pseudo_words IP_PROTO_UDP (Z.of_nat (length P)) [src; dest] ++ words_le P).

(** The fields of the header. *)
Definition uh_src (P : list Z) : Z := lwip_htons (of_le (take 2 P)).
Definition uh_dest (P : list Z) : Z := lwip_htons (of_le (take 2 (drop 2 P))).
Definition uh_chksum (P : list Z) : Z := of_le (take 2 (drop 6 P)).

(** A receiver takes the datagram: it has no checksum, or the right one. *)
Definition udp_intact (src dest : Z) (P : list Z) : Prop := uh_chksum P = 0 ∨ udp_sum src dest P = 0.
#[export] Instance udp_intact_dec src dest P : Decision (udp_intact src dest P).
Proof. unfold udp_intact. apply _. Defined.

Section Input.
Context {M : Type} `{PM : PbufAlloc M} {E : NetEnv M} {U : IpUpper M} `{HF : !FragOk}.
Abbreviation pst := (@pst M).
Abbreviation nst := (nst M).

(** A receive function takes over the datagram, without its headers. *)
Class UdpClients : Prop := udp_client_ok fn s live own arg pcb p b l addr port : fn ≠ NULL → ninv s live own → 0 < own p →
  received s p 0 b l → is_Some (upcbs (udps s) !! pcb) → is_u32 addr → is_u16 port →
  consumes own p s (udp_recv_fn fn s arg pcb p addr port).

Lemma content_tot s live own p b l P : ninv s live own → sendable s p b ((p, b) :: l) → content (data (pb s)) ((p, b) :: l) = Some <$> P →
  tot_len b = Z.of_nat (length P).
Proof.
  intros Hi Hs HP. rewrite <- (beside_length s p ((p, b) :: l) P 0 0); [apply Hs|].
  split; [by eapply ninv_readable; [|apply Hs]| |done]. apply Forall_forall. intros kv _. unfold apart. lia.
Qed.

Lemma udp_chksum_run s live own p b l P src dest : ninv s live own → sendable s p b ((p, b) :: l) →
  content (data (pb s)) ((p, b) :: l) = Some <$> P → is_u32 src → is_u32 dest → udp_chksum s p src dest = Clean (udp_sum src dest P).
Proof.
  intros Hi Hs HP H1 H2. pose proof (ninv_readable _ _ _ _ _ Hi (sd_chain _ _ _ _ Hs)) as Hrd. pose proof (content_tot _ _ _ _ _ _ _ Hi Hs HP) as Ht.
  unfold udp_chksum. rewrite (get_run _ _ _ (sd_head _ _ _ _ Hs)), bind_clean.
  destruct (segments_run (chain_fuel (pb s)) s p _ Hrd (mo_bytes _ (ni_mem _ _ _ Hi)) (readable_fuel _ _ _ Hrd)) as (segs & Hsg & Hok & Hcd).
  rewrite Hsg, bind_clean. rewrite HP in Hcd. assert (chain_data segs = P) as HcP by (eapply list_fmap_eq_inj; [|exact Hcd]; by intros ? ? [=]).
  unfold ip_chksum_pseudo, udp_sum. rewrite inet_chksum_pseudo_spec, HcP, Ht; [done|done|done| |done|done].
  apply (bo_tot _ _ _ (i_block _ _ _ (ni_pb _ _ _ Hi) _ _ (sd_head _ _ _ _ Hs))).
Qed.

(** A field in the first buffer. *)
Lemma content_rd16 s live own p b l P k : ninv s live own → chained (pbufs (pb s)) p ((p, b) :: l) →
  content (data (pb s)) ((p, b) :: l) = Some <$> P → 0 ≤ k → k + 2 ≤ len b →
  rd16 s (payload b + k) = Clean (of_le (take 2 (drop (Z.to_nat k) P))).
Proof.
  intros Hi Hc HP Hk Hl. unfold rd16, rd. rewrite (load_val _ _ _ (take 2 (drop (Z.to_nat k) P))); [by out_simp|].
  change (Z.of_nat (Z.to_nat 2)) with 2. exact (content_field (data (pb s)) p b l P k 2 HP Hk ltac:(lia) Hl).
Qed.

(** The datagram without its header. *)
Definition stripped (s : nst) (p : Z) (b : pbuf) (n : Z) : nst := set_pb s (upd (pb s) p (shrink_front b n)).

(** What [udp_input] does with the datagram [P], behind the IP header [H], when the pcbs are [L] and [s1] is
    the state after the search. *)
Inductive udp_fate (s1 : nst) (live : gmap Z (asrc * Z)) (own : Z → Z) (p : Z) (b : pbuf) (d : datagram) (H P : list Z) (L : upcb_list) (m : out nst) : Prop :=
| fate_foreign : chosen_pcb d L = None → nf_ip_addr (dg_inp d) ≠ dg_dest d → m = free_pbuf s1 p → udp_fate s1 live own p b d H P L m
| fate_damaged : is_Some (chosen_pcb d L) ∨ nf_ip_addr (dg_inp d) = dg_dest d → ¬ udp_intact (dg_src d) (dg_dest d) P →
    m = udp_drop s1 p Chkerr → udp_fate s1 live own p b d H P L m
| fate_delivered pcb x : chosen_pcb d L = Some (pcb, x) → udp_intact (dg_src d) (dg_dest d) P → u_recv x ≠ NULL →
    m = udp_recv_fn (u_recv x) (stripped s1 p b UDP_HLEN) (u_recv_arg x) pcb p (dg_src d) (dg_sport d) → udp_fate s1 live own p b d H P L m
| fate_unread pcb x : chosen_pcb d L = Some (pcb, x) → udp_intact (dg_src d) (dg_dest d) P → u_recv x = NULL →
    m = free_pbuf (stripped s1 p b UDP_HLEN) p → udp_fate s1 live own p b d H P L m
| fate_silent : chosen_pcb d L = None → nf_ip_addr (dg_inp d) = dg_dest d → udp_intact (dg_src d) (dg_dest d) P →
    dg_broadcast d = true ∨ ip4_addr_ismulticast (dg_dest d) = true →
    m = udp_drop (stripped s1 p b UDP_HLEN) p Proterr → udp_fate s1 live own p b d H P L m
| fate_unreachable nl s0 s2 live2 : chosen_pcb d L = None → nf_ip_addr (dg_inp d) = dg_dest d → udp_intact (dg_src d) (dg_dest d) P →
    dg_broadcast d = false → ip4_addr_ismulticast (dg_dest d) = false →
    nchain nf_next (netifs s1) (netif_list s1) nl → s0 = set_pb s1 (pb s0) → data (pb s0) = data (pb s1) → pmem (pb s0) = pmem (pb s1) →
    icmp_send_response s0 p ICMP_DUR ICMP_DUR_PORT = Clean s2 → same_links s1 s2 → ninv s2 live2 own →
    responded s0 nl ICMP_DUR ICMP_DUR_PORT (of_le (take 4 (drop 12 (H ++ P)))) (H ++ P) s2 →
    m = udp_drop s2 p Proterr → udp_fate s1 live own p b d H P L m.

(** Back at the IP header. *)
Lemma back_run s live own p b l H P : ninv s live own → received s p 0 b l → current_hdr s p b H → 8 ≤ len b →
  content (data (pb s)) ((p, b) :: l) = Some <$> P → let hl := Z.of_nat (length H) in let s0 := set_pb s (upd (pb s) p (grow b hl)) in
  withp (stripped s p b UDP_HLEN) (λ q, pbuf_header_force q p (hl + UDP_HLEN)) = Clean (0, s0) ∧ ninv s0 live own ∧
  sendable s0 p (grow b hl) ((p, grow b hl) :: l) ∧ 20 ≤ len (grow b hl) ∧
  content (data (pb s0)) ((p, grow b hl) :: l) = Some <$> (H ++ P).
Proof.
  intros Hi Hrv [C1 C2 C3 C4 C5 C6 C7 C8] Hl HP hl s0. destruct (received_facts _ _ _ _ _ _ _ Hi Hrv) as (Hb & Hc & Hpay & Hlen & Htot).
  unfold UDP_HLEN. destruct (ninv_shrink s live own p b 8 Hi Hb) as [_ Hi1]; [lia|]. fold (stripped s p b 8) in Hi1. set (s1 := stripped s p b 8) in *.
  pose proof C8 as (F1 & F2 & F3 & F4). fold hl in F1, F2, F3, F4. specialize (F3 Hc).
  pose proof (received_sendable _ _ _ _ _ _ _ Hi Hrv) as Hs. unfold SIZEOF_STRUCT_PBUF in *.
  assert (hl ≤ 60) as Hh60 by (unfold hl; lia). assert (20 ≤ hl) as Hh20 by (unfold hl; lia).
  assert (add_header_fits p b hl false) as Hfits by (split_and!; try done; intros Hn; by destruct (Hn Hc)).
  assert (pbufs (pb s1) !! p = Some (shrink_front b 8)) as Hb1 by apply lookup_insert_eq.
  destruct (add_header_run (pb s1) live _ p _ (hl + 8) true (ni_pb _ _ _ Hi1) Hb1) as [Hadd _]; [lia|].
  destruct Hadd as [Hadd _].
  { unfold add_header_fits. cbn [shrink_front tot_len payload set_tot_len set_len set_payload]. rewrite u16_id by (unfold is_u16; lia).
    split_and!; [lia|lia|unfold SIZEOF_STRUCT_PBUF; lia|done]. }
  assert (grow (shrink_front b 8) (hl + 8) = grow b hl) as Hg.
  { unfold grow, shrink_front, set_payload, set_len, set_tot_len. cbn.
    rewrite (u16_id (len b - 8)), (u16_id (tot_len b - 8)) by (unfold is_u16; lia). f_equal; [lia|f_equal; lia|f_equal; lia]. }
  rewrite Hg in Hadd. assert (upd (pb s1) p (grow b hl) = upd (pb s) p (grow b hl)) as Hupd.
  { unfold s1, stripped, upd, set_pbufs. cbn [pb set_pb pbufs pmem data pbuf_free_ooseq_pending]. by rewrite insert_insert_eq. }
  rewrite Hupd in Hadd. split.
  { assert (pbuf_header_force (pb s1) p (hl + 8) = Clean (0, upd (pb s) p (grow b hl))) as Hforce.
    { unfold pbuf_header_force, pbuf_header_impl. rewrite (proj2 (Z.ltb_ge (hl + 8) 0)) by lia. rewrite u32_id by (unfold is_u32; lia). exact Hadd. }
    by rewrite (withp_run s1 (λ q, pbuf_header_force q p (hl + 8)) _ _ Hforce). }
  destruct (ninv_grow s live own p b hl Hi Hb) as (_ & Hi0 & _); [lia|done|]. split; [exact Hi0|].
  split; [exact (sendable_grow s live own p b l hl Hi Hs ltac:(lia) Hfits)|].
  split; [cbn; rewrite u16_id by (unfold is_u16; lia); lia|].
  rewrite content_cons. cbn [grow payload len set_payload set_len set_tot_len]. rewrite u16_id by (unfold is_u16; lia).
  rewrite content_cons in HP. change (data (pb s0)) with (data (pb s)). rewrite (seg_split _ _ (len b + hl) hl) by lia.
  replace (payload b - hl + hl) with (payload b) by lia. replace (len b + hl - hl) with (len b) by lia.
  rewrite <- app_assoc, HP, fmap_app. unfold hl. rewrite C4. done.
Qed.
(** ** The whole of [udp_input] *)

(** The datagram [P] of the packet being processed. *)
Definition is_datagram (s : nst) (n : Z) (P : list Z) (d : datagram) : Prop :=
  processed s n d ∧ dg_sport d = uh_src P ∧ dg_dport d = uh_dest P ∧
  ∃ fc, netifs s !! current_netif (ip_data (ips s)) = Some fc ∧ dg_broadcast d = ip4_addr_isbroadcast (dg_dest d) fc.

Lemma datagram_exists (s : nst) n P : ifs_ok s n → ∃ d, is_datagram s n P d.
Proof.
  intros [[f Hf] [fc Hfc] [fi Hfi]].
  exists (Datagram f fi (current_iphdr_src (ip_data (ips s))) (current_iphdr_dest (ip_data (ips s))) (uh_src P) (uh_dest P)
    (ip4_addr_isbroadcast (current_iphdr_dest (ip_data (ips s))) fc)).
  split; [by split|]. split; [done|]. split; [done|]. by exists fc.
Qed.

Lemma stripped_run s live own p b l m P : ninv s live own → received s p m b l → 8 ≤ len b → content (data (pb s)) ((p, b) :: l) = Some <$> P →
  let s1 := stripped s p b UDP_HLEN in withp s (λ q, pbuf_remove_header q p UDP_HLEN) = Clean (0, s1) ∧ ninv s1 live own ∧
  received s1 p 0 (shrink_front b 8) l ∧ content (data (pb s1)) ((p, shrink_front b 8) :: l) = Some <$> drop 8 P.
Proof.
  intros Hi Hrv Hl HP s1. pose proof (received_head _ _ _ _ _ Hrv) as Hb.
  destruct (ninv_shrink s live own p b 8 Hi Hb) as [Hrm Hi1]; [lia|]. split; [by rewrite (withp_run s (λ q, pbuf_remove_header q p UDP_HLEN) _ _ Hrm)|].
  split; [exact Hi1|]. split; [destruct (received_shrink s live own p m b l 8 Hi Hrv); [lia|]; split; try done; intros x Hx; lia|].
  destruct (received_facts _ _ _ _ _ _ _ Hi Hrv) as (_ & _ & _ & Hlen & Htot).
  rewrite content_cons in *. cbn [shrink_front payload len set_payload set_len set_tot_len]. rewrite u16_id by (unfold is_u16; lia).
  rewrite fmap_drop, <- HP, (seg_split _ _ (len b) 8) by lia. rewrite <- app_assoc, drop_app_length' by (rewrite seg_length; lia). done.
Qed.

Lemma found_facts s live own d L s1 : found_state s live own d L s1 → ninv s live own →
  ninv s1 live own ∧ pb s1 = pb s ∧ ips s1 = ips s ∧ netifs s1 = netifs s ∧ netif_list s1 = netif_list s ∧ same_links s s1.
Proof. intros (H1 & H2 & _) Hi. rewrite H2 in *. by split_and!. Qed.

Lemma input_run s live own p b l H P n d L : ninv s live own → 0 < own p → received s p 0 b l → current_hdr s p b H →
  content (data (pb s)) ((p, b) :: l) = Some <$> P → is_datagram s n P d → ulist s L →
  (len b < UDP_HLEN ∧ udp_input s p n = udp_drop (UDP_STATS_INC Recv s) p Lenerr) ∨
  (UDP_HLEN ≤ len b ∧ ∃ s1, found_state (UDP_STATS_INC Recv s) live own d L s1 ∧ udp_fate s1 live own p b d H P L (udp_input s p n)).
Proof.
  intros Hi Hp Hrv Hcur HP ([D1 D2 D3 D4] & Hsp & Hdp & fc & Hfc & Hbc) HL. set (s0 := UDP_STATS_INC Recv s).
  assert (ninv s0 live own) as Hi0 by (by apply ninv_udp_stat).
  pose proof (received_head _ _ _ _ _ Hrv) as Hb. unfold udp_input. fold s0. change (get (pb s0) p) with (get (pb s) p).
  rewrite (get_run _ _ _ Hb), bind_clean. destruct (Z.ltb_spec (len b) UDP_HLEN) as [Hshort|Hlen]; [by left|right]. split; [done|]. unfold UDP_HLEN in Hlen.
  assert (get_netif s0 (current_netif (ip_data (ips s0))) = Clean fc) as -> by (unfold get_netif; change (netifs s0) with (netifs s); change (ips s0) with (ips s); by rewrite Hfc).
  rewrite bind_clean. change (ips s0) with (ips s). rewrite D4, <- Hbc.
  pose proof (rv_chain _ _ _ _ _ Hrv) as Hc. change (rd16 s0) with (rd16 s).
  pose proof (content_rd16 s live own p b l P 0 Hi Hc HP ltac:(lia) ltac:(lia)) as R0. rewrite Z.add_0_r in R0.
  change (drop (Z.to_nat 0) P) with P in R0. rewrite R0, bind_clean.
  rewrite (content_rd16 s live own p b l P 2 Hi Hc HP), bind_clean by lia. change (Z.to_nat 2) with 2%nat. fold (uh_src P). fold (uh_dest P). rewrite <- Hsp, <- Hdp.
  destruct (search_spec s0 live own n d L Hi0 ltac:(by split) HL) as (pcb & uncon & s1 & Hs & Hfound & Hch). change (udp_pcbs (udps s)) with (udp_pcbs (udps s0)).
  rewrite Hs, bind_clean. exists s1. split; [done|]. destruct (found_facts _ _ _ _ _ _ Hfound Hi0) as (Hi1 & Hpb & Hips & Hnet & Hlist & Hl1).
  assert (received s1 p 0 b l) as Hrv1 by (destruct Hrv; split; rewrite ?Hpb; done).
  assert (content (data (pb s1)) ((p, b) :: l) = Some <$> P) as HP1 by (by rewrite Hpb).
  assert (current_hdr s1 p b H) as Hcur1 by (destruct Hcur; split; rewrite ?Hips, ?Hpb; done).
  set (who := if pcb =? NULL then uncon else pcb) in *.
  assert (who = default NULL (fst <$> chosen_pcb d L)) as Hwho.
  { unfold who. destruct (chosen_pcb d L) as [[q x]|]; [by destruct Hch as (_ & ? & _)|]. destruct Hch as [-> ->]. done. }
  assert ((if negb (who =? NULL) then mret true
           else f ← get_netif s1 n; mret (nf_ip_addr f =? current_iphdr_dest (ip_data (ips s1)))) =
    Clean (bool_decide (is_Some (chosen_pcb d L) ∨ nf_ip_addr (dg_inp d) = dg_dest d))) as ->.
  { rewrite Hwho. destruct (chosen_pcb d L) as [[q x]|]; cbn [fmap option_fmap option_map default from_option id fst].
    - rewrite (proj2 (Z.eqb_neq q NULL)) by apply Hch. rewrite bool_decide_eq_true_2; [done|left; by eexists].
    - change (NULL =? NULL) with true. unfold get_netif. rewrite Hnet. change (netifs s0) with (netifs s). rewrite D1. out_simp. rewrite Hips.
      change (ips s0) with (ips s). rewrite D4. unfold mret, out_ret. f_equal. apply eq_true_iff_eq. rewrite Z.eqb_eq, bool_decide_eq_true.
      split; [by right|]. by intros [[? ?]|?]. }
  rewrite bind_clean. destruct (bool_decide _) eqn:Hus; [apply bool_decide_eq_true in Hus|apply bool_decide_eq_false in Hus].
  2:{ apply fate_foreign; [|by intros ?; apply Hus; right|done]. destruct (chosen_pcb d L); [|done]. exfalso. apply Hus. left. by eexists. }
  rewrite (content_rd16 s1 live own p b l P 6 Hi1), bind_clean by (done || lia || by destruct Hrv1). change (Z.to_nat 6) with 6%nat. fold (uh_chksum P).
  assert ((if negb (uh_chksum P =? 0) then c ← udp_chksum s1 p (current_iphdr_src (ip_data (ips s1))) (current_iphdr_dest (ip_data (ips s1))); mret (negb (c =? 0))
           else mret false) = Clean (negb (bool_decide (udp_intact (dg_src d) (dg_dest d) P)))) as ->.
  { destruct Hcur as [_ _ _ _ C5 C6 _ _]. rewrite Hips. change (ips s0) with (ips s). rewrite D3, D4 in *. unfold udp_intact.
    destruct (Z.eqb_spec (uh_chksum P) 0) as [H0|H0]; cbn [negb]; [rewrite bool_decide_eq_true_2; [done|by left]|].
    rewrite (udp_chksum_run s1 live own p b l P), bind_clean by (done || by eapply received_sendable). unfold mret, out_ret. do 2 f_equal.
    apply eq_true_iff_eq. rewrite Z.eqb_eq, bool_decide_eq_true. split; [by right|]. by intros [?|?]. }
  rewrite bind_clean. destruct (bool_decide (udp_intact _ _ _)) eqn:Hok; [apply bool_decide_eq_true in Hok|apply bool_decide_eq_false in Hok]; cbn [negb].
  2:{ by apply fate_damaged. }
  destruct (stripped_run s1 live own p b l 0 P Hi1 Hrv1 Hlen HP1) as (Hrm & Hi2 & _ & _). rewrite Hrm, bind_clean. change (negb (0 =? 0)) with false. cbn iota.
  set (s2 := stripped s1 p b UDP_HLEN) in *. unfold udp_deliver. rewrite Hwho.
  assert (ips s2 = ips s) as Hips2 by exact Hips. destruct (chosen_pcb d L) as [[q x]|] eqn:Hchosen; cbn [fmap option_fmap option_map default from_option id fst].
  - destruct Hch as (Hq & _ & x' & Hx' & Heq). rewrite (proj2 (Z.eqb_neq q NULL)) by done. cbn [negb].
    rewrite (get_upcb_run s2 q x'), bind_clean by exact Hx'. assert (u_recv x' = u_recv x ∧ u_recv_arg x' = u_recv_arg x) as [-> ->] by (by injection Heq).
    destruct (Z.eqb_spec (u_recv x) NULL) as [Hn|Hn]; cbn [negb]; [by eapply fate_unread|]. eapply fate_delivered; [exact Hchosen|done|done|].
    by rewrite Hips2, D3.
  - change (NULL =? NULL) with true. cbn [negb]. destruct Hus as [[? ?]|Hours]; [done|]. unfold udp_unreachable. rewrite Hips2, D4.
    destruct (dg_broadcast d) eqn:Hbr; cbn [negb andb]; [rewrite bind_ret_l; by apply fate_silent; try done; left|].
    destruct (ip4_addr_ismulticast (dg_dest d)) eqn:Hmc; cbn [negb]; [rewrite bind_ret_l; by apply fate_silent; try done; right|].
    pose proof Hcur1 as [C1 C2 C3 C4 C5 C6 C7 C8]. rewrite Hips in C7. change (ips s0) with (ips s) in C7. rewrite C7.
    assert (s16 (Z.of_nat (length H) + UDP_HLEN) = Z.of_nat (length H) + UDP_HLEN) as ->.
    { unfold s16, UDP_HLEN. rewrite u16_id by (unfold is_u16; lia). rewrite (proj2 (Z.ltb_lt _ (2 ^ 15))) by lia. done. }
    destruct (back_run s1 live own p b l H P Hi1 Hrv1) as (Hbk & Hi3 & Hs3 & Hl3 & HP3); [done..|].
    unfold s2. rewrite Hbk, bind_clean. set (s3 := set_pb s1 _) in *.
    destruct (lo_list _ _ _ _ (ni_links _ _ _ Hi1)) as [nl Hnl].
    destruct (send_response_run s3 live own p _ l ICMP_DUR ICMP_DUR_PORT (H ++ P) nl Hi3 Hnl Hs3 Hl3 HP3) as (s4 & live4 & H4 & Hi4 & Hl4 & Hr4); [done|done|].
    unfold icmp_dest_unreach. rewrite H4, bind_clean. eapply (fate_unreachable _ _ _ _ _ _ _ _ _ _ nl s3 s4 live4); try done.
    apply (same_links_trans _ s3); [by split|done].
Qed.

Context `{HC : !UdpClients}.

Lemma consumes_drop s live own p f : ninv s live own → 0 < own p → consumes own p s (udp_drop s p f).
Proof.
  intros Hi Hp. unfold udp_drop. set (s1 := UDP_STATS_INC Drop _). assert (ninv s1 live own) as Hi1 by (by do 2 apply ninv_udp_stat).
  apply (consumes_from _ s1); [by split|]. apply (free_pbuf_safe s1 live own p Hi1 Hp).
Qed.

Lemma fate_consumes s1 live own p b l d H P L m : ninv s1 live own → 0 < own p → received s1 p 0 b l → 8 ≤ len b →
  content (data (pb s1)) ((p, b) :: l) = Some <$> P → is_u32 (dg_src d) → is_u16 (dg_sport d) →
  (∀ pcb x, chosen_pcb d L = Some (pcb, x) → is_Some (upcbs (udps s1) !! pcb)) → udp_fate s1 live own p b d H P L m → consumes own p s1 m.
Proof.
  intros Hi Hp Hrv Hlen HP Hsu Hpu Hpcb Hf. destruct (stripped_run s1 live own p b l 0 P Hi Hrv Hlen HP) as (_ & Hi2 & Hrv2 & _).
  assert (same_links s1 (stripped s1 p b UDP_HLEN)) as Hl2 by (by split).
  destruct Hf as [_ _ ->|_ _ ->|pcb x Hch _ Hr ->|pcb x _ _ _ ->|_ _ _ _ ->|nl s0 s2 live2 _ _ _ _ _ _ _ _ _ _ Hl3 Hi3 _ ->].
  - by apply (free_pbuf_safe s1 live own p).
  - by eapply consumes_drop.
  - apply (consumes_from _ (stripped s1 p b UDP_HLEN)); [done|]. eapply HC; try done. by eapply Hpcb.
  - apply (consumes_from _ (stripped s1 p b UDP_HLEN)); [done|]. by apply (free_pbuf_safe _ live own p).
  - apply (consumes_from _ (stripped s1 p b UDP_HLEN)); [done|]. by eapply consumes_drop.
  - apply (consumes_from _ s2); [done|]. by eapply consumes_drop.
Qed.

Lemma found_chosen s live own d L s1 pcb x : ninv s live own → ulist s L → found_state s live own d L s1 → chosen_pcb d L = Some (pcb, x) →
  is_Some (upcbs (udps s1) !! pcb).
Proof.
  intros Hi HL (Hi1 & _ & Hm) Hch. destruct (chosen_hit _ _ _ Hch) as [Hin _]. destruct (nlist_elem _ _ _ _ _ _ HL Hin) as [_ Hx].
  destruct (perfect_pcb d L) as [[q y]|] eqn:Hp; [|subst; by exists x]. unfold chosen_pcb in Hch. rewrite Hp in Hch. injection Hch as -> ->.
  destruct Hm as [(L' & HL' & Heq) _]. destruct L' as [|[q z] L']; [done|]. cbn in Heq. injection Heq as -> _ _.
  destruct (nlist_elem _ _ _ _ pcb z HL') as [_ Hz]; [left|]. by exists z.
Qed.

(** A datagram is consumed. *)
Lemma udp_input_ok s live own p b l m H n : ninv s live own → 0 < own p → received s p m b l → 0 ≤ m → current_hdr s p b H → ifs_ok s n →
  consumes own p s (udp_input s p n).
Proof.
  intros Hi Hp Hrv Hm Hcur Hifs. destruct (content_some _ _ _ _ _ Hi (rv_chain _ _ _ _ _ Hrv)) as [P HP].
  assert (received s p 0 b l) as Hrv0 by (by eapply received_le). destruct (datagram_exists s n P Hifs) as [d Hd]. destruct (ninv_ulist _ _ _ Hi) as [L HL].
  set (s0 := UDP_STATS_INC Recv s). assert (ninv s0 live own) as Hi0 by (by apply ninv_udp_stat).
  destruct (input_run s live own p b l H P n d L Hi Hp Hrv0 Hcur HP Hd HL) as [[_ ->]|(Hlen & s1 & Hfound & Hf)].
  { apply (consumes_from _ s0); [by split|]. by eapply consumes_drop. }
  destruct (found_facts _ _ _ _ _ _ Hfound Hi0) as (Hi1 & Hpb & _ & _ & _ & Hl1). destruct Hd as ([D1 D2 D3 D4] & Hsp & _).
  apply (consumes_from _ s1); [by apply (same_links_trans _ s0); [split|]|].
  eapply (fate_consumes s1 live own p b l d H P L); try done.
  - destruct Hrv0; split; rewrite ?Hpb; done.
  - by rewrite Hpb.
  - rewrite <- D3. apply Hcur.
  - rewrite Hsp. apply lwip_htons_range.
  - intros pcb x Hch. by eapply (found_chosen s0).
Qed.
End Input.
