(* ===== verification/UdpOut.v ===== *)
(** * Sending UDP datagrams

    The header [udp_sendto_if_src] puts in front of a packet, its checksum, and what goes out. *)
From S2P Require Import Prelude Def Chksum Stats Iface Ip4Addr Pbuf PbufChain PbufClient PbufData PbufClone Pcb Netif NetInv Links EthOut Region Acd Etharp EtharpInv EtharpTmr EtharpRes EtharpQuery EtharpOut EtharpIn EthIn Ip4Out Ip4OutInv Icmp Udp UdpInv UdpOps UdpIn IcmpInv IcmpEcho IcmpIn Received UdpInput.

(** ** The header *)

Definition udp_hdr (sport dport n c : Z) : list Z :=
  le16 (lwip_htons sport) ++ le16 (lwip_htons dport) ++ le16 (lwip_htons n) ++ le16 c.

Lemma udp_hdr_bytes sport dport n c : Forall is_u8 (udp_hdr sport dport n c).
Proof. unfold udp_hdr. repeat apply Forall_app_2; apply le16_bytes. Qed.

(** The words of the pseudo header. *)
Definition pseudo_sum (src dest : Z) (P : list Z) : Z :=
  foldr Z.add 0 (pseudo_words IP_PROTO_UDP (Z.of_nat (length P)) [src; dest]).

Lemma pseudo_words_u16 src dest n : is_u32 src → is_u32 dest → Forall is_u16 (pseudo_words IP_PROTO_UDP n [src; dest]).
Proof.
  intros H1 H2. unfold pseudo_words. apply Forall_app_2; [apply addr_words_u16; by repeat first [apply Forall_nil_2|apply Forall_cons_2]|].
  repeat constructor; apply lwip_htons_range.
Qed.

Lemma pseudo_sum_pos src dest P : is_u32 src → is_u32 dest → 0 < pseudo_sum src dest P.
Proof.
  intros H1 H2. unfold pseudo_sum, pseudo_words. rewrite foldr_add_app. cbn [foldr].
  assert (0 ≤ foldr Z.add 0 (concat (map addr_words [src; dest]))) by (apply sum_u16_nonneg, addr_words_u16; by repeat first [apply Forall_nil_2|apply Forall_cons_2]).
  pose proof (lwip_htons_range (Z.of_nat (length P))) as Hr. change (lwip_htons IP_PROTO_UDP) with 4352. unfold is_u16 in Hr. lia.
Qed.

Lemma udp_sum_canon src dest P : bytes P → is_u32 src → is_u32 dest →
  udp_sum src dest P = 65535 - canon (pseudo_sum src dest P + bsum false P).
Proof.
  intros HP H1 H2. unfold udp_sum. rewrite rfc1071_canon.
  - by rewrite foldr_add_app, sum_words_bsum.
  - apply Forall_app_2; [by apply pseudo_words_u16|by apply words_le_u16].
Qed.

(** The checksum that is sent. *)
Definition udp_sent_chksum (src dest sport dport n : Z) (P : list Z) : Z :=
  let c := udp_sum src dest (udp_hdr sport dport n 0 ++ P) in if c =? 0 then 0xffff else c.

Lemma udp_sealed src dest sport dport n P : bytes P → is_u32 src → is_u32 dest →
  let c := udp_sent_chksum src dest sport dport n P in
  is_u16 c ∧ c ≠ 0 ∧ udp_sum src dest (udp_hdr sport dport n c ++ P) = 0.
Proof.
  intros HP H1 H2 c. set (pre := le16 (lwip_htons sport) ++ le16 (lwip_htons dport) ++ le16 (lwip_htons n)).
  assert (bytes pre) as Hpre by (unfold pre; repeat apply Forall_app_2; apply le16_bytes).
  assert (∀ x, udp_hdr sport dport n x ++ P = pre ++ le16 x ++ P) as Hd by (intros x; unfold udp_hdr, pre; by rewrite <- !app_assoc).
  assert (∀ x, is_u16 x → udp_sum src dest (udp_hdr sport dport n x ++ P) =
    65535 - canon (pseudo_sum src dest (udp_hdr sport dport n 0 ++ P) + bsum false pre + bsum false P + x)) as Hsum.
  { intros x Hx. rewrite udp_sum_canon by (done || (apply Forall_app_2; [apply udp_hdr_bytes|done])). f_equal. f_equal.
    assert (pseudo_sum src dest (udp_hdr sport dport n x ++ P) = pseudo_sum src dest (udp_hdr sport dport n 0 ++ P)) as ->
      by (unfold pseudo_sum; by rewrite !length_app).
    rewrite (Hd x). unfold le16. rewrite bsum_field by done. unfold is_u16 in Hx. width. }
  pose proof (pseudo_sum_pos src dest (udp_hdr sport dport n 0 ++ P) H1 H2) as Hpos.
  pose proof (bsum_nonneg false pre Hpre). pose proof (bsum_nonneg false P HP).
  set (T := pseudo_sum _ _ _ + bsum false pre + bsum false P) in *. assert (0 < T) as HT by (unfold T; lia). clearbody T.
  assert (is_u16 0) as Hu0 by (unfold is_u16; lia). pose proof (Hsum 0 Hu0) as Hz. rewrite Z.add_0_r in Hz.
  assert (1 ≤ canon T ≤ 65535 ∧ (canon T - T) mod 65535 = 0) as [Hc Hm].
  { unfold canon. rewrite (proj2 (Z.eqb_neq T 0)) by lia. width. }
  assert (c = if canon T =? 65535 then 65535 else 65535 - canon T) as ->.
  { unfold c, udp_sent_chksum. rewrite Hz. destruct (Z.eqb_spec (canon T) 65535) as [->|]; [done|].
    by rewrite (proj2 (Z.eqb_neq _ 0)) by lia. }
  assert (is_u16 (if canon T =? 65535 then 65535 else 65535 - canon T)) as Hu by (unfold is_u16; destruct (Z.eqb_spec (canon T) 65535); lia).
  split; [done|]. split; [destruct (Z.eqb_spec (canon T) 65535); lia|]. rewrite Hsum by done.
  assert (∀ y, 0 < y → (y mod 65535 = 0) → 65535 - canon y = 0) as Hf.
  { intros y Hy Hmy. unfold canon. rewrite (proj2 (Z.eqb_neq y 0)) by lia. width. }
  apply Hf; destruct (Z.eqb_spec (canon T) 65535) as [He|]; width.
Qed.

Section Out.
Context {M : Type} `{PM : PbufAlloc M} {E : NetEnv M} {U : IpUpper M} `{HF : !FragOk}.
Abbreviation pst := (@pst M).
Abbreviation nst := (nst M).

(** The header for the data [P], and the datagram. *)
Definition udp_data_hdr (x : udp_pcb) (src dst dport : Z) (P : list Z) : list Z :=
  let n := 8 + Z.of_nat (length P) in
  udp_hdr (u_local_port x) dport n
    (if has_flag (u_flags x) UDP_FLAGS_NOCHKSUM then 0 else udp_sent_chksum src dst (u_local_port x) dport n P).
Definition udp_data (x : udp_pcb) (src dst dport : Z) (P : list Z) : list Z := udp_data_hdr x src dst dport P ++ P.

(** What a receiver reads back. *)
Lemma htons_back v : is_u16 v → lwip_htons (of_le (le16 (lwip_htons v))) = v.
Proof.
  intros Hv. pose proof (lwip_htons_range v) as Hr. rewrite of_le_le16 by done. by apply lwip_htons_involutive.
Qed.

Lemma udp_data_fields x src dst dport P : udp_pcb_ok x → is_u16 dport → bytes P → is_u32 src → is_u32 dst → let D := udp_data x src dst dport P in
  uh_src D = u_local_port x ∧ uh_dest D = dport ∧ udp_intact src dst D ∧ drop 8 D = P.
Proof.
  intros [_ _ Hlp _] Hdp HP Hs Hd D. split; [exact (htons_back _ Hlp)|]. split; [exact (htons_back _ Hdp)|]. split; [|done].
  unfold udp_intact, D, udp_data, udp_data_hdr. destruct (has_flag _ _); [by left|right]. by apply udp_sealed.
Qed.

(** The first bytes of a packet are overwritten. *)
Lemma content_over (s : nst) q b l J H P n : content (data (pb s)) ((q, b) :: l) = Some <$> (J ++ P) → length J = n → length H = n →
  Z.of_nat n ≤ len b → foreign l (payload b) (Z.of_nat n) →
  content (data (pb (over s (payload b) H))) ((q, b) :: l) = Some <$> (H ++ P).
Proof.
  intros HP HJ HH Hn Hf. rewrite content_cons in *. cbn [over pb set_pb data set_data].
  rewrite (seg_split (data _) (payload b) (len b) (Z.of_nat n)), fmap_app, <- app_assoc in HP by lia.
  rewrite (seg_split (put _ _ _) (payload b) (len b) (Z.of_nat n)) by lia.
  apply app_inj_1 in HP as [_ HP]; [|by rewrite seg_length, length_fmap, HJ; lia].
  rewrite (put_seg _ _ _ (Z.of_nat n)) by lia. rewrite fmap_app, <- app_assoc. f_equal. rewrite <- HP. f_equal.
  - apply put_seg_apart. rewrite HH. unfold apart. lia.
  - apply content_frame. apply (Forall_impl _ _ _ Hf). intros kv Ha. apply put_seg_apart. by rewrite HH.
Qed.

Lemma udp_fill_run s live own pcb x q b l J P dst dport src : ninv s live own → upcbs (udps s) !! pcb = Some x →
  sendable s q b ((q, b) :: l) → 8 ≤ len b → foreign l (payload b) 8 → content (data (pb s)) ((q, b) :: l) = Some <$> (J ++ P) →
  length J = 8%nat → is_u32 dst → is_u32 src → let s' := over s (payload b) (udp_data_hdr x src dst dport P) in
  udp_fill_hdr s pcb q dst dport src = Clean s' ∧ ninv s' live own ∧ content (data (pb s')) ((q, b) :: l) = Some <$> udp_data x src dst dport P.
Proof.
  intros Hi Hx Hs Hl Hfo HP HJ Hd Hsr s'. set (h := payload b) in *. assert (mapped (data (pb s)) h 8) as Hm.
  { intros y Hy. apply (ninv_mapped _ _ _ _ _ Hi (sd_head _ _ _ _ Hs)). unfold h in *. lia. }
  pose proof (content_tot _ _ _ _ _ _ _ Hi Hs HP) as Ht. rewrite length_app, HJ, Nat2Z.inj_add in Ht. change (Z.of_nat 8) with 8 in Ht.
  assert (∀ c, is_u16 c → let s1 := over s h (udp_hdr (u_local_port x) dport (tot_len b) c) in ninv s1 live own ∧
    content (data (pb s1)) ((q, b) :: l) = Some <$> (udp_hdr (u_local_port x) dport (tot_len b) c ++ P)) as Hov.
  { intros c Hc s1. split; [by apply ninv_over; [|apply udp_hdr_bytes|]|]. by apply (content_over s q b l J _ P 8). }
  assert (s' = over s h (udp_data_hdr x src dst dport P)) as Hs' by done. unfold udp_data_hdr in Hs'. rewrite <- Ht in Hs'.
  assert (bytes P) as HPB by (pose proof (content_bytes _ _ _ (mo_bytes _ (ni_mem _ _ _ Hi)) HP) as HB; by apply Forall_app in HB as [_ HB]).
  destruct (udp_sealed src dst (u_local_port x) dport (tot_len b) P HPB Hsr Hd) as (Hcu & _ & _).
  split; [|unfold udp_data, udp_data_hdr; rewrite Hs', <- Ht; apply Hov; destruct (has_flag _ _); [unfold is_u16; lia|done]].
  destruct (over_here s live own h 8 Hi Hm) as (L & HL & _ & _ & HsL).
  do 8 (destruct L as [|? L]; [done|]). destruct L; [|done]. clear HL.
  unfold udp_fill_hdr. rewrite (get_run _ _ _ (sd_head _ _ _ _ Hs)), bind_clean. rewrite (proj2 (Z.leb_le UDP_HLEN (len b))) by (unfold UDP_HLEN; lia). out_simp.
  fold h. rewrite (get_upcb_run s pcb x Hx). rewrite bind_clean. rewrite HsL at 1.
  region_step 0%nat. region_step 2%nat. region_step 6%nat. region_step 4%nat.
  match goal with |- context [over s h ?L] => change (over s h L) with (over s h (udp_hdr (u_local_port x) dport (tot_len b) 0)) end.
  destruct (has_flag (u_flags x) UDP_FLAGS_NOCHKSUM); [by rewrite Hs'|].
  destruct (Hov 0 ltac:(unfold is_u16; lia)) as [Hi0 HP0].
  rewrite (udp_chksum_run _ live own q b l _ src dst Hi0 (sendable_over _ _ _ _ _ _ Hs) HP0 Hsr Hd), bind_clean.
  change (if udp_sum src dst _ =? 0 then 0xffff else _) with (udp_sent_chksum src dst (u_local_port x) dport (tot_len b) P).
  unfold udp_hdr at 1. region_step 6%nat. by rewrite Hs'.
Qed.

(** ** Room for the header *)

(** A new buffer in front of a packet. *)
Definition fronted (q p : Z) (c : pbuf) (b : pbuf) : pbuf := set_pnext (set_tot_len c (u16 (tot_len c + tot_len b))) p.

Lemma front_run s live own q c p b l : ninv s live own → 0 < own p → chained (pbufs (pb s)) q [(q, c)] → packet [(q, c)] → contiguous c →
  sendable s p b ((p, b) :: l) → q ≠ p → q ∉ l.*1 → tot_len b ≠ 0 → tot_len c + tot_len b < 65536 → ref c < 255 →
  let b' := set_ref b (ref b + 1) in let c' := fronted q p c b in let s' := set_pb s (upd (upd (pb s) q c') p b') in
  pbuf_chain (pb s) q p = Clean (pb s') ∧ ninv s' live own ∧ sendable s' q c' ((q, c') :: (p, b') :: l).
Proof.
  intros Hi Hp Hcq Hpq Hcc Hs Hne Hnl Hlb Htot Hrc b' c' s'. pose proof Hs as [Hb Hc [Htb Hpk] Hw Ha Hr]. pose proof (ni_pb _ _ _ Hi) as Hpb.
  destruct Hpq as [Htc _]. cbn [lens] in Htc. apply chained_inv_cons in Hcq as (_ & Hq & Hgc & Hnc). inversion Hnc as [Hn|]. clear Hnc. symmetry in Hn.
  apply chained_inv_cons in Hc as Hc'. destruct Hc' as (_ & Hp0 & _ & Hcl).
  pose proof (bo_tot _ _ _ (i_block _ _ _ Hpb _ _ Hb)) as Htu. pose proof (bo_len _ _ _ (i_block _ _ _ Hpb _ _ Hgc)) as Hlu. unfold is_u16 in *.
  pose proof (bo_ref _ _ _ (i_block _ _ _ Hpb _ _ Hb)) as Hrb.
  assert (pbuf_chain (pb s) q p = Clean (pb s')) as Hrun.
  { unfold pbuf_chain, pbuf_cat, pbuf_ref, chain_fuel. cbn [cat_loop].
    rewrite (proj2 (Z.eqb_neq q NULL) Hq), (proj2 (Z.eqb_neq p NULL) Hp0). cbn [negb andb].
    unfold get. rewrite Hgc. out_simp. rewrite Hn. change (NULL =? NULL) with true. cbn iota. out_simp.
    rewrite Hgc. out_simp. rewrite (proj2 (Z.eqb_eq (tot_len c) (len c))) by lia. rewrite Hn. out_simp.
    rewrite Hb. out_simp. cbn [upd set_pbufs pbufs]. rewrite lookup_insert_ne, Hb by done. out_simp.
    rewrite u8_id by (unfold is_u8; lia). cbn [ref set_ref]. rewrite (proj2 (Z.ltb_lt 0 (ref b + 1))) by lia. by out_simp. }
  assert (∃ t, pbuf_chain (pb s) q p = Clean t ∧ inv t live (λ x, own x + refs (arp_table s) x)) as (t & Ht & Hit).
  { pose proof (refs_nonneg (arp_table s) p).
    apply (chain_call_step (pb s) live _ q p [(q, c)] ((p, b) :: l) b Hpb); try done; [lia|split; [done|split; [|done]]|].
    - constructor; [done|done|rewrite Hn; constructor].
    - cbn [fmap list_fmap fst]. intros x ->%list_elem_of_singleton. by apply not_elem_of_cons. }
  rewrite Hrun in Ht. injection Ht as <-.
  assert (pbufs (pb s') !! p = Some b') as Hb' by apply lookup_insert_eq.
  assert (pbufs (pb s') !! q = Some c') as Hc1 by (cbn; by rewrite lookup_insert_ne, lookup_insert_eq).
  assert (p ∉ l.*1) as Hpl by (pose proof (chained_NoDup _ _ _ Hc) as Hnd; by apply NoDup_cons in Hnd as [? _]).
  split; [done|]. split.
  - destruct Hi as [H1 H2 [M1 M2 M3 M4] H4 H5 H6 H7 H8 H9]. split; try done. split; try done.
    cbn [s' pb set_pb upd set_pbufs pbufs data]. intros x y [[<- <-]|[_ [[<- <-]|[_ Hy]]%lookup_insert_Some]]%lookup_insert_Some Hny.
    + by apply (M1 p b).
    + done.
    + by apply (M1 x y).
  - assert (tot_len c' = len c + tot_len b) as Htc' by (unfold c', fronted; cbn; rewrite u16_id by (unfold is_u16; lia); lia).
    split; [done| | | | |done].
    + constructor; [done|done|]. change (next c') with p. constructor; [done|done|]. change (next b') with (next b).
      apply (chained_frame _ _ _ _ Hcl). intros x y Hin. cbn. assert (x ∈ l.*1) by (by apply (list_elem_of_fmap_2 fst) in Hin).
      rewrite !lookup_insert_ne by (intros <-; done). by apply (chained_elem _ _ _ _ _ Hcl Hin).
    + split; [rewrite Htc'; cbn [lens]; change (len b') with (len b); change (len c') with (len c); lia|]. split; [exact Htb|done].
    + destruct Hw as [Hw1 Hw2]. split; [|split; [exact Hw1|done]]. change (len c') with (len c). rewrite Htc'. lia.
    + apply Forall_cons in Ha as [Ha1 Ha2]. constructor; [by intros Hx|]. constructor; done.
Qed.

(** The buffer [q] starts with room for the header of the packet at [p]: its data [P] is behind 8 bytes. *)
Record header_room (s : nst) (own : Z → Z) (p : Z) (b : pbuf) (P : list Z) (q : Z) (s' : nst) : Prop := HeaderRoom {
  hr_null : q ≠ NULL;
  hr_state : s' = set_pb s (pb s');
  hr_data x : is_Some (data (pb s) !! x) → is_Some (data (pb s') !! x);
  hr_packet : ∃ live' c l J, ninv s' live' (if decide (q = p) then own else add_own own q 1) ∧ sendable s' q c ((q, c) :: l) ∧ ref c = 1 ∧
    8 ≤ len c ∧ foreign l (payload c) 8 ∧ length J = 8%nat ∧ content (data (pb s')) ((q, c) :: l) = Some <$> (J ++ P) ∧
    ((q = p ∧ add_header_fits p b 8 false ∧ c = grow b 8) ∨
     (q ≠ p ∧ ¬ add_header_fits p b 8 false ∧ contiguous c ∧ payload c = q + 16 + 36)) }.

(** The head room is used. *)
Lemma room_in_place s live own p b l P : ninv s live own → 0 < own p → sendable s p b ((p, b) :: l) → ref b = 1 →
  content (data (pb s)) ((p, b) :: l) = Some <$> P → add_header_fits p b 8 false → let s' := set_pb s (upd (pb s) p (grow b 8)) in
  withp s (λ x, pbuf_add_header x p UDP_HLEN) = Clean (0, s') ∧ header_room s own p b P p s'.
Proof.
  intros Hi Hp Hs Hr HP Hfit s'. pose proof (sd_head _ _ _ _ Hs) as Hb.
  destruct (ninv_grow s live own p b 8 Hi Hb ltac:(lia) Hfit) as (Hadd & Hi1 & _ & Hm).
  pose proof (i_block _ _ _ (ni_pb _ _ _ Hi) _ _ Hb) as [Hl Htl _ _ _]. unfold is_u16 in *.
  pose proof (sendable_len _ _ _ _ _ _ Hi Hs) as Hle. pose proof Hfit as (_ & Hf2 & _).
  assert (len (grow b 8) = len b + 8 ∧ payload (grow b 8) = payload b - 8) as [Hlg Hpg] by (cbn; rewrite u16_id by (unfold is_u16; lia); done).
  split; [by rewrite (withp_run s (λ x, pbuf_add_header x p UDP_HLEN) _ _ Hadd)|].
  destruct (load_run 8 (data (pb s)) (payload b - 8)) as (J & _ & HJ); [intros x Hx; apply Hm; lia|]. change (Z.of_nat 8) with 8 in HJ.
  pose proof (f_equal length HJ) as HJl. rewrite length_fmap, seg_length in HJl.
  split; [|done|done|].
  - intros ->. by rewrite (inv_null _ _ _ (ni_pb _ _ _ Hi)) in Hb.
  - exists live, (grow b 8), l, J. rewrite decide_True, Hlg, Hpg by done. split; [done|]. split; [by apply (sendable_grow s live own)|].
    split; [done|]. split; [lia|]. split; [|split; [exact HJl|split; [|by left]]].
    + pose proof (sendable_foreign _ _ _ _ _ _ 8 Hi Hs Hfit) as Hfo. by apply Forall_cons in Hfo as [_ Hfo].
    + rewrite content_cons, Hlg, Hpg. change (data (pb s')) with (data (pb s)). rewrite (seg_split _ _ (len b + 8) 8) by lia.
      replace (payload b - 8 + 8) with (payload b) by lia. replace (len b + 8 - 8) with (len b) by lia.
      by rewrite <- app_assoc, fmap_app, HJ, <- HP, content_cons.
Qed.

Lemma no_room s live own p b n : ninv s live own → pbufs (pb s) !! p = Some b → 0 < n → ¬ add_header_fits p b n false →
  withp s (λ x, pbuf_add_header x p n) = Clean (1, s).
Proof.
  intros Hi Hb Hn Hnf. destruct (add_header_run (pb s) live _ p b n false (ni_pb _ _ _ Hi) Hb) as [_ Hno]; [done|].
  rewrite (withp_run s (λ x, pbuf_add_header x p n) _ _ (Hno Hnf)). by destruct s.
Qed.

(** A new buffer of [n] bytes is put in front. *)
Definition put_in_front (s : nst) (p n : Z) : out (Z * nst) :=
  '(q, s) ← withp s (λ x, pbuf_alloc env_custom_free x PBUF_IP n PBUF_RAM);
  if q =? NULL then mret (NULL, s)
  else
    b ← get (pb s) p;
    s ← (if negb (tot_len b =? 0) then x ← pbuf_chain (pb s) q p; mret (set_pb s x) else mret s);
    mret (q, s).

Record in_front (s : nst) (own : Z → Z) (p : Z) (P : list Z) (n q : Z) (s' : nst) : Prop := InFront {
  if_null : q ≠ NULL;
  if_new : q ≠ p;
  if_state : s' = set_pb s (pb s');
  if_data : data (pb s') = data (pb s);
  if_packet : ∃ live' c l J, ninv s' live' (add_own own q 1) ∧ sendable s' q c ((q, c) :: l) ∧ ref c = 1 ∧
    len c = n ∧ foreign l (payload c) n ∧ Z.of_nat (length J) = n ∧ content (data (pb s')) ((q, c) :: l) = Some <$> (J ++ P) ∧
    contiguous c ∧ payload c = q + 16 + 36 }.

Lemma put_in_front_run s live own p b l P n : ninv s live own → 0 < own p → sendable s p b ((p, b) :: l) →
  content (data (pb s)) ((p, b) :: l) = Some <$> P → 0 ≤ n → n + tot_len b < 65536 →
  ∃ q s', put_in_front s p n = Clean (q, s') ∧
    ((q = NULL ∧ no_memory s PBUF_IP n ∧ ninv s' live own ∧ ∃ m, s' = set_pb s (set_pmem (pb s) m)) ∨ in_front s own p P n q s').
Proof.
  intros Hi Hp Hs HP Hn0 Htot. pose proof (sd_head _ _ _ _ Hs) as Hb. unfold put_in_front.
  pose proof (bo_tot _ _ _ (i_block _ _ _ (ni_pb _ _ _ Hi) _ _ Hb)) as Htu. unfold is_u16 in Htu.
  destruct (ram_new_run s live own PBUF_IP n Hi ltac:(done) ltac:(unfold is_u16; lia)) as (q & s1 & -> & [(-> & Hi1 & Hno & m & ->)|Hnew]); rewrite bind_clean.
  { exists NULL, (set_pb s (set_pmem (pb s) m)). split; [done|]. left. by split_and!; [..|exists m]. }
  destruct Hnew as [Hq Hc Hqn [live1 Hi1] [m Hs1] Hch Hfo _ Hmap]. set (c := ram_pbuf q PBUF_IP n) in *.
  assert (q ≠ p) as Hne by (intros ->; congruence). rewrite (proj2 (Z.eqb_neq q NULL)) by done.
  assert (pbufs (pb s1) !! p = Some b) as Hb1 by (rewrite Hs1; cbn; by rewrite lookup_insert_ne).
  rewrite (get_run _ _ _ Hb1), bind_clean. pose proof (sd_chain _ _ _ _ Hs) as Hcp.
  assert (q ∉ l.*1) as Hql.
  { intros ([x y] & -> & Hin)%list_elem_of_fmap. destruct (chained_elem _ _ _ x y Hcp) as [_ Hx]; [by right|]. cbn in *. congruence. }
  assert (sendable s1 p b ((p, b) :: l)) as Hs' by (destruct Hs; split; try done; by apply Hch).
  assert (data (pb s1) = data (pb s)) as Hd by (by rewrite Hs1).
  assert (0 < add_own own q 1 p) as Hp1 by (unfold add_own; by rewrite decide_False by congruence).
  assert (payload c = q + 16 + 36 ∧ len c = n) as [Hpc Hlc] by done. change PBUF_IP with 36 in Hfo, Hmap.
  assert (foreign ((p, b) :: l) (payload c) n) as Hfp by (apply (Hfo p); [done|apply Hs|lia..]).
  destruct (load_run (Z.to_nat n) (data (pb s)) (payload c)) as (J & _ & HJ).
  { intros x Hx. apply Hmap. lia. }
  pose proof (f_equal length HJ) as HJl. rewrite length_fmap, seg_length in HJl. rewrite Z2Nat.id in HJ, HJl by done.
  assert (Z.of_nat (length J) = n) as HJn by lia.
  assert (chained (pbufs (pb s1)) q [(q, c)]) as Hcq by (constructor; [done|done|constructor]).
  destruct (Z.eqb_spec (tot_len b) 0) as [Ht0|Ht0]; cbn [negb].
  - rewrite bind_ret_l. exists q, s1. split; [done|]. right. assert (P = []) as ->.
    { pose proof (content_tot _ _ _ _ _ _ _ Hi Hs HP) as Ht. destruct P; [done|]. cbn [length] in Ht. lia. }
    split; [done|done|by rewrite Hs1|done|]. exists live1, c, [], J.
    split; [done|]. split; [|split; [done|]; split; [done|]; split; [constructor|]; split; [done|split; [|done]]].
    + split; try done; [by split; [cbn [lens]; change (tot_len c) with (len c); lia|]|]. constructor; [|constructor]. intros Hx; by destruct (Hx (ram_contiguous _ _ _)).
    + rewrite Hd, content_cons, (app_nil_r J), Hlc, HJ. apply app_nil_r.
  - destruct (front_run s1 live1 (add_own own q 1) q c p b l Hi1 Hp1 Hcq) as (Hrun & Hi2 & Hs2); try done.
    { by split; [cbn [lens]; change (tot_len c) with (len c); lia|]. }
    rewrite Hrun, bind_clean, bind_ret_l. eexists q, _. split; [done|]. right. set (s2 := set_pb s1 _) in *.
    change (set_pb s1 (pb s2)) with s2. split; [done|done|unfold s2; by rewrite Hs1|exact Hd|].
    eexists live1, _, _, J. split; [exact Hi2|]. split; [exact Hs2|]. split; [done|]. split; [done|].
    split; [apply Forall_cons in Hfp as [Hf1 Hf2]; by constructor|]. split; [done|]. split; [|done].
    change (data (pb s2)) with (data (pb s1)). rewrite Hd, fmap_app, HJ, <- HP, !content_cons. done.
Qed.

(** A new buffer for the header. *)
Lemma room_in_front s live own p b l P : ninv s live own → 0 < own p → sendable s p b ((p, b) :: l) →
  content (data (pb s)) ((p, b) :: l) = Some <$> P → ¬ add_header_fits p b 8 false → tot_len b + 8 < 65536 →
  ∃ q s', udp_header_room s p = Clean (q, s') ∧
    ((q = NULL ∧ ¬ add_header_fits p b 8 false ∧ no_memory s PBUF_IP 8 ∧ ninv s' live own ∧ ∃ m, s' = set_pb s (set_pmem (pb s) m)) ∨ header_room s own p b P q s').
Proof.
  intros Hi Hp Hs HP Hnf Htot. unfold udp_header_room.
  rewrite (no_room s live own p b UDP_HLEN) by (done || apply Hs). rewrite bind_clean. change (negb (1 =? 0)) with true. cbn iota.
  destruct (put_in_front_run s live own p b l P 8 Hi Hp Hs HP) as (q & s' & H & Hcase); [done|lia|]. exists q, s'. split; [exact H|].
  destruct Hcase as [(-> & H1 & H2 & H3)|[H1 H2 H3 H4 (live' & c & l1 & J & H5 & H6 & H7 & H8 & H9 & H10 & H11 & H12 & H13)]]; [left; by split_and!|right].
  split; [done|done|by rewrite H4|]. exists live', c, l1, J. rewrite decide_False by done. split_and!; try done; [lia|lia|by right].
Qed.

Lemma room_run s live own p b l P : ninv s live own → 0 < own p → sendable s p b ((p, b) :: l) → ref b = 1 →
  content (data (pb s)) ((p, b) :: l) = Some <$> P → tot_len b + 8 < 65536 →
  ∃ q s', udp_header_room s p = Clean (q, s') ∧
    ((q = NULL ∧ ¬ add_header_fits p b 8 false ∧ no_memory s PBUF_IP 8 ∧ ninv s' live own ∧ ∃ m, s' = set_pb s (set_pmem (pb s) m)) ∨ header_room s own p b P q s').
Proof.
  intros Hi Hp Hs Hr HP Htot. assert (Decision (add_header_fits p b 8 false)) as Hdec by (unfold add_header_fits; apply _).
  destruct (decide (add_header_fits p b 8 false)) as [Hfit|Hnf]; [|by apply (room_in_front s live own p b l)].
  destruct (room_in_place s live own p b l P Hi Hp Hs Hr HP Hfit) as [Hrun Hroom]. unfold udp_header_room. rewrite Hrun, bind_clean.
  change (negb (0 =? 0)) with false. cbn iota. eexists p, _. split; [done|]. by right.
Qed.

(** ** [udp_sendto_if_src] *)

(** There is room for both headers. *)
Definition udp_room (p : Z) (b : pbuf) (P : list Z) : Prop :=
  28 + Z.of_nat (length P) < 65536 ∧ (add_header_fits p b 8 false → add_header_fits p b 28 false).

(** The IP header of a datagram. *)
Definition udp_ip_hdr (a : Z) (s : nst) (x : udp_pcb) (src dst : Z) (P : list Z) : list Z :=
  let hdr c := ip_header (28 + Z.of_nat (length P)) (ip_id (ips s)) (pcb_ttl (u_ip x)) (pcb_tos (u_ip x)) IP_PROTO_UDP c src dst in
  hdr (inet_chksum a (hdr 0)).

(** What [udp_sendto_if_src] answers, for the data [P] of the packet at [p], once the pcb [x] is bound. *)
Inductive udp_sent (s : nst) (x : udp_pcb) (p : Z) (b : pbuf) (P : list Z) (n : Z) (f : netif) (src dst dport : Z) (r : Z) (s' : nst) : Prop :=
| sent_long : 65536 ≤ 8 + Z.of_nat (length P) → r = ERR_MEM → s' = s → udp_sent s x p b P n f src dst dport r s'
| sent_nomem : no_memory s PBUF_IP 8 → ¬ add_header_fits p b 8 false → r = ERR_MEM → frames s' = frames s → arp_table s' = arp_table s →
    udp_sent s x p b P n f src dst dport r s'
| sent_noroom : ¬ udp_room p b P → r = ERR_BUF → frames s' = frames s → arp_table s' = arp_table s → udp_sent s x p b P n f src dst dport r s'
| sent_out a : udp_room p b P → (nf_mtu f = 0 ∨ 28 + Z.of_nat (length P) ≤ nf_mtu f →
    packet_sent s n f dst src (udp_ip_hdr a s x src dst P ++ udp_data x src dst dport P) s') → udp_sent s x p b P n f src dst dport r s'.

(** The datagram, with its header filled in, goes to the IP layer. *)
Lemma udp_hand_over s1 live1 own1 s q c l x src dst dport P n f : ninv s1 live1 own1 → 0 < own1 q → sendable s1 q c ((q, c) :: l) → ref c = 1 →
  content (data (pb s1)) ((q, c) :: l) = Some <$> udp_data x src dst dport P → udp_pcb_ok x → is_u32 src → is_u32 dst →
  netifs s1 !! n = Some f → frames s1 = frames s → arp_table s1 = arp_table s → netifs s1 = netifs s →
  etharp_cached_entry s1 = etharp_cached_entry s → ip_id (ips s1) = ip_id (ips s) →
  ∃ r s2 live2, ip4_output_if_src s1 q (Some src) (Some dst) (pcb_ttl (u_ip x)) (pcb_tos (u_ip x)) IP_PROTO_UDP n = Clean (r, s2) ∧
    ninv s2 live2 own1 ∧ same_links s1 s2 ∧ (¬ add_header_fits q c 20 false → r = ERR_BUF ∧ frames s2 = frames s ∧ arp_table s2 = arp_table s) ∧
    ∃ a, add_header_fits q c 20 false → nf_mtu f = 0 ∨ 28 + Z.of_nat (length P) ≤ nf_mtu f →
      packet_sent s n f dst src (udp_ip_hdr a s x src dst P ++ udp_data x src dst dport P) s2.
Proof.
  intros Hi Hq Hs Hr HP [[X1 X2 X3 X4 X5 X6] Y1 Y2 Y3] Hsr Hds Hf E1 E2 E3 E4 E5. pose proof (content_tot _ _ _ _ _ _ _ Hi Hs HP) as Ht.
  assert (length (udp_data x src dst dport P) = (8 + length P)%nat) as Hld by (unfold udp_data; by rewrite length_app).
  destruct (output_src_sent s1 live1 own1 q c l (Some src) dst (pcb_ttl (u_ip x)) (pcb_tos (u_ip x)) IP_PROTO_UDP n f (udp_data x src dst dport P) Hi Hq Hs Hr)
    as (r & s2 & live2 & Hrun & Hi2 & Hl2 & Hno & Hyes); try done.
  exists r, s2, live2. split; [done|]. split; [done|]. split; [done|]. split.
  - intros [-> ->]%Hno. by split_and!.
  - exists (payload c - 20). intros Hfit Hm. apply (packet_sent_ext s s1); try done. cbn [default from_option id] in Hyes.
    assert (sent_header s1 c src dst (pcb_ttl (u_ip x)) (pcb_tos (u_ip x)) IP_PROTO_UDP = udp_ip_hdr (payload c - 20) s x src dst P) as <-.
    { unfold sent_header, udp_ip_hdr. rewrite E5. rewrite Ht, Hld. replace (Z.of_nat (8 + length P) + 20) with (28 + Z.of_nat (length P)) by lia. done. }
    apply Hyes; [done|]. unfold fits_mtu. destruct Hfit as (_ & Hf2 & _). cbn [grow tot_len set_tot_len].
    rewrite u16_id by (unfold is_u16; lia). rewrite Ht, Hld. destruct Hm; [by left|right; lia].
Qed.

(** The header, once there is room for it. *)
Lemma room_ip s live own p b l P q c : ninv s live own → sendable s p b ((p, b) :: l) → content (data (pb s)) ((p, b) :: l) = Some <$> P →
  tot_len c = 8 + Z.of_nat (length P) →
  ((q = p ∧ add_header_fits p b 8 false ∧ c = grow b 8) ∨ (q ≠ p ∧ ¬ add_header_fits p b 8 false ∧ contiguous c ∧ payload c = q + 16 + 36)) →
  udp_room p b P ↔ add_header_fits q c 20 false.
Proof.
  intros Hi Hs HP Ht. pose proof (content_tot _ _ _ _ _ _ _ Hi Hs HP) as Htb. unfold udp_room, add_header_fits, SIZEOF_STRUCT_PBUF.
  rewrite Ht, Htb. intros [(-> & Hf8 & ->)|(Hne & Hf8 & Hc & Hpc)].
  - change (contiguous (grow b 8)) with (contiguous b). change (payload (grow b 8)) with (payload b - 8).
    unfold SIZEOF_STRUCT_PBUF in *. split; [intros [H1 H2]; specialize (H2 Hf8) as (H2 & H3 & H4 & H5)|intros (H1 & H2 & H3 & H4)].
    + split_and!; [lia|lia|intros Hc; specialize (H4 Hc); lia|done].
    + destruct Hf8 as (F1 & F2 & F3 & F4). split; [lia|]. intros _. split_and!; [lia|lia|intros Hc; specialize (H3 Hc); lia|done].
  - rewrite Hpc. split; [intros [H1 _]|intros (H1 & H2 & _)]; [|split; [lia|]; intros (A1 & A2 & A3 & A4); destruct Hf8].
    + split_and!; [lia|lia|lia|by intros Hnc].
    + by split_and!.
Qed.

(** The header is filled in, the datagram goes out, and a new buffer is given back. *)
Lemma udp_emit_run s s1 live own pcb x p b l P n f q src dst dport : ninv s live own → 0 < own p → sendable s p b ((p, b) :: l) →
  content (data (pb s)) ((p, b) :: l) = Some <$> P → header_room s own p b P q s1 → upcbs (udps s) !! pcb = Some x →
  netifs s !! n = Some f → is_u32 src → is_u32 dst → ∃ r s' live',
  (s2 ← udp_fill_hdr s1 pcb q dst dport src;
   x ← get_upcb s2 pcb;
   '(err, s2) ← ip4_output_if_src s2 q (Some src) (Some dst) (pcb_ttl (u_ip x)) (pcb_tos (u_ip x)) IP_PROTO_UDP n;
   s2 ← (if negb (q =? p) then free_pbuf s2 q else mret s2);
   mret (err, UDP_STATS_INC Xmit s2)) = Clean (r, s') ∧ ninv s' live' own ∧ same_links s s' ∧ udp_sent s x p b P n f src dst dport r s'.
Proof.
  intros Hi Hp Hs HP [Hq Hst Hdat (live1 & c & l1 & J & Hi1 & Hs1 & Hr1 & Hl1 & Hfo1 & HJ & HP1 & Hcase)] Hx Hf Hsr Hds.
  assert (upcbs (udps s1) !! pcb = Some x) as Hx1 by (rewrite Hst; exact Hx).
  destruct (udp_fill_run s1 live1 _ pcb x q c l1 J P dst dport src Hi1 Hx1 Hs1 Hl1 Hfo1 HP1 HJ Hds Hsr) as (-> & Hi2 & HP2). rewrite bind_clean.
  set (s2 := over s1 _ _) in *. assert (upcbs (udps s2) !! pcb = Some x) as Hx2 by exact Hx1. rewrite (get_upcb_run s2 pcb x Hx2), bind_clean.
  assert (sendable s2 q c ((q, c) :: l1)) as Hs2 by (by apply sendable_over).
  destruct (upcb_ok _ _ _ _ _ Hi Hx) as [_ Hok]. pose proof (content_tot _ _ _ _ _ _ _ Hi2 Hs2 HP2) as Ht2.
  assert (tot_len c = 8 + Z.of_nat (length P)) as Ht by (rewrite Ht2; unfold udp_data; rewrite length_app, Nat2Z.inj_add; done).
  set (own1 := if decide (q = p) then own else add_own own q 1) in *.
  assert (0 < own1 q) as Hq1.
  { unfold own1. case_decide as Hqp; [by subst|]. unfold add_own. rewrite decide_True by done. pose proof (ni_own _ _ _ Hi q). lia. }
  destruct (udp_hand_over s2 live1 own1 s q c l1 x src dst dport P n f Hi2 Hq1 Hs2 Hr1 HP2 Hok Hsr Hds) as (r & s3 & live3 & -> & Hi3 & Hl3 & Hno & a & Hyes);
    [by unfold s2; rewrite Hst..|].
  assert (same_links s s3) as Hl03.
  { apply (same_links_trans _ s1); [rewrite Hst; by split|]. apply (same_links_trans _ s2); [apply over_links|done]. } rewrite bind_clean. pose proof (room_ip s live own p b l P q c Hi Hs HP Ht Hcase) as Hroom.
  assert (∀ s4, frames s4 = frames s3 → arp_table s4 = arp_table s3 → udp_sent s x p b P n f src dst dport r (UDP_STATS_INC Xmit s4)) as Hsent.
  { intros s4 E1 E2. assert (Decision (add_header_fits q c 20 false)) as Hdec by (unfold add_header_fits; apply _).
    destruct (decide (add_header_fits q c 20 false)) as [Hfit|Hnf].
    - apply (sent_out _ _ _ _ _ _ _ _ _ _ _ _ a); [by apply Hroom|]. intros Hm.
      destruct (Hyes Hfit Hm) as (t1 & q1 & b1 & l2 & r1 & t2 & Ha1 & Ha2 & Ha3 & Ha4 & Ha5 & Ha6 & Ha7 & Ha8 & Ha9).
      exists t1, q1, b1, l2, r1, t2. split_and!; try done; [exact (eq_trans E1 Ha8)|exact (eq_trans E2 Ha9)].
    - destruct (Hno Hnf) as (-> & Ha1 & Ha2). apply sent_noroom; [by rewrite Hroom|done|exact (eq_trans E1 Ha1)|exact (eq_trans E2 Ha2)]. }
  unfold own1 in Hi3. case_decide as Hqp.
  - subst q. rewrite Z.eqb_refl. cbn [negb]. rewrite bind_ret_l. exists r, (UDP_STATS_INC Xmit s3), live3. split; [done|].
    split; [by apply ninv_udp_stat|]. split; [by apply (same_links_trans _ s3); [|split]|by apply Hsent].
  - rewrite (proj2 (Z.eqb_neq q p)) by done. cbn [negb].
    destruct (free_pbuf_run s3 live3 (add_own own q 1) q Hi3) as (t & live4 & -> & Hi4 & Hd4 & _); [exact Hq1|].
    rewrite bind_clean. exists r, (UDP_STATS_INC Xmit (set_pb s3 t)), live4. split; [done|].
    split; [|split; [apply (same_links_trans _ s3); [done|split; try done; cbn; by rewrite Hd4]|by apply Hsent]]. apply ninv_udp_stat. apply (ninv_own_ext _ _ _ _ Hi4). intros y. unfold add_own. repeat case_decide; lia.
Qed.

Lemma auto_bound s live own pcb x L : ninv s live own → ulist s L → upcbs (udps s) !! pcb = Some x →
  ∃ s1 x1 L1, udp_auto_bind s pcb = Clean (ERR_OK, s1) ∧ ninv s1 live own ∧ ulist s1 L1 ∧ upcbs (udps s1) !! pcb = Some x1 ∧
    u_local_port x1 ≠ 0 ∧ s1 = set_udps s (udps s1).
Proof.
  intros Hi HL Hx. destruct (auto_bind_run s live own pcb x L Hi HL Hx) as (s1 & x1 & L1 & H1 & H2 & H3 & H4 & H5 & H6).
  exists s1, x1, L1. split_and!; try done. destruct H6 as [(_ & -> & _)|(new & _ & _ & -> & _)]; [by destruct s|].
  unfold stored. by case_decide.
Qed.

Lemma sendto_if_src_run s live own pcb x L p b l P n f src dst dport : ninv s live own → ulist s L → upcbs (udps s) !! pcb = Some x →
  0 < own p → sendable s p b ((p, b) :: l) → ref b = 1 → content (data (pb s)) ((p, b) :: l) = Some <$> P →
  netifs s !! n = Some f → is_u32 src → is_u32 dst →
  ∃ s1 x1 L1 r s' live', udp_auto_bind s pcb = Clean (ERR_OK, s1) ∧ ulist s1 L1 ∧ upcbs (udps s1) !! pcb = Some x1 ∧ u_local_port x1 ≠ 0 ∧
    s1 = set_udps s (udps s1) ∧ udp_sendto_if_src s pcb p (Some dst) dport n (Some src) = Clean (r, s') ∧ ninv s' live' own ∧ same_links s s' ∧
    udp_sent s1 x1 p b P n f src dst dport r s'.
Proof.
  intros Hi HL Hx Hp Hs Hr HP Hf Hsr Hds. destruct (auto_bound s live own pcb x L Hi HL Hx) as (s1 & x1 & L1 & Hb & Hi1 & HL1 & Hx1 & H0 & Hs1).
  exists s1, x1, L1. assert (sendable s1 p b ((p, b) :: l) ∧ data (pb s1) = data (pb s) ∧ netifs s1 = netifs s) as (Hse & Hd & Hn).
  { rewrite Hs1. split; [|done]. by destruct Hs. }
  destruct (upcb_ok _ _ _ _ _ Hi Hx) as [Hpcb _]. assert (p ≠ NULL) as Hpn.
  { intros ->. pose proof (inv_null _ _ _ (ni_pb _ _ _ Hi)) as Hz. by rewrite (sd_head _ _ _ _ Hs) in Hz. }
  assert (n ≠ NULL) as Hnn by apply (lo_netif _ _ _ _ (ni_links _ _ _ Hi) _ _ Hf).
  pose proof (content_tot _ _ _ _ _ _ _ Hi Hs HP) as Ht. pose proof (bo_tot _ _ _ (i_block _ _ _ (ni_pb _ _ _ Hi) _ _ (sd_head _ _ _ _ Hs))) as Htu.
  unfold udp_sendto_if_src. rewrite (proj2 (Z.eqb_neq pcb NULL)), (proj2 (Z.eqb_neq p NULL)), (proj2 (Z.eqb_neq n NULL)) by done. cbn [orb].
  rewrite Hb, bind_clean. change (negb (ERR_OK =? ERR_OK)) with false. cbn iota. rewrite (get_run _ _ _ (sd_head _ _ _ _ Hse)), bind_clean.
  assert (same_links s s1) as Hl1 by (rewrite Hs1; by split).
  unfold is_u16 in Htu. unfold UDP_HLEN. destruct (Z.ltb_spec (u16 (tot_len b + 8)) (tot_len b)) as [Hov|Hov].
  - exists ERR_MEM, s1, live. split_and!; try done. apply sent_long; [|done..]. rewrite <- Ht. revert Hov. unfold u16. width.
  - assert (tot_len b + 8 < 65536) as Hlt by (revert Hov; unfold u16; width). rewrite <- Hd in HP.
    destruct (room_run s1 live own p b l P Hi1 Hp Hse Hr HP Hlt) as (q & s2 & -> & [(-> & Hnf & Hno & Hi2 & m & ->)|Hroom]); rewrite bind_clean.
    + change (NULL =? NULL) with true. cbn iota. exists ERR_MEM, (set_pb s1 (set_pmem (pb s1) m)), live. split_and!; try done; [by apply (same_links_trans _ s1); [|split]|].
      by apply sent_nomem.
    + rewrite (proj2 (Z.eqb_neq q NULL)) by (by apply (hr_null _ _ _ _ _ _ _ Hroom)). rewrite <- Hn in Hf.
      destruct (udp_emit_run s1 s2 live own pcb x1 p b l P n f q src dst dport) as (r & s' & live' & H1 & H2 & H3 & H4); try done.
      exists r, s', live'. split_and!; try done. by apply (same_links_trans _ s1).
Qed.

(** ** [udp_sendto] *)

(** No interface of [l] has the index. *)
Definition no_index (s : nst) (idx : Z) (l : list Z) : Prop := ∀ m g, m ∈ l → netifs s !! m = Some g → netif_get_index g ≠ idx.

Lemma index_loop_run (s : nst) idx l : ∀ fuel n, nchain nf_next (netifs s) n l → (length l ≤ fuel)%nat →
  (∃ l1 l2 m f, l = l1 ++ m :: l2 ∧ netifs s !! m = Some f ∧ netif_get_index f = idx ∧ no_index s idx l1 ∧ m ≠ NULL ∧
     netif_index_loop fuel s idx n = Clean m) ∨
  (no_index s idx l ∧ netif_index_loop fuel s idx n = Clean NULL).
Proof.
  induction l as [|m l IH]; intros fuel n Hc Hf.
  - right. split; [by intros m g Hm%elem_of_nil|]. inversion Hc. by destruct fuel.
  - inversion Hc as [|m' f l' Hm Hl Hc']; subst. destruct fuel as [|fuel]; cbn [length] in Hf; [lia|].
    cbn [netif_index_loop]. rewrite (proj2 (Z.eqb_neq m NULL)) by done. unfold get_netif. rewrite Hl. out_simp.
    destruct (Z.eqb_spec idx (netif_get_index f)) as [Heq|Hne].
    + left. exists [], l, m, f. split_and!; try done. by intros x g Hx%elem_of_nil.
    + assert (∀ l1, no_index s idx l1 → no_index s idx (m :: l1)) as Hcons.
      { intros l1 Hn x g [->|Hx]%elem_of_cons Hg; [congruence|by eapply Hn]. }
      destruct (IH fuel (nf_next f) Hc') as [(l1 & l2 & m0 & f0 & -> & ? & ? & ? & ? & ?)|[? ?]]; [lia|left|right].
      * exists (m :: l1), l2, m0, f0. split_and!; try done. by apply Hcons.
      * split; [by apply Hcons|done].
Qed.

(** The interface a packet is sent on: the one the pcb is bound to, or that of the route. *)
Inductive pcb_route (s : nst) (x : ip_pcb) (dst : Z) (nl : list Z) : Z → Prop :=
| route_bound l1 l2 n f : netif_idx x ≠ NETIF_NO_INDEX → nl = l1 ++ n :: l2 → netifs s !! n = Some f →
    netif_get_index f = netif_idx x → no_index s (netif_idx x) l1 → pcb_route s x dst nl n
| route_unbound : netif_idx x ≠ NETIF_NO_INDEX → no_index s (netif_idx x) nl → pcb_route s x dst nl NULL
| route_any n : netif_idx x = NETIF_NO_INDEX → routes s dst nl n → pcb_route s x dst nl n.

Lemma pcb_route_run s live own x dst nl : ninv s live own → nchain nf_next (netifs s) (netif_list s) nl →
  ∃ n s1, (if negb (netif_idx x =? NETIF_NO_INDEX)
           then n ← netif_get_by_index s (netif_idx x); mret (n, s) else ip4_route s (Some dst)) = Clean (n, s1) ∧
    pcb_route s x dst nl n ∧ (n ≠ NULL → s1 = s ∧ is_Some (netifs s !! n)) ∧ (n = NULL → s1 = s ∨ s1 = IP_STATS_INC Rterr s).
Proof.
  intros Hi Hc. destruct (Z.eqb_spec (netif_idx x) NETIF_NO_INDEX) as [H0|H0]; cbn [negb].
  - destruct (route_run s live own dst nl Hi Hc) as (n & -> & Hr & Hn). exists n, (if n =? NULL then IP_STATS_INC Rterr s else s).
    split; [done|]. split; [by apply route_any|]. split.
    + intros Hn0. rewrite (proj2 (Z.eqb_neq n NULL)) by done. split; [done|by apply Hn].
    + intros ->. by right.
  - unfold netif_get_by_index. rewrite (proj2 (Z.eqb_neq _ _) H0). cbn [negb].
    destruct (index_loop_run s (netif_idx x) nl (netif_fuel s) _ Hc) as [(l1 & l2 & m & f & Hl & Hm & Hx & Hno & Hm0 & ->)|[Hno ->]].
    { unfold netif_fuel. pose proof (nchain_length _ _ _ _ Hc). lia. }
    + exists m, s. split; [done|]. split; [by eapply route_bound|]. split; [intros _; split; [done|by exists f]|by left].
    + exists NULL, s. split; [done|]. split; [by apply route_unbound|]. split; [done|by left].
Qed.

(** The source address; [None] when the pcb is bound to another interface's address. *)
Definition udp_source (x : udp_pcb) (f : netif) : option Z :=
  if ip4_addr_isany (local_ip (u_ip x)) || ip4_addr_ismulticast (local_ip (u_ip x)) then Some (nf_ip_addr f)
  else if negb (local_ip (u_ip x) =? nf_ip_addr f) then None else Some (local_ip (u_ip x)).

(** What [udp_sendto] answers when the datagram is for interface [n]. *)
Definition udp_sendto_result (s : nst) (pcb : Z) (x : udp_pcb) (p : Z) (b : pbuf) (P : list Z) (n dst dport r : Z) (s' : nst) : Prop :=
  if decide (n = NULL) then r = ERR_RTE ∧ frames s' = frames s ∧ arp_table s' = arp_table s
  else ∃ f, netifs s !! n = Some f ∧
    match udp_source x f with
    | None => r = ERR_RTE ∧ s' = s
    | Some src => ∃ s1 x1 L1, udp_auto_bind s pcb = Clean (ERR_OK, s1) ∧ ulist s1 L1 ∧ upcbs (udps s1) !! pcb = Some x1 ∧
        u_local_port x1 ≠ 0 ∧ s1 = set_udps s (udps s1) ∧ udp_sent s1 x1 p b P n f src dst dport r s'
    end.

Lemma sendto_run s live own pcb x L p b l P dst dport nl : ninv s live own → ulist s L → upcbs (udps s) !! pcb = Some x →
  nchain nf_next (netifs s) (netif_list s) nl →
  0 < own p → sendable s p b ((p, b) :: l) → ref b = 1 → content (data (pb s)) ((p, b) :: l) = Some <$> P → is_u32 dst →
  ∃ n r s' live', udp_sendto s pcb p (Some dst) dport = Clean (r, s') ∧ ninv s' live' own ∧ same_links s s' ∧ pcb_route s (u_ip x) dst nl n ∧
    udp_sendto_result s pcb x p b P n dst dport r s'.
Proof.
  intros Hi HL Hx Hnl Hp Hs Hr HP Hds. destruct (upcb_ok _ _ _ _ _ Hi Hx) as [Hpcb [[X1 X2 X3 X4 X5 X6] Y1 Y2 Y3]]. assert (p ≠ NULL) as Hpn.
  { intros ->. pose proof (inv_null _ _ _ (ni_pb _ _ _ Hi)) as Hz. by rewrite (sd_head _ _ _ _ Hs) in Hz. }
  unfold udp_sendto, udp_sendto_result. rewrite (proj2 (Z.eqb_neq pcb NULL)), (proj2 (Z.eqb_neq p NULL)) by done. cbn [orb].
  rewrite (get_upcb_run s pcb x Hx), bind_clean.
  destruct (pcb_route_run s live own (u_ip x) dst nl Hi Hnl) as (n & s1 & -> & Hrt & Hn & H0). rewrite bind_clean. exists n.
  destruct (decide (n = NULL)) as [->|Hn0].
  { change (NULL =? NULL) with true. cbn iota. exists ERR_RTE, (UDP_STATS_INC Rterr s1), live. split; [done|].
    destruct (H0 eq_refl) as [->| ->]; (split; [apply ninv_udp_stat; first [done|by apply ninv_ips]|split; [by split|by split_and!]]). }
  destruct (Hn Hn0) as [-> [f Hf]]. rewrite (proj2 (Z.eqb_neq n NULL)) by done. unfold udp_sendto_if.
  rewrite (proj2 (Z.eqb_neq pcb NULL)), (proj2 (Z.eqb_neq p NULL)), (proj2 (Z.eqb_neq n NULL)) by done. cbn [orb].
  rewrite (get_upcb_run s pcb x Hx), bind_clean. unfold get_netif. rewrite Hf. out_simp.
  assert (∀ src, is_u32 src → ∃ r s' live', udp_sendto_if_src s pcb p (Some dst) dport n (Some src) = Clean (r, s') ∧ ninv s' live' own ∧ same_links s s' ∧
    ∃ s1 x1 L1, udp_auto_bind s pcb = Clean (ERR_OK, s1) ∧ ulist s1 L1 ∧ upcbs (udps s1) !! pcb = Some x1 ∧
      u_local_port x1 ≠ 0 ∧ s1 = set_udps s (udps s1) ∧ udp_sent s1 x1 p b P n f src dst dport r s') as Hgo.
  { intros src Hsr. destruct (sendto_if_src_run s live own pcb x L p b l P n f src dst dport Hi HL Hx Hp Hs Hr HP Hf Hsr Hds)
      as (s1 & x1 & L1 & r & s' & live' & H1 & H2 & H3 & H4 & H5 & H6 & H7 & H8 & H9). exists r, s', live'. split; [done|]. split; [done|]. split; [done|]. by exists s1, x1, L1. }
  pose proof (nf_ok_ip _ (proj2 (lo_netif _ _ _ _ (ni_links _ _ _ Hi) _ _ Hf))) as Hip.
  assert (∀ src, udp_source x f = Some src → is_u32 src) as Hsu by (unfold udp_source; intros src; repeat case_match; congruence).
  assert ((if ip4_addr_isany (local_ip (u_ip x)) || ip4_addr_ismulticast (local_ip (u_ip x))
      then udp_sendto_if_src s pcb p (Some dst) dport n (Some (nf_ip_addr f))
      else if negb (local_ip (u_ip x) =? nf_ip_addr f) then mret (ERR_RTE, s)
      else udp_sendto_if_src s pcb p (Some dst) dport n (Some (local_ip (u_ip x)))) =
    match udp_source x f with Some src => udp_sendto_if_src s pcb p (Some dst) dport n (Some src) | None => mret (ERR_RTE, s) end) as ->
    by (unfold udp_source; by repeat case_match).
  destruct (udp_source x f) as [src|] eqn:Hsrc.
  - destruct (Hgo src (Hsu src eq_refl)) as (r & s' & live' & H1 & H2 & Hl & H3). exists r, s', live'. split; [done|]. split; [done|]. split; [done|]. split; [done|].
    exists f. split; [done|]. by rewrite Hsrc.
  - exists ERR_RTE, s, live. split; [done|]. split; [done|]. split; [done|]. split; [done|]. exists f. split; [done|]. by rewrite Hsrc.
Qed.
End Out.
