(* ===== verification/RawInv.v ===== *)
(** * Raw pcbs

    Which raw pcbs see a received packet, what the operations on raw pcbs do to their list, and that
    they keep the state well formed.  The receive functions are clients; what they
    must do is the class [RawClients]. *)
From S2P Require Import Prelude Def Chksum Stats Iface Ip4Addr Pbuf PbufChain PbufClient PbufData PbufClone Pcb Netif NetInv Links EthOut Region Acd Etharp EtharpInv EtharpTmr EtharpRes EtharpQuery EtharpOut EtharpIn EthIn Ip4Out Ip4OutInv Icmp Udp Raw IcmpInv IcmpEcho IcmpIn Received.

Abbreviation rpcb_list := (list (Z * raw_pcb)).

(** A raw pcb without its link, and the list the program means. *)
Definition rbare (kx : Z * raw_pcb) : Z * raw_pcb := (kx.1, set_r_next kx.2 NULL).
Definition rpcbs_of (L : rpcb_list) : rpcb_list := rbare <$> L.

Definition rbound_to (x : raw_pcb) (ip : Z) : raw_pcb := set_r_ip x (set_local_ip (r_ip x) ip).
Definition rconnected_to (x : raw_pcb) (ip : Z) : raw_pcb :=
  set_r_flags (set_r_ip x (set_remote_ip (r_ip x) ip)) (u8 (Z.lor (r_flags x) RAW_FLAGS_CONNECTED)).
Definition rdisconnected (x : raw_pcb) : raw_pcb :=
  set_r_flags (set_r_ip x (set_netif_idx (set_remote_ip (r_ip x) IPADDR_ANY) NETIF_NO_INDEX)) (clear_flag (r_flags x) RAW_FLAGS_CONNECTED).

Lemma raw_ok_list r : raw_ok r → ∃ L, nlist r_next (rpcbs r) (raw_pcbs r) L.
Proof. intros Hr. destruct (ro_list _ Hr) as (l & Hc). apply chain_nlist in Hc as (L & HL & _). by exists L. Qed.

Lemma raw_ok_intro r L : nlist r_next (rpcbs r) (raw_pcbs r) L →
  (∀ n x, rpcbs r !! n = Some x → n ≠ NULL ∧ raw_pcb_ok x) → (∀ n, n ∈ raw_pool r → n ≠ NULL ∧ rpcbs r !! n = None) →
  NoDup (raw_pool r) → (size (rpcbs r) + length (raw_pool r) = MEMP_NUM_RAW_PCB)%nat → raw_ok r.
Proof. intros HL H1 H2 H3 H4. split; [|done..]. exists L.*1. by apply nlist_chain. Qed.

Section RawInv.
Context {M : Type} `{PM : PbufAlloc M} {E : NetEnv M} {U : IpUpper M}.
Abbreviation pst := (@pst M).
Abbreviation nst := (nst M).

Definition rlist (s : nst) (L : rpcb_list) : Prop := nlist r_next (rpcbs (raws s)) (raw_pcbs (raws s)) L.

Lemma ninv_raws s live own r : ninv s live own → raw_ok r → ninv (set_raws s r) live own.
Proof. intros [? ? ? ? ? ? ? ?] Hr. by split. Qed.

Lemma ninv_rlist s live own : ninv s live own → ∃ L, rlist s L.
Proof. intros Hi. apply (raw_ok_list _ (ni_raw _ _ _ Hi)). Qed.

Lemma rlist_size s live own L : rlist s L → ninv s live own → (length L ≤ raw_fuel s)%nat.
Proof. intros HL Hi. pose proof (nlist_length _ _ _ _ HL). unfold raw_fuel. lia. Qed.

Lemma get_rpcb_run (s : nst) p x : rpcbs (raws s) !! p = Some x → get_rpcb s p = Clean x.
Proof. intros Hx. unfold get_rpcb. by rewrite Hx. Qed.

Definition put_rpcb (s : nst) (p : Z) (x : raw_pcb) : nst := set_raws s (set_rpcbs (raws s) (<[p := x]> (rpcbs (raws s)))).

Lemma upd_rpcb_run (s : nst) p x f : rpcbs (raws s) !! p = Some x → upd_rpcb s p f = Clean (put_rpcb s p (f x)).
Proof. intros Hx. unfold upd_rpcb. rewrite (get_rpcb_run _ _ _ Hx). by out_simp. Qed.

Lemma put_rpcb_lookup (s : nst) p x : rpcbs (raws (put_rpcb s p x)) !! p = Some x.
Proof. apply lookup_insert_eq. Qed.

Lemma upd_rpcb_again (s : nst) p x f : upd_rpcb (put_rpcb s p x) p f = Clean (put_rpcb s p (f x)).
Proof.
  rewrite (upd_rpcb_run _ _ x) by apply put_rpcb_lookup. unfold put_rpcb, set_raws, set_rpcbs. cbn [raws rpcbs raw_pcbs raw_pool].
  by rewrite insert_insert_eq.
Qed.

(** A map of the same structs, with some of them changed. *)
Lemma raw_ok_put r p x x' h L : raw_ok r → rpcbs r !! p = Some x → raw_pcb_ok x' → nlist r_next (<[p := x']> (rpcbs r)) h L →
  raw_ok (RawSt h (<[p := x']> (rpcbs r)) (raw_pool r)).
Proof.
  intros [R1 R2 R3 R4 R5] Hx Hok HL. apply (raw_ok_intro (RawSt h (<[p := x']> (rpcbs r)) (raw_pool r)) L HL); cbn; try done.
  - intros n y [[<- <-]|[_ Hy]]%lookup_insert_Some; [|by apply R2]. split; [|done]. by apply (R2 p x).
  - intros n Hn'. destruct (R3 n Hn') as [? ?]. split; [done|]. rewrite lookup_insert_ne; [done|]. intros ->. congruence.
  - rewrite <- R5. f_equal. apply map_size_insert_Some. by eexists.
Qed.

Lemma put_rpcb_ok s live own L p x x' : ninv s live own → rlist s L → rpcbs (raws s) !! p = Some x → raw_pcb_ok x' → r_next x' = r_next x →
  ninv (put_rpcb s p x') live own ∧ rlist (put_rpcb s p x') (put_at p x' L).
Proof.
  intros Hi HL Hx Hok Hn. pose proof (nlist_put _ _ _ _ p x x' HL Hx Hn) as HL'. split; [|done].
  apply ninv_raws; [done|]. by apply (raw_ok_put _ p x _ _ _ (ni_raw _ _ _ Hi) Hx Hok HL').
Qed.

Lemma rpcb_ok s live own p x : ninv s live own → rpcbs (raws s) !! p = Some x → p ≠ NULL ∧ raw_pcb_ok x.
Proof. intros Hi. apply (ro_pcb _ (ni_raw _ _ _ Hi)). Qed.

(** ** Fields *)

Lemma raw_bind_run s live own p x L ip : ninv s live own → rlist s L → rpcbs (raws s) !! p = Some x → is_u32 ip →
  let s' := put_rpcb s p (rbound_to x ip) in
  raw_bind s p (Some ip) = Clean (ERR_OK, s') ∧ ninv s' live own ∧ rlist s' (put_at p (rbound_to x ip) L).
Proof.
  intros Hi HL Hx Hip s'. destruct (rpcb_ok _ _ _ _ _ Hi Hx) as [Hp [[? ? ? ? ? ?] ? ?]]. split.
  - unfold raw_bind. rewrite (proj2 (Z.eqb_neq p NULL)) by done. by rewrite (upd_rpcb_run _ _ x _ Hx), bind_clean.
  - apply (put_rpcb_ok s live own L p x); try done.
Qed.

Lemma raw_connect_run s live own p x L ip : ninv s live own → rlist s L → rpcbs (raws s) !! p = Some x → is_u32 ip →
  let s' := put_rpcb s p (rconnected_to x ip) in
  raw_connect s p (Some ip) = Clean (ERR_OK, s') ∧ ninv s' live own ∧ rlist s' (put_at p (rconnected_to x ip) L).
Proof.
  intros Hi HL Hx Hip s'. destruct (rpcb_ok _ _ _ _ _ Hi Hx) as [Hp [[? ? ? ? ? ?] ? ?]]. split.
  - unfold raw_connect. rewrite (proj2 (Z.eqb_neq p NULL)) by done. by rewrite (upd_rpcb_run _ _ x _ Hx), bind_clean, upd_rpcb_again, bind_clean.
  - apply (put_rpcb_ok s live own L p x); try done. split; [by split|done|apply u8_range].
Qed.

Lemma raw_disconnect_run s live own p x L : ninv s live own → rlist s L → rpcbs (raws s) !! p = Some x →
  let s' := put_rpcb s p (rdisconnected x) in
  raw_disconnect s p = Clean s' ∧ ninv s' live own ∧ rlist s' (put_at p (rdisconnected x) L).
Proof.
  intros Hi HL Hx s'. destruct (rpcb_ok _ _ _ _ _ Hi Hx) as [Hp [[? ? ? ? ? ?] ? ?]]. split.
  - unfold raw_disconnect. by rewrite (upd_rpcb_run _ _ x _ Hx), bind_clean, upd_rpcb_again, bind_clean, upd_rpcb_again.
  - apply (put_rpcb_ok s live own L p x); try done. split; [by split|done|apply u8_range].
Qed.

(** ** The list *)

(** The pcb behind [L1] becomes the first. *)
Lemma raw_to_front_run s live own L1 p x L2 : ninv s live own → rlist s (L1 ++ (p, x) :: L2) →
  ∃ s' L', raw_to_front s p (default NULL (fst <$> last L1)) = Clean s' ∧ ninv s' live own ∧ rlist s' L' ∧
    rpcbs_of L' = rpcbs_of ((p, x) :: L1 ++ L2) ∧ s' = set_raws s (raws s').
Proof.
  intros Hi HL. destruct L1 as [|[q y] L0 _] using rev_ind; cbn [last fmap option_fmap option_map default from_option].
  - exists s, ((p, x) :: L2). split; [done|]. split; [done|]. split; [done|]. split; [done|]. by destruct s.
  - rewrite last_snoc. cbn [fmap option_fmap option_map default from_option fst id]. rewrite <- !app_assoc in *. cbn [app] in *.
    assert ((p, x) ∈ L0 ++ (q, y) :: (p, x) :: L2) as Hin by (apply elem_of_app; right; right; left).
    destruct (nlist_elem _ _ _ _ _ _ HL Hin) as [Hp Hx]. destruct (nlist_elem _ _ _ _ q y HL) as [Hq Hy]; [apply elem_of_app; right; left|].
    destruct (nlist_unlink r_next set_r_next (λ _ _, eq_refl) _ _ _ _ _ _ _ _ HL) as (HL1 & Hn & Hpq).
    destruct (rpcb_ok _ _ _ _ _ Hi Hx) as [_ Hxok]. destruct (rpcb_ok _ _ _ _ _ Hi Hy) as [_ Hyok].
    unfold raw_to_front. rewrite (proj2 (Z.eqb_neq q NULL)) by done. cbn [negb].
    rewrite (get_rpcb_run s p x), bind_clean, (upd_rpcb_run s q y), bind_clean by done. set (y' := set_r_next y (r_next x)) in *. set (s1 := put_rpcb s q y').
    pose proof (raw_ok_put _ q y y' (raw_pcbs (raws s)) _ (ni_raw _ _ _ Hi) Hy ltac:(by destruct Hyok) HL1) as Hr1.
    assert (rpcbs (raws s1) !! p = Some x) as Hx1 by (cbn; by rewrite lookup_insert_ne). unfold raw_link. rewrite (upd_rpcb_run s1 p x _ Hx1), bind_clean.
    pose proof (nlist_push r_next set_r_next (λ _ _, eq_refl) _ _ _ p x HL1 Hx1 Hp Hn) as HL2.
    eexists _, _. split; [done|]. split; [|split; [exact HL2|]].
    + apply (ninv_raws s live own _ Hi). exact (raw_ok_put _ p x (set_r_next x (raw_pcbs (raws s))) p _ Hr1 Hx1 ltac:(by destruct Hxok) HL2).
    + split; [|done]. unfold rpcbs_of. cbn [fmap list_fmap]. rewrite !fmap_app. done.
Qed.

Lemma raw_unlink_run (s : nst) p L : p ≠ NULL → ∀ fuel h, nlist r_next (rpcbs (raws s)) h L → (length L ≤ fuel)%nat →
  (p ∉ tail L.*1 ∧ raw_unlink fuel s p h = Clean s) ∨
  (∃ L1 q y x L2, L = L1 ++ (q, y) :: (p, x) :: L2 ∧ raw_unlink fuel s p h = Clean (put_rpcb s q (set_r_next y (r_next x)))).
Proof.
  intros Hp. induction L as [|[q y] L IH]; intros fuel h HL Hf.
  { inversion HL; subst. left. split; [apply not_elem_of_nil|]. by destruct fuel. }
  inversion HL as [|? ? ? Hq Hy HL']; subst. destruct fuel as [|fuel]; [cbn in Hf; lia|]. cbn [raw_unlink].
  rewrite (proj2 (Z.eqb_neq q NULL)), (get_rpcb_run _ q y), bind_clean by done.
  destruct (Z.eqb_spec (r_next y) p) as [Hn|Hn].
  - right. rewrite Hn in HL' |- *. rewrite (proj2 (Z.eqb_neq p NULL)) by done. cbn [negb andb].
    apply nlist_nonnull in HL' as (x & L2 & -> & Hx & _); [|done].
    exists [], q, y, x, L2. split; [done|]. by rewrite (get_rpcb_run _ _ x), bind_clean, (upd_rpcb_run _ _ y).
  - rewrite andb_false_r. destruct (IH fuel (r_next y) HL') as [[H1 H2]|(L1 & q' & y' & x & L2 & -> & H2)]; [cbn in Hf; lia|left|right].
    + split; [|done]. cbn [fmap list_fmap fst tail]. destruct L as [|[q' y'] L]; [apply not_elem_of_nil|].
      inversion HL'; subst. cbn [fmap list_fmap fst]. apply not_elem_of_cons. split; [congruence|done].
    + by exists ((q, y) :: L1), q', y', x, L2.
Qed.

Lemma raw_free_ok s live own p x h L : ninv s live own → rpcbs (raws s) !! p = Some x → p ∉ L.*1 → nlist r_next (rpcbs (raws s)) h L →
  let s1 := set_raws s (set_raw_pcbs (raws s) h) in
  ∃ s', raw_memp_free s1 p = Clean s' ∧ ninv s' live own ∧ rlist s' L ∧ rpcbs (raws s') !! p = None ∧ raw_pool (raws s') = p :: raw_pool (raws s) ∧
    s' = set_raws s (raws s').
Proof.
  intros Hi Hx Hn HL s1. destruct (rpcb_ok _ _ _ _ _ Hi Hx) as [Hp _]. unfold raw_memp_free.
  rewrite (get_rpcb_run s1 p x), bind_clean by done. set (r := set_raw_pool _ _). exists (set_raws s r). split; [done|].
  assert (rlist (set_raws s r) L) as HL' by (by apply nlist_delete). split; [|split; [done|split; [apply lookup_delete_eq|done]]].
  apply ninv_raws; [done|]. destruct (ni_raw _ _ _ Hi) as [R1 R2 R3 R4 R5]. apply (raw_ok_intro r L HL'); cbn.
  - intros n y [_ Hy]%lookup_delete_Some. by apply (R2 n).
  - intros n [->|Hin]%elem_of_cons; [split; [done|apply lookup_delete_eq]|]. destruct (R3 n Hin) as [? ?]. split; [done|].
    rewrite lookup_delete_ne; [done|]. intros ->. congruence.
  - constructor; [|done]. intros Hin. destruct (R3 p Hin). congruence.
  - assert (is_Some (rpcbs (raws s) !! p)) as Hsome by (by eexists). pose proof (map_size_delete_Some p _ Hsome) as Hsz.
    pose proof (map_size_ne_0_lookup_2 _ p Hsome). rewrite Hsz. lia.
Qed.

Lemma raw_remove_run s live own p x L : ninv s live own → rlist s L → rpcbs (raws s) !! p = Some x →
  ∃ s' L', raw_remove s p = Clean s' ∧ ninv s' live own ∧ rlist s' L' ∧ rpcbs_of L' = filter (λ kx, kx.1 ≠ p) (rpcbs_of L) ∧
    rpcbs (raws s') !! p = None ∧ raw_pool (raws s') = p :: raw_pool (raws s) ∧
    s' = set_raws s (raws s').
Proof.
  intros Hi HL Hx. destruct (rpcb_ok _ _ _ _ _ Hi Hx) as [Hp _]. pose proof (rlist_size _ _ _ _ HL Hi) as Hf. unfold raw_remove.
  assert (∀ L0 : rpcb_list, p ∉ L0.*1 → filter (λ kx, kx.1 ≠ p) (rpcbs_of L0) = rpcbs_of L0) as Hfil.
  { intros L0. induction L0 as [|[q y] L0 IH]; [done|]. cbn [fmap list_fmap fst]. rewrite not_elem_of_cons. intros [Hq Hn].
    cbn [rpcbs_of fmap list_fmap]. rewrite filter_cons_True by (cbn; congruence). f_equal. by apply IH. }
  pose proof (nlist_NoDup _ _ _ _ HL) as Hnd.
  destruct (Z.eqb_spec (raw_pcbs (raws s)) p) as [Hh|Hh].
  - destruct (nlist_nonnull _ _ _ _ HL) as (y & L0 & -> & Hy & HL0); [congruence|]. rewrite Hh in *. assert (y = x) as -> by congruence.
    rewrite (get_rpcb_run _ _ _ Hx), bind_clean, bind_ret_l. apply NoDup_cons in Hnd as [Hn _]. cbn in Hn.
    destruct (raw_free_ok s live own p x (r_next x) L0 Hi Hx Hn HL0) as (s' & -> & H1 & H2 & H3 & H4 & H5). exists s', L0. split_and!; try done.
    cbn [rpcbs_of fmap list_fmap]. rewrite filter_cons_False by (cbn; congruence). symmetry. by apply Hfil.
  - assert (∀ t : nst, t = set_raws t (set_raw_pcbs (raws t) (raw_pcbs (raws t)))) as Hid by (intros []; cbn; f_equal; by destruct raws).
    destruct (raw_unlink_run s p L Hp (raw_fuel s) _ HL Hf) as [[Hn ->]|(L1 & q & y & x' & L2 & -> & ->)]; rewrite bind_clean.
    + assert (p ∉ L.*1) as Hnl.
      { destruct L as [|[h y] L]; [apply not_elem_of_nil|]. inversion HL; subst. cbn [fmap list_fmap fst]. apply not_elem_of_cons. split; [congruence|done]. }
      destruct (raw_free_ok s live own p x (raw_pcbs (raws s)) L Hi Hx Hnl HL) as (s' & H0 & H1 & H2 & H3 & H4 & H5). rewrite <- Hid in H0.
      exists s', L. split_and!; try done. symmetry. by apply Hfil.
    + destruct (nlist_elem _ _ _ _ p x' HL) as [_ Hx']; [apply elem_of_app; right; right; left|]. assert (x' = x) as -> by congruence.
      destruct (nlist_elem _ _ _ _ q y HL) as [_ Hy]; [apply elem_of_app; right; left|]. destruct (rpcb_ok _ _ _ _ _ Hi Hy) as [_ Hyok].
      destruct (nlist_unlink r_next set_r_next (λ _ _, eq_refl) _ _ _ _ _ _ _ _ HL) as (HL1 & Hn & Hpq). set (y' := set_r_next y (r_next x)) in *.
      assert (ninv (put_rpcb s q y') live own) as Hi1.
      { apply ninv_raws; [done|]. exact (raw_ok_put _ q y y' _ _ (ni_raw _ _ _ Hi) Hy ltac:(by destruct Hyok) HL1). }
      destruct (raw_free_ok (put_rpcb s q y') live own p x (raw_pcbs (raws s)) _ Hi1 ltac:(cbn; by rewrite lookup_insert_ne) Hn HL1) as (s' & H0 & H1 & H2 & H3 & H4 & H5).
      change (raw_pcbs (raws s)) with (raw_pcbs (raws (put_rpcb s q y'))) in H0. rewrite <- Hid in H0.
      exists s', (L1 ++ (q, y') :: L2). split_and!; try done.
      rewrite <- Hfil by done. unfold rpcbs_of. rewrite !fmap_app. cbn [fmap list_fmap]. rewrite !filter_app.
      rewrite !(filter_cons_True _ (rbare (q, _))) by (cbn; congruence). rewrite (filter_cons_False _ (rbare (p, x))) by (cbn; congruence). done.
Qed.

Lemma raw_new_run s live own L proto : ninv s live own → rlist s L → is_u8 proto →
  match raw_pool (raws s) with
  | [] => raw_new s proto = (NULL, s)
  | p :: rest => ∃ s' x, raw_new s proto = (p, s') ∧ ninv s' live own ∧ rlist s' ((p, x) :: L) ∧ p ≠ NULL ∧ rpcbs (raws s) !! p = None ∧
      set_r_next x NULL = set_r_ip (set_r_protocol raw_pcb_zero proto) (set_pcb_ttl ip_pcb_zero RAW_TTL) ∧ raw_pool (raws s') = rest ∧ s' = set_raws s (raws s')
  end.
Proof.
  intros Hi HL Hproto. unfold raw_new. destruct (raw_pool (raws s)) as [|p rest] eqn:Hpool; [done|].
  destruct (ni_raw _ _ _ Hi) as [R1 R2 R3 R4 R5]. rewrite Hpool in *. destruct (R3 p) as [Hp Hx]; [left|].
  set (x := set_r_next _ _). set (r := set_raw_pcbs _ p).
  assert (p ∉ L.*1) as Hn.
  { intros ([q y] & -> & Hin)%list_elem_of_fmap. destruct (nlist_elem _ _ _ _ _ _ HL Hin) as [_ Hy]. cbn in *. congruence. }
  assert (rlist (set_raws s r) ((p, x) :: L)) as HL'.
  { constructor; [done|apply lookup_insert_eq|]. by apply (nlist_insert _ _ _ _ _ _ HL). }
  apply NoDup_cons in R4 as [R4 R4']. eexists _, x. split; [done|]. split; [|done]. apply ninv_raws; [done|]. apply (raw_ok_intro r _ HL'); cbn.
  - intros n y [[<- <-]|[_ Hy]]%lookup_insert_Some; [|by apply (R2 n)]. split; [done|]. by split; [split|..].
  - intros n Hin. destruct (R3 n) as [? ?]; [by right|]. split; [done|]. rewrite lookup_insert_ne; [done|]. by intros ->.
  - done.
  - rewrite <- R5, map_size_insert_None by done. cbn. lia.
Qed.
End RawInv.
