(* ===== verification/RawApi.v ===== *)
(** * Calls of raw clients

    The calls on raw pcbs refine operations on a list of pcbs without links and a stack of free structs. *)
From S2P Require Import Prelude Def Chksum Stats Iface Ip4Addr Pbuf PbufChain PbufClient PbufData PbufClone Pcb Netif NetInv Links EthOut Region Acd Etharp EtharpInv EtharpTmr EtharpRes EtharpQuery EtharpOut EtharpIn EthIn Ip4Out Ip4OutInv Icmp Udp Raw IcmpInv IcmpEcho IcmpIn Received RawInv.

(** ** Specification *)

(** The pcbs in order, and the free structs. *)
Definition raw_spec : Type := rpcb_list * list Z.

Inductive raw_call :=
| RNew (proto : Z)
| RBind (pcb ip : Z)
| RConnect (pcb ip : Z)
| RDisconnect (pcb : Z)
| RRecv (pcb fn arg : Z)
| RRemove (pcb : Z).

Definition raw_fresh (proto : Z) : raw_pcb := set_r_ip (set_r_protocol raw_pcb_zero proto) (set_pcb_ttl ip_pcb_zero RAW_TTL).

(** The struct at [p] is changed by [g]. *)
Definition rupdated (p : Z) (g : raw_pcb → raw_pcb) (A : rpcb_list) : rpcb_list :=
  (λ kx, if decide (kx.1 = p) then (kx.1, g kx.2) else kx) <$> A.

Definition raw_spec_step (σ : raw_spec) (c : raw_call) : Z * raw_spec :=
  let '(A, pool) := σ in
  match c with
  | RNew proto => match pool with [] => (NULL, σ) | p :: rest => (p, ((p, raw_fresh proto) :: A, rest)) end
  | RBind pcb ip => (ERR_OK, (rupdated pcb (λ x, rbound_to x ip) A, pool))
  | RConnect pcb ip => (ERR_OK, (rupdated pcb (λ x, rconnected_to x ip) A, pool))
  | RDisconnect pcb => (0, (rupdated pcb rdisconnected A, pool))
  | RRecv pcb fn arg => (0, (rupdated pcb (λ x, set_r_recv x fn arg) A, pool))
  | RRemove pcb => (0, (filter (λ kx, kx.1 ≠ pcb) A, pcb :: pool))
  end.

(** What the callers respect. *)
Definition raw_allowed (σ : raw_spec) (c : raw_call) : Prop :=
  match c with
  | RNew proto => is_u8 proto
  | RBind pcb ip | RConnect pcb ip => pcb ∈ σ.1.*1 ∧ is_u32 ip
  | RDisconnect pcb | RRecv pcb _ _ | RRemove pcb => pcb ∈ σ.1.*1
  end.

Section RawApi.
Context {M : Type} `{PM : PbufAlloc M} {E : NetEnv M} {U : IpUpper M}.
Abbreviation pst := (@pst M).
Abbreviation nst := (nst M).

Definition raw_exec (s : nst) (c : raw_call) : out (Z * nst) :=
  match c with
  | RNew proto => mret (raw_new s proto)
  | RBind pcb ip => raw_bind s pcb (Some ip)
  | RConnect pcb ip => raw_connect s pcb (Some ip)
  | RDisconnect pcb => s ← raw_disconnect s pcb; mret (0, s)
  | RRecv pcb fn arg => s ← raw_recv s pcb fn arg; mret (0, s)
  | RRemove pcb => s ← raw_remove s pcb; mret (0, s)
  end.

(** The state stands for [σ]. *)
Definition raw_abs (s : nst) (σ : raw_spec) : Prop := ∃ L, rlist s L ∧ rpcbs_of L = σ.1 ∧ raw_pool (raws s) = σ.2.

Lemma rpcbs_of_keys L : (rpcbs_of L).*1 = L.*1.
Proof. unfold rpcbs_of. rewrite <- list_fmap_compose. by apply list_fmap_ext. Qed.

Lemma rpcbs_of_put p x g L : NoDup L.*1 → (p, x) ∈ L → (∀ y n, g (set_r_next y n) = set_r_next (g y) n) →
  rpcbs_of (put_at p (g x) L) = rupdated p g (rpcbs_of L).
Proof.
  intros Hnd Hin Hg. unfold rpcbs_of, put_at, rupdated. rewrite <- !list_fmap_compose. apply list_fmap_ext. intros i [q y] Hi. cbn.
  case_decide as Hq; [|done]. subst q. rewrite Hg. apply list_elem_of_lookup_2 in Hi.
  assert (x = y) as ->; [|done]. apply list_elem_of_lookup in Hin as [j Hj]. apply list_elem_of_lookup in Hi as [k Hk].
  assert (j = k) as ->; [|congruence]. apply (NoDup_lookup _ _ _ p Hnd); rewrite list_lookup_fmap; [by rewrite Hj|by rewrite Hk].
Qed.

(** A call that sets fields of one pcb. *)
Lemma set_refines s live own σ p g r (m : out (Z * nst)) : ninv s live own → raw_abs s σ → p ∈ σ.1.*1 → (∀ y n, g (set_r_next y n) = set_r_next (g y) n) →
  (∀ x L, rlist s L → rpcbs (raws s) !! p = Some x →
     m = Clean (r, put_rpcb s p (g x)) ∧ ninv (put_rpcb s p (g x)) live own ∧ rlist (put_rpcb s p (g x)) (put_at p (g x) L)) →
  ∃ s', m = Clean (r, s') ∧ ninv s' live own ∧ raw_abs s' (rupdated p g σ.1, σ.2) ∧ s' = set_raws s (raws s').
Proof.
  intros Hi (L & HL & HA & Hpool) Hp Hg Hrun. rewrite <- HA, rpcbs_of_keys in Hp. apply list_elem_of_fmap in Hp as ([q x] & -> & Hin). cbn [fst] in *.
  destruct (nlist_elem _ _ _ _ _ _ HL Hin) as [_ Hx]. destruct (Hrun x L HL Hx) as (-> & Hi' & HL'). eexists. split; [done|]. split; [done|].
  split; [|done]. exists (put_at q (g x) L). split; [done|]. split; [|done]. cbn [fst]. rewrite <- HA. apply rpcbs_of_put; [by apply nlist_NoDup in HL|done|done].
Qed.

Lemma raw_recv_run s live own p x L f arg : ninv s live own → rlist s L → rpcbs (raws s) !! p = Some x →
  let s' := put_rpcb s p (set_r_recv x f arg) in
  raw_recv s p f arg = Clean s' ∧ ninv s' live own ∧ rlist s' (put_at p (set_r_recv x f arg) L).
Proof.
  intros Hi HL Hx s'. destruct (rpcb_ok _ _ _ _ _ Hi Hx) as [Hp [[? ? ? ? ? ?] ? ?]]. split; [exact (upd_rpcb_run s p x (λ x, set_r_recv x f arg) Hx)|].
  apply (put_rpcb_ok s live own L p x); try done.
Qed.

Lemma raw_call_refines s live own σ c : ninv s live own → raw_abs s σ → raw_allowed σ c →
  ∃ s', raw_exec s c = Clean ((raw_spec_step σ c).1, s') ∧ ninv s' live own ∧ raw_abs s' (raw_spec_step σ c).2 ∧ s' = set_raws s (raws s').
Proof.
  intros Hi Habs Ha. pose proof Habs as (L & HL & HA & Hpool). destruct σ as [A pool]. cbn [fst snd] in *.
  destruct c as [proto|p ip|p ip|p|p fn arg|p]; cbn [raw_exec raw_allowed raw_spec_step fst snd] in *.
  - pose proof (raw_new_run s live own L proto Hi HL Ha) as Hn. rewrite Hpool in Hn. destruct pool as [|p rest].
    + rewrite Hn. exists s. split_and!; try done. by destruct s.
    + destruct Hn as (s' & x & -> & Hi' & HL' & _ & _ & Hx & Hp' & Hs'). exists s'. split; [done|]. split; [done|]. split; [|done].
      exists ((p, x) :: L). split; [done|]. split; [|done]. change (rpcbs_of ((p, x) :: L)) with ((p, set_r_next x NULL) :: rpcbs_of L). by rewrite Hx, HA.
  - destruct Ha as [Hp Hip]. apply (set_refines s live own (A, pool) p (λ x, rbound_to x ip) ERR_OK _ Hi Habs Hp); [done|].
    intros x L' HL' Hx. by apply raw_bind_run.
  - destruct Ha as [Hp Hip]. apply (set_refines s live own (A, pool) p (λ x, rconnected_to x ip) ERR_OK _ Hi Habs Hp); [done|].
    intros x L' HL' Hx. by apply raw_connect_run.
  - apply (set_refines s live own (A, pool) p rdisconnected 0 _ Hi Habs Ha); [done|]. intros x L' HL' Hx.
    destruct (raw_disconnect_run s live own p x L' Hi HL' Hx) as (-> & H1 & H2). by rewrite bind_clean.
  - apply (set_refines s live own (A, pool) p (λ x, set_r_recv x fn arg) 0 _ Hi Habs Ha); [done|]. intros x L' HL' Hx.
    destruct (raw_recv_run s live own p x L' fn arg Hi HL' Hx) as (-> & H1 & H2). by rewrite bind_clean.
  - rewrite <- HA, rpcbs_of_keys in Ha. apply list_elem_of_fmap in Ha as ([q x] & -> & Hin). cbn [fst] in *. destruct (nlist_elem _ _ _ _ _ _ HL Hin) as [_ Hx].
    destruct (raw_remove_run s live own q x L Hi HL Hx) as (s' & L' & -> & Hi' & HL' & HA' & _ & Hpool' & Hs'). rewrite bind_clean.
    exists s'. split; [done|]. split; [done|]. split; [|done]. exists L'. split; [done|]. cbn [fst snd]. by rewrite HA', HA, Hpool', Hpool.
Qed.

(** Sequences of calls, and their answers. *)
Fixpoint raw_calls (s : nst) (cs : list raw_call) : out (list Z * nst) :=
  match cs with
  | [] => mret ([], s)
  | c :: cs => '(r, s) ← raw_exec s c; '(rs, s) ← raw_calls s cs; mret (r :: rs, s)
  end.

Fixpoint raw_spec_calls (σ : raw_spec) (cs : list raw_call) : list Z * raw_spec :=
  match cs with
  | [] => ([], σ)
  | c :: cs => let '(r, σ) := raw_spec_step σ c in let '(rs, σ) := raw_spec_calls σ cs in (r :: rs, σ)
  end.

Fixpoint raw_calls_allowed (σ : raw_spec) (cs : list raw_call) : Prop :=
  match cs with
  | [] => True
  | c :: cs => raw_allowed σ c ∧ raw_calls_allowed (raw_spec_step σ c).2 cs
  end.

Lemma raw_calls_run live own cs : ∀ s σ, ninv s live own → raw_abs s σ → raw_calls_allowed σ cs →
  ∃ s', raw_calls s cs = Clean ((raw_spec_calls σ cs).1, s') ∧ ninv s' live own ∧ raw_abs s' (raw_spec_calls σ cs).2.
Proof.
  induction cs as [|c cs IH]; intros s σ Hi Habs Ha; cbn [raw_calls raw_spec_calls raw_calls_allowed] in *; [by exists s|].
  destruct Ha as [Ha1 Ha2]. destruct (raw_call_refines s live own σ c Hi Habs Ha1) as (s1 & -> & Hi1 & Habs1 & _). rewrite bind_clean.
  destruct (raw_spec_step σ c) as [r σ1]. cbn [fst snd] in *. destruct (IH s1 σ1 Hi1 Habs1 Ha2) as (s' & -> & Hi' & Habs'). rewrite bind_clean.
  destruct (raw_spec_calls σ1 cs) as [rs σ2]. by exists s'.
Qed.
End RawApi.
