(* ===== verification/RawInput.v ===== *)
(** * Received packets and raw pcbs

    [raw_input] offers a packet to the matching raw pcbs, until one eats it.  The receive functions are
    clients; what they must do is the class [RawClients]. *)
From S2P Require Import Prelude Def Chksum Stats Iface Ip4Addr Pbuf PbufChain PbufClient PbufData PbufClone Pcb Netif NetInv Links EthOut Region Acd Etharp EtharpInv EtharpTmr EtharpRes EtharpQuery EtharpOut EtharpIn EthIn Ip4Out Ip4OutInv Icmp Udp Raw IcmpInv IcmpEcho IcmpIn Received RawInv.

(** A pcb the packet is offered to: [fi] is the interface the packet came in on. *)
Definition raw_accepts (fi : netif) (src dest proto : Z) (broadcast : bool) (x : raw_pcb) : bool :=
  (r_protocol x =? proto) &&
  (((netif_idx (r_ip x) =? NETIF_NO_INDEX) || (netif_idx (r_ip x) =? netif_get_index fi)) &&
   (if broadcast then ip4_addr_isany (local_ip (r_ip x)) else ip4_addr_isany (local_ip (r_ip x)) || (local_ip (r_ip x) =? dest)) &&
   (negb (has_flag (r_flags x) RAW_FLAGS_CONNECTED) || (remote_ip (r_ip x) =? src))).

Definition raw_offered (fi : netif) (src dest proto : Z) (broadcast : bool) (x : raw_pcb) : bool :=
  raw_accepts fi src dest proto broadcast x && negb (r_recv x =? NULL).

Section RawInput.
Context {M : Type} `{PM : PbufAlloc M} {E : NetEnv M} {U : IpUpper M}.
Abbreviation pst := (@pst M).
Abbreviation nst := (nst M).

(** A receive function eats the packet, or leaves it and the list of pcbs alone. *)
Class RawClients : Prop := raw_client_ok fn s live own arg pcb p b l H addr : fn ≠ NULL → ninv s live own → 0 < own p →
  received s p 64 b l → has_hdr s b H → is_Some (rpcbs (raws s) !! pcb) → is_u32 addr →
  ∃ eaten s' live', raw_recv_fn fn s arg pcb p addr = Clean (eaten, s') ∧ same_links s s' ∧
    raw_pcbs (raws s') = raw_pcbs (raws s) ∧ r_next <$> rpcbs (raws s') = r_next <$> rpcbs (raws s) ∧
    (eaten ≠ 0 → ninv s' live' (add_own own p (-1))) ∧
    (eaten = 0 → ninv s' live' own ∧ received s' p 64 b l ∧ has_hdr s' b H ∧ ip_data (ips s') = ip_data (ips s) ∧
       content (data (pb s')) ((p, b) :: l) = content (data (pb s)) ((p, b) :: l)).

Lemma raw_match_run (s : nst) fi x proto bc : netifs s !! current_input_netif (ip_data (ips s)) = Some fi →
  raw_match s x proto bc = Clean (raw_accepts fi (current_iphdr_src (ip_data (ips s))) (current_iphdr_dest (ip_data (ips s))) proto bc x).
Proof.
  intros Hf. unfold raw_match, raw_accepts, raw_input_local_match, get_netif. rewrite Hf. destruct (_ =? proto); [|done].
  destruct (netif_idx _ =? NETIF_NO_INDEX); cbn [negb orb]; out_simp; [|destruct (_ =? netif_get_index _); [|done]].
  all: cbn [negb]; destruct bc; out_simp; done.
Qed.

(** Nobody in [L] is offered the packet. *)
Definition unoffered (s : nst) (fi : netif) (proto : Z) (bc : bool) (L : rpcb_list) : Prop :=
  Forall (λ kx, raw_offered fi (current_iphdr_src (ip_data (ips s))) (current_iphdr_dest (ip_data (ips s))) proto bc kx.2 = false) L.

(** The loop passes over the pcbs in front of the first one that is offered the packet. *)
Lemma raw_skip s fi p proto bc L : netifs s !! current_input_netif (ip_data (ips s)) = Some fi → ∀ L1 fuel h prev ret,
  nlist r_next (rpcbs (raws s)) h (L1 ++ L) → (length (L1 ++ L) ≤ fuel)%nat → unoffered s fi proto bc L1 →
  ∃ fuel' h', nlist r_next (rpcbs (raws s)) h' L ∧ (length L ≤ fuel')%nat ∧
    raw_input_loop fuel s p proto bc h prev ret = raw_input_loop fuel' s p proto bc h' (default prev (fst <$> last L1)) ret.
Proof.
  intros Hfi. induction L1 as [|[q x] L1 IH]; intros fuel h prev ret HL Hf HF; [by exists fuel, h|].
  assert (h = q) as -> by (by inversion HL). inversion HL as [|? ? ? Hq Hx HL']; subst. destruct fuel as [|fuel]; [cbn in Hf; lia|].
  apply Forall_cons in HF as [Hno HF]. cbn [snd] in Hno.
  destruct (IH fuel (r_next x) q ret HL') as (fuel' & h' & H1 & H2 & H3); [cbn in Hf; lia|done|]. exists fuel', h'. split; [done|]. split; [done|].
  cbn [raw_input_loop]. rewrite (proj2 (Z.eqb_neq q NULL)), (get_rpcb_run _ q x), bind_clean by done.
  rewrite (raw_match_run s fi), bind_clean by done. fold (raw_offered fi (current_iphdr_src (ip_data (ips s))) (current_iphdr_dest (ip_data (ips s))) proto bc x).
  rewrite Hno, H3, last_cons. by destruct (last L1).
Qed.

Lemma raw_scan s fi proto bc L : unoffered s fi proto bc L ∨
  ∃ L1 p x L2, L = L1 ++ (p, x) :: L2 ∧ unoffered s fi proto bc L1 ∧
    raw_offered fi (current_iphdr_src (ip_data (ips s))) (current_iphdr_dest (ip_data (ips s))) proto bc x = true.
Proof.
  induction L as [|[p x] L [IH|(L1 & q & y & L2 & -> & H1 & H2)]]; [left; constructor| |].
  - destruct (raw_offered fi (current_iphdr_src (ip_data (ips s))) (current_iphdr_dest (ip_data (ips s))) proto bc x) eqn:Hx; [right|left; by constructor].
    exists [], p, x, L. split; [done|]. split; [constructor|done].
  - destruct (raw_offered fi (current_iphdr_src (ip_data (ips s))) (current_iphdr_dest (ip_data (ips s))) proto bc x) eqn:Hx; right.
    + exists [], p, x, (L1 ++ (q, y) :: L2). split; [done|]. split; [constructor|done].
    + exists ((p, x) :: L1), q, y, L2. split; [done|]. split; [by constructor|done].
Qed.

(** The pcbs of a state in which only a receive function has run. *)
Lemma raw_list_after (s s1 : nst) A q x L : rlist s (A ++ (q, x) :: L) → raw_pcbs (raws s1) = raw_pcbs (raws s) →
  r_next <$> rpcbs (raws s1) = r_next <$> rpcbs (raws s) → ∃ A' x' L', rlist s1 (A' ++ (q, x') :: L') ∧ A'.*1 = A.*1 ∧ L'.*1 = L.*1.
Proof.
  intros HA Hh1 Hn1. pose proof (nchain_links _ _ (rpcbs (raws s1)) _ _ (nlist_chain _ _ _ _ HA) Hn1) as Hc. rewrite <- Hh1 in Hc.
  apply chain_nlist in Hc as (L' & HL' & HkL). rewrite fmap_app in HkL. apply fmap_app_inv in HkL as (A' & B' & HA' & HB' & ->).
  cbn [fmap list_fmap fst] in HB'. destruct B' as [|[q' x'] B']; [done|]. cbn [fmap list_fmap fst] in HB'. injection HB' as -> HB'. by exists A', x', B'.
Qed.

Context `{HR : !RawClients}.

Lemma raw_loop_ok k : ∀ s live own p b l H proto bc fuel h A L prev ret, (length L ≤ k)%nat → ninv s live own → 0 < own p → received s p 64 b l →
  has_hdr s b H → is_Some (netifs s !! current_input_netif (ip_data (ips s))) → is_u32 (current_iphdr_src (ip_data (ips s))) →
  rlist s (A ++ L) → nlist r_next (rpcbs (raws s)) h L → (length L ≤ fuel)%nat → prev = default NULL (fst <$> last A) → ret ≠ RAW_INPUT_EATEN →
  ∃ st s' live', raw_input_loop fuel s p proto bc h prev ret = Clean (st, s') ∧ same_links s s' ∧
    (st = RAW_INPUT_EATEN → ninv s' live' (add_own own p (-1))) ∧
    (st ≠ RAW_INPUT_EATEN → ninv s' live' own ∧ received s' p 64 b l ∧ has_hdr s' b H ∧ ip_data (ips s') = ip_data (ips s) ∧
       content (data (pb s')) ((p, b) :: l) = content (data (pb s)) ((p, b) :: l)) ∧
    (∀ fi, netifs s !! current_input_netif (ip_data (ips s)) = Some fi →
       (st = RAW_INPUT_NONE ↔ ret = RAW_INPUT_NONE ∧ unoffered s fi proto bc L) ∧ (unoffered s fi proto bc L → s' = s)).
Proof.
  induction k as [|k IH]; intros s live own p b l H proto bc fuel h A L prev ret Hk Hi Hp Hrv HH [fi Hfi] Hsu HA HL Hf Hprev Hret;
    (destruct (raw_scan s fi proto bc L) as [HF|(L1 & q & x & L2 & -> & HF & Hoff)]).
  1, 3: destruct (raw_skip s fi p proto bc [] Hfi L fuel h prev ret) as (fuel' & h' & Hn & _ & ->); rewrite ?app_nil_r; try done;
    assert (h' = NULL) as -> by (by inversion Hn);
    assert (∀ g v, raw_input_loop g s p proto bc NULL v ret = Clean (ret, s)) as Hend by (by intros []);
    rewrite Hend; exists ret, s, live; split_and!; try done; intros fi' Hfi'; assert (fi' = fi) as -> by congruence;
    (split; [split; [done|by intros [? _]]|done]).
  { rewrite length_app in Hk. cbn in Hk. lia. }
  destruct (raw_skip s fi p proto bc ((q, x) :: L2) Hfi L1 fuel h prev ret HL Hf HF) as (fuel' & h' & Hn & Hf' & ->).
  assert (h' = q) as -> by (by inversion Hn). inversion Hn as [|? ? ? Hq Hx HL2]; subst. destruct fuel' as [|fuel']; [cbn in Hf'; lia|].
  cbn [raw_input_loop]. rewrite (proj2 (Z.eqb_neq q NULL)), (get_rpcb_run _ q x), bind_clean by done.
  rewrite (raw_match_run s fi), bind_clean by done. fold (raw_offered fi (current_iphdr_src (ip_data (ips s))) (current_iphdr_dest (ip_data (ips s))) proto bc x).
  pose proof Hoff as Hoffq. unfold raw_offered in Hoffq. rewrite Hoff. unfold raw_offered in Hoff. apply andb_prop in Hoff as [_ Hrecv%negb_true_iff%Z.eqb_neq].
  rewrite (get_run (pb s) _ _ (received_head _ _ _ _ _ Hrv)), bind_clean.
  destruct (HR (r_recv x) s live own (r_recv_arg x) q p b l H (current_iphdr_src (ip_data (ips s))) Hrecv Hi Hp Hrv HH) as
    (eaten & s1 & live1 & -> & Hl1 & Hh1 & Hn1 & Heat & Hleave); [by eexists|done|]. rewrite bind_clean.
  rewrite app_assoc in HA. destruct (raw_list_after s s1 (A ++ L1) q x L2 HA Hh1 Hn1) as (A' & x' & L2' & HL' & HkA & HkL).
  assert (∀ fi', netifs s !! current_input_netif (ip_data (ips s)) = Some fi' → ¬ unoffered s fi' proto bc (L1 ++ (q, x) :: L2)) as Hsome.
  { intros fi' Hfi'. assert (fi' = fi) as -> by congruence. intros [_ Hno]%Forall_app. apply Forall_cons in Hno as [Hno _]. cbn [snd] in Hno.
    unfold raw_offered in Hno. by rewrite Hoffq in Hno. }
  destruct (Z.eqb_spec eaten 0) as [He|He]; cbn [negb].
  - destruct (Hleave He) as (Hi1 & Hrv1 & HH1 & Hip1 & Hct1). rewrite (get_run (pb s1) _ _ (received_head _ _ _ _ _ Hrv1)), bind_clean.
    rewrite Z.eqb_refl. out_simp. assert ((q, x') ∈ A' ++ (q, x') :: L2') as Hin by (apply elem_of_app; right; left).
    destruct (nlist_elem _ _ _ _ _ _ HL' Hin) as [_ Hx']. rewrite (get_rpcb_run s1 q x' Hx'), bind_clean.
    pose proof (nlist_suffix _ _ _ _ _ _ _ HL') as Hsuf. inversion Hsuf as [|? ? ? _ _ Hsuf']; subst.
    assert (length L2' = length L2) as Hlen by (by rewrite <- (length_fmap fst L2'), HkL, length_fmap).
    destruct (IH s1 live1 own p b l H proto bc fuel' (r_next x') (A' ++ [(q, x')]) L2' q RAW_INPUT_DELIVERED) as (st & s2 & live2 & E1 & E2 & E3 & E4 & E5); try done.
    + rewrite length_app in Hk. cbn in Hk. lia.
    + rewrite Hip1. by apply (links_netif s).
    + by rewrite Hip1.
    + by rewrite <- app_assoc.
    + cbn in Hf'. lia.
    + by rewrite last_snoc.
    + exists st, s2, live2. split; [done|]. split; [by eapply same_links_trans|]. split; [done|]. split; [|].
      2:{ intros fi' Hfi'. pose proof (Hsome fi' Hfi') as Hsm. split; [|done]. split; [|by intros [_ ?]]. intros Hst.
          destruct (links_netif s s1 (current_input_netif (ip_data (ips s))) Hl1) as [f1 Hf1]; [by exists fi'|]. rewrite <- Hip1 in Hf1. by destruct (proj1 (proj1 (E5 f1 Hf1)) Hst). }
      intros Hst. destruct (E4 Hst) as (F1 & F2 & F3 & F4 & F5).
      split_and!; try done; congruence.
  - specialize (Heat He).
    assert (default (default NULL (fst <$> last A)) (fst <$> last L1) = default NULL (fst <$> last A')) as Hpv.
    { rewrite <- !fmap_last, HkA, fmap_app. destruct L1 as [|y L1 _] using rev_ind; [by rewrite app_nil_r|]. rewrite fmap_app. cbn [fmap list_fmap]. by rewrite app_assoc, !last_snoc. }
    rewrite Hpv. destruct (raw_to_front_run s1 live1 _ A' q x' L2' Heat HL') as (s2 & L3 & -> & Hi2 & _ & _ & Hs2). rewrite bind_clean.
    exists RAW_INPUT_EATEN, s2, live1. split; [done|]. split; [|split; [done|split; [by intros []|]]].
    2:{ intros fi' Hfi'. pose proof (Hsome fi' Hfi') as Hsm. split; [|done]. split; [done|by intros [_ ?]]. }
    apply (same_links_trans _ s1); [done|]. rewrite Hs2. by split.
Qed.

Definition offered_in (s : nst) (fi fc : netif) (H : list Z) (x : raw_pcb) : bool :=
  let dest := current_iphdr_dest (ip_data (ips s)) in
  raw_offered fi (current_iphdr_src (ip_data (ips s))) dest (h_proto H) (ip4_addr_isbroadcast dest fc) x.

(** Whether the packet is offered to [x] in the state [s]. *)
Definition offered_now (s : nst) (proto : Z) (bc : bool) (x : raw_pcb) : bool :=
  match netifs s !! current_input_netif (ip_data (ips s)) with
  | Some fi => raw_offered fi (current_iphdr_src (ip_data (ips s))) (current_iphdr_dest (ip_data (ips s))) proto bc x
  | None => false
  end.

(** The packet [p] is offered to the pcbs in turn: [seen] are those whose receive functions were called, [eater] the one
    that ate it, [s'] the state it left. *)
Inductive offers (p proto : Z) (bc : bool) : nst → list Z → list Z → option Z → nst → Prop :=
| offers_end s : offers p proto bc s [] [] None s
| offers_skip s q x ks seen eater s' : rpcbs (raws s) !! q = Some x → offered_now s proto bc x = false →
    offers p proto bc s ks seen eater s' → offers p proto bc s (q :: ks) seen eater s'
| offers_leave s q x ks s1 seen eater s' : rpcbs (raws s) !! q = Some x → offered_now s proto bc x = true →
    raw_recv_fn (r_recv x) s (r_recv_arg x) q p (current_iphdr_src (ip_data (ips s))) = Clean (0, s1) →
    offers p proto bc s1 ks seen eater s' → offers p proto bc s (q :: ks) (q :: seen) eater s'
| offers_eat s q x ks eaten s1 : rpcbs (raws s) !! q = Some x → offered_now s proto bc x = true →
    raw_recv_fn (r_recv x) s (r_recv_arg x) q p (current_iphdr_src (ip_data (ips s))) = Clean (eaten, s1) → eaten ≠ 0 →
    offers p proto bc s (q :: ks) [q] (Some q) s1.

(** What [raw_input] answers, and the state it leaves: one that ate the packet is at the front of the list [ks]. *)
Definition input_answer (ret : raw_input_state) (seen : list Z) (eater : option Z) : raw_input_state :=
  match eater with Some _ => RAW_INPUT_EATEN | None => if decide (seen = []) then ret else RAW_INPUT_DELIVERED end.
Definition input_left (ks : list Z) (eater : option Z) (s1 s' : nst) : Prop :=
  match eater with
  | None => s' = s1
  | Some q => ∃ L', s' = set_raws s1 (raws s') ∧ rlist s' L' ∧ L'.*1 = q :: filter (.≠ q) ks
  end.

Lemma filter_others (q : Z) (A B : list Z) : NoDup (A ++ q :: B) → filter (.≠ q) (A ++ q :: B) = A ++ B.
Proof.
  intros [H1 [H2 [H3 H4]%NoDup_cons]]%NoDup_app. rewrite filter_app, filter_cons_False by (by intros []).
  f_equal; apply filter_absent; [|done]. intros Hq. apply (H2 q Hq). left.
Qed.

Lemma raw_loop_offers : ∀ L s live own p b l H proto bc fuel h A prev ret, ninv s live own → 0 < own p → received s p 64 b l →
  has_hdr s b H → is_Some (netifs s !! current_input_netif (ip_data (ips s))) → is_u32 (current_iphdr_src (ip_data (ips s))) →
  rlist s (A ++ L) → nlist r_next (rpcbs (raws s)) h L → (length L ≤ fuel)%nat → prev = default NULL (fst <$> last A) →
  ∃ seen eater s1 s', raw_input_loop fuel s p proto bc h prev ret = Clean (input_answer ret seen eater, s') ∧
    offers p proto bc s L.*1 seen eater s1 ∧ input_left (A ++ L).*1 eater s1 s'.
Proof.
  intros L. remember (length L) as k eqn:Hk. revert L Hk.
  induction k as [|k IH]; intros L Hk s live own p b l H proto bc fuel h A prev ret Hi Hp Hrv HH [fi Hfi] Hsu HA HL Hf Hprev.
  { destruct L; [|done]. inversion HL; subst. exists [], None, s, s. split; [by destruct fuel|]. split; [constructor|done]. }
  destruct L as [|[q x] L2]; [done|]. injection Hk as Hk. inversion HL as [|? ? ? Hq Hx HL2]; subst h. subst.
  destruct fuel as [|fuel]; [cbn in Hf; lia|]. cbn [raw_input_loop fmap list_fmap fst].
  rewrite (proj2 (Z.eqb_neq q NULL)), (get_rpcb_run _ q x), bind_clean by done. rewrite (raw_match_run s fi), bind_clean by done.
  fold (raw_offered fi (current_iphdr_src (ip_data (ips s))) (current_iphdr_dest (ip_data (ips s))) proto bc x).
  assert (offered_now s proto bc x = raw_offered fi (current_iphdr_src (ip_data (ips s))) (current_iphdr_dest (ip_data (ips s))) proto bc x) as Hoff
    by (unfold offered_now; by rewrite Hfi). rewrite <- Hoff. destruct (offered_now s proto bc x) eqn:Ho.
  2:{ destruct (IH L2 eq_refl s live own p b l H proto bc fuel (r_next x) (A ++ [(q, x)]) q ret Hi Hp Hrv HH) as (seen & eater & s1 & s' & E1 & E2 & E3); try done.
      - by rewrite <- app_assoc.
      - cbn in Hf. lia.
      - by rewrite last_snoc.
      - exists seen, eater, s1, s'. split; [done|]. split; [by eapply offers_skip|]. by rewrite <- app_assoc in E3. }
  symmetry in Hoff. unfold raw_offered in Hoff. apply andb_prop in Hoff as [_ Hrecv%negb_true_iff%Z.eqb_neq].
  rewrite (get_run (pb s) _ _ (received_head _ _ _ _ _ Hrv)), bind_clean.
  destruct (HR (r_recv x) s live own (r_recv_arg x) q p b l H (current_iphdr_src (ip_data (ips s))) Hrecv Hi Hp Hrv HH) as
    (eaten & s1 & live1 & Hcall & Hl1 & Hh1 & Hn1 & Heat & Hleave); [by eexists|done|]. rewrite Hcall, bind_clean.
  destruct (raw_list_after s s1 A q x L2 HA Hh1 Hn1) as (A' & x' & L2' & HL' & HkA & HkL).
  destruct (Z.eqb_spec eaten 0) as [->|He]; cbn [negb].
  - destruct (Hleave eq_refl) as (Hi1 & Hrv1 & HH1 & Hip1 & Hct1). rewrite (get_run (pb s1) _ _ (received_head _ _ _ _ _ Hrv1)), bind_clean.
    rewrite Z.eqb_refl. out_simp. assert ((q, x') ∈ A' ++ (q, x') :: L2') as Hin by (apply elem_of_app; right; left).
    destruct (nlist_elem _ _ _ _ _ _ HL' Hin) as [_ Hx']. rewrite (get_rpcb_run s1 q x' Hx'), bind_clean.
    pose proof (nlist_suffix _ _ _ _ _ _ _ HL') as Hsuf. inversion Hsuf as [|? ? ? _ _ Hsuf']; subst.
    assert (length L2' = length L2) as Hlen by (by rewrite <- (length_fmap fst L2'), HkL, length_fmap).
    destruct (IH L2' ltac:(done) s1 live1 own p b l H proto bc fuel (r_next x') (A' ++ [(q, x')]) q RAW_INPUT_DELIVERED) as (seen & eater & s2 & s' & E1 & E2 & E3); try done.
    + rewrite Hip1. apply (links_netif s); [done|by eexists].
    + by rewrite Hip1.
    + by rewrite <- app_assoc.
    + cbn in Hf. lia.
    + by rewrite last_snoc.
    + exists (q :: seen), eater, s2, s'. split; [|split].
      * rewrite E1. unfold input_answer. destruct eater; [done|]. by destruct (decide (seen = [])).
      * eapply offers_leave; [done..|]. by rewrite <- HkL.
      * rewrite <- app_assoc in E3. rewrite fmap_app in E3 |- *. cbn [app fmap list_fmap fst] in *. by rewrite <- HkA, <- HkL.
  - assert (default NULL (fst <$> last A) = default NULL (fst <$> last A')) as -> by (by rewrite <- !fmap_last, HkA).
    destruct (raw_to_front_run s1 live1 _ A' q x' L2' (Heat He) HL') as (s3 & L3 & -> & _ & HL3 & HA3 & Hs3). rewrite bind_clean.
    exists [q], (Some q), s1, s3. split; [done|]. split; [by eapply offers_eat|]. exists L3. split; [done|]. split; [done|].
    apply (f_equal (fmap fst)) in HA3. unfold rpcbs_of in HA3. rewrite <- !list_fmap_compose in HA3.
    transitivity ((fst ∘ rbare) <$> L3); [by apply list_fmap_ext|]. rewrite HA3. cbn [fmap list_fmap]. f_equal.
    rewrite (fmap_app fst), <- HkA. cbn [fmap list_fmap fst]. rewrite <- HkL, filter_others.
    + rewrite fmap_app. done.
    + pose proof (nlist_NoDup _ _ _ _ HL') as Hnd. by rewrite fmap_app in Hnd.
Qed.

Lemma raw_input_offers s live own p b l H n fc L : ninv s live own → 0 < own p → received s p 64 b l → has_hdr s b H → ifs_ok s n →
  is_u32 (current_iphdr_src (ip_data (ips s))) → netifs s !! current_netif (ip_data (ips s)) = Some fc → rlist s L →
  ∃ seen eater s1 s', raw_input s p n = Clean (input_answer RAW_INPUT_NONE seen eater, s') ∧
    offers p (h_proto H) (ip4_addr_isbroadcast (current_iphdr_dest (ip_data (ips s))) fc) s L.*1 seen eater s1 ∧ input_left L.*1 eater s1 s'.
Proof.
  intros Hi Hp Hrv HH [_ _ Hfi] Hsu Hfc HL. unfold raw_input, get_netif. rewrite Hfc. out_simp.
  rewrite (get_run (pb s) _ _ (received_head _ _ _ _ _ Hrv)), bind_clean, (hdr_proto s b H HH), bind_clean.
  apply (raw_loop_offers L s live own p b l H _ _ (raw_fuel s) _ []); try done. by eapply rlist_size.
Qed.

(** [raw_input] eats the packet or leaves it alone. *)
Lemma raw_input_ok s live own p b l H n : ninv s live own → 0 < own p → received s p 64 b l → has_hdr s b H → ifs_ok s n →
  is_u32 (current_iphdr_src (ip_data (ips s))) →
  ∃ st s' live', raw_input s p n = Clean (st, s') ∧ same_links s s' ∧
    (st = RAW_INPUT_EATEN → ninv s' live' (add_own own p (-1))) ∧
    (st ≠ RAW_INPUT_EATEN → ninv s' live' own ∧ received s' p 64 b l ∧ has_hdr s' b H ∧ ip_data (ips s') = ip_data (ips s) ∧
       content (data (pb s')) ((p, b) :: l) = content (data (pb s)) ((p, b) :: l)) ∧
    (∀ fi fc L, netifs s !! current_input_netif (ip_data (ips s)) = Some fi → netifs s !! current_netif (ip_data (ips s)) = Some fc → rlist s L →
       let no := Forall (λ kx, offered_in s fi fc H kx.2 = false) L in (st = RAW_INPUT_NONE ↔ no) ∧ (no → s' = s)).
Proof.
  intros Hi Hp Hrv HH [_ [fc Hfc] Hfi] Hsu. destruct (ninv_rlist _ _ _ Hi) as [L HL]. unfold raw_input, get_netif. rewrite Hfc. out_simp.
  rewrite (get_run (pb s) _ _ (received_head _ _ _ _ _ Hrv)), bind_clean, (hdr_proto s b H HH), bind_clean.
  destruct (raw_loop_ok (length L) s live own p b l H (h_proto H) (ip4_addr_isbroadcast (current_iphdr_dest (ip_data (ips s))) fc) (raw_fuel s) (raw_pcbs (raws s)) [] L
    NULL RAW_INPUT_NONE) as (st & s' & live' & H1 & H2 & H3 & H4 & H5); try done; [by eapply rlist_size|]. exists st, s', live'. split_and!; try done.
  intros fi fc' L' Hfi1 Hfc' HL'. assert (fc' = fc) as -> by congruence. assert (L' = L) as -> by (by apply (nlist_det _ _ _ _ _ HL' HL)).
  destruct (H5 fi Hfi1) as [H6 H7]. split; [|done]. rewrite H6. split; [by intros [_ ?]|done].
Qed.
End RawInput.
