(* ===== verification/RawOut.v ===== *)
(** * Sending through raw pcbs

    What [raw_sendto] does with the packet of a caller. *)
From S2P Require Import Prelude Def Chksum Stats Iface Ip4Addr Pbuf PbufChain PbufClient PbufData PbufClone Pcb Netif NetInv Links EthOut Region Acd Etharp EtharpInv EtharpTmr EtharpRes EtharpQuery EtharpOut EtharpIn EthIn Ip4Out Ip4OutInv Icmp Udp Raw IcmpInv IcmpEcho IcmpIn Received UdpInput UdpOut RawInv RawInput.

Section Out.
Context {M : Type} `{PM : PbufAlloc M} {E : NetEnv M} {U : IpUpper M} `{HF : !FragOk}.
Abbreviation pst := (@pst M).
Abbreviation nst := (nst M).

(** The packet at [q] has the data [P] and room for an IP header. *)
Record ip_room (s : nst) (own : Z → Z) (p : Z) (P : list Z) (q : Z) (s' : nst) : Prop := IpRoom {
  ir_null : q ≠ NULL;
  ir_state : s' = set_pb s (pb s');
  ir_data : data (pb s') = data (pb s);
  ir_packet : ∃ live' c l, ninv s' live' (if decide (q = p) then own else add_own own q 1) ∧ sendable s' q c ((q, c) :: l) ∧ ref c = 1 ∧
    content (data (pb s')) ((q, c) :: l) = Some <$> P ∧ add_header_fits q c 20 false }.

Lemma raw_room_run s live own p b l P : ninv s live own → 0 < own p → sendable s p b ((p, b) :: l) → ref b = 1 →
  content (data (pb s)) ((p, b) :: l) = Some <$> P → tot_len b + 20 < 65536 →
  ∃ q s', raw_header_room s p = Clean (q, s') ∧
    ((q = NULL ∧ ¬ add_header_fits p b 20 false ∧ no_memory s PBUF_IP 0 ∧ ninv s' live own ∧ ∃ m, s' = set_pb s (set_pmem (pb s) m)) ∨ ip_room s own p P q s').
Proof.
  intros Hi Hp Hs Hr HP Htot. pose proof (sd_head _ _ _ _ Hs) as Hb. unfold raw_header_room.
  assert (Decision (add_header_fits p b 20 false)) as Hdec by (unfold add_header_fits; apply _).
  destruct (decide (add_header_fits p b 20 false)) as [Hfit|Hnf].
  - destruct (ninv_grow s live own p b 20 Hi Hb ltac:(lia) Hfit) as (Hadd & Hi1 & _).
    rewrite (withp_run s (λ x, pbuf_add_header x p IP_HLEN) _ _ Hadd), bind_clean. change (negb (0 =? 0)) with false. cbn iota.
    set (s1 := set_pb s _) in *. pose proof (i_block _ _ _ (ni_pb _ _ _ Hi) _ _ Hb) as [Hl Ht _ _ _]. pose proof Hfit as (_ & Hf2 & _).
    assert (len b ≤ tot_len b) as Hle by exact (sendable_len _ _ _ _ _ _ Hi Hs). unfold is_u16 in *.
    assert (pbufs (pb s1) !! p = Some (grow b 20)) as Hb1 by apply lookup_insert_eq.
    destruct (ninv_shrink s1 live own p _ 20 Hi1 Hb1) as [Hrm _].
    { cbn [grow len set_tot_len set_len set_payload]. rewrite u16_id by (unfold is_u16; lia). lia. }
    rewrite (withp_run s1 (λ q, pbuf_remove_header q p IP_HLEN) _ _ Hrm), bind_clean. change (negb (0 =? 0)) with false. cbn iota.
    rewrite shrink_grow by (unfold is_u16; lia).
    assert (set_pb s1 (upd (pb s1) p b) = s) as ->.
    { unfold s1, upd, set_pbufs. cbn [pb set_pb pbufs pmem data pbuf_free_ooseq_pending]. rewrite insert_insert_eq, (insert_id _ _ _ Hb). by destruct s as [[]]. }
    exists p, s. split; [done|]. right. split; [|by destruct s|done|].
    + intros ->. by rewrite (inv_null _ _ _ (ni_pb _ _ _ Hi)) in Hb.
    + exists live, b, l. rewrite decide_True by done. by split_and!.
  - rewrite (no_room s live own p b IP_HLEN) by done. rewrite bind_clean. change (negb (1 =? 0)) with true. cbn iota.
    destruct (put_in_front_run s live own p b l P 0 Hi Hp Hs HP) as (q & s' & H & Hcase); [done|lia|]. exists q, s'. split; [exact H|].
    destruct Hcase as [(-> & H1 & H2 & H3)|[H1 H2 H3 H4 (live' & c & l1 & J & H5 & H6 & H7 & H8 & H9 & H10 & H11 & H12 & H13)]]; [left; by split_and!|right].
    destruct J; [|cbn [length] in H10; lia]. cbn [app] in H11. split; [done|done|done|]. exists live', c, l1. rewrite decide_False by done.
    split_and!; try done. pose proof (content_tot _ _ _ _ _ _ _ H5 H6 H11) as Ht. pose proof (content_tot _ _ _ _ _ _ _ Hi Hs HP) as Htb.
    unfold add_header_fits, SIZEOF_STRUCT_PBUF. split_and!; [lia|lia|lia|by intros Hn].
Qed.

(** The IP header of a packet. *)
Definition raw_ip_hdr (a : Z) (s : nst) (x : raw_pcb) (src dst : Z) (P : list Z) : list Z :=
  let hdr c := ip_header (20 + Z.of_nat (length P)) (ip_id (ips s)) (pcb_ttl (r_ip x)) (pcb_tos (r_ip x)) (r_protocol x) c src dst in
  hdr (inet_chksum a (hdr 0)).

(** What [raw_sendto_if_src] answers for the data [P]. *)
Inductive raw_sent (s : nst) (x : raw_pcb) (p : Z) (b : pbuf) (P : list Z) (n : Z) (f : netif) (src dst : Z) (r : Z) (s' : nst) : Prop :=
| rsent_long : 65536 ≤ 20 + Z.of_nat (length P) → r = ERR_MEM → s' = s → raw_sent s x p b P n f src dst r s'
| rsent_nomem : no_memory s PBUF_IP 0 → ¬ add_header_fits p b 20 false → r = ERR_MEM → frames s' = frames s → arp_table s' = arp_table s →
    raw_sent s x p b P n f src dst r s'
| rsent_out a : (nf_mtu f = 0 ∨ 20 + Z.of_nat (length P) ≤ nf_mtu f → packet_sent s n f dst src (raw_ip_hdr a s x src dst P ++ P) s') →
    raw_sent s x p b P n f src dst r s'.

Lemma raw_emit_run s s1 live own p b l P n f q x src dst : ninv s live own → 0 < own p → sendable s p b ((p, b) :: l) →
  content (data (pb s)) ((p, b) :: l) = Some <$> P → ip_room s own p P q s1 → raw_pcb_ok x →
  netifs s !! n = Some f → is_u32 src → is_u32 dst → ∃ r s' live',
  ('(err, s2) ← ip4_output_if s1 q (Some src) (Some dst) (pcb_ttl (r_ip x)) (pcb_tos (r_ip x)) (r_protocol x) n;
   s2 ← (if negb (q =? p) then free_pbuf s2 q else mret s2);
   mret (err, s2)) = Clean (r, s') ∧ ninv s' live' own ∧ same_links s s' ∧ raw_sent s x p b P n f (used_src f (Some src)) dst r s'.
Proof.
  intros Hi Hp Hs HP [Hq Hst Hd (live1 & c & l1 & Hi1 & Hs1 & Hr1 & HP1 & Hfit)] [[X1 X2 X3 X4 X5 X6] Y1 Y2] Hf Hsr Hds.
  set (own1 := if decide (q = p) then own else add_own own q 1) in *.
  assert (0 < own1 q) as Hq1.
  { unfold own1. case_decide as Hqp; [by subst|]. unfold add_own. rewrite decide_True by done. pose proof (ni_own _ _ _ Hi q). lia. }
  assert (netifs s1 !! n = Some f) as Hf1 by (by rewrite Hst).
  destruct (output_if_run s1 live1 own1 q c l1 (Some src) dst (pcb_ttl (r_ip x)) (pcb_tos (r_ip x)) (r_protocol x) n f P Hi1 Hq1 Hs1 Hr1)
    as (r & s2 & live2 & -> & Hi2 & Hl2 & _ & Hyes); try done. rewrite bind_clean.
  pose proof (content_tot _ _ _ _ _ _ _ Hi1 Hs1 HP1) as Ht. assert (same_links s s2) as Hl by (apply (same_links_trans _ s1); [rewrite Hst; split; try done; cbn; by rewrite Hd|done]).
  assert (∀ s3, frames s3 = frames s2 → arp_table s3 = arp_table s2 → raw_sent s x p b P n f (used_src f (Some src)) dst r s3) as Hsent.
  { intros s3 E1 E2. apply (rsent_out _ _ _ _ _ _ _ _ _ _ _ (payload c - 20)). intros Hm.
    assert (packet_sent s1 n f dst (used_src f (Some src)) (raw_ip_hdr (payload c - 20) s x (used_src f (Some src)) dst P ++ P) s2) as Hps.
    { assert (sent_header s1 c (used_src f (Some src)) dst (pcb_ttl (r_ip x)) (pcb_tos (r_ip x)) (r_protocol x) = raw_ip_hdr (payload c - 20) s x (used_src f (Some src)) dst P) as <-.
      { unfold sent_header, raw_ip_hdr. rewrite Ht, (Z.add_comm 20). by rewrite Hst. }
      apply Hyes; [done|]. unfold fits_mtu. destruct Hfit as (_ & Hf2 & _). cbn [grow tot_len set_tot_len].
      rewrite u16_id by (unfold is_u16; lia). rewrite Ht. destruct Hm; [by left|right; lia]. }
    apply (packet_sent_ext s s1) in Hps; [|by rewrite Hst..].
    destruct Hps as (t1 & q1 & b1 & l2 & r1 & t2 & A1 & A2 & A3 & A4 & A5 & A6 & A7 & A8 & A9).
    exists t1, q1, b1, l2, r1, t2. split_and!; try done; congruence. }
  unfold own1 in Hi2. case_decide as Hqp.
  - subst q. rewrite Z.eqb_refl. cbn [negb]. rewrite bind_ret_l. exists r, s2, live2. split_and!; try done. by apply Hsent.
  - rewrite (proj2 (Z.eqb_neq q p)) by done. cbn [negb].
    destruct (free_pbuf_run s2 live2 (add_own own q 1) q Hi2) as (t & live3 & -> & Hi3 & Hd3 & _); [exact Hq1|].
    rewrite bind_clean. exists r, (set_pb s2 t), live3. split; [done|].
    split; [|split; [apply (same_links_trans _ s2); [done|split; try done; cbn; by rewrite Hd3]|by apply Hsent]].
    apply (ninv_own_ext _ _ _ _ Hi3). intros y. unfold add_own. repeat case_decide; lia.
Qed.

(** A packet whose header the caller has written goes out as it is, to the destination in its header. *)
Definition raw_sent_as_is (s : nst) (b : pbuf) (P : list Z) (n : Z) (f : netif) (r : Z) (s' : nst) : Prop :=
  (len b < IP_HLEN ∧ r = ERR_VAL ∧ s' = s) ∨
  (IP_HLEN ≤ len b ∧ (nf_mtu f = 0 ∨ Z.of_nat (length P) ≤ nf_mtu f →
     packet_sent s n f (of_le (take 4 (drop 16 P))) (of_le (take 4 (drop 12 P))) P s')).

Definition raw_src_result (s : nst) (x : raw_pcb) (p : Z) (b : pbuf) (P : list Z) (n : Z) (f : netif) (src dst r : Z) (s' : nst) : Prop :=
  if has_flag (r_flags x) RAW_FLAGS_HDRINCL then raw_sent_as_is s b P n f r s' else raw_sent s x p b P n f (used_src f (Some src)) dst r s'.

Lemma as_is_run s live own p b l P n f src : ninv s live own → 0 < own p → sendable s p b ((p, b) :: l) → ref b = 1 →
  content (data (pb s)) ((p, b) :: l) = Some <$> P → netifs s !! n = Some f → is_u32 src →
  ∃ r s' live', (if len b <? IP_HLEN then mret (ERR_VAL, s) else ip4_output_if s p (Some src) None 0 0 0 n) = Clean (r, s') ∧
    ninv s' live' own ∧ same_links s s' ∧ raw_sent_as_is s b P n f r s'.
Proof.
  intros Hi Hp Hs Hr HP Hf Hsr. destruct (Z.ltb_spec (len b) IP_HLEN) as [Hshort|Hlen].
  { exists ERR_VAL, s, live. split_and!; try done. by left. }
  unfold IP_HLEN in Hlen. pose proof (sd_chain _ _ _ _ Hs) as Hc. pose proof (content_tot _ _ _ _ _ _ _ Hi Hs HP) as Ht.
  assert (∀ k, 0 ≤ k → k + 4 ≤ len b → rd32 s (payload b + k) = Clean (of_le (take 4 (drop (Z.to_nat k) P)))) as Hrd.
  { intros k Hk Hkl. unfold rd32, rd. rewrite (load_val _ _ _ (take 4 (drop (Z.to_nat k) P))); [by out_simp|]. exact (content_field _ _ _ _ _ k 4 HP Hk ltac:(lia) Hkl). }
  pose proof (Hrd 16 ltac:(lia) ltac:(lia)) as Hd. pose proof (Hrd 12 ltac:(lia) ltac:(lia)) as Hsrc.
  change (Z.to_nat 16) with 16%nat in Hd. change (Z.to_nat 12) with 12%nat in Hsrc.
  destruct (output_hdrincl_run s live own p b ((p, b) :: l) (Some src) (of_le (take 4 (drop 16 P))) 0 0 0 n f Hi Hp Hs Hr Hf ltac:(lia) Hd)
    as (r & s' & live' & H & Hi' & Hl & Hyes). exists r, s', live'. split; [done|]. split; [done|]. split; [done|]. right. split; [done|]. intros Hm.
  destruct Hyes as (o & Ho & Hrt); [unfold fits_mtu; by rewrite Ht|]. rewrite Hsrc in Ho. injection Ho as <-.
  exists (IP_STATS_INC Xmit s), p, b, ((p, b) :: l), r, s'. split_and!; try done. by apply sendable_ips.
Qed.

Lemma raw_src_run s live own pcb x p b l P n f src dst : ninv s live own → rpcbs (raws s) !! pcb = Some x →
  0 < own p → sendable s p b ((p, b) :: l) → ref b = 1 → content (data (pb s)) ((p, b) :: l) = Some <$> P → netifs s !! n = Some f → is_u32 src → is_u32 dst →
  ∃ r s' live', raw_sendto_if_src s pcb p (Some dst) n (Some src) = Clean (r, s') ∧ ninv s' live' own ∧ same_links s s' ∧
    raw_src_result s x p b P n f src dst r s'.
Proof.
  intros Hi Hx Hp Hs Hr HP Hf Hsr Hds. destruct (rpcb_ok _ _ _ _ _ Hi Hx) as [Hpcb Hok].
  assert (n ≠ NULL) as Hnn by apply (lo_netif _ _ _ _ (ni_links _ _ _ Hi) _ _ Hf).
  unfold raw_sendto_if_src, raw_src_result. rewrite (proj2 (Z.eqb_neq pcb NULL)), (proj2 (Z.eqb_neq n NULL)) by done. cbn [orb].
  rewrite (get_rpcb_run s pcb x Hx), bind_clean, (get_run _ _ _ (sd_head _ _ _ _ Hs)), bind_clean.
  destruct (has_flag (r_flags x) RAW_FLAGS_HDRINCL); [by apply (as_is_run s live own p b l)|].
  pose proof (content_tot _ _ _ _ _ _ _ Hi Hs HP) as Ht. pose proof (bo_tot _ _ _ (i_block _ _ _ (ni_pb _ _ _ Hi) _ _ (sd_head _ _ _ _ Hs))) as Htu.
  unfold is_u16 in Htu. unfold IP_HLEN. destruct (Z.ltb_spec (u16 (tot_len b + 20)) (tot_len b)) as [Hov|Hov].
  - exists ERR_MEM, s, live. split_and!; try done. apply rsent_long; [|done..]. rewrite <- Ht. revert Hov. unfold u16. width.
  - assert (tot_len b + 20 < 65536) as Hlt by (revert Hov; unfold u16; width).
    destruct (raw_room_run s live own p b l P Hi Hp Hs Hr HP Hlt) as (q & s2 & -> & [(-> & Hnf & Hno & Hi2 & m & ->)|Hroom]); rewrite bind_clean.
    + change (NULL =? NULL) with true. cbn iota. exists ERR_MEM, (set_pb s (set_pmem (pb s) m)), live. split_and!; try done. by apply rsent_nomem.
    + rewrite (proj2 (Z.eqb_neq q NULL)) by (by apply (ir_null _ _ _ _ _ _ Hroom)).
      rewrite (get_rpcb_run s2 pcb x), bind_clean by (rewrite (ir_state _ _ _ _ _ _ Hroom); exact Hx).
      by apply (raw_emit_run s s2 live own p b l P n f q x src dst).
Qed.

(** The source address of a packet. *)
Definition raw_source (x : raw_pcb) (f : netif) : Z :=
  if ip4_addr_isany (local_ip (r_ip x)) || ip4_addr_ismulticast (local_ip (r_ip x)) then nf_ip_addr f else local_ip (r_ip x).

Definition raw_sendto_result (s : nst) (x : raw_pcb) (p : Z) (b : pbuf) (P : list Z) (n dst r : Z) (s' : nst) : Prop :=
  if decide (n = NULL) then r = ERR_RTE ∧ frames s' = frames s ∧ arp_table s' = arp_table s
  else ∃ f, netifs s !! n = Some f ∧ raw_src_result s x p b P n f (raw_source x f) dst r s'.

(** [raw_sendto] looks for its interface as [udp_sendto] does. *)
Lemma raw_sendto_run s live own pcb x p b l P dst nl : ninv s live own → rpcbs (raws s) !! pcb = Some x →
  nchain nf_next (netifs s) (netif_list s) nl →
  0 < own p → sendable s p b ((p, b) :: l) → ref b = 1 → content (data (pb s)) ((p, b) :: l) = Some <$> P → is_u32 dst →
  ∃ n r s' live', raw_sendto s pcb p (Some dst) = Clean (r, s') ∧ ninv s' live' own ∧ same_links s s' ∧ pcb_route s (r_ip x) dst nl n ∧
    raw_sendto_result s x p b P n dst r s'.
Proof.
  intros Hi Hx Hnl Hp Hs Hr HP Hds. destruct (rpcb_ok _ _ _ _ _ Hi Hx) as [Hpcb [[X1 X2 X3 X4 X5 X6] Y1 Y2]].
  unfold raw_sendto, raw_sendto_result. rewrite (proj2 (Z.eqb_neq pcb NULL)) by done.
  rewrite (get_rpcb_run s pcb x Hx), bind_clean.
  destruct (pcb_route_run s live own (r_ip x) dst nl Hi Hnl) as (n & s1 & -> & Hrt & Hn & H0). rewrite bind_clean. exists n.
  destruct (decide (n = NULL)) as [->|Hn0].
  { change (NULL =? NULL) with true. cbn iota. exists ERR_RTE, s1, live. split; [done|].
    destruct (H0 eq_refl) as [->| ->]; (split; [first [done|by apply ninv_ips]|split; [by split|by split_and!]]). }
  destruct (Hn Hn0) as [-> [f Hf]]. rewrite (proj2 (Z.eqb_neq n NULL)) by done. unfold get_netif. rewrite Hf. out_simp.
  pose proof (nf_ok_ip _ (proj2 (lo_netif _ _ _ _ (ni_links _ _ _ Hi) _ _ Hf))) as Hip.
  assert (is_u32 (raw_source x f)) as Hsu by (unfold raw_source; by case_match).
  destruct (raw_src_run s live own pcb x p b l P n f (raw_source x f) dst Hi Hx Hp Hs Hr HP Hf Hsu Hds) as (r & s' & live' & H1 & H2 & H3 & H4).
  exists r, s', live'. split; [exact H1|]. split; [done|]. split; [done|]. split; [done|]. by exists f.
Qed.
End Out.
