(* ===== verification/Ip4.v ===== *)
(** * IPv4 input

    [ip4_input_accept] and [ip4_input] of src/lwip/src/core/ipv4/ip4.c.  Built with [LWIP_RAW],
    [LWIP_UDP], [LWIP_TCP], [LWIP_ICMP], [LWIP_DHCP], [LWIP_AUTOIP], [IP_REASSEMBLY] and
    [IP_OPTIONS_ALLOWED], without [IP_FORWARD], [LWIP_IGMP] and loopback. *)
From S2P Require Import Prelude Def Chksum Stats Iface Ip4Addr Pbuf Pcb Netif EthOut Acd Autoip Etharp Ip4Out Icmp Udp Raw.

Definition IP_OFFMASK : Z := 0x1fff.
Definition IP_MF : Z := 0x2000.
Definition LWIP_IANA_PORT_DHCP_CLIENT : Z := 68.

Section Ip4.
Context {M : Type} `{PM : PbufAlloc M} {E : NetEnv M} {U : IpUpper M}.
Abbreviation nst := (nst M).

Definition ip4_current_dest (s : nst) : Z := current_iphdr_dest (ip_data (ips s)).
Definition ip4_current_src (s : nst) : Z := current_iphdr_src (ip_data (ips s)).

Definition ip4_input_accept (s : nst) (netif : Z) : out bool :=
  f ← get_netif s netif;
  if netif_is_up f && negb (ip4_addr_isany (nf_ip_addr f)) then
    if (ip4_current_dest s =? nf_ip_addr f) || ip4_addr_isbroadcast (ip4_current_dest s) f then mret true
    else autoip_accept_packet s netif (ip4_current_dest s)
  else mret false.

(** The loop over the other interfaces. *)
Fixpoint ip4_input_loop (fuel : nat) (s : nst) (netif inp : Z) : out Z :=
  if netif =? NULL then mret NULL
  else match fuel with
  | O => NoFuel
  | S fuel' =>
      f ← get_netif s netif;
      if netif =? inp then ip4_input_loop fuel' s (nf_next f) inp
      else
        ok ← ip4_input_accept s netif;
        if (ok : bool) then mret netif else ip4_input_loop fuel' s (nf_next f) inp
  end.

(** The interface that accepts the packet, or NULL. *)
Definition ip4_input_netif (s : nst) (inp : Z) : out Z :=
  if ip4_addr_ismulticast (ip4_current_dest s) then
    f ← get_netif s inp;
    mret (if netif_is_up f && negb (ip4_addr_isany (nf_ip_addr f)) then inp else NULL)
  else
    ok ← ip4_input_accept s inp;
    if (ok : bool) then mret inp
    else if negb (ip4_addr_isloopback (ip4_current_dest s))
    then ip4_input_loop (netif_fuel s) s (netif_list s) inp
    else mret NULL.

(** DHCP replies are accepted whatever their address is: the interface and [check_ip_src]. *)
Definition ip4_input_dhcp (s : nst) (netif inp iphdr iphdr_hlen : Z) : out (Z * bool) :=
  if netif =? NULL then
    proto ← rd8 s (iphdr + 9);
    if proto =? IP_PROTO_UDP then
      port ← rd16 s (iphdr + iphdr_hlen + 2);
      mret (if port =? lwip_htons LWIP_IANA_PORT_DHCP_CLIENT then (inp, false) else (netif, true))
    else mret (netif, true)
  else mret (netif, true).

(** A source address no host can have. *)
Definition ip4_bad_source (s : nst) (inp : Z) (check_ip_src : bool) : out bool :=
  if check_ip_src && negb (ip4_addr_isany (ip4_current_src s)) then
    f ← get_netif s inp;
    mret (ip4_addr_isbroadcast (ip4_current_src s) f || ip4_addr_ismulticast (ip4_current_src s))
  else mret false.

(** The switch on the protocol. *)
Definition ip4_deliver (s : nst) (p inp netif iphdr iphdr_hlen : Z) (raw_status : raw_input_state) : out nst :=
  '(_, s) ← withp s (λ q, pbuf_remove_header q p iphdr_hlen);
  proto ← rd8 s (iphdr + 9);
  if proto =? IP_PROTO_UDP then udp_input s p inp
  else if proto =? IP_PROTO_TCP then tcp_input s p inp
  else if proto =? IP_PROTO_ICMP then icmp_input s p inp
  else
    s ← (if decide (raw_status = RAW_INPUT_DELIVERED) then mret s
         else
           f ← get_netif s netif;
           s ← (if negb (ip4_addr_isbroadcast (ip4_current_dest s) f) && negb (ip4_addr_ismulticast (ip4_current_dest s))
                then '(_, s) ← withp s (λ q, pbuf_header_force q p iphdr_hlen);
                     icmp_dest_unreach s p ICMP_DUR_PROTO
                else mret s);
           mret (IP_STATS_INC Drop (IP_STATS_INC Proterr s)));
    free_pbuf s p.

(** The packet is complete and for us: from [ip_data.current_netif = netif] on. *)
Definition ip4_local (s : nst) (p inp netif iphdr iphdr_hlen : Z) : out nst :=
  v ← rd8 s iphdr;
  let s := set_ip_data s (IpGlobals netif inp iphdr (IPH_HL_BYTES v) (ip4_current_src s) (ip4_current_dest s)) in
  '(raw_status, s) ← raw_input s p inp;
  s ← (if decide (raw_status = RAW_INPUT_EATEN) then mret s
       else ip4_deliver s p inp netif iphdr iphdr_hlen raw_status);
  mret (set_ip_data s ip_globals_zero).

(** The header is valid: from [ip_addr_copy_from_ip4] on. *)
Definition ip4_accepted (s : nst) (p inp iphdr iphdr_hlen : Z) : out nst :=
  dest ← rd32 s (iphdr + 16);
  src ← rd32 s (iphdr + 12);
  let g := ip_data (ips s) in
  let s := set_ip_data s (IpGlobals (current_netif g) (current_input_netif g) (current_ip4_header g)
                            (current_ip_header_tot_len g) src dest) in
  netif ← ip4_input_netif s inp;
  '(netif, check_ip_src) ← ip4_input_dhcp s netif inp iphdr iphdr_hlen;
  bad ← ip4_bad_source s inp check_ip_src;
  if (bad : bool) then s ← free_pbuf s p; mret (IP_STATS_INC Drop s)
  else if netif =? NULL then free_pbuf (IP_STATS_INC Drop s) p
  else
    off ← rd16 s (iphdr + 6);
    if negb (Z.land off (lwip_htons (Z.lor IP_OFFMASK IP_MF)) =? 0) then
      '(p, s) ← ip4_reass s p;
      if p =? NULL then mret s
      else b ← get (pb s) p; ip4_local s p inp netif (payload b) iphdr_hlen
    else ip4_local s p inp netif iphdr iphdr_hlen.

(** It always returns [ERR_OK]. *)
Definition ip4_input (s : nst) (p inp : Z) : out nst :=
  let s := IP_STATS_INC Recv s in
  b ← get (pb s) p;
  let iphdr := payload b in
  v ← rd8 s iphdr;
  if negb (IPH_V v =? 4) then s ← free_pbuf s p; mret (IP_STATS_INC Drop (IP_STATS_INC Err s))
  else
    let iphdr_hlen := IPH_HL_BYTES v in
    n ← rd16 s (iphdr + 2);
    let iphdr_len := lwip_htons n in
    s ← (if iphdr_len <? tot_len b
         then q ← pbuf_realloc env_custom_free (pb s) p iphdr_len; mret (set_pb s q)
         else mret s);
    b ← get (pb s) p;
    if (len b <? iphdr_hlen) || (tot_len b <? iphdr_len) || (iphdr_hlen <? IP_HLEN)
    then s ← free_pbuf s p; mret (IP_STATS_INC Drop (IP_STATS_INC Lenerr s))
    else
      hdr ← rd s iphdr iphdr_hlen;
      if negb (inet_chksum iphdr hdr =? 0)
      then s ← free_pbuf s p; mret (IP_STATS_INC Drop (IP_STATS_INC Chkerr s))
      else ip4_accepted s p inp iphdr iphdr_hlen.
End Ip4.
