(* ===== verification/Ip4Inv.v ===== *)
(** * IPv4 input keeps the state well formed

    [ip4_input] consumes every received packet.  What the layers above must do is in the class
    [UdpClients], [RawClients] and
    [TcpOk]. *)
From S2P Require Import Prelude Def Chksum Stats Iface Ip4Addr Pbuf PbufChain PbufClient PbufData PbufClone Pcb Netif NetInv Links EthOut Region Acd Autoip Etharp EtharpInv EtharpTmr EtharpRes EtharpQuery EtharpOut EtharpIn EthIn Ip4Out Ip4OutInv Icmp Udp Raw UdpInv UdpOps UdpIn IcmpInv IcmpEcho IcmpIn Received UdpInput RawInv RawInput Ip4.

Section Ip4Inv.
Context {M : Type} `{PM : PbufAlloc M} {E : NetEnv M} {U : IpUpper M} `{HF : !FragOk}.
Abbreviation pst := (@pst M).
Abbreviation nst := (nst M).

(** ** Cutting off the padding of a frame *)

Lemma mem_ok_shorter (s s' : pst) : mem_ok s → data s' = data s → shorter (pbufs s) (pbufs s') → mem_ok s'.
Proof.
  intros [H1 H2 H3 H4] Hd Hs. split; rewrite ?Hd; try done. intros p b' Hb' Hc.
  destruct (Hs _ _ Hb') as (b & Hb & Ep & Et & El). rewrite Ep. eapply mapped_sub; [apply (H1 p b Hb)|lia|lia].
  unfold contiguous in *. by rewrite <- Et.
Qed.

Lemma lens_bump k l : lens (bump k <$> l) = lens l.
Proof. induction l as [|[q b] l IH]; [done|]. cbn [fmap list_fmap lens bump fst snd]. rewrite IH. done. Qed.

Lemma realloc_received s live own p m b l n : ninv s live own → received s p m b l → 0 ≤ n < tot_len b →
  ∃ q live' b' l', pbuf_realloc env_custom_free (pb s) p n = Clean q ∧ ninv (set_pb s q) live' own ∧
    received (set_pb s q) p m b' l' ∧ payload b' = payload b ∧ data q = data (pb s) ∧ tot_len b' = n ∧
    len b' = Z.min n (len b) ∧ content (data (pb s)) ((p, b') :: l') = take (Z.to_nat n) (content (data (pb s)) ((p, b) :: l)).
Proof.
  intros Hi Hrv Hn. pose proof (received_head _ _ _ _ _ Hrv) as Hb. set (L := (p, b) :: l).
  assert (p ≠ NULL) as Hp by (pose proof (inv_pos _ _ _ _ _ (ni_pb _ _ _ Hi) Hb); unfold NULL; lia).
  assert (lens L = tot_len b) as HL by (symmetry; apply Hrv).
  pose proof (bo_tot _ _ _ (i_block _ _ _ (ni_pb _ _ _ Hi) _ _ Hb)) as Htot. unfold is_u16 in Htot.
  destruct (pbuf_realloc_run env_custom_free (pb s) live _ p L n (ni_pb _ _ _ Hi) Hp (rv_chain _ _ _ _ _ Hrv) (rv_packet _ _ _ _ _ Hrv))
    as (l0 & q0 & bq & l2 & r & s' & live' & log & HLs & Hnr & Hr & Hrun & Hi' & Hd & Hc & Hpk & Hr0 & Hlog & Hsh); [lia|lia|].
  assert (Forall (λ kv : Z * pbuf, type_internal kv.2 = u8 PBUF_POOL) L) as Hpool by apply Hrv.
  pose proof Hpool as Hpool0. rewrite HLs in Hpool0. apply Forall_app in Hpool0 as [Hp0 [Hpq _]%Forall_cons]. cbn in Hpq.
  rewrite Hlog in Hrun by (rewrite Hpq; done).
  assert (∃ b' l', realloc_list (lens L - n) l0 q0 bq r = (p, b') :: l' ∧ payload b' = payload b ∧ len b' = Z.min n (len b) ∧ ref b' = 1 ∧
    type_internal b' = u8 PBUF_POOL ∧ Forall (λ kv : Z * pbuf, type_internal kv.2 = u8 PBUF_POOL) l' ∧ Forall (λ kv : Z * pbuf, 0 < len kv.2) l')
    as (b' & l' & Hl' & Hpay & Hlen & Href & Hty & Htys & Htl).
  { pose proof (rv_ref _ _ _ _ _ Hrv) as Href. unfold L in HLs. destruct l0 as [|[p0 b0] l0]; [injection HLs as <- <- <-|injection HLs as <- <- ->].
    - exists (set_pnext (set_tot_len (set_len b r) r) NULL), []. split; [done|]. cbn [lens] in Hnr. split_and!; try done. cbn [len set_pnext set_tot_len set_len]. lia.
    - pose proof (inv_lens_pos _ _ _ _ _ (ni_pb _ _ _ Hi) (rv_chain _ _ _ _ _ Hrv)) as Hpos. apply Forall_cons in Hpos as [_ Hpos].
      apply Forall_app in Hpos as [Hpos%lens_nonneg _]. cbn [lens] in Hnr. specialize (Hr0 ltac:(done)).
      apply Forall_cons in Hp0 as [Hp0 Hp1]. eexists _, _. split; [done|]. split_and!; try done.
      + cbn [bump fst snd len set_tot_len]. lia.
      + apply Forall_app_2; [|by repeat constructor]. apply Forall_fmap. apply (Forall_impl _ _ _ Hp1). by intros kv.
      + pose proof (rv_tail _ _ _ _ _ Hrv) as Ht. apply Forall_app in Ht as [Ht _].
        apply Forall_app_2; [apply Forall_fmap; apply (Forall_impl _ _ _ Ht); by intros kv|].
        constructor; [done|constructor]. }
  rewrite Hl' in Hc, Hpk. exists s', live', b', l'. split_and!; [done| | |done|done| |done|].
  - destruct Hi as [H1 H2 H3 H4 H5 H6 H7 H8 H9]. split; try done. by apply (mem_ok_shorter (pb s)).
  - split; try done; [by constructor|]. rewrite Hpay. cbn [pb set_pb]. rewrite Hd. apply Hrv.
  - assert (tot_len b' = lens ((p, b') :: l')) as -> by apply Hpk. rewrite <- Hl'. unfold realloc_list.
    rewrite lens_app, lens_bump. cbn [lens len set_pnext set_tot_len set_len]. lia.
  - rewrite <- Hl', Hnr. fold L. rewrite HLs. apply realloc_list_content; [|done].
    pose proof (inv_lens_pos _ _ _ _ _ (ni_pb _ _ _ Hi) (rv_chain _ _ _ _ _ Hrv)) as Hpos. fold L in Hpos. rewrite HLs in Hpos.
    by apply Forall_app in Hpos as [Hpos _].
Qed.

(** ** The layers above

    This program has no raw or TCP pcbs, and its UDP clients (DHCP, DNS, SNTP) free what they
    receive: no packet is kept. *)

(** [tcp_input] is given the packet without its IP header. *)
Class TcpOk : Prop := tcp_input_ok s live own p b l H n : ninv s live own → 0 < own p → received s p 4 b l → current_hdr s p b H → ifs_ok s n →
  ∃ s' live', tcp_input s p n = Clean s' ∧ ninv s' live' (add_own own p (-1)) ∧ same_links s s'.

Context `{HU : !UdpClients} `{HW : !RawClients} `{HT : !TcpOk}.

(** ** Delivery *)

(** The packet is being processed for interface [nif]. *)
Record processing (s : nst) (b : pbuf) (n nif n_hdr : Z) : Prop := Processing {
  pr_in : is_Some (netifs s !! n);
  pr_netif : is_Some (netifs s !! nif);
  pr_current : current_netif (ip_data (ips s)) = nif;
  pr_header : current_ip4_header (ip_data (ips s)) = payload b;
  pr_dest : is_u32 (current_iphdr_dest (ip_data (ips s)));
  pr_src : is_u32 (current_iphdr_src (ip_data (ips s)));
  pr_input : is_Some (netifs s !! current_input_netif (ip_data (ips s)));
  pr_tot : current_ip_header_tot_len (ip_data (ips s)) = n_hdr }.

Lemma strip_current s live own p b l H n nif : ninv s live own → received s p 64 b l → has_hdr s b H →
  processing s b n nif (Z.of_nat (length H)) → let hl := Z.of_nat (length H) in
  current_hdr (set_pb s (upd (pb s) p (shrink_front b hl))) p (shrink_front b hl) H.
Proof.
  intros Hi Hrv [H1 H2 H3 H4] [P1 P2 P3 P4 P5 P6 P7 P8] hl. destruct (received_facts _ _ _ _ _ _ _ Hi Hrv) as (_ & Hc & Hpay & Hlen & Htot).
  assert (payload (shrink_front b hl) - Z.of_nat (length H) = payload b) as Hp by (unfold hl; cbn; lia).
  split; rewrite ?Hp; try done. unfold add_header_fits. rewrite Hp. cbn [shrink_front tot_len set_tot_len]. rewrite u16_id by (unfold is_u16, hl; lia).
  unfold hl. split_and!; done || lia.
Qed.

Lemma unknown_proto s live own p b l H n nif f : ninv s live own → 0 < own p → received s p 64 b l → has_hdr s b H →
  processing s b n nif (Z.of_nat (length H)) → netifs s !! nif = Some f → let hl := Z.of_nat (length H) in
  let s1 := set_pb s (upd (pb s) p (shrink_front b hl)) in
  ∃ s' live', (s ← (if negb (ip4_addr_isbroadcast (ip4_current_dest s1) f) && negb (ip4_addr_ismulticast (ip4_current_dest s1))
                then '(_, s) ← withp s1 (λ q, pbuf_header_force q p hl);
                     icmp_dest_unreach s p ICMP_DUR_PROTO
                else mret s1);
           mret (IP_STATS_INC Drop (IP_STATS_INC Proterr s))) = Clean s' ∧ ninv s' live' own ∧ same_links s1 s'.
Proof.
  intros Hi Hp Hrv HH Hpr Hf hl s1. destruct (strip_hdr s live own p b l H Hi Hrv HH) as (_ & Hi1 & _ & Hforce). fold hl in Hforce, Hi1. fold s1 in Hforce, Hi1.
  destruct (_ && _).
  - rewrite Hforce, bind_clean. pose proof (received_sendable _ _ _ _ _ _ _ Hi Hrv) as Hs.
    destruct (lo_list _ _ _ _ (ni_links _ _ _ Hi)) as [nl Hnl]. destruct (content_some _ _ _ _ _ Hi (rv_chain _ _ _ _ _ Hrv)) as [P HP].
    destruct (send_response_run s live own p b l ICMP_DUR ICMP_DUR_PROTO P nl Hi Hnl Hs) as (s2 & live2 & H2 & Hi2 & Hl2 & _); try done.
    { destruct HH. lia. }
    unfold icmp_dest_unreach. rewrite H2, bind_clean. eexists _, live2. split_and!; [done|by do 2 apply ninv_ips|].
    apply (same_links_trans _ s2); [|by split]. by destruct Hl2.
  - rewrite bind_ret_l. eexists _, live. split_and!; [done|by do 2 apply ninv_ips|by split].
Qed.

Lemma deliver_run s live own p b l H n nif st : ninv s live own → 0 < own p → received s p 64 b l → has_hdr s b H →
  processing s b n nif (Z.of_nat (length H)) → consumes own p s (ip4_deliver s p n nif (payload b) (Z.of_nat (length H)) st).
Proof.
  intros Hi Hp Hrv HH Hpr. set (hl := Z.of_nat (length H)). destruct (strip_hdr s live own p b l H Hi Hrv HH) as (Hrm & Hi1 & Hrv1 & _).
  fold hl in Hrm, Hi1, Hrv1. unfold ip4_deliver. rewrite Hrm, bind_clean. set (s1 := set_pb s _) in *. set (b1 := shrink_front b hl) in *.
  apply (consumes_from _ s1); [by split|]. pose proof (strip_current s live own p b l H n nif Hi Hrv HH Hpr) as Hcur. cbv zeta in Hcur. fold hl b1 s1 in Hcur. destruct Hpr as [P1 P2 P3 P4 P5 P6 P7 P8]. pose proof HH as [H1 H2 H3 H4].
  assert (ifs_ok s1 n) as Hifs by (split; [done| |done]; by rewrite <- P3 in P2).
  pose proof (hdr_proto s b H HH) as Hproto. change (rd8 s) with (rd8 s1) in Hproto.
  rewrite Hproto, bind_clean. set (proto := h_proto H). destruct (proto =? IP_PROTO_UDP); [by apply (udp_input_ok s1 live own p b1 l 4 H)|].
  destruct (proto =? IP_PROTO_TCP); [by eapply tcp_input_ok|]. destruct (proto =? IP_PROTO_ICMP).
  { destruct (content_some _ _ _ _ _ Hi1 (rv_chain _ _ _ _ _ Hrv1)) as [P HP]. destruct P1 as [f Hf]. destruct P2 as [fc Hfc].
    destruct (icmp_input_run s1 live own p b1 l 4 H P n f fc Hi1 Hp Hrv1 Hcur HP Hf) as (s' & live' & E1 & E2 & E3 & _); [by rewrite <- P3 in Hfc|].
    by exists s', live'. }
  destruct P2 as [f Hf]. assert (∀ s2 live2, ninv s2 live2 own → same_links s1 s2 → consumes own p s1 (free_pbuf s2 p)) as Hfree.
  { intros s2 live2 Hi2 Hl2. apply (consumes_from _ s2); [done|]. destruct (free_pbuf_safe s2 live2 own p Hi2 Hp) as (s' & live' & E1 & E2 & E3).
    by exists s', live'. }
  destruct (decide (st = RAW_INPUT_DELIVERED)); [rewrite bind_ret_l; by apply (Hfree s1 live)|].
  unfold get_netif. change (netifs s1) with (netifs s). rewrite Hf. out_simp.
  destruct (unknown_proto s live own p b l H n nif f Hi Hp Hrv HH) as (s' & live' & E1 & E2 & E3); [done..|].
  cbv zeta in E1. fold hl in E1. change (set_pb s _) with s1 in E1, E3. rewrite E1, bind_clean. by apply (Hfree s' live').
Qed.
Lemma local_run s live own p b l H n nif : ninv s live own → 0 < own p → received s p 64 b l → has_hdr s b H →
  is_Some (netifs s !! n) → is_Some (netifs s !! nif) → is_u32 (ip4_current_dest s) → is_u32 (ip4_current_src s) →
  consumes own p s (ip4_local s p n nif (payload b) (Z.of_nat (length H))).
Proof.
  intros Hi Hp Hrv HH Hn Hnif Hd Hs. unfold ip4_local. pose proof HH as [H1 H2 H3 H4].
  rewrite (seg_rd8 s _ _ H H4), bind_clean by lia.
  set (s1 := set_ip_data s _). assert (ninv s1 live own) as Hi1 by (by apply ninv_ips).
  assert (received s1 p 64 b l) as Hrv1 by (by destruct Hrv). assert (has_hdr s1 b H) as HH1 by done.
  assert (ifs_ok s1 n) as Hifs by done. apply (consumes_from _ s1); [by split|].
  destruct (raw_input_ok s1 live own p b l H n Hi1 Hp Hrv1 HH1 Hifs Hs) as (st & s2 & live2 & -> & Hl2 & Heat & Hleave & _). rewrite bind_clean.
  apply (consumes_bind s1 own p _ (λ t, set_ip_data t ip_globals_zero)); [|by intros t; eexists].
  destruct (decide (st = RAW_INPUT_EATEN)) as [Hst|Hst].
  { exists s2, live2. split_and!; [done|by apply Heat|done]. }
  destruct (Hleave Hst) as (Hi2 & Hrv2 & HH2 & Hip & _). apply (consumes_from _ s2); [done|].
  apply (deliver_run s2 live2 own p b l H n nif st Hi2 Hp Hrv2 HH2). split; rewrite ?Hip; try done; by apply (links_netif s1).
Qed.

(** ** Which interface accepts a packet *)

(** The AutoIP client of the interface is bound to [addr]. *)
Definition autoip_bound (s : nst) (f : netif) (addr : Z) : bool :=
  negb (nf_autoip f =? NULL) &&
  match autoips (ifst s) !! nf_autoip f with
  | Some x => (addr =? llipaddr x) && bool_decide (ai_state x = AUTOIP_STATE_BOUND)
  | None => false
  end.

Definition accepts (s : nst) (f : netif) : bool :=
  netif_is_up f && negb (ip4_addr_isany (nf_ip_addr f)) &&
  ((ip4_current_dest s =? nf_ip_addr f) || ip4_addr_isbroadcast (ip4_current_dest s) f || autoip_bound s f (ip4_current_dest s)).

Lemma bound_run (s : nst) n f addr : clients_ok (netifs s) (acds s) (autoips (ifst s)) → netifs s !! n = Some f →
  autoip_is_bound s n addr = Clean (autoip_bound s f addr).
Proof.
  intros Hc Hf. unfold autoip_is_bound, netif_autoip_data, get_netif, autoip_bound. rewrite Hf. out_simp.
  destruct (Z.eqb_spec (nf_autoip f) NULL) as [|Hn]; [done|]. destruct (co_client _ _ _ Hc n f Hf Hn) as [[x Hx] _].
  unfold get_autoip. rewrite Hx. by out_simp.
Qed.

Lemma accept_run (s : nst) n f : clients_ok (netifs s) (acds s) (autoips (ifst s)) → netifs s !! n = Some f →
  ip4_input_accept s n = Clean (accepts s f).
Proof.
  intros Hc Hf. unfold ip4_input_accept, accepts, autoip_accept_packet. rewrite (bound_run _ _ _ _ Hc Hf). unfold get_netif. rewrite Hf. out_simp.
  destruct (_ && _); [|done]. by destruct (_ || _).
Qed.

(** Nobody else in [l] accepts it. *)
Definition refused (s : nst) (inp : Z) (l : list Z) : Prop :=
  ∀ m g, m ∈ l → m ≠ inp → netifs s !! m = Some g → accepts s g = false.

(** The interface [ip4_input] chooses for a packet that came in on [inp]; [l] are all of them in order. *)
Inductive chosen (s : nst) (l : list Z) (inp : Z) (f : netif) : Z → Prop :=
| chosen_multicast : ip4_addr_ismulticast (ip4_current_dest s) = true →
    netif_is_up f = true → ip4_addr_isany (nf_ip_addr f) = false → chosen s l inp f inp
| chosen_down : ip4_addr_ismulticast (ip4_current_dest s) = true →
    netif_is_up f = false ∨ ip4_addr_isany (nf_ip_addr f) = true → chosen s l inp f NULL
| chosen_input : ip4_addr_ismulticast (ip4_current_dest s) = false → accepts s f = true → chosen s l inp f inp
| chosen_other l1 l2 m g : ip4_addr_ismulticast (ip4_current_dest s) = false → accepts s f = false →
    ip4_addr_isloopback (ip4_current_dest s) = false → l = l1 ++ m :: l2 → m ≠ inp → netifs s !! m = Some g →
    accepts s g = true → refused s inp l1 → chosen s l inp f m
| chosen_none : ip4_addr_ismulticast (ip4_current_dest s) = false → accepts s f = false →
    ip4_addr_isloopback (ip4_current_dest s) = true ∨ refused s inp l → chosen s l inp f NULL.

Lemma input_loop_run (s : nst) inp l : clients_ok (netifs s) (acds s) (autoips (ifst s)) → ∀ fuel n, nchain nf_next (netifs s) n l → (length l ≤ fuel)%nat →
  (∃ l1 l2 m g, l = l1 ++ m :: l2 ∧ m ≠ inp ∧ netifs s !! m = Some g ∧ accepts s g = true ∧ refused s inp l1 ∧
     ip4_input_loop fuel s n inp = Clean m) ∨
  (refused s inp l ∧ ip4_input_loop fuel s n inp = Clean NULL).
Proof.
  intros Hcl. induction l as [|m l IH]; intros fuel n Hc Hf.
  - right. split; [by intros m g Hm%elem_of_nil|]. inversion Hc. by destruct fuel.
  - inversion Hc as [|m' f l' Hm Hl Hc']; subst. destruct fuel as [|fuel]; cbn [length] in Hf; [lia|].
    cbn [ip4_input_loop]. rewrite (proj2 (Z.eqb_neq m NULL)) by done. unfold get_netif. rewrite Hl. out_simp.
    assert ((m = inp ∨ accepts s f = false) → (∃ l1 l2 m0 g, m :: l = l1 ++ m0 :: l2 ∧ m0 ≠ inp ∧ netifs s !! m0 = Some g ∧
       accepts s g = true ∧ refused s inp l1 ∧ ip4_input_loop fuel s (nf_next f) inp = Clean m0) ∨
      (refused s inp (m :: l) ∧ ip4_input_loop fuel s (nf_next f) inp = Clean NULL)) as Hrest.
    { intros Hno. assert (∀ l1, refused s inp l1 → refused s inp (m :: l1)) as Hcons.
      { intros l1 Hn x g [->|Hx]%elem_of_cons Hne Hg; [destruct Hno; congruence|by eapply Hn]. }
      destruct (IH fuel (nf_next f) Hc') as [(l1 & l2 & m0 & g & -> & ? & ? & ? & ? & ?)|[? ?]]; [lia|left|right].
      - exists (m :: l1), l2, m0, g. split_and!; try done. by apply Hcons.
      - split; [by apply Hcons|done]. }
    destruct (Z.eqb_spec m inp) as [Heq|Hne]; [by apply Hrest; left|].
    rewrite (accept_run _ _ _ Hcl Hl), bind_clean. destruct (accepts s f) eqn:Ha; [|by apply Hrest; right].
    left. exists [], l, m, f. split_and!; try done. by intros x g Hx%elem_of_nil.
Qed.

Lemma input_netif_run s live own n f nl : ninv s live own → netifs s !! n = Some f → nchain nf_next (netifs s) (netif_list s) nl →
  ∃ m, ip4_input_netif s n = Clean m ∧ chosen s nl n f m ∧ (m ≠ NULL → is_Some (netifs s !! m)).
Proof.
  intros Hi Hf Hnl. unfold ip4_input_netif. destruct (ip4_addr_ismulticast _) eqn:Hmc.
  { unfold get_netif. rewrite Hf. out_simp. destruct (netif_is_up f) eqn:Hu; [destruct (ip4_addr_isany (nf_ip_addr f)) eqn:Ha|]; cbn [andb negb].
    - exists NULL. split_and!; [done| |done]. apply chosen_down; [done|by right].
    - exists n. split_and!; [done|by apply chosen_multicast|by eexists].
    - exists NULL. split_and!; [done| |done]. apply chosen_down; [done|by left]. }
  rewrite (accept_run _ _ _ (ni_auto _ _ _ Hi) Hf), bind_clean. destruct (accepts s f) eqn:Ha.
  { exists n. split_and!; [done|by apply chosen_input|by eexists]. }
  destruct (ip4_addr_isloopback _) eqn:Hlo; cbn [negb].
  { exists NULL. split_and!; [done| |done]. apply chosen_none; [done|done|by left]. }
  destruct (input_loop_run s n nl (ni_auto _ _ _ Hi) (netif_fuel s) _ Hnl) as [(l1 & l2 & m & g & E1 & E2 & E3 & E4 & E5 & ->)|[E1 ->]].
  { unfold netif_fuel. pose proof (nchain_length _ _ _ _ Hnl). lia. }
  - exists m. split_and!; [done|by eapply chosen_other|by eexists].
  - exists NULL. split_and!; [done| |done]. apply chosen_none; [done|done|by right].
Qed.
(** ** [ip4_input] *)

(** The packet is not a fragment. *)
Definition unfragmented (H : list Z) : Prop := Z.land (h_offset H) (lwip_htons (Z.lor IP_OFFMASK IP_MF)) = 0.

(** The packet without what follows it in the frame. *)
Definition trimmed (s : nst) (p n : Z) (b : pbuf) : out nst :=
  if n <? tot_len b then q ← pbuf_realloc env_custom_free (pb s) p n; mret (set_pb s q) else mret s.

(** The packet [b], [l] of [s] is now [b'], [l'], its first [n] bytes. *)
Record cut (s : nst) (own : Z → Z) (p n : Z) (b : pbuf) (l : list (Z * pbuf)) (s' : nst) (b' : pbuf) (l' : list (Z * pbuf)) : Prop := Cut {
  cut_inv : ∃ live', ninv s' live' own;
  cut_received : received s' p 64 b' l';
  cut_payload : payload b' = payload b;
  cut_data : data (pb s') = data (pb s);
  cut_len : len b' = Z.min n (len b);
  cut_tot : tot_len b' = Z.min n (tot_len b);
  cut_content : content (data (pb s')) ((p, b') :: l') = take (Z.to_nat n) (content (data (pb s)) ((p, b) :: l));
  cut_links : same_links s s';
  cut_same : frames s' = frames s ∧ arp_table s' = arp_table s ∧ netifs s' = netifs s ∧
    etharp_cached_entry s' = etharp_cached_entry s ∧ ips s' = ips s;
  cut_pcbs : udps s' = udps s ∧ raws s' = raws s ∧ ifst s' = ifst s }.

Lemma trimmed_run s live own p b l n : ninv s live own → received s p 64 b l → 0 ≤ n →
  ∃ s' b' l', trimmed s p n b = Clean s' ∧ cut s own p n b l s' b' l'.
Proof.
  intros Hi Hrv Hn. unfold trimmed. destruct (Z.ltb_spec n (tot_len b)) as [Hlt|Hge].
  - destruct (realloc_received s live own p 64 b l n Hi Hrv) as (q & live' & b' & l' & -> & Hi' & Hrv' & Hpay & Hd & Ht & Hlen & Hct); [lia|].
    rewrite bind_clean. exists (set_pb s q), b', l'. split; [done|]. split; try done; [by exists live'| |by cbn [pb set_pb]; rewrite Hd|].
    + lia.
    + split; try done. cbn. by rewrite Hd.
  - exists s, b, l. destruct (received_facts _ _ _ _ _ _ _ Hi Hrv) as (_ & _ & _ & Hlen & _). split; [done|]. split; try done; [by exists live|lia|lia|].
    rewrite take_ge; [done|]. rewrite content_length by (eapply inv_lens_pos; [apply Hi|apply Hrv]). pose proof (received_tot _ _ _ _ _ Hrv) as Htot.
    cbn [lens]. lia.
Qed.

(** The packet is dropped, and counted in [fs]. *)
Definition discarded (own : Z → Z) (p : Z) (s : nst) (fs : list proto_field) (m : out nst) : Prop :=
  ∃ s' live', m = Clean s' ∧ ninv s' live' (add_own own p (-1)) ∧ same_links s s' ∧ frames s' = frames s ∧
    arp_table s' = arp_table s ∧ stat_ip (ips s') = foldl (λ st f, proto_inc f st) (stat_ip (ips s)) fs.

Lemma discarded_free s s1 live own p fs (g : nst → nst) : ninv s1 live own → 0 < own p → same_links s s1 → frames s1 = frames s →
  arp_table s1 = arp_table s → (∀ q, (∃ v, g (set_pb s1 q) = set_ips (set_pb s1 q) v) ∧
    stat_ip (ips (g (set_pb s1 q))) = foldl (λ st f, proto_inc f st) (stat_ip (ips s)) fs) →
  discarded own p s fs (s ← free_pbuf s1 p; mret (g s)).
Proof.
  intros Hi Hp Hl Hfr Harp Hg. destruct (free_pbuf_run s1 live own p Hi Hp) as (q & live' & -> & Hi' & Hd & _). rewrite bind_clean.
  destruct (Hg q) as [[v Hv] Hst]. exists (g (set_pb s1 q)), live'. split; [done|]. rewrite Hv in Hst |- *. split_and!; try done; [by apply ninv_ips|].
  eapply same_links_trans; [exact Hl|]. split; try done. cbn. by rewrite Hd.
Qed.

(** The total length of a header, and the checks [ip4_input] makes. *)
Definition h_len (L : list Z) : Z := lwip_htons (of_le (take 2 (drop 2 L))).
Definition h_hlen (L : list Z) : Z := IPH_HL_BYTES (hd 0 L).
Definition hdr_valid (b : pbuf) (L : list Z) : Prop :=
  IPH_V (hd 0 L) = 4 ∧ 20 ≤ h_hlen L ≤ len b ∧ h_hlen L ≤ h_len L ≤ tot_len b ∧ verifies (take (Z.to_nat (h_hlen L)) L).

(** What a packet that is not valid is counted as. *)
Definition hdr_error (b : pbuf) (L : list Z) : proto_field :=
  if decide (IPH_V (hd 0 L) ≠ 4) then Err
  else if decide (len b < h_hlen L ∨ h_len L < h_hlen L ∨ tot_len b < h_len L ∨ h_hlen L < 20) then Lenerr else Chkerr.

Lemma h_hlen_range L : 0 ≤ h_hlen L ≤ 60.
Proof.
  unfold h_hlen, IPH_HL_BYTES. change 0x0f with (Z.ones 4). rewrite Z.land_ones by lia. pose proof (Z.mod_pos_bound (hd 0 L) (2 ^ 4)).
  rewrite u8_id by (unfold is_u8; lia). lia.
Qed.

Lemma input_hdr s live own p b l n L : ninv s live own → 0 < own p → received s p 64 b l →
  seg (data (pb s)) (payload b) 64 = Some <$> L →
  (¬ hdr_valid b L ∧ discarded own p s [Recv; hdr_error b L; Drop] (ip4_input s p n)) ∨
  (hdr_valid b L ∧ ∃ s1 b1 l1, cut (IP_STATS_INC Recv s) own p (h_len L) b l s1 b1 l1 ∧ has_hdr s1 b1 (take (Z.to_nat (h_hlen L)) L) ∧
     ip4_input s p n = ip4_accepted s1 p n (payload b1) (h_hlen L)).
Proof.
  intros Hi Hp Hrv HL. unfold ip4_input. set (s0 := IP_STATS_INC Recv s). assert (ninv s0 live own) as Hi0 by (by apply ninv_ips).
  assert (received s0 p 64 b l) as Hrv0 by (by destruct Hrv). pose proof (h_hlen_range L) as Hhl.
  assert (Z.of_nat (length L) = 64) as HLl by (apply (f_equal length) in HL; rewrite length_fmap, seg_length in HL; lia).
  rewrite (get_run _ _ _ (received_head _ _ _ _ _ Hrv0)), bind_clean. rewrite (seg_rd8 s0 (payload b) 64 L) by (done || lia). rewrite bind_clean.
  destruct (Z.eqb_spec (IPH_V (hd 0 L)) 4) as [Hv|Hv]; cbn [negb].
  2:{ left. split; [by intros [? _]|]. unfold hdr_error. rewrite decide_True by done. apply (discarded_free s s0 live own p _ (λ t, IP_STATS_INC Drop (IP_STATS_INC Err t))); try done.
      intros q. split; [by eexists|done]. }
  fold (h_hlen L). assert (rd16 s0 (payload b + 2) = Clean (of_le (take 2 (drop 2 L)))) as ->.
  { unfold rd16, rd. change (Z.to_nat 2) with 2%nat. rewrite (load_val 2 _ _ (take 2 (drop 2 L))); [by out_simp|].
    rewrite fmap_take, fmap_drop, <- HL. rewrite (seg_split _ _ 64 2) by lia. rewrite drop_app_length' by (rewrite seg_length; lia).
    change (64 - 2) with 62. rewrite (seg_split _ _ 62 2) by lia. by rewrite take_app_length' by (rewrite seg_length; lia). }
  rewrite bind_clean. fold (h_len L). change (if h_len L <? tot_len b then _ else _) with (trimmed s0 p (h_len L) b).
  assert (0 ≤ h_len L) as Hn0 by apply (lwip_htons_range (of_le (take 2 (drop 2 L)))).
  destruct (trimmed_run s0 live own p b l (h_len L) Hi0 Hrv0 Hn0) as (s1 & b1 & l1 & -> & Hcut). rewrite bind_clean.
  pose proof Hcut as [(live1 & Hi1) Hrv1 Hpay Hd1 Hlen1 Htot1 Hct1 Hl1 (Hfr1 & Harp1 & _ & _ & Hip1)].
  rewrite (get_run _ _ _ (received_head _ _ _ _ _ Hrv1)), bind_clean.
  assert (∀ f, discarded own p s [Recv; f; Drop] (s ← free_pbuf s1 p; mret (IP_STATS_INC Drop (IP_STATS_INC f s)))) as Hdrop.
  { intros f. apply (discarded_free s s1 live1 own p _ (λ t, IP_STATS_INC Drop (IP_STATS_INC f t))); try done; [by apply (same_links_trans _ s0); [split|]|].
    intros q. split; [by eexists|]. cbn [foldl]. unfold IP_STATS_INC. cbn [ips set_ips stat_ip set_pb]. by rewrite Hip1. }
  destruct (_ || _) eqn:Hbad.
  { assert (len b < h_hlen L ∨ h_len L < h_hlen L ∨ tot_len b < h_len L ∨ h_hlen L < 20) as Hl.
    { apply orb_prop in Hbad as [[H3%Z.ltb_lt|H3%Z.ltb_lt]%orb_prop|H3%Z.ltb_lt]; unfold IP_HLEN in *; lia. }
    left. split; [intros (_ & H1 & H2 & _); lia|]. unfold hdr_error. rewrite decide_False, decide_True by tauto. apply Hdrop. }
  apply orb_false_elim in Hbad as [[Hb1%Z.ltb_ge Hb2%Z.ltb_ge]%orb_false_elim Hb3%Z.ltb_ge]. unfold IP_HLEN in Hb3.
  set (H := take (Z.to_nat (h_hlen L)) L). assert (Z.of_nat (length H) = h_hlen L) as HHl by (unfold H; rewrite length_take; lia).
  assert (Some <$> H = seg (data (pb s1)) (payload b1) (h_hlen L)) as HH.
  { unfold H. rewrite fmap_take, <- HL, Hd1, Hpay. rewrite (seg_split _ _ 64 (h_hlen L)) by lia. by rewrite take_app_length' by (rewrite seg_length; lia). }
  assert (bytes H) as HB by exact (seg_bytes _ _ _ _ (mo_bytes _ (ni_mem _ _ _ Hi1)) (eq_sym HH)).
  unfold rd. rewrite (load_val _ _ _ H) by (rewrite <- Hpay, Z2Nat.id by lia; exact HH). rewrite bind_clean.
  pose proof (inet_chksum_zero (payload b) H HB ltac:(lia)) as Hck.
  destruct (Z.eqb_spec (inet_chksum (payload b) H) 0) as [Hz|Hnz]; cbn [negb].
  2:{ left. split; [|unfold hdr_error; rewrite !decide_False by (tauto || lia); apply Hdrop]. intros (_ & _ & _ & Hver). by apply Hnz, Hck. }
  right. split; [split_and!; try done; try lia; by apply Hck|]. exists s1, b1, l1. split; [done|]. split; [|by rewrite Hpay].
  assert (hd 0 H = hd 0 L) as Hhd by (unfold H; destruct L as [|x L']; [by rewrite take_nil|]; destruct (Z.to_nat (h_hlen (x :: L'))) eqn:?; [lia|done]).
  split; [lia|by rewrite Hhd, HHl|lia|by rewrite HHl].
Qed.

(** [ip_data] has the addresses of the header. *)
Definition addressed (s : nst) (H : list Z) : nst :=
  let g := ip_data (ips s) in
  set_ip_data s (IpGlobals (current_netif g) (current_input_netif g) (current_ip4_header g) (current_ip_header_tot_len g) (h_src H) (h_dest H)).

(** The source is a broadcast or multicast address. *)
Definition bad_source (f : netif) (src : Z) : bool :=
  negb (ip4_addr_isany src) && (ip4_addr_isbroadcast src f || ip4_addr_ismulticast src).

(** A message to the DHCP client: [port] is the destination port. *)
Definition to_dhcp (H : list Z) (port : Z) : Prop := h_proto H = IP_PROTO_UDP ∧ port = lwip_htons LWIP_IANA_PORT_DHCP_CLIENT.

(** The interface for which a packet with header [H] from [n] is processed, if any. *)
Inductive fate (s : nst) (l : list Z) (n : Z) (f : netif) (H : list Z) (port : Z) : option Z → Prop :=
| fate_us m : chosen s l n f m → m ≠ NULL → bad_source f (h_src H) = false → fate s l n f H port (Some m)
| fate_dhcp : chosen s l n f NULL → to_dhcp H port → fate s l n f H port (Some n)
| fate_source m : chosen s l n f m → m ≠ NULL ∨ ¬ to_dhcp H port → bad_source f (h_src H) = true → fate s l n f H port None
| fate_other : chosen s l n f NULL → ¬ to_dhcp H port → bad_source f (h_src H) = false → fate s l n f H port None.

(** The rest of [ip4_input] once an interface has been found. *)
Definition input_rest (s : nst) (p n m : Z) (b : pbuf) (H : list Z) : out nst :=
  if decide (unfragmented H) then ip4_local s p n m (payload b) (Z.of_nat (length H))
  else
    '(p, s) ← ip4_reass s p;
    if p =? NULL then mret s
    else b ← get (pb s) p; ip4_local s p n m (payload b) (Z.of_nat (length H)).

Lemma accepted_cases s live own p b l H n f nl port : ninv s live own → 0 < own p → received s p 64 b l → has_hdr s b H →
  netifs s !! n = Some f → nchain nf_next (netifs s) (netif_list s) nl → rd16 s (payload b + Z.of_nat (length H) + 2) = Clean port →
  ∃ o, fate (addressed s H) nl n f H port o ∧
    match o with
    | None => discarded own p s [Drop] (ip4_accepted s p n (payload b) (Z.of_nat (length H)))
    | Some m => is_Some (netifs s !! m) ∧
        ip4_accepted s p n (payload b) (Z.of_nat (length H)) = input_rest (addressed s H) p n m b H
    end.
Proof.
  intros Hi Hp Hrv HH Hf Hnl Hport. unfold ip4_accepted. rewrite (hdr_dest _ _ _ HH), bind_clean, (hdr_src _ _ _ HH), bind_clean.
  fold (addressed s H). set (s1 := addressed s H). assert (ninv s1 live own) as Hi1 by (by apply ninv_ips).
  assert (has_hdr s1 b H) as HH1 by (by destruct HH).
  destruct (input_netif_run s1 live own n f nl Hi1 Hf Hnl) as (m & -> & Hch & Hm). rewrite bind_clean.
  set (dh := (m =? NULL) && (h_proto H =? IP_PROTO_UDP) && (port =? lwip_htons LWIP_IANA_PORT_DHCP_CLIENT)).
  assert (ip4_input_dhcp s1 m n (payload b) (Z.of_nat (length H)) = Clean (if dh then (n, false) else (m, true))) as ->.
  { unfold ip4_input_dhcp, dh. destruct (m =? NULL); [|done]. rewrite (hdr_proto s1 b H HH1), bind_clean.
    destruct (_ =? IP_PROTO_UDP); [|done]. change (rd16 s1) with (rd16 s). rewrite Hport, bind_clean. by destruct (_ =? _). }
  rewrite bind_clean.
  assert (∀ c, ip4_bad_source s1 n c = Clean (c && bad_source f (h_src H))) as Hbad.
  { intros c. unfold ip4_bad_source, bad_source. change (ip4_current_src s1) with (h_src H). destruct c; [|done].
    destruct (negb _); [|done]. cbn [andb]. unfold get_netif. change (netifs s1) with (netifs s). rewrite Hf. by out_simp. }
  assert (∀ m', m' ≠ NULL → (if m' =? NULL then free_pbuf (IP_STATS_INC Drop s1) p
     else off ← rd16 s1 (payload b + 6);
       if negb (Z.land off (lwip_htons (Z.lor IP_OFFMASK IP_MF)) =? 0)
       then '(p, s) ← ip4_reass s1 p; if p =? NULL then mret s else b ← get (pb s) p; ip4_local s p n m' (payload b) (Z.of_nat (length H))
       else ip4_local s1 p n m' (payload b) (Z.of_nat (length H))) = input_rest s1 p n m' b H) as Hrest.
  { intros m' Hm'. rewrite (proj2 (Z.eqb_neq m' NULL)), (hdr_offset s1 b H HH1), bind_clean by done. unfold input_rest, unfragmented.
    case_decide as Hd; [by rewrite (proj2 (Z.eqb_eq _ _) Hd)|by rewrite (proj2 (Z.eqb_neq _ _) Hd)]. }
  destruct dh eqn:Hdh; unfold dh in Hdh.
  - apply andb_prop in Hdh as [[H1%Z.eqb_eq H2%Z.eqb_eq]%andb_prop H3%Z.eqb_eq]. subst m. exists (Some n). rewrite Hbad, bind_clean. cbn [andb].
    assert (n ≠ NULL) as Hn by apply (lo_netif _ _ _ _ (ni_links _ _ _ Hi) _ _ Hf).
    split; [by apply fate_dhcp|]. split; [by eexists|]. by apply Hrest.
  - rewrite Hbad, bind_clean. cbn [andb]. assert (m ≠ NULL ∨ ¬ to_dhcp H port) as Hnd.
    { destruct (Z.eqb_spec m NULL); [|by left]. right. intros [H1 H2]. rewrite H1, H2, !Z.eqb_refl in Hdh. done. }
    destruct (bad_source f (h_src H)) eqn:Hbs.
    { exists None. split; [by eapply fate_source|]. apply (discarded_free s s1 live own p _ (IP_STATS_INC Drop)); try done. intros q. split; [by eexists|done]. }
    destruct (decide (m = NULL)) as [->|Hm0].
    + exists None. destruct Hnd as [|Hnd]; [done|]. split; [by apply fate_other|]. change (NULL =? NULL) with true. cbn iota.
      destruct (free_pbuf_run (IP_STATS_INC Drop s1) live own p) as (q & live' & -> & Hi' & Hd & _); [by apply ninv_ips|done|].
      eexists _, live'. split_and!; try done. split; try done. cbn. by rewrite Hd.
    + exists (Some m). split; [by apply fate_us|]. split; [by apply Hm|]. by apply Hrest.
Qed.

Lemma rest_run s live own p b l H n m : ninv s live own → 0 < own p → received s p 64 b l → has_hdr s b H →
  is_Some (netifs s !! n) → is_Some (netifs s !! m) → unfragmented H →
  consumes own p s (input_rest (addressed s H) p n m b H).
Proof.
  intros Hi Hp Hrv HH Hn Hm Hfr. destruct (hdr_addr_u32 _ _ _ _ _ Hi HH) as [Hsu Hdu].
  set (s1 := addressed s H). assert (ninv s1 live own) as Hi1 by (by apply ninv_ips). apply (consumes_from _ s1); [by split|].
  assert (received s1 p 64 b l) as Hrv1 by (by destruct Hrv). assert (has_hdr s1 b H) as HH1 by (by destruct HH).
  unfold input_rest. rewrite decide_True by done. by eapply local_run.
Qed.

Lemma discarded_consumes own p s fs m : discarded own p s fs m → consumes own p s m.
Proof. intros (s' & live' & H1 & H2 & H3 & _). by exists s', live'. Qed.

Lemma ip4_input_run s live own p b l n L : ninv s live own → 0 < own p → received s p 64 b l → is_Some (netifs s !! n) →
  seg (data (pb s)) (payload b) 64 = Some <$> L → (hdr_valid b L → unfragmented L) → consumes own p s (ip4_input s p n).
Proof.
  intros Hi Hp Hrv [f Hf] HL Hfr. destruct (input_hdr s live own p b l n L Hi Hp Hrv HL) as [(_ & Hd)|(Hv & s1 & b1 & l1 & Hcut & HH & ->)].
  { by eapply discarded_consumes. }
  pose proof Hcut as [(live1 & Hi1) Hrv1 Hpay Hd1 _ _ _ Hl1 (_ & _ & Hnet1 & _ & _)]. set (H := take (Z.to_nat (h_hlen L)) L) in *.
  apply (consumes_from _ s1); [by apply (same_links_trans _ (IP_STATS_INC Recv s)); [split|]|].
  pose proof HH as [HHl _ _ _]. assert (Z.of_nat (length H) = h_hlen L) as HHe.
  { pose proof (h_hlen_range L). apply (f_equal length) in HL. rewrite length_fmap, seg_length in HL. unfold H. rewrite length_take. lia. }
  destruct (lo_list _ _ _ _ (ni_links _ _ _ Hi1)) as [nl Hnl].
  destruct (rd16_some s1 (payload b1 + Z.of_nat (length H) + 2)) as [port Hport].
  { eapply mapped_sub; [apply (rv_mapped _ _ _ _ _ Hrv1)|lia..]. }
  assert (netifs s1 !! n = Some f) as Hf1 by (by rewrite Hnet1). rewrite <- HHe.
  destruct (accepted_cases s1 live1 own p b1 l1 H n f nl port Hi1 Hp Hrv1 HH Hf1 Hnl Hport) as (o & _ & Hcase).
  destruct o as [m|]; [|by eapply discarded_consumes]. destruct Hcase as [Hm ->].
  apply (rest_run s1 live1 own p b1 l1); try done. pose proof (Hfr Hv) as Hun.
  unfold unfragmented, h_offset in *. unfold H. rewrite skipn_firstn_comm. rewrite take_take.
  replace (2 `min` (Z.to_nat (h_hlen L) - 6))%nat with 2%nat by lia. exact Hun.
Qed.
End Ip4Inv.

(** ** [ip4_input] is the IPv4 layer of [ethernet_input] *)

#[export] Instance ip4_layer {M} `{PM : PbufAlloc M} {E : NetEnv M} {U : IpUpper M} : Ip4Input M := ip4_input.

#[export] Instance ip4_layer_ok {M} `{PM : PbufAlloc M} {E : NetEnv M} {U : IpUpper M} `{HF : !FragOk} `{HU : !UdpClients} `{HW : !RawClients} `{HT : !TcpOk} :
  Ip4Layer (M := M).
Proof.
  intros s live own p b l n Hi Hp Hrv Hn Hwhole. destruct (load_run 64 _ _ (rv_mapped _ _ _ _ _ Hrv)) as (L & Hld & HL). symmetry in HL.
  refine (ip4_input_run (HF := HF) (HU := HU) (HW := HW) (HT := HT) s live own p b l n L Hi Hp Hrv Hn HL _).
  intros (_ & Hh & _). apply Hwhole; [lia|].
  assert (length L = 64%nat) as Hlen by (apply (f_equal length) in HL; rewrite length_fmap, seg_length in HL; lia).
  unfold rd16, rd, h_offset. rewrite (load_val _ _ _ (take 2 (drop 6 L))); [by out_simp|].
  rewrite fmap_take, fmap_drop, <- HL. change (Z.of_nat 2) with 2. rewrite (seg_split _ _ 64 6), drop_app_length' by (rewrite ?seg_length; lia).
  change (64 - 6) with 58. by rewrite (seg_split _ _ 58 2), take_app_length' by (rewrite ?seg_length; lia).
Qed.
