(* ===== verification/NetifAddr.v ===== *)
(** * Network interfaces: addresses (src/lwip/src/core/netif.c)

    Changing the address, netmask and gateway of an interface, and who is told: the pcbs bound to the old
    address, address conflict detection, the status callback.  [LWIP_NETIF_EXT_STATUS_CALLBACK] is 0,
    [LWIP_ACD] is 1 and there is no IGMP, so [netif_issue_reports] sends nothing. *)
From S2P Require Import Prelude Def Stats Iface Ip4Addr Pbuf Pcb Netif EthOut Acd Autoip Etharp Ip4Out Udp Raw.

Definition set_nf_ip_addr (f : netif) (v : Z) : netif :=
  Netif (nf_next f) v (nf_netmask f) (nf_gw f) (nf_mtu f) (nf_hwaddr f) (nf_hwaddr_len f) (nf_flags f) (nf_num f) (nf_acd_list f)
    (nf_status_callback f) (nf_link_callback f) (nf_dhcp f) (nf_autoip f).
Definition set_nf_netmask (f : netif) (v : Z) : netif :=
  Netif (nf_next f) (nf_ip_addr f) v (nf_gw f) (nf_mtu f) (nf_hwaddr f) (nf_hwaddr_len f) (nf_flags f) (nf_num f) (nf_acd_list f)
    (nf_status_callback f) (nf_link_callback f) (nf_dhcp f) (nf_autoip f).
Definition set_nf_gw (f : netif) (v : Z) : netif :=
  Netif (nf_next f) (nf_ip_addr f) (nf_netmask f) v (nf_mtu f) (nf_hwaddr f) (nf_hwaddr_len f) (nf_flags f) (nf_num f) (nf_acd_list f)
    (nf_status_callback f) (nf_link_callback f) (nf_dhcp f) (nf_autoip f).

Definition NETIF_REPORT_TYPE_IPV4 : Z := 0x01.
Definition NETIF_REPORT_TYPE_IPV6 : Z := 0x02.

(** What netif.c and autoip.c call that is not part of this model: the TCP pcbs, the DHCP client, the status and
    link callbacks of the application by function pointer; and the address of [autoip_conflict_callback]. *)
Class IfEnv (M : Type) := {
  tcp_netif_ip_addr_changed : nst M → option Z → option Z → out (nst M);
  dhcp_network_changed_link_up : nst M → Z → out (nst M);
  netif_callback : Z → nst M → Z → out (nst M);
  autoip_conflict_fn : Z }.

Section NetifAddr.
Context {M : Type} `{PM : PbufAlloc M} {E : NetEnv M} {IE : IfEnv M}.
Abbreviation nst := (nst M).

Definition netif_do_ip_addr_changed (s : nst) (old_addr new_addr : option Z) : out nst :=
  s ← tcp_netif_ip_addr_changed s old_addr new_addr;
  s ← udp_netif_ip_addr_changed s old_addr new_addr;
  raw_netif_ip_addr_changed s old_addr new_addr.

(** [NETIF_STATUS_CALLBACK] and [NETIF_LINK_CALLBACK] *)
Definition NETIF_STATUS_CALLBACK (s : nst) (netif : Z) : out nst :=
  f ← get_netif s netif;
  if negb (nf_status_callback f =? NULL) then netif_callback (nf_status_callback f) s netif else mret s.
Definition NETIF_LINK_CALLBACK (s : nst) (netif : Z) : out nst :=
  f ← get_netif s netif;
  if negb (nf_link_callback f =? NULL) then netif_callback (nf_link_callback f) s netif else mret s.

Definition netif_issue_reports (s : nst) (netif report_type : Z) : out nst :=
  _ ← lwip_assert "netif_issue_reports: invalid netif" (negb (netif =? NULL));
  _ ← get_netif s netif;
  mret s.

Definition netif_do_set_ipaddr (s : nst) (netif ipaddr : Z) : out (Z * nst) :=
  f ← get_netif s netif;
  if negb (ipaddr =? nf_ip_addr f) then
    let old_addr := nf_ip_addr f in
    s ← netif_do_ip_addr_changed s (Some old_addr) (Some ipaddr);
    s ← acd_netif_ip_addr_changed s netif old_addr ipaddr;
    s ← upd_netif s netif (λ f, set_nf_ip_addr f ipaddr);
    s ← netif_issue_reports s netif NETIF_REPORT_TYPE_IPV4;
    s ← NETIF_STATUS_CALLBACK s netif;
    mret (1, s)
  else mret (0, s).

Definition netif_set_ipaddr (s : nst) (netif : Z) (ipaddr : option Z) : out nst :=
  if netif =? NULL then mret s
  else '(_, s) ← netif_do_set_ipaddr s netif (default IPADDR_ANY ipaddr); mret s.

Definition netif_do_set_netmask (s : nst) (netif netmask : Z) : out (Z * nst) :=
  f ← get_netif s netif;
  if negb (netmask =? nf_netmask f) then s ← upd_netif s netif (λ f, set_nf_netmask f netmask); mret (1, s)
  else mret (0, s).

Definition netif_set_netmask (s : nst) (netif : Z) (netmask : option Z) : out nst :=
  if netif =? NULL then mret s
  else '(_, s) ← netif_do_set_netmask s netif (default IPADDR_ANY netmask); mret s.

Definition netif_do_set_gw (s : nst) (netif gw : Z) : out (Z * nst) :=
  f ← get_netif s netif;
  if negb (gw =? nf_gw f) then s ← upd_netif s netif (λ f, set_nf_gw f gw); mret (1, s)
  else mret (0, s).

Definition netif_set_gw (s : nst) (netif : Z) (gw : option Z) : out nst :=
  if netif =? NULL then mret s
  else '(_, s) ← netif_do_set_gw s netif (default IPADDR_ANY gw); mret s.

(** The address is removed before, and set after netmask and gateway are changed. *)
Definition netif_set_addr (s : nst) (netif : Z) (ipaddr netmask gw : option Z) : out nst :=
  let ipaddr := default IPADDR_ANY ipaddr in
  let netmask := default IPADDR_ANY netmask in
  let gw := default IPADDR_ANY gw in
  let remove := ip4_addr_isany ipaddr in
  s ← (if remove then '(_, s) ← netif_do_set_ipaddr s netif ipaddr; mret s else mret s);
  '(_, s) ← netif_do_set_netmask s netif netmask;
  '(_, s) ← netif_do_set_gw s netif gw;
  if negb remove then '(_, s) ← netif_do_set_ipaddr s netif ipaddr; mret s else mret s.
End NetifAddr.
