(* ===== verification/AutoipRun.v ===== *)
(** * AutoIP, the state machine (src/lwip/src/core/ipv4/autoip.c)

    A client is off, checks its address with the help of acd.c, or has given it to the interface.
    [LWIP_DHCP_AUTOIP_COOP] is 0: the DHCP client does not start it, and it does not stop when the
    link goes down. *)
From S2P Require Import Prelude Def Stats Iface Ip4Addr Pbuf Pcb Netif EthOut Acd Autoip Etharp Ip4Out Udp Raw NetifAddr.

(** with an enum of one byte, as on ARM *)
Definition SIZEOF_STRUCT_AUTOIP : Z := 28.
Definition LWIP_DHCP_AUTOIP_COOP : bool := false.
(** 255.255.0.0 *)
Definition AUTOIP_NETMASK : Z := lwip_htonl 0xffff0000.

Section AutoipRun.
Context {M : Type} `{PM : PbufAlloc M} {E : NetEnv M} {IE : IfEnv M}.
Abbreviation nst := (nst M).

Definition autoip_bind (s : nst) (netif : Z) : out (Z * nst) :=
  a ← netif_autoip_data s netif;
  s ← upd_autoip s a (λ x, set_ai_state x AUTOIP_STATE_BOUND);
  x ← get_autoip s a;
  s ← netif_set_addr s netif (Some (llipaddr x)) (Some AUTOIP_NETMASK) (Some 0);
  mret (ERR_OK, s).

(** The client of the interface, or a new one from the heap ([mem_calloc]): its address, or NULL. *)
Definition autoip_client (s : nst) (netif : Z) : out (Z * nst) :=
  a ← netif_autoip_data s netif;
  if a =? NULL then
    '(a, m) ← pa_malloc (pmem (pb s)) SrcHeap (1 * SIZEOF_STRUCT_AUTOIP);
    let s := set_pb s (set_pmem (pb s) m) in
    if a =? NULL then mret (NULL, s)
    else s ← upd_netif (clear_autoip s a) netif (λ f, set_nf_autoip f a); mret (a, s)
  else mret (a, s).

Definition autoip_start (s : nst) (netif : Z) : out (Z * nst) :=
  f ← get_netif s netif;
  if negb (netif_is_up f) then mret (ERR_ARG, s)
  else
    '(a, s) ← autoip_client s netif;
    if a =? NULL then mret (ERR_MEM, s)
    else
      x ← get_autoip s a;
      if decide (ai_state x = AUTOIP_STATE_OFF) then
        '(_, s) ← acd_add s netif (a + AUTOIP_ACD) autoip_conflict_fn;
        s ← (if negb (ip4_addr_islinklocal (llipaddr x))
             then addr ← autoip_create_addr s netif; upd_autoip s a (λ x, set_llipaddr x addr)
             else mret s);
        s ← upd_autoip s a (λ x, set_ai_state x AUTOIP_STATE_CHECKING);
        x ← get_autoip s a;
        '(_, s) ← acd_start s netif (a + AUTOIP_ACD) (llipaddr x);
        mret (ERR_OK, s)
      else mret (ERR_OK, s).

Definition autoip_restart (s : nst) (netif : Z) : out nst :=
  a ← netif_autoip_data s netif;
  s ← upd_autoip s a (λ x, set_tried x (u8 (tried_llipaddr x + 1)));
  '(_, s) ← autoip_start s netif;
  mret s.

Definition autoip_stop (s : nst) (netif : Z) : out (Z * nst) :=
  a ← netif_autoip_data s netif;
  if negb (a =? NULL) then
    s ← upd_autoip s a (λ x, set_ai_state x AUTOIP_STATE_OFF);
    f ← get_netif s netif;
    s ← (if ip4_addr_islinklocal (nf_ip_addr f)
         then netif_set_addr s netif (Some IPADDR_ANY) (Some IPADDR_ANY) (Some IPADDR_ANY) else mret s);
    mret (ERR_OK, s)
  else mret (ERR_OK, s).

Definition autoip_conflict_callback (s : nst) (netif : Z) (state : acd_callback_enum) : out nst :=
  a ← netif_autoip_data s netif;
  match state with
  | ACD_IP_OK => '(_, s) ← autoip_bind s netif; mret s
  | ACD_RESTART_CLIENT => autoip_restart s netif
  | ACD_DECLINE =>
      s ← upd_autoip s a (λ x, set_llipaddr x IPADDR_ANY);
      '(_, s) ← autoip_stop s netif; mret s
  end.

Definition autoip_network_changed_link_up (s : nst) (netif : Z) : out nst :=
  a ← netif_autoip_data s netif;
  if negb (a =? NULL) then
    x ← get_autoip s a;
    if negb (bool_decide (ai_state x = AUTOIP_STATE_OFF)) && negb LWIP_DHCP_AUTOIP_COOP then
      s ← upd_autoip s a (λ x, set_ai_state x AUTOIP_STATE_CHECKING);
      '(_, s) ← acd_start s netif (a + AUTOIP_ACD) (llipaddr x); mret s
    else mret s
  else mret s.

Definition autoip_network_changed_link_down (s : nst) (netif : Z) : out nst :=
  a ← netif_autoip_data s netif;
  if negb (a =? NULL) then
    x ← get_autoip s a;
    if negb (bool_decide (ai_state x = AUTOIP_STATE_OFF)) && LWIP_DHCP_AUTOIP_COOP
    then '(_, s) ← autoip_stop s netif; mret s else mret s
  else mret s.
End AutoipRun.
