(* ===== verification/NetifUp.v ===== *)
(** * Network interfaces: life cycle (src/lwip/src/core/netif.c)

    Adding and removing interfaces, administrative state and link state, the default interface. *)
From S2P Require Import Prelude Def Stats Iface Ip4Addr Pbuf Pcb Netif EthOut Acd Autoip Etharp EthIn Ip4Out Udp Raw Ip4 NetifAddr AutoipRun.

Definition set_nf_next (f : netif) (v : Z) : netif :=
  Netif v (nf_ip_addr f) (nf_netmask f) (nf_gw f) (nf_mtu f) (nf_hwaddr f) (nf_hwaddr_len f) (nf_flags f) (nf_num f) (nf_acd_list f)
    (nf_status_callback f) (nf_link_callback f) (nf_dhcp f) (nf_autoip f).
Definition set_nf_flags (f : netif) (v : Z) : netif :=
  Netif (nf_next f) (nf_ip_addr f) (nf_netmask f) (nf_gw f) (nf_mtu f) (nf_hwaddr f) (nf_hwaddr_len f) v (nf_num f) (nf_acd_list f)
    (nf_status_callback f) (nf_link_callback f) (nf_dhcp f) (nf_autoip f).
Definition set_nf_num (f : netif) (v : Z) : netif :=
  Netif (nf_next f) (nf_ip_addr f) (nf_netmask f) (nf_gw f) (nf_mtu f) (nf_hwaddr f) (nf_hwaddr_len f) (nf_flags f) v (nf_acd_list f)
    (nf_status_callback f) (nf_link_callback f) (nf_dhcp f) (nf_autoip f).
Definition set_nf_status_callback (f : netif) (v : Z) : netif :=
  Netif (nf_next f) (nf_ip_addr f) (nf_netmask f) (nf_gw f) (nf_mtu f) (nf_hwaddr f) (nf_hwaddr_len f) (nf_flags f) (nf_num f) (nf_acd_list f)
    v (nf_link_callback f) (nf_dhcp f) (nf_autoip f).
Definition set_nf_link_callback (f : netif) (v : Z) : netif :=
  Netif (nf_next f) (nf_ip_addr f) (nf_netmask f) (nf_gw f) (nf_mtu f) (nf_hwaddr f) (nf_hwaddr_len f) (nf_flags f) (nf_num f) (nf_acd_list f)
    (nf_status_callback f) v (nf_dhcp f) (nf_autoip f).

(** [netif_set_flags] *)
Definition set_flag (flags f : Z) : Z := u8 (Z.lor flags f).

(** The struct as [netif_add] resets it: the link to the next one and the hardware address
    stay as they are. *)
Definition netif_reset (f : netif) (num : Z) : netif :=
  Netif (nf_next f) IPADDR_ANY IPADDR_ANY IPADDR_ANY 0 (nf_hwaddr f) (nf_hwaddr_len f) 0 num NULL NULL NULL NULL NULL.

Section NetifUp.
Context {M : Type} `{PM : PbufAlloc M} {E : NetEnv M} {U : IpUpper M} {IE : IfEnv M}.
Abbreviation nst := (nst M).

(** The inner loop over the interfaces: whether some has the number. *)
Fixpoint netif_num_taken (fuel : nat) (s : nst) (netif num num_netifs netif2 : Z) : out bool :=
  if netif2 =? NULL then mret false
  else match fuel with
  | O => NoFuel
  | S fuel' =>
      _ ← lwip_assert "netif already added" (negb (netif2 =? netif));
      let num_netifs := num_netifs + 1 in
      _ ← lwip_assert "too many netifs, max. supported number is 255" (num_netifs <=? 255);
      f2 ← get_netif s netif2;
      if nf_num f2 =? num then mret true
      else netif_num_taken fuel' s netif num num_netifs (nf_next f2)
  end.

(** A number that no interface has. *)
Fixpoint netif_num_loop (fuel : nat) (s : nst) (netif : Z) : out nst :=
  match fuel with
  | O => NoFuel
  | S fuel' =>
      s ← upd_netif s netif (λ f, if nf_num f =? 255 then set_nf_num f 0 else f);
      f ← get_netif s netif;
      taken ← netif_num_taken (netif_fuel s) s netif (nf_num f) 0 (netif_list s);
      if (taken : bool) then s ← upd_netif s netif (λ f, set_nf_num f (u8 (nf_num f + 1))); netif_num_loop fuel' s netif
      else mret s
  end.

Definition netif_add (s : nst) (netif : Z) (ipaddr netmask gw : option Z) (init : option (nst → Z → out (Z * nst))) : out (Z * nst) :=
  if netif =? NULL then mret (NULL, s)
  else match init with
  | None => mret (NULL, s)
  | Some init =>
      s ← upd_netif s netif (λ f, netif_reset f (netif_num (ifst s)));
      s ← netif_set_addr s netif ipaddr netmask gw;
      '(err, s) ← init s netif;
      if negb (err =? ERR_OK) then mret (NULL, s)
      else
        s ← netif_num_loop (netif_fuel s) s netif;
        f ← get_netif s netif;
        let s := set_ifst s (IfSt (if nf_num f =? 254 then 0 else u8 (nf_num f + 1)) (autoips (ifst s))) in
        s ← upd_netif s netif (λ f, set_nf_next f (netif_list s));
        mret (netif, set_netif_list s netif)
  end.

Definition netif_add_noaddr (s : nst) (netif : Z) (init : option (nst → Z → out (Z * nst))) : out (Z * nst) :=
  netif_add s netif None None None init.

Definition netif_set_default (s : nst) (netif : Z) : nst := set_netif_default s netif.

Definition netif_set_up (s : nst) (netif : Z) : out nst :=
  if netif =? NULL then mret s
  else
    f ← get_netif s netif;
    if negb (has_flag (nf_flags f) NETIF_FLAG_UP) then
      s ← upd_netif s netif (λ f, set_nf_flags f (set_flag (nf_flags f) NETIF_FLAG_UP));
      s ← NETIF_STATUS_CALLBACK s netif;
      netif_issue_reports s netif (Z.lor NETIF_REPORT_TYPE_IPV4 NETIF_REPORT_TYPE_IPV6)
    else mret s.

Definition netif_set_down (s : nst) (netif : Z) : out nst :=
  if netif =? NULL then mret s
  else
    f ← get_netif s netif;
    if has_flag (nf_flags f) NETIF_FLAG_UP then
      s ← upd_netif s netif (λ f, set_nf_flags f (clear_flag (nf_flags f) NETIF_FLAG_UP));
      f ← get_netif s netif;
      s ← (if has_flag (nf_flags f) NETIF_FLAG_ETHARP then etharp_cleanup_netif s netif else mret s);
      NETIF_STATUS_CALLBACK s netif
    else mret s.

Definition netif_set_status_callback (s : nst) (netif status_callback : Z) : out nst :=
  if negb (netif =? NULL) then upd_netif s netif (λ f, set_nf_status_callback f status_callback) else mret s.

Definition netif_set_link_callback (s : nst) (netif link_callback : Z) : out nst :=
  if negb (netif =? NULL) then upd_netif s netif (λ f, set_nf_link_callback f link_callback) else mret s.

Definition netif_set_link_up (s : nst) (netif : Z) : out nst :=
  if netif =? NULL then mret s
  else
    f ← get_netif s netif;
    if negb (has_flag (nf_flags f) NETIF_FLAG_LINK_UP) then
      s ← upd_netif s netif (λ f, set_nf_flags f (set_flag (nf_flags f) NETIF_FLAG_LINK_UP));
      s ← dhcp_network_changed_link_up s netif;
      s ← autoip_network_changed_link_up s netif;
      s ← netif_issue_reports s netif (Z.lor NETIF_REPORT_TYPE_IPV4 NETIF_REPORT_TYPE_IPV6);
      NETIF_LINK_CALLBACK s netif
    else mret s.

Definition netif_set_link_down (s : nst) (netif : Z) : out nst :=
  if netif =? NULL then mret s
  else
    f ← get_netif s netif;
    if has_flag (nf_flags f) NETIF_FLAG_LINK_UP then
      s ← upd_netif s netif (λ f, set_nf_flags f (clear_flag (nf_flags f) NETIF_FLAG_LINK_UP));
      s ← autoip_network_changed_link_down s netif;
      s ← acd_network_changed_link_down s netif;
      NETIF_LINK_CALLBACK s netif
    else mret s.

(** The loop of [netif_remove]: whether the interface was on the list. *)
Fixpoint netif_unlink (fuel : nat) (s : nst) (netif tmp_netif : Z) : out (bool * nst) :=
  if tmp_netif =? NULL then mret (false, s)
  else match fuel with
  | O => NoFuel
  | S fuel' =>
      t ← get_netif s tmp_netif;
      if nf_next t =? netif then
        f ← get_netif s netif;
        s ← upd_netif s tmp_netif (λ t, set_nf_next t (nf_next f));
        mret (true, s)
      else netif_unlink fuel' s netif (nf_next t)
  end.

Definition netif_remove (s : nst) (netif : Z) : out nst :=
  if netif =? NULL then mret s
  else
    f ← get_netif s netif;
    s ← (if negb (ip4_addr_isany (nf_ip_addr f)) then netif_do_ip_addr_changed s (Some (nf_ip_addr f)) None else mret s);
    f ← get_netif s netif;
    s ← (if has_flag (nf_flags f) NETIF_FLAG_UP then netif_set_down s netif else mret s);
    let s := if netif_default s =? netif then netif_set_default s NULL else s in
    if netif_list s =? netif then f ← get_netif s netif; mret (set_netif_list s (nf_next f))
    else '(_, s) ← netif_unlink (netif_fuel s) s netif (netif_list s); mret s.

(** [ip_input] is [ip4_input] without IPv6. *)
Definition netif_input `{!Ip4Input M} (s : nst) (p inp : Z) : out (Z * nst) :=
  _ ← lwip_assert "netif_input: invalid pbuf" (negb (p =? NULL));
  _ ← lwip_assert "netif_input: invalid netif" (negb (inp =? NULL));
  f ← get_netif s inp;
  if has_flag (nf_flags f) (Z.lor NETIF_FLAG_ETHARP NETIF_FLAG_ETHERNET) then ethernet_input s p inp
  else s ← ip4_in s p inp; mret (ERR_OK, s).
End NetifUp.
