(* ===== verification/AppIf.v ===== *)
(** * The application's interface (src/app/app.c)

    [netdev_config] sets up the interface of the board from its configuration, [netdev_config_remove] takes it down.
    [CONFIG_EXTRA_IP_TYPE] is 1, [CONFIG_WAIT_FOR_IP] is 0. *)
From S2P Require Import Prelude Def Stats Iface Ip4Addr Pbuf Pcb Netif EthOut Acd Autoip Etharp Ip4Out Udp Raw Ip4 NetifAddr AutoipRun NetifUp.

Definition NET_NONE : Z := 0.
Definition NET_STATIC : Z := 1.
Definition NET_DHCP : Z := 3.
Definition NET_DHCP_AUTOIP : Z := 2.
Definition NET_AUTOIP : Z := 4.
Definition MODE_DHCP (mode : Z) : bool := (mode =? NET_DHCP) || (mode =? NET_DHCP_AUTOIP).

Record netdev_config_t := NetdevConfig {
  dev_hwaddr : list Z;
  dev_mode : Z;
  dev_ipaddr : Z;
  dev_netmask : Z;
  dev_gw : Z;
  dev_mtu : Z;
  dev_default_netif : Z }.

(** The DHCP client, by its functions that app.c calls; and the addresses of the two callbacks of app.c. *)
Class AppEnv (M : Type) := {
  dhcp_set_struct : nst M → Z → Z → out (nst M);
  dhcp_start : nst M → Z → out (Z * nst M);
  dhcp_cleanup : nst M → Z → out (nst M);
  dhcp_memset : nst M → Z → out (nst M);
  netif_status_callback_fn : Z;
  link_callback_fn : Z }.

(** The struct filled with zeros. *)
Definition netif_zero : netif := Netif NULL 0 0 0 0 [0; 0; 0; 0; 0; 0] 0 0 0 NULL NULL NULL NULL NULL.

(** What [mynetif_init] sets: output functions and name are not part of the model. *)
Definition mynetif_setup (dev : netdev_config_t) (f : netif) : netif :=
  let mtu := if negb (0 =? dev_mtu dev) then u16 (dev_mtu dev) else 1500 in
  let flags := Z.lor (Z.lor NETIF_FLAG_BROADCAST NETIF_FLAG_ETHARP) NETIF_FLAG_ETHERNET in
  let '(mac, n) := if negb (bool_decide (dev_hwaddr dev = ethzero)) then (dev_hwaddr dev, 6) else (nf_hwaddr f, nf_hwaddr_len f) in
  Netif (nf_next f) (nf_ip_addr f) (nf_netmask f) (nf_gw f) mtu mac n flags (nf_num f) (nf_acd_list f)
    (nf_status_callback f) (nf_link_callback f) (nf_dhcp f) (nf_autoip f).

Definition get_mode (dev : netdev_config_t) : Z := dev_mode dev.

(** [ip4_addr_set_zero] of the three addresses *)
Definition dev_no_addr (dev : netdev_config_t) : netdev_config_t :=
  NetdevConfig (dev_hwaddr dev) (dev_mode dev) 0 0 0 (dev_mtu dev) (dev_default_netif dev).

Section AppIf.
Context {M : Type} `{PM : PbufAlloc M} {E : NetEnv M} {U : IpUpper M} {IE : IfEnv M} {AE : AppEnv M}.
Abbreviation nst := (nst M).

(** [dev] is what [netif->state] points to. *)
Definition mynetif_init (dev : netdev_config_t) (s : nst) (netif : Z) : out (Z * nst) :=
  s ← upd_netif s netif (mynetif_setup dev);
  _ ← lwip_assert "Ethernet hwaddr (MAC) strange size" (Z.of_nat (length (dev_hwaddr dev)) =? 6);
  _ ← lwip_assert "Ethernet hwaddr (MAC) from zero device strange size" (bool_decide (length (dev_hwaddr dev) = length ethzero));
  mret (ERR_OK, s).

(** The clients' structs, before the interface is added. *)
Definition netdev_clients (s : nst) (dev : netdev_config_t) (netif netif_dhcp netif_autoip : Z) : out (nst * netdev_config_t) :=
  let mode := get_mode dev in
  if mode =? NET_STATIC then mret (s, dev)
  else if MODE_DHCP mode then s ← dhcp_set_struct s netif netif_dhcp; mret (s, dev_no_addr dev)
  else if mode =? NET_AUTOIP then s ← autoip_set_struct s netif netif_autoip; mret (s, dev)
  else mret (s, dev).

(** Adding the interface and taking it up. *)
Definition netdev_up (s : nst) (dev : netdev_config_t) (netif : Z) : out nst :=
  '(_, s) ← netif_add s netif (Some (dev_ipaddr dev)) (Some (dev_netmask dev)) (Some (dev_gw dev)) (Some (mynetif_init dev));
  s ← netif_set_status_callback s netif netif_status_callback_fn;
  s ← netif_set_link_callback s netif link_callback_fn;
  let s := if negb (dev_default_netif dev =? 0) then netif_set_default s netif else s in
  s ← netif_set_link_up s netif;
  netif_set_up s netif.

(** Starting the client. *)
Definition netdev_start (s : nst) (mode netif : Z) : out nst :=
  s ← (if MODE_DHCP mode
       then '(err, s) ← dhcp_start s netif; _ ← lwip_assert "dhcp_start failed" (err =? ERR_OK); mret s
       else mret s);
  if mode =? NET_AUTOIP
  then '(err, s) ← autoip_start s netif; _ ← lwip_assert "autoip_start failed" (err =? ERR_OK); mret s
  else mret s.

Definition netdev_config (s : nst) (dev : netdev_config_t) (netif netif_dhcp netif_autoip : Z) : out nst :=
  s ← upd_netif s netif (λ _, netif_zero);
  let mode := get_mode dev in
  if mode =? NET_NONE then mret s
  else
    '(s, dev) ← netdev_clients s dev netif netif_dhcp netif_autoip;
    s ← netdev_up s dev netif;
    netdev_start s mode netif.

Definition netdev_config_remove (s : nst) (dev : netdev_config_t) (netif netif_dhcp netif_autoip : Z) : out nst :=
  let mode := get_mode dev in
  if mode =? NET_NONE then mret s
  else
    s ← (if mode =? NET_STATIC then mret s
         else if MODE_DHCP mode then dhcp_cleanup s netif
         else if mode =? NET_AUTOIP then autoip_remove_struct s netif
         else mret s);
    s ← netif_remove s netif;
    s ← upd_netif s netif (λ _, netif_zero);
    s ← dhcp_memset s netif_dhcp;
    mret (clear_autoip s netif_autoip).

(** The callbacks of the application print a message. *)
Definition netif_status_callback (s : nst) (netif : Z) : out nst := _ ← get_netif s netif; mret s.
Definition link_callback (s : nst) (netif : Z) : out nst := _ ← get_netif s netif; mret s.
End AppIf.
