(* ===== verification/IfInv.v ===== *)
(** * Changing the address of an interface

    What netif.c's address functions do, under the contract [IfClients] of what they call outside this model. *)
From S2P Require Import Prelude Def Stats Iface Ip4Addr Pbuf PbufChain PbufClient PbufData PbufClone Pcb Netif NetInv Links EthOut Region Acd Autoip Etharp EtharpInv Ip4Out Udp Raw UdpInv UdpOps UdpApi RawInv NetifAddr AutoipRun.

(** A raw pcb bound to [old] is now bound to [new]. *)
Definition rmoved (old new : Z) (kx : Z * raw_pcb) : Z * raw_pcb :=
  (kx.1, if local_ip (r_ip kx.2) =? old then set_r_ip kx.2 (set_local_ip (r_ip kx.2) new) else kx.2).

(** An address that is not any is replaced by one that is not any. *)
Definition replaces (old : Z) (new : option Z) : bool :=
  match new with Some new => negb (ip4_addr_isany old) && negb (ip4_addr_isany new) | None => false end.
Definition upcbs_moved (old : Z) (new : option Z) (L : upcb_list) : upcb_list := if replaces old new then moved old (default 0 new) <$> L else L.
Definition rpcbs_moved (old : Z) (new : option Z) (L : rpcb_list) : rpcb_list := if replaces old new then rmoved old (default 0 new) <$> L else L.

Lemma upcbs_moved_same a L : upcbs_moved a (Some a) L = L.
Proof.
  unfold upcbs_moved. destruct (replaces _ _); [|done]. cbn [default from_option id]. induction L as [|[p x] L IH]; [done|].
  rewrite fmap_cons, IH. f_equal. unfold moved. cbn [fst snd].
  destruct (Z.eqb_spec (local_ip (u_ip x)) a) as [<-|]; [|done]. by destruct x as [[]].
Qed.
Lemma rpcbs_moved_same a L : rpcbs_moved a (Some a) L = L.
Proof.
  unfold rpcbs_moved. destruct (replaces _ _); [|done]. cbn [default from_option id]. induction L as [|[p x] L IH]; [done|].
  rewrite fmap_cons, IH. f_equal. unfold rmoved. cbn [fst snd].
  destruct (Z.eqb_spec (local_ip (r_ip x)) a) as [<-|]; [|done]. by destruct x as [[]].
Qed.

Section IfInv.
Context {M : Type} `{PM : PbufAlloc M} {E : NetEnv M} {IE : IfEnv M}.
Abbreviation pst := (@pst M).
Abbreviation nst := (nst M).

(** What the functions of netif.c change. *)
Record same_cfg (s s' : nst) : Prop := SameCfg {
  sc_netifs : netifs s' = netifs s;
  sc_list : netif_list s' = netif_list s;
  sc_default : netif_default s' = netif_default s;
  sc_acds : acds s' = acds s;
  sc_udps : udps s' = udps s;
  sc_raws : raws s' = raws s;
  sc_ifst : ifst s' = ifst s }.

(** All but the interfaces and the pcbs is the same: packets and memory, the ARP table, what was sent, the
    counters, the conflict detection clients. *)
Definition but_cfg (s s' : nst) : Prop := s' = set_netifs (set_raws (set_udps s (udps s')) (raws s')) (netifs s').

Lemma but_cfg_refl s : but_cfg s s.
Proof. by destruct s. Qed.
Lemma but_cfg_trans s1 s2 s3 : but_cfg s1 s2 → but_cfg s2 s3 → but_cfg s1 s3.
Proof. unfold but_cfg. intros -> ->. done. Qed.
Lemma but_cfg_put s n f : but_cfg s (put_netif s n f).
Proof. by destruct s. Qed.

(** Apart from interfaces and pcbs, the new address [new] of the interface [n] changes only what TCP and the status callback change. *)
Definition only_told (n old new : Z) (s s' : nst) : Prop :=
  if decide (new = old) then but_cfg s s'
  else ∃ s0 s1 s2 s3, but_cfg s s0 ∧ tcp_netif_ip_addr_changed s0 (Some old) (Some new) = Clean s1 ∧ but_cfg s1 s2 ∧
    NETIF_STATUS_CALLBACK s2 n = Clean s3 ∧ but_cfg s3 s'.

Lemma only_told_around n old new s s1 s2 s' : but_cfg s s1 → only_told n old new s1 s2 → but_cfg s2 s' → only_told n old new s s'.
Proof.
  unfold only_told. intros H1 H2 H3. case_decide; [by eapply but_cfg_trans; [|eapply but_cfg_trans]|].
  destruct H2 as (t0 & t1 & t2 & t3 & E1 & E2 & E3 & E4 & E5). exists t0, t1, t2, t3. split_and!; [by eapply but_cfg_trans|done..|by eapply but_cfg_trans].
Qed.

(** The functions outside the model return and keep the state well formed.  Aborting TCP connections and the
    callbacks of this application, which only print, leave interfaces and pcbs as they are; nothing is bound to the address any. *)
Class IfClients : Prop := {
  tcp_changed_ok s live own old new : ninv s live own → ∃ s' live', tcp_netif_ip_addr_changed s old new = Clean s' ∧
    ninv s' live' own ∧ same_links s s' ∧ same_cfg s s';
  tcp_changed_any s new : tcp_netif_ip_addr_changed s (Some IPADDR_ANY) new = Clean s;
  dhcp_link_up_ok s live own n : ninv s live own → is_Some (netifs s !! n) → ∃ s' live', dhcp_network_changed_link_up s n = Clean s' ∧
    ninv s' live' own ∧ same_links s s' ∧ same_cfg s s';
  netif_callback_ok c s live own n : c ≠ NULL → ninv s live own → is_Some (netifs s !! n) → ∃ s' live', netif_callback c s n = Clean s' ∧
    ninv s' live' own ∧ same_links s s' ∧ same_cfg s s' ∧ arp_table s' = arp_table s;
  autoip_conflict_nonnull : autoip_conflict_fn ≠ NULL }.
Context `{HI : !IfClients}.

Lemma same_cfg_refl s : same_cfg s s.
Proof. done. Qed.
Lemma same_cfg_trans s1 s2 s3 : same_cfg s1 s2 → same_cfg s2 s3 → same_cfg s1 s3.
Proof. intros [] []. split; congruence. Qed.

(** ** The struct of an interface *)

Lemma upd_netif_run (s : nst) n f g : netifs s !! n = Some f → upd_netif s n g = Clean (put_netif s n (g f)).
Proof. intros Hf. unfold upd_netif, get_netif. rewrite Hf. by out_simp. Qed.

Lemma put_netif_lookup (s : nst) n g : netifs (put_netif s n g) !! n = Some g.
Proof. apply lookup_insert_eq. Qed.

Lemma table_ok_netifs N N' T : table_ok N T → (∀ n, is_Some (N !! n) → is_Some (N' !! n)) → table_ok N' T.
Proof. intros [H1 H2 H3] HN. split; try done. intros i e He. destruct (H2 i e He). split; try done. auto. Qed.

Lemma put_netif_ok s live own n f g : ninv s live own → netifs s !! n = Some f → nf_next g = nf_next f →
  nf_acd_list g = nf_acd_list f → nf_autoip g = nf_autoip f → netif_ok g →
  ninv (put_netif s n g) live own ∧ same_links s (put_netif s n g).
Proof.
  intros Hi Hf Hn Ha Hu Hg.
  assert (nf_next <$> netifs (put_netif s n g) = nf_next <$> netifs s) as H1.
  { cbn [netifs put_netif set_netifs]. rewrite fmap_insert, Hn. apply insert_id. by rewrite lookup_fmap, Hf. }
  assert (nf_acd_list <$> netifs (put_netif s n g) = nf_acd_list <$> netifs s) as H2.
  { cbn [netifs put_netif set_netifs]. rewrite fmap_insert, Ha. apply insert_id. by rewrite lookup_fmap, Hf. }
  split; [|by split]. destruct Hi as [I1 I2 I3 [L1 [nl L2] L5 L3 L4] I5 I6 I7 I8 I9].
  assert (∀ m, is_Some (netifs s !! m) → is_Some (netifs (put_netif s n g) !! m)) as Hsome by (intros m; by apply (fmap_is_Some _ _ _ _ H1)).
  split; try done; [split; try done|..].
  - intros m x Hx. change (<[n:=g]> (netifs s) !! m = Some x) in Hx. apply lookup_insert_Some in Hx as [[<- <-]|[_ Hx]]; [split; [by eapply L1|done]|by eapply L1].
  - exists nl. by apply (nchain_links _ (netifs s)).
  - intros Hd. by apply Hsome, L5.
  - intros m x Hx. change (<[n:=g]> (netifs s) !! m = Some x) in Hx. apply lookup_insert_Some in Hx as [[<- <-]|[_ Hx]]; [rewrite Ha; by eapply L3|by eapply L3].
  - by eapply table_ok_netifs.
  - by eapply clients_put.
Qed.

Lemma netif_ok_of s live own n f : ninv s live own → netifs s !! n = Some f → n ≠ NULL ∧ netif_ok f.
Proof. intros Hi. apply (lo_netif _ _ _ _ (ni_links _ _ _ Hi)). Qed.

(** ** Pcbs *)

Lemma raw_netif_loop_run live own old new L2 : is_u32 new → ∀ fuel s h L1, ninv s live own → rlist s (L1 ++ L2) →
  nlist r_next (rpcbs (raws s)) h L2 → (length L2 ≤ fuel)%nat →
  ∃ s', raw_netif_loop fuel s old new h = Clean s' ∧ ninv s' live own ∧ rlist s' (L1 ++ (rmoved old new <$> L2)) ∧ s' = set_raws s (raws s').
Proof.
  intros Hnew. induction L2 as [|[p x] L2 IH]; intros fuel s h L1 Hi HL Hh Hf.
  { inversion Hh; subst. exists s. split; [by destruct fuel|]. split; [done|]. split; [done|]. by destruct s. }
  assert (h = p) as -> by (by inversion Hh). inversion Hh as [|? ? ? Hp Hx Hh']; subst. destruct fuel as [|fuel]; [cbn in Hf; lia|]. cbn [length] in Hf.
  cbn [raw_netif_loop]. rewrite (proj2 (Z.eqb_neq p NULL)), (get_rpcb_run _ p x), bind_clean by done.
  change (rmoved old new <$> (p, x) :: L2) with (rmoved old new (p, x) :: (rmoved old new <$> L2)). unfold rmoved at 1. cbn [fst snd].
  destruct (local_ip (r_ip x) =? old).
  - rewrite (upd_rpcb_run s p x _ Hx), bind_clean. set (x' := set_r_ip x _). set (s1 := put_rpcb s p x').
    destruct (rpcb_ok _ _ _ _ _ Hi Hx) as [_ [[? ? ? ? ? ?] ? ?]].
    destruct (put_rpcb_ok s live own _ p x x' Hi HL Hx) as [Hi1 HL1]; [split; [by split|done..]|done|].
    rewrite put_at_here in HL1 by (by apply nlist_NoDup in HL). fold s1 in Hi1, HL1.
    pose proof (nlist_suffix _ _ _ _ _ _ _ HL1) as Hsf. inversion Hsf as [|? ? ? _ _ Hsf']; subst.
    destruct (IH fuel s1 (r_next x) (L1 ++ [(p, x')]) Hi1) as (s' & H1 & H2 & H3 & H4); [by rewrite <- app_assoc|exact Hsf'|lia|].
    rewrite <- app_assoc in H3. by exists s'.
  - rewrite bind_ret_l. destruct (IH fuel s (r_next x) (L1 ++ [(p, x)]) Hi) as (s' & H1 & H2 & H3 & H4); [by rewrite <- app_assoc|done|lia|].
    rewrite <- app_assoc in H3. by exists s'.
Qed.

Lemma udp_changed_run s live own L old new : ninv s live own → ulist s L → is_u32 (default 0 new) →
  ∃ s', udp_netif_ip_addr_changed s (Some old) new = Clean s' ∧ ninv s' live own ∧ ulist s' (upcbs_moved old new L) ∧ s' = set_udps s (udps s').
Proof.
  intros Hi HL Hn. unfold upcbs_moved. destruct new as [new|]; cbn [default from_option id replaces] in *; [|by exists s; destruct s].
  unfold udp_netif_ip_addr_changed. destruct (negb (ip4_addr_isany old) && negb (ip4_addr_isany new)) eqn:Hr; [|by exists s; destruct s].
  apply andb_prop in Hr as [Ho%negb_true_iff Hne%negb_true_iff].
  destruct (netif_changed_run s live own L old new Hi HL Hn Ho Hne) as (s' & H1 & H). unfold udp_netif_ip_addr_changed in H1.
  rewrite Ho, Hne in H1. by exists s'.
Qed.

Lemma raw_changed_run s live own R old new : ninv s live own → rlist s R → is_u32 (default 0 new) →
  ∃ s', raw_netif_ip_addr_changed s (Some old) new = Clean s' ∧ ninv s' live own ∧ rlist s' (rpcbs_moved old new R) ∧ s' = set_raws s (raws s').
Proof.
  intros Hi HR Hn. unfold rpcbs_moved. destruct new as [new|]; cbn [default from_option id replaces] in *; [|by exists s; destruct s].
  unfold raw_netif_ip_addr_changed. destruct (negb (ip4_addr_isany old) && negb (ip4_addr_isany new)) eqn:Hr; [|by exists s; destruct s].
  by apply (raw_netif_loop_run live own old new R Hn _ s _ []); [..|by eapply rlist_size].
Qed.

(** What the pcbs are told: the rest of the configuration stays. *)
Record pcbs_told (s : nst) (old : Z) (new : option Z) (L : upcb_list) (R : rpcb_list) (s' : nst) : Prop := PcbsTold {
  pt_netifs : netifs s' = netifs s;
  pt_list : netif_list s' = netif_list s;
  pt_default : netif_default s' = netif_default s;
  pt_acds : acds s' = acds s;
  pt_ifst : ifst s' = ifst s;
  pt_udp : ulist s' (upcbs_moved old new L);
  pt_raw : rlist s' (rpcbs_moved old new R);
  pt_rest : ∃ t, tcp_netif_ip_addr_changed s (Some old) new = Clean t ∧ but_cfg t s' }.

Lemma ip_addr_changed_run s live own L R old new : ninv s live own → ulist s L → rlist s R → is_u32 (default 0 new) →
  ∃ s' live', netif_do_ip_addr_changed s (Some old) new = Clean s' ∧ ninv s' live' own ∧ same_links s s' ∧ pcbs_told s old new L R s'.
Proof.
  intros Hi HL HR Hn. unfold netif_do_ip_addr_changed.
  destruct (tcp_changed_ok s live own (Some old) new Hi) as (s1 & live1 & Htcp & Hi1 & Hl1 & [C1 C2 C3 C4 C5 C6 C7]). rewrite Htcp, bind_clean.
  assert (ulist s1 L) as HL1 by (unfold ulist; by rewrite C5). assert (rlist s1 R) as HR1 by (unfold rlist; by rewrite C6).
  destruct (udp_changed_run s1 live1 own L old new Hi1 HL1 Hn) as (s2 & -> & Hi2 & HL2 & Hs2). rewrite bind_clean.
  assert (rlist s2 R) as HR2 by (rewrite Hs2; exact HR1).
  destruct (raw_changed_run s2 live1 own R old new Hi2 HR2 Hn) as (s3 & -> & Hi3 & HR3 & Hs3).
  exists s3, live1. split_and!; [done|done| |].
  - apply (same_links_trans _ s1); [done|]. rewrite Hs3, Hs2. by split.
  - split; try done; try (rewrite Hs3, Hs2; done). exists s1. split; [done|]. unfold but_cfg. rewrite Hs3, Hs2. by destruct s1.
Qed.

(** ** Netmask, gateway, callbacks *)

Lemma set_netmask_run (s : nst) n f m : netifs s !! n = Some f →
  ∃ r, netif_do_set_netmask s n m = Clean (r, put_netif s n (set_nf_netmask f m)).
Proof.
  intros Hf. unfold netif_do_set_netmask. rewrite (upd_netif_run _ _ _ _ Hf). unfold get_netif. rewrite Hf. out_simp.
  destruct (Z.eqb_spec m (nf_netmask f)) as [->|]; cbn [negb]; [exists 0|by exists 1].
  do 3 f_equal. unfold put_netif. rewrite insert_id; [by destruct s|]. rewrite Hf. by destruct f.
Qed.

Lemma set_gw_run (s : nst) n f g : netifs s !! n = Some f →
  ∃ r, netif_do_set_gw s n g = Clean (r, put_netif s n (set_nf_gw f g)).
Proof.
  intros Hf. unfold netif_do_set_gw. rewrite (upd_netif_run _ _ _ _ Hf). unfold get_netif. rewrite Hf. out_simp.
  destruct (Z.eqb_spec g (nf_gw f)) as [->|]; cbn [negb]; [exists 0|by exists 1].
  do 3 f_equal. unfold put_netif. rewrite insert_id; [by destruct s|]. rewrite Hf. by destruct f.
Qed.

Lemma status_run s live own n : ninv s live own → is_Some (netifs s !! n) → ∃ s' live', NETIF_STATUS_CALLBACK s n = Clean s' ∧
  ninv s' live' own ∧ same_links s s' ∧ same_cfg s s' ∧ arp_table s' = arp_table s.
Proof.
  intros Hi [f Hf]. unfold NETIF_STATUS_CALLBACK, get_netif. rewrite Hf. out_simp.
  destruct (Z.eqb_spec (nf_status_callback f) NULL) as [|Hc]; cbn [negb]; [by exists s, live|].
  apply (netif_callback_ok _ s live own n Hc Hi). by eexists.
Qed.

Lemma link_callback_run s live own n : ninv s live own → is_Some (netifs s !! n) → ∃ s' live', NETIF_LINK_CALLBACK s n = Clean s' ∧
  ninv s' live' own ∧ same_links s s' ∧ same_cfg s s' ∧ arp_table s' = arp_table s.
Proof.
  intros Hi [f Hf]. unfold NETIF_LINK_CALLBACK, get_netif. rewrite Hf. out_simp.
  destruct (Z.eqb_spec (nf_link_callback f) NULL) as [|Hc]; cbn [negb]; [by exists s, live|].
  apply (netif_callback_ok _ s live own n Hc Hi). by eexists.
Qed.

Lemma reports_run (s : nst) n f t : n ≠ NULL → netifs s !! n = Some f → netif_issue_reports s n t = Clean s.
Proof. intros Hn Hf. unfold netif_issue_reports, get_netif. rewrite (proj2 (Z.eqb_neq n NULL)), Hf by done. by out_simp. Qed.

(** ** The address *)

(** A routable address replaces a link-local one: its conflict detection clients become passive. *)
Definition turns_passive (old new : Z) : bool := replaces old (Some new) && ip4_addr_islinklocal old && negb (ip4_addr_islinklocal new).

Lemma acd_foreach_idle (s : nst) body l : (∀ a, a ∈ l → body s a = Clean s) → ∀ fuel a, nchain acd_next (acds s) a l → (length l ≤ fuel)%nat →
  acd_foreach fuel s a body = Clean s.
Proof.
  induction l as [|b l IH]; intros Hb fuel a Hc Hf; inversion Hc; subst; [by destruct fuel|].
  destruct fuel as [|fuel]; cbn [length] in Hf; [lia|]. cbn [acd_foreach]. rewrite (proj2 (Z.eqb_neq b NULL)) by done.
  rewrite Hb, bind_clean by left. unfold get_acd. match goal with H : acds s !! b = Some _ |- _ => rewrite H end. out_simp.
  apply IH; [|done|lia]. intros c Hc'. apply Hb. by right.
Qed.

Lemma acd_kept_run s live own n f old new : ninv s live own → netifs s !! n = Some f → turns_passive old new = false →
  acd_netif_ip_addr_changed s n old new = Clean s.
Proof.
  intros Hi Hf Hp. unfold acd_netif_ip_addr_changed, get_netif. rewrite Hf. out_simp.
  unfold turns_passive, replaces in Hp. destruct (ip4_addr_isany old || ip4_addr_isany new) eqn:Hany; [done|]. apply orb_false_elim in Hany as [Ho Hn].
  rewrite Ho, Hn in Hp. cbn [negb andb] in Hp. destruct (lo_acds _ _ _ _ (ni_links _ _ _ Hi) _ _ Hf) as [l Hl].
  apply (acd_foreach_idle s _ l); [|done|by apply le_S, (nchain_length _ _ _ _ Hl)].
  intros a Ha. destruct (nchain_elem _ _ _ _ _ Hl Ha) as [_ [x Hx]]. unfold get_acd. rewrite Hx. out_simp.
  by destruct (acd_ipaddr x =? old); [rewrite Hp|].
Qed.

(** The interface is now [g], and the pcbs bound to [old] are bound to [new]. *)
Record readdressed (s : nst) (n : Z) (g : netif) (old new : Z) (L : upcb_list) (R : rpcb_list) (s' : nst) : Prop := Readdressed {
  ra_netifs : netifs s' = <[n := g]> (netifs s);
  ra_list : netif_list s' = netif_list s;
  ra_default : netif_default s' = netif_default s;
  ra_acds : acds s' = acds s;
  ra_ifst : ifst s' = ifst s;
  ra_udp : ulist s' (upcbs_moved old (Some new) L);
  ra_raw : rlist s' (rpcbs_moved old (Some new) R);
  ra_rest : only_told n old new s s' }.

Lemma netif_ok_ip f ip : netif_ok f → is_u32 ip → netif_ok (set_nf_ip_addr f ip).
Proof. by intros [] ?. Qed.

Lemma set_ipaddr_run s live own n f ip L R : ninv s live own → netifs s !! n = Some f → is_u32 ip → ulist s L → rlist s R →
  turns_passive (nf_ip_addr f) ip = false →
  ∃ r s' live', netif_do_set_ipaddr s n ip = Clean (r, s') ∧ ninv s' live' own ∧ same_links s s' ∧
    readdressed s n (set_nf_ip_addr f ip) (nf_ip_addr f) ip L R s'.
Proof.
  intros Hi Hf Hip HL HR Hp. destruct (netif_ok_of _ _ _ _ _ Hi Hf) as [Hn Hok]. unfold netif_do_set_ipaddr.
  unfold get_netif at 1. rewrite Hf. out_simp. destruct (Z.eqb_spec ip (nf_ip_addr f)) as [Heq|Hne]; cbn [negb].
  - exists 0, s, live. split_and!; [done|done|apply same_links_refl|]. rewrite <- Heq. split; rewrite ?upcbs_moved_same, ?rpcbs_moved_same; try done.
    + rewrite insert_id; [done|]. rewrite Hf, Heq. by destruct f.
    + unfold only_told. rewrite decide_True by done. apply but_cfg_refl.
  - destruct (ip_addr_changed_run s live own L R (nf_ip_addr f) (Some ip) Hi HL HR Hip) as (s1 & live1 & -> & Hi1 & Hl1 & [T1 T2 T3 T4 T5 T6 T7 (t & Htcp & Ht)]).
    rewrite bind_clean. assert (netifs s1 !! n = Some f) as Hf1 by (by rewrite T1).
    rewrite (acd_kept_run s1 live1 own n f _ _ Hi1 Hf1 Hp), bind_clean, (upd_netif_run _ _ _ _ Hf1), bind_clean. set (s2 := put_netif s1 n _).
    destruct (put_netif_ok s1 live1 own n f (set_nf_ip_addr f ip) Hi1 Hf1) as [Hi2 Hl2]; [done..|by apply netif_ok_ip|]. fold s2 in Hi2, Hl2.
    rewrite (reports_run s2 n _ _ Hn (put_netif_lookup s1 n _)), bind_clean.
    destruct (status_run s2 live1 own n Hi2) as (s3 & live3 & Hcb & Hi3 & Hl3 & [C1 C2 C3 C4 C5 C6 C7] & _); [eexists; apply put_netif_lookup|].
    rewrite Hcb, bind_clean. exists 1, s3, live3. split_and!; [done|done|by eapply same_links_trans; [|eapply same_links_trans]|].
    split; rewrite ?C1, ?C2, ?C3, ?C4, ?C7; try done; [cbn [netifs s2 put_netif set_netifs]; by rewrite T1|..].
    + unfold ulist. rewrite C5. exact T6.
    + unfold rlist. rewrite C6. exact T7.
    + unfold only_told. rewrite decide_False by done. exists s, t, s2, s3. split_and!; [apply but_cfg_refl|done| |done|apply but_cfg_refl].
      eapply but_cfg_trans; [exact Ht|apply but_cfg_put].
Qed.

Lemma set_netmask_ok s live own n f m : ninv s live own → netifs s !! n = Some f → is_u32 m →
  ∃ r, let s' := put_netif s n (set_nf_netmask f m) in netif_do_set_netmask s n m = Clean (r, s') ∧ ninv s' live own ∧ same_links s s'.
Proof.
  intros Hi Hf Hm. destruct (set_netmask_run s n f m Hf) as [r ->]. exists r. split; [done|]. destruct (netif_ok_of _ _ _ _ _ Hi Hf) as [_ []].
  by apply (put_netif_ok s live own n f).
Qed.

Lemma set_gw_ok s live own n f g : ninv s live own → netifs s !! n = Some f → is_u32 g →
  ∃ r, let s' := put_netif s n (set_nf_gw f g) in netif_do_set_gw s n g = Clean (r, s') ∧ ninv s' live own ∧ same_links s s'.
Proof.
  intros Hi Hf Hm. destruct (set_gw_run s n f g Hf) as [r ->]. exists r. split; [done|]. destruct (netif_ok_of _ _ _ _ _ Hi Hf) as [_ []].
  by apply (put_netif_ok s live own n f).
Qed.

(** The interface with another address, netmask and gateway. *)
Definition configured (f : netif) (ip mask gw : Z) : netif := set_nf_ip_addr (set_nf_gw (set_nf_netmask f mask) gw) ip.

Lemma set_addr_run s live own n f ip mask gw L R : ninv s live own → netifs s !! n = Some f → is_u32 ip → is_u32 mask → is_u32 gw →
  ulist s L → rlist s R → turns_passive (nf_ip_addr f) ip = false →
  ∃ s' live', netif_set_addr s n (Some ip) (Some mask) (Some gw) = Clean s' ∧ ninv s' live' own ∧ same_links s s' ∧
    readdressed s n (configured f ip mask gw) (nf_ip_addr f) ip L R s'.
Proof.
  intros Hi Hf Hip Hm Hg HL HR Hp. unfold netif_set_addr. cbn [default from_option id]. destruct (ip4_addr_isany ip) eqn:Hany; cbn [negb].
  - destruct (set_ipaddr_run s live own n f ip L R Hi Hf Hip HL HR Hp) as (r1 & s1 & live1 & -> & Hi1 & Hl1 & [R1 R2 R3 R4 R5 R6 R7 R8]).
    rewrite bind_clean, bind_ret_l. assert (netifs s1 !! n = Some (set_nf_ip_addr f ip)) as Hf1 by (rewrite R1; apply lookup_insert_eq).
    destruct (set_netmask_ok s1 live1 own n _ mask Hi1 Hf1 Hm) as (r2 & -> & Hi2 & Hl2). rewrite bind_clean.
    destruct (set_gw_ok _ live1 own n _ gw Hi2 (put_netif_lookup s1 n _) Hg) as (r3 & -> & Hi3 & Hl3). rewrite bind_clean.
    eexists _, live1. split_and!; [done|exact Hi3|by eapply same_links_trans; [|eapply same_links_trans]|].
    split; try done; [cbn [netifs put_netif set_netifs]; rewrite R1; by rewrite !insert_insert_eq|].
    apply (only_told_around _ _ _ s s s1); [apply but_cfg_refl|done|]. eapply but_cfg_trans; apply but_cfg_put.
  - rewrite bind_ret_l. destruct (set_netmask_ok s live own n f mask Hi Hf Hm) as (r2 & -> & Hi2 & Hl2). rewrite bind_clean.
    destruct (set_gw_ok _ live own n _ gw Hi2 (put_netif_lookup s n _) Hg) as (r3 & -> & Hi3 & Hl3). rewrite bind_clean.
    set (g := set_nf_gw _ gw) in *. set (s3 := put_netif _ n g) in *.
    destruct (set_ipaddr_run s3 live own n g ip L R Hi3 (put_netif_lookup _ n _) Hip HL HR Hp) as (r1 & s1 & live1 & -> & Hi1 & Hl1 & [R1 R2 R3 R4 R5 R6 R7 R8]).
    rewrite bind_clean. eexists _, live1. split_and!; [done|exact Hi1|by eapply same_links_trans; [|eapply same_links_trans]|].
    split; try done. rewrite R1. cbn [netifs s3 put_netif set_netifs]. by rewrite !insert_insert_eq.
Qed.
End IfInv.
