(* ===== verification/IfSafe.v ===== *)
(** * Interface operations are safe

    The operations of netif.c that leave the lists of interfaces and clients linked as they are, in any
    well-formed state. *)
From S2P Require Import Prelude Def Stats Iface Ip4Addr Pbuf PbufChain PbufClient PbufData PbufClone Pcb Netif NetInv Links EthOut Region Acd Autoip Etharp EtharpInv EtharpTmr Ip4Out Udp Raw UdpInv UdpOps UdpApi RawInv Ip4 NetifAddr AutoipRun NetifUp IfInv.

Section IfSafe.
Context {M : Type} `{PM : PbufAlloc M} {E : NetEnv M} {U : IpUpper M} {IE : IfEnv M} `{HC : !AcdClients} `{HI : !IfClients}.
Abbreviation pst := (@pst M).
Abbreviation nst := (nst M).

(** The change [g] keeps the links of an interface and its clients, and the types of its fields. *)
Record plain (g : netif → netif) : Prop := Plain {
  pl_next f : nf_next (g f) = nf_next f;
  pl_acd f : nf_acd_list (g f) = nf_acd_list f;
  pl_auto f : nf_autoip (g f) = nf_autoip f;
  pl_ok f : netif_ok f → netif_ok (g f) }.

Lemma upd_netif_safe s live own n g : ninv s live own → is_Some (netifs s !! n) → plain g → safe own s (upd_netif s n g).
Proof.
  intros Hi [f Hf] [H1 H2 H3 H4]. rewrite (upd_netif_run _ _ _ _ Hf). destruct (netif_ok_of _ _ _ _ _ Hi Hf) as [_ Hok].
  destruct (put_netif_ok s live own n f (g f) Hi Hf) as [? ?]; auto. by eexists _, live.
Qed.

Lemma plain_netmask m : is_u32 m → plain (λ f, set_nf_netmask f m).
Proof. by intros ?; split; intros [] *; try done; intros []. Qed.
Lemma plain_gw g : is_u32 g → plain (λ f, set_nf_gw f g).
Proof. by intros ?; split; intros [] *; try done; intros []. Qed.
Lemma plain_ip a : is_u32 a → plain (λ f, set_nf_ip_addr f a).
Proof. by intros ?; split; intros [] *; try done; intros []. Qed.
Lemma plain_flags h : plain (λ f, set_nf_flags f (h (nf_flags f))).
Proof. by split; intros [] *; try done; intros []. Qed.

Lemma reports_safe s live own n t : ninv s live own → is_Some (netifs s !! n) → safe own s (netif_issue_reports s n t).
Proof. intros Hi [f Hf]. destruct (netif_ok_of _ _ _ _ _ Hi Hf) as [Hn _]. rewrite (reports_run s n f t Hn Hf). by eapply safe_ret. Qed.

Lemma status_safe s live own n : ninv s live own → is_Some (netifs s !! n) → safe own s (NETIF_STATUS_CALLBACK s n).
Proof. intros Hi Hn. destruct (status_run s live own n Hi Hn) as (s' & live' & -> & Hi' & Hl & _). by exists s', live'. Qed.

Lemma link_callback_safe s live own n : ninv s live own → is_Some (netifs s !! n) → safe own s (NETIF_LINK_CALLBACK s n).
Proof. intros Hi Hn. destruct (link_callback_run s live own n Hi Hn) as (s' & live' & -> & Hi' & Hl & _). by exists s', live'. Qed.

Lemma psafe_ret own s live r : ninv s live own → psafe own s (mret (r, s)).
Proof. intros Hi. exists r, s, live. split_and!; [done..|apply same_links_refl]. Qed.

Lemma set_ipaddr_safe s live own n ip : ninv s live own → is_Some (netifs s !! n) → is_u32 ip → psafe own s (netif_do_set_ipaddr s n ip).
Proof.
  intros Hi [f Hf] Hip. unfold netif_do_set_ipaddr, get_netif at 1. rewrite Hf. out_simp. destruct (ip =? nf_ip_addr f); [by eapply psafe_ret|].
  cbn [negb]. destruct (ninv_ulist _ _ _ Hi) as [L HL]. destruct (ninv_rlist _ _ _ Hi) as [R HR].
  destruct (ip_addr_changed_run s live own L R (nf_ip_addr f) (Some ip) Hi HL HR Hip) as (s1 & live1 & -> & Hi1 & Hl1 & _). rewrite bind_clean.
  assert (∀ m, safe own s1 m → safe own s m) as Htr.
  { intros m (s' & live' & ? & ? & ?). exists s', live'. split_and!; [done..|by eapply same_links_trans]. }
  assert (is_Some (netifs s1 !! n)) as Hn1 by (eapply links_netif; [done|eauto]).
  assert (safe own s1 (s ← acd_netif_ip_addr_changed s1 n (nf_ip_addr f) ip; s ← upd_netif s n (λ f, set_nf_ip_addr f ip);
    s ← netif_issue_reports s n NETIF_REPORT_TYPE_IPV4; NETIF_STATUS_CALLBACK s n)) as Hs.
  { eapply safe_bind; [by eapply acd_addr_changed_safe|]. intros s2 live2 Hi2 Hl2.
    assert (is_Some (netifs s2 !! n)) as Hn2 by (by eapply links_netif).
    eapply safe_bind; [by eapply upd_netif_safe; [..|by apply plain_ip]|]. intros s3 live3 Hi3 Hl3.
    assert (is_Some (netifs s3 !! n)) as Hn3 by (by eapply links_netif).
    eapply safe_bind; [by eapply reports_safe|]. intros s4 live4 Hi4 Hl4. eapply status_safe; [done|by eapply links_netif]. }
  destruct (Htr _ Hs) as (s' & live' & H & Hi' & Hl'). exists 1, s', live'. split; [|done].
  apply bind_clean_inv in H as (s2 & -> & H). rewrite bind_clean. apply bind_clean_inv in H as (s3 & -> & H). rewrite bind_clean.
  apply bind_clean_inv in H as (s4 & -> & H). rewrite bind_clean, H. by rewrite bind_clean.
Qed.

Lemma set_netmask_safe s live own n m : ninv s live own → is_Some (netifs s !! n) → is_u32 m → psafe own s (netif_do_set_netmask s n m).
Proof. intros Hi [f Hf] Hm. destruct (set_netmask_ok s live own n f m Hi Hf Hm) as (r & -> & Hi' & Hl). by eexists r, _, live. Qed.

Lemma set_gw_safe s live own n g : ninv s live own → is_Some (netifs s !! n) → is_u32 g → psafe own s (netif_do_set_gw s n g).
Proof. intros Hi [f Hf] Hm. destruct (set_gw_ok s live own n f g Hi Hf Hm) as (r & -> & Hi' & Hl). by eexists r, _, live. Qed.

Lemma psafe_safe own s m : psafe own s m → safe own s ('(_, s') ← m; mret s').
Proof. intros (r & s' & live' & -> & Hi & Hl). rewrite bind_clean. by exists s', live'. Qed.

Lemma set_addr_safe s live own n ip mask gw : ninv s live own → is_Some (netifs s !! n) →
  is_u32 (default 0 ip) → is_u32 (default 0 mask) → is_u32 (default 0 gw) → safe own s (netif_set_addr s n ip mask gw).
Proof.
  intros Hi Hn Hip Hm Hg. unfold netif_set_addr. change IPADDR_ANY with 0. set (b := ip4_addr_isany _).
  eapply safe_bind.
  { destruct b; [|by eapply safe_ret]. by eapply psafe_safe, set_ipaddr_safe. }
  intros s1 live1 Hi1 Hl1. assert (is_Some (netifs s1 !! n)) as Hn1 by (by eapply links_netif).
  eapply psafe_bind; [by eapply set_netmask_safe|]. intros r2 s2 live2 Hi2 Hl2. assert (is_Some (netifs s2 !! n)) as Hn2 by (by eapply links_netif).
  eapply psafe_bind; [by eapply set_gw_safe|]. intros r3 s3 live3 Hi3 Hl3. assert (is_Some (netifs s3 !! n)) as Hn3 by (by eapply links_netif).
  destruct b; [by eapply safe_ret|]. by eapply psafe_safe, set_ipaddr_safe.
Qed.

(** ** Administrative state and link state *)

Lemma cleanup_safe s live own n : ninv s live own → safe own s (etharp_cleanup_netif s n).
Proof.
  intros Hi. destruct (cleanup_run s live own n Hi) as (s' & live' & -> & Hi' & _ & Hm & _). exists s', live'. split_and!; [done..|by eapply moves_links].
Qed.

Lemma set_up_safe s live own n : ninv s live own → is_Some (netifs s !! n) → safe own s (netif_set_up s n).
Proof.
  intros Hi Hn. unfold netif_set_up. case_match; [by eapply safe_ret|]. eapply safe_get_netif; [done|]. intros f Hf.
  case_match; [|by eapply safe_ret]. eapply safe_bind; [eapply upd_netif_safe; [done..|]; apply (plain_flags (λ x, set_flag x NETIF_FLAG_UP))|].
  intros s1 live1 Hi1 Hl1. assert (is_Some (netifs s1 !! n)) as Hn1 by (by eapply links_netif).
  eapply safe_bind; [by eapply status_safe|]. intros s2 live2 Hi2 Hl2. eapply reports_safe; [done|by eapply links_netif].
Qed.

Lemma set_down_safe s live own n : ninv s live own → is_Some (netifs s !! n) → safe own s (netif_set_down s n).
Proof.
  intros Hi Hn. unfold netif_set_down. case_match; [by eapply safe_ret|]. eapply safe_get_netif; [done|]. intros f Hf.
  case_match; [|by eapply safe_ret]. eapply safe_bind; [eapply upd_netif_safe; [done..|]; apply (plain_flags (λ x, clear_flag x NETIF_FLAG_UP))|].
  intros s1 live1 Hi1 Hl1. assert (is_Some (netifs s1 !! n)) as Hn1 by (by eapply links_netif).
  eapply safe_get_netif; [done|]. intros f1 Hf1. eapply safe_bind; [case_match; [by eapply cleanup_safe|by eapply safe_ret]|].
  intros s2 live2 Hi2 Hl2. eapply status_safe; [done|by eapply links_netif].
Qed.

(** *** Clients *)

Lemma upd_autoip_run (s : nst) a x g : autoips (ifst s) !! a = Some x → upd_autoip s a g = Clean (put_autoip s a (g x)).
Proof. intros Hx. unfold upd_autoip, get_autoip. rewrite Hx. by out_simp. Qed.

Lemma put_autoip_ok s live own a x : ninv s live own → autoip_ok x → ninv (put_autoip s a x) live own ∧ same_links s (put_autoip s a x).
Proof.
  intros [I1 I2 I3 I4 I5 I6 I7 I8 [C1 C2]] Hx. split; [|by split]. split; try done. split.
  - intros n f Hf Hn. destruct (C1 n f Hf Hn) as [H1 H2]. split; [|done]. cbn. by apply lookup_insert_is_Some'; right.
  - intros b y. cbn. intros [[<- <-]|[_ Hy]]%lookup_insert_Some; [done|by eapply C2].
Qed.

Lemma auto_link_up_safe s live own n : ninv s live own → is_Some (netifs s !! n) → safe own s (autoip_network_changed_link_up s n).
Proof.
  intros Hi [f Hf]. unfold autoip_network_changed_link_up, netif_autoip_data, get_netif. rewrite Hf. out_simp.
  destruct (Z.eqb_spec (nf_autoip f) NULL) as [|Hn]; [by eapply safe_ret|]. destruct (co_client _ _ _ (ni_auto _ _ _ Hi) n f Hf Hn) as [[x Hx] Ha].
  cbn [negb]. unfold get_autoip. rewrite Hx. out_simp. case_match; [|by eapply safe_ret].
  destruct (co_types _ _ _ (ni_auto _ _ _ Hi) _ _ Hx) as [Hip Htr Hany]. rewrite (upd_autoip_run _ _ x _ Hx), bind_clean.
  destruct (put_autoip_ok s live own (nf_autoip f) (set_ai_state x AUTOIP_STATE_CHECKING) Hi) as [Hi1 Hl1]; [done|].
  destruct (acd_start_safe _ live own n (nf_autoip f + AUTOIP_ACD) (llipaddr x) Hi1) as (r & s' & live' & Hs & Hi' & Hl'); [done..|].
  rewrite Hs, bind_clean. exists s', live'. split_and!; [done..|by eapply same_links_trans].
Qed.

Lemma auto_link_down_safe s live own n : ninv s live own → is_Some (netifs s !! n) → safe own s (autoip_network_changed_link_down s n).
Proof.
  intros Hi [f Hf]. unfold autoip_network_changed_link_down, netif_autoip_data, get_netif. rewrite Hf. out_simp.
  destruct (Z.eqb_spec (nf_autoip f) NULL) as [|Hn]; [by eapply safe_ret|]. destruct (co_client _ _ _ (ni_auto _ _ _ Hi) n f Hf Hn) as [[x Hx] Ha].
  cbn [negb]. unfold get_autoip. rewrite Hx. out_simp. rewrite andb_false_r. by eapply safe_ret.
Qed.

Lemma set_link_up_safe s live own n : ninv s live own → is_Some (netifs s !! n) → safe own s (netif_set_link_up s n).
Proof.
  intros Hi Hn. unfold netif_set_link_up. case_match; [by eapply safe_ret|]. eapply safe_get_netif; [done|]. intros f Hf.
  case_match; [|by eapply safe_ret]. eapply safe_bind; [eapply upd_netif_safe; [done..|]; apply (plain_flags (λ x, set_flag x NETIF_FLAG_LINK_UP))|].
  intros s1 live1 Hi1 Hl1. assert (is_Some (netifs s1 !! n)) as Hn1 by (by eapply links_netif).
  eapply safe_bind; [destruct (dhcp_link_up_ok s1 live1 own n Hi1 Hn1) as (s' & live' & ? & ? & ? & _); by exists s', live'|].
  intros s2 live2 Hi2 Hl2. assert (is_Some (netifs s2 !! n)) as Hn2 by (by eapply links_netif).
  eapply safe_bind; [by eapply auto_link_up_safe|]. intros s3 live3 Hi3 Hl3. assert (is_Some (netifs s3 !! n)) as Hn3 by (by eapply links_netif).
  eapply safe_bind; [by eapply reports_safe|]. intros s4 live4 Hi4 Hl4. eapply link_callback_safe; [done|by eapply links_netif].
Qed.

Lemma set_link_down_safe s live own n : ninv s live own → is_Some (netifs s !! n) → safe own s (netif_set_link_down s n).
Proof.
  intros Hi Hn. unfold netif_set_link_down. case_match; [by eapply safe_ret|]. eapply safe_get_netif; [done|]. intros f Hf.
  case_match; [|by eapply safe_ret]. eapply safe_bind; [eapply upd_netif_safe; [done..|]; apply (plain_flags (λ x, clear_flag x NETIF_FLAG_LINK_UP))|].
  intros s1 live1 Hi1 Hl1. assert (is_Some (netifs s1 !! n)) as Hn1 by (by eapply links_netif).
  eapply safe_bind; [by eapply auto_link_down_safe|]. intros s2 live2 Hi2 Hl2. assert (is_Some (netifs s2 !! n)) as Hn2 by (by eapply links_netif).
  eapply safe_bind; [by eapply acd_link_down_safe|]. intros s3 live3 Hi3 Hl3. eapply link_callback_safe; [done|by eapply links_netif].
Qed.

(** *** All of them *)

(** The calls on interfaces that the application and the clients make. *)
Inductive if_call :=
| IfSetAddr (netif : Z) (ipaddr netmask gw : option Z)
| IfSetIpaddr (netif : Z) (ipaddr : option Z)
| IfSetNetmask (netif : Z) (netmask : option Z)
| IfSetGw (netif : Z) (gw : option Z)
| IfSetDefault (netif : Z)
| IfSetUp (netif : Z)
| IfSetDown (netif : Z)
| IfLinkUp (netif : Z)
| IfLinkDown (netif : Z).

Definition if_exec (s : nst) (c : if_call) : out nst :=
  match c with
  | IfSetAddr n ip mask gw => netif_set_addr s n ip mask gw
  | IfSetIpaddr n ip => netif_set_ipaddr s n ip
  | IfSetNetmask n mask => netif_set_netmask s n mask
  | IfSetGw n gw => netif_set_gw s n gw
  | IfSetDefault n => mret (netif_set_default s n)
  | IfSetUp n => netif_set_up s n
  | IfSetDown n => netif_set_down s n
  | IfLinkUp n => netif_set_link_up s n
  | IfLinkDown n => netif_set_link_down s n
  end.

(** The interface exists, or is NULL where NULL is a default; addresses have 32 bits. *)
Definition if_allowed (s : nst) (c : if_call) : Prop :=
  match c with
  | IfSetAddr n ip mask gw => is_Some (netifs s !! n) ∧ is_u32 (default 0 ip) ∧ is_u32 (default 0 mask) ∧ is_u32 (default 0 gw)
  | IfSetIpaddr n a | IfSetNetmask n a | IfSetGw n a => is_Some (netifs s !! n) ∧ is_u32 (default 0 a)
  | IfSetDefault n => n = NULL ∨ is_Some (netifs s !! n)
  | IfSetUp n | IfSetDown n | IfLinkUp n | IfLinkDown n => is_Some (netifs s !! n)
  end.

Lemma set_default_ok s live own n : ninv s live own → (n ≠ NULL → is_Some (netifs s !! n)) →
  ninv (netif_set_default s n) live own ∧ same_links s (netif_set_default s n).
Proof. intros [I1 I2 I3 [L1 L2 L5 L3 L4] I5 I6 I7 I8 I9] Hn. split; [|by split]. by split. Qed.

Lemma if_exec_safe s live own c : ninv s live own → if_allowed s c → safe own s (if_exec s c).
Proof.
  intros Hi Ha. destruct c as [n ip mask gw|n a|n a|n a|n|n|n|n|n]; cbn [if_exec if_allowed] in *.
  - destruct Ha as (? & ? & ? & ?). by eapply set_addr_safe.
  - destruct Ha. unfold netif_set_ipaddr. case_match; [by eapply safe_ret|]. by eapply psafe_safe, set_ipaddr_safe.
  - destruct Ha. unfold netif_set_netmask. case_match; [by eapply safe_ret|]. by eapply psafe_safe, set_netmask_safe.
  - destruct Ha. unfold netif_set_gw. case_match; [by eapply safe_ret|]. by eapply psafe_safe, set_gw_safe.
  - destruct (set_default_ok s live own n Hi) as [H1 H2]; [by destruct Ha|]. by eexists _, live.
  - by eapply set_up_safe.
  - by eapply set_down_safe.
  - by eapply set_link_up_safe.
  - by eapply set_link_down_safe.
Qed.
End IfSafe.
