(* ===== verification/IfAdd.v ===== *)
(** * Adding and removing interfaces

    What [netif_add] and [netif_remove] do to the list of interfaces: the search for a number, the new
    struct in front, the removed one taken out. *)
From S2P Require Import Prelude Def Stats Iface Ip4Addr Pbuf PbufChain PbufClient PbufData PbufClone Pcb Netif NetInv Links EthOut Region Acd Autoip Etharp EtharpInv EtharpTmr Ip4Out Udp Raw UdpInv UdpOps UdpApi UdpOut RawInv Ip4 NetifAddr AutoipRun NetifUp IfInv IfSafe.

(** ** The smallest number for which something holds *)

Lemma least (P : nat → Prop) `{∀ i, Decision (P i)} k : P k → ∃ i, (i ≤ k)%nat ∧ P i ∧ ∀ j, (j < i)%nat → ¬ P j.
Proof.
  induction k as [k IH] using lt_wf_ind. intros Hk. destruct (decide (Exists P (seq 0 k))) as [He|Hn].
  - apply Exists_exists in He as (j & Hj%elem_of_seq & HP). destruct (IH j) as (i & ? & ? & ?); [lia|done|]. exists i. split; [lia|done].
  - exists k. split_and!; [done..|]. intros j Hj HP. apply Hn, Exists_exists. exists j. rewrite elem_of_seq. split; [lia|done].
Qed.

(** One of the first numbers from [v] on, modulo 255, is not among the fewer than 255 in [l]. *)
Definition nth_num (v : Z) (i : nat) : Z := (v + Z.of_nat i) mod 255.

Lemma free_num v (l : list Z) : (length l < 255)%nat → ∃ i, (i ≤ length l)%nat ∧ nth_num v i ∉ l ∧ ∀ j, (j < i)%nat → nth_num v j ∈ l.
Proof.
  intros Hl. assert (∃ i, (i ≤ length l)%nat ∧ nth_num v i ∉ l) as (k & Hk & Hnk).
  { destruct (decide (Forall (λ i, nth_num v i ∈ l) (seq 0 (S (length l))))) as [Hall|Hno].
    - exfalso. assert (length (nth_num v <$> seq 0 (S (length l))) ≤ length l)%nat as Hle.
      { apply submseteq_length, NoDup_submseteq.
        - apply NoDup_fmap_2_strong; [|apply NoDup_seq]. intros i j Hi%elem_of_seq Hj%elem_of_seq. unfold nth_num. intros. Z.div_mod_to_equations. lia.
        - intros x (i & -> & Hi)%list_elem_of_fmap. rewrite Forall_forall in Hall. by apply Hall. }
      rewrite length_fmap, length_seq in Hle. lia.
    - apply not_Forall_Exists in Hno; [|apply _]. apply Exists_exists in Hno as (i & Hi%elem_of_seq & Hn). exists i. split; [lia|done]. }
  destruct (least (λ i, nth_num v i ∉ l) k Hnk) as (i & Hi & Hni & Hmin). exists i. split_and!; [lia|done|]. intros j Hj.
  destruct (decide (nth_num v j ∈ l)) as [|Hn]; [done|]. by destruct (Hmin j Hj).
Qed.

Section IfAdd.
Context {M : Type} `{PM : PbufAlloc M} {E : NetEnv M} {U : IpUpper M} {IE : IfEnv M} `{HI : !IfClients}.
Abbreviation pst := (@pst M).
Abbreviation nst := (nst M).

(** The interfaces in order. *)
Definition listed (s : nst) (l : list Z) : Prop := nchain nf_next (netifs s) (netif_list s) l.

Definition num_of (s : nst) (m : Z) : Z := default 0 (nf_num <$> netifs s !! m).

Lemma get_netif_run (s : nst) n f : netifs s !! n = Some f → get_netif s n = Clean f.
Proof. intros Hf. unfold get_netif. rewrite Hf. by out_simp. Qed.

Lemma num_of_put_ne (s : nst) n f m : m ≠ n → num_of (put_netif s n f) m = num_of s m.
Proof. intros Hm. unfold num_of. cbn [netifs put_netif set_netifs]. by rewrite lookup_insert_ne. Qed.

Lemma nums_put (s : nst) n f (l : list Z) : n ∉ l → num_of (put_netif s n f) <$> l = num_of s <$> l.
Proof. intros Hn. apply list_fmap_ext. intros i m Hm. apply num_of_put_ne. intros ->. apply Hn. by eapply list_elem_of_lookup_2. Qed.

Lemma put_put (s : nst) n f g : put_netif (put_netif s n f) n g = put_netif s n g.
Proof. unfold put_netif, set_netifs. cbn [netifs]. by rewrite insert_insert_eq. Qed.

Lemma listed_put (s : nst) n f l h : nchain nf_next (netifs s) h l → n ∉ l → nchain nf_next (netifs (put_netif s n f)) h l.
Proof.
  intros Hc Hn. induction Hc as [|p x l Hp Hx Hc IH]; [constructor|]. apply not_elem_of_cons in Hn as [Hne Hn].
  econstructor; [done| |by apply IH]. cbn. by rewrite lookup_insert_ne.
Qed.

(** ** The number of a new interface *)

Lemma num_taken_run (s : nst) n num (l : list Z) : n ∉ l → ∀ fuel cnt h, nchain nf_next (netifs s) h l → (length l ≤ fuel)%nat →
  cnt + Z.of_nat (length l) ≤ 255 → netif_num_taken fuel s n num cnt h = Clean (bool_decide (num ∈ (num_of s <$> l))).
Proof.
  intros Hn. induction l as [|m l IH]; intros fuel cnt h Hc Hf Hcnt; inversion Hc as [|? x ? Hm Hx Hc']; subst.
  { rewrite bool_decide_eq_false_2 by (by apply not_elem_of_nil). by destruct fuel. }
  apply not_elem_of_cons in Hn as [Hne Hn]. destruct fuel as [|fuel]; cbn [length] in *; [lia|]. cbn [netif_num_taken].
  rewrite (proj2 (Z.eqb_neq m NULL)), (proj2 (Z.eqb_neq m n)), (proj2 (Z.leb_le (cnt + 1) 255)) by (done || congruence || lia). cbn [negb]. out_simp.
  unfold get_netif. rewrite Hx. out_simp. rewrite fmap_cons. assert (num_of s m = nf_num x) as -> by (unfold num_of; by rewrite Hx).
  destruct (Z.eqb_spec (nf_num x) num) as [->|Hnn]; [by rewrite bool_decide_eq_true_2 by left|].
  rewrite (IH Hn fuel (cnt + 1) (nf_next x) Hc') by lia. f_equal. apply bool_decide_ext. rewrite elem_of_cons. naive_solver.
Qed.

Lemma num_loop_run (s : nst) n f (l : list Z) i : listed s l → n ∉ l → (length l < 255)%nat → netifs s !! n = Some f → ∀ fuel v, 0 ≤ v ≤ 255 →
  nth_num v i ∉ num_of s <$> l → (∀ j, (j < i)%nat → nth_num v j ∈ num_of s <$> l) → (i < fuel)%nat →
  netif_num_loop fuel (put_netif s n (set_nf_num f v)) n = Clean (put_netif s n (set_nf_num f (nth_num v i))).
Proof.
  intros Hl Hn Hlen Hf. induction i as [|i IH]; intros fuel v Hv Hfree Hmin Hfu; (destruct fuel as [|fuel]; [lia|]); cbn [netif_num_loop].
  all: rewrite (upd_netif_run _ n _ _ (put_netif_lookup s n _)), bind_clean, put_put; cbn [nf_num set_nf_num].
  all: set (w := nth_num v 0); assert ((if v =? 255 then set_nf_num (set_nf_num f v) 0 else set_nf_num f v) = set_nf_num f w) as ->
    by (unfold w, nth_num; rewrite Z.add_0_r; destruct (Z.eqb_spec v 255) as [->|]; [done|by rewrite Z.mod_small by lia]).
  all: set (s1 := put_netif s n _); unfold get_netif; rewrite (put_netif_lookup s n _ : netifs s1 !! n = _); out_simp; cbn [nf_num set_nf_num].
  all: rewrite (num_taken_run s1 n w l Hn _ 0 (netif_list s1));
    [|by apply listed_put|unfold netif_fuel; pose proof (nchain_length _ _ _ _ (listed_put s n (set_nf_num f w) l _ Hl Hn : nchain nf_next (netifs s1) _ l)); lia|lia].
  all: replace (num_of s1 <$> l) with (num_of s <$> l) by (symmetry; by apply nums_put); rewrite bind_clean.
  - by rewrite bool_decide_eq_false_2.
  - rewrite bool_decide_eq_true_2 by (apply (Hmin 0%nat); lia). unfold s1. rewrite (upd_netif_run _ n _ _ (put_netif_lookup s n _)), bind_clean, put_put.
    assert (0 ≤ w < 255) as Hw by (apply Z.mod_pos_bound; lia). cbn [nf_num set_nf_num]. rewrite u8_id by (unfold is_u8; lia).
    assert (∀ j, nth_num (w + 1) j = nth_num v (S j)) as Hj.
    { intros j. unfold w, nth_num. Z.div_mod_to_equations. lia. }
    rewrite <- Hj in Hfree. rewrite <- Hj. apply (IH fuel (w + 1)); [lia|done| |lia]. intros j Hlt. rewrite Hj. apply Hmin. lia.
Qed.

(** ** [netif_add] *)

(** The first address of an interface: nobody is told. *)
Lemma set_ipaddr_fresh (s : nst) n f ip : n ≠ NULL → netifs s !! n = Some f → nf_ip_addr f = IPADDR_ANY → nf_status_callback f = NULL →
  ∃ r, netif_do_set_ipaddr s n ip = Clean (r, put_netif s n (set_nf_ip_addr f ip)).
Proof.
  intros Hn Hf Hip Hcb. unfold netif_do_set_ipaddr, get_netif at 1. rewrite Hf. out_simp. rewrite Hip. destruct (Z.eqb_spec ip IPADDR_ANY) as [->|Hne]; cbn [negb].
  - exists 0. unfold put_netif. rewrite insert_id by (rewrite Hf, <- Hip; by destruct f). by destruct s.
  - exists 1. unfold netif_do_ip_addr_changed. rewrite tcp_changed_any, bind_clean. unfold udp_netif_ip_addr_changed, raw_netif_ip_addr_changed.
    change (ip4_addr_isany IPADDR_ANY) with true. cbn [negb andb]. out_simp. unfold acd_netif_ip_addr_changed.
    change (ip4_addr_isany IPADDR_ANY) with true. cbn [orb]. out_simp. rewrite (upd_netif_run _ _ _ _ Hf), bind_clean. set (s1 := put_netif s n _).
    rewrite (reports_run s1 n _ _ Hn (put_netif_lookup s n _)), bind_clean. unfold NETIF_STATUS_CALLBACK, get_netif.
    rewrite (put_netif_lookup s n _ : netifs s1 !! n = _). out_simp. cbn [nf_status_callback set_nf_ip_addr]. rewrite Hcb. by out_simp.
Qed.

Lemma set_addr_fresh (s : nst) n f ip mask gw : n ≠ NULL → netifs s !! n = Some f → nf_ip_addr f = IPADDR_ANY → nf_status_callback f = NULL →
  netif_set_addr s n ip mask gw = Clean (put_netif s n (configured f (default 0 ip) (default 0 mask) (default 0 gw))).
Proof.
  intros Hn Hf Hip Hcb. unfold netif_set_addr. change IPADDR_ANY with 0. set (a := default 0 ip). set (m := default 0 mask). set (g := default 0 gw).
  destruct (ip4_addr_isany a) eqn:Hany; cbn [negb].
  - destruct (set_ipaddr_fresh s n f a Hn Hf Hip Hcb) as [r1 ->]. rewrite bind_clean, bind_ret_l.
    destruct (set_netmask_run _ n _ m (put_netif_lookup s n (set_nf_ip_addr f a))) as [r2 ->]. rewrite bind_clean, put_put.
    destruct (set_gw_run _ n _ g (put_netif_lookup s n (set_nf_netmask (set_nf_ip_addr f a) m))) as [r3 ->]. by rewrite bind_clean, put_put.
  - rewrite bind_ret_l. destruct (set_netmask_run s n f m Hf) as [r2 ->]. rewrite bind_clean.
    destruct (set_gw_run _ n _ g (put_netif_lookup s n (set_nf_netmask f m))) as [r3 ->]. rewrite bind_clean, put_put.
    destruct (set_ipaddr_fresh _ n _ a Hn (put_netif_lookup s n (set_nf_gw (set_nf_netmask f m) g))) as [r1 ->]; [done..|].
    by rewrite bind_clean, put_put.
Qed.

(** A driver's init function sets up its own interface and succeeds: the name, the hardware address, MTU and flags, not what
    [netif_add] has set. *)
Record driver (init : nst → Z → out (Z * nst)) (n : Z) (G : netif → netif) : Prop := Driver {
  dr_run s f : netifs s !! n = Some f → init s n = Clean (ERR_OK, put_netif s n (G f));
  dr_addr f : nf_ip_addr (G f) = nf_ip_addr f ∧ nf_netmask (G f) = nf_netmask f ∧ nf_gw (G f) = nf_gw f;
  dr_links f : nf_num (G f) = nf_num f ∧ nf_acd_list (G f) = nf_acd_list f ∧ nf_autoip (G f) = nf_autoip f;
  dr_mac f : mac_ok (nf_hwaddr (G f)) ∧ nf_hwaddr_len (G f) = ETH_HWADDR_LEN }.

(** The interface [h] is the first of the list, [num] the next number. *)
Definition in_front (s : nst) (n : Z) (h : netif) (num : Z) : nst :=
  set_netif_list (set_ifst (put_netif s n h) (IfSt num (autoips (ifst s)))) n.

(** The new interface, with number [v]. *)
Definition new_netif (s : nst) (f : netif) (G : netif → netif) (ip mask gw : option Z) (v : Z) : netif :=
  set_nf_next (set_nf_num (G (configured (netif_reset f (netif_num (ifst s))) (default 0 ip) (default 0 mask) (default 0 gw))) v) (netif_list s).

Lemma add_run s live own n f0 ip mask gw init G l : ninv s live own → netifs s !! n = None → n ≠ NULL → listed s l → (length l < 255)%nat →
  is_u8 (netif_num (ifst s)) → driver init n G →
  ∃ v, let h := new_netif s f0 G ip mask gw v in
    netif_add (put_netif s n f0) n ip mask gw (Some init) = Clean (n, in_front s n h (if v =? 254 then 0 else v + 1)) ∧
    0 ≤ v < 255 ∧ v ∉ (num_of s <$> l).
Proof.
  intros Hi Hnone Hn Hl Hlen H8 [Hrun Haddr Hlinks Hmac]. unfold netif_add. rewrite (proj2 (Z.eqb_neq n NULL)) by done.
  rewrite (upd_netif_run _ n _ _ (put_netif_lookup s n f0)), bind_clean, put_put. cbn [ifst put_netif set_netifs]. fold (put_netif s n (netif_reset f0 (netif_num (ifst s)))).
  set (f1 := netif_reset f0 _). rewrite (set_addr_fresh _ n f1 ip mask gw Hn (put_netif_lookup s n f1)), bind_clean, put_put by done.
  set (f2 := configured f1 _ _ _). rewrite (Hrun _ f2 (put_netif_lookup s n f2)), bind_clean, put_put. cbn [negb Z.eqb ERR_OK].
  set (f3 := G f2). assert (nf_num f3 = netif_num (ifst s)) as Hnum by (unfold f3; by rewrite (proj1 (Hlinks f2))).
  assert (n ∉ l) as Hnl by (intros Hin; destruct (nchain_elem _ _ _ _ _ Hl Hin) as [_ [? ?]]; congruence).
  destruct (free_num (nf_num f3) (num_of s <$> l)) as (i & Hile & Hfree & Hmin); [by rewrite length_fmap|]. rewrite length_fmap in Hile.
  set (v := nth_num (nf_num f3) i) in *. exists v. cbv zeta. assert (0 ≤ v < 255) as Hv by (apply Z.mod_pos_bound; lia). split; [|done].
  set (s3 := put_netif s n f3). assert (num_of s3 <$> l = num_of s <$> l) as Hns by by apply nums_put.
  assert (listed s3 l) as Hl3 by by apply listed_put. assert (netifs s3 !! n = Some f3) as Hf3 by apply put_netif_lookup.
  assert (s3 = put_netif s3 n (set_nf_num f3 (nf_num f3))) as Hs3.
  { unfold s3. rewrite put_put. f_equal. generalize f3. by intros []. }
  rewrite Hs3 at 2. rewrite (num_loop_run s3 n f3 l i Hl3 Hnl Hlen Hf3); [|unfold is_u8 in H8; lia|by rewrite Hns|intros j; rewrite Hns; apply Hmin|].
  2:{ unfold netif_fuel. assert (n :: l ⊆+ (map_to_list (netifs s3)).*1) as Hsub.
      { apply NoDup_submseteq; [constructor; [done|by eapply nchain_NoDup]|]. intros m Hm. apply list_elem_of_fmap.
        assert (is_Some (netifs s3 !! m)) as [g Hg] by (apply elem_of_cons in Hm as [->|Hm]; [by eexists|by apply (nchain_elem _ _ _ _ _ Hl3)]).
        exists (m, g). split; [done|]. by apply elem_of_map_to_list. }
      apply submseteq_length in Hsub. rewrite length_fmap, length_map_to_list in Hsub. cbn [length] in Hsub. lia. }
  rewrite bind_clean. fold v. unfold s3. rewrite put_put. set (f4 := set_nf_num f3 v). unfold get_netif. rewrite put_netif_lookup. out_simp.
  cbn [nf_num set_nf_num f4 ifst put_netif set_netifs]. set (s5 := set_ifst _ _). assert (netifs s5 !! n = Some f4) as Hf5 by apply put_netif_lookup.
  rewrite (upd_netif_run s5 n _ _ Hf5), bind_clean. unfold in_front, new_netif. do 3 f_equal. unfold s5, put_netif, set_ifst, set_netifs, set_netif_list. cbn.
  rewrite insert_insert_eq. destruct (v =? 254) eqn:H254; [done|]. rewrite u8_id by (unfold is_u8; lia). done.
Qed.

Lemma in_front_ok s live own n h num l : ninv s live own → netifs s !! n = None → n ≠ NULL → listed s l → nf_next h = netif_list s → netif_ok h →
  nf_acd_list h = NULL → nf_autoip h = NULL → ninv (in_front s n h num) live own ∧ listed (in_front s n h num) (n :: l).
Proof.
  intros Hi Hnone Hn Hl Hnx Hok Ha Hau. assert (n ∉ l) as Hnl by (intros Hin; destruct (nchain_elem _ _ _ _ _ Hl Hin) as [_ [? ?]]; congruence).
  assert (listed (in_front s n h num) (n :: l)) as Hl'.
  { apply (nchain_cons _ _ _ h); [done|apply lookup_insert_eq|]. rewrite Hnx. by apply listed_put. }
  split; [|done]. destruct Hi as [I1 I2 I3 [L1 L2 L5 L3 L4] I5 I6 I7 I8 [C1 C2]].
  assert (∀ m, is_Some (netifs s !! m) → is_Some (netifs (in_front s n h num) !! m)) as Hsome.
  { intros m Hm. cbn. by apply lookup_insert_is_Some'; right. }
  split; try done; [split; try done|by eapply table_ok_netifs|split; [|done]].
  - cbn. intros m g [[<- <-]|[_ Hg]]%lookup_insert_Some; [done|by eapply L1].
  - by exists (n :: l).
  - intros Hd. by apply Hsome, L5.
  - cbn. intros m g [[<- <-]|[_ Hg]]%lookup_insert_Some; [rewrite Ha; exists []; constructor|by eapply L3].
  - cbn. intros m g [[<- <-]|[_ Hg]]%lookup_insert_Some Hne; [done|by eapply C1].
Qed.

Lemma new_netif_ok (s : nst) f G ip mask gw v init n : driver init n G → is_u32 (default 0 ip) → is_u32 (default 0 mask) → is_u32 (default 0 gw) →
  let h := new_netif s f G ip mask gw v in netif_ok h ∧ nf_next h = netif_list s ∧ nf_acd_list h = NULL ∧ nf_autoip h = NULL ∧
  nf_num h = v ∧ nf_ip_addr h = default 0 ip ∧ nf_netmask h = default 0 mask ∧ nf_gw h = default 0 gw.
Proof.
  intros [_ Haddr Hlinks Hmac] H1 H2 H3. cbv zeta. unfold new_netif. set (f2 := configured _ _ _ _).
  destruct (Haddr f2) as (A1 & A2 & A3), (Hlinks f2) as (B1 & B2 & B3), (Hmac f2) as [M1 M2]. cbn.
  rewrite A1, A2, A3, B2, B3. split_and!; try done. by split; cbn; rewrite ?A1, ?A2, ?A3.
Qed.

(** ** Interfaces by index *)

(** The interfaces of the list have different numbers, and an index that is not 0. *)
Definition numbered (s : nst) (l : list Z) : Prop := NoDup (num_of s <$> l) ∧ Forall (λ m, 0 ≤ num_of s m < 255) l.

Lemma by_index_run (s : nst) l m g : listed s l → numbered s l → m ∈ l → netifs s !! m = Some g → netif_get_by_index s (netif_get_index g) = Clean m.
Proof.
  intros Hl [Hnd Hr] Hm Hg. rewrite Forall_forall in Hr. assert (num_of s m = nf_num g) as Hnum by (unfold num_of; by rewrite Hg).
  pose proof (Hr _ Hm) as Hrm. rewrite Hnum in Hrm. assert (netif_get_index g = nf_num g + 1) as Hidx by (unfold netif_get_index; rewrite u8_id; [done|unfold is_u8; lia]).
  unfold netif_get_by_index. rewrite Hidx, (proj2 (Z.eqb_neq _ NETIF_NO_INDEX)) by (change NETIF_NO_INDEX with 0; lia). cbn [negb].
  destruct (index_loop_run s (nf_num g + 1) l (netif_fuel s) _ Hl) as [(l1 & l2 & q & f & -> & Hq & Hx & Hno & _ & ->)|[Hno _]].
  { unfold netif_fuel. pose proof (nchain_length _ _ _ _ Hl). lia. }
  - f_equal. apply elem_of_app in Hm as [Hm|Hm]; [exfalso; by apply (Hno m g Hm Hg)|]. apply elem_of_cons in Hm as [->|Hm]; [done|].
    exfalso. assert (num_of s q = nf_num f) as Hnf by (unfold num_of; by rewrite Hq). assert (0 ≤ num_of s q < 255) as Hrq by (apply Hr; apply elem_of_app; right; left).
    assert (nf_num f = nf_num g) as Heq by (unfold netif_get_index in Hx; rewrite u8_id in Hx; [lia|unfold is_u8; lia]).
    rewrite fmap_app, fmap_cons in Hnd. apply NoDup_app in Hnd as (_ & _ & Hnd). apply NoDup_cons in Hnd as [Hnd _]. apply Hnd.
    apply list_elem_of_fmap. exists m. split; [congruence|done].
  - exfalso. by apply (Hno m g Hm Hg).
Qed.

Lemma in_front_numbered (s : nst) n h num l v : numbered s l → n ∉ l → nf_num h = v → 0 ≤ v < 255 → v ∉ (num_of s <$> l) →
  numbered (in_front s n h num) (n :: l).
Proof.
  intros [Hnd Hr] Hn Hh Hv Hfree. assert (num_of (in_front s n h num) <$> l = num_of s <$> l) as Heq by by apply (nums_put s n h l).
  assert (num_of (in_front s n h num) n = v) as Hnn by (unfold num_of; cbn; by rewrite lookup_insert_eq).
  split.
  - rewrite fmap_cons, Heq, Hnn. by constructor.
  - constructor; [by rewrite Hnn|]. rewrite Forall_forall in Hr |- *. intros m Hm. change (num_of (in_front s n h num) m) with (num_of (put_netif s n h) m).
    rewrite num_of_put_ne by (by intros ->). by apply Hr.
Qed.

(** ** Going down *)

(** The interface is down. *)
Definition downed (f : netif) : netif := set_nf_flags f (clear_flag (nf_flags f) NETIF_FLAG_UP).

(** The ARP entries of an Ethernet interface are dropped. *)
Definition flushed_arp (n : Z) (f : netif) (T : list etharp_entry) : list etharp_entry :=
  if has_flag (nf_flags (downed f)) NETIF_FLAG_ETHARP then cleaned n <$> T else T.

Lemma set_down_run s live own n f L R : ninv s live own → netifs s !! n = Some f → has_flag (nf_flags f) NETIF_FLAG_UP = true → ulist s L → rlist s R →
  ∃ s' live', netif_set_down s n = Clean s' ∧ ninv s' live' own ∧ same_links s s' ∧
    netifs s' = <[n := downed f]> (netifs s) ∧ netif_list s' = netif_list s ∧ netif_default s' = netif_default s ∧
    ulist s' L ∧ rlist s' R ∧ arp_table s' = flushed_arp n f (arp_table s).
Proof.
  intros Hi Hf Hup HL HR. destruct (netif_ok_of _ _ _ _ _ Hi Hf) as [Hn Hok]. unfold netif_set_down. rewrite (proj2 (Z.eqb_neq n NULL)) by done.
  rewrite (get_netif_run s n f Hf), bind_clean, Hup, (upd_netif_run _ _ _ _ Hf), bind_clean. fold (downed f). set (s1 := put_netif s n (downed f)).
  destruct (put_netif_ok s live own n f (downed f) Hi Hf) as [Hi1 Hl1]; [done..|by destruct Hok|]. fold s1 in Hi1, Hl1.
  rewrite (get_netif_run s1 n (downed f) (put_netif_lookup s n _)), bind_clean.
  assert (∃ s2 live2, (if has_flag (nf_flags (downed f)) NETIF_FLAG_ETHARP then etharp_cleanup_netif s1 n else mret s1) = Clean s2 ∧ ninv s2 live2 own ∧
    same_links s1 s2 ∧ netifs s2 = netifs s1 ∧ netif_list s2 = netif_list s1 ∧ arp_table s2 = flushed_arp n f (arp_table s) ∧
    (netif_default s2 = netif_default s1 ∧ udps s2 = udps s1 ∧ raws s2 = raws s1)) as (s2 & live2 & -> & Hi2 & Hl2 & A1 & A2 & A3 & A4 & A5 & A6).
  { unfold flushed_arp. destruct (has_flag (nf_flags (downed f)) NETIF_FLAG_ETHARP); [|by exists s1, live].
    destruct (cleanup_run s1 live own n Hi1) as (s2 & live2 & H & Hi2 & _ & Hmv & _ & Ht & _). pose proof (moves_links _ _ _ _ Hmv).
    destruct Hmv as [? ? _ _ _ _ (? & ? & ? & ?)]. by exists s2, live2. }
  rewrite bind_clean. destruct (status_run s2 live2 own n Hi2) as (s3 & live3 & -> & Hi3 & Hl3 & [C1 C2 C3 C4 C5 C6 C7] & Ht); [rewrite A1; eexists; apply put_netif_lookup|].
  exists s3, live3. split_and!; [done|done|by eapply same_links_trans; [|eapply same_links_trans]|..].
  - by rewrite C1, A1.
  - by rewrite C2, A2.
  - by rewrite C3, A4.
  - unfold ulist. by rewrite C5, A5.
  - unfold rlist. by rewrite C6, A6.
  - by rewrite Ht, A3.
Qed.

(** ** [netif_remove] *)

(** The interface changes together with the links of the list. *)
Lemma netif_relink_ok s live own n f g h l : ninv s live own → netifs s !! n = Some f → nf_acd_list g = nf_acd_list f → nf_autoip g = nf_autoip f →
  netif_ok g → nchain nf_next (<[n := g]> (netifs s)) h l → ninv (set_netif_list (put_netif s n g) h) live own.
Proof.
  intros Hi Hf Ha Hu Hg Hl. destruct Hi as [I1 I2 I3 [L1 L2 L5 L3 L4] I5 I6 I7 I8 I9].
  assert (∀ m, is_Some (netifs s !! m) → is_Some (<[n := g]> (netifs s) !! m)) as Hsome by (intros m Hm; by apply lookup_insert_is_Some'; right).
  split; try done; [split; try done|..].
  - cbn. intros m x [[<- <-]|[_ Hx]]%lookup_insert_Some; [split; [by eapply L1|done]|by eapply L1].
  - by exists l.
  - intros Hd. by apply Hsome, L5.
  - cbn. intros m x [[<- <-]|[_ Hx]]%lookup_insert_Some; [rewrite Ha; by eapply L3|by eapply L3].
  - by eapply table_ok_netifs.
  - by apply (clients_put _ _ _ _ f).
Qed.

Lemma set_list_same (s : nst) n f : netifs s !! n = Some f → set_netif_list (put_netif s n f) (netif_list s) = s.
Proof. intros Hf. unfold put_netif, set_netifs, set_netif_list. cbn. rewrite insert_id by done. by destruct s. Qed.

Lemma netif_unlink_run (s : nst) n f l2 l1 : netifs s !! n = Some f → ∀ fuel h, nchain nf_next (netifs s) h (l1 ++ n :: l2) → l1 ≠ [] →
  (length l1 ≤ fuel)%nat → ∃ p g l0, l1 = l0 ++ [p] ∧ netifs s !! p = Some g ∧
  netif_unlink fuel s n h = Clean (true, put_netif s p (set_nf_next g (nf_next f))).
Proof.
  intros Hf. induction l1 as [|p l1 IH]; intros fuel h Hc Hne Hfu; [done|]. cbn in Hc. inversion Hc as [|? g ? Hp Hg Hc']; subst.
  destruct fuel as [|fuel]; cbn [length] in Hfu; [lia|]. cbn [netif_unlink]. rewrite (proj2 (Z.eqb_neq p NULL)) by done. rewrite (get_netif_run s p g Hg), bind_clean.
  destruct l1 as [|q l1].
  - exists p, g, []. inversion Hc'; subst. rewrite Z.eqb_refl, (get_netif_run s _ f Hf), bind_clean, (upd_netif_run _ _ _ _ Hg), bind_clean. done.
  - assert (nf_next g = q) as Hq by (by inversion Hc'). assert (q ≠ n) as Hqn.
    { intros ->. apply nchain_NoDup in Hc'. cbn in Hc'. apply NoDup_cons in Hc' as [Hc' _]. apply Hc', elem_of_app. right. left. }
    rewrite (proj2 (Z.eqb_neq (nf_next g) n)) by congruence. destruct (IH fuel (nf_next g) Hc') as (p' & g' & l0 & Hl & Hg' & ->); [done|lia|].
    exists p', g', (p :: l0). split; [by rewrite Hl|done].
Qed.

Lemma netif_unlink_absent (s : nst) n l : n ∉ l → n ≠ NULL → ∀ fuel h, nchain nf_next (netifs s) h l → (length l ≤ fuel)%nat → netif_unlink fuel s n h = Clean (false, s).
Proof.
  intros Hn Hn0. induction l as [|p l IH]; intros fuel h Hc Hf; inversion Hc as [|? g ? Hp Hg Hc']; subst; [by destruct fuel|].
  apply not_elem_of_cons in Hn as [Hne Hn]. destruct fuel as [|fuel]; cbn [length] in Hf; [lia|]. cbn [netif_unlink].
  rewrite (proj2 (Z.eqb_neq p NULL)) by done. rewrite (get_netif_run s p g Hg), bind_clean.
  assert (nf_next g ≠ n) as Hnx by (intros Heq; inversion Hc'; subst; [congruence|]; apply Hn; left).
  rewrite (proj2 (Z.eqb_neq _ n)) by done. apply IH; [done|done|lia].
Qed.

(** The interface at the head of the list. *)
Lemma netif_unlink_head s live own n f l : ninv s live own → netifs s !! n = Some f → nchain nf_next (netifs s) n (n :: l) →
  ninv (set_netif_list s (nf_next f)) live own ∧ listed (set_netif_list s (nf_next f)) l.
Proof.
  intros Hi Hf Hl. inversion Hl as [|? x ? Hm Hx Hc]; subst. assert (x = f) as -> by congruence. split; [|done].
  pose proof (netif_relink_ok s live own n f f (nf_next f) l Hi Hf) as Hr. rewrite insert_id in Hr by done.
  replace (set_netif_list s (nf_next f)) with (set_netif_list (put_netif s n f) (nf_next f)).
  - apply Hr; [done..|by apply (netif_ok_of _ _ _ _ _ Hi Hf)|done].
  - unfold put_netif, set_netifs, set_netif_list. cbn. by rewrite insert_id.
Qed.

(** The interface behind [p]. *)
Lemma netif_unlink_mid s live own n f p g l0 l2 : ninv s live own → netifs s !! n = Some f → netifs s !! p = Some g →
  listed s (l0 ++ p :: n :: l2) → let s' := put_netif s p (set_nf_next g (nf_next f)) in
  ninv s' live own ∧ listed s' (l0 ++ p :: l2) ∧ filter (.≠ n) (l0 ++ p :: n :: l2) = l0 ++ p :: l2 ∧ p ≠ n.
Proof.
  intros Hi Hf Hg Hl. pose proof (nchain_NoDup _ _ _ _ Hl) as Hnd. pose proof (nchain_suffix _ _ _ _ _ _ Hl) as Hs1.
  inversion Hs1 as [|? x ? Hp Hx Hs2]; subst. assert (x = g) as -> by congruence. inversion Hs2 as [|? y ? Hn Hy Hs3]; subst.
  assert (y = f) as -> by congruence. set (n := nf_next g) in *.
  apply NoDup_app in Hnd as (Hnd0 & Hd0 & Hnd). apply NoDup_cons in Hnd as [Hpn Hnd]. apply NoDup_cons in Hnd as [Hnl2 Hnd2].
  assert (p ≠ n) as Hpne by (intros Heq; apply Hpn; rewrite <- Heq; left).
  assert (listed (put_netif s p (set_nf_next g (nf_next f))) (l0 ++ p :: l2)) as Hl'.
  { apply (nchain_relink nf_next set_nf_next (netifs s) _ l0 p g n l2); [done|exact Hl|done| | |done].
    - intros Hin. apply (Hd0 p Hin). left.
    - intros Hin. apply Hpn. by right. }
  split_and!; [|done| |done].
  - pose proof (netif_relink_ok s live own p g (set_nf_next g (nf_next f)) (netif_list s) (l0 ++ p :: l2) Hi Hg eq_refl eq_refl) as Hr.
    apply Hr; [|exact Hl']. destruct (netif_ok_of _ _ _ _ _ Hi Hg) as [_ []]. by split.
  - rewrite filter_app, filter_cons_True, filter_cons_False by (done || naive_solver). f_equal; [|f_equal]; apply filter_absent; [|done].
    intros Hin. apply (Hd0 _ Hin). right. left.
Qed.

(** The end of [netif_remove]. *)
Definition netif_delist (s : nst) (n : Z) : out nst :=
  if netif_list s =? n then f ← get_netif s n; mret (set_netif_list s (nf_next f))
  else '(_, s) ← netif_unlink (netif_fuel s) s n (netif_list s); mret s.

Lemma delist_run s live own n f l : ninv s live own → netifs s !! n = Some f → listed s l →
  ∃ s', netif_delist s n = Clean s' ∧ ninv s' live own ∧ listed s' (filter (.≠ n) l) ∧
    s' = set_netif_list (set_netifs s (netifs s')) (netif_list s') ∧ netifs s' !! n = Some f.
Proof.
  intros Hi Hf Hl. destruct (netif_ok_of _ _ _ _ _ Hi Hf) as [Hn _]. pose proof (nchain_length _ _ _ _ Hl) as Hlen. unfold netif_delist.
  destruct (Z.eqb_spec (netif_list s) n) as [<-|Hne].
  - rewrite (get_netif_run s _ f Hf), bind_clean. eexists. split; [done|]. unfold listed in Hl. destruct l as [|m l]; [by inversion Hl|].
    assert (m = netif_list s) as -> by (by inversion Hl). destruct (netif_unlink_head s live own _ f l Hi Hf Hl) as [H1 H2].
    pose proof (nchain_NoDup _ _ _ _ Hl) as [Hnl _]%NoDup_cons. rewrite filter_cons_False, filter_absent by (done || naive_solver). split_and!; [done..|by destruct s|done].
  - destruct (decide (n ∈ l)) as [Hin|Hnin].
    + apply list_elem_of_split in Hin as (l1 & l2 & ->). assert (l1 ≠ []) as Hl1 by (intros ->; apply Hne; by inversion Hl).
      destruct (netif_unlink_run s n f l2 l1 Hf (netif_fuel s) _ Hl Hl1) as (p & g & l0 & -> & Hg & ->).
      { unfold netif_fuel. rewrite length_app in Hlen. lia. }
      rewrite bind_clean. rewrite <- app_assoc in *. cbn [app] in *. destruct (netif_unlink_mid s live own n f p g l0 l2 Hi Hf Hg Hl) as (H1 & H2 & H3 & H4).
      eexists. split; [done|]. rewrite H3. split_and!; [done|done|by destruct s|]. cbn. by rewrite lookup_insert_ne.
    + rewrite (netif_unlink_absent s n l Hnin Hn) by (done || (unfold netif_fuel; lia)). rewrite bind_clean. exists s. split; [done|]. split; [done|].
      split_and!; [by rewrite filter_absent|by destruct s|done].
Qed.

(** The interface leaves. *)
Lemma netif_remove_run s live own n f l L R : ninv s live own → netifs s !! n = Some f → listed s l → ulist s L → rlist s R →
  ∃ s' live', netif_remove s n = Clean s' ∧ ninv s' live' own ∧ listed s' (filter (.≠ n) l) ∧ netifs s' !! n = Some (if has_flag (nf_flags f) NETIF_FLAG_UP then downed f else f) ∧
    netif_default s' = (if netif_default s =? n then NULL else netif_default s) ∧ ulist s' L ∧ rlist s' R ∧
    (has_flag (nf_flags f) NETIF_FLAG_UP = true → has_flag (nf_flags (downed f)) NETIF_FLAG_ETHARP = true →
       ∀ e, e ∈ arp_table s' → ae_state e ≠ ETHARP_STATE_EMPTY → ae_netif e ≠ n).
Proof.
  intros Hi Hf Hl HL HR. destruct (netif_ok_of _ _ _ _ _ Hi Hf) as [Hn _]. unfold netif_remove. rewrite (proj2 (Z.eqb_neq n NULL)), (get_netif_run s n f Hf), bind_clean by done.
  assert (∃ s1 live1, (if negb (ip4_addr_isany (nf_ip_addr f)) then netif_do_ip_addr_changed s (Some (nf_ip_addr f)) None else mret s) = Clean s1 ∧
    ninv s1 live1 own ∧ same_links s s1 ∧ netifs s1 = netifs s ∧ netif_list s1 = netif_list s ∧ netif_default s1 = netif_default s ∧ ulist s1 L ∧ rlist s1 R)
    as (s1 & live1 & -> & Hi1 & Hl1 & N1 & M1 & D1 & U1 & W1).
  { destruct (negb _); [|by exists s, live]. destruct (ip_addr_changed_run s live own L R (nf_ip_addr f) None Hi HL HR) as (s1 & live1 & H & Hi1 & Hl1 & [? ? ? ? ? ? ?]); [done|].
    by exists s1, live1. }
  rewrite bind_clean. assert (netifs s1 !! n = Some f) as Hf1 by (by rewrite N1). rewrite (get_netif_run s1 n f Hf1), bind_clean.
  set (f2 := if has_flag (nf_flags f) NETIF_FLAG_UP then downed f else f).
  assert (∃ s2 live2, (if has_flag (nf_flags f) NETIF_FLAG_UP then netif_set_down s1 n else mret s1) = Clean s2 ∧ ninv s2 live2 own ∧ same_links s1 s2 ∧
    netifs s2 !! n = Some f2 ∧ netif_list s2 = netif_list s1 ∧ netif_default s2 = netif_default s1 ∧ ulist s2 L ∧ rlist s2 R ∧
    (has_flag (nf_flags f) NETIF_FLAG_UP = true → arp_table s2 = flushed_arp n f (arp_table s1))) as (s2 & live2 & -> & Hi2 & Hl2 & N2 & M2 & D2 & U2 & W2 & T2).
  { unfold f2. destruct (has_flag (nf_flags f) NETIF_FLAG_UP) eqn:Hup; [|by exists s1, live1].
    destruct (set_down_run s1 live1 own n f L R Hi1 Hf1 Hup U1 W1) as (s2 & live2 & H & Hi2 & Hl2 & Q1 & Q2 & Q3 & Q4 & Q5 & Q6).
    exists s2, live2. split_and!; try done. rewrite Q1. apply lookup_insert_eq. }
  rewrite bind_clean. set (s3 := if netif_default s2 =? n then netif_set_default s2 NULL else s2).
  assert (ninv s3 live2 own) as Hi3 by (unfold s3; destruct (netif_default s2 =? n); [by apply set_default_ok|done]).
  assert (netifs s3 = netifs s2 ∧ netif_list s3 = netif_list s2 ∧ arp_table s3 = arp_table s2 ∧ udps s3 = udps s2 ∧ raws s3 = raws s2) as (E1 & E2 & E3 & E4 & E5)
    by (unfold s3; by destruct (netif_default s2 =? n)).
  assert (listed s3 l) as Hl3.
  { unfold listed. rewrite E1, E2, M2, M1. eapply nchain_links; [exact Hl|]. by rewrite (sl_nf_next _ _ Hl2), N1. }
  change (∃ s' live', netif_delist s3 n = Clean s' ∧ ninv s' live' own ∧ listed s' (filter (.≠ n) l) ∧ netifs s' !! n = Some f2 ∧
    netif_default s' = (if netif_default s =? n then NULL else netif_default s) ∧ ulist s' L ∧ rlist s' R ∧
    (has_flag (nf_flags f) NETIF_FLAG_UP = true → has_flag (nf_flags (downed f)) NETIF_FLAG_ETHARP = true →
       ∀ e, e ∈ arp_table s' → ae_state e ≠ ETHARP_STATE_EMPTY → ae_netif e ≠ n)).
  destruct (delist_run s3 live2 own n f2 l Hi3) as (s4 & H & Hi4 & Hl4 & Hs4 & N4); [by rewrite E1|done|].
  exists s4, live2. split_and!; try done.
  - rewrite Hs4. cbn. unfold s3. rewrite D2, D1. destruct (netif_default s =? n); [done|]. by rewrite D2, D1.
  - rewrite Hs4. unfold ulist. cbn. by rewrite E4.
  - rewrite Hs4. unfold rlist. cbn. by rewrite E5.
  - intros Hup Heth e He Hne. assert (arp_table s4 = arp_table s2) as Ht by (rewrite Hs4; exact E3). rewrite Ht, (T2 Hup) in He.
    unfold flushed_arp in He. rewrite Heth in He. apply list_elem_of_fmap in He as (e0 & -> & _). unfold cleaned in *. by case_decide; naive_solver.
Qed.
End IfAdd.
