(* ===== verification/AppInv.v ===== *)
(** * Configuring the interface of the board

    What [netdev_config] of app.c makes of the interface. *)
From S2P Require Import Prelude Def Stats Iface Ip4Addr Pbuf PbufChain PbufClient PbufData PbufClone Pcb Netif NetInv Links EthOut Region Acd Autoip Etharp EtharpInv EtharpTmr Ip4Out Udp Raw UdpInv UdpOps UdpApi UdpOut RawInv Ip4 NetifAddr AutoipRun NetifUp AppIf IfInv IfSafe IfAdd.

(** The configuration has a hardware address, and its fields the width of their types. *)
Record dev_ok (dev : netdev_config_t) : Prop := DevOk {
  do_mac : mac_ok (dev_hwaddr dev) ∧ dev_hwaddr dev ≠ ethzero;
  do_ip : is_u32 (dev_ipaddr dev);
  do_mask : is_u32 (dev_netmask dev);
  do_gw : is_u32 (dev_gw dev) }.

Section AppInv.
Context {M : Type} `{PM : PbufAlloc M} {E : NetEnv M} {U : IpUpper M} {IE : IfEnv M} {AE : AppEnv M} `{HI : !IfClients}.
Abbreviation pst := (@pst M).
Abbreviation nst := (nst M).

(** The driver's init function. *)
Lemma mynetif_driver dev n : dev_ok dev → driver (M := M) (mynetif_init dev) n (mynetif_setup dev).
Proof.
  intros [[[Hlen Hb] Hz] _ _ _].
  assert (∀ f, mynetif_setup dev f = Netif (nf_next f) (nf_ip_addr f) (nf_netmask f) (nf_gw f)
    (if negb (0 =? dev_mtu dev) then u16 (dev_mtu dev) else 1500) (dev_hwaddr dev) 6
    (Z.lor (Z.lor NETIF_FLAG_BROADCAST NETIF_FLAG_ETHARP) NETIF_FLAG_ETHERNET) (nf_num f) (nf_acd_list f)
    (nf_status_callback f) (nf_link_callback f) (nf_dhcp f) (nf_autoip f)) as Hs.
  { intros f. unfold mynetif_setup. by rewrite bool_decide_eq_false_2. }
  split.
  - intros s f Hf. unfold mynetif_init. rewrite (upd_netif_run _ _ _ _ Hf), bind_clean, Hlen, bool_decide_eq_true_2 by done.
    change (Z.of_nat 6 =? 6) with true. by out_simp.
  - intros f. by rewrite Hs.
  - intros f. by rewrite Hs.
  - intros f. rewrite Hs. split; [by split|done].
Qed.

(** The interface of the board, up: its number is [v]. *)
Definition board_netif (dev : netdev_config_t) (nx v : Z) : netif :=
  Netif nx (dev_ipaddr dev) (dev_netmask dev) (dev_gw dev) (if negb (0 =? dev_mtu dev) then u16 (dev_mtu dev) else 1500) (dev_hwaddr dev) 6 0x1f v NULL
    netif_status_callback_fn link_callback_fn NULL NULL.

(** The new interface as it is configured, with the callbacks registered, before it goes up. *)
Lemma board_netif_added (s : nst) dev f v : dev_ok dev →
  set_nf_link_callback (set_nf_status_callback (new_netif s f (mynetif_setup dev) (Some (dev_ipaddr dev)) (Some (dev_netmask dev)) (Some (dev_gw dev)) v)
    netif_status_callback_fn) link_callback_fn = set_nf_flags (board_netif dev (netif_list s) v) 0x1a.
Proof.
  intros [[[Hlen Hb] Hz] _ _ _]. unfold new_netif, mynetif_setup. by rewrite bool_decide_eq_false_2.
Qed.

(** Registering the callbacks and, as configured, the default route. *)
Lemma callbacks_run s live own n f c1 c2 d : ninv s live own → netifs s !! n = Some f →
  let g := set_nf_link_callback (set_nf_status_callback f c1) c2 in
  let s' := if (d : bool) then netif_set_default (put_netif s n g) n else put_netif s n g in
  (∀ k : nst → out nst, (s ← netif_set_status_callback s n c1; s ← netif_set_link_callback s n c2; k (if d then netif_set_default s n else s)) = k s') ∧
  ninv s' live own ∧ same_links s s'.
Proof.
  intros Hi Hf g s'. destruct (netif_ok_of _ _ _ _ _ Hi Hf) as [Hn Hok]. unfold netif_set_status_callback, netif_set_link_callback.
  rewrite (proj2 (Z.eqb_neq n NULL)) by done. cbn [negb]. split.
  { intros k. rewrite (upd_netif_run _ _ _ _ Hf), bind_clean. by rewrite (upd_netif_run _ _ _ _ (put_netif_lookup s n _)), bind_clean, put_put. }
  destruct (put_netif_ok s live own n f g Hi Hf) as [Hi1 Hl1]; [done..|by destruct Hok|]. unfold s'. destruct d; [|done].
  destruct (set_default_ok (put_netif s n g) live own n Hi1) as [Hi2 Hl2]; [intros _; eexists; apply put_netif_lookup|].
  split; [done|by eapply same_links_trans].
Qed.

(** The link and the interface go up. *)
Lemma go_up_run s live own n f : ninv s live own → netifs s !! n = Some f → nf_autoip f = NULL → has_flag (nf_flags f) NETIF_FLAG_LINK_UP = false →
  has_flag (set_flag (nf_flags f) NETIF_FLAG_LINK_UP) NETIF_FLAG_UP = false →
  let g := set_nf_flags f (set_flag (set_flag (nf_flags f) NETIF_FLAG_LINK_UP) NETIF_FLAG_UP) in
  ∃ s' live', (s ← netif_set_link_up s n; netif_set_up s n) = Clean s' ∧ ninv s' live' own ∧ same_links s s' ∧ same_cfg (put_netif s n g) s'.
Proof.
  intros Hi Hf Hau Hlk Hup g. destruct (netif_ok_of _ _ _ _ _ Hi Hf) as [Hn Hok].
  unfold netif_set_link_up. rewrite (proj2 (Z.eqb_neq n NULL)), (get_netif_run s n f Hf), bind_clean, Hlk by done. cbn [negb].
  rewrite (upd_netif_run _ _ _ _ Hf), bind_clean. set (f1 := set_nf_flags f _). set (s1 := put_netif s n f1).
  destruct (put_netif_ok s live own n f f1 Hi Hf) as [Hi1 Hl1]; [done..|by destruct Hok|]. fold s1 in Hi1, Hl1.
  assert (netifs s1 !! n = Some f1) as Hf1 by apply put_netif_lookup.
  destruct (dhcp_link_up_ok s1 live own n Hi1) as (s2 & live2 & -> & Hi2 & Hl2 & C2); [by eexists|]. rewrite bind_clean.
  assert (netifs s2 !! n = Some f1) as Hf2 by (by rewrite (sc_netifs _ _ C2)).
  assert (autoip_network_changed_link_up s2 n = Clean s2) as ->.
  { unfold autoip_network_changed_link_up, netif_autoip_data. rewrite (get_netif_run s2 n f1 Hf2), bind_clean, bind_ret_l. change (nf_autoip f1) with (nf_autoip f). by rewrite Hau. }
  rewrite bind_clean, (reports_run s2 n f1 _ Hn Hf2), bind_clean.
  destruct (link_callback_run s2 live2 own n Hi2) as (s3 & live3 & -> & Hi3 & Hl3 & C3 & _); [by eexists|]. rewrite bind_clean.
  assert (netifs s3 !! n = Some f1) as Hf3 by (by rewrite (sc_netifs _ _ C3)).
  unfold netif_set_up. rewrite (proj2 (Z.eqb_neq n NULL)), (get_netif_run s3 n f1 Hf3), bind_clean by done.
  change (nf_flags f1) with (set_flag (nf_flags f) NETIF_FLAG_LINK_UP). rewrite Hup. cbn [negb].
  rewrite (upd_netif_run _ _ _ _ Hf3), bind_clean. change (set_nf_flags f1 _) with g. set (s4 := put_netif s3 n g).
  destruct (put_netif_ok s3 live3 own n f1 g Hi3 Hf3) as [Hi4 Hl4]; [done..|by destruct Hok|]. fold s4 in Hi4, Hl4.
  assert (netifs s4 !! n = Some g) as Hf4 by apply put_netif_lookup.
  destruct (status_run s4 live3 own n Hi4) as (s5 & live5 & -> & Hi5 & Hl5 & C5 & _); [by eexists|]. rewrite bind_clean.
  assert (netifs s5 !! n = Some g) as Hf5 by (by rewrite (sc_netifs _ _ C5)). rewrite (reports_run s5 n g _ Hn Hf5). exists s5, live5.
  split_and!; [done|done| |].
  - by eapply same_links_trans; [|eapply same_links_trans; [|eapply same_links_trans; [|eapply same_links_trans]]].
  - destruct C2 as [A1 A2 A3 A4 A5 A6 A7], C3 as [B1 B2 B3 B4 B5 B6 B7], C5 as [D1 D2 D3 D4 D5 D6 D7].
    split; cbn in *; try congruence. by rewrite D1, B1, A1, insert_insert_eq.
Qed.

Lemma netdev_up_run s live own n f0 dev l L R : ninv s live own → netifs s !! n = None → n ≠ NULL → listed s l → (length l < 255)%nat →
  is_u8 (netif_num (ifst s)) → dev_ok dev → ulist s L → rlist s R →
  ∃ v s' live', netdev_up (put_netif s n f0) dev n = Clean s' ∧ ninv s' live' own ∧
    netifs s' = <[n := board_netif dev (netif_list s) v]> (netifs s) ∧ listed s' (n :: l) ∧
    netif_default s' = (if dev_default_netif dev =? 0 then netif_default s else n) ∧
    0 ≤ v < 255 ∧ v ∉ (num_of s <$> l) ∧ ifst s' = IfSt (if v =? 254 then 0 else v + 1) (autoips (ifst s)) ∧ acds s' = acds s ∧
    ulist s' L ∧ rlist s' R.
Proof.
  intros Hi Hnone Hn Hl Hlen H8 Hdev HL HR. pose proof (mynetif_driver dev n Hdev) as Hdr. pose proof Hdev as [_ Hip Hm Hg].
  destruct (add_run s live own n f0 (Some (dev_ipaddr dev)) (Some (dev_netmask dev)) (Some (dev_gw dev)) _ _ l Hi Hnone Hn Hl Hlen H8 Hdr) as (v & Hadd & Hv & Hfree).
  destruct (new_netif_ok s f0 _ (Some (dev_ipaddr dev)) (Some (dev_netmask dev)) (Some (dev_gw dev)) v _ n Hdr Hip Hm Hg) as (Hok & Hnx & Ha & Hau & _).
  pose proof (board_netif_added s dev f0 v Hdev) as Hbn. set (h := new_netif s f0 _ _ _ _ v) in *. set (num := if v =? 254 then 0 else v + 1) in *.
  destruct (in_front_ok s live own n h num l Hi Hnone Hn Hl Hnx Hok Ha Hau) as [Hi1 Hl1]. set (s1 := in_front s n h num) in *.
  assert (netifs s1 !! n = Some h) as Hf1 by apply lookup_insert_eq.
  destruct (callbacks_run s1 live own n h netif_status_callback_fn link_callback_fn (negb (dev_default_netif dev =? 0)) Hi1 Hf1) as (Hcb & Hi2 & Hl2).
  rewrite Hbn in Hcb, Hi2, Hl2. set (b := set_nf_flags (board_netif dev (netif_list s) v) 0x1a) in *.
  set (s2 := if negb (dev_default_netif dev =? 0) then netif_set_default (put_netif s1 n b) n else put_netif s1 n b) in *.
  assert (netifs s2 = <[n := b]> (netifs s) ∧ netif_list s2 = n ∧ netif_default s2 = (if dev_default_netif dev =? 0 then netif_default s else n) ∧
    ifst s2 = IfSt num (autoips (ifst s)) ∧ acds s2 = acds s ∧ udps s2 = udps s ∧ raws s2 = raws s) as (N2 & M2 & D2 & I2 & A2 & U2 & W2).
  { unfold s2. destruct (dev_default_netif dev =? 0); cbn; by rewrite insert_insert_eq. }
  destruct (go_up_run s2 live own n b Hi2) as (s3 & live3 & Hup & Hi3 & Hl3 & [C1 C2 C3 C4 C5 C6 C7]); [by rewrite N2, lookup_insert_eq|done..|].
  assert (netdev_up (put_netif s n f0) dev n = Clean s3) as Hrun.
  { unfold netdev_up. rewrite Hadd, bind_clean. rewrite (Hcb (λ s, s ← netif_set_link_up s n; netif_set_up s n)). exact Hup. }
  assert (netifs s3 = <[n := board_netif dev (netif_list s) v]> (netifs s)) as N3 by (rewrite C1; cbn [netifs put_netif set_netifs]; by rewrite N2, insert_insert_eq).
  assert (listed s3 (n :: l)) as L3.
  { unfold listed. rewrite (sl_head _ _ Hl3), M2. eapply nchain_links; [exact Hl1|]. by rewrite (sl_nf_next _ _ Hl3), (sl_nf_next _ _ Hl2). }
  assert (netif_default s3 = (if dev_default_netif dev =? 0 then netif_default s else n)) as D3 by (by rewrite C3, <- D2).
  assert (ifst s3 = IfSt num (autoips (ifst s))) as I3 by (by rewrite C7, <- I2).
  assert (acds s3 = acds s) as A3 by (by rewrite C4, <- A2).
  assert (ulist s3 L ∧ rlist s3 R) as [U3 W3] by (unfold ulist, rlist; by rewrite C5, C6; cbn [udps raws put_netif set_netifs]; rewrite U2, W2).
  exists v, s3, live3. by repeat (split; [assumption|]).
Qed.
End AppInv.
