(* ===== verification/NetEx.v ===== *)
(** * A small network

    One interface, 10.0.2.15/24 with gateway 10.0.2.2, on the allocators of mem.c and memp.c;
    conflict callbacks that do nothing, layers above IPv4 that free their packets, and free pools of pcbs.
    The theorems about the network layer are applied to it. *)
From S2P Require Import Prelude Def Chksum Stats Iface Ip4Addr Mem Memp Alloc Pbuf PbufChain PbufClient PbufData PbufClone Pcb Netif NetInv Links EthOut Region Acd Autoip Etharp EtharpInv EtharpTmr EtharpRes EtharpQuery EtharpOut EtharpIn EthIn Ip4Out Ip4OutInv Icmp Udp Raw UdpInv UdpOps UdpIn IcmpInv IcmpEcho IcmpIn Received UdpInput RawInv RawInput Ip4 Ip4Inv NetifAddr AutoipRun NetifUp IfInv.

#[export] Existing Instance ex_pm.
Abbreviation ex_M := (heap * memp_st)%type.

#[export] Instance ex_env : NetEnv ex_M := {
  env_custom_free := ex_cff;
  mac_send_buffer := 100000;
  rand := λ r, (r, r + 1);
  conflict_callback := λ _ s _ _, mret s }.

(** Layers above that free what they receive; a datagram that is not complete is dropped. *)
Definition ex_drop (s : nst ex_M) (p : Z) : out (nst ex_M) := free_pbuf s p.

#[export] Instance ex_upper : IpUpper ex_M := {
  ip4_frag s p netif dest := mret (ERR_MEM, s);
  ip4_reass s p := s ← ex_drop s p; mret (NULL, s);
  raw_recv_fn fn s arg pcb p addr := if fn =? 1 then s ← ex_drop s p; mret (1, s) else mret (0, s);
  udp_recv_fn fn s arg pcb p addr port := ex_drop s p;
  tcp_input s p inp := ex_drop s p;
}.

#[export] Instance ex_frag_ok : FragOk (M := ex_M).
Proof. intros s live own p b l n f dest Hi _ _ _ _ _ _. by exists ERR_MEM, s, live. Qed.

Lemma ex_drop_run s live own p : ninv s live own → 0 < own p →
  ∃ s' live', ex_drop s p = Clean s' ∧ ninv s' live' (add_own own p (-1)) ∧ same_links s s' ∧ ips s' = ips s.
Proof.
  intros Hi Hp. unfold ex_drop. destruct (free_pbuf_run s live own p Hi Hp) as (q & live' & -> & Hi' & Hd & _).
  eexists _, live'. split_and!; [done|done| |done]. split; try done. cbn. by rewrite Hd.
Qed.

#[export] Instance ex_tcp_ok : TcpOk (M := ex_M).
Proof.
  intros s live own p b l H n Hi Hp _ _ _. destruct (ex_drop_run s live own p Hi Hp) as (s' & live' & H1 & H2 & H3 & _). by exists s', live'.
Qed.

#[export] Instance ex_udp_clients : UdpClients (M := ex_M).
Proof.
  intros fn s live own arg pcb p b l addr port _ Hi Hp _ _ _ _.
  destruct (ex_drop_run s live own p Hi Hp) as (s' & live' & H1 & H2 & H3 & _). by exists s', live'.
Qed.

#[export] Instance ex_raw_clients : RawClients (M := ex_M).
Proof.
  intros fn s live own arg pcb p b l H addr _ Hi Hp Hrv HH _ _. cbn [raw_recv_fn ex_upper]. destruct (fn =? 1).
  - unfold ex_drop. destruct (free_pbuf_run s live own p Hi Hp) as (q & live' & -> & Hi' & Hd & _). rewrite bind_clean.
    exists 1, (set_pb s q), live'. split; [done|]. split; [split; try done; cbn; by rewrite Hd|]. by split_and!.
  - by exists 0, s, live.
Qed.

#[export] Instance ex_acd_clients : AcdClients (M := ex_M).
Proof. intros s live own n a x st Hi _ _. by eapply safe_ret. Qed.

(** No TCP connections, no DHCP client, callbacks that only print. *)
#[export] Instance ex_if_env : IfEnv ex_M := {
  tcp_netif_ip_addr_changed s old new := mret s;
  dhcp_network_changed_link_up s netif := mret s;
  netif_callback fn s netif := mret s;
  autoip_conflict_fn := 60000 }.

#[export] Instance ex_if_clients : IfClients (M := ex_M).
Proof. split; try done; intros; (eexists _, _; split_and!; try done; first [eassumption|apply same_links_refl]). Qed.

(** 10.0.2.15, 255.255.255.0, 10.0.2.2 in network byte order *)
Definition ex_ip : Z := 0x0f02000a.
Definition ex_mask : Z := 0x00ffffff.
Definition ex_gw : Z := 0x0202000a.
Definition ex_mac : list Z := [0x52; 0x54; 0; 0x12; 0x34; 0x56].
Definition ex_nif : Z := 50000.
Definition ex_acd : Z := 51000.

Definition ex_netif : netif := Netif NULL ex_ip ex_mask ex_gw 1500 ex_mac 6 0x0f 0 NULL NULL NULL NULL NULL.
(** The same interface with a conflict detection client for its address. *)
Definition ex_netif_acd : netif := Netif NULL ex_ip ex_mask ex_gw 1500 ex_mac 6 0x0f 0 ex_acd NULL NULL NULL NULL.
Definition ex_acd_struct : acd := Acd NULL ex_ip ACD_STATE_OFF 0 0 0 0 60000.

(** The pools of pcbs *)
Definition ex_upool : list Z := [61000; 61100; 61200; 61300].
Definition ex_rpool : list Z := [62000; 62100; 62200; 62300].

Definition ex_net_of (f : netif) (q : pst) : nst ex_M :=
  Nst q {[ex_nif := f]} ex_nif (replicate 10 entry_free) 0 {[ex_acd := ex_acd_struct]} proto_zero proto_zero [] 7 ex_nif
    (IpSt 0 ip_globals_zero proto_zero proto_zero) (UdpSt NULL 0xc000 ∅ ex_upool proto_zero) (RawSt NULL ∅ ex_rpool)
    (IfSt 1 ∅).

Lemma zeros_outside n : ∀ a x, ¬ (a ≤ x < a + Z.of_nat n) → zeros n a !! x = None.
Proof.
  induction n as [|n IH]; intros a x Hx; [done|]. cbn [zeros]. rewrite lookup_insert_ne by lia. apply IH. lia.
Qed.

Lemma ex_table_ok N : table_ok N (replicate 10 entry_free).
Proof.
  assert (∀ i e, replicate 10 entry_free !! i = Some e → e = entry_free) as He.
  { intros i e H. by apply lookup_replicate in H as [? _]. }
  split; [done| |].
  - intros i e ->%He. apply entry_free_ok.
  - intros i j e e' ->%He ->%He. by intros [].
Qed.

Lemma refs_free x : refs (replicate 10 entry_free) x = 0.
Proof. cbn. by rewrite !holds_null. Qed.

Lemma ex_links f : f = ex_netif ∨ f = ex_netif_acd → links_ok {[ex_nif := f]} ex_nif ex_nif {[ex_acd := ex_acd_struct]}.
Proof.
  intros Hf. assert (nf_next f = NULL ∧ netif_ok f) as [Hn Hok].
  { destruct Hf as [-> | ->]; (split; [done|split; try done; split; [done|repeat constructor; done]]). }
  split.
  - intros n g [<- <-]%lookup_singleton_Some. done.
  - exists [ex_nif]. econstructor; [done|apply lookup_singleton_eq|]. rewrite Hn. constructor.
  - intros _. exists f. apply lookup_singleton_eq.
  - intros n g [<- <-]%lookup_singleton_Some. destruct Hf as [-> | ->].
    + exists []. constructor.
    + exists [ex_acd]. econstructor; [done|apply lookup_singleton_eq|constructor].
  - intros a x [<- <-]%lookup_singleton_Some. done.
Qed.

Lemma ex_udp_ok : udp_ok (UdpSt NULL 0xc000 ∅ ex_upool proto_zero).
Proof.
  apply (udp_ok_intro _ []); cbn; [constructor|done|done| |decide_now|done|done].
  intros n Hn. split; [|done]. by repeat (apply elem_of_cons in Hn as [->|Hn]; [done|]); apply elem_of_nil in Hn.
Qed.

Lemma ex_raw_ok : raw_ok (RawSt NULL ∅ ex_rpool).
Proof.
  apply (raw_ok_intro _ []); cbn; [constructor|done| |decide_now|done].
  intros n Hn. split; [|done]. by repeat (apply elem_of_cons in Hn as [->|Hn]; [done|]); apply elem_of_nil in Hn.
Qed.

(** A state whose packet buffers are those of [q]. *)
Lemma ex_net_inv f q live own : f = ex_netif ∨ f = ex_netif_acd → inv q live own → mem_ok q → (∀ x, 0 ≤ own x) →
  ninv (ex_net_of f q) live own.
Proof.
  intros Hf Hi Hm Ho. split; try done.
  - apply (inv_own_ext _ _ _ _ Hi). intros x. cbn [arp_table ex_net_of]. rewrite refs_free. lia.
  - by apply ex_links.
  - apply ex_table_ok.
  - apply ex_udp_ok.
  - apply ex_raw_ok.
  - split; [|done]. intros n g Hg. change (({[ex_nif := f]} : gmap Z netif) !! n = Some g) in Hg. apply lookup_singleton_Some in Hg as [<- <-]. by destruct Hf as [-> | ->].
Qed.

Lemma ex_s0_data : data ex_s0 = zeros (Z.to_nat 34000) 1000.
Proof. reflexivity. Qed.
Lemma ex_s0_pbufs : pbufs ex_s0 = ∅.
Proof. reflexivity. Qed.
#[global] Opaque ex_s0 zeros.

Lemma ex_s0_lookup x : data ex_s0 !! x = if decide (1000 ≤ x < 35000) then Some 0 else None.
Proof.
  rewrite ex_s0_data. case_decide; [apply zeros_lookup|apply zeros_outside]; rewrite Z2Nat.id; lia.
Qed.

Lemma ex_s0_mem : mem_ok ex_s0.
Proof.
  split; [| | |done].
  - intros p b Hb. by rewrite ex_s0_pbufs, lookup_empty in Hb.
  - intros x v Hx. rewrite ex_s0_lookup in Hx. case_decide; [by injection Hx as <-|done].
  - intros x Hx. rewrite ex_s0_lookup. cbn [mac_send_buffer ex_env] in Hx. apply decide_False. lia.
Qed.

Definition ex_net : nst ex_M := ex_net_of ex_netif ex_s0.
Definition ex_net_acd : nst ex_M := ex_net_of ex_netif_acd ex_s0.

Lemma ex_net_ok : ninv ex_net ∅ own0.
Proof. apply ex_net_inv; [by left|apply ex_s0_inv|apply ex_s0_mem|done]. Qed.

Lemma ex_net_acd_ok : ninv ex_net_acd ∅ own0.
Proof. apply ex_net_inv; [by right|apply ex_s0_inv|apply ex_s0_mem|done]. Qed.

(** Memory at 1200 to 2700, outside the heap and the pools. *)
Lemma ex_outside x : 1200 ≤ x < 2700 → ¬ pa_arena x.
Proof.
  intros Hx Ha. change (pb_arena ex_arrays x) in Ha. destruct Ha as [Ha|(k & d & Hk & Hd & Ha)].
  - change (hp ex_arrays) with 4096 in Ha. lia.
  - unfold in_array in Ha. destruct k; [done|..]; cbn in Hd; injection Hd as <-; cbn in Ha; lia.
Qed.

Lemma ex_mapped a n : 1000 ≤ a → a + n ≤ 35000 → mapped (data ex_s0) a n.
Proof. intros H1 H2 x Hx. exists 0. rewrite ex_s0_lookup. apply decide_True. lia. Qed.
