(* ===== verification/AcdList.v ===== *)
(** * The clients of an interface

    [acd_add] and [acd_remove] as operations on the list of the structs that are
    linked from an interface. *)
From S2P Require Import Prelude Def Chksum Stats Iface Ip4Addr Mem Memp Alloc Pbuf PbufChain PbufClient PbufData PbufClone Pcb Netif NetInv Links EthOut Region Acd Autoip Etharp EtharpInv EtharpTmr EtharpRes EtharpQuery EtharpOut EtharpIn EthIn Ip4Out Ip4OutInv Icmp Udp Raw UdpInv UdpOps UdpIn IcmpInv IcmpEcho IcmpIn Received UdpInput RawInv RawInput Ip4 Ip4Inv NetEx.

Section AcdList.
Context {M : Type} `{PM : PbufAlloc M} {E : NetEnv M}.
Abbreviation pst := (@pst M).
Abbreviation nst := (nst M).

(** The clients of interface [n], in the order of the list. *)
Definition clients (s : nst) (n : Z) (l : list Z) : Prop :=
  ∃ f, netifs s !! n = Some f ∧ nchain acd_next (acds s) (nf_acd_list f) l.

Lemma on_list_run (s : nst) a l : ∀ fuel h, nchain acd_next (acds s) h l → (length l ≤ fuel)%nat →
  acd_on_list fuel s h a = Clean (bool_decide (a ∈ l)).
Proof.
  induction l as [|p l IH]; intros fuel h Hc Hf; inversion Hc as [|? x ? Hp Hx Hc']; subst.
  - rewrite bool_decide_eq_false_2 by (by apply not_elem_of_nil). by destruct fuel.
  - destruct fuel as [|fuel]; cbn in Hf; [lia|]. cbn [acd_on_list]. rewrite (proj2 (Z.eqb_neq p NULL)) by done.
    destruct (Z.eqb_spec p a) as [->|Hne]; [by rewrite bool_decide_eq_true_2 by left|].
    unfold get_acd. rewrite Hx. out_simp. rewrite (IH _ _ Hc') by lia. f_equal. apply bool_decide_ext. rewrite elem_of_cons. naive_solver.
Qed.

(** Changing a field other than the link. *)
Lemma set_callback_links (A : gmap Z acd) a x (cb : Z) : A !! a = Some x → acd_next <$> <[a:=set_acd_callback x cb]> A = acd_next <$> A.
Proof. intros Hx. rewrite fmap_insert. apply insert_id. by rewrite lookup_fmap, Hx. Qed.

Lemma acd_add_run (s : nst) n l a x cb : clients s n l → acds s !! a = Some x → a ≠ NULL → cb ≠ NULL →
  ∃ s' y, acd_add s n a cb = Clean (ERR_OK, s') ∧ clients s' n (if decide (a ∈ l) then l else a :: l) ∧
    acds s' !! a = Some y ∧ acd_conflict_callback y = cb ∧ (∀ b, b ≠ a → acds s' !! b = acds s !! b) ∧
    (∀ m, m ≠ n → netifs s' !! m = netifs s !! m).
Proof.
  intros (f & Hf & Hc) Hx Ha Hcb. unfold acd_add. rewrite (proj2 (Z.eqb_neq cb NULL)) by done. cbn [negb]. out_simp.
  rewrite (upd_acd_eq _ _ _ x) by done. set (x1 := set_acd_callback x cb). out_simp.
  set (s1 := put_acd s a x1). assert (get_netif s1 n = Clean f) as -> by (unfold get_netif; cbn; by rewrite Hf). out_simp.
  assert (nchain acd_next (acds s1) (nf_acd_list f) l) as Hc1.
  { eapply nchain_links; [exact Hc|]. by apply set_callback_links. }
  rewrite (on_list_run s1 a l) by (done || (unfold acd_fuel; apply nchain_length in Hc1; lia)). out_simp.
  case_decide as Hin.
  - rewrite bool_decide_eq_true_2 by done. exists s1, x1. split_and!; try done.
    + by exists f.
    + apply lookup_insert_eq.
    + intros b Hb. by apply lookup_insert_ne.
  - rewrite bool_decide_eq_false_2 by done. rewrite (upd_acd_eq s1 a _ x1) by apply lookup_insert_eq. out_simp.
    eexists _, _. split; [done|]. cbn [netifs acds put_netif set_netifs put_acd set_acds s1]. split; [|split; [apply lookup_insert_eq|split; [done|split]]].
    + eexists. split; [apply lookup_insert_eq|]. cbn [acds put_netif set_netifs put_acd set_acds s1 nf_acd_list set_nf_acd_list].
      apply (nchain_cons _ _ _ (set_acd_next x1 (nf_acd_list f))); [done|apply lookup_insert_eq|].
      rewrite insert_insert_eq. by apply nchain_outside.
    + intros b Hb. by rewrite !lookup_insert_ne.
    + intros m Hm. by rewrite lookup_insert_ne.
Qed.

(** [prev] is the element before [h], whose chain is [l]; [l0] are the elements before it. *)
Lemma remove_loop_run (s : nst) n f a : ∀ l fuel h prev l0, netifs s !! n = Some f →
  nchain acd_next (acds s) (nf_acd_list f) (l0 ++ l) → nchain acd_next (acds s) h l → (length l ≤ fuel)%nat →
  (if decide (prev = NULL) then l0 = [] else ∃ l1, l0 = l1 ++ [prev]) → a ∈ l →
  ∃ s', acd_remove_loop fuel s n h prev a = Clean s' ∧ clients s' n (l0 ++ filter (.≠ a) l).
Proof.
  induction l as [|p l IH]; intros fuel h prev l0 Hf Hall Hc Hfu Hprev Ha; [by apply not_elem_of_nil in Ha|].
  inversion Hc as [|? x ? Hp Hx Hc']; subst. destruct fuel as [|fuel]; cbn in Hfu; [lia|]. cbn [acd_remove_loop].
  rewrite (proj2 (Z.eqb_neq p NULL)) by done. unfold get_acd at 1. rewrite Hx. out_simp.
  pose proof (nchain_NoDup _ _ _ _ Hall) as Hnd. apply NoDup_app in Hnd as (Hnd0 & Hdis & Hnd).
  apply NoDup_cons in Hnd as [Hpl Hnd].
  destruct (Z.eqb_spec p a) as [->|Hne].
  - assert (filter (.≠ a) (a :: l) = l) as ->.
    { rewrite filter_cons_False by naive_solver. by apply filter_absent. }
    case_decide as Hpr; [subst prev|].
    + subst l0. change (NULL =? NULL) with true. cbn [negb]. unfold get_netif. rewrite Hf. out_simp.
      eexists. split; [done|]. eexists. split; [apply lookup_insert_eq|]. exact Hc'.
    + destruct Hprev as [l1 ->]. rewrite (proj2 (Z.eqb_neq prev NULL)) by done. cbn [negb]. rewrite <- app_assoc in Hall.
      pose proof (nchain_suffix _ _ _ _ _ _ Hall) as Hs. inversion Hs as [|? y ? _ Hy Hs']; subst.
      rewrite (upd_acd_eq _ _ _ y) by done. eexists. split; [done|]. exists f. split; [done|]. rewrite <- app_assoc. cbn [app].
      apply NoDup_app in Hnd0 as (Hnd1 & Hd1 & _).
      assert (prev ∉ l) as Hpl2 by (intros Hin; apply (Hdis prev); [apply elem_of_app; right; by left|by right]).
      eapply (nchain_relink _ set_acd_next); [done|exact Hall|exact Hy| |exact Hpl2|].
      * intros Hin. by apply (Hd1 prev Hin), list_elem_of_singleton.
      * exact Hc'.
  - apply elem_of_cons in Ha as [?|Ha]; [congruence|]. rewrite filter_cons_True by done.
    destruct (IH fuel (acd_next x) p (l0 ++ [p])) as (s' & -> & Hcl); try done.
    + by rewrite <- app_assoc.
    + lia.
    + rewrite decide_False by done. by exists l0.
    + exists s'. split; [done|]. by rewrite <- app_assoc in Hcl.
Qed.

Lemma acd_remove_run (s : nst) n l a : clients s n l → a ∈ l → ∃ s', acd_remove s n a = Clean s' ∧ clients s' n (filter (.≠ a) l).
Proof.
  intros (f & Hf & Hc) Ha. unfold acd_remove, get_netif. rewrite Hf. out_simp.
  apply (remove_loop_run s n f a l (acd_fuel s) (nf_acd_list f) NULL []); try done.
  unfold acd_fuel. apply nchain_length in Hc. lia.
Qed.

Lemma remove_loop_absent (s : nst) n a l : ∀ fuel h prev, nchain acd_next (acds s) h l → (length l ≤ fuel)%nat → a ∉ l →
  acd_remove_loop fuel s n h prev a = Ret s ["acd_remove(): acd not on list\n"].
Proof.
  induction l as [|p l IH]; intros fuel h prev Hc Hf Ha; inversion Hc as [|? x ? Hp Hx Hc']; subst.
  - by destruct fuel.
  - destruct fuel as [|fuel]; cbn in Hf; [lia|]. apply not_elem_of_cons in Ha as [Hne Ha]. cbn [acd_remove_loop].
    rewrite (proj2 (Z.eqb_neq p NULL)) by done. unfold get_acd at 1. rewrite Hx. out_simp.
    rewrite (proj2 (Z.eqb_neq p a)) by done. apply IH; [done|lia|done].
Qed.

(** [acd_add] and [acd_remove] keep the clients of an interface as a list without
    duplicates.  Adding a struct puts it in front, or leaves the list alone when
    it is there already, and sets its callback; removing it takes it out and
    keeps the order of the others; adding and removing a new one gives the
    list back.  Removing a struct that is not on the list fails an assertion
    and changes nothing. *)
Theorem acd_clients_refine (s : nst) n l a x cb : clients s n l → acds s !! a = Some x → a ≠ NULL → cb ≠ NULL →
  NoDup l ∧
  (∃ s' y, acd_add s n a cb = Clean (ERR_OK, s') ∧ clients s' n (if decide (a ∈ l) then l else a :: l) ∧
     acds s' !! a = Some y ∧ acd_conflict_callback y = cb ∧ (∀ b, b ≠ a → acds s' !! b = acds s !! b)) ∧
  (a ∈ l → ∃ s', acd_remove s n a = Clean s' ∧ clients s' n (filter (.≠ a) l)) ∧
  (a ∉ l → acd_remove s n a = Ret s ["acd_remove(): acd not on list\n"] ∧
     ∃ s1 s2, acd_add s n a cb = Clean (ERR_OK, s1) ∧ acd_remove s1 n a = Clean s2 ∧ clients s2 n l).
Proof.
  intros Hc Hx Ha Hcb. destruct (acd_add_run s n l a x cb Hc Hx Ha Hcb) as (s1 & y & H1 & Hc1 & Hy & Hyc & Hoth & _).
  split_and!.
  - destruct Hc as (f & _ & Hc). by eapply nchain_NoDup.
  - by exists s1, y.
  - by apply acd_remove_run.
  - intros Hin. split.
    + destruct Hc as (f & Hf & Hc). unfold acd_remove, get_netif. rewrite Hf. out_simp.
      apply (remove_loop_absent s n a l); [done|unfold acd_fuel; apply nchain_length in Hc; lia|done].
    + rewrite decide_False in Hc1 by done. destruct (acd_remove_run s1 n (a :: l) a Hc1) as (s2 & H2 & Hc2); [by left|].
      exists s1, s2. split_and!; try done. by rewrite filter_cons_False, filter_absent in Hc2 by naive_solver.
Qed.
End AcdList.

Lemma acd_clients_refine_witness : clients ex_net ex_nif [] ∧ ∃ s1 s2,
  acd_add ex_net ex_nif ex_acd 60000 = Clean (ERR_OK, s1) ∧ acd_remove s1 ex_nif ex_acd = Clean s2 ∧ clients s2 ex_nif [].
Proof.
  assert (clients ex_net ex_nif []) as Hc by (exists ex_netif; split; [reflexivity|apply nchain_nil]). split; [exact Hc|].
  destruct (acd_clients_refine ex_net ex_nif [] ex_acd ex_acd_struct 60000 Hc) as (_ & _ & _ & H).
  - reflexivity.
  - discriminate.
  - discriminate.
  - destruct H as (_ & s1 & s2 & H1 & H2 & H3); [apply not_elem_of_nil|]. exists s1, s2. split; [exact H1|]. split; [exact H2|exact H3].
Defined.

