(* ===== verification/AutoipInv.v ===== *)
(** * AutoIP on a well-formed state

    The addresses [autoip_create_addr] tries, and what starting and stopping the client and its conflict callback do. *)
From S2P Require Import Prelude Def Stats Iface Ip4Addr Pbuf PbufChain PbufClient PbufData PbufClone Pcb Netif NetInv Links EthOut Region Acd Autoip Etharp EtharpInv EtharpTmr Ip4Out Udp Raw UdpInv UdpOps UdpApi RawInv Ip4 Ip4Inv NetifAddr AutoipRun NetifUp IfInv IfSafe AcdList.

(** ** Addresses *)

(** The number, in 169.254.1.0 to 169.254.254.255, of the address that is tried after [k] others: [m] is made of the last two
    bytes of the hardware address. *)
Definition candidate (m k : Z) : Z :=
  let v := m + k in
  if v <? 65024 then v else if v <? 65280 then v - 65024 else if v <? 65536 then v - 512 else v - 65536.

Definition hw_seed (f : netif) : Z := nth 4 (nf_hwaddr f) 0 + 256 * nth 5 (nf_hwaddr f) 0.

(** The [k]-th address of an interface in network byte order. *)
Definition candidate_addr (f : netif) (k : Z) : Z := lwip_htonl (AUTOIP_RANGE_START + candidate (hw_seed f) k).

Lemma candidate_range m k : is_u16 m → is_u8 k → 0 ≤ candidate m k < 65024.
Proof. unfold is_u16, is_u8, candidate. intros. repeat case_match; lia. Qed.

Lemma candidate_inj m j k : is_u16 m → is_u8 j → is_u8 k → candidate m j = candidate m k → j = k.
Proof. unfold is_u16, is_u8, candidate. intros. repeat case_match; lia. Qed.

Lemma hw_seed_lor f : netif_ok f → Z.lor (nth 4 (nf_hwaddr f) 0) (Z.shiftl (nth 5 (nf_hwaddr f) 0) 8) = hw_seed f ∧ is_u16 (hw_seed f).
Proof.
  intros [_ _ _ [Hl Hm] _]. unfold hw_seed. destruct (nf_hwaddr f) as [|b0 [|b1 [|b2 [|b3 [|b4 [|b5 []]]]]]]; try done. cbn [nth].
  repeat (apply Forall_cons in Hm as [? Hm]). split; [|width]. rewrite Z.lor_comm, Z.shiftl_mul_pow2, lor_add by width. lia.
Qed.

Lemma lor_net v : Z.lor AUTOIP_NET (Z.land v 0xffff) = AUTOIP_NET + v mod 65536.
Proof.
  change 0xffff with (Z.ones 16). rewrite Z.land_ones by lia. change AUTOIP_NET with (0xA9FE * 2 ^ 16). rewrite lor_add; [done|lia|].
  apply Z.mod_pos_bound. lia.
Qed.

(** Masking and moving into the range. *)
Lemma candidate_eq m k : is_u16 m → is_u8 k →
  let addr := Z.lor AUTOIP_NET (Z.land (u32 (AUTOIP_RANGE_START + m + k)) 0xffff) in
  let addr := if addr <? AUTOIP_RANGE_START then u32 (addr + (AUTOIP_RANGE_END - AUTOIP_RANGE_START + 1)) else addr in
  let addr := if AUTOIP_RANGE_END <? addr then u32 (addr - (AUTOIP_RANGE_END - AUTOIP_RANGE_START + 1)) else addr in
  addr = AUTOIP_RANGE_START + candidate m k.
Proof.
  intros Hm Hk. rewrite lor_net. change AUTOIP_RANGE_START with 0xA9FE0100. change AUTOIP_RANGE_END with 0xA9FEFEFF. change AUTOIP_NET with 0xA9FE0000.
  unfold is_u16, is_u8 in *. rewrite (u32_id (_ + m + k)) by (unfold is_u32; lia).
  assert ((0xA9FE0100 + m + k) mod 65536 = if m + k <? 65280 then 256 + m + k else m + k - 65280) as ->.
  { destruct (Z.ltb_spec (m + k) 65280); Z.div_mod_to_equations; lia. }
  unfold candidate. cbv zeta. rewrite !u32_id by (unfold is_u32; repeat case_match; lia). repeat case_match; lia.
Qed.

(** An address of the net is link-local. *)
Lemma linklocal_net c : 0 ≤ c < 65024 → ip4_addr_islinklocal (lwip_htonl (AUTOIP_RANGE_START + c)) = true ∧
  is_u32 (lwip_htonl (AUTOIP_RANGE_START + c)).
Proof.
  intros Hc. change AUTOIP_RANGE_START with 0xA9FE0100. split; [|apply lwip_htonl_range; width].
  set (v := 0x100 + c). assert (0xA9FE0100 + c = 0xA9 * 2 ^ 24 + 0xFE * 2 ^ 16 + v / 256 * 2 ^ 8 + v mod 256) as -> by width.
  rewrite lwip_htonl_bytes by width. unfold ip4_addr_islinklocal. change (lwip_htonl 0xffff0000) with (Z.ones 16).
  rewrite Z.land_ones by lia. apply Z.eqb_eq. change (lwip_htonl 0xa9fe0000) with 0xfea9. width.
Qed.

Section AutoipInv.
Context {M : Type} `{PM : PbufAlloc M} {E : NetEnv M} {U : IpUpper M} {IE : IfEnv M} `{HI : !IfClients}.
Abbreviation pst := (@pst M).
Abbreviation nst := (nst M).

(** Interface [n] with its client [x]. *)
Record with_client (s : nst) (n : Z) (f : netif) (x : autoip) : Prop := WithClient {
  wc_netif : netifs s !! n = Some f;
  wc_data : nf_autoip f ≠ NULL;
  wc_client : autoips (ifst s) !! nf_autoip f = Some x }.

Lemma autoip_data_run (s : nst) n f : netifs s !! n = Some f → netif_autoip_data s n = Clean (nf_autoip f).
Proof. intros Hf. unfold netif_autoip_data, get_netif. rewrite Hf. by out_simp. Qed.

Lemma get_autoip_run (s : nst) a x : autoips (ifst s) !! a = Some x → get_autoip s a = Clean x.
Proof. intros Hx. unfold get_autoip. rewrite Hx. by out_simp. Qed.

Lemma put_autoip_same (s : nst) a x : autoips (ifst s) !! a = Some x → put_autoip s a x = s.
Proof. intros Hx. unfold put_autoip, set_autoips, set_ifst. rewrite insert_id by done. destruct s as [? ? ? ? ? ? ? ? ? ? ? ? ? ? []]. done. Qed.

Lemma create_addr_run (s : nst) n f x : with_client s n f x → netif_ok f → autoip_ok x →
  autoip_create_addr s n = Clean (candidate_addr f (tried_llipaddr x)).
Proof.
  intros [Hf _ Hx] Hok [_ Hk _]. unfold autoip_create_addr. rewrite (autoip_data_run s n f), bind_clean by done. unfold get_netif. rewrite Hf. out_simp.
  rewrite (get_autoip_run _ _ _ Hx), bind_clean. destruct (hw_seed_lor f Hok) as [Hs Hm].
  unfold LWIP_AUTOIP_CREATE_SEED_ADDR. rewrite Hs, lwip_htonl_involutive by apply u32_range.
  rewrite (u32_id (AUTOIP_RANGE_START + hw_seed f)) by (change AUTOIP_RANGE_START with 0xA9FE0100; width).
  pose proof (candidate_eq (hw_seed f) _ Hm Hk) as Hc. cbv zeta in Hc |- *. rewrite Hc.
  pose proof (candidate_range _ _ Hm Hk) as Hr. rewrite (proj2 (Z.leb_le _ _)) by lia.
  rewrite (proj2 (Z.leb_le _ AUTOIP_RANGE_END)) by (change AUTOIP_RANGE_END with (AUTOIP_RANGE_START + 65023); lia). by out_simp.
Qed.

Lemma candidate_addr_ok f k : netif_ok f → is_u8 k → ip4_addr_islinklocal (candidate_addr f k) = true ∧ is_u32 (candidate_addr f k).
Proof. intros Hf Hk. apply linklocal_net, candidate_range; [by apply hw_seed_lor|done]. Qed.

(** ** Joining the list of an interface *)

(** The state after [acd_add]. *)
Definition added (s : nst) (n : Z) (f : netif) (a : Z) (x : acd) (cb : Z) (l : list Z) : nst :=
  if decide (a ∈ l) then put_acd s a (set_acd_callback x cb)
  else put_netif (put_acd s a (set_acd_next (set_acd_callback x cb) (nf_acd_list f))) n (set_nf_acd_list f a).

Lemma added_run (s : nst) n f a x cb l : netifs s !! n = Some f → nchain acd_next (acds s) (nf_acd_list f) l → acds s !! a = Some x →
  cb ≠ NULL → acd_add s n a cb = Clean (ERR_OK, added s n f a x cb l).
Proof.
  intros Hf Hc Hx Hcb. unfold acd_add. rewrite (proj2 (Z.eqb_neq cb NULL)) by done. cbn [negb]. out_simp.
  rewrite (upd_acd_eq _ _ _ x), bind_clean by done. set (s1 := put_acd s a _).
  assert (get_netif s1 n = Clean f) as -> by (unfold get_netif; cbn; by rewrite Hf). rewrite bind_clean.
  assert (nchain acd_next (acds s1) (nf_acd_list f) l) as Hc1 by (eapply nchain_links; [exact Hc|by apply set_callback_links]).
  rewrite (on_list_run s1 a l) by (done || (unfold acd_fuel; apply nchain_length in Hc1; lia)). out_simp. unfold added.
  case_decide as Hin; [by rewrite bool_decide_eq_true_2|]. rewrite bool_decide_eq_false_2 by done. unfold s1. by rewrite upd_put, bind_clean.
Qed.

Lemma nchain_join (A : gmap Z acd) a y l : nchain acd_next A (acd_next y) l → a ∉ l → a ≠ NULL → ∀ h l0, nchain acd_next A h l0 →
  ∃ l1, nchain acd_next (<[a := y]> A) h l1.
Proof.
  intros Hl Ha Hn h l0 Hc. induction Hc as [|p x l0 Hp Hx Hc [l1 IH]]; [exists []; constructor|]. destruct (decide (p = a)) as [->|Hne].
  - exists (a :: l). econstructor; [done|apply lookup_insert_eq|]. by apply nchain_outside.
  - exists (p :: l1). econstructor; [done|by rewrite lookup_insert_ne|done].
Qed.

Lemma added_inv s live own n f a x cb l : ninv s live own → netifs s !! n = Some f → nchain acd_next (acds s) (nf_acd_list f) l →
  acds s !! a = Some x → a ≠ NULL → ninv (added s n f a x cb l) live own.
Proof.
  intros Hi Hf Hc Hx Ha. pose proof (lo_types _ _ _ _ (ni_links _ _ _ Hi) _ _ Hx) as [O1 O2 O3 O4 O5]. unfold added. case_decide as Hin.
  - by apply (put_acd_ok s live own a x (set_acd_callback x cb) Hi Hx).
  - set (y := set_acd_next _ _). destruct Hi as [I1 I2 I3 [L1 [nl L2] L5 L3 L4] I5 I6 I7 I8 I9].
    assert (∀ m, is_Some (netifs s !! m) → is_Some (<[n := set_nf_acd_list f a]> (netifs s) !! m)) as Hsome.
    { intros m Hm. by apply lookup_insert_is_Some'; right. }
    assert (nchain acd_next (<[a := y]> (acds s)) a (a :: l)) as Hal.
    { econstructor; [done|apply lookup_insert_eq|]. by apply nchain_outside. }
    split; try done; [split|by eapply table_ok_netifs|]; cbn [netifs acds ifst netif_list put_netif set_netifs put_acd set_acds].
    + intros m g [[<- <-]|[_ Hg]]%lookup_insert_Some; [|by eapply L1]. destruct (L1 n f Hf) as [? []]. by split.
    + exists nl. apply (nchain_links _ (netifs s)); [done|]. rewrite fmap_insert. apply insert_id. by rewrite lookup_fmap, Hf.
    + intros Hd. by apply Hsome, L5.
    + intros m g [[<- <-]|[_ Hg]]%lookup_insert_Some; [by eexists|]. destruct (L3 m g Hg) as [lm Hm]. by eapply nchain_join.
    + intros b z [[<- <-]|[_ Hz]]%lookup_insert_Some; [by split|by eapply L4].
    + apply (clients_acds _ (acds s)); [by apply (clients_put _ _ _ _ f)|]. intros b Hb. by apply lookup_insert_is_Some'; right.
Qed.

Lemma added_facts (s : nst) n f a x cb l : netifs s !! n = Some f → nchain acd_next (acds s) (nf_acd_list f) l → acds s !! a = Some x → a ≠ NULL →
  let s' := added s n f a x cb l in
  clients s' n (if decide (a ∈ l) then l else a :: l) ∧
  (∃ nx, acds s' = <[a := set_acd_next (set_acd_callback x cb) nx]> (acds s) ∧ (a ∈ l → nx = acd_next x)) ∧
  (∃ h, netifs s' = <[n := set_nf_acd_list f h]> (netifs s) ∧ (a ∈ l → h = nf_acd_list f)) ∧
  ifst s' = ifst s ∧ rng s' = rng s ∧ frames s' = frames s ∧
  pb s' = pb s ∧ netif_list s' = netif_list s ∧ netif_default s' = netif_default s ∧ udps s' = udps s ∧ raws s' = raws s.
Proof.
  intros Hf Hc Hx Ha. cbv zeta. unfold added. case_decide as Hin.
  - split_and!; try done.
    + exists f. split; [done|]. eapply nchain_links; [exact Hc|by apply set_callback_links].
    + exists (acd_next x). split; [|done]. cbn. by destruct x.
    + exists (nf_acd_list f). split; [|done]. symmetry. apply insert_id. change (netifs s !! n = Some (set_nf_acd_list f (nf_acd_list f))). rewrite Hf. by destruct f.
  - split_and!; try done.
    + eexists. split; [apply lookup_insert_eq|]. cbn [acds put_netif set_netifs put_acd set_acds nf_acd_list set_nf_acd_list].
      econstructor; [done|apply lookup_insert_eq|]. by apply nchain_outside.
    + eexists. by split.
    + exists a. by split.
Qed.

(** ** Starting *)

(** The client probes [addr]. *)
Record checking (s : nst) (n : Z) (f : netif) (x : autoip) (y : acd) (addr : Z) (l : list Z) (s' : nst) : Prop := Checking {
  ck_autoips : autoips (ifst s') = <[nf_autoip f := Autoip addr AUTOIP_STATE_CHECKING (tried_llipaddr x)]> (autoips (ifst s));
  ck_clients : clients s' n (if decide (nf_autoip f + AUTOIP_ACD ∈ l) then l else (nf_autoip f + AUTOIP_ACD) :: l);
  ck_acd : ∃ nx w, acds s' = <[nf_autoip f + AUTOIP_ACD :=
      Acd nx addr ACD_STATE_PROBE_WAIT 0 w 0 (acd_num_conflicts y) autoip_conflict_fn]> (acds s) ∧ 0 ≤ w ≤ 9 ∧
      (nf_autoip f + AUTOIP_ACD ∈ l → nx = acd_next y);
  ck_netifs : ∃ h, netifs s' = <[n := set_nf_acd_list f h]> (netifs s) ∧ (nf_autoip f + AUTOIP_ACD ∈ l → h = nf_acd_list f);
  ck_frames : frames s' = frames s;
  ck_pb : pb s' = pb s;
  ck_list : netif_list s' = netif_list s ∧ netif_default s' = netif_default s;
  ck_pcbs : udps s' = udps s ∧ raws s' = raws s }.

(** The address to probe: the one kept, or a new one. *)
Definition probe_addr (f : netif) (x : autoip) : Z :=
  if ip4_addr_islinklocal (llipaddr x) then llipaddr x else candidate_addr f (tried_llipaddr x).

Lemma probe_addr_ok f x : netif_ok f → autoip_ok x → ip4_addr_islinklocal (probe_addr f x) = true ∧ is_u32 (probe_addr f x).
Proof. intros Hf [Hx Hk _]. unfold probe_addr. destruct (ip4_addr_islinklocal (llipaddr x)) eqn:Hl; [done|]. by apply candidate_addr_ok. Qed.

Lemma autoip_start_run s live own n f x y l : ninv s live own → with_client s n f x → netif_is_up f = true → ai_state x = AUTOIP_STATE_OFF →
  nchain acd_next (acds s) (nf_acd_list f) l → acds s !! (nf_autoip f + AUTOIP_ACD) = Some y → nf_autoip f + AUTOIP_ACD ≠ NULL →
  ∃ s', autoip_start s n = Clean (ERR_OK, s') ∧ ninv s' live own ∧ checking s n f x y (probe_addr f x) l s'.
Proof.
  intros Hi Hwc Hup Hoff Hc Hy Hn. pose proof Hwc as [Hf Hd Hx]. destruct (netif_ok_of _ _ _ _ _ Hi Hf) as [_ Hok].
  pose proof (co_types _ _ _ (ni_auto _ _ _ Hi) _ _ Hx) as Hxt. set (a := nf_autoip f + AUTOIP_ACD) in *.
  unfold autoip_start, autoip_client, get_netif. rewrite Hf. out_simp. rewrite Hup. cbn [negb].
  rewrite (autoip_data_run s n f), bind_clean, (proj2 (Z.eqb_neq _ NULL)) by done. out_simp. rewrite (proj2 (Z.eqb_neq _ NULL)) by done.
  rewrite (get_autoip_run _ _ _ Hx), bind_clean, decide_True by done. fold a.
  rewrite (added_run s n f a y autoip_conflict_fn l Hf Hc Hy autoip_conflict_nonnull), bind_clean. set (s1 := added s n f a y _ l).
  destruct (added_facts s n f a y autoip_conflict_fn l Hf Hc Hy Hn) as (Fc & (nx & Fa & Fnx) & (h & Fn & Fh) & Fi & Fr & Ff & Fp & Fl & Fd & Fu & Fw).
  fold s1 in Fc, Fa, Fn, Fi, Fr, Ff, Fp, Fl, Fd, Fu, Fw.
  pose proof (added_inv s live own n f a y autoip_conflict_fn l Hi Hf Hc Hy Hn) as Hi1. fold s1 in Hi1.
  assert (with_client s1 n (set_nf_acd_list f h) x) as Hw1 by (split; [by rewrite Fn, lookup_insert_eq|done|by rewrite Fi]).
  set (x2 := Autoip (probe_addr f x) AUTOIP_STATE_OFF (tried_llipaddr x)).
  assert ((if negb (ip4_addr_islinklocal (llipaddr x)) then addr ← autoip_create_addr s1 n; upd_autoip s1 (nf_autoip f) (λ x, set_llipaddr x addr) else mret s1)
    = Clean (put_autoip s1 (nf_autoip f) x2)) as ->.
  { unfold x2, probe_addr. rewrite <- Hoff. destruct (ip4_addr_islinklocal (llipaddr x)); cbn [negb].
    - rewrite put_autoip_same; [done|]. rewrite Fi, Hx. by destruct x.
    - rewrite (create_addr_run s1 n _ x Hw1) by first [done | by destruct Hok; split]. rewrite bind_clean, (upd_autoip_run _ _ x) by (by rewrite Fi). done. }
  rewrite bind_clean. set (s2 := put_autoip s1 _ x2). rewrite (upd_autoip_run s2 _ x2) by apply lookup_insert_eq. rewrite bind_clean.
  set (x3 := set_ai_state x2 _). set (s3 := put_autoip s2 _ x3). rewrite (get_autoip_run s3 _ x3), bind_clean by apply lookup_insert_eq.
  destruct (probe_addr_ok f x Hok Hxt) as [Hpl Hp].
  assert (ninv s3 live own) as Hi3.
  { apply put_autoip_ok; [apply put_autoip_ok; [done|]|]; (split; [exact Hp|apply Hxt|by right]). }
  destruct (acd_start_ok s3 live own n a (set_acd_next (set_acd_callback y autoip_conflict_fn) nx) (probe_addr f x) Hi3) as (w & r & Hw & Hs & Hi4).
  { cbn [acds s3 s2 put_autoip set_autoips set_ifst]. by rewrite Fa, lookup_insert_eq. }
  { done. }
  change (llipaddr x3) with (probe_addr f x). rewrite Hs, bind_clean. eexists. split; [done|]. split; [done|]. split; try done.
  - cbn [ifst autoips put_acd set_acds set_rng s3 s2 put_autoip set_autoips set_ifst]. by rewrite Fi, !insert_insert_eq.
  - destruct Fc as (g & Hg & Hcg). exists g. split; [done|]. eapply nchain_links; [exact Hcg|]. cbn [acds put_acd set_acds set_rng s3 s2 put_autoip set_autoips set_ifst].
    rewrite fmap_insert. apply insert_id. by rewrite lookup_fmap, Fa, lookup_insert_eq.
  - exists nx, w. split; [|done]. cbn [acds put_acd set_acds set_rng s3 s2 put_autoip set_autoips set_ifst]. by rewrite Fa, insert_insert_eq.
  - exists h. by split.
Qed.

(** ** Binding and stopping *)

Lemma link_local_stays old new : ip4_addr_islinklocal new = true → turns_passive old new = false.
Proof. intros Hn. unfold turns_passive. by rewrite Hn, andb_false_r. Qed.

Lemma removed_stays old : turns_passive old IPADDR_ANY = false.
Proof. unfold turns_passive, replaces. change (ip4_addr_isany IPADDR_ANY) with true. by rewrite andb_false_r. Qed.

Lemma turns_passive_any old new : ip4_addr_isany new = true ∨ ip4_addr_islinklocal new = true → turns_passive old new = false.
Proof. intros [Hn|Hn]; [|by apply link_local_stays]. unfold turns_passive, replaces. by rewrite Hn, andb_false_r. Qed.

Lemma with_client_put (s : nst) n f x y : with_client s n f x → with_client (put_autoip s (nf_autoip f) y) n f y.
Proof. intros [Hf Hn _]. split; [done..|]. apply lookup_insert_eq. Qed.

Lemma autoip_bind_run s live own n f x L R : ninv s live own → with_client s n f x → ulist s L → rlist s R →
  let s1 := put_autoip s (nf_autoip f) (set_ai_state x AUTOIP_STATE_BOUND) in
  ∃ s' live', autoip_bind s n = Clean (ERR_OK, s') ∧ ninv s' live' own ∧ same_links s s' ∧
    readdressed s1 n (configured f (llipaddr x) AUTOIP_NETMASK 0) (nf_ip_addr f) (llipaddr x) L R s'.
Proof.
  intros Hi Hwc HL HR s1. pose proof Hwc as [Hf Hn Hx]. destruct (co_types _ _ _ (ni_auto _ _ _ Hi) _ _ Hx) as [Hip Hk Hany].
  unfold autoip_bind. rewrite (autoip_data_run s n f), bind_clean, (upd_autoip_run _ _ x), bind_clean by done. fold s1.
  rewrite (get_autoip_run s1 _ _ (lookup_insert_eq _ _ _)), bind_clean.
  destruct (put_autoip_ok s live own (nf_autoip f) (set_ai_state x AUTOIP_STATE_BOUND) Hi) as [Hi1 Hl1]; [done|]. fold s1 in Hi1, Hl1.
  destruct (set_addr_run s1 live own n f (llipaddr x) AUTOIP_NETMASK 0 L R Hi1) as (s' & live' & H & Hi' & Hl' & Hra); try done; [by apply turns_passive_any|].
  change (llipaddr (set_ai_state x AUTOIP_STATE_BOUND)) with (llipaddr x). rewrite H, bind_clean. exists s', live'. split_and!; [done..| |done].
  by eapply same_links_trans.
Qed.

(** The interface without its link-local address. *)
Definition unassigned (f : netif) : netif := if ip4_addr_islinklocal (nf_ip_addr f) then configured f 0 0 0 else f.

Lemma unassigned_rest f : nf_autoip (unassigned f) = nf_autoip f ∧ nf_acd_list (unassigned f) = nf_acd_list f ∧
  nf_hwaddr (unassigned f) = nf_hwaddr f ∧ nf_flags (unassigned f) = nf_flags f.
Proof. unfold unassigned. by destruct (ip4_addr_islinklocal (nf_ip_addr f)). Qed.

Lemma stop_run s live own n f x L R : ninv s live own → with_client s n f x → ulist s L → rlist s R →
  let s1 := put_autoip s (nf_autoip f) (set_ai_state x AUTOIP_STATE_OFF) in
  ∃ s' live', autoip_stop s n = Clean (ERR_OK, s') ∧ ninv s' live' own ∧ same_links s s' ∧
    readdressed s1 n (unassigned f) (nf_ip_addr f) (nf_ip_addr (unassigned f)) L R s'.
Proof.
  intros Hi Hwc HL HR s1. pose proof Hwc as [Hf Hn Hx]. pose proof (co_types _ _ _ (ni_auto _ _ _ Hi) _ _ Hx) as Hxt.
  unfold autoip_stop. rewrite (autoip_data_run s n f), bind_clean, (proj2 (Z.eqb_neq _ NULL)) by done. cbn [negb].
  rewrite (upd_autoip_run _ _ x), bind_clean by done. fold s1. unfold get_netif. change (netifs s1 !! n) with (netifs s !! n). rewrite Hf. out_simp.
  destruct (put_autoip_ok s live own (nf_autoip f) (set_ai_state x AUTOIP_STATE_OFF) Hi) as [Hi1 Hl1]; [by destruct Hxt|]. fold s1 in Hi1, Hl1.
  unfold unassigned. destruct (ip4_addr_islinklocal (nf_ip_addr f)).
  - destruct (set_addr_run s1 live own n f IPADDR_ANY IPADDR_ANY IPADDR_ANY L R Hi1) as (s' & live' & H & Hi' & Hl' & Hra); try done; [apply removed_stays|].
    rewrite H, bind_clean. exists s', live'. split_and!; [done..| |done]. by eapply same_links_trans.
  - exists s1, live. rewrite bind_ret_l. split_and!; [done..|]. split; rewrite ?upcbs_moved_same, ?rpcbs_moved_same; try done; [symmetry; by apply insert_id|].
    unfold only_told. rewrite decide_True by done. apply but_cfg_refl.
Qed.

Lemma decline_run s live own n f x L R : ninv s live own → with_client s n f x → ulist s L → rlist s R →
  let s1 := put_autoip s (nf_autoip f) (Autoip IPADDR_ANY AUTOIP_STATE_OFF (tried_llipaddr x)) in
  ∃ s' live', autoip_conflict_callback s n ACD_DECLINE = Clean s' ∧ ninv s' live' own ∧ same_links s s' ∧
    readdressed s1 n (unassigned f) (nf_ip_addr f) (nf_ip_addr (unassigned f)) L R s'.
Proof.
  intros Hi Hwc HL HR s1. pose proof Hwc as [Hf Hn Hx]. destruct (co_types _ _ _ (ni_auto _ _ _ Hi) _ _ Hx) as [_ Hk _].
  unfold autoip_conflict_callback. rewrite (autoip_data_run s n f), bind_clean, (upd_autoip_run _ _ x), bind_clean by done.
  set (x1 := set_llipaddr x IPADDR_ANY). destruct (put_autoip_ok s live own (nf_autoip f) x1 Hi) as [Hi0 Hl0]; [by split; [..|left]|].
  destruct (stop_run _ live own n f x1 L R Hi0 (with_client_put _ _ _ _ _ Hwc) HL HR) as (s' & live' & H & Hi' & Hl' & Hra).
  rewrite H, bind_clean. exists s', live'. split_and!; [done..|by eapply same_links_trans|].
  replace s1 with (put_autoip (put_autoip s (nf_autoip f) x1) (nf_autoip f) (set_ai_state x1 AUTOIP_STATE_OFF)); [done|].
  unfold s1, put_autoip, set_autoips, set_ifst. cbn [ifst autoips netif_num]. by rewrite insert_insert_eq.
Qed.
(** ** The next address *)

Lemma checking_links s n f x y addr l s' : netifs s !! n = Some f → acds s !! (nf_autoip f + AUTOIP_ACD) = Some y →
  nf_autoip f + AUTOIP_ACD ∈ l → checking s n f x y addr l s' → same_links s s' ∧ netifs s' = netifs s.
Proof.
  intros Hf Hy Hin [_ _ (nx & w & Ha & _ & Hnx) (h & Hn & Hh) _ Hp [Hl _] _]. rewrite Hnx in Ha by done. rewrite Hh in Hn by done.
  assert (netifs s' = netifs s) as Hns by (rewrite Hn; apply insert_id; rewrite Hf; by destruct f). split; [|done].
  split; rewrite ?Hp, ?Hns, ?Ha; try done. rewrite fmap_insert. apply insert_id. by rewrite lookup_fmap, Hy.
Qed.

(** The count of addresses tried, modulo 256. *)
Definition tried_next (x : autoip) : autoip := set_tried x (u8 (tried_llipaddr x + 1)).

Lemma restart_client_run s live own n f x y l : ninv s live own → with_client s n f x → netif_is_up f = true → ai_state x = AUTOIP_STATE_OFF →
  nchain acd_next (acds s) (nf_acd_list f) l → acds s !! (nf_autoip f + AUTOIP_ACD) = Some y → nf_autoip f + AUTOIP_ACD ≠ NULL →
  ∃ s', autoip_conflict_callback s n ACD_RESTART_CLIENT = Clean s' ∧ ninv s' live own ∧
    checking (put_autoip s (nf_autoip f) (tried_next x)) n f (tried_next x) y (probe_addr f (tried_next x)) l s'.
Proof.
  intros Hi Hwc Hup Hoff Hc Hy Hn. pose proof Hwc as [Hf Hd Hx]. destruct (co_types _ _ _ (ni_auto _ _ _ Hi) _ _ Hx) as [Hip Hk Hany].
  unfold autoip_conflict_callback, autoip_restart. rewrite (autoip_data_run s n f), !bind_clean, (upd_autoip_run _ _ x), bind_clean by done.
  fold (tried_next x). destruct (put_autoip_ok s live own (nf_autoip f) (tried_next x) Hi) as [Hi1 Hl1]; [split; [done|apply u8_range|done]|].
  destruct (autoip_start_run _ live own n f (tried_next x) y l Hi1 (with_client_put _ _ _ _ _ Hwc) Hup Hoff Hc Hy Hn) as (s' & H & Hi' & Hck).
  rewrite H, bind_clean. by exists s'.
Qed.

(** The state of the client and whether the interface is up decide what a restart does. *)
Lemma restart_safe s live own n f x y l : ninv s live own → with_client s n f x → nchain acd_next (acds s) (nf_acd_list f) l →
  acds s !! (nf_autoip f + AUTOIP_ACD) = Some y → nf_autoip f + AUTOIP_ACD ∈ l → safe own s (autoip_conflict_callback s n ACD_RESTART_CLIENT).
Proof.
  intros Hi Hwc Hc Hy Hin. destruct (nchain_elem _ _ _ _ _ Hc Hin) as [Hn _]. pose proof Hwc as [Hf Hd Hx].
  destruct (co_types _ _ _ (ni_auto _ _ _ Hi) _ _ Hx) as [Hip Hk Hany].
  destruct (put_autoip_ok s live own (nf_autoip f) (tried_next x) Hi) as [Hi1 Hl1]; [split; [done|apply u8_range|done]|].
  destruct (decide (netif_is_up f = true ∧ ai_state x = AUTOIP_STATE_OFF)) as [[Hup Hoff]|Hno].
  - destruct (restart_client_run s live own n f x y l) as (s' & H & Hi' & Hck); try done.
    destruct (checking_links (put_autoip s (nf_autoip f) (tried_next x)) n f _ y _ l s' Hf Hy Hin Hck) as [Hl _]. exists s', live. split_and!; [done..|by eapply same_links_trans].
  - exists (put_autoip s (nf_autoip f) (tried_next x)), live. split_and!; [|done..].
    unfold autoip_conflict_callback, autoip_restart. rewrite (autoip_data_run s n f), !bind_clean, (upd_autoip_run _ _ x), bind_clean by done.
    fold (tried_next x). unfold autoip_start, autoip_client. set (s1 := put_autoip s _ _). unfold get_netif. rewrite (autoip_data_run s1 n f), bind_clean by done.
    change (netifs s1 !! n) with (netifs s !! n). rewrite Hf. out_simp. destruct (netif_is_up f); cbn [negb]; [|by out_simp].
    rewrite (proj2 (Z.eqb_neq _ NULL)) by done. out_simp. rewrite (proj2 (Z.eqb_neq _ NULL)) by done.
    rewrite (get_autoip_run s1 _ (tried_next x) (lookup_insert_eq _ _ _)), bind_clean, decide_False; [by out_simp|]. intros Hst. apply Hno. by split.
Qed.

(** A client is attached to an interface. *)
Lemma attach_ok s live own n f a x : ninv s live own → netifs s !! n = Some f → is_Some (acds s !! (a + AUTOIP_ACD)) → autoip_ok x →
  ninv (put_netif (put_autoip s a x) n (set_nf_autoip f a)) live own.
Proof.
  intros Hi Hf Ha Hx. destruct (put_autoip_ok s live own a x Hi Hx) as [Hi1 _]. set (s1 := put_autoip s a x) in *.
  destruct Hi1 as [I1 I2 I3 [L1 [nl L2] L5 L3 L4] I5 I6 I7 I8 [C1 C2]].
  assert (∀ m, is_Some (netifs s !! m) → is_Some (<[n := set_nf_autoip f a]> (netifs s) !! m)) as Hsome.
  { intros m Hm. by apply lookup_insert_is_Some'; right. }
  split; try done; [split; try done|by eapply table_ok_netifs|split; [|done]]; cbn [netifs acds ifst netif_list put_netif set_netifs].
  - intros m g [[<- <-]|[_ Hg]]%lookup_insert_Some; [|by eapply L1]. destruct (L1 n f Hf) as [? []]. by split.
  - exists nl. apply (nchain_links _ (netifs s)); [done|]. rewrite fmap_insert. apply insert_id. by rewrite lookup_fmap, Hf.
  - intros Hd. by apply Hsome, L5.
  - intros m g [[<- <-]|[_ Hg]]%lookup_insert_Some; [by apply (L3 n f)|by eapply L3].
  - intros m g [[<- <-]|[_ Hg]]%lookup_insert_Some Hn; [|by eapply C1]. split; [|exact Ha]. eexists. apply lookup_insert_eq.
Qed.

(** ** The calls of the application *)

Inductive autoip_call := AutoipStart (netif : Z) | AutoipStop (netif : Z).

Definition autoip_exec (s : nst) (c : autoip_call) : out (Z * nst) :=
  match c with AutoipStart n => autoip_start s n | AutoipStop n => autoip_stop s n end.

(** The interface exists and has its client. *)
Definition autoip_allowed (s : nst) (c : autoip_call) : Prop :=
  let n := match c with AutoipStart n | AutoipStop n => n end in
  ∃ f, netifs s !! n = Some f ∧ nf_autoip f ≠ NULL ∧ nf_autoip f + AUTOIP_ACD ≠ NULL.

Definition netifs_stay (s s' : nst) : Prop := ∀ m, is_Some (netifs s !! m) → is_Some (netifs s' !! m).

Lemma start_any s live own n f : ninv s live own → netifs s !! n = Some f → nf_autoip f ≠ NULL → nf_autoip f + AUTOIP_ACD ≠ NULL →
  ∃ r s', autoip_start s n = Clean (r, s') ∧ ninv s' live own ∧ netifs_stay s s' ∧
    r = (if netif_is_up f then ERR_OK else ERR_ARG) ∧
    ∀ x, autoips (ifst s) !! nf_autoip f = Some x → netif_is_up f = false ∨ ai_state x ≠ AUTOIP_STATE_OFF → s' = s.
Proof.
  intros Hi Hf Hd Hn. destruct (co_client _ _ _ (ni_auto _ _ _ Hi) n f Hf Hd) as [[x Hx] [y Hy]].
  destruct (lo_acds _ _ _ _ (ni_links _ _ _ Hi) _ _ Hf) as [l Hl].
  destruct (decide (netif_is_up f = true ∧ ai_state x = AUTOIP_STATE_OFF)) as [[Hup Hoff]|Hno].
  - destruct (autoip_start_run s live own n f x y l) as (s' & H & Hi' & Hck); [done|by split|done..|]. exists ERR_OK, s'. split_and!; [done|done| |by rewrite Hup|].
    + destruct (ck_netifs _ _ _ _ _ _ _ _ Hck) as (h & Hns & _). intros m Hm. rewrite Hns. by apply lookup_insert_is_Some'; right.
    + intros x' Hx'. assert (x' = x) as -> by congruence. intros [?|?]; congruence.
  - exists (if netif_is_up f then ERR_OK else ERR_ARG), s. split_and!; [|done|by intros ?|done|done].
    unfold autoip_start, autoip_client, get_netif. rewrite (autoip_data_run s n f), bind_clean by done. rewrite Hf. out_simp.
    destruct (netif_is_up f); cbn [negb]; [|done]. rewrite (proj2 (Z.eqb_neq _ NULL)) by done. out_simp. rewrite (proj2 (Z.eqb_neq _ NULL)) by done.
    rewrite (get_autoip_run s _ x Hx), bind_clean, decide_False; [done|]. intros Hst. apply Hno. by split.
Qed.

Lemma autoip_exec_run s live own c : ninv s live own → autoip_allowed s c →
  ∃ r s' live', autoip_exec s c = Clean (r, s') ∧ ninv s' live' own ∧ netifs_stay s s'.
Proof.
  intros Hi (f & Hf & Hd & Hn). destruct c as [n|n]; cbn [autoip_exec] in *.
  - destruct (start_any s live own n f Hi Hf Hd Hn) as (r & s' & H & Hi' & Hs & _). by exists r, s', live.
  - destruct (co_client _ _ _ (ni_auto _ _ _ Hi) n f Hf Hd) as [[x Hx] _]. destruct (ninv_ulist _ _ _ Hi) as [L HL]. destruct (ninv_rlist _ _ _ Hi) as [R HR].
    destruct (stop_run s live own n f x L R Hi) as (s' & live' & H & Hi' & Hl & _); [by split|done..|]. exists ERR_OK, s', live'. split_and!; [done..|].
    intros m. by apply links_netif.
Qed.
End AutoipInv.
