(* ===== verification/IfSpec.v ===== *)
(** * Interfaces

    The theorems about netif.c and the set-up code of app.c: addresses, adding and removing, up and down, the
    configuration of the board. *)
From S2P Require Import Prelude Def Chksum Stats Iface Ip4Addr Mem Memp Alloc Pbuf PbufChain PbufClient PbufData PbufClone Pcb Netif NetInv Links EthOut Region Acd Autoip Etharp EtharpInv EtharpTmr Ip4Out Ip4OutInv Udp Raw UdpInv UdpOps UdpApi UdpOut RawInv Ip4 Ip4Inv NetifAddr AutoipRun NetifUp AppIf IfInv IfSafe IfAdd AppInv NetEx AcdList AutoipInv.

Section IfSpec.
Context {M : Type} `{PM : PbufAlloc M} {E : NetEnv M} {U : IpUpper M} {IE : IfEnv M} {AE : AppEnv M} `{HI : !IfClients}.
Abbreviation pst := (@pst M).
Abbreviation nst := (nst M).

(** C19: [netif_set_addr] sets address, netmask and gateway of the interface and of no other, and
    every UDP or raw pcb bound to the former address is bound to the new one when
    neither is 0.0.0.0; the list of interfaces, the default route and the
    conflict detection clients stay.  Everything else (packets, ARP table, what was sent, counters)
    changes only in the call that tells TCP and in the status callback of the
    application, and not at all when the address is the one it was ([only_told]).  The case in which a routable
    address replaces a link-local one, where conflict detection clients are told as well, is
    excluded here. *)
Theorem netif_set_addr_spec s live own n f ip mask gw L R : ninv s live own → netifs s !! n = Some f →
  is_u32 ip → is_u32 mask → is_u32 gw → ulist s L → rlist s R → turns_passive (nf_ip_addr f) ip = false →
  ∃ s' live', netif_set_addr s n (Some ip) (Some mask) (Some gw) = Clean s' ∧ ninv s' live' own ∧
    readdressed s n (configured f ip mask gw) (nf_ip_addr f) ip L R s'.
Proof.
  intros Hi Hf Hip Hm Hg HL HR Hp. destruct (set_addr_run s live own n f ip mask gw L R Hi Hf Hip Hm Hg HL HR Hp) as (s' & live' & H & Hi' & _ & Hr).
  by exists s', live'.
Qed.

(** C18: [netif_add] of a struct that is not in use, with a driver whose init function succeeds:
    the search for a number ends; the interface has the addresses given, no clients, and a
    number from 0 to 254 that no other interface has; it is the first of the list,
    everything else is as before, and [netif_get_by_index] finds it and
    every other interface of the list by its index. *)
Theorem netif_add_spec s live own n f0 ip mask gw init G l : ninv s live own → netifs s !! n = None → n ≠ NULL → listed s l → numbered s l →
  (length l < 255)%nat → is_u8 (netif_num (ifst s)) → driver init n G → is_u32 (default 0 ip) → is_u32 (default 0 mask) → is_u32 (default 0 gw) →
  ∃ v, let h := new_netif s f0 G ip mask gw v in let s' := in_front s n h (if v =? 254 then 0 else v + 1) in
    netif_add (put_netif s n f0) n ip mask gw (Some init) = Clean (n, s') ∧ ninv s' live own ∧
    0 ≤ v < 255 ∧ v ∉ (num_of s <$> l) ∧ listed s' (n :: l) ∧ numbered s' (n :: l) ∧
    nf_ip_addr h = default 0 ip ∧ nf_netmask h = default 0 mask ∧ nf_gw h = default 0 gw ∧ nf_acd_list h = NULL ∧ nf_autoip h = NULL ∧
    ∀ m g, m ∈ n :: l → netifs s' !! m = Some g → netif_get_by_index s' (netif_get_index g) = Clean m.
Proof.
  intros Hi Hnone Hn Hl Hnum Hlen H8 Hdr Hip Hm Hg. destruct (add_run s live own n f0 ip mask gw init G l Hi Hnone Hn Hl Hlen H8 Hdr) as (v & Hadd & Hv & Hfree).
  exists v. cbv zeta in *. set (h := new_netif s f0 G ip mask gw v) in *. set (num := if v =? 254 then 0 else v + 1) in *.
  destruct (new_netif_ok s f0 G ip mask gw v init n Hdr Hip Hm Hg) as (Hok & Hnx & Ha & Hau & Hnv & H1 & H2 & H3). fold h in Hok, Hnx, Ha, Hau, Hnv, H1, H2, H3.
  destruct (in_front_ok s live own n h num l Hi Hnone Hn Hl Hnx Hok Ha Hau) as [Hi1 Hl1].
  assert (n ∉ l) as Hnl by (intros Hin; destruct (nchain_elem _ _ _ _ _ Hl Hin) as [_ [? ?]]; congruence).
  pose proof (in_front_numbered s n h num l v Hnum Hnl Hnv Hv Hfree) as Hn1.
  repeat (split; [assumption|]). intros m g Hin Hmg. by apply (by_index_run _ (n :: l)).
Qed.

(** [netif_set_down] on an interface that is up clears the flag; an Ethernet
    interface's ARP entries are dropped, with the packets waiting in them, those of other interfaces
    stay; nothing else of the configuration changes.  An interface that is
    down is left alone. *)
Theorem netif_set_down_spec s live own n f L R : ninv s live own → netifs s !! n = Some f → ulist s L → rlist s R →
  ∃ s' live', netif_set_down s n = Clean s' ∧ ninv s' live' own ∧
    if has_flag (nf_flags f) NETIF_FLAG_UP
    then netifs s' = <[n := downed f]> (netifs s) ∧ netif_is_up (downed f) = false ∧ arp_table s' = flushed_arp n f (arp_table s) ∧
      netif_list s' = netif_list s ∧ netif_default s' = netif_default s ∧ ulist s' L ∧ rlist s' R
    else s' = s.
Proof.
  intros Hi Hf HL HR. destruct (netif_ok_of _ _ _ _ _ Hi Hf) as [Hn _]. destruct (has_flag (nf_flags f) NETIF_FLAG_UP) eqn:Hup.
  - destruct (set_down_run s live own n f L R Hi Hf Hup HL HR) as (s' & live' & H & Hi' & _ & Q1 & Q2 & Q3 & Q4 & Q5 & Q6).
    assert (netif_is_up (downed f) = false) as Hd.
    { unfold netif_is_up, downed, clear_flag, NETIF_FLAG_UP. cbn [nf_flags set_nf_flags]. change (u8 (Z.land (Z.lnot 1) 255)) with 254. apply negb_false_iff, Z.eqb_eq.
      unfold u8. change 256 with (2 ^ 8). rewrite <- Z.land_ones, <- Z.land_assoc, <- Z.land_assoc by lia. change (Z.land 254 (Z.land (Z.ones 8) 1)) with 0. apply Z.land_0_r. }
    exists s', live'. by split_and!.
  - exists s, live. split_and!; [|done..]. unfold netif_set_down. by rewrite (proj2 (Z.eqb_neq n NULL)), (get_netif_run s n f Hf), bind_clean, Hup by done.
Qed.

(** C20: [netif_remove] takes the interface off the list, where the others keep their order; it is
    down afterwards and not the default one; no ARP entry of an Ethernet interface that was up
    names it any longer, and the UDP and raw pcbs stay as they are. *)
Theorem netif_remove_spec s live own n f l L R : ninv s live own → netifs s !! n = Some f → listed s l → ulist s L → rlist s R →
  ∃ s' live', netif_remove s n = Clean s' ∧ ninv s' live' own ∧ listed s' (filter (.≠ n) l) ∧
    netifs s' !! n = Some (if has_flag (nf_flags f) NETIF_FLAG_UP then downed f else f) ∧
    netif_default s' = (if netif_default s =? n then NULL else netif_default s) ∧ ulist s' L ∧ rlist s' R ∧
    (has_flag (nf_flags f) NETIF_FLAG_UP = true → has_flag (nf_flags (downed f)) NETIF_FLAG_ETHARP = true →
       ∀ e, e ∈ arp_table s' → ae_state e ≠ ETHARP_STATE_EMPTY → ae_netif e ≠ n).
Proof.
  intros Hi Hf Hl HL HR. destruct (netif_remove_run s live own n f l L R Hi Hf Hl HL HR) as (s' & live' & H). by exists s', live'.
Qed.

(** C23: with a static configuration [netdev_config] makes the zeroed struct an interface that is up, with its
    link up, the configured addresses, hardware address and MTU (1500 where none is given)
    and a number of its own, in front of the list, the default one if configured so;
    no assertion fails. *)
Theorem netdev_config_static s live own n f0 dev dh au l : ninv s live own → netifs s !! n = None → n ≠ NULL → listed s l →
  (length l < 255)%nat → is_u8 (netif_num (ifst s)) → dev_ok dev → dev_mode dev = NET_STATIC →
  ∃ v s' live', netdev_config (put_netif s n f0) dev n dh au = Clean s' ∧ ninv s' live' own ∧
    netifs s' = <[n := board_netif dev (netif_list s) v]> (netifs s) ∧ listed s' (n :: l) ∧
    netif_default s' = (if dev_default_netif dev =? 0 then netif_default s else n) ∧ 0 ≤ v < 255 ∧ v ∉ (num_of s <$> l).
Proof.
  intros Hi Hnone Hn Hl Hlen H8 Hdev Hmode. destruct (ninv_ulist _ _ _ Hi) as [L HL]. destruct (ninv_rlist _ _ _ Hi) as [R HR].
  destruct (netdev_up_run s live own n netif_zero dev l L R Hi Hnone Hn Hl Hlen H8 Hdev HL HR) as (v & s' & live' & Hup & Hi' & H1 & H2 & H3 & H4 & H5 & _).
  exists v, s', live'. split; [|by repeat (split; [assumption|])]. unfold netdev_config, get_mode. rewrite (upd_netif_run _ n _ _ (put_netif_lookup s n f0)), bind_clean, put_put.
  rewrite Hmode. change (NET_STATIC =? NET_NONE) with false. unfold netdev_clients, get_mode. rewrite Hmode, Z.eqb_refl, bind_ret_l, Hup, bind_clean.
  unfold netdev_start. change (MODE_DHCP NET_STATIC) with false. change (NET_STATIC =? NET_AUTOIP) with false. by out_simp.
Qed.

(** The client's struct filled with zeros. *)
Lemma clear_autoip_ok s live own a : ninv s live own → a + AUTOIP_ACD ≠ NULL → ninv (clear_autoip s a) live own.
Proof.
  intros Hi Ha. assert (ninv (put_autoip s a autoip_zero) live own) as [I1 I2 I3 [L1 L2 L5 L3 L4] I5 I6 I7 I8 I9] by (apply put_autoip_ok; [done|]; split; [done|done|by left]).
  split; try done; [split; try done|]; cbn [netifs acds ifst clear_autoip set_acds].
  - intros n f Hf. destruct (L3 n f Hf) as [l Hl]. apply (nchain_join _ (a + AUTOIP_ACD) acd_zero [] (nchain_nil _ _) (not_elem_of_nil _) Ha _ l Hl).
  - intros b x [[<- <-]|[_ Hx]]%lookup_insert_Some; [by split|by eapply L4].
  - apply (clients_acds _ _ _ _ I9). intros b Hb. by apply lookup_insert_is_Some'; right.
Qed.

(** C38: with an AutoIP configuration [netdev_config] attaches the client's struct it is given, but [netif_add]
    forgets it again: when [autoip_start] is called the interface is up and has no client.  So the
    client is allocated from the heap after all, and where that fails the assertion of
    [netdev_config] fails, although a struct was at hand. *)
Theorem netdev_config_forgets_client s live own n f0 dev dh au l : ninv s live own → netifs s !! n = None → n ≠ NULL → listed s l →
  (length l < 255)%nat → is_u8 (netif_num (ifst s)) → dev_ok dev → dev_mode dev = NET_AUTOIP → au ≠ NULL → au + AUTOIP_ACD ≠ NULL →
  ∃ s1 live1 g, netdev_up (put_netif (clear_autoip s au) n (set_nf_autoip netif_zero au)) dev n = Clean s1 ∧
    netdev_config (put_netif s n f0) dev n dh au =
      ('(err, s) ← autoip_start s1 n; _ ← lwip_assert "autoip_start failed" (err =? ERR_OK); mret s) ∧
    ninv s1 live1 own ∧ netifs s1 !! n = Some g ∧ netif_is_up g = true ∧ nf_autoip g = NULL ∧ autoips (ifst s1) !! au = Some autoip_zero ∧
    ∀ m', pa_malloc (pmem (pb s1)) SrcHeap SIZEOF_STRUCT_AUTOIP = Clean (NULL, m') →
      netdev_config (put_netif s n f0) dev n dh au = Ret (set_pb s1 (set_pmem (pb s1) m')) ["autoip_start failed"].
Proof.
  intros Hi Hnone Hn Hl Hlen H8 Hdev Hmode Hau Ha8. set (s0 := clear_autoip s au). pose proof (clear_autoip_ok s live own au Hi Ha8) as Hi0. fold s0 in Hi0.
  destruct (ninv_ulist _ _ _ Hi0) as [L HL]. destruct (ninv_rlist _ _ _ Hi0) as [R HR].
  destruct (netdev_up_run s0 live own n (set_nf_autoip netif_zero au) dev l L R Hi0 Hnone Hn Hl Hlen H8 Hdev HL HR)
    as (v & s1 & live1 & Hup & Hi1 & H1 & _ & _ & _ & _ & H6 & _).
  set (g := board_netif dev _ v) in *. assert (netifs s1 !! n = Some g) as Hg by (rewrite H1; apply lookup_insert_eq).
  assert (netdev_config (put_netif s n f0) dev n dh au = ('(err, s) ← autoip_start s1 n; _ ← lwip_assert "autoip_start failed" (err =? ERR_OK); mret s)) as Hrun.
  { unfold netdev_config, get_mode. rewrite (upd_netif_run _ n _ _ (put_netif_lookup s n f0)), bind_clean, put_put, Hmode.
    change (NET_AUTOIP =? NET_NONE) with false. cbn iota. unfold netdev_clients, get_mode. rewrite Hmode.
    change (NET_AUTOIP =? NET_STATIC) with false. change (MODE_DHCP NET_AUTOIP) with false. cbn iota. rewrite Z.eqb_refl.
    unfold autoip_set_struct. rewrite (proj2 (Z.eqb_neq n NULL)), (proj2 (Z.eqb_neq au NULL)) by done. cbn [negb]. out_simp.
    rewrite (autoip_data_run _ n netif_zero (put_netif_lookup s n _)), bind_clean. change (nf_autoip netif_zero =? NULL) with true. out_simp.
    rewrite (upd_netif_run (clear_autoip (put_netif s n netif_zero) au) n netif_zero _ (put_netif_lookup s n _)), !bind_clean.
    change (put_netif (clear_autoip (put_netif s n netif_zero) au) n (set_nf_autoip netif_zero au))
      with (put_netif (put_netif s0 n netif_zero) n (set_nf_autoip netif_zero au)). rewrite put_put, bind_ret_l, Hup, bind_clean.
    unfold netdev_start. change (MODE_DHCP NET_AUTOIP) with false. cbn iota. by rewrite bind_ret_l, Z.eqb_refl. }
  exists s1, live1, g. split; [exact Hup|]. split; [exact Hrun|]. split; [done|]. split; [exact Hg|]. split; [done|]. split; [done|]. split.
  { rewrite H6. cbn [autoips]. apply lookup_insert_eq. }
  intros m' Hm. rewrite Hrun. unfold autoip_start, autoip_client. rewrite (autoip_data_run s1 n g Hg), bind_clean, (get_netif_run s1 n g Hg), bind_clean.
  change (netif_is_up g) with true. change (nf_autoip g =? NULL) with true. cbn [negb]. change (1 * SIZEOF_STRUCT_AUTOIP) with SIZEOF_STRUCT_AUTOIP.
  change (nf_autoip g =? NULL) with true. cbn iota. rewrite Hm, bind_clean. by out_simp.
Qed.
End IfSpec.

(** *** The small network, with a DHCP client that does nothing *)

#[export] Instance ex_app_env : AppEnv ex_M := {
  dhcp_set_struct s netif dhcp := mret s;
  dhcp_start s netif := mret (ERR_OK, s);
  dhcp_cleanup s netif := mret s;
  dhcp_memset s dhcp := mret s;
  netif_status_callback_fn := 60100;
  link_callback_fn := 60200 }.

(** A second interface, 192.168.1.20/24. *)
Definition ex_new : Z := 50200.
Definition ex_dev_mac : list Z := [0x52; 0x54; 0; 0x12; 0x34; 0x57].
Definition ex_dev (mode : Z) : netdev_config_t := NetdevConfig ex_dev_mac mode 0x1401a8c0 0x00ffffff 0x0101a8c0 0 1.

Lemma ex_dev_ok mode : dev_ok (ex_dev mode).
Proof. split; [split; [split; [reflexivity|repeat constructor; discriminate]|discriminate]|split; reflexivity || discriminate..]. Qed.

Lemma ex_listed : listed ex_net [ex_nif].
Proof. econstructor; [discriminate|reflexivity|constructor]. Qed.

Lemma ex_numbered : numbered ex_net [ex_nif].
Proof. split; [apply NoDup_singleton|]. constructor; [split; reflexivity || discriminate|constructor]. Qed.

Lemma netif_set_addr_spec_witness : ∃ s', netif_set_addr ex_net ex_nif (Some 0x1401a8c0) (Some ex_mask) (Some 0x0101a8c0) = Clean s' ∧
  nf_ip_addr <$> netifs s' !! ex_nif = Some 0x1401a8c0.
Proof.
  destruct (netif_set_addr_spec ex_net ∅ own0 ex_nif ex_netif 0x1401a8c0 ex_mask 0x0101a8c0 [] [] ex_net_ok) as (s' & live' & H & _ & [H1 _ _ _ _ _ _]).
  - reflexivity.
  - split; reflexivity || discriminate.
  - split; reflexivity || discriminate.
  - split; reflexivity || discriminate.
  - constructor.
  - constructor.
  - reflexivity.
  - exists s'. split; [exact H|]. rewrite H1, lookup_insert_eq. reflexivity.
Defined.

Lemma netif_add_spec_witness : ∃ s', netif_add (put_netif ex_net ex_new netif_zero) ex_new (Some 0x1401a8c0) None None (Some (mynetif_init (ex_dev NET_STATIC))) =
    Clean (ex_new, s') ∧ listed s' [ex_new; ex_nif] ∧ netif_get_by_index s' 1 = Clean ex_nif.
Proof.
  destruct (netif_add_spec ex_net ∅ own0 ex_new netif_zero (Some 0x1401a8c0) None None (mynetif_init (ex_dev NET_STATIC)) (mynetif_setup (ex_dev NET_STATIC)) [ex_nif] ex_net_ok)
    as (v & H & _ & _ & _ & H1 & _ & _ & _ & _ & _ & _ & H2).
  - reflexivity.
  - discriminate.
  - apply ex_listed.
  - apply ex_numbered.
  - apply Nat.ltb_lt. reflexivity.
  - split; reflexivity || discriminate.
  - apply mynetif_driver, ex_dev_ok.
  - split; reflexivity || discriminate.
  - split; reflexivity || discriminate.
  - split; reflexivity || discriminate.
  - eexists. split; [exact H|]. split; [exact H1|]. apply (H2 ex_nif ex_netif); [right; left|reflexivity].
Defined.

Lemma netif_set_down_spec_witness : ∃ s', netif_set_down ex_net ex_nif = Clean s' ∧ nf_flags <$> netifs s' !! ex_nif = Some 0x0e.
Proof.
  destruct (netif_set_down_spec ex_net ∅ own0 ex_nif ex_netif [] [] ex_net_ok) as (s' & live' & H & _ & H1 & _).
  - reflexivity.
  - constructor.
  - constructor.
  - exists s'. split; [exact H|]. rewrite H1, lookup_insert_eq. reflexivity.
Defined.

Lemma netif_remove_spec_witness : ∃ s', netif_remove ex_net ex_nif = Clean s' ∧ listed s' [] ∧ netif_default s' = NULL.
Proof.
  destruct (netif_remove_spec ex_net ∅ own0 ex_nif ex_netif [ex_nif] [] [] ex_net_ok) as (s' & live' & H & _ & H1 & _ & H2 & _).
  - reflexivity.
  - apply ex_listed.
  - constructor.
  - constructor.
  - exists s'. split; [exact H|]. split; [exact H1|]. rewrite H2. reflexivity.
Defined.

Lemma netdev_config_static_witness : ∃ s', netdev_config (put_netif ex_net ex_new netif_zero) (ex_dev NET_STATIC) ex_new 0 0 = Clean s' ∧
  listed s' [ex_new; ex_nif] ∧ netif_default s' = ex_new ∧ nf_mtu <$> netifs s' !! ex_new = Some 1500.
Proof.
  destruct (netdev_config_static ex_net ∅ own0 ex_new netif_zero (ex_dev NET_STATIC) 0 0 [ex_nif] ex_net_ok)
    as (v & s' & live' & H & _ & H1 & H2 & H3 & _).
  - reflexivity.
  - discriminate.
  - apply ex_listed.
  - apply Nat.ltb_lt. reflexivity.
  - split; reflexivity || discriminate.
  - apply ex_dev_ok.
  - reflexivity.
  - exists s'. split; [exact H|]. split; [exact H2|]. split; [exact H3|]. rewrite H1, lookup_insert_eq. reflexivity.
Defined.

(** The small network when a packet of 15900 bytes takes the whole heap. *)
Definition ex_full : nst ex_M := set_pb ex_net (after ex_s0 (EAlloc PBUF_TRANSPORT 15900 PBUF_RAM)).

Lemma ex_full_ok : ∃ live own, ninv ex_full live own.
Proof.
  destruct (ninv_alloc_ram ex_net ∅ own0 PBUF_TRANSPORT 15900 ex_net_ok) as (m & [[H _]|(q & cap & Hq & H & _ & _ & Hi)]).
  - split; discriminate.
  - split; [discriminate|reflexivity].
  - exfalso. assert (result ex_s0 (EAlloc PBUF_TRANSPORT 15900 PBUF_RAM) ≠ NULL) as Hr by (vm_compute; discriminate).
    apply Hr. unfold result, pexec. change (pbuf_alloc ex_cff ex_s0 PBUF_TRANSPORT 15900 PBUF_RAM) with (pbuf_alloc env_custom_free (pb ex_net) PBUF_TRANSPORT 15900 PBUF_RAM). by rewrite H.
  - eexists _, _. unfold ex_full, after, pexec. change (pbuf_alloc ex_cff ex_s0 PBUF_TRANSPORT 15900 PBUF_RAM) with (pbuf_alloc env_custom_free (pb ex_net) PBUF_TRANSPORT 15900 PBUF_RAM).
    rewrite H. exact Hi.
Qed.

(** The struct for the client *)
Definition ex_given : Z := 50400.

(** The state of a call that returns one. *)
Definition got (o : out (nst ex_M)) : nst ex_M := match o with Ret s _ => s | _ => ex_net end.

Definition ex_up : nst ex_M := got (netdev_up (put_netif (clear_autoip ex_full ex_given) ex_new (set_nf_autoip netif_zero ex_given)) (ex_dev NET_AUTOIP) ex_new).

Lemma ex_full_heap : ∃ m', pa_malloc (pmem (pb ex_up)) SrcHeap SIZEOF_STRUCT_AUTOIP = Clean (NULL, m').
Proof. eexists. vm_compute. reflexivity. Qed.

Lemma netdev_config_forgets_client_witness : ∃ s', netdev_config (put_netif ex_full ex_new netif_zero) (ex_dev NET_AUTOIP) ex_new 0 ex_given = Ret s' ["autoip_start failed"%string].
Proof.
  destruct ex_full_ok as (live & own & Hi). destruct ex_full_heap as (m' & Hm).
  destruct (netdev_config_forgets_client ex_full live own ex_new netif_zero (ex_dev NET_AUTOIP) 0 ex_given [ex_nif] Hi)
    as (s1 & live1 & g & Hup & _ & _ & _ & _ & _ & _ & H).
  - reflexivity.
  - discriminate.
  - apply ex_listed.
  - apply Nat.ltb_lt. reflexivity.
  - split; reflexivity || discriminate.
  - apply ex_dev_ok.
  - reflexivity.
  - discriminate.
  - discriminate.
  - eexists. apply (H m'). assert (ex_up = s1) as <- by (unfold ex_up; rewrite Hup; reflexivity). exact Hm.
Defined.
