(* ===== verification/EthSpec.v ===== *)
(** * The network interface layer

    The theorems about Ethernet framing and ARP, and the network layer as a state machine:
    frames arrive, timers fire, the IPv4 layer sends packets, clients allocate and
    free packets, make calls on UDP and raw pcbs and send through them, interfaces
    are configured, go up and down, in any order. *)
From S2P Require Import Prelude Def Chksum Stats Iface Ip4Addr Mem Memp Alloc Pbuf PbufChain PbufClient PbufData PbufClone Pcb Netif NetInv Links EthOut Region Acd Autoip Etharp EtharpInv EtharpTmr EtharpRes EtharpQuery EtharpOut EtharpIn EthIn Ip4Out Ip4OutInv Icmp Udp Raw UdpInv UdpOps UdpApi UdpIn IcmpInv IcmpEcho IcmpIn Received UdpInput UdpOut RawInv RawApi RawInput RawOut Ip4 Ip4Inv NetifAddr AutoipRun NetifUp IfInv IfSafe NetEx AcdList AutoipInv.

Section Spec.
Context {M : Type} `{PM : PbufAlloc M} {E : NetEnv M} {U : IpUpper M} `{HC : !AcdClients} `{HF : !FragOk} `{HU : !UdpClients} `{HW : !RawClients} `{HTcp : !TcpOk} {IE : IfEnv M} `{HI : !IfClients}.
Abbreviation pst := (@pst M).
Abbreviation nst := (nst M).

(** ** Events *)

Inductive net_ev :=
| EvFrame (frame frame_len : Z)
| EvArpTmr
| EvAcdTmr
| EvOutput (q ipaddr : Z)
| EvSend (p : Z) (src : option Z) (dest ttl tos proto : Z)
| EvCleanup (netif : Z)
| EvLinkDown (netif : Z)
| EvAddrChanged (netif old_addr new_addr : Z)
| EvUdp (c : udp_call)
| EvUdpSend (pcb p dst dport : Z)
| EvRaw (c : raw_call)
| EvRawSend (pcb p dst : Z)
| EvIf (c : if_call)
| EvAutoip (c : autoip_call)
| EvAlloc (layer n : Z)
| EvFree (p : Z).

(** [n] is the interface of the driver. *)
Definition net_exec (n : Z) (s : nst) (e : net_ev) : out (Z * nst) :=
  match e with
  | EvFrame frame frame_len => process_frames n s frame frame_len
  | EvArpTmr => s ← etharp_tmr s; mret (0, s)
  | EvAcdTmr => s ← acd_tmr s; mret (0, s)
  | EvOutput q ipaddr => etharp_output s n q ipaddr
  | EvSend p src dest ttl tos proto => ip4_output s p src (Some dest) ttl tos proto
  | EvCleanup netif => s ← etharp_cleanup_netif s netif; mret (0, s)
  | EvLinkDown netif => s ← acd_network_changed_link_down s netif; mret (0, s)
  | EvAddrChanged netif old_addr new_addr => s ← acd_netif_ip_addr_changed s netif old_addr new_addr; mret (0, s)
  | EvUdp c => udp_exec s c
  | EvUdpSend pcb p dst dport => udp_sendto s pcb p (Some dst) dport
  | EvRaw c => raw_exec s c
  | EvRawSend pcb p dst => raw_sendto s pcb p (Some dst)
  | EvIf c => s ← if_exec s c; mret (0, s)
  | EvAutoip c => autoip_exec s c
  | EvAlloc layer n => withp s (λ q, pbuf_alloc env_custom_free q layer n PBUF_RAM)
  | EvFree p => withp s (λ q, pbuf_free env_custom_free q p)
  end.

(** What the callers respect: frames lie in the driver's memory, packets handed down are held
    by the caller, well formed and start with an IPv4 header, a packet is freed once.  Frames with
    fragments of IPv4 packets, which ip4_frag.c would keep, are left out. *)
Definition net_allowed (s : nst) (own : Z → Z) (e : net_ev) : Prop :=
  match e with
  | EvFrame frame frame_len => 0 ≤ frame_len < 65536 ∧ frame ≠ NULL ∧ mapped (data (pb s)) frame frame_len ∧
      (∀ x, frame ≤ x < frame + frame_len → ¬ pa_arena x) ∧ whole_frame s frame frame_len
  | EvOutput q ipaddr => is_u32 ipaddr ∧ 0 < own q ∧ ∃ b l, sendable s q b l ∧ 20 ≤ len b
  | EvSend p src dest ttl tos proto => is_u8 ttl ∧ is_u8 tos ∧ is_u8 proto ∧ is_u32 (default IPADDR_ANY src) ∧ is_u32 dest ∧
      0 < own p ∧ ∃ b l, sendable s p b l ∧ ref b = 1
  | EvLinkDown netif | EvAddrChanged netif _ _ => is_Some (netifs s !! netif)
  | EvUdp c => udp_allowed s c
  | EvUdpSend pcb p dst dport => is_Some (upcbs (udps s) !! pcb) ∧ is_u32 dst ∧ is_u16 dport ∧ 0 < own p ∧ ∃ b l, sendable s p b l ∧ ref b = 1
  | EvRaw c => ∃ σ, raw_abs s σ ∧ raw_allowed σ c
  | EvRawSend pcb p dst => is_Some (rpcbs (raws s) !! pcb) ∧ is_u32 dst ∧ 0 < own p ∧ ∃ b l, sendable s p b l ∧ ref b = 1
  | EvIf c => if_allowed s c
  | EvAutoip c => autoip_allowed s c
  | EvAlloc layer n => 0 ≤ layer ≤ PBUF_TRANSPORT ∧ is_u16 n
  | EvFree p => 0 < own p
  | _ => True
  end.

Definition net_own (own : Z → Z) (e : net_ev) (r : Z) : Z → Z :=
  match e with
  | EvAlloc _ _ => if r =? NULL then own else add_own own r 1
  | EvFree p => add_own own p (-1)
  | _ => own
  end.

Inductive net_run (n : Z) : nst → (Z → Z) → list net_ev → nst → (Z → Z) → Prop :=
| net_run_nil s own : net_run n s own [] s own
| net_run_cons s own e r s1 log tr s' own' : net_allowed s own e → net_exec n s e = Ret (r, s1) log →
    net_run n s1 (net_own own e r) tr s' own' → net_run n s own (e :: tr) s' own'.

Lemma safe_step own s m : safe own s m →
  ∃ r s' live', (s ← m; mret (0, s)) = Clean (r, s') ∧ ninv s' live' own ∧ same_links s s'.
Proof. intros (s' & live' & -> & Hi & Hl). rewrite bind_clean. by exists 0, s', live'. Qed.

(** Only starting AutoIP changes the lists. *)
Definition keeps_lists (e : net_ev) : bool := match e with EvAutoip _ => false | _ => true end.

Lemma net_step_links s live own n e : ninv s live own → is_Some (netifs s !! n) → net_allowed s own e → keeps_lists e = true →
  ∃ r s' live', net_exec n s e = Clean (r, s') ∧ ninv s' live' (net_own own e r) ∧ same_links s s'.
Proof.
  intros Hi Hn Ha Hk. destruct e as [frame flen| | |q ip|p src dest ttl tos proto|m|m|m old new|c|pcb p dst dport|c|pcb p dst|c|c|layer k|p]; cbn [net_exec net_allowed net_own] in *.
  - destruct Ha as (H1 & H2 & H3 & H4 & H5).
    destruct (process_frames_run s live own n frame flen Hi Hn H1 H2 H3 H4 H5) as (s' & live' & H & Hi' & Hl). by exists 0, s', live'.
  - apply safe_step. destruct (tmr_run s live own Hi) as (s' & live' & -> & Hi' & _ & Hm & _).
    exists s', live'. split_and!; [done..|by eapply moves_links].
  - apply safe_step. by eapply acd_tmr_safe.
  - destruct Ha as (Hip & Hq & b & l & Hs & Hlen). destruct Hn as [f Hf].
    destruct (rd32_run s live own (payload b + 12) Hi) as (src & Hsrc & _).
    { intros x Hx. apply (ninv_mapped _ _ _ _ _ Hi (sd_head _ _ _ _ Hs)). lia. }
    destruct (etharp_output_run s live own n f ip src q b l Hi Hf Hip Hq Hs Hsrc) as (r & s' & live' & H & Hi' & Hl & _).
    by exists r, s', live'.
  - destruct Ha as (H1 & H2 & H3 & H4 & H5 & Hp & b & l & Hs & Href). destruct (sendable_cons _ _ _ _ _ _ Hi Hs) as (l' & -> & _).
    destruct (lo_list _ _ _ _ (ni_links _ _ _ Hi)) as [nl Hnl]. destruct (content_some _ _ _ _ _ Hi (sd_chain _ _ _ _ Hs)) as [P HP].
    destruct (ip4_output_run s live own p b l' src dest ttl tos proto nl P Hi Hp Hnl Hs Href H1 H2 H3 H4 H5 HP)
      as (r & s' & live' & m & H & Hi' & Hl & _). by exists r, s', live'.
  - apply safe_step. destruct (cleanup_run s live own m Hi) as (s' & live' & -> & Hi' & _ & Hm & _).
    exists s', live'. split_and!; [done..|by eapply moves_links].
  - apply safe_step. by eapply acd_link_down_safe.
  - apply safe_step. by eapply acd_addr_changed_safe.
  - destruct (ninv_ulist _ _ _ Hi) as [L HL]. destruct (udp_call_run s live own L c Hi HL Ha) as (r & s' & L' & H & Hi' & _ & Hs' & _).
    exists r, s', live. split; [done|]. split; [done|]. rewrite Hs'. by split.
  - destruct Ha as ([x Hx] & Hd & _ & Hp & b & l & Hs & Href). destruct (sendable_cons _ _ _ _ _ _ Hi Hs) as (l' & -> & _).
    destruct (lo_list _ _ _ _ (ni_links _ _ _ Hi)) as [nl Hnl]. destruct (content_some _ _ _ _ _ Hi (sd_chain _ _ _ _ Hs)) as [P HP].
    destruct (ninv_ulist _ _ _ Hi) as [L HL].
    destruct (sendto_run s live own pcb x L p b l' P dst dport nl Hi HL Hx Hnl Hp Hs Href HP Hd) as (n' & r & s' & live' & H & Hi' & Hl & _). by exists r, s', live'.
  - destruct Ha as (σ & Habs & Ha). destruct (raw_call_refines s live own σ c Hi Habs Ha) as (s' & H & Hi' & _ & Hs').
    exists (raw_spec_step σ c).1, s', live. split; [done|]. split; [done|]. rewrite Hs'. by split.
  - destruct Ha as ([x Hx] & Hd & Hp & b & l & Hs & Href). destruct (sendable_cons _ _ _ _ _ _ Hi Hs) as (l' & -> & _).
    destruct (lo_list _ _ _ _ (ni_links _ _ _ Hi)) as [nl Hnl]. destruct (content_some _ _ _ _ _ Hi (sd_chain _ _ _ _ Hs)) as [P HP].
    destruct (raw_sendto_run s live own pcb x p b l' P dst nl Hi Hx Hnl Hp Hs Href HP Hd) as (n' & r & s' & live' & H & Hi' & Hl & _). by exists r, s', live'.
  - apply safe_step. by eapply if_exec_safe.
  - done.
  - destruct Ha as [Hlay Hlen]. destruct (ninv_alloc_ram s live own layer k Hi Hlay Hlen) as (m & [[Hr Hi']|(q & cap & Hq & Hr & _ & _ & Hi')]);
      erewrite withp_run by exact Hr.
    + eexists NULL, _, live. split_and!; [done|done|by split].
    + eexists q, _, _. split_and!; [done| |by split]. by rewrite (proj2 (Z.eqb_neq q NULL)).
  - destruct (ninv_free s live own p Hi Ha) as (c & q & live' & Hf & Hi' & Hd & _). erewrite withp_run by exact Hf.
    eexists c, _, live'. split_and!; [done|done|]. split; try done. cbn. by rewrite Hd.
Qed.

Lemma net_step s live own n e : ninv s live own → is_Some (netifs s !! n) → net_allowed s own e →
  ∃ r s' live', net_exec n s e = Clean (r, s') ∧ ninv s' live' (net_own own e r) ∧ netifs_stay s s'.
Proof.
  intros Hi Hn Ha. destruct (keeps_lists e) eqn:Hk.
  - destruct (net_step_links s live own n e Hi Hn Ha Hk) as (r & s' & live' & H & Hi' & Hl). exists r, s', live'. split_and!; [done..|].
    intros m. by apply links_netif.
  - destruct e; try done. by apply (autoip_exec_run s live own).
Qed.

Lemma net_run_ok n s own tr s' own' : net_run n s own tr s' own' → is_Some (netifs s !! n) → ∀ live, ninv s live own →
  (∃ live', ninv s' live' own') ∧ is_Some (netifs s' !! n).
Proof.
  induction 1 as [s own|s own e r s1 log tr s' own' Ha He Hr IH]; intros Hn live Hi; [by split; [exists live|]|].
  destruct (net_step s live own n e Hi Hn Ha) as (r0 & s0 & live0 & He0 & Hi0 & Hl0).
  rewrite He in He0. injection He0 as <- <- _. by apply (IH (Hl0 _ Hn) live0 Hi0).
Qed.

Lemma net_run_snoc n s own tr s1 own1 e r s2 log : net_run n s own tr s1 own1 → net_allowed s1 own1 e →
  net_exec n s1 e = Ret (r, s2) log → net_run n s own (tr ++ [e]) s2 (net_own own1 e r).
Proof.
  intros Hr Ha He. induction Hr as [s own|s own e0 r0 s0 log0 tr s1 own1 Ha0 He0 _ IH]; cbn [app].
  - eapply net_run_cons; [done..|constructor].
  - eapply net_run_cons; [done..|by apply IH].
Qed.


(** C2: the network layer never gets stuck.  After every sequence of events its callers may cause, the
    state is well formed for the references the events left, the interface of the driver
    is still there, and each further event that is allowed returns without faults and failed
    assertions, which makes the sequence one longer. *)
Theorem net_protocol_safe n s live own tr s1 own1 : ninv s live own → is_Some (netifs s !! n) → net_run n s own tr s1 own1 →
  (∃ live1, ninv s1 live1 own1) ∧ is_Some (netifs s1 !! n) ∧
  ∀ e, net_allowed s1 own1 e → ∃ r s2, net_exec n s1 e = Clean (r, s2) ∧ net_run n s own (tr ++ [e]) s2 (net_own own1 e r).
Proof.
  intros Hi Hn Hr. destruct (net_run_ok _ _ _ _ _ _ Hr Hn live Hi) as [[live1 Hi1] Hn1]. split; [by exists live1|]. split; [done|].
  intros e Ha. destruct (net_step s1 live1 own1 n e Hi1 Hn1 Ha) as (r & s2 & live2 & H & _). exists r, s2. split; [done|].
  by eapply net_run_snoc.
Qed.

(** C25: in every state a run of events reaches, the ARP table has its ten entries; no two
    entries in use are for the same address on the same interface; only pending
    entries hold a packet, and it has not been freed; ages stay below the
    limits of [etharp_tmr]. *)
Theorem arp_table_invariant n s live own tr s' own' : ninv s live own → is_Some (netifs s !! n) →
  net_run n s own tr s' own' → table_ok (netifs s') (arp_table s') ∧
  ∀ i e, arp_table s' !! i = Some e → ae_q e ≠ NULL →
    ae_state e = ETHARP_STATE_PENDING ∧ is_Some (pbufs (pb s') !! ae_q e).
Proof.
  intros Hi Hn Hr. destruct (net_run_ok _ _ _ _ _ _ Hr Hn live Hi) as [[live' Hi'] _]. split; [apply Hi'|].
  intros i e He Hq. split; [by apply (en_q _ _ (tb_entry _ _ (ni_table _ _ _ Hi') _ _ He))|].
  apply (i_own _ _ _ (ni_pb _ _ _ Hi')). cbv beta. pose proof (refs_lookup _ _ _ He Hq). pose proof (ni_own _ _ _ Hi' (ae_q e)). lia.
Qed.

Lemma refs_none T x : Forall (λ e, ae_q e = NULL) T → refs T x = 0.
Proof. induction 1 as [|e T He _ IH]; [done|]. cbn. rewrite (holds_null e) by done. exact IH. Qed.

(** C29: no packet is lost: when a run ends with no client holding a packet and none waiting
    in the table, every packet buffer has been given back to the allocators. *)
Theorem net_run_no_leak n s live own tr s' own' : ninv s live own → is_Some (netifs s !! n) →
  net_run n s own tr s' own' → (∀ x, own' x = 0) → Forall (λ e, ae_q e = NULL) (arp_table s') →
  pbufs (pb s') = ∅ ∧ pa_ok (pmem (pb s')) ∅.
Proof.
  intros Hi Hn Hr Ho HT. destruct (net_run_ok _ _ _ _ _ _ Hr Hn live Hi) as [[live' Hi'] _].
  destruct (unowned_empty _ _ _ (ni_pb _ _ _ Hi')) as [HB Hl]; [intros x; rewrite Ho, refs_none; done|].
  split; [done|]. rewrite <- Hl. apply (i_alloc _ _ _ (ni_pb _ _ _ Hi')).
Qed.
End Spec.

(** ** What the operations do *)

Section Fun.
Context {M : Type} `{PM : PbufAlloc M} {E : NetEnv M}.
Abbreviation pst := (@pst M).
Abbreviation nst := (nst M).

(** [etharp_find_entry] returns the first entry in use for the address on the interface;
    without one it makes room, as the flags allow: the first empty entry, else
    the oldest stable one, else the oldest pending one without a packet, else the
    oldest one with a packet (which is freed); it fails only when the flags
    forbid both. *)
Theorem etharp_find_entry_spec s live own a fl n : ninv s live own → is_u32 a →
  ∃ r s' live', etharp_find_entry s (Some a) fl n = Clean (r, s') ∧ ninv s' live' own ∧
    found (arp_table s) a fl n r (arp_table s') ∧ frames s' = frames s.
Proof.
  intros Hi Ha. destruct (find_entry_run s live own a fl n Hi Ha) as (r & s' & live' & H & Hi' & Hk & Hf & _).
  exists r, s', live'. split_and!; [done..|apply Hk].
Qed.

(** C32: one call of [etharp_tmr] ages every entry in use by one second, frees those that
    reached their limit together with their packet, lets the re-requesting
    states step, and sends one request for each entry that is still pending, in
    the order of the table: a request that does not go out is counted as an error
    for the lack of memory.  Nothing else is sent. *)
Theorem etharp_tmr_spec s live own : ninv s live own →
  ∃ s' live', etharp_tmr s = Clean s' ∧ ninv s' live' own ∧ arp_table s' = aged <$> arp_table s ∧
    attempts s s' (arp_table s ≫= asked (netifs s)).
Proof.
  intros Hi. destruct (tmr_run s live own Hi) as (s' & live' & H & Hi' & _ & _ & _ & Ht & Hf). by exists s', live'.
Qed.

(** [k] seconds. *)
Fixpoint tmr_times (k : nat) (s : nst) : out nst :=
  match k with O => mret s | S k' => s ← etharp_tmr s; tmr_times k' s end.

(** The age at which an entry in its state is dropped. *)
Definition limit (e : etharp_entry) : Z :=
  if decide (ae_state e = ETHARP_STATE_PENDING) then ARP_MAXPENDING else ARP_MAXAGE.

Lemma aged_step e : ae_state e ≠ ETHARP_STATE_EMPTY → ae_ctime e + 1 < limit e →
  ae_state (aged e) ≠ ETHARP_STATE_EMPTY ∧ ae_ctime (aged e) = ae_ctime e + 1 ∧ ae_ethaddr (aged e) = ae_ethaddr e ∧ limit (aged e) = limit e.
Proof.
  unfold aged, limit, ARP_MAXAGE, ARP_MAXPENDING. intros Hne Hlt. rewrite (decide_False (P := ae_state e = ETHARP_STATE_EMPTY)) by done.
  rewrite decide_False by (destruct (decide (ae_state e = ETHARP_STATE_PENDING)); intros [?|[? ?]]; (lia || done)).
  cbn. split_and!; try done; [by destruct (ae_state e)|]. by destruct (ae_state e).
Qed.

Lemma aged_drop e : ae_state e ≠ ETHARP_STATE_EMPTY → limit e ≤ ae_ctime e + 1 → aged e = entry_free.
Proof.
  unfold aged, limit, ARP_MAXAGE, ARP_MAXPENDING. intros Hne Hle. rewrite (decide_False (P := ae_state e = ETHARP_STATE_EMPTY)) by done.
  rewrite decide_True; [done|]. destruct (decide (ae_state e = ETHARP_STATE_PENDING)); [by right|left; lia].
Qed.

Lemma tmr_times_run k : ∀ s live own, ninv s live own → ∃ s' live', tmr_times k s = Clean s' ∧ ninv s' live' own ∧
  arp_table s' = Nat.iter k (fmap aged) (arp_table s).
Proof.
  induction k as [|k IH]; intros s live own Hi; [by exists s, live|]. cbn [tmr_times].
  destruct (tmr_run s live own Hi) as (s1 & live1 & -> & Hi1 & _ & _ & _ & Ht & _). rewrite bind_clean.
  destruct (IH s1 live1 own Hi1) as (s' & live' & H & Hi' & Ht'). exists s', live'. split_and!; try done.
  rewrite Ht', Ht. by rewrite <- Nat.iter_succ_r.
Qed.

Lemma iter_lookup k (T : list etharp_entry) i e : T !! i = Some e → Nat.iter k (fmap aged) T !! i = Some (Nat.iter k aged e).
Proof.
  intros He. induction k as [|k IH]; [done|]. change ((aged <$> Nat.iter k (fmap aged) T) !! i = Some (aged (Nat.iter k aged e))).
  by rewrite list_lookup_fmap, IH.
Qed.

Lemma iter_free k : Nat.iter k aged entry_free = entry_free.
Proof. induction k as [|k IH]; [done|]. change (aged (Nat.iter k aged entry_free) = entry_free). by rewrite IH. Qed.

Lemma aged_iter k : ∀ e, ae_state e ≠ ETHARP_STATE_EMPTY → ae_ctime e < limit e →
  (ae_ctime e + Z.of_nat k < limit e → let e' := Nat.iter k aged e in ae_state e' ≠ ETHARP_STATE_EMPTY ∧
     ae_q e' = ae_q e ∧ ae_ipaddr e' = ae_ipaddr e ∧ ae_netif e' = ae_netif e ∧ ae_ethaddr e' = ae_ethaddr e ∧
     ae_ctime e' = ae_ctime e + Z.of_nat k) ∧
  (limit e ≤ ae_ctime e + Z.of_nat k → Nat.iter k aged e = entry_free).
Proof.
  induction k as [|k IH]; intros e Hne Hlt.
  { split; [|lia]. intros _. cbn. split_and!; try done. lia. }
  rewrite Nat.iter_succ_r. destruct (decide (ae_ctime e + 1 < limit e)) as [H1|H1].
  - destruct (aged_step e Hne H1) as (A1 & A2 & A3 & A4). destruct (aged_key e A1) as (K1 & K2 & K3 & _).
    destruct (IH (aged e) A1) as [I1 I2]; [lia|]. split.
    + intros Hk. destruct I1 as (? & ? & ? & ? & ? & ?); [lia|]. cbv zeta. split_and!; try done; try congruence. lia.
    + intros Hk. apply I2. lia.
  - rewrite (aged_drop e Hne) by lia. split; [lia|]. intros _. apply iter_free.
Qed.

(** without traffic, an entry in use lives as long as its limit says and no longer: for
    as many calls of [etharp_tmr] as keep its age below 300 (5 while pending) it
    stays with its addresses and packet, its age counting the calls; from the
    call that reaches the limit on, the entry is empty. *)
Theorem etharp_entry_lifetime s live own k i e : ninv s live own → arp_table s !! i = Some e →
  ae_state e ≠ ETHARP_STATE_EMPTY → ∃ s' e', tmr_times k s = Clean s' ∧ arp_table s' !! i = Some e' ∧
  (ae_ctime e + Z.of_nat k < limit e → ae_state e' ≠ ETHARP_STATE_EMPTY ∧
     ae_q e' = ae_q e ∧ ae_ipaddr e' = ae_ipaddr e ∧ ae_netif e' = ae_netif e ∧ ae_ethaddr e' = ae_ethaddr e ∧
     ae_ctime e' = ae_ctime e + Z.of_nat k) ∧
  (limit e ≤ ae_ctime e + Z.of_nat k → e' = entry_free).
Proof.
  intros Hi He Hne. destruct (tmr_times_run k s live own Hi) as (s' & live' & H & _ & Ht).
  exists s', (Nat.iter k aged e). split_and!; [done|by rewrite Ht; apply iter_lookup|..];
    (destruct (aged_iter k e Hne) as [A1 A2]; [|done]);
    destruct (tb_entry _ _ (ni_table _ _ _ Hi) _ _ He) as [_ _ _ _ Hage Hpend]; unfold limit, ARP_MAXAGE, ARP_MAXPENDING;
    case_decide; auto; lia.
Qed.

Lemma find_addr_run s live own n ip i e : ninv s live own → is_u32 ip → n ≠ NULL → arp_table s !! i = Some e →
  answers n ip e → etharp_find_addr s n ip = Clean (Z.of_nat i, Some (ae_ethaddr e, ip), s).
Proof.
  intros Hi Hip Hn He (Hst & Hne & Hie). assert (matches (Some ip) n e) as Hm.
  { split_and!; [|by rewrite Hie|by right]. intros H0. unfold is_stable in Hst. rewrite H0 in Hst. cbn in Hst. lia. }
  unfold etharp_find_addr. destruct (find_entry_run s live own ip ETHARP_FLAG_FIND_ONLY n Hi Hip) as (r & s' & live' & -> & _ & _ & Hf & Hc).
  rewrite bind_clean. inversion Hf as [j x Hj (Hxs & Hxi & Hxn) Hfirst Hr HT|Hno Hor Hr|j x Hno Hfo Hrep Hth Hr].
  - assert (j = i) as ->.
    { injection Hxi as Hxi. destruct Hxn as [?|Hxn]; [done|]. apply (tb_unique _ _ (ni_table _ _ _ Hi) j i x e); try done; [apply Hm|congruence|congruence]. }
    rewrite He in Hj. injection Hj as <-. rewrite (proj2 (Z.leb_le 0 (Z.of_nat i))) by lia.
    assert (s' = s) as ->.
    { destruct Hc as [?|(k & y & Hk & Hy & Hye)]; [done|]. rewrite <- Hr in Hk. apply Nat2Z.inj in Hk as <-. rewrite <- HT, He in Hy. congruence. }
    rewrite (get_entry_run _ _ _ He), bind_clean, (proj2 (Z.leb_le _ _) Hst), Hie. done.
  - by destruct (Hno i e He).
  - by destruct (Hno i e He).
Qed.

(** With [ETHARP_FLAG_TRY_HARD] there is always room. *)
Lemma update_try_hard s live own n f ip a A : ninv s live own → netifs s !! n = Some f → is_u32 ip →
  Some <$> A = seg (data (pb s)) a 6 → non_unicast f ip = false →
  ∃ s', etharp_update_arp_entry s n ip (EMem a) ETHARP_FLAG_TRY_HARD = Clean (ERR_OK, s').
Proof.
  intros Hi Hf Hip HA Hnu. destruct (update_run s live own n f ip a A ETHARP_FLAG_TRY_HARD Hi Hf Hip HA) as (r & s' & live' & H & _ & _ & Hu).
  exists s'. rewrite H. destruct Hu as [Hnu'|_ Hfound|]; [congruence| |done].
  exfalso. inversion Hfound as [? ? ? ? ? Hr|? [Hz|[Hz _]]|? ? ? ? ? ? Hr]; try done; unfold ERR_MEM in Hr; lia.
Qed.

(** what [etharp_update_arp_entry] stores is what [etharp_find_addr] reads: after a
    successful update the address is found, with the Ethernet address that was
    stored, and the search changes nothing. *)
Theorem etharp_update_find_roundtrip s live own n ip a A fl s' : ninv s live own → is_Some (netifs s !! n) → is_u32 ip →
  Some <$> A = seg (data (pb s)) a 6 → etharp_update_arp_entry s n ip (EMem a) fl = Clean (ERR_OK, s') →
  ∃ i, etharp_find_addr s' n ip = Clean (Z.of_nat i, Some (A, ip), s').
Proof.
  intros Hi [f Hf] Hip HA Hup. assert (n ≠ NULL) as Hn by apply (lo_netif _ _ _ _ (ni_links _ _ _ Hi) _ _ Hf).
  destruct (update_run s live own n f ip a A fl Hi Hf Hip HA) as (r & s1 & live' & H & Hi' & _ & Hu).
  rewrite Hup in H. injection H as <- <-. inversion Hu as [| |i e T s2 _ Hfound He Ht]; subst. exists i.
  eapply (find_addr_run s' live' own n ip i (resolved_entry ip n A)); try done.
  rewrite Ht. apply list_lookup_insert_eq. by eapply lookup_lt_Some.
Qed.

(** C15: [etharp_input] on a well-formed ARP packet, on an interface without conflict
    detection: the sender is entered in the table (or only refreshed, when the
    packet is not for us) and gets the packet that waited for it; a request for
    our address from another host is answered, with the reply going to the sender
    (broadcast when our address is link-local; without memory for it the error is
    counted), nothing else is; and the packet
    is freed.  The length of the packet plays no role: the bytes behind its end
    are read like the others. *)
Theorem etharp_input_spec s live own p b n f op S sip D dip k z : ninv s live own → 0 < own p → pbufs (pb s) !! p = Some b →
  live !! p = Some (k, z) → p ≤ payload b → payload b + 28 ≤ p + z → refs (arp_table s) p = 0 →
  netifs s !! n = Some f → nf_acd_list f = NULL → arp_at s (payload b) op S sip D dip →
  mac_ok S → mac_ok D → is_u16 op → is_u32 sip → is_u32 dip →
  ∃ r s1 live1 s' live' L, etharp_input s p n = Clean s' ∧ ninv s' live' (add_own own p (-1)) ∧
    updated live1 (ETHARP_STATS_INC Recv s) n f sip (payload b + 8) S (update_flag f dip) r s1 ∧
    arp_table s' = arp_table s1 ∧ frames s' = frames s1 ++ L ∧
    (if decide (op = ARP_REQUEST ∧ for_us f dip = true ∧ from_us f sip = false)
     then L = [arp_reply_frame f S sip] ∨ (L = [] ∧ stat_etharp s' = proto_inc Memerr (stat_etharp s1)) else L = []).
Proof.
  intros. destruct (etharp_input_run s live own p b n f op S sip D dip k z) as (r & s1 & live1 & s' & live' & L & ? & ? & ? & ? & _ & ? & ?); try done.
  by exists r, s1, live1, s', live', L.
Qed.

(** C14: [etharp_output] sends a packet to the broadcast address, to the multicast group's
    address, or to the next hop: the destination itself on the local network or
    for link-local traffic, otherwise the gateway, and [ERR_RTE] without one.  A
    known next hop gets the frame (header and the packet's bytes) at once, after
    a request when the entry is about to expire; for an unknown one a request
    goes out and the packet, or a copy, waits on the table.  In all cases the
    state stays well formed and the caller keeps its reference. *)
Theorem etharp_output_spec s live own n f ip src q b l : ninv s live own → netifs s !! n = Some f → is_u32 ip → 0 < own q →
  sendable s q b l → rd32 s (payload b + 12) = Clean src →
  ∃ r s' live', etharp_output s n q ip = Clean (r, s') ∧ ninv s' live' own ∧ routed s n f ip src q b l r s'.
Proof.
  intros Hi Hf Hip Hq Hs Hsrc. destruct (etharp_output_run s live own n f ip src q b l Hi Hf Hip Hq Hs Hsrc) as (r & s' & live' & H & Hi' & _ & Hr).
  by exists r, s', live'.
Qed.

(** [etharp_request] hands the driver exactly one frame, the broadcast ARP request for
    the address from the interface, or none and returns [ERR_MEM], and counts which; packet buffers,
    table and all memory in use are as before. *)
Theorem etharp_request_spec s live own n f ip : ninv s live own → netifs s !! n = Some f →
  ∃ r s', etharp_request s n ip = Clean (r, s') ∧ ninv s' live own ∧ pbufs (pb s') = pbufs (pb s) ∧
    arp_table s' = arp_table s ∧ keeps live (data (pb s)) (data (pb s')) ∧
    ((r = ERR_MEM ∧ frames s' = frames s ∧ stat_etharp s' = proto_inc Memerr (stat_etharp s)) ∨
     (r = ERR_OK ∧ frames s' = frames s ++ [ethbroadcast ++ nf_hwaddr f ++ [0x08; 0x06] ++
        [0; 1; 8; 0; 6; 4; 0; 1] ++ nf_hwaddr f ++ le32 (nf_ip_addr f) ++ ethzero ++ le32 ip] ∧
      stat_etharp s' = proto_inc Xmit (stat_etharp s))).
Proof.
  intros Hi Hf. destruct (request_run s live own n f ip Hi Hf) as (r & s' & H & Hi' & Hq & Hs).
  exists r, s'. split_and!; [done|done|apply Hq|apply Hq|apply Hq|exact Hs].
Qed.

(** after [etharp_cleanup_netif] no entry in use names the interface, and the entries
    of other interfaces are as they were. *)
Theorem etharp_cleanup_spec s live own n : ninv s live own → ∃ s' live', etharp_cleanup_netif s n = Clean s' ∧
  ninv s' live' own ∧ frames s' = frames s ∧ ∀ i e, arp_table s !! i = Some e → ∃ e', arp_table s' !! i = Some e' ∧
    (ae_state e' ≠ ETHARP_STATE_EMPTY → ae_netif e' ≠ n) ∧ (ae_netif e ≠ n → e' = e).
Proof.
  intros Hi. destruct (cleanup_run s live own n Hi) as (s' & live' & H & Hi' & _ & _ & _ & Ht & Hf).
  exists s', live'. split_and!; try done. intros i e He. exists (cleaned n e). rewrite Ht, list_lookup_fmap, He. split; [done|].
  unfold cleaned. case_decide as Hd.
  - split; [by intros []|]. intros Hne. by destruct Hd.
  - split; [|done]. intros H1 H2. by apply Hd.
Qed.

(** [pbuf_clone] into heap memory gives a packet of one buffer with the same bytes, whatever
    chain the original is, or NULL without memory; the original and everything
    else in use keep their bytes. *)
Theorem pbuf_clone_spec s live own q b l : ninv s live own → sendable s q b l →
  ∃ p s1, pbuf_clone env_custom_free (pb s) PBUF_LINK PBUF_RAM q = Clean (p, s1) ∧
    keeps live (data (pb s)) (data s1) ∧ content (data s1) l = content (data (pb s)) l ∧
    ((p = NULL ∧ ninv (set_pb s s1) live own) ∨
     (p ≠ NULL ∧ p ≠ q ∧ ∃ cap c, ninv (set_pb s s1) (<[p:=(SrcHeap, cap)]> live) (add_own own p 1) ∧
        chained (pbufs s1) p [(p, c)] ∧ tot_len c = lens l ∧ content (data s1) [(p, c)] = content (data (pb s)) l)).
Proof.
  intros Hi Hs. destruct (clone_run s live own q b l Hi Hs) as (m & [[H Hi']|(p & cap & d' & Hp & H & HB & Hl & Hi' & Hct & Hk & _)]).
  - exists NULL, (set_pmem (pb s) m). split_and!; try done. by left.
  - eexists p, _. split_and!; [exact H|exact Hk|by apply (sendable_content live own s d' q b l)|]. right.
    pose proof (sd_head _ _ _ _ Hs) as Hb. split_and!; [done|congruence|]. exists cap, (ram_pbuf p PBUF_LINK (lens l)).
    split_and!; [exact Hi'| |done|exact Hct]. apply arp_chain; [done|apply lookup_insert_eq|done].
Qed.
End Fun.

(** ** Witnesses: the small network of [NetEx] *)

Lemma ex_nif_some s1 : is_Some (netifs (set_pb ex_net s1) !! ex_nif).
Proof. eexists. reflexivity. Qed.

Lemma upd_data (s : @pst ex_M) m q b : data (upd (set_pmem s m) q b) = data s.
Proof. done. Qed.

(** A packet of 100 bytes. *)
Lemma ex_packet_net : ∃ q cap s1, q ≠ NULL ∧ pbufs s1 !! q = Some (ram_pbuf q PBUF_TRANSPORT 100) ∧ data s1 = data ex_s0 ∧
  ninv (set_pb ex_net s1) (<[q:=(SrcHeap, cap)]> ∅) (add_own own0 q 1).
Proof.
  destruct (ninv_alloc_ram ex_net ∅ own0 PBUF_TRANSPORT 100 ex_net_ok) as (m & [[Ha _]|(q & cap & Hq & Ha & _ & _ & Hi)]); [done|done|..].
  - exfalso. pose proof (proj1 ex_results) as Hr. unfold result, pexec in Hr.
    change (pbuf_alloc ex_cff ex_s0 PBUF_TRANSPORT 100 PBUF_RAM = Clean (NULL, set_pmem ex_s0 m)) in Ha. by rewrite Ha in Hr.
  - exists q, cap, (upd (set_pmem (pb ex_net) m) q (ram_pbuf q PBUF_TRANSPORT 100)).
    split; [exact Hq|]. split; [apply lookup_insert_eq|]. split; [apply upd_data|exact Hi].
Qed.

Lemma ex_sendable q s1 n : q ≠ NULL → pbufs s1 !! q = Some (ram_pbuf q PBUF_TRANSPORT n) →
  sendable (set_pb ex_net s1) q (ram_pbuf q PBUF_TRANSPORT n) [(q, ram_pbuf q PBUF_TRANSPORT n)].
Proof.
  intros Hq Hb. split; [exact Hb|by apply arp_chain|split; [cbn; lia|done]|by split| |done].
  constructor; [|constructor]. intros Hn. by destruct Hn.
Qed.

(** The memory outside the heap holds zeros: no ethertype, no fragment. *)
Lemma ex_whole a n : whole_frame ex_net a n.
Proof.
  unfold whole_frame. intros Hty. exfalso. revert Hty. unfold rd16, rd. change (Z.to_nat 2) with 2%nat. cbn [load].
  change (data (pb ex_net)) with (data ex_s0). rewrite !ex_s0_lookup. repeat case_decide; discriminate.
Qed.





(** A frame arrives, both timers fire, the interface goes down. *)
Definition ex_trace : list net_ev := [EvFrame 1200 60; EvArpTmr; EvAcdTmr; EvIf (IfSetDown ex_nif)].

Lemma ex_run : ∃ s', net_run ex_nif ex_net own0 ex_trace s' own0.
Proof.
  assert (is_Some (netifs ex_net !! ex_nif)) as N0 by (eexists; reflexivity).
  assert (net_allowed ex_net own0 (EvFrame 1200 60)) as A0.
  { split_and!; [lia|lia|discriminate|apply ex_mapped; lia| |exact (ex_whole 1200 60)]. intros x Hx. apply ex_outside. lia. }
  destruct (net_step ex_net ∅ own0 ex_nif (EvFrame 1200 60) ex_net_ok N0 A0) as (r1 & s1 & live1 & H1 & I1 & L1).
  pose proof (L1 _ N0) as N1. destruct (net_step s1 live1 own0 ex_nif EvArpTmr I1 N1 I) as (r2 & s2 & live2 & H2 & I2 & L2).
  pose proof (L2 _ N1) as N2. destruct (net_step s2 live2 own0 ex_nif EvAcdTmr I2 N2 I) as (r3 & s3 & live3 & H3 & I3 & L3).
  pose proof (L3 _ N2) as N3. destruct (net_step s3 live3 own0 ex_nif (EvIf (IfSetDown ex_nif)) I3 N3 N3) as (r4 & s4 & live4 & H4 & _).
  exists s4. eapply net_run_cons; [exact A0|exact H1|]. eapply net_run_cons; [exact I|exact H2|]. eapply net_run_cons; [exact I|exact H3|].
  eapply net_run_cons; [exact N3|exact H4|]. constructor.
Qed.

Lemma net_protocol_safe_witness : ∃ s1, net_run ex_nif ex_net own0 ex_trace s1 own0 ∧ is_Some (netifs s1 !! ex_nif) ∧
  ∃ r s2, net_exec ex_nif s1 EvArpTmr = Clean (r, s2) ∧ net_run ex_nif ex_net own0 (ex_trace ++ [EvArpTmr]) s2 own0.
Proof.
  destruct ex_run as (s1 & Hr). exists s1. split; [exact Hr|].
  destruct (net_protocol_safe ex_nif ex_net ∅ own0 ex_trace s1 own0 ex_net_ok) as (_ & Hn & He); [eexists; reflexivity|exact Hr|].
  split; [exact Hn|]. exact (He EvArpTmr I).
Defined.

Lemma arp_table_invariant_witness : ∃ s', net_run ex_nif ex_net own0 ex_trace s' own0 ∧
  table_ok (netifs s') (arp_table s') ∧ ∀ i e, arp_table s' !! i = Some e → ae_q e ≠ NULL →
    ae_state e = ETHARP_STATE_PENDING ∧ is_Some (pbufs (pb s') !! ae_q e).
Proof.
  destruct ex_run as (s' & Hr). exists s'. split; [exact Hr|].
  apply (arp_table_invariant ex_nif ex_net ∅ own0 ex_trace s' own0 ex_net_ok); [eexists; reflexivity|exact Hr].
Defined.

Lemma ex_run_tmr : ∃ s', net_run ex_nif ex_net own0 [EvArpTmr] s' own0 ∧ Forall (λ e, ae_q e = NULL) (arp_table s').
Proof.
  destruct (tmr_run ex_net ∅ own0 ex_net_ok) as (s' & live' & H & _ & _ & _ & _ & Ht & _). exists s'. split.
  - apply (net_run_cons _ _ _ EvArpTmr 0 s' []); [done| |constructor]. cbn [net_exec]. by rewrite H, bind_clean.
  - rewrite Ht. vm_compute. repeat constructor.
Qed.

Lemma net_run_no_leak_witness : ∃ s', net_run ex_nif ex_net own0 [EvArpTmr] s' own0 ∧
  pbufs (pb s') = ∅ ∧ pa_ok (pmem (pb s')) ∅.
Proof.
  destruct ex_run_tmr as (s' & Hr & HT). exists s'. split; [exact Hr|].
  apply (net_run_no_leak ex_nif ex_net ∅ own0 [EvArpTmr] s' own0 ex_net_ok); [eexists; reflexivity|exact Hr|reflexivity|exact HT].
Defined.

Lemma etharp_find_entry_spec_witness : ∃ r s' live',
  etharp_find_entry ex_net (Some ex_gw) ETHARP_FLAG_TRY_HARD ex_nif = Clean (r, s') ∧ ninv s' live' own0 ∧
  found (arp_table ex_net) ex_gw ETHARP_FLAG_TRY_HARD ex_nif r (arp_table s') ∧ frames s' = frames ex_net.
Proof. apply (etharp_find_entry_spec ex_net ∅ own0 ex_gw ETHARP_FLAG_TRY_HARD ex_nif ex_net_ok). split; reflexivity || discriminate. Defined.

Lemma etharp_tmr_spec_witness : ∃ s' live', etharp_tmr ex_net = Clean s' ∧ ninv s' live' own0 ∧
  arp_table s' = aged <$> arp_table ex_net ∧ attempts ex_net s' (arp_table ex_net ≫= asked (netifs ex_net)).
Proof. apply (etharp_tmr_spec ex_net ∅ own0 ex_net_ok). Defined.

(** The gateway is known since ten seconds. *)
Definition ex_entry : etharp_entry := EtharpEntry NULL ex_gw ex_nif ex_mac 10 ETHARP_STATE_STABLE.
Definition ex_net_arp : nst ex_M := set_arp_table ex_net (<[3%nat:=ex_entry]> (arp_table ex_net)).

Lemma ex_net_arp_ok : ninv ex_net_arp ∅ own0.
Proof.
  apply (ninv_entry ex_net ∅ own0 3 entry_free ex_entry ex_net_ok); [done|done| |].
  - split; cbn; try done. split; [done|]. repeat constructor; done.
  - intros _ j x _ Hx. apply lookup_replicate in Hx as [-> _]. by intros [].
Qed.

Lemma etharp_entry_lifetime_witness : arp_table ex_net_arp !! 3%nat = Some ex_entry ∧
  ∃ s' e', tmr_times 290 ex_net_arp = Clean s' ∧ arp_table s' !! 3%nat = Some e' ∧ e' = entry_free.
Proof.
  split; [reflexivity|].
  destruct (etharp_entry_lifetime ex_net_arp ∅ own0 290 3 ex_entry ex_net_arp_ok) as (s' & e' & H1 & H2 & _ & H3); [done|done|].
  exists s', e'. split; [exact H1|]. split; [exact H2|]. apply H3. vm_compute. discriminate.
Defined.

Lemma ex_update : ∃ A s', Some <$> A = seg (data (pb ex_net)) 1200 6 ∧
  etharp_update_arp_entry ex_net ex_nif ex_gw (EMem 1200) ETHARP_FLAG_TRY_HARD = Clean (ERR_OK, s').
Proof.
  destruct (load_run 6 (data (pb ex_net)) 1200) as (A & _ & HA); [apply ex_mapped; lia|].
  destruct (update_try_hard ex_net ∅ own0 ex_nif ex_netif ex_gw 1200 A ex_net_ok) as (s' & H);
    [reflexivity|split; reflexivity || discriminate|exact HA|reflexivity|].
  exists A, s'. split; [exact HA|exact H].
Qed.

Lemma etharp_update_find_roundtrip_witness : ∃ A s' i,
  etharp_update_arp_entry ex_net ex_nif ex_gw (EMem 1200) ETHARP_FLAG_TRY_HARD = Clean (ERR_OK, s') ∧
  etharp_find_addr s' ex_nif ex_gw = Clean (Z.of_nat i, Some (A, ex_gw), s').
Proof.
  destruct ex_update as (A & s' & HA & Hup).
  destruct (etharp_update_find_roundtrip ex_net ∅ own0 ex_nif ex_gw 1200 A ETHARP_FLAG_TRY_HARD s' ex_net_ok) as (i & Hi);
    [eexists; reflexivity|split; reflexivity || discriminate|exact HA|exact Hup|].
  exists A, s', i. split; [exact Hup|exact Hi].
Defined.

(** The gateway asks for our address: its request lies in the packet of [ex_packet_net]. *)
Definition ex_gw_mac : list Z := [2; 0; 0; 0; 0; 1].
Definition ex_request : list Z := arp_packet ARP_REQUEST ex_gw_mac ex_gw ethzero ex_ip.

Lemma ex_request_net : ∃ q cap s1, let b := ram_pbuf q PBUF_TRANSPORT 100 in let s := set_pb ex_net s1 in
  q ≠ NULL ∧ pbufs s1 !! q = Some b ∧ 172 ≤ cap ∧ arp_at s (payload b) ARP_REQUEST ex_gw_mac ex_gw ethzero ex_ip ∧
  ninv s (<[q:=(SrcHeap, cap)]> ∅) (add_own own0 q 1).
Proof.
  destruct ex_packet_net as (q & cap & s1 & Hq & Hb & _ & Hi). set (b := ram_pbuf q PBUF_TRANSPORT 100) in *.
  assert (mapped (data s1) (payload b) 28) as Hm.
  { intros x Hx. apply (ninv_mapped _ _ _ _ _ Hi Hb). cbn [b ram_pbuf len]. lia. }
  exists q, cap, (set_data s1 (put (data s1) (payload b) ex_request)). split; [done|]. split; [done|]. split; [|split].
  - destruct (bo_live _ _ _ (i_block _ _ _ (ni_pb _ _ _ Hi) _ _ Hb)) as (k & z & Hl & _ & _ & Hr).
    rewrite lookup_insert_eq in Hl. injection Hl as <- <-. destruct (Hr (ram_contiguous _ _ _)) as [_ H2].
    cbn [b ram_pbuf payload len] in H2. change PBUF_TRANSPORT with 56 in H2. change SIZEOF_STRUCT_PBUF with 16 in H2. lia.
  - unfold arp_at. cbn [pb set_pb data set_data]. apply put_seg. reflexivity.
  - apply (ninv_put (set_pb ex_net s1)); [exact Hi| |exact Hm].
    repeat (apply Forall_cons; split; [split; [by apply Z.leb_le|by apply Z.ltb_lt]|]). apply Forall_nil. done.
Qed.

Lemma etharp_input_spec_witness : ∃ s q S sip r s1 live1 s' live' L,
  etharp_input s q ex_nif = Clean s' ∧ ninv s' live' (add_own (add_own own0 q 1) q (-1)) ∧
  updated live1 (ETHARP_STATS_INC Recv s) ex_nif ex_netif sip (q + 72 + 8) S ETHARP_FLAG_TRY_HARD r s1 ∧
  arp_table s' = arp_table s1 ∧ frames s' = frames s1 ++ L ∧
  (L = [arp_reply_frame ex_netif S sip] ∨ (L = [] ∧ stat_etharp s' = proto_inc Memerr (stat_etharp s1))).
Proof.
  destruct ex_request_net as (q & cap & s1 & Hq & Hb & Hcap & Hat & Hi). set (b := ram_pbuf q PBUF_TRANSPORT 100) in *.
  assert (payload b = q + 72) as Hpl by (cbn [b ram_pbuf payload]; change PBUF_TRANSPORT with 56; change SIZEOF_STRUCT_PBUF with 16; lia).
  destruct (etharp_input_spec (set_pb ex_net s1) _ _ q b ex_nif ex_netif ARP_REQUEST ex_gw_mac ex_gw ethzero ex_ip SrcHeap cap Hi)
    as (r & s2 & live2 & s' & live' & L & H1 & H2 & H3 & H4 & H5 & H6).
  - unfold add_own, own0. rewrite decide_True by reflexivity. lia.
  - exact Hb.
  - apply lookup_insert_eq.
  - lia.
  - lia.
  - apply refs_free.
  - reflexivity.
  - reflexivity.
  - exact Hat.
  - split; [reflexivity|repeat constructor; discriminate].
  - apply zero_mac.
  - split; reflexivity || discriminate.
  - split; reflexivity || discriminate.
  - split; reflexivity || discriminate.
  - exists (set_pb ex_net s1), q, ex_gw_mac, ex_gw, r, s2, live2, s', live', L. rewrite Hpl in H3.
    rewrite decide_True in H6 by (split; [reflexivity|split; reflexivity]).
    split; [exact H1|]. split; [exact H2|]. split; [exact H3|]. split; [exact H4|]. split; [exact H5|exact H6].
Defined.

Lemma etharp_output_spec_witness : ∃ s q b l src r s' live', sendable s q b l ∧
  etharp_output s ex_nif q ex_gw = Clean (r, s') ∧ ninv s' live' (add_own own0 q 1) ∧
  routed s ex_nif ex_netif ex_gw src q b l r s'.
Proof.
  destruct ex_packet_net as (q & cap & s1 & Hq & Hb & _ & Hi). pose proof (ex_sendable q s1 100 Hq Hb) as Hs.
  set (b := ram_pbuf q PBUF_TRANSPORT 100) in *.
  destruct (rd32_run _ _ _ (payload b + 12) Hi) as (src & Hsrc & _).
  { intros x Hx. apply (ninv_mapped _ _ _ _ _ Hi Hb). cbn [b ram_pbuf len]. lia. }
  destruct (etharp_output_spec (set_pb ex_net s1) _ _ ex_nif ex_netif ex_gw src q b [(q, b)] Hi) as (r & s' & live' & H1 & H2 & H3).
  - reflexivity.
  - split; reflexivity || discriminate.
  - unfold add_own, own0. rewrite decide_True by reflexivity. lia.
  - exact Hs.
  - exact Hsrc.
  - exists (set_pb ex_net s1), q, b, [(q, b)], src, r, s', live'. split; [exact Hs|]. split; [exact H1|]. split; [exact H2|exact H3].
Defined.

Lemma etharp_request_spec_witness : ∃ r s', etharp_request ex_net ex_nif ex_gw = Clean (r, s') ∧
  ((r = ERR_MEM ∧ frames s' = frames ex_net ∧ stat_etharp s' = proto_inc Memerr (stat_etharp ex_net)) ∨
   (r = ERR_OK ∧ frames s' = frames ex_net ++ [ethbroadcast ++ ex_mac ++ [0x08; 0x06] ++
      [0; 1; 8; 0; 6; 4; 0; 1] ++ ex_mac ++ [10; 0; 2; 15] ++ ethzero ++ [10; 0; 2; 2]] ∧
    stat_etharp s' = proto_inc Xmit (stat_etharp ex_net))).
Proof.
  destruct (etharp_request_spec ex_net ∅ own0 ex_nif ex_netif ex_gw ex_net_ok) as (r & s' & H1 & _ & _ & _ & _ & H2); [reflexivity|].
  exists r, s'. split; [exact H1|exact H2].
Defined.

Lemma etharp_cleanup_spec_witness : ∃ s' live', etharp_cleanup_netif ex_net_arp ex_nif = Clean s' ∧ ninv s' live' own0 ∧
  frames s' = frames ex_net_arp ∧ ∀ i e, arp_table ex_net_arp !! i = Some e → ∃ e', arp_table s' !! i = Some e' ∧
    (ae_state e' ≠ ETHARP_STATE_EMPTY → ae_netif e' ≠ ex_nif) ∧ (ae_netif e ≠ ex_nif → e' = e).
Proof. apply (etharp_cleanup_spec ex_net_arp ∅ own0 ex_nif ex_net_arp_ok). Defined.

Lemma pbuf_clone_spec_witness : ∃ s q b l p s1, sendable s q b l ∧
  pbuf_clone ex_cff (pb s) PBUF_LINK PBUF_RAM q = Clean (p, s1) ∧ content (data s1) l = content (data (pb s)) l.
Proof.
  destruct ex_packet_net as (q & cap & s1 & Hq & Hb & _ & Hi). pose proof (ex_sendable q s1 100 Hq Hb) as Hs.
  destruct (pbuf_clone_spec (set_pb ex_net s1) _ _ q _ _ Hi Hs) as (p & s2 & H1 & _ & H2 & _).
  exists (set_pb ex_net s1), q, (ram_pbuf q PBUF_TRANSPORT 100), [(q, ram_pbuf q PBUF_TRANSPORT 100)], p, s2.
  split; [exact Hs|]. split; [exact H1|exact H2].
Defined.
