(* ===== verification/IpSpec.v ===== *)
(** * IPv4 and ICMP

    What [ip4_input], [ip4_output] and the ICMP messages do, end to end. *)
From S2P Require Import Prelude Def Chksum Stats Iface Ip4Addr Mem Memp Alloc Pbuf PbufChain PbufClient PbufData PbufClone Pcb Netif NetInv Links EthOut Region Acd Autoip Etharp EtharpInv EtharpTmr EtharpRes EtharpQuery EtharpOut EtharpIn EthIn Ip4Out Ip4OutInv Icmp Udp Raw UdpInv UdpOps UdpIn IcmpInv IcmpEcho IcmpIn Received UdpInput RawInv RawInput Ip4 Ip4Inv NetEx EthSpec.

(** ** Checksums of what is sent *)

Lemma ip_header_splice tot id ttl tos proto c src dest :
  ip_header tot id ttl tos proto c src dest = splice 10 (le16 c) (ip_header tot id ttl tos proto 0 src dest).
Proof. done. Qed.

Lemma ip_header_verifies a tot id ttl tos proto src dest :
  verifies (ip_header tot id ttl tos proto (inet_chksum a (ip_header tot id ttl tos proto 0 src dest)) src dest).
Proof.
  rewrite ip_header_splice. change (ip_header tot id ttl tos proto 0 src dest) with (splice 10 (le16 0) (ip_header tot id ttl tos proto 0 src dest)) at 1.
  apply filled_verifies; [apply ip_header_bytes|by rewrite ip_header_length; lia..].
Qed.

Lemma icmp_msg_verifies a type code X : Forall is_u8 X → Z.of_nat (length X) ≤ 65000 →
  verifies (icmp_msg type code (inet_chksum a (icmp_msg type code 0 X)) X).
Proof.
  intros HX Hl. pose proof (inet_chksum_u16 a (icmp_msg type code 0 X)) as Hc. set (c := inet_chksum a _) in *. unfold is_u16 in Hc.
  assert (icmp_msg type code c X = [u8 type; u8 code] ++ [c mod 256; c / 256] ++ (le32 0 ++ X)) as ->.
  { unfold icmp_msg. replace (le16 c) with [c mod 256; c / 256] by (unfold le16; do 3 f_equal; width). done. }
  apply (chksum_filled a [u8 type; u8 code] (le32 0 ++ X)).
  - repeat constructor; apply u8_range.
  - apply Forall_app_2; [apply le32_bytes|done].
  - done.
  - rewrite length_app. cbn [length le32]. lia.
Qed.

(** ** Reading back a header *)

Lemma header_fields tot id ttl tos proto c src dest rest : is_u8 proto → is_u16 tot → is_u32 src → is_u32 dest →
  let L := ip_header tot id ttl tos proto c src dest ++ rest in
  IPH_V (hd 0 L) = 4 ∧ h_hlen L = 20 ∧ h_len L = tot ∧ h_proto L = proto ∧ h_src L = src ∧ h_dest L = dest ∧ unfragmented L.
Proof.
  intros Hp Ht Hs Hd L. unfold h_hlen, h_len, h_proto, h_src, h_dest, unfragmented, h_offset.
  assert (take 2 (drop 2 L) = le16 (lwip_htons tot) ∧ take 1 (drop 9 L) = [u8 proto] ∧ take 4 (drop 12 L) = le32 src ∧ take 4 (drop 16 L) = le32 dest ∧
    take 2 (drop 6 L) = le16 0) as (-> & -> & -> & -> & ->) by done.
  rewrite !of_le_le32 by done. rewrite (u8_id proto) by done. split_and!; try done.
  - assert (of_le (le16 (lwip_htons tot)) = lwip_htons tot) as ->.
    { pose proof (lwip_htons_range tot). unfold le16, of_le, is_u16 in *. cbn [foldr]. width. }
    apply lwip_htons_involutive; done.
  - cbn [of_le foldr]. lia.
Qed.

Section Spec.
Context {M : Type} `{PM : PbufAlloc M} {E : NetEnv M} {U : IpUpper M} `{HF : !FragOk}.
Abbreviation pst := (@pst M).
Abbreviation nst := (nst M).

(** The state in which an interface is looked for. *)
Lemma discarded_cut s s1 own p b l n b1 l1 fs m : cut (IP_STATS_INC Recv s) own p n b l s1 b1 l1 → discarded own p s1 fs m →
  discarded own p s (Recv :: fs) m.
Proof.
  intros [_ _ _ _ _ _ _ Hl (Hfr & Harp & _ & _ & Hip)] (s' & live' & H1 & H2 & H3 & H4 & H5 & H6). exists s', live'.
  split_and!; [done|done| |by rewrite H4, Hfr|by rewrite H5, Harp|by rewrite H6, Hip].
  apply (same_links_trans _ s1); [|done]. by apply (same_links_trans _ (IP_STATS_INC Recv s)); [split|].
Qed.

Lemma hdr_length (L : list Z) : length L = 64%nat → Z.of_nat (length (take (Z.to_nat (h_hlen L)) L)) = h_hlen L.
Proof. intros HL. pose proof (h_hlen_range L). rewrite length_take. lia. Qed.

Lemma loaded_length (s : nst) a n L : seg (data (pb s)) a n = Some <$> L → length L = Z.to_nat n.
Proof. intros HL. apply (f_equal length) in HL. by rewrite length_fmap, seg_length in HL. Qed.

(** What happens to a packet whose first 64 bytes are [L]. *)
Lemma input_cases s live own p b l n f L nl : ninv s live own → 0 < own p → received s p 64 b l → netifs s !! n = Some f →
  nchain nf_next (netifs s) (netif_list s) nl → seg (data (pb s)) (payload b) 64 = Some <$> L →
  (¬ hdr_valid b L ∧ discarded own p s [Recv; hdr_error b L; Drop] (ip4_input s p n)) ∨
  (hdr_valid b L ∧ ∃ s1 b1 l1, cut (IP_STATS_INC Recv s) own p (h_len L) b l s1 b1 l1 ∧
     let H := take (Z.to_nat (h_hlen L)) L in has_hdr s1 b1 H ∧
     ∃ port o, rd16 s1 (payload b1 + h_hlen L + 2) = Clean port ∧ fate (addressed s1 H) nl n f H port o ∧
     match o with
     | None => discarded own p s [Recv; Drop] (ip4_input s p n)
     | Some m => is_Some (netifs s1 !! m) ∧ ip4_input s p n = input_rest (addressed s1 H) p n m b1 H
     end).
Proof.
  intros Hi Hp Hrv Hf Hnl HL. destruct (input_hdr s live own p b l n L Hi Hp Hrv HL) as [Hd|(Hv & s1 & b1 & l1 & Hcut & HH & Heq)]; [by left|].
  right. split; [done|]. exists s1, b1, l1. split; [done|]. set (H := take (Z.to_nat (h_hlen L)) L) in *. split; [done|].
  pose proof Hcut as [(live1 & Hi1) Hrv1 _ _ _ _ _ _ (_ & _ & Hnet & _)].
  assert (netif_list s1 = netif_list s) as Hlist by exact (sl_head _ _ (cut_links _ _ _ _ _ _ _ _ _ Hcut)).
  assert (Z.of_nat (length H) = h_hlen L) as HHe by (apply hdr_length; exact (loaded_length _ _ _ _ HL)).
  destruct (rd16_some s1 (payload b1 + Z.of_nat (length H) + 2)) as [port Hport].
  { eapply mapped_sub; [apply (rv_mapped _ _ _ _ _ Hrv1)|destruct HH; lia..]. }
  destruct (accepted_cases s1 live1 own p b1 l1 H n f nl port Hi1 Hp Hrv1 HH) as (o & Hfate & Hcase); try done.
  { by rewrite Hnet. }
  { by rewrite Hnet, Hlist. }
  exists port, o. rewrite <- HHe at 1. split_and!; [done|done|]. rewrite Heq, <- HHe. destruct o as [m|]; [done|].
  by eapply discarded_cut.
Qed.

(** Of the layers above, only [raw_input] sees an ICMP message: without raw pcbs it leaves it alone. *)
Definition no_raw_pcb (s : nst) : Prop := raw_pcbs (raws s) = NULL.

Lemma raw_input_none (s : nst) p n f b x : no_raw_pcb s → get_netif s (current_netif (ip_data (ips s))) = Clean f → pbufs (pb s) !! p = Some b →
  rd8 s (payload b + 9) = Clean x → raw_input s p n = Clean (RAW_INPUT_NONE, s).
Proof.
  intros Hn Hf Hb Hx. unfold raw_input. rewrite Hf, bind_clean, (get_run _ _ _ Hb), bind_clean, Hx, bind_clean, Hn. by destruct (raw_fuel s).
Qed.

Lemma local_icmp s live own p b l H n f P : no_raw_pcb s → ninv s live own → 0 < own p → received s p 64 b l → has_hdr s b H →
  netifs s !! n = Some f → is_u32 (ip4_current_dest s) → is_u32 (ip4_current_src s) → h_proto H = IP_PROTO_ICMP →
  content (data (pb s)) ((p, b) :: l) = Some <$> (H ++ P) →
  ∃ s0 s1 s' live', ip4_local s p n n (payload b) (Z.of_nat (length H)) = Clean s' ∧ ninv s' live' (add_own own p (-1)) ∧
    pmem (pb s0) = pmem (pb s) ∧ frames s0 = frames s ∧ arp_table s0 = arp_table s ∧ netifs s0 = netifs s ∧
    etharp_cached_entry s0 = etharp_cached_entry s ∧ current_iphdr_dest (ip_data (ips s0)) = ip4_current_dest s ∧
    current_iphdr_src (ip_data (ips s0)) = ip4_current_src s ∧
    icmp_effect s0 n f f (len b - Z.of_nat (length H)) H P s1 ∧ s' = set_ip_data s1 ip_globals_zero.
Proof.
  intros Hraw Hi Hp Hrv HH Hf Hdu Hsu Hpr HP. unfold ip4_local. pose proof HH as [H1 H2 H3 H4].
  rewrite (seg_rd8 s _ _ H H4), bind_clean by lia. set (s1 := set_ip_data s _). assert (ninv s1 live own) as Hi1 by (by apply ninv_ips).
  assert (received s1 p 64 b l) as Hrv1 by (by destruct Hrv). assert (has_hdr s1 b H) as HH1 by done.
  rewrite (raw_input_none s1 p n f b (h_proto H)), bind_clean; [|done|by unfold get_netif; cbn; rewrite Hf|by apply (received_head _ _ _ _ _ Hrv)|by apply (hdr_proto s1)].
  change (if decide (RAW_INPUT_NONE = RAW_INPUT_EATEN) then _ else ?x) with x.
  set (hl := Z.of_nat (length H)). destruct (strip_hdr s1 live own p b l H Hi1 Hrv1 HH1) as (Hrm & Hi2 & Hrv2 & _).
  fold hl in Hrm, Hi2, Hrv2, H4. unfold ip4_deliver. rewrite Hrm, bind_clean. set (s2 := set_pb s1 _) in *. set (b2 := shrink_front b hl) in *.
  pose proof (hdr_proto s1 b H HH1) as Hproto. change (rd8 s1) with (rd8 s2) in Hproto. rewrite Hproto, bind_clean, Hpr.
  change (IP_PROTO_ICMP =? IP_PROTO_UDP) with false. change (IP_PROTO_ICMP =? IP_PROTO_TCP) with false. rewrite Z.eqb_refl. cbn iota.
  destruct (received_facts _ _ _ _ _ _ _ Hi1 Hrv1) as (_ & _ & _ & Hlen & Htot).
  assert (payload b2 - hl = payload b ∧ len b2 = len b - hl) as [Hpay Hl2].
  { unfold b2, hl. cbn [shrink_front payload len set_tot_len set_len set_payload]. rewrite u16_id by (unfold is_u16; lia). lia. }
  assert (content (data (pb s2)) ((p, b2) :: l) = Some <$> P) as HP2.
  { change (data (pb s2)) with (data (pb s)). rewrite content_cons in HP |- *. rewrite Hl2. replace (payload b2) with (payload b + hl) by lia.
    rewrite (seg_split _ _ (len b) hl), fmap_app, <- app_assoc in HP by (unfold hl; lia). rewrite H4 in HP. by apply app_inv_head in HP. }
  destruct (icmp_input_run s2 live own p b2 l 4 H P n f f Hi2 Hp Hrv2) as (s' & live' & E1 & E2 & _ & E4); try done.
  { apply (strip_current s1 live own p b l H n n); done. }
  rewrite E1, bind_clean, Hl2 in *. exists s2, s', (set_ip_data s' ip_globals_zero), live'. split; [done|]. split; [by apply ninv_ips|].
  by split_and!.
Qed.

(** A packet for the address of the interface is processed for it. *)
Lemma fate_own (s : nst) nl n f H port o : n ≠ NULL → ip4_addr_ismulticast (ip4_current_dest s) = false → accepts s f = true →
  bad_source f (h_src H) = false → fate s nl n f H port o → o = Some n.
Proof.
  intros Hn Hmc Ha Hb Hf. destruct Hf as [m Hc _ _|_ _|m _ _ Hb'|Hc _ _]; [| done|congruence|].
  - inversion Hc; subst; congruence.
  - inversion Hc; subst; congruence.
Qed.

Lemma take_field k n (H A : list Z) : (k + n ≤ length H)%nat → take n (drop k (H ++ A)) = take n (drop k H).
Proof. intros Hk. rewrite drop_app_le, take_app_le by (rewrite ?length_drop; lia). done. Qed.

(** The fields lie in the first 20 bytes. *)
Lemma fields_app H A : (20 ≤ length H)%nat → hd 0 (H ++ A) = hd 0 H ∧ h_len (H ++ A) = h_len H ∧ h_offset (H ++ A) = h_offset H.
Proof.
  intros Hl. unfold h_len, h_offset. rewrite !take_field by lia. split; [|done]. destruct H; [cbn in Hl; lia|done].
Qed.

(** A header with its message behind, whole. *)
Record whole_packet (H P : list Z) : Prop := WholePacket {
  wp_len : (20 ≤ length H)%nat;
  wp_version : IPH_V (hd 0 H) = 4;
  wp_hl : IPH_HL_BYTES (hd 0 H) = Z.of_nat (length H);
  wp_tot : h_len H = Z.of_nat (length H + length P);
  wp_verifies : verifies H;
  wp_unfragmented : unfragmented H }.

(** For the interface's own address, from a host. *)
Record for_host (f : netif) (H : list Z) : Prop := ForHost {
  fh_up : netif_is_up f = true;
  fh_any : ip4_addr_isany (nf_ip_addr f) = false;
  fh_dest : h_dest H = nf_ip_addr f;
  fh_multicast : ip4_addr_ismulticast (h_dest H) = false;
  fh_broadcast : ip4_addr_isbroadcast (h_dest H) f = false;
  fh_src : bad_source f (h_src H) = false }.

(** An echo request. *)
Record echo_request (H P : list Z) : Prop := EchoRequest {
  eq_proto : h_proto H = IP_PROTO_ICMP;
  eq_type : hd 0 P = ICMP_ECHO;
  eq_len : (8 ≤ length P)%nat;
  eq_verifies : verifies P }.

Lemma whole_valid s live own p b l H P pad : ninv s live own → received s p 64 b l → whole_packet H P →
  content (data (pb s)) ((p, b) :: l) = Some <$> (H ++ P ++ pad) → Z.of_nat (length H) ≤ len b →
  ∃ L, seg (data (pb s)) (payload b) 64 = Some <$> L ∧ take (length H) L = H ∧ h_hlen L = Z.of_nat (length H) ∧ h_len L = h_len H ∧ hdr_valid b L.
Proof.
  intros Hi Hrv [HH20 Hv Hhl Hlen Hver Hun] HP Hlb.
  destruct (load_run 64 _ _ (rv_mapped _ _ _ _ _ Hrv)) as (L & _ & HL). symmetry in HL. exists L. split; [exact HL|].
  pose proof (loaded_length _ _ _ _ HL) as HLl. set (hl := Z.of_nat (length H)) in *.
  assert (length H ≤ 60)%nat as HH60 by (pose proof (h_hlen_range H) as Hr; unfold h_hlen in Hr; rewrite Hhl in Hr; unfold hl in *; lia).
  assert (take (length H) L = H) as HtL.
  { apply (list_fmap_eq_inj Some); [by intros ? ? [=]|]. rewrite fmap_take, <- HL. rewrite (seg_split _ _ 64 hl) by (unfold hl; lia).
    rewrite take_app_length' by (rewrite seg_length; unfold hl; lia). rewrite content_cons in HP.
    rewrite (seg_split _ _ (len b) hl), fmap_app, <- app_assoc in HP by (unfold hl in *; lia).
    apply app_inj_1 in HP as [HP _]; [done|]. rewrite seg_length, length_fmap. unfold hl. lia. }
  destruct (fields_app H (drop (length H) L) HH20) as (E1 & E2 & _).
  assert (H ++ drop (length H) L = L) as HLs by (transitivity (take (length H) L ++ drop (length H) L); [by rewrite HtL|apply take_drop]).
  rewrite HLs in E1, E2. assert (h_hlen L = hl) as Ehl by (unfold h_hlen; by rewrite E1).
  destruct (received_facts _ _ _ _ _ _ _ Hi Hrv) as (_ & _ & _ & Hlt & Htot).
  assert (tot_len b = Z.of_nat (length (H ++ P ++ pad))) as Htl.
  { pose proof (f_equal length HP) as Hc. rewrite content_length, length_fmap in Hc by (eapply inv_lens_pos; [apply Hi|apply Hrv]).
    pose proof (received_tot _ _ _ _ _ Hrv) as Ht. cbn [lens] in Hc. lia. }
  rewrite !length_app in Htl. split; [done|]. split; [done|]. split; [done|]. unfold hdr_valid. rewrite E1, Ehl, E2. unfold hl in *.
  rewrite Nat2Z.id, HtL. split_and!; try done; lia.
Qed.

(** What becomes of an echo request for the interface's own address. *)
Definition echo_answered (s : nst) (own : Z → Z) (p : Z) (b : pbuf) (l : list (Z * pbuf)) (n : Z) (f : netif) (H P : list Z) (s' : nst) : Prop :=
  (∃ s1 b1 l1 s0, cut (IP_STATS_INC Recv s) own p (h_len H) b l s1 b1 l1 ∧ pmem (pb s0) = pmem (pb s1) ∧
     no_memory s0 PBUF_LINK (h_len H) ∧ frames s' = frames s ∧ arp_table s' = arp_table s) ∨
  ∃ a, let hdr := echo_hdr a H (h_dest H) (h_src H) in verifies hdr ∧ verifies (echo_msg P) ∧
    (nf_mtu f = 0 ∨ h_len H ≤ nf_mtu f → packet_sent s n f (h_src H) (h_dest H) (hdr ++ echo_msg P) s').

Lemma echo_request_run s live own p b l n f H P pad : no_raw_pcb s → ninv s live own → 0 < own p → received s p 64 b l →
  netifs s !! n = Some f → content (data (pb s)) ((p, b) :: l) = Some <$> (H ++ P ++ pad) →
  whole_packet H P → for_host f H → echo_request H P → Z.of_nat (length H) + 4 ≤ len b →
  ∃ s' live', ip4_input s p n = Clean s' ∧ ninv s' live' (add_own own p (-1)) ∧ echo_answered s own p b l n f H P s'.
Proof.
  intros Hraw Hi Hp Hrv Hf HP Hw [Hup Hany Hdst Hmc Hbc Hbs] [Hpr Hty HP8 HvP] Hlb.
  destruct (whole_valid s live own p b l H P pad Hi Hrv Hw HP) as (L & HL & HtL & Ehl & E2 & Hval); [lia|].
  destruct Hw as [HH20 Hv Hhl Hlen Hver Hun]. destruct (lo_list _ _ _ _ (ni_links _ _ _ Hi)) as [nl Hnl].
  destruct (input_cases s live own p b l n f L nl Hi Hp Hrv Hf Hnl HL) as [[? _]|(_ & s1 & b1 & l1 & Hcut & HH & port & o & _ & Hfate & Hcase)]; [done|].
  rewrite E2 in Hcut. rewrite Ehl, Nat2Z.id, HtL in HH, Hfate, Hcase.
  pose proof Hcut as [(live1 & Hi1) Hrv1 Hpay Hd1 Hlen1 Htot1 Hct1 Hl1 (Hfr1 & Harp1 & Hnet1 & Hca1 & _) Hpc1].
  assert (n ≠ NULL) as Hn by apply (lo_netif _ _ _ _ (ni_links _ _ _ Hi) _ _ Hf).
  apply fate_own in Hfate as ->; [|done|done| |done].
  2:{ unfold accepts. rewrite Hup, Hany. change (ip4_current_dest _) with (h_dest H). by rewrite Hdst, Z.eqb_refl. }
  destruct Hcase as [_ Heq]. rewrite Heq. unfold input_rest. rewrite decide_True by done.
  destruct (hdr_addr_u32 _ _ _ _ _ Hi1 HH) as [Hsu Hdu]. set (s2 := addressed s1 H) in *.
  destruct (local_icmp s2 live1 own p b1 l1 H n f P) as (s3 & s4 & s' & live' & Hr & Hi' & Hpm & Hfr & Harp & Hnet & Hca & Hcd & Hcs & Heff & ->);
    try done; [by unfold no_raw_pcb; change (raws s2) with (raws s1); rewrite (proj1 (proj2 Hpc1))|by apply ninv_ips|by destruct Hrv1|
      by destruct HH|by change (netifs s2) with (netifs s1); rewrite Hnet1| |].
  { change (data (pb s2)) with (data (pb s1)). rewrite Hct1. change (data (pb (IP_STATS_INC Recv s))) with (data (pb s)). rewrite HP, Hlen.
    rewrite app_assoc, <- fmap_take, take_app_length' by (rewrite length_app; lia). done. }
  exists (set_ip_data s4 ip_globals_zero), live'. split; [done|]. split; [done|].
  change (ip4_current_dest s2) with (h_dest H) in Hcd. change (ip4_current_src s2) with (h_src H) in Hcs.
  assert (answerable s3 f P) as Hans by (unfold answerable; by rewrite Hcd).
  assert (bytes H ∧ bytes P) as [HHB HPB].
  { pose proof (content_bytes _ _ _ (mo_bytes _ (ni_mem _ _ _ Hi)) HP) as HB. apply Forall_app in HB as [HB1 HB2]. by apply Forall_app in HB2 as [HB2 _]. }
  destruct Heff as [[Hk|Hk]|Hk Hnm F1 F2|a Hk src dst F1]; [|done| |].
  - exfalso. rewrite Hlen1 in Hk. lia.
  - left. exists s1, b1, l1, s3. rewrite <- Hlen in Hnm. split_and!; try done.
    + exact (eq_trans F1 (eq_trans Hfr Hfr1)).
    + exact (eq_trans F2 (eq_trans Harp Harp1)).
  - assert (length H ≤ 60)%nat as HH60 by (destruct HH; lia). right. exists a.
    split; [by apply echo_hdr_verifies|]. split; [apply echo_msg_verifies; done || lia|].
    rewrite Hlen. intros Hm. specialize (F1 Hm). unfold src, dst in F1. rewrite Hcd, Hcs in F1.
    apply (packet_sent_ext s s3); [exact (eq_trans Hfr Hfr1)|exact (eq_trans Harp Harp1)|exact (eq_trans Hnet Hnet1)|exact (eq_trans Hca Hca1)|done].
Qed.

Lemma received_over (s : nst) p m b l h L : received s p m b l → received (over s h L) p m b l.
Proof. intros [H1 H2 H3 H4 H5 H6]. split; try done. intros x Hx. cbn. by apply put_is_Some, H6. Qed.

Lemma over_at (s : nst) h L : seg (data (pb (over s h L))) h (Z.of_nat (length L)) = Some <$> L.
Proof. by apply put_seg. Qed.

Lemma over_seg (s : nst) h L n : Z.of_nat (length L) ≤ n → ∃ R, seg (data (pb (over s h L))) h n = (Some <$> L) ++ R.
Proof.
  intros Hn. exists (seg (data (pb (over s h L))) (h + Z.of_nat (length L)) (n - Z.of_nat (length L))).
  rewrite (seg_split _ _ n (Z.of_nat (length L))) by lia. f_equal. by apply put_seg.
Qed.

Lemma header_back s live own p b l src dest ttl tos proto : ninv s live own → received s p 64 b l → 20 ≤ len b →
  is_u8 ttl → is_u8 tos → is_u8 proto → is_u32 src → is_u32 dest → ∃ s1 L,
    ip4_fill_hdr s (payload b) (tot_len b) src dest ttl tos proto = Clean s1 ∧ ninv s1 live own ∧ received s1 p 64 b l ∧
    seg (data (pb s1)) (payload b) 64 = Some <$> L ∧ hdr_valid b L ∧ h_hlen L = 20 ∧ h_len L = tot_len b ∧
    h_proto L = proto ∧ h_src L = src ∧ h_dest L = dest ∧ unfragmented L.
Proof.
  intros Hi Hrv Hlen H1 H2 H3 H4 H5. destruct (received_facts _ _ _ _ _ _ _ Hi Hrv) as (_ & _ & _ & Hlt & Htot).
  assert (mapped (data (pb s)) (payload b) 20) as Hm by (eapply mapped_sub; [apply (rv_mapped _ _ _ _ _ Hrv)|lia..]).
  pose proof (fill_hdr_run s live own (payload b) (tot_len b) src dest ttl tos proto Hi Hm H1 H2 H3 H4 H5) as Hfill. cbv beta zeta in Hfill.
  set (H := ip_header _ _ _ _ _ (inet_chksum _ _) _ _) in Hfill. set (s1 := over _ _ H) in Hfill. assert (ninv s1 live own) as Hi1 by (apply ninv_over; [by apply ninv_ips|apply ip_header_bytes|done]).
  assert (received s1 p 64 b l) as Hrv1 by (by apply received_over; destruct Hrv).
  destruct (load_run 64 _ _ (rv_mapped _ _ _ _ _ Hrv1)) as (L & _ & HL). symmetry in HL. change (Z.of_nat 64) with 64 in HL.
  destruct (over_seg (set_ip_id s (u16 (ip_id (ips s) + 1))) (payload b) H 64) as [R HR]; [done|]. fold s1 in HR. rewrite HL in HR.
  assert (∃ rest, L = H ++ rest) as [rest ->].
  { exists (drop 20 L). rewrite <- (take_drop 20 L) at 1. f_equal. apply (list_fmap_eq_inj Some); [by intros ? ? [=]|].
    rewrite fmap_take, HR. by rewrite take_app_length' by (rewrite length_fmap; done). }
  pose proof (header_fields (tot_len b) (ip_id (ips s)) ttl tos proto (inet_chksum (payload b) (ip_header (tot_len b) (ip_id (ips s)) ttl tos proto 0 src dest)) src dest rest H3 ltac:(unfold is_u16; lia) H4 H5)
    as (F1 & F2 & F3 & F4 & F5 & F6 & F7). fold H in F1, F2, F3, F4, F5, F6, F7.
  exists s1, (H ++ rest). split; [exact Hfill|]. split_and!; try done. unfold hdr_valid. rewrite F1, F2, F3.
  split; [done|]. split; [lia|]. split; [lia|]. rewrite take_app_length' by done. apply ip_header_verifies.
Qed.

(** ** The theorems *)

(** C5: [ip4_input] counts every packet; one whose header is not an IPv4 header with a right checksum and
    lengths that fit the packet is dropped and counted as what is wrong.  Of any other the
    padding is cut off; then [fate] says which interface it is for, if any, from the
    addresses (and the ports, for the DHCP client); it is dropped and counted, or
    reassembled and delivered ([input_rest]). *)
Theorem ip4_input_spec s live own p b l n f L nl : ninv s live own → 0 < own p → received s p 64 b l → netifs s !! n = Some f →
  nchain nf_next (netifs s) (netif_list s) nl → seg (data (pb s)) (payload b) 64 = Some <$> L →
  (¬ hdr_valid b L ∧ discarded own p s [Recv; hdr_error b L; Drop] (ip4_input s p n)) ∨
  (hdr_valid b L ∧ ∃ s1 b1 l1, cut (IP_STATS_INC Recv s) own p (h_len L) b l s1 b1 l1 ∧
     let H := take (Z.to_nat (h_hlen L)) L in has_hdr s1 b1 H ∧
     ∃ port o, rd16 s1 (payload b1 + h_hlen L + 2) = Clean port ∧ fate (addressed s1 H) nl n f H port o ∧
     match o with
     | None => discarded own p s [Recv; Drop] (ip4_input s p n)
     | Some m => is_Some (netifs s1 !! m) ∧ ip4_input s p n = input_rest (addressed s1 H) p n m b1 H
     end).
Proof. apply input_cases. Qed.

(** C6: an echo request from a host for the address of the interface it came in on is answered, through all the
    layers: the reply goes back to the sender with the addresses swapped, the same
    data and type 0; its header checksum and its ICMP checksum, which is adjusted and not
    computed anew, verify.  Only without memory for it is there no reply.  The request's buffers are freed. *)
Theorem ip4_input_echo s live own p b l n f H P pad : no_raw_pcb s → ninv s live own → 0 < own p → received s p 64 b l →
  netifs s !! n = Some f → content (data (pb s)) ((p, b) :: l) = Some <$> (H ++ P ++ pad) →
  whole_packet H P → for_host f H → echo_request H P → Z.of_nat (length H) + 4 ≤ len b →
  ∃ s' live', ip4_input s p n = Clean s' ∧ ninv s' live' (add_own own p (-1)) ∧ echo_answered s own p b l n f H P s'.
Proof. apply echo_request_run. Qed.

(** C7: [ip4_output] sends a packet to the first usable interface that reaches the destination, else to the
    default interface: behind a header with the addresses, a fresh identification and a checksum
    that verifies.  Without a route or room for the header it fails, and the packet
    stays with the caller in every case. *)
Theorem ip4_output_spec s live own p b l src dest ttl tos proto nl P : ninv s live own → 0 < own p →
  nchain nf_next (netifs s) (netif_list s) nl → sendable s p b ((p, b) :: l) → ref b = 1 → is_u8 ttl → is_u8 tos → is_u8 proto →
  is_u32 (default IPADDR_ANY src) → is_u32 dest → content (data (pb s)) ((p, b) :: l) = Some <$> P →
  ∃ r s' live' n, ip4_output s p src (Some dest) ttl tos proto = Clean (r, s') ∧ ninv s' live' own ∧ routes s dest nl n ∧
    (n = NULL → r = ERR_RTE ∧ s' = IP_STATS_INC Rterr (IP_STATS_INC Rterr s)) ∧
    (n ≠ NULL → ∃ f, netifs s !! n = Some f ∧ (¬ add_header_fits p b 20 false → r = ERR_BUF ∧ s' = IP_STATS_INC Err s) ∧
      let hdr := sent_header s b (used_src f src) dest ttl tos proto in verifies hdr ∧
      (add_header_fits p b 20 false → fits_mtu f (grow b 20) → packet_sent s n f dest (used_src f src) (hdr ++ P) s')).
Proof.
  intros Hi Hp Hnl Hs Href H1 H2 H3 H4 H5 HP.
  destruct (ip4_output_run s live own p b l src dest ttl tos proto nl P Hi Hp Hnl Hs Href H1 H2 H3 H4 H5 HP)
    as (r & s' & live' & n & H & Hi' & _ & Hr & Hno & Hyes). exists r, s', live', n. split_and!; try done. intros Hn.
  destruct (Hyes Hn) as (f & Hf & Hbuf & Hok). exists f. split; [done|]. split; [done|]. split; [apply ip_header_verifies|done].
Qed.

(** C8: [icmp_send_response], behind [icmp_dest_unreach] and [icmp_time_exceeded], sends the sender of a packet
    one message with the packet's first 28 bytes and a checksum that verifies, to
    the interface of the route; without memory or a route it sends nothing.  The packet stays with the caller. *)
Theorem icmp_send_response_spec s live own p b l type code P nl : ninv s live own → nchain nf_next (netifs s) (netif_list s) nl →
  sendable s p b ((p, b) :: l) → 20 ≤ len b → content (data (pb s)) ((p, b) :: l) = Some <$> P → is_u8 type → is_u8 code →
  ∃ s' live', icmp_send_response s p type code = Clean s' ∧ ninv s' live' own ∧
    responded s nl type code (of_le (take 4 (drop 12 P))) P s' ∧
    ∀ a, verifies (icmp_msg type code (inet_chksum a (icmp_msg type code 0 (quoted P))) (quoted P)).
Proof.
  intros Hi Hnl Hs Hlen HP Ht Hc. destruct (send_response_run s live own p b l type code P nl Hi Hnl Hs Hlen HP Ht Hc) as (s' & live' & H & Hi' & _ & Hr).
  exists s', live'. split_and!; [done..|]. intros a. apply icmp_msg_verifies.
  - apply Forall_take. apply (content_bytes _ _ _ (mo_bytes _ (ni_mem _ _ _ Hi)) HP).
  - unfold quoted. rewrite length_take. lia.
Qed.

(** C9: what [ip4_fill_hdr] writes, [ip4_input] accepts and reads back: the header is valid, it has the lengths,
    protocol and addresses it was written with, and is not a fragment. *)
Theorem ip4_header_roundtrip s live own p b l n src dest ttl tos proto : ninv s live own → 0 < own p → received s p 64 b l → 20 ≤ len b →
  is_u8 ttl → is_u8 tos → is_u8 proto → is_u32 src → is_u32 dest →
  ∃ s1 s2 b2 l2 H, ip4_fill_hdr s (payload b) (tot_len b) src dest ttl tos proto = Clean s1 ∧
    cut (IP_STATS_INC Recv s1) own p (tot_len b) b l s2 b2 l2 ∧ has_hdr s2 b2 H ∧
    ip4_input s1 p n = ip4_accepted s2 p n (payload b2) 20 ∧
    h_proto H = proto ∧ h_src H = src ∧ h_dest H = dest ∧ unfragmented H.
Proof.
  intros Hi Hp Hrv Hlen H1 H2 H3 H4 H5.
  destruct (header_back s live own p b l src dest ttl tos proto Hi Hrv Hlen H1 H2 H3 H4 H5)
    as (s1 & L & E1 & Hi1 & Hrv1 & HL & Hv & F2 & F3 & F4 & F5 & F6 & F7).
  destruct (input_hdr s1 live own p b l n L Hi1 Hp Hrv1 HL) as [[? _]|(_ & s2 & b2 & l2 & Hcut & HH & Heq)]; [done|].
  rewrite F2 in *. rewrite F3 in Hcut. exists s1, s2, b2, l2, (take 20 L). change (Z.to_nat 20) with 20%nat in HH.
  assert (∀ k m, (k + m ≤ 20)%nat → take m (drop k (take 20 L)) = take m (drop k L)) as Hf.
  { intros k m Hk. rewrite skipn_firstn_comm, take_take. f_equal. lia. }
  split_and!; try done; [rewrite <- F4|rewrite <- F5|rewrite <- F6|]; unfold h_proto, h_src, h_dest, unfragmented, h_offset in *;
    rewrite Hf by lia; done.
Qed.

(** unlike what its documentation says, [ip4_output] cannot be called for a packet that has its header already
    ([LWIP_IP_HDRINCL], a null destination): [ip4_route] reads the destination as
    soon as the first interface is usable. *)
Theorem ip4_output_hdrincl_fault s p b src ttl tos proto f : pbufs (pb s) !! p = Some b → ref b = 1 →
  netif_list s ≠ NULL → netifs s !! netif_list s = Some f → usable f = true →
  ip4_output s p src None ttl tos proto = Fault "dest".
Proof.
  intros Hb Hr Hl Hf Hu. unfold ip4_output. rewrite (get_run _ _ _ Hb), bind_clean, Hr. change (1 =? 1) with true. out_simp.
  unfold ip4_route, netif_fuel. cbn [ip4_route_loop]. rewrite (proj2 (Z.eqb_neq _ _) Hl). unfold get_netif. rewrite Hf. out_simp.
  unfold usable in Hu. rewrite Hu. done.
Qed.
End Spec.

(** ** Witnesses: a packet of 46 bytes has come in on the small network *)

Definition ex_in : @pst ex_M := after ex_s0 (EAlloc PBUF_RAW 46 PBUF_POOL).
Definition ex_p : Z := 34256.

Lemma ex_in_result : result ex_s0 (EAlloc PBUF_RAW 46 PBUF_POOL) = ex_p.
Proof. vm_compute. reflexivity. Qed.

Lemma ex_in_head : (λ b, (next b, len b, tot_len b, payload b)) <$> pbufs ex_in !! ex_p = Some (NULL, 46, 46, 34272).
Proof. vm_compute. reflexivity. Qed.

(** The packet with the bytes [L], when it has them. *)
Definition ex_got (L : list Z) : nst ex_M := over (set_pb ex_net ex_in) 34272 L.

Lemma ex_got_ok L : length L = 46%nat → Forall is_u8 L → ∃ live b, let s := ex_got L in
  ninv s live (add_own own0 ex_p 1) ∧ received s ex_p 64 b [] ∧ payload b = 34272 ∧ len b = 46 ∧ tot_len b = 46 ∧
  content (data (pb s)) [(ex_p, b)] = Some <$> L.
Proof.
  intros HL HB. destruct (ninv_alloc_pool ex_net ∅ own0 46 ex_net_ok) as (r & s1 & Ha & _ & Hcase); [split; discriminate || reflexivity|].
  change (pbuf_alloc ex_cff ex_s0 PBUF_RAW 46 PBUF_POOL = Clean (r, s1)) in Ha. pose proof ex_in_result as Hr.
  assert (ex_in = s1) as Hs1 by (unfold ex_in, after, pexec; rewrite Ha; reflexivity).
  unfold result, pexec in Hr. rewrite Ha in Hr. subst r s1. clear Ha.
  destruct Hcase as [[Hr _]|(_ & l & live & b & Hi & Hrv & _)]; [discriminate Hr|]. pose proof ex_in_head as Hh.
  pose proof (received_head _ _ _ _ _ Hrv) as Hb. change (pbufs ex_in !! ex_p = Some b) in Hb. rewrite Hb in Hh. cbn [fmap option_fmap option_map] in Hh. injection Hh as H1 H2 H3 H4.
  assert (l = []) as ->.
  { pose proof (rv_chain _ _ _ _ _ Hrv) as Hc. apply chained_inv_cons in Hc as (_ & _ & _ & Hc). rewrite H1 in Hc. by inversion Hc. }
  assert (received (set_pb ex_net ex_in) ex_p 64 b []) as Hrv1 by (eapply received_le; [exact Hrv|discriminate]).
  exists live, b. split; [|split].
  - apply ninv_over; [exact Hi|exact HB|]. rewrite HL. eapply mapped_sub; [exact (rv_mapped _ _ _ _ _ Hrv)|lia|lia].
  - apply received_over. exact Hrv1.
  - split; [exact H4|]. split; [exact H2|]. split; [exact H3|]. rewrite content_cons, H2, H4.
    change 46 with (Z.of_nat 46). rewrite <- HL.
    unfold ex_got. rewrite over_at. apply app_nil_r.
Qed.

(** An echo request from the gateway, padded. *)
Definition ex_echo_hdr : list Z := [69; 0; 0; 28; 0; 1; 0; 0; 64; 1; 98; 208; 10; 0; 2; 2; 10; 0; 2; 15].
Definition ex_echo_msg : list Z := [8; 0; 247; 253; 0; 1; 0; 1].
Definition ex_echo : list Z := ex_echo_hdr ++ ex_echo_msg ++ replicate 18 0.

Lemma ex_echo_ok : ∃ live b, let s := ex_got ex_echo in ninv s live (add_own own0 ex_p 1) ∧ received s ex_p 64 b [] ∧
  payload b = 34272 ∧ len b = 46 ∧ tot_len b = 46 ∧ content (data (pb s)) [(ex_p, b)] = Some <$> ex_echo.
Proof. apply ex_got_ok; [reflexivity|decide_now]. Qed.

Lemma ex_nif_get s1 L : netifs (over (set_pb ex_net s1) 34272 L) !! ex_nif = Some ex_netif.
Proof. reflexivity. Qed.

Lemma ex_own_pos p : 0 < add_own own0 p 1 p.
Proof. unfold add_own, own0. rewrite decide_True by reflexivity. lia. Qed.

Lemma ex_nl s1 L : let s := over (set_pb ex_net s1) 34272 L in nchain nf_next (netifs s) (netif_list s) [ex_nif].
Proof. econstructor; [discriminate|reflexivity|constructor]. Qed.

Lemma ip4_input_spec_witness : ∃ live b L, let s := ex_got (replicate 46 0) in
  ninv s live (add_own own0 ex_p 1) ∧ hdr_error b L = Err ∧
  discarded (add_own own0 ex_p 1) ex_p s [Recv; Err; Drop] (ip4_input s ex_p ex_nif).
Proof.
  destruct (ex_got_ok (replicate 46 0)) as (live & b & Hi & Hrv & Hp & _); [reflexivity|decide_now|].
  destruct (load_run 64 _ _ (rv_mapped _ _ _ _ _ Hrv)) as (L & _ & HL). symmetry in HL.
  assert (IPH_V (hd 0 L) ≠ 4) as Hv.
  { destruct (over_seg (set_pb ex_net ex_in) 34272 (replicate 46 0) 64) as [R HR]; [discriminate|]. change (over _ _ _) with (ex_got (replicate 46 0)) in HR.
    rewrite <- Hp in HR. change 64 with (Z.of_nat 64) in HR. rewrite HL in HR. destruct L as [|x L]; [discriminate|]. injection HR as -> _. discriminate. }
  assert (hdr_error b L = Err) as He by (unfold hdr_error; rewrite decide_True by exact Hv; reflexivity).
  exists live, b, L. split; [exact Hi|]. split; [exact He|]. rewrite <- He.
  destruct (ip4_input_spec (ex_got (replicate 46 0)) live (add_own own0 ex_p 1) ex_p b [] ex_nif ex_netif L [ex_nif] Hi (ex_own_pos ex_p) Hrv
    (ex_nif_get _ _) (ex_nl _ _) HL) as [[_ H]|[[H _] _]]; [exact H|destruct (Hv H)].
Defined.

Lemma ip4_input_echo_witness : ∃ live b, let s := ex_got ex_echo in ninv s live (add_own own0 ex_p 1) ∧
  ∃ s' live', ip4_input s ex_p ex_nif = Clean s' ∧ ninv s' live' (add_own (add_own own0 ex_p 1) ex_p (-1)) ∧
    echo_answered s (add_own own0 ex_p 1) ex_p b [] ex_nif ex_netif ex_echo_hdr ex_echo_msg s'.
Proof.
  destruct ex_echo_ok as (live & b & Hi & Hrv & _ & Hl & _ & Hc). exists live, b. split; [exact Hi|].
  apply (ip4_input_echo (ex_got ex_echo) live (add_own own0 ex_p 1) ex_p b [] ex_nif ex_netif ex_echo_hdr ex_echo_msg (replicate 18 0)).
  - reflexivity.
  - exact Hi.
  - apply ex_own_pos.
  - exact Hrv.
  - apply ex_nif_get.
  - exact Hc.
  - split; reflexivity.
  - split; reflexivity.
  - split; reflexivity.
  - rewrite Hl. discriminate.
Defined.

Lemma ip4_output_spec_witness : ∃ s q b P r s' live' n, sendable s q b [(q, b)] ∧ content (data (pb s)) [(q, b)] = Some <$> P ∧
  ip4_output s q None (Some ex_gw) 64 0 IP_PROTO_UDP = Clean (r, s') ∧ ninv s' live' (add_own own0 q 1) ∧
  routes s ex_gw [ex_nif] n ∧ verifies (sent_header s b ex_ip ex_gw 64 0 IP_PROTO_UDP).
Proof.
  destruct ex_packet_net as (q & cap & s1 & Hq & Hb & _ & Hi). pose proof (ex_sendable q s1 100 Hq Hb) as Hs.
  destruct (content_some _ _ _ _ _ Hi (sd_chain _ _ _ _ Hs)) as [P HP]. set (b := ram_pbuf q PBUF_TRANSPORT 100) in *.
  destruct (ip4_output_spec (set_pb ex_net s1) _ _ q b [] None ex_gw 64 0 IP_PROTO_UDP [ex_nif] P Hi (ex_own_pos q))
    as (r & s' & live' & n & H1 & H2 & H3 & _ & H5); try assumption.
  - econstructor; [discriminate|reflexivity|constructor].
  - reflexivity.
  - split; discriminate || reflexivity.
  - split; discriminate || reflexivity.
  - split; discriminate || reflexivity.
  - split; discriminate || reflexivity.
  - split; discriminate || reflexivity.
  - exists (set_pb ex_net s1), q, b, P, r, s', live', n. split; [exact Hs|]. split; [exact HP|]. split; [exact H1|]. split; [exact H2|]. split; [exact H3|].
    apply ip_header_verifies.
Defined.

Lemma icmp_send_response_spec_witness : ∃ s q b P s' live', sendable s q b [(q, b)] ∧ content (data (pb s)) [(q, b)] = Some <$> P ∧
  icmp_send_response s q ICMP_DUR ICMP_DUR_PORT = Clean s' ∧ ninv s' live' (add_own own0 q 1) ∧
  responded s [ex_nif] ICMP_DUR ICMP_DUR_PORT (of_le (take 4 (drop 12 P))) P s'.
Proof.
  destruct ex_packet_net as (q & cap & s1 & Hq & Hb & _ & Hi). pose proof (ex_sendable q s1 100 Hq Hb) as Hs.
  destruct (content_some _ _ _ _ _ Hi (sd_chain _ _ _ _ Hs)) as [P HP]. set (b := ram_pbuf q PBUF_TRANSPORT 100) in *.
  destruct (icmp_send_response_spec (set_pb ex_net s1) _ _ q b [] ICMP_DUR ICMP_DUR_PORT P [ex_nif] Hi) as (s' & live' & H1 & H2 & H3 & _); try assumption.
  - econstructor; [discriminate|reflexivity|constructor].
  - discriminate.
  - split; discriminate || reflexivity.
  - split; discriminate || reflexivity.
  - exists (set_pb ex_net s1), q, b, P, s', live'. split; [exact Hs|]. split; [exact HP|]. split; [exact H1|]. split; [exact H2|exact H3].
Defined.

Lemma ip4_header_roundtrip_witness : ∃ b s1 s2 b2 H, ip4_fill_hdr (ex_got ex_echo) (payload b) (tot_len b) ex_gw ex_ip 64 0 IP_PROTO_UDP = Clean s1 ∧
  ip4_input s1 ex_p ex_nif = ip4_accepted s2 ex_p ex_nif (payload b2) 20 ∧ h_proto H = IP_PROTO_UDP ∧ h_src H = ex_gw ∧ h_dest H = ex_ip.
Proof.
  destruct ex_echo_ok as (live & b & Hi & Hrv & _ & Hl & _ & _).
  destruct (ip4_header_roundtrip (ex_got ex_echo) live (add_own own0 ex_p 1) ex_p b [] ex_nif ex_gw ex_ip 64 0 IP_PROTO_UDP Hi (ex_own_pos ex_p) Hrv)
    as (s1 & s2 & b2 & l2 & H & H1 & _ & _ & H2 & H3 & H4 & H5 & _).
  - rewrite Hl. discriminate.
  - split; discriminate || reflexivity.
  - split; discriminate || reflexivity.
  - split; discriminate || reflexivity.
  - split; discriminate || reflexivity.
  - split; discriminate || reflexivity.
  - exists b, s1, s2, b2, H. split; [exact H1|]. split; [exact H2|]. split; [exact H3|]. split; [exact H4|exact H5].
Defined.

Lemma ip4_output_hdrincl_fault_witness : ∃ s q, is_Some (pbufs (pb s) !! q) ∧ ip4_output s q None None 64 0 IP_PROTO_UDP = Fault "dest".
Proof.
  destruct ex_packet_net as (q & cap & s1 & Hq & Hb & _ & Hi). exists (set_pb ex_net s1), q. split; [eexists; exact Hb|].
  apply (ip4_output_hdrincl_fault (set_pb ex_net s1) q (ram_pbuf q PBUF_TRANSPORT 100) None 64 0 IP_PROTO_UDP ex_netif).
  - exact Hb.
  - reflexivity.
  - discriminate.
  - reflexivity.
  - reflexivity.
Defined.
