(* ===== verification/AcdSpec.v ===== *)
(** * Address conflict detection over time

    The schedule of probes and announcements of one client on one interface, tick by tick,
    and the defence of an address in use. *)
From S2P Require Import Prelude Def Chksum Stats Iface Ip4Addr Mem Memp Alloc Pbuf PbufChain PbufClient PbufData PbufClone Pcb Netif NetInv Links EthOut Region Acd Autoip Etharp EtharpInv EtharpTmr EtharpRes EtharpQuery EtharpOut EtharpIn EthIn Ip4Out Ip4OutInv Icmp Udp Raw UdpInv UdpOps UdpIn IcmpInv IcmpEcho IcmpIn Received UdpInput RawInv RawInput Ip4 Ip4Inv NetEx.

Section Ticks.
Context {M : Type} `{PM : PbufAlloc M} {E : NetEnv M}.
Abbreviation pst := (@pst M).
Abbreviation nst := (nst M).

(** [k] calls of [acd_tmr]. *)
Fixpoint acd_ticks (k : nat) (s : nst) : out nst :=
  match k with O => mret s | S k' => s ← acd_tmr s; acd_ticks k' s end.

Lemma acd_ticks_app j k s s1 : acd_ticks j s = Clean s1 → acd_ticks (j + k) s = acd_ticks k s1.
Proof.
  revert s. induction j as [|j IH]; intros s H; cbn [acd_ticks Nat.add] in *; [by injection H as ->|].
  apply bind_clean_inv in H as (s2 & -> & H). rewrite bind_clean. by apply IH.
Qed.

(** ** One client on one interface *)

(** Interface [n] is the only one and [a], with the contents [x], its only client; [C] is the rest of the
    state of interfaces. *)
Context (C : if_st).
Record ready (live : gmap Z (asrc * Z)) (own : Z → Z) (n : Z) (f : netif) (a : Z) (s : nst) (x : acd) : Prop := Ready {
  rd_inv : ninv s live own;
  rd_list : netif_list s = n;
  rd_netif : netifs s !! n = Some f;
  rd_acd : acds s !! a = Some x;
  rd_ifst : ifst s = C }.

(** The lists are one element long. *)
Definition lone (f : netif) (a : Z) (x : acd) : Prop :=
  nf_next f = NULL ∧ nf_acd_list f = a ∧ a ≠ NULL ∧ acd_next x = NULL.

Lemma tmr_lone live own n f a s x s' f' x' : ready live own n f a s x → lone f a x →
  acd_tmr_one n s a = Clean s' → netifs s' !! n = Some f' → nf_next f' = NULL → acds s' !! a = Some x' → acd_next x' = NULL →
  acd_tmr s = Clean s'.
Proof.
  intros [Hi Hl Hf Hx _] (L1 & L2 & L3 & L4) Ho Hf' Hn' Hx' Ha'.
  unfold acd_tmr. rewrite Hl. cbn [netif_foreach].
  rewrite (proj2 (Z.eqb_neq n NULL)) by apply (lo_netif _ _ _ _ (ni_links _ _ _ Hi) _ _ Hf).
  assert (get_netif s n = Clean f) as -> by (unfold get_netif; by rewrite Hf). rewrite bind_clean, L2. unfold acd_fuel. cbn [acd_foreach].
  rewrite (proj2 (Z.eqb_neq a NULL)) by done. rewrite Ho, bind_clean.
  assert (get_acd s' a = Clean x') as -> by (unfold get_acd; by rewrite Hx'). rewrite bind_clean, Ha'.
  replace (acd_foreach (size (acds s)) s' NULL (acd_tmr_one n)) with (Clean s' : out nst) by (by destruct (size (acds s))).
  rewrite bind_clean. assert (get_netif s' n = Clean f') as -> by (unfold get_netif; by rewrite Hf'). rewrite bind_clean, Hn'.
  by destruct (size (netifs s)).
Qed.

Lemma ready_put live own n f a s x y : ready live own n f a s x → acd_next y = acd_next x → acd_ok y →
  ready live own n f a (put_acd s a y) y.
Proof.
  intros [Hi Hl Hf Hx HI] Hn Hy. destruct (put_acd_ok s live own a x y Hi Hx Hn Hy). split; try done. apply lookup_insert_eq.
Qed.

Lemma ready_quiet live own n f a s x s' : ready live own n f a s x → ninv s' live own → quiet live s s' → ready live own n f a s' x.
Proof. intros [Hi Hl Hf Hx HI] Hi' Hq. split; [done|..]; by rewrite ?(qu_list _ _ _ Hq), ?(qu_netifs _ _ _ Hq), ?(qu_acds _ _ _ Hq), ?(qu_ifst _ _ _ Hq). Qed.

Lemma ready_ok live own n f a s x : ready live own n f a s x → acd_ok x.
Proof. intros [Hi _ _ Hx _]. apply (lo_types _ _ _ _ (ni_links _ _ _ Hi) _ _ Hx). Qed.

Lemma ready_bytes live own n f a s x b l : ready live own n f a s x → Forall is_u8 l → mapped (data (pb s)) b (Z.of_nat (length l)) →
  ready live own n f a (set_pb s (set_data (pb s) (put (data (pb s)) b l))) x.
Proof. intros [Hi ? ? ? ?] Hl Hm. split; try done. by apply ninv_put. Qed.

Lemma ready_on_list live own n f a s x : ready live own n f a s x → lone f a x → on_list s n a.
Proof.
  intros Hr (_ & L2 & L3 & L4). exists f, [a]. split; [apply Hr|]. split; [|left]. rewrite L2.
  apply (nchain_cons _ _ _ x); [done|apply Hr|]. rewrite L4. constructor.
Qed.

(** A tick counts both timers of the struct down. *)
Definition down (v : Z) : Z := if 0 <? v then v - 1 else v.

Definition counted (x : acd) : acd := set_acd_ttw (set_acd_lastconflict x (down (acd_lastconflict x))) (down (acd_ttw x)).

Lemma down_u16 v : is_u16 v → is_u16 (down v).
Proof. unfold is_u16, down. destruct (Z.ltb_spec 0 v); lia. Qed.
Lemma down_u8 v : is_u8 v → is_u8 (down v).
Proof. unfold is_u8, down. destruct (Z.ltb_spec 0 v); lia. Qed.

Lemma counted_ok x : acd_ok x → acd_ok (counted x).
Proof. intros []. split; cbn; try done; [by apply down_u16|by apply down_u8]. Qed.

(** The body of the loop of [acd_tmr] after the counting. *)
Definition acd_tmr_act (n : Z) (s : nst) (a : Z) (x : acd) : out nst :=
  match acd_st x with
  | ACD_STATE_PROBE_WAIT | ACD_STATE_PROBING => if acd_ttw x =? 0 then acd_tmr_probe s n a else mret s
  | ACD_STATE_ANNOUNCE_WAIT | ACD_STATE_ANNOUNCING => if acd_ttw x =? 0 then acd_tmr_announce s n a else mret s
  | ACD_STATE_RATE_LIMIT =>
      if acd_ttw x =? 0 then '(_, s) ← acd_stop s a; acd_call s n a ACD_RESTART_CLIENT else mret s
  | _ => mret s
  end.

Lemma tmr_one_counted s n a x : acds s !! a = Some x →
  acd_tmr_one n s a = acd_tmr_act n (put_acd s a (counted x)) a (counted x).
Proof.
  intros Hx. unfold acd_tmr_one. rewrite (upd_acd_eq _ _ _ x) by done. rewrite bind_clean, upd_put, bind_clean, get_put, bind_clean.
  assert ((let y := if 0 <? acd_lastconflict x then set_acd_lastconflict x (acd_lastconflict x - 1) else x in
    if 0 <? acd_ttw y then set_acd_ttw y (acd_ttw y - 1) else y) = counted x) as Heq.
  { unfold counted, down. cbv zeta. destruct (0 <? acd_lastconflict x); cbn [acd_ttw set_acd_lastconflict];
      destruct (0 <? acd_ttw x); by destruct x. }
  cbv zeta in Heq. rewrite Heq. done.
Qed.

(** ** Waiting *)

Definition waiting (st : acd_state) : Prop :=
  st = ACD_STATE_PROBE_WAIT ∨ st = ACD_STATE_PROBING ∨ st = ACD_STATE_ANNOUNCE_WAIT ∨ st = ACD_STATE_ANNOUNCING.

Lemma set_ttw_twice x v w : set_acd_ttw (set_acd_ttw x v) w = set_acd_ttw x w.
Proof. done. Qed.

(** [k] ticks while the timer does not expire. *)
Lemma wait_ticks k : ∀ live own n f a s x, ready live own n f a s x → lone f a x → waiting (acd_st x) → acd_lastconflict x = 0 →
  Z.of_nat k < acd_ttw x →
  ∃ s', acd_ticks k s = Clean s' ∧ ready live own n f a s' (set_acd_ttw x (acd_ttw x - Z.of_nat k)) ∧ attempts s s' [].
Proof.
  induction k as [|k IH]; intros live own n f a s x Hr Hlo Hw Hlc Hk.
  { exists s. rewrite Z.sub_0_r. split_and!; [done| |by apply attempts_none]. replace (set_acd_ttw x (acd_ttw x)) with x by (by destruct x). done. }
  cbn [acd_ticks]. set (y := set_acd_ttw x (acd_ttw x - 1)).
  assert (counted x = y) as Hy.
  { unfold counted, down, y. rewrite Hlc. cbn [Z.ltb Z.compare]. rewrite (proj2 (Z.ltb_lt 0 (acd_ttw x))) by lia. destruct x. cbn in *. by subst. }
  assert (ready live own n f a (put_acd s a y) y) as Hr1.
  { apply (ready_put _ _ _ _ _ _ x); [done|done|]. rewrite <- Hy. apply counted_ok. by eapply ready_ok. }
  assert (acd_tmr s = Clean (put_acd s a y)) as ->.
  { destruct Hr1 as [_ _ Hf1 Hx1 _]. destruct Hlo as (L1 & L2 & L3 & L4). eapply (tmr_lone live own n f a s x); try done.
    rewrite (tmr_one_counted _ _ _ x) by apply Hr. rewrite Hy. unfold acd_tmr_act. cbn [acd_st y set_acd_ttw acd_ttw].
    rewrite (proj2 (Z.eqb_neq (acd_ttw x - 1) 0)) by lia. by destruct Hw as [-> | [-> | [-> | ->]]]. }
  rewrite bind_clean. destruct (IH live own n f a (put_acd s a y) y) as (s' & H1 & H2 & H3); try done.
  { cbn. lia. }
  exists s'. split_and!; [done| |by destruct H3 as (L & ?); exists L]. cbn [y acd_ttw set_acd_ttw] in H2.
  replace (acd_ttw x - Z.of_nat (S k)) with (acd_ttw x - 1 - Z.of_nat k) by lia. exact H2.
Qed.

(** ** Acting *)

Definition probe_frame (f : netif) (ip : Z) : list Z :=
  arp_frame ethbroadcast (nf_hwaddr f) ARP_REQUEST (nf_hwaddr f) IPADDR_ANY ethzero ip.
Definition announce_frame (f : netif) (ip : Z) : list Z :=
  arp_frame ethbroadcast (nf_hwaddr f) ARP_REQUEST (nf_hwaddr f) ip ethzero ip.

(** Fields that stay during the schedule. *)
Definition same_client (x y : acd) : Prop :=
  acd_next y = acd_next x ∧ acd_ipaddr y = acd_ipaddr x ∧ acd_conflict_callback y = acd_conflict_callback x.

Lemma lone_same f a x y : lone f a x → same_client x y → lone f a y.
Proof. intros (? & ? & ? & ?) (E1 & _ & _). unfold lone. by rewrite E1. Qed.

(** The timer expires while probing. *)
Lemma probe_tick live own n f a s x : ready live own n f a s x → lone f a x →
  acd_st x = ACD_STATE_PROBE_WAIT ∨ acd_st x = ACD_STATE_PROBING → acd_lastconflict x = 0 → acd_ttw x ≤ 1 → acd_sent_num x < 3 →
  ∃ s' y, acd_tmr s = Clean s' ∧ ready live own n f a s' y ∧ same_client x y ∧ acd_lastconflict y = 0 ∧
    attempts s s' [probe_frame f (acd_ipaddr x)] ∧
    (if decide (acd_sent_num x = 2) then acd_st y = ACD_STATE_ANNOUNCE_WAIT ∧ acd_sent_num y = 0 ∧ acd_ttw y = 20
     else acd_st y = ACD_STATE_PROBING ∧ acd_sent_num y = acd_sent_num x + 1 ∧ 10 ≤ acd_ttw y ≤ 19).
Proof.
  intros Hr Hlo Hst Hlc Httw Hsent. pose proof (ready_ok _ _ _ _ _ _ _ Hr) as Hok. pose proof Hok as [_ Hs8 Ht16 _ _]. unfold is_u8, is_u16 in *.
  set (x1 := counted x). assert (acd_ttw x1 = 0) as Ht1 by (cbn; unfold down; destruct (Z.ltb_spec 0 (acd_ttw x)); lia).
  assert (acd_lastconflict x1 = 0) as Hl1 by (cbn; unfold down; by rewrite Hlc).
  set (x2 := set_acd_st x1 ACD_STATE_PROBING).
  assert (ready live own n f a (put_acd s a x2) x2) as Hr2.
  { apply (ready_put _ _ _ _ _ _ x); [done|done|]. destruct (counted_ok x Hok). by split. }
  destruct (probe_run _ live own n f (acd_ipaddr x) (rd_inv _ _ _ _ _ _ _ Hr2) (rd_netif _ _ _ _ _ _ _ Hr2)) as (r & s3 & Hp & Hi3 & Hq & Hs).
  pose proof (ready_quiet _ _ _ _ _ _ _ _ Hr2 Hi3 Hq) as Hr3. apply attempts_sends in Hs.
  assert (∃ s' y, acd_tmr_one n s a = Clean s' ∧ ready live own n f a s' y ∧ same_client x y ∧ acd_lastconflict y = 0 ∧
    frames s' = frames s3 ∧ stat_etharp s' = stat_etharp s3 ∧
    (if decide (acd_sent_num x = 2) then acd_st y = ACD_STATE_ANNOUNCE_WAIT ∧ acd_sent_num y = 0 ∧ acd_ttw y = 20
     else acd_st y = ACD_STATE_PROBING ∧ acd_sent_num y = acd_sent_num x + 1 ∧ 10 ≤ acd_ttw y ≤ 19)) as (s' & y & H1 & H2 & H3 & H4 & H5 & H5' & H6).
  { rewrite (tmr_one_counted _ _ _ x) by apply Hr. fold x1. unfold acd_tmr_act. rewrite Ht1, Z.eqb_refl.
    replace (acd_st x1) with (acd_st x) by done.
    assert (∀ m : out nst, match acd_st x with
      | ACD_STATE_PROBE_WAIT | ACD_STATE_PROBING => acd_tmr_probe (put_acd s a x1) n a
      | ACD_STATE_ANNOUNCE_WAIT | ACD_STATE_ANNOUNCING => acd_tmr_announce (put_acd s a x1) n a
      | ACD_STATE_RATE_LIMIT => '(_, s) ← acd_stop (put_acd s a x1) a; acd_call s n a ACD_RESTART_CLIENT
      | _ => m end = acd_tmr_probe (put_acd s a x1) n a) as Hm by (intros m; by destruct Hst as [-> | ->]).
    rewrite Hm. unfold acd_tmr_probe. rewrite upd_put, bind_clean, get_put, bind_clean. fold x2.
    change (acd_ipaddr x2) with (acd_ipaddr x). rewrite Hp, bind_clean.
    rewrite (upd_acd_eq _ _ _ x2) by apply Hr3. rewrite bind_clean, get_put, bind_clean.
    change (acd_sent_num x2) with (acd_sent_num x). rewrite u8_id by (unfold is_u8; lia). cbn [acd_sent_num set_acd_sent_num].
    destruct (decide (acd_sent_num x = 2)) as [H2|H2].
    - rewrite (proj2 (Z.leb_le PROBE_NUM (acd_sent_num x + 1))) by (unfold PROBE_NUM; lia). rewrite upd_put, bind_clean, upd_put, bind_clean, upd_put.
      eexists _, _. split; [done|]. split; [apply (ready_put _ _ _ _ _ _ x2); [done|done|]|].
      + destruct (counted_ok x Hok). by split.
      + split_and!; done.
    - rewrite (proj2 (Z.leb_gt PROBE_NUM (acd_sent_num x + 1))) by (unfold PROBE_NUM; lia).
      unfold ACD_RANDOM_PROBE_INTERVAL, LWIP_RAND. cbn [rng put_acd set_acds]. destruct (rand (rng s3)) as [v rr]. cbv zeta iota beta.
      change (set_rng (put_acd s3 a ?y) rr) with (put_acd (set_rng s3 rr) a y). rewrite upd_put.
      set (w := u32 v mod ((PROBE_MAX - PROBE_MIN) * ACD_TICKS_PER_SECOND) + PROBE_MIN * ACD_TICKS_PER_SECOND).
      assert (10 ≤ w ≤ 19) as Hw.
      { unfold w. change ((PROBE_MAX - PROBE_MIN) * ACD_TICKS_PER_SECOND) with 10. change (PROBE_MIN * ACD_TICKS_PER_SECOND) with 10.
        pose proof (Z.mod_pos_bound (u32 v) 10). lia. }
      rewrite u16_id by (unfold is_u16; lia). eexists _, _. split; [done|]. split; [apply (ready_put _ _ _ _ _ _ x2); [|done|]|].
      + destruct Hr3 as [A1 A2 A3 A4 A5]. split; try done. by apply rng_ok.
      + destruct (counted_ok x Hok). split; cbn; try done; [unfold is_u8; lia|unfold is_u16; lia].
      + split_and!; try done; apply Hw. }
  exists s', y. split_and!; try done; [|by eapply (attempts_same (put_acd s a x2))].
  destruct H2 as [_ _ Hf2 Hx2 _]. destruct Hlo as (L1 & L2 & L3 & L4). destruct H3 as (Hn & _).
  eapply (tmr_lone live own n f a s x); try done. congruence.
Qed.

(** The timer expires while announcing: the second announcement ends the schedule. *)
Lemma announce_tick live own n f a s x : ready live own n f a s x →
  acd_st x = ACD_STATE_ANNOUNCE_WAIT ∨ acd_st x = ACD_STATE_ANNOUNCING → acd_lastconflict x = 0 → acd_ttw x ≤ 1 → acd_sent_num x < 2 →
  ∃ s' y, ready live own n f a s' y ∧ same_client x y ∧ acd_lastconflict y = 0 ∧
    attempts s s' [announce_frame f (acd_ipaddr x)] ∧
    (if decide (acd_sent_num x = 1)
     then acd_st y = ACD_STATE_ONGOING ∧ acd_tmr_one n s a = conflict_callback (acd_conflict_callback x) s' n ACD_IP_OK
     else acd_st y = ACD_STATE_ANNOUNCING ∧ acd_sent_num y = 1 ∧ acd_ttw y = 20 ∧ acd_tmr_one n s a = Clean s').
Proof.
  intros Hr Hst Hlc Httw Hsent. pose proof (ready_ok _ _ _ _ _ _ _ Hr) as Hok. pose proof Hok as [_ Hs8 Ht16 _ _]. unfold is_u8, is_u16 in *.
  set (x1 := counted x). assert (acd_ttw x1 = 0) as Ht1 by (cbn; unfold down; destruct (Z.ltb_spec 0 (acd_ttw x)); lia).
  assert (acd_lastconflict x1 = 0) as Hl1 by (cbn; unfold down; by rewrite Hlc).
  set (x2 := if acd_sent_num x =? 0 then set_acd_num_conflicts (set_acd_st x1 ACD_STATE_ANNOUNCING) 0 else x1).
  assert (acd_ok x2) as Hok2.
  { destruct (counted_ok x Hok). unfold x2. destruct (acd_sent_num x =? 0); by split. }
  assert (same_client x x2 ∧ acd_lastconflict x2 = 0 ∧ acd_sent_num x2 = acd_sent_num x) as (Hsc & Hl2 & Hs2).
  { unfold x2. destruct (acd_sent_num x =? 0); done. }
  assert (ready live own n f a (put_acd s a x2) x2) as Hr2 by (apply (ready_put _ _ _ _ _ _ x); [done|apply Hsc|done]).
  destruct (announce_run _ live own n f (acd_ipaddr x) (rd_inv _ _ _ _ _ _ _ Hr2) (rd_netif _ _ _ _ _ _ _ Hr2)) as (r & s3 & Hp & Hi3 & Hq & Hs).
  pose proof (ready_quiet _ _ _ _ _ _ _ _ Hr2 Hi3 Hq) as Hr3. apply attempts_sends in Hs.
  assert (acd_tmr_one n s a = acd_tmr_announce (put_acd s a x1) n a) as ->.
  { rewrite (tmr_one_counted _ _ _ x) by apply Hr. fold x1. unfold acd_tmr_act. rewrite Ht1, Z.eqb_refl.
    change (acd_st x1) with (acd_st x). by destruct Hst as [-> | ->]. }
  unfold acd_tmr_announce. rewrite get_put, bind_clean. change (acd_sent_num x1) with (acd_sent_num x).
  assert ((if acd_sent_num x =? 0 then s ← upd_acd (put_acd s a x1) a (λ x, set_acd_st x ACD_STATE_ANNOUNCING);
       upd_acd s a (λ x, set_acd_num_conflicts x 0) else mret (put_acd s a x1)) = Clean (put_acd s a x2)) as ->.
  { unfold x2. destruct (acd_sent_num x =? 0); [|done]. by rewrite upd_put, bind_clean, upd_put. }
  rewrite bind_clean, get_put, bind_clean. replace (acd_ipaddr x2) with (acd_ipaddr x) by (symmetry; apply Hsc).
  rewrite Hp, bind_clean. rewrite (upd_acd_eq _ _ _ x2) by apply Hr3. rewrite bind_clean, upd_put, bind_clean, get_put, bind_clean.
  set (w := ANNOUNCE_INTERVAL * ACD_TICKS_PER_SECOND). change (acd_sent_num (set_acd_ttw x2 w)) with (acd_sent_num x2).
  rewrite Hs2, u8_id by (unfold is_u8; lia). cbn [acd_sent_num set_acd_sent_num].
  destruct (decide (acd_sent_num x = 1)) as [H1|H1].
  - rewrite (proj2 (Z.leb_le ANNOUNCE_NUM (acd_sent_num x + 1))) by (unfold ANNOUNCE_NUM; lia).
    rewrite upd_put, bind_clean, upd_put, bind_clean, upd_put, bind_clean.
    match goal with |- context [acd_call (put_acd s3 a ?y) n a ACD_IP_OK] => exists (put_acd s3 a y), y end.
    split; [apply (ready_put _ _ _ _ _ _ x2); [done|done|]|].
    + destruct Hok2. by split.
    + split_and!; try done. unfold acd_call. rewrite get_put, bind_clean. cbn [acd_conflict_callback set_acd_ttw set_acd_sent_num set_acd_st].
      by destruct Hsc as (_ & _ & ->).
  - rewrite (proj2 (Z.leb_gt ANNOUNCE_NUM (acd_sent_num x + 1))) by (unfold ANNOUNCE_NUM; lia).
    match goal with |- context [mret (put_acd s3 a ?y)] => exists (put_acd s3 a y), y end.
    split; [apply (ready_put _ _ _ _ _ _ x2); [done|done|]|].
    + destruct Hok2. split; cbn; try done. unfold is_u8. lia.
    + split_and!; try done.
      * cbn. unfold x2. rewrite (proj2 (Z.eqb_eq (acd_sent_num x) 0)) by lia. done.
      * cbn. lia.
Qed.

Lemma wait_all live own n f a s x : ready live own n f a s x → lone f a x → waiting (acd_st x) → acd_lastconflict x = 0 → 1 ≤ acd_ttw x →
  ∃ s', acd_ticks (Z.to_nat (acd_ttw x) - 1) s = Clean s' ∧ ready live own n f a s' (set_acd_ttw x 1) ∧ attempts s s' [].
Proof.
  intros Hr Hlo Hw Hlc Ht. destruct (wait_ticks (Z.to_nat (acd_ttw x) - 1) live own n f a s x Hr Hlo Hw Hlc) as (s' & H1 & H2 & H3); [lia|].
  exists s'. split_and!; try done. by replace (acd_ttw x - Z.of_nat (Z.to_nat (acd_ttw x) - 1)) with 1 in H2 by lia.
Qed.

(** Waiting until the timer expires, and probing. *)
Lemma probe_phase live own n f a s x : ready live own n f a s x → lone f a x →
  acd_st x = ACD_STATE_PROBE_WAIT ∨ acd_st x = ACD_STATE_PROBING → acd_lastconflict x = 0 → acd_sent_num x < 3 →
  ∃ s' y, acd_ticks (Z.to_nat (Z.max 1 (acd_ttw x))) s = Clean s' ∧ ready live own n f a s' y ∧ same_client x y ∧ acd_lastconflict y = 0 ∧
    attempts s s' [probe_frame f (acd_ipaddr x)] ∧
    (if decide (acd_sent_num x = 2) then acd_st y = ACD_STATE_ANNOUNCE_WAIT ∧ acd_sent_num y = 0 ∧ acd_ttw y = 20
     else acd_st y = ACD_STATE_PROBING ∧ acd_sent_num y = acd_sent_num x + 1 ∧ 10 ≤ acd_ttw y ≤ 19).
Proof.
  intros Hr Hlo Hst Hlc Hsent. destruct (decide (acd_ttw x ≤ 1)) as [Hle|Hgt].
  - destruct (probe_tick live own n f a s x Hr Hlo Hst Hlc Hle Hsent) as (s' & y & H1 & H2). exists s', y.
    rewrite Z.max_l by lia. split; [|done]. change (Z.to_nat 1) with 1%nat. cbn [acd_ticks]. by rewrite H1.
  - destruct (wait_all live own n f a s x Hr Hlo) as (s1 & W1 & W2 & W3); [destruct Hst; unfold waiting; auto|done|lia|].
    destruct (probe_tick live own n f a s1 (set_acd_ttw x 1) W2) as (s' & y & H1 & H2 & H3 & H4 & H5 & H6); try done.
    exists s', y. split_and!; try done; [|exact (attempts_app _ _ _ _ _ W3 H5)].
    replace (Z.to_nat (Z.max 1 (acd_ttw x))) with (Z.to_nat (acd_ttw x) - 1 + 1)%nat by lia. rewrite (acd_ticks_app _ _ _ _ W1).
    cbn [acd_ticks]. by rewrite H1.
Qed.
(** Waiting until the timer expires, and the first announcement. *)
Lemma announce_phase live own n f a s x : ready live own n f a s x → lone f a x → acd_st x = ACD_STATE_ANNOUNCE_WAIT →
  acd_lastconflict x = 0 → acd_sent_num x = 0 → acd_ttw x = 20 →
  ∃ s' y, acd_ticks 20 s = Clean s' ∧ ready live own n f a s' y ∧ same_client x y ∧ acd_lastconflict y = 0 ∧
    attempts s s' [announce_frame f (acd_ipaddr x)] ∧ acd_st y = ACD_STATE_ANNOUNCING ∧ acd_sent_num y = 1 ∧ acd_ttw y = 20.
Proof.
  intros Hr Hlo Hst Hlc Hsent Ht.
  destruct (wait_all live own n f a s x Hr Hlo) as (s1 & W1 & W2 & W3); [unfold waiting; auto|done|lia|].
  destruct (announce_tick live own n f a s1 (set_acd_ttw x 1) W2) as (s' & y & H1 & H2 & H3 & H4 & H5); [by left|done|done|cbn; lia|].
  rewrite decide_False in H5 by (cbn; lia). destruct H5 as (H5 & H6 & H7 & H8).
  exists s', y. split_and!; try done; [|exact (attempts_app _ _ _ _ _ W3 H4)].
  rewrite Ht in W1. change 20%nat with (Z.to_nat 20 - 1 + 1)%nat. rewrite (acd_ticks_app _ _ _ _ W1). cbn [acd_ticks].
  destruct H1 as [_ _ Hf1 Hx1 _]. pose proof Hlo as (L1 & L2 & L3 & L4). destruct H2 as (Hn & _).
  erewrite (tmr_lone live own n f a s1 (set_acd_ttw x 1) s'); try done. cbn in Hn. congruence.
Qed.

(** The schedule begins. *)
Lemma start_run live own n f a s x ip : ready live own n f a s x → is_u32 ip →
  ∃ s0 y, acd_start s n a ip = Clean (ERR_OK, s0) ∧ ready live own n f a s0 y ∧ attempts s s0 [] ∧
    acd_next y = acd_next x ∧ acd_conflict_callback y = acd_conflict_callback x ∧ acd_ipaddr y = ip ∧
    acd_st y = ACD_STATE_PROBE_WAIT ∧ acd_sent_num y = 0 ∧ acd_lastconflict y = 0 ∧ 0 ≤ acd_ttw y ≤ 9.
Proof.
  intros Hr Hip. pose proof (ready_ok _ _ _ _ _ _ _ Hr) as Hok. unfold acd_start.
  rewrite (upd_acd_eq _ _ _ x) by apply Hr. rewrite bind_clean. do 3 rewrite upd_put, bind_clean.
  unfold ACD_RANDOM_PROBE_WAIT, LWIP_RAND. cbn [rng put_acd set_acds]. destruct (rand (rng s)) as [v r]. cbv zeta iota beta.
  change (set_rng (put_acd s a ?y) r) with (put_acd (set_rng s r) a y). rewrite upd_put, bind_clean.
  change (PROBE_WAIT * ACD_TICKS_PER_SECOND) with 10. pose proof (Z.mod_pos_bound (u32 v) 10 ltac:(lia)) as Hw.
  rewrite u16_id by (unfold is_u16; lia). eexists _, _. split; [done|]. split; [apply (ready_put _ _ _ _ _ _ x); [|done|]|].
  - destruct Hr as [A1 A2 A3 A4 A5]. split; try done. by apply rng_ok.
  - destruct Hok. split; cbn [acd_ipaddr acd_sent_num acd_ttw acd_lastconflict acd_num_conflicts set_acd_ttw]; try done. unfold is_u16. lia.
  - split; [by apply attempts_none|]. split_and!; try done; cbn [acd_ttw set_acd_ttw]; lia.
Qed.

Context {HC : AcdClients}.

(** The second announcement, and the message to the client. *)
Lemma finish_phase live own n f a s x : ready live own n f a s x → lone f a x → acd_st x = ACD_STATE_ANNOUNCING →
  acd_lastconflict x = 0 → acd_sent_num x = 1 → acd_ttw x = 20 →
  ∃ sw s1 y s2, acd_ticks 19 s = Clean sw ∧ ready live own n f a sw (set_acd_ttw x 1) ∧
    ready live own n f a s1 y ∧ same_client x y ∧ attempts s s1 [announce_frame f (acd_ipaddr x)] ∧
    acd_st y = ACD_STATE_ONGOING ∧ acd_lastconflict y = 0 ∧
    conflict_callback (acd_conflict_callback x) s1 n ACD_IP_OK = Clean s2 ∧ acd_ticks 20 s = Clean s2.
Proof.
  intros Hr Hlo Hst Hlc Hsent Ht.
  destruct (wait_all live own n f a s x Hr Hlo) as (sw & W1 & W2 & W3); [unfold waiting; auto 6|done|lia|].
  destruct (announce_tick live own n f a sw (set_acd_ttw x 1) W2) as (s1 & y & H1 & H2 & H3 & H4 & H5); [by right|done|done|cbn; lia|].
  rewrite decide_True in H5 by (cbn; lia). destruct H5 as (H5 & H6). cbn in H6.
  destruct (HC s1 live own n a y ACD_IP_OK) as (s2 & live2 & Hcb & Hi2 & Hl2); [apply H1|eapply ready_on_list; [done|by eapply lone_same]|apply H1|].
  replace (acd_conflict_callback y) with (acd_conflict_callback x) in Hcb by (symmetry; apply H2).
  rewrite Ht in W1. change (Z.to_nat 20 - 1)%nat with 19%nat in W1.
  exists sw, s1, y, s2. split_and!; try done; [exact (attempts_app _ _ _ _ _ W3 H4)|].
  change 20%nat with (19 + 1)%nat. rewrite (acd_ticks_app _ _ _ _ W1). cbn [acd_ticks].
  destruct H1 as [_ _ Hf1 Hx1 _]. pose proof Hlo as (L1 & L2 & L3 & L4). destruct H2 as (Hn & _).
  assert (∃ f2, netifs s2 !! n = Some f2 ∧ nf_next f2 = NULL) as (f2 & Hf2 & Hn2).
  { pose proof (f_equal (.!! n) (sl_nf_next _ _ Hl2)) as Hq. rewrite !lookup_fmap, Hf1 in Hq. cbn in Hq. rewrite L1 in Hq.
    destruct (netifs s2 !! n) as [f2|]; [|done]. exists f2. by injection Hq. }
  assert (∃ x2, acds s2 !! a = Some x2 ∧ acd_next x2 = NULL) as (x2 & Hx2 & Ha2).
  { pose proof (f_equal (.!! a) (sl_next _ _ Hl2)) as Hq. rewrite !lookup_fmap, Hx1 in Hq. cbn in Hq, Hn. rewrite Hn, L4 in Hq.
    destruct (acds s2 !! a) as [x2|]; [|done]. exists x2. by injection Hq. }
  erewrite (tmr_lone live own n f a sw (set_acd_ttw x 1) s2); try done. by rewrite H6.
Qed.

Lemma same_client_trans x y z : same_client x y → same_client y z → same_client x z.
Proof. unfold same_client. intuition congruence. Qed.

(** The whole schedule of a client that is about to probe. *)
Lemma schedule_run live own n f a s0 x0 : ready live own n f a s0 x0 → lone f a x0 → acd_st x0 = ACD_STATE_PROBE_WAIT →
  acd_sent_num x0 = 0 → acd_lastconflict x0 = 0 → 0 ≤ acd_ttw x0 ≤ 9 → let ip := acd_ipaddr x0 in
  ∃ N sw w s1 y s2, (61 ≤ N ≤ 87)%nat ∧ acd_ticks (N - 1) s0 = Clean sw ∧ ready live own n f a sw w ∧ acd_st w = ACD_STATE_ANNOUNCING ∧
    ready live own n f a s1 y ∧ same_client x0 y ∧ acd_st y = ACD_STATE_ONGOING ∧
    attempts s0 s1 [probe_frame f ip; probe_frame f ip; probe_frame f ip; announce_frame f ip; announce_frame f ip] ∧
    conflict_callback (acd_conflict_callback x0) s1 n ACD_IP_OK = Clean s2 ∧ acd_ticks N s0 = Clean s2.
Proof.
  intros R0 Hlo0 S0 K0 L0 T0 ip.
  destruct (probe_phase _ _ _ _ _ _ _ R0 Hlo0) as (s1 & x1 & P1 & R1 & C1 & L1 & A1 & E1); [by left|done|lia|].
  rewrite decide_False in E1 by lia. destruct E1 as (S1 & K1 & T1). pose proof (lone_same _ _ _ _ Hlo0 C1) as Hlo1.
  destruct (probe_phase _ _ _ _ _ _ _ R1 Hlo1) as (s2 & x2 & P2 & R2 & C2 & L2 & A2 & E2); [by right|done|lia|].
  rewrite decide_False in E2 by lia. destruct E2 as (S2 & K2 & T2). pose proof (lone_same _ _ _ _ Hlo1 C2) as Hlo2.
  destruct (probe_phase _ _ _ _ _ _ _ R2 Hlo2) as (s3 & x3 & P3 & R3 & C3 & L3 & A3 & E3); [by right|done|lia|].
  rewrite decide_True in E3 by lia. destruct E3 as (S3 & K3 & T3). pose proof (lone_same _ _ _ _ Hlo2 C3) as Hlo3.
  destruct (announce_phase _ _ _ _ _ _ _ R3 Hlo3) as (s4 & x4 & P4 & R4 & C4 & L4 & A4 & S4 & K4 & T4); [done..|].
  pose proof (lone_same _ _ _ _ Hlo3 C4) as Hlo4.
  destruct (finish_phase _ _ _ _ _ _ _ R4 Hlo4) as (sw & s5 & y & s6 & P5 & R5 & R6 & C5 & A5 & S5 & L5 & Hcb & P6); [done..|].
  pose proof (same_client_trans _ _ _ C1 C2) as D2. pose proof (same_client_trans _ _ _ D2 C3) as D3.
  pose proof (same_client_trans _ _ _ D3 C4) as D4. pose proof (same_client_trans _ _ _ D4 C5) as D5.
  rewrite (proj1 (proj2 C1)) in A2. rewrite (proj1 (proj2 D2)) in A3. rewrite (proj1 (proj2 D3)) in A4. rewrite (proj1 (proj2 D4)) in A5.
  rewrite (proj2 (proj2 D4)) in Hcb.
  set (k0 := Z.to_nat (Z.max 1 (acd_ttw x0))) in *. set (k1 := Z.to_nat (Z.max 1 (acd_ttw x1))) in *.
  set (k2 := Z.to_nat (Z.max 1 (acd_ttw x2))) in *.
  assert (∀ k r, acd_ticks k s4 = r → acd_ticks (k0 + (k1 + (k2 + (20 + k)))) s0 = r) as Hk.
  { intros k r <-. by rewrite (acd_ticks_app _ _ _ _ P1), (acd_ticks_app _ _ _ _ P2), (acd_ticks_app _ _ _ _ P3), (acd_ticks_app _ _ _ _ P4). }
  exists (k0 + (k1 + (k2 + (20 + 20))))%nat, sw, (set_acd_ttw x4 1), s5, y, s6. split; [lia|]. split.
  { replace (k0 + (k1 + (k2 + (20 + 20))) - 1)%nat with (k0 + (k1 + (k2 + (20 + 19))))%nat by lia. by apply Hk. }
  split_and!; [done..| |done|by apply Hk].
  exact (attempts_app _ _ _ _ _ A1 (attempts_app _ _ _ _ _ A2 (attempts_app _ _ _ _ _ A3 (attempts_app _ _ _ _ _ A4 A5)))).
Qed.

(** C16: a client that starts conflict detection for [ip], alone on the only interface, while
    no ARP packet arrives: after 61 to 87 ticks of [acd_tmr] (of 100 ms) the
    address is in use and the client is told so, once and not before the last
    tick; three probes and two announcements of [ip] were handed to the driver
    in this order, each of them sent or counted as an error for the lack of
    memory. *)
Theorem acd_start_announces live own n f a s x ip : ready live own n f a s x → lone f a x → is_u32 ip →
  ∃ s0 N sw w s1 y s2, acd_start s n a ip = Clean (ERR_OK, s0) ∧ (61 ≤ N ≤ 87)%nat ∧
    acd_ticks (N - 1) s0 = Clean sw ∧ acds sw !! a = Some w ∧ acd_st w = ACD_STATE_ANNOUNCING ∧
    acds s1 !! a = Some y ∧ acd_st y = ACD_STATE_ONGOING ∧ acd_ipaddr y = ip ∧
    attempts s s1 [probe_frame f ip; probe_frame f ip; probe_frame f ip; announce_frame f ip; announce_frame f ip] ∧
    conflict_callback (acd_conflict_callback x) s1 n ACD_IP_OK = Clean s2 ∧ acd_ticks N s0 = Clean s2.
Proof.
  intros Hr Hlo Hip. destruct (start_run _ _ _ _ _ _ _ ip Hr Hip) as (s0 & x0 & H0 & R0 & A0 & N0 & C0 & I0 & S0 & K0 & L0 & T0).
  assert (lone f a x0) as Hlo0 by (destruct Hlo as (? & ? & ? & ?); unfold lone; by rewrite N0).
  destruct (schedule_run _ _ _ _ _ _ _ R0 Hlo0 S0 K0 L0 T0) as (N & sw & w & s1 & y & s2 & HN & Hw & Rw & Sw & R1 & C1 & S1 & A1 & Hcb & H2).
  rewrite I0 in A1. rewrite C0 in Hcb. exists s0, N, sw, w, s1, y, s2. split; [done|]. split; [exact HN|].
  split_and!; [done|apply Rw|done|apply R1|done|by rewrite (proj1 (proj2 C1))|exact (attempts_app _ _ _ _ _ A0 A1)|done|done].
Qed.

(** ** Defending an address *)

(** One struct on the list: its body alone runs. *)
Lemma foreach_lone live own n f a s x s' body : ready live own n f a s x → lone f a x → body s a = Clean s' →
  same_links s s' → acd_foreach (acd_fuel s) s (nf_acd_list f) body = Clean s'.
Proof.
  intros Hr (_ & L2 & L3 & L4) Hb Hl. rewrite L2. unfold acd_fuel. cbn [acd_foreach]. rewrite (proj2 (Z.eqb_neq a NULL)) by done.
  rewrite Hb, bind_clean. pose proof (f_equal (.!! a) (sl_next _ _ Hl)) as Hq.
  rewrite !lookup_fmap, (rd_acd _ _ _ _ _ _ _ Hr) in Hq. cbn in Hq. rewrite L4 in Hq. unfold get_acd.
  destruct (acds s' !! a) as [y|]; [|done]. cbn in Hq. injection Hq as Hq. out_simp. rewrite Hq. by destruct (size (acds s)).
Qed.

(** A packet at [hdr] says that another host uses the address. *)
Record conflicting (s : nst) (f : netif) (ip hdr : Z) : Prop := Conflicting {
  cf_sip : rd32 s (hdr + 14) = Clean ip;
  cf_dip : ∃ dip, rd32 s (hdr + 24) = Clean dip;
  cf_mac : ∃ S, rd s (hdr + 8) ETH_HWADDR_LEN = Clean S ∧ S ≠ nf_hwaddr f }.

Lemma reply_lone live own n f a s x hdr s' : ready live own n f a s x → lone f a x → conflicting s f (acd_ipaddr x) hdr →
  acd_st x = ACD_STATE_ONGOING → acd_handle_arp_conflict s n a = Clean s' → same_links s s' →
  acd_arp_reply s n hdr = Clean s'.
Proof.
  intros Hr Hlo [Hs [dip Hd] (S & HS & Hne)] Hst Hh Hl. unfold acd_arp_reply, get_netif. rewrite (rd_netif _ _ _ _ _ _ _ Hr). out_simp.
  rewrite Hs, Hd, !bind_clean. apply (foreach_lone live own n f a s x s'); try done.
  unfold acd_arp_reply_one, get_acd. rewrite (rd_acd _ _ _ _ _ _ _ Hr). out_simp. rewrite Hst, Z.eqb_refl, HS, bind_clean.
  by rewrite bool_decide_eq_false_2.
Qed.

(** The first conflict: the address is announced again. *)
Lemma defend_run live own n f a s x : ready live own n f a s x → acd_st x = ACD_STATE_ONGOING → acd_lastconflict x = 0 →
  ∃ s', acd_handle_arp_conflict s n a = Clean s' ∧ same_links s s' ∧ ready live own n f a s' (set_acd_lastconflict x 100) ∧
    attempts s s' [announce_frame f (acd_ipaddr x)].
Proof.
  intros Hr Hst Hlc. unfold acd_handle_arp_conflict, get_acd. rewrite (rd_acd _ _ _ _ _ _ _ Hr). out_simp.
  rewrite decide_False by (by rewrite Hst). rewrite Hlc. change (0 <? 0) with false. cbn iota.
  destruct (announce_run s live own n f (acd_ipaddr x) (rd_inv _ _ _ _ _ _ _ Hr) (rd_netif _ _ _ _ _ _ _ Hr)) as (r & s1 & -> & Hi1 & Hq & Hs).
  rewrite bind_clean. pose proof (ready_quiet _ _ _ _ _ _ _ _ Hr Hi1 Hq) as Hr1. rewrite (upd_acd_eq _ _ _ x) by apply Hr1.
  change (DEFEND_INTERVAL * ACD_TICKS_PER_SECOND) with 100. pose proof (ready_ok _ _ _ _ _ _ _ Hr) as [O1 O2 O3 O4 O5].
  assert (acd_ok (set_acd_lastconflict x 100)) as Hok by (by split).
  eexists. split; [done|]. split; [|split; [by apply (ready_put _ _ _ _ _ _ x)|]].
  - eapply same_links_trans; [by eapply quiet_links|]. by eapply (put_acd_ok s1 live own a x); [apply Hr1|apply Hr1|..].
  - apply attempts_sends in Hs. destruct Hs as (L & HL). by exists L.
Qed.

(** While the address is in use only the timers change. *)
Lemma ongoing_ticks k : ∀ live own n f a s x, ready live own n f a s x → lone f a x → acd_st x = ACD_STATE_ONGOING →
  ∃ s' y, acd_ticks k s = Clean s' ∧ ready live own n f a s' y ∧ attempts s s' [] ∧ same_client x y ∧
    acd_st y = ACD_STATE_ONGOING ∧ acd_num_conflicts y = acd_num_conflicts x ∧
    acd_lastconflict y = Z.max 0 (acd_lastconflict x - Z.of_nat k).
Proof.
  induction k as [|k IH]; intros live own n f a s x Hr Hlo Hst.
  { pose proof (ready_ok _ _ _ _ _ _ _ Hr) as [_ _ _ Hl8 _]. unfold is_u8 in *.
    exists s, x. split_and!; try done; [by apply attempts_none|lia]. }
  set (y := counted x). assert (ready live own n f a (put_acd s a y) y) as Hr1.
  { apply (ready_put _ _ _ _ _ _ x); [done|done|]. apply counted_ok. by eapply ready_ok. }
  cbn [acd_ticks]. assert (acd_tmr s = Clean (put_acd s a y)) as ->.
  { destruct Hr1 as [_ _ Hf1 Hx1 _]. destruct Hlo as (L1 & L2 & L3 & L4). eapply (tmr_lone live own n f a s x); try done.
    rewrite (tmr_one_counted _ _ _ x) by apply Hr. fold y. unfold acd_tmr_act. by change (acd_st y) with (acd_st x); rewrite Hst. }
  rewrite bind_clean. destruct (IH live own n f a (put_acd s a y) y Hr1) as (s' & z & H1 & H2 & H3 & H4 & H5 & H6 & H7); [done..|].
  exists s', z. split_and!; try done. pose proof (ready_ok _ _ _ _ _ _ _ Hr) as [_ _ _ Hl8 _]. unfold is_u8 in *.
  rewrite H7. cbn [y counted acd_lastconflict set_acd_ttw set_acd_lastconflict]. unfold down. destruct (Z.ltb_spec 0 (acd_lastconflict x)); lia.
Qed.
(** Giving the address up: the client is told twice, between which the struct rests or, after
    ten conflicts, waits for a minute. *)
Definition gives_up (s : nst) (n a : Z) (x : acd) (s' : nst) : Prop :=
  ∃ sd z, conflict_callback (acd_conflict_callback x) (put_acd s a (set_acd_num_conflicts x (u8 (acd_num_conflicts x + 1)))) n ACD_DECLINE = Clean sd ∧
    acds sd !! a = Some z ∧
    if decide (10 ≤ acd_num_conflicts z) then s' = put_acd sd a (set_acd_ttw (set_acd_st z ACD_STATE_RATE_LIMIT) 600)
    else conflict_callback (acd_conflict_callback z) (put_acd sd a (set_acd_st z ACD_STATE_OFF)) n ACD_RESTART_CLIENT = Clean s'.

Lemma restart_run live own n f a s x : ready live own n f a s x → lone f a x →
  ∃ s', acd_restart s n a = Clean s' ∧ same_links s s' ∧ gives_up s n a x s'.
Proof.
  intros Hr Hlo. assert (a ≠ NULL) as Ha by apply Hlo.
  destruct (acd_restart_safe s live own n a) as (s' & live' & H & Hi' & Hl); [apply Hr|by eapply ready_on_list|].
  exists s'. split_and!; [done..|]. unfold acd_restart in H. rewrite (upd_acd_eq _ _ _ x), bind_clean in H by apply Hr.
  apply bind_clean_inv in H as (sd & Hd & H). unfold acd_call in Hd. rewrite get_put, bind_clean in Hd.
  apply bind_clean_inv in H as (z & Hz & H). exists sd, z. split; [done|].
  unfold get_acd in Hz. destruct (acds sd !! a) as [z'|] eqn:Hza; [|done]. injection Hz as ->. split; [done|].
  change MAX_CONFLICTS with 10 in H. case_decide as H10.
  - rewrite (proj2 (Z.leb_le _ _) H10), (upd_acd_eq _ _ _ z), bind_clean, upd_put in H by done. by injection H as <-.
  - rewrite (proj2 (Z.leb_gt 10 (acd_num_conflicts z))) in H by lia. unfold acd_stop in H. rewrite (proj2 (Z.eqb_neq a NULL)) in H by done.
    cbn [negb] in H. rewrite (upd_acd_eq _ _ _ z), bind_clean, bind_ret_l in H by done. unfold acd_call in H. by rewrite get_put, bind_clean in H.
Qed.

(** C33: an address in use is defended once in ten seconds.  When a packet of another host
    with our address arrives, and none did in the last ten seconds, the address is
    announced again.  A second such packet within 100 ticks makes the struct give
    the address up; after 100 ticks or more it is defended again. *)
Theorem acd_defends_once live own n f a s x hdr k : ready live own n f a s x → lone f a x → acd_st x = ACD_STATE_ONGOING →
  acd_lastconflict x = 0 → conflicting s f (acd_ipaddr x) hdr →
  ∃ s1 s2 y, acd_arp_reply s n hdr = Clean s1 ∧ attempts s s1 [announce_frame f (acd_ipaddr x)] ∧
    acd_ticks k s1 = Clean s2 ∧ attempts s1 s2 [] ∧ acds s2 !! a = Some y ∧ same_client x y ∧ acd_st y = ACD_STATE_ONGOING ∧
    ∀ hdr', conflicting s2 f (acd_ipaddr x) hdr' → ∃ s3, acd_arp_reply s2 n hdr' = Clean s3 ∧
      (if decide (k < 100)%nat then gives_up s2 n a y s3
       else attempts s2 s3 [announce_frame f (acd_ipaddr x)] ∧ acds s3 !! a = Some (set_acd_lastconflict y 100)).
Proof.
  intros Hr Hlo Hst Hlc Hcf. destruct (defend_run live own n f a s x Hr Hst Hlc) as (s1 & H1 & Hl1 & R1 & A1).
  destruct (ongoing_ticks k live own n f a s1 _ R1) as (s2 & y & H2 & R2 & A2 & C2 & S2 & _ & L2); [done..|].
  assert (lone f a y) as Hlo2 by (by eapply (lone_same _ _ (set_acd_lastconflict x 100))).
  exists s1, s2, y. split_and!; [by eapply reply_lone|done|done|done|apply R2|exact C2|done|].
  intros hdr' Hcf2. assert (acd_ipaddr y = acd_ipaddr x) as Hip by apply C2. rewrite <- Hip in Hcf2.
  cbn [acd_lastconflict set_acd_lastconflict] in L2. case_decide as Hk.
  - destruct (restart_run live own n f a s2 y R2 Hlo2) as (s3 & H3 & Hl3 & G3). exists s3. split; [|done].
    apply (reply_lone live own n f a s2 y); try done. unfold acd_handle_arp_conflict, get_acd. rewrite (rd_acd _ _ _ _ _ _ _ R2). out_simp.
    rewrite decide_False by (by rewrite S2). by rewrite (proj2 (Z.ltb_lt 0 (acd_lastconflict y))) by lia.
  - destruct (defend_run live own n f a s2 y R2 S2) as (s3 & H3 & Hl3 & R3 & A3); [lia|]. exists s3.
    split; [by apply (reply_lone live own n f a s2 y)|]. rewrite <- Hip. split; [done|apply R3].
Qed.

(** ** The fields keep their width *)







End Ticks.

(** ** Witnesses *)

Lemma ex_ready : ready (IfSt 1 ∅) ∅ own0 ex_nif ex_netif_acd ex_acd ex_net_acd ex_acd_struct.
Proof. split; [exact ex_net_acd_ok|reflexivity|reflexivity|reflexivity|reflexivity]. Qed.

Lemma ex_lone st : lone ex_netif_acd ex_acd (set_acd_st ex_acd_struct st).
Proof. by repeat split. Qed.

Lemma acd_start_announces_witness : ∃ s0 N s2, acd_start ex_net_acd ex_nif ex_acd ex_ip = Clean (ERR_OK, s0) ∧
  (61 ≤ N ≤ 87)%nat ∧ acd_ticks N s0 = Clean s2.
Proof.
  destruct (acd_start_announces (IfSt 1 ∅) ∅ own0 ex_nif ex_netif_acd ex_acd ex_net_acd ex_acd_struct ex_ip ex_ready)
    as (s0 & N & sw & w & s1 & y & s2 & H1 & H2 & _ & _ & _ & _ & _ & _ & _ & _ & H3).
  - exact (ex_lone ACD_STATE_OFF).
  - split; reflexivity || discriminate.
  - exists s0, N, s2. split; [exact H1|]. split; [exact H2|exact H3].
Defined.

(** The address is in use, and a packet of another host with this address lies at 1200. *)
Definition ex_conflict : list Z := arp_packet ARP_REQUEST [2; 0; 0; 0; 0; 9] ex_ip ethzero ex_gw.
Definition ex_net_conflict : nst ex_M :=
  let s := put_acd ex_net_acd ex_acd (set_acd_st ex_acd_struct ACD_STATE_ONGOING) in
  set_pb s (set_data (pb s) (put (data (pb s)) 1200 ex_conflict)).

Lemma ex_conflict_ready : ready (IfSt 1 ∅) ∅ own0 ex_nif ex_netif_acd ex_acd ex_net_conflict (set_acd_st ex_acd_struct ACD_STATE_ONGOING).
Proof.
  apply ready_bytes; [|repeat (apply Forall_cons; split; [split; [by apply Z.leb_le|by apply Z.ltb_lt]|]); by apply Forall_nil
    |apply ex_mapped; cbn; lia].
  apply (ready_put (IfSt 1 ∅) ∅ own0 ex_nif ex_netif_acd ex_acd ex_net_acd ex_acd_struct); [exact ex_ready|reflexivity|by split].
Qed.

Lemma ex_conflicting : conflicting ex_net_conflict ex_netif_acd ex_ip 1200.
Proof.
  assert (arp_at ex_net_conflict 1200 ARP_REQUEST [2; 0; 0; 0; 0; 9] ex_ip ethzero ex_gw) as Hat by (apply put_seg; reflexivity).
  destruct (arp_fields ex_net_conflict 1200 _ _ _ _ _ Hat) as (_ & _ & _ & _ & _ & H1 & H2 & H3);
    [reflexivity|reflexivity|split; reflexivity || discriminate..|].
  split; [exact H1|exists ex_gw; exact H2|]. exists [2; 0; 0; 0; 0; 9]. split; [|discriminate].
  apply (rd_sub ex_net_conflict 1200 28 _ 8 6 Hat); lia.
Qed.

Lemma acd_defends_once_witness : ∃ s1 s2, acd_arp_reply ex_net_conflict ex_nif 1200 = Clean s1 ∧
  attempts ex_net_conflict s1 [announce_frame ex_netif_acd ex_ip] ∧ acd_ticks 42 s1 = Clean s2.
Proof.
  destruct (acd_defends_once (IfSt 1 ∅) ∅ own0 ex_nif ex_netif_acd ex_acd ex_net_conflict (set_acd_st ex_acd_struct ACD_STATE_ONGOING) 1200 42 ex_conflict_ready)
    as (s1 & s2 & y & H1 & H2 & H3 & _).
  - exact (ex_lone ACD_STATE_ONGOING).
  - reflexivity.
  - reflexivity.
  - exact ex_conflicting.
  - exists s1, s2. split; [exact H1|]. split; [exact H2|exact H3].
Defined.

