(* ===== verification/AutoipSpec.v ===== *)
(** * AutoIP

    The theorems about autoip.c: the addresses it tries, starting and stopping, the outcome of address conflict detection. *)
From S2P Require Import Prelude Def Chksum Stats Iface Ip4Addr Mem Memp Alloc Pbuf PbufChain PbufClient PbufData PbufClone Pcb Netif NetInv Links EthOut Region Acd Autoip Etharp EtharpInv EtharpTmr Ip4Out Ip4OutInv Udp Raw UdpInv UdpOps UdpApi RawInv Ip4 Ip4Inv NetifAddr AutoipRun NetifUp IfInv IfSafe NetEx AcdList AutoipInv AcdSpec.

Section AutoipSpec.
Context {M : Type} `{PM : PbufAlloc M} {E : NetEnv M} {U : IpUpper M} {IE : IfEnv M} `{HI : !IfClients}.
Abbreviation pst := (@pst M).
Abbreviation nst := (nst M).

(** C24: the address [autoip_create_addr] chooses lies between 169.254.1.0 and 169.254.254.255 (its
    assertion never fails); it depends on the hardware address and the number of
    addresses tried before only, and the 256 values of that number give 256
    different addresses. *)
Theorem autoip_create_addr_spec s live own n f x : ninv s live own → with_client s n f x →
  autoip_create_addr s n = Clean (candidate_addr f (tried_llipaddr x)) ∧
  AUTOIP_RANGE_START ≤ lwip_htonl (candidate_addr f (tried_llipaddr x)) ≤ AUTOIP_RANGE_END ∧
  ip4_addr_islinklocal (candidate_addr f (tried_llipaddr x)) = true ∧
  ∀ j k, is_u8 j → is_u8 k → candidate_addr f j = candidate_addr f k → j = k.
Proof.
  intros Hi Hwc. pose proof Hwc as [Hf _ Hx]. destruct (netif_ok_of _ _ _ _ _ Hi Hf) as [_ Hok].
  pose proof (co_types _ _ _ (ni_auto _ _ _ Hi) _ _ Hx) as Hxt. destruct (hw_seed_lor f Hok) as [_ Hm].
  assert (∀ k, is_u8 k → is_u32 (AUTOIP_RANGE_START + candidate (hw_seed f) k)) as Hr.
  { intros k Hk. pose proof (candidate_range _ _ Hm Hk). change AUTOIP_RANGE_START with 0xA9FE0100. unfold is_u32. lia. }
  split; [|split; [split|split]].
  - by apply create_addr_run.
  - unfold candidate_addr. rewrite lwip_htonl_involutive by by apply Hr, Hxt. pose proof (candidate_range _ _ Hm (ak_tried _ Hxt)). lia.
  - unfold candidate_addr. rewrite lwip_htonl_involutive by by apply Hr, Hxt. pose proof (candidate_range _ _ Hm (ak_tried _ Hxt)).
    change AUTOIP_RANGE_END with (AUTOIP_RANGE_START + 65023). lia.
  - by apply candidate_addr_ok, Hxt.
  - intros j k Hj Hk Heq. apply (candidate_inj (hw_seed f)); [done..|]. unfold candidate_addr in Heq. apply (f_equal lwip_htonl) in Heq.
    rewrite !lwip_htonl_involutive in Heq by by apply Hr. lia.
Qed.

(** [autoip_start] on an interface with a client.  An interface that is down gets ERR_ARG, and a client that
    is not off is left alone.  Otherwise the client is on the interface's list afterwards
    (once), and acd.c probes for it: the address it had, when that is link-local,
    else the next one of its sequence. *)
Theorem autoip_start_spec s live own n f x l : ninv s live own → with_client s n f x → nf_autoip f + AUTOIP_ACD ≠ NULL →
  nchain acd_next (acds s) (nf_acd_list f) l →
  ∃ r s', autoip_start s n = Clean (r, s') ∧ ninv s' live own ∧
    r = (if netif_is_up f then ERR_OK else ERR_ARG) ∧
    (netif_is_up f = false ∨ ai_state x ≠ AUTOIP_STATE_OFF → s' = s) ∧
    (netif_is_up f = true → ai_state x = AUTOIP_STATE_OFF →
       ∃ y, acds s !! (nf_autoip f + AUTOIP_ACD) = Some y ∧ checking s n f x y (probe_addr f x) l s').
Proof.
  intros Hi Hwc Hn Hl. pose proof Hwc as [Hf Hd Hx]. destruct (start_any s live own n f Hi Hf Hd Hn) as (r & s' & H & Hi' & _ & Hr & Hsame).
  exists r, s'. split_and!; [done..|by eapply Hsame|]. intros Hup Hoff. destruct (co_client _ _ _ (ni_auto _ _ _ Hi) n f Hf Hd) as [_ [y Hy]].
  destruct (autoip_start_run s live own n f x y l) as (s'' & H' & _ & Hck); try done. rewrite H in H'. injection H' as -> ->. by exists y.
Qed.

(** C22: a conflict makes the client take the next address.  When acd.c declines the
    address, the interface loses it if it had a link-local one; when acd.c
    then restarts the client (in between it changes its own struct only), the
    number of tries is one more, modulo 256, and the next address of the sequence is
    probed, on the same place of the list. *)
Theorem autoip_conflict_next s live own n f x l : ninv s live own → with_client s n f x → netif_is_up f = true →
  nchain acd_next (acds s) (nf_acd_list f) l → nf_autoip f + AUTOIP_ACD ∈ l →
  ∃ s1 y, autoip_conflict_callback s n ACD_DECLINE = Clean s1 ∧ netifs s1 = <[n := unassigned f]> (netifs s) ∧
    acds s1 = acds s ∧ acds s !! (nf_autoip f + AUTOIP_ACD) = Some y ∧
    ∀ z, acd_next z = acd_next y → acd_ok z → ∃ s2 live2 w,
      autoip_conflict_callback (put_acd s1 (nf_autoip f + AUTOIP_ACD) z) n ACD_RESTART_CLIENT = Clean s2 ∧ ninv s2 live2 own ∧
      netifs s2 = netifs s1 ∧ clients s2 n l ∧
      let k := u8 (tried_llipaddr x + 1) in
      autoips (ifst s2) !! nf_autoip f = Some (Autoip (candidate_addr f k) AUTOIP_STATE_CHECKING k) ∧
      acds s2 !! (nf_autoip f + AUTOIP_ACD) = Some (Acd (acd_next y) (candidate_addr f k) ACD_STATE_PROBE_WAIT 0 w 0 (acd_num_conflicts z) autoip_conflict_fn).
Proof.
  intros Hi Hwc Hup Hl Hin. pose proof Hwc as [Hf Hd Hx]. destruct (nchain_elem _ _ _ _ _ Hl Hin) as [Hn [y Hy]].
  destruct (ninv_ulist _ _ _ Hi) as [L HL]. destruct (ninv_rlist _ _ _ Hi) as [R HR].
  destruct (decline_run s live own n f x L R Hi Hwc HL HR) as (s1 & live1 & H1 & Hi1 & _ & [R1 _ _ R4 R5 _ _ _]).
  exists s1, y. split_and!; [done..|]. intros z Hz Hzok.
  set (a := nf_autoip f + AUTOIP_ACD) in *. assert (acds s1 !! a = Some y) as Hy1 by (rewrite R4; exact Hy).
  destruct (put_acd_ok s1 live1 own a y z Hi1 Hy1 Hz Hzok) as [Hi2 Hl2]. set (g := unassigned f).
  destruct (unassigned_rest f) as (G1 & G2 & G3 & G4). fold g in G1, G2, G3, G4.
  set (x1 := Autoip IPADDR_ANY AUTOIP_STATE_OFF (tried_llipaddr x)).
  assert (with_client (put_acd s1 a z) n g x1) as Hwc1.
  { split; [by change (netifs s1 !! n = Some g); rewrite R1, lookup_insert_eq|by rewrite G1|]. rewrite G1. cbn [ifst put_acd set_acds]. rewrite R5. apply lookup_insert_eq. }
  destruct (restart_client_run (put_acd s1 a z) live1 own n g x1 z l Hi2 Hwc1) as (s2 & H2 & Hi3 & Hck); rewrite ?G1; try done.
  { unfold netif_is_up. by rewrite G4. }
  { rewrite G2. apply (nchain_links _ (acds s)); [done|]. cbn [acds put_acd set_acds]. rewrite R4, fmap_insert. apply insert_id. by rewrite lookup_fmap, Hy, Hz. }
  { apply lookup_insert_eq. }
  assert (probe_addr g (tried_next x1) = candidate_addr f (u8 (tried_llipaddr x + 1))) as Hp.
  { unfold probe_addr, candidate_addr, hw_seed. by rewrite G3. }
  rewrite Hp in Hck. assert (nf_autoip g + AUTOIP_ACD = a) as Ga by (by rewrite G1).
  pose proof Hck as [K1 K2 (nx & w & K3 & _ & Knx) (h & K4 & Kh) _ _ _ _]. rewrite Ga in *. rewrite decide_True in K2 by done. rewrite Knx in K3 by done.
  exists s2, live1, w. split_and!; [done|done| |done|cbv zeta; split].
  - rewrite K4, Kh by done. cbn [netifs put_autoip set_autoips set_ifst put_acd set_acds]. apply insert_id. rewrite R1, lookup_insert_eq. f_equal. unfold g. generalize (unassigned f). by intros [].
  - rewrite K1, G1. apply lookup_insert_eq.
  - rewrite K3, lookup_insert_eq. by rewrite Hz.
Qed.

(** when no host objected, the interface gets the client's address with a 16 bit network
    and no gateway, the UDP and raw pcbs bound to its former address follow,
    and from then on the client reports the address as supplied by it and accepts
    exactly the packets for it. *)
Theorem autoip_bind_spec s live own n f x L R : ninv s live own → with_client s n f x → ip4_addr_islinklocal (llipaddr x) = true →
  ulist s L → rlist s R → ∃ s' live', autoip_conflict_callback s n ACD_IP_OK = Clean s' ∧ ninv s' live' own ∧
    netifs s' = <[n := configured f (llipaddr x) AUTOIP_NETMASK 0]> (netifs s) ∧
    ulist s' (upcbs_moved (nf_ip_addr f) (Some (llipaddr x)) L) ∧ rlist s' (rpcbs_moved (nf_ip_addr f) (Some (llipaddr x)) R) ∧
    autoip_supplied_address s' n = Clean true ∧ ∀ addr, autoip_accept_packet s' n addr = Clean (addr =? llipaddr x).
Proof.
  intros Hi Hwc Hl HL HR. pose proof Hwc as [Hf Hd Hx].
  destruct (autoip_bind_run s live own n f x L R Hi Hwc HL HR) as (s' & live' & H & Hi' & Hl' & [R1 R2 R3 R4 R5 R6 R7 _]).
  set (g := configured f _ _ _) in *. assert (netifs s' !! n = Some g) as Hg by (rewrite R1; apply lookup_insert_eq).
  assert (∀ addr, autoip_is_bound s' n addr = Clean (addr =? llipaddr x)) as Hb.
  { intros addr. rewrite (bound_run s' n g addr (ni_auto _ _ _ Hi') Hg). unfold autoip_bound. change (nf_autoip g) with (nf_autoip f).
    rewrite (proj2 (Z.eqb_neq _ NULL)) by done. rewrite R5. cbn [ifst autoips put_autoip set_autoips set_ifst]. rewrite lookup_insert_eq.
    cbn. by rewrite andb_true_r. }
  exists s', live'. split_and!; [|done..| |exact Hb].
  - unfold autoip_conflict_callback. rewrite (autoip_data_run s n f), bind_clean, H by done. by out_simp.
  - unfold autoip_supplied_address, get_netif. rewrite Hg. out_simp. rewrite Hb. by rewrite Z.eqb_refl.
Qed.

(** C39: [autoip_stop] takes a link-local address off the interface, but it does not stop the
    detection of conflicts: acd.c goes on as before, and when it succeeds the
    client that was stopped gives the address to the interface. *)
Theorem autoip_stop_still_binds s live own n f x : ninv s live own → with_client s n f x → ip4_addr_islinklocal (llipaddr x) = true →
  ∃ s1 s2 live2, autoip_stop s n = Clean (ERR_OK, s1) ∧ netifs s1 = <[n := unassigned f]> (netifs s) ∧ acds s1 = acds s ∧
    autoips (ifst s1) !! nf_autoip f = Some (set_ai_state x AUTOIP_STATE_OFF) ∧
    autoip_conflict_callback s1 n ACD_IP_OK = Clean s2 ∧ ninv s2 live2 own ∧
    nf_ip_addr <$> netifs s2 !! n = Some (llipaddr x) ∧
    autoips (ifst s2) !! nf_autoip f = Some (set_ai_state x AUTOIP_STATE_BOUND).
Proof.
  intros Hi Hwc Hl. pose proof Hwc as [Hf Hd Hx]. destruct (ninv_ulist _ _ _ Hi) as [L HL]. destruct (ninv_rlist _ _ _ Hi) as [R HR].
  destruct (stop_run s live own n f x L R Hi Hwc HL HR) as (s1 & live1 & H1 & Hi1 & _ & [R1 _ _ R4 R5 R6 R7 _]).
  destruct (unassigned_rest f) as [Ha _].
  assert (autoips (ifst s1) !! nf_autoip f = Some (set_ai_state x AUTOIP_STATE_OFF)) as Hx1 by (rewrite R5; apply lookup_insert_eq).
  assert (with_client s1 n (unassigned f) (set_ai_state x AUTOIP_STATE_OFF)) as Hwc1.
  { split; [by rewrite R1, lookup_insert_eq|by rewrite Ha|by rewrite Ha]. }
  destruct (autoip_bind_run s1 live1 own n _ _ _ _ Hi1 Hwc1 R6 R7) as (s2 & live2 & H2 & Hi2 & _ & [Q1 _ _ _ Q5 _ _ _]).
  exists s1, s2, live2. split_and!; [done..| |done| |].
  - unfold autoip_conflict_callback. rewrite (autoip_data_run s1 n _ (wc_netif _ _ _ _ Hwc1)), bind_clean, H2. by out_simp.
  - rewrite Q1, lookup_insert_eq. done.
  - rewrite Q5, Ha. apply lookup_insert_eq.
Qed.
(** C21: AutoIP does what acd.c asks of its clients ([AcdClients]).  The conflict callback of a
    client whose struct is on the list of its interface returns for each of the three outcomes,
    whatever the state of the client and of the interface, keeps the state well formed and
    leaves the lists of interfaces and clients linked as they are. *)
Theorem autoip_callback_safe s live own n f x st : ninv s live own → with_client s n f x →
  on_list s n (nf_autoip f + AUTOIP_ACD) → safe own s (autoip_conflict_callback s n st).
Proof.
  intros Hi Hwc (f' & l & Hf' & Hc & Hin). pose proof Hwc as [Hf Hd Hx]. rewrite Hf in Hf'. injection Hf' as <-.
  destruct (co_client _ _ _ (ni_auto _ _ _ Hi) n f Hf Hd) as [_ [y Hy]].
  destruct (ninv_ulist _ _ _ Hi) as [L HL]. destruct (ninv_rlist _ _ _ Hi) as [R HR]. destruct st.
  - destruct (autoip_bind_run s live own n f x L R Hi Hwc HL HR) as (s' & live' & H & Hi' & Hl & _). exists s', live'. split_and!; [|done..].
    unfold autoip_conflict_callback. rewrite (autoip_data_run s n f Hf), bind_clean, H. by out_simp.
  - by eapply restart_safe.
  - destruct (decline_run s live own n f x L R Hi Hwc HL HR) as (s' & live' & H & Hi' & Hl & _). by exists s', live'.
Qed.

(** *** Acquiring an address *)

(** [autoip_conflict_fn], which [autoip_start] registers, points to [autoip_conflict_callback]. *)
Class AutoipLinked : Prop := autoip_linked s n f x : with_client s n f x → ip4_addr_islinklocal (llipaddr x) = true →
  conflict_callback autoip_conflict_fn s n ACD_IP_OK = autoip_conflict_callback s n ACD_IP_OK.

(** After the start the client is alone on the only interface. *)
Lemma checking_ready s live own n f x y addr l s' : netif_list s = n → nf_next f = NULL → l ⊆ [nf_autoip f + AUTOIP_ACD] →
  NoDup l → nf_autoip f + AUTOIP_ACD ≠ NULL → ninv s' live own → checking s n f x y addr l s' →
  ∃ w, 0 ≤ w ≤ 9 ∧ let a := nf_autoip f + AUTOIP_ACD in
    let g := set_nf_acd_list f a in let z := Acd NULL addr ACD_STATE_PROBE_WAIT 0 w 0 (acd_num_conflicts y) autoip_conflict_fn in
    ready (ifst s') live own n g a s' z ∧ lone g a z.
Proof.
  intros Hh Hnx Hsub Hnd Ha Hi' Hck. pose proof Hck as [_ K2 (nx & w & K3 & Hw & _) (h & K4 & _) _ _ [K5 _] _].
  set (a := nf_autoip f + AUTOIP_ACD) in *.
  assert ((if decide (a ∈ l) then l else a :: l) = [a]) as Hl.
  { destruct l as [|b l]; [done|]. assert (b = a) as -> by (apply list_elem_of_singleton, Hsub; left).
    destruct l as [|c l]; [by rewrite decide_True by left|]. exfalso. assert (c = a) as -> by (apply list_elem_of_singleton, Hsub; right; left).
    apply NoDup_cons in Hnd as [Hnd _]. apply Hnd. left. }
  rewrite Hl in K2. destruct K2 as (g & Hg & Hc). rewrite K4, lookup_insert_eq in Hg. injection Hg as <-.
  inversion Hc as [|? z0 ? _ Hz Hc']; subst. cbn [nf_acd_list set_nf_acd_list] in *. rewrite K3, lookup_insert_eq in Hz. injection Hz as <-.
  inversion Hc' as [Hnull|]; subst. cbn [acd_next] in Hnull. subst nx. exists w. split; [done|]. cbv zeta. split; [split|]; try done.
  - by rewrite K4, lookup_insert_eq.
  - by rewrite K3, lookup_insert_eq.
Qed.

(** C17: AutoIP gets an address.  On the only interface, which is up, [autoip_start] is called
    with a client that is off; no other host uses the address.  Then, after 61 to 87 ticks of
    [acd_tmr] of 100 ms, and not before, the interface has the address the client
    chose, with a 16 bit network, and the client reports it as supplied;
    before that three probes and two announcements for the address were
    handed to the driver. *)
Theorem autoip_acquires s live own n f x l `{HC : !AcdClients} `{HL : !AutoipLinked} : ninv s live own → with_client s n f x →
  netif_list s = n → nf_next f = NULL → netif_is_up f = true → ai_state x = AUTOIP_STATE_OFF →
  nf_autoip f + AUTOIP_ACD ≠ NULL → nchain acd_next (acds s) (nf_acd_list f) l → l ⊆ [nf_autoip f + AUTOIP_ACD] →
  let ip := probe_addr f x in
  ∃ s0 N sw s1 s2 live2, autoip_start s n = Clean (ERR_OK, s0) ∧ (61 ≤ N ≤ 87)%nat ∧
    acd_ticks (N - 1) s0 = Clean sw ∧ nf_ip_addr <$> netifs sw !! n = Some (nf_ip_addr f) ∧
    ai_state <$> autoips (ifst sw) !! nf_autoip f = Some AUTOIP_STATE_CHECKING ∧
    attempts s0 s1 [probe_frame f ip; probe_frame f ip; probe_frame f ip; announce_frame f ip; announce_frame f ip] ∧
    autoip_conflict_callback s1 n ACD_IP_OK = Clean s2 ∧ acd_ticks N s0 = Clean s2 ∧ ninv s2 live2 own ∧
    (∃ g, netifs s2 !! n = Some g ∧ nf_ip_addr g = ip ∧ nf_netmask g = AUTOIP_NETMASK ∧ nf_gw g = 0) ∧
    autoip_supplied_address s2 n = Clean true.
Proof.
  intros Hi Hwc Hh Hnx Hup Hoff Ha Hl Hsub ip. pose proof Hwc as [Hf Hd Hx]. destruct (co_client _ _ _ (ni_auto _ _ _ Hi) n f Hf Hd) as [_ [y Hy]].
  destruct (autoip_start_run s live own n f x y l Hi Hwc Hup Hoff Hl Hy Ha) as (s0 & H0 & Hi0 & Hck).
  destruct (checking_ready s live own n f x y ip l s0 Hh Hnx Hsub (nchain_NoDup _ _ _ _ Hl) Ha Hi0 Hck) as (w & Hw & Hr & Hlo).
  destruct (schedule_run _ _ _ _ _ _ _ _ Hr Hlo) as (N & sw & w' & s1 & y1 & s2 & HN & Htw & Rw & _ & R1 & _ & _ & Hatt & Hcb & Ht2); [done..|].
  set (x1 := Autoip ip AUTOIP_STATE_CHECKING (tried_llipaddr x)).
  assert (autoips (ifst s0) !! nf_autoip f = Some x1) as Hx0 by (rewrite (ck_autoips _ _ _ _ _ _ _ _ Hck); apply lookup_insert_eq).
  set (g := set_nf_acd_list f _) in *.
  assert (with_client s1 n g x1) as Hw1 by (split; [apply R1|done|by rewrite (rd_ifst _ _ _ _ _ _ _ _ R1)]).
  destruct (netif_ok_of _ _ _ _ _ Hi Hf) as [_ Hok]. destruct (probe_addr_ok f x Hok (co_types _ _ _ (ni_auto _ _ _ Hi) _ _ Hx)) as [Hll _].
  pose proof (rd_inv _ _ _ _ _ _ _ _ R1) as Hi1. destruct (ninv_ulist _ _ _ Hi1) as [L HUl]. destruct (ninv_rlist _ _ _ Hi1) as [R HRl].
  cbn [acd_conflict_callback] in Hcb. rewrite (HL s1 n g x1 Hw1 Hll) in Hcb.
  destruct (autoip_bind_run s1 live own n g x1 L R Hi1 Hw1 HUl HRl) as (s2' & live2 & Hb & Hi2 & _ & [Q1 _ _ _ Q5 _ _ _]).
  assert (s2' = s2) as ->.
  { unfold autoip_conflict_callback in Hcb. rewrite (autoip_data_run s1 n g (wc_netif _ _ _ _ Hw1)), bind_clean, Hb, bind_clean in Hcb. by injection Hcb. }
  set (g2 := configured g _ _ _) in *. assert (netifs s2 !! n = Some g2) as Hg2 by (rewrite Q1; apply lookup_insert_eq).
  exists s0, N, sw, s1, s2, live2. split; [done|]. split; [exact HN|]. split; [done|]. split; [by rewrite (rd_netif _ _ _ _ _ _ _ _ Rw)|].
  split; [by rewrite (rd_ifst _ _ _ _ _ _ _ _ Rw), Hx0|]. split_and!; [done..|by exists g2|].
  unfold autoip_supplied_address, get_netif. rewrite Hg2. out_simp. rewrite (bound_run s2 n g2 _ (ni_auto _ _ _ Hi2) Hg2). unfold autoip_bound.
  change (nf_autoip g2) with (nf_autoip f). rewrite (proj2 (Z.eqb_neq _ NULL)) by done. rewrite Q5. change (nf_autoip g) with (nf_autoip f).
  cbn [ifst autoips put_autoip set_autoips set_ifst]. rewrite lookup_insert_eq. cbn [llipaddr ai_state set_ai_state x1].
  change (nf_ip_addr g2) with ip. by rewrite Z.eqb_refl.
Qed.
End AutoipSpec.

(** ** Witnesses *)

(** The small network with a client in state [x] whose conflict detection struct is on the interface's list. *)
Definition ex_client : Z := 50992.
Definition ex_netif_auto : netif := set_nf_autoip ex_netif_acd ex_client.
Definition ex_net_auto (x : autoip) : nst ex_M := put_netif (put_autoip ex_net_acd ex_client x) ex_nif ex_netif_auto.

Lemma ex_net_auto_ok x : autoip_ok x → ninv (ex_net_auto x) ∅ own0.
Proof. intros Hx. apply (attach_ok ex_net_acd ∅ own0 ex_nif ex_netif_acd ex_client x ex_net_acd_ok); [reflexivity|eexists; reflexivity|done]. Qed.

Lemma ex_with_client x : with_client (ex_net_auto x) ex_nif ex_netif_auto x.
Proof. split; [apply lookup_insert_eq|discriminate|apply lookup_insert_eq]. Qed.

Lemma ex_auto_list x : nchain acd_next (acds (ex_net_auto x)) (nf_acd_list ex_netif_auto) [ex_acd].
Proof. econstructor; [discriminate|reflexivity|constructor]. Qed.

Lemma ex_pcbs_none x : ulist (ex_net_auto x) [] ∧ rlist (ex_net_auto x) [].
Proof. split; constructor. Qed.

(** 169.254.5.7 *)
Definition ex_linklocal : Z := 0x0705fea9.
Definition ex_off : autoip := Autoip 0 AUTOIP_STATE_OFF 0.
Definition ex_probing : autoip := Autoip ex_linklocal AUTOIP_STATE_CHECKING 3.

Lemma ex_off_ok : autoip_ok ex_off.
Proof. split; [split; reflexivity || discriminate..|left; reflexivity]. Qed.
Lemma ex_probing_ok : autoip_ok ex_probing.
Proof. split; [split; reflexivity || discriminate..|right; reflexivity]. Qed.

(** With the hardware address 52:54:00:12:34:56 the first address is 169.254.87.52. *)
Lemma autoip_create_addr_spec_witness : autoip_create_addr (ex_net_auto ex_off) ex_nif = Clean 0x3457fea9.
Proof.
  destruct (autoip_create_addr_spec (ex_net_auto ex_off) ∅ own0 ex_nif ex_netif_auto ex_off (ex_net_auto_ok _ ex_off_ok) (ex_with_client _)) as [H _].
  exact H.
Defined.

Lemma autoip_start_spec_witness : ∃ s', autoip_start (ex_net_auto ex_off) ex_nif = Clean (ERR_OK, s') ∧
  ∃ y, checking (ex_net_auto ex_off) ex_nif ex_netif_auto ex_off y 0x3457fea9 [ex_acd] s'.
Proof.
  destruct (autoip_start_spec (ex_net_auto ex_off) ∅ own0 ex_nif ex_netif_auto ex_off [ex_acd] (ex_net_auto_ok _ ex_off_ok) (ex_with_client _))
    as (r & s' & H & _ & Hr & _ & Hck).
  - discriminate.
  - apply ex_auto_list.
  - exists s'. subst r. split; [exact H|]. destruct (Hck eq_refl eq_refl) as (y & _ & Hy). exists y. exact Hy.
Defined.

Lemma autoip_conflict_next_witness : ∃ s1, autoip_conflict_callback (ex_net_auto ex_probing) ex_nif ACD_DECLINE = Clean s1 ∧
  ∃ s2, autoip_conflict_callback (put_acd s1 ex_acd ex_acd_struct) ex_nif ACD_RESTART_CLIENT = Clean s2 ∧
    autoips (ifst s2) !! ex_client = Some (Autoip 0x3857fea9 AUTOIP_STATE_CHECKING 4).
Proof.
  destruct (autoip_conflict_next (ex_net_auto ex_probing) ∅ own0 ex_nif ex_netif_auto ex_probing [ex_acd] (ex_net_auto_ok _ ex_probing_ok) (ex_with_client _))
    as (s1 & y & H1 & _ & _ & Hy & H).
  - reflexivity.
  - apply ex_auto_list.
  - left.
  - assert (Some y = Some ex_acd_struct) as [= ->] by (rewrite <- Hy; reflexivity). exists s1. split; [exact H1|].
    destruct (H ex_acd_struct) as (s2 & live2 & w & H2 & _ & _ & _ & H3 & _); [reflexivity|split; split; reflexivity || discriminate|].
    exists s2. split; [exact H2|exact H3].
Defined.

Lemma autoip_bind_spec_witness : ∃ s', autoip_conflict_callback (ex_net_auto ex_probing) ex_nif ACD_IP_OK = Clean s' ∧
  autoip_supplied_address s' ex_nif = Clean true.
Proof.
  destruct (autoip_bind_spec (ex_net_auto ex_probing) ∅ own0 ex_nif ex_netif_auto ex_probing [] [] (ex_net_auto_ok _ ex_probing_ok) (ex_with_client _))
    as (s' & live' & H & _ & _ & _ & _ & H2 & _).
  - reflexivity.
  - apply ex_pcbs_none.
  - apply ex_pcbs_none.
  - exists s'. split; [exact H|exact H2].
Defined.

Lemma autoip_stop_still_binds_witness : ∃ s1 s2, autoip_stop (ex_net_auto ex_probing) ex_nif = Clean (ERR_OK, s1) ∧
  autoip_conflict_callback s1 ex_nif ACD_IP_OK = Clean s2 ∧ nf_ip_addr <$> netifs s2 !! ex_nif = Some ex_linklocal.
Proof.
  destruct (autoip_stop_still_binds (ex_net_auto ex_probing) ∅ own0 ex_nif ex_netif_auto ex_probing (ex_net_auto_ok _ ex_probing_ok) (ex_with_client _))
    as (s1 & s2 & live2 & H1 & _ & _ & _ & H2 & _ & H3 & _).
  - reflexivity.
  - exists s1, s2. split; [exact H1|]. split; [exact H2|exact H3].
Defined.

Lemma ex_auto_on_list x : on_list (ex_net_auto x) ex_nif (nf_autoip ex_netif_auto + AUTOIP_ACD).
Proof. exists ex_netif_auto, [ex_acd]. split; [apply ex_with_client with (x := x)|]. split; [apply ex_auto_list|left]. Qed.

Lemma autoip_callback_safe_witness :
  safe own0 (ex_net_auto ex_probing) (autoip_conflict_callback (ex_net_auto ex_probing) ex_nif ACD_IP_OK) ∧
  safe own0 (ex_net_auto ex_probing) (autoip_conflict_callback (ex_net_auto ex_probing) ex_nif ACD_DECLINE) ∧
  safe own0 (ex_net_auto ex_off) (autoip_conflict_callback (ex_net_auto ex_off) ex_nif ACD_RESTART_CLIENT).
Proof.
  split; [|split].
  - exact (autoip_callback_safe (ex_net_auto ex_probing) ∅ own0 ex_nif ex_netif_auto ex_probing ACD_IP_OK (ex_net_auto_ok _ ex_probing_ok) (ex_with_client _) (ex_auto_on_list _)).
  - exact (autoip_callback_safe (ex_net_auto ex_probing) ∅ own0 ex_nif ex_netif_auto ex_probing ACD_DECLINE (ex_net_auto_ok _ ex_probing_ok) (ex_with_client _) (ex_auto_on_list _)).
  - exact (autoip_callback_safe (ex_net_auto ex_off) ∅ own0 ex_nif ex_netif_auto ex_off ACD_RESTART_CLIENT (ex_net_auto_ok _ ex_off_ok) (ex_with_client _) (ex_auto_on_list _)).
Defined.

(** *** A network whose conflict callback is that of AutoIP *)

(** The callback of the example network, when the client's address is good, is that of AutoIP; the
    other outcomes do not occur. *)
Definition ex_auto_callback (fn : Z) (s : nst ex_M) (n : Z) (st : acd_callback_enum) : out (nst ex_M) :=
  match netifs s !! n with
  | Some f =>
      match autoips (ifst s) !! nf_autoip f with
      | Some x =>
          if bool_decide (st = ACD_IP_OK) && negb (nf_autoip f =? NULL) && ip4_addr_islinklocal (llipaddr x)
          then autoip_conflict_callback s n ACD_IP_OK else mret s
      | None => mret s
      end
  | None => mret s
  end.

Definition ex_auto_env : NetEnv ex_M := {|
  env_custom_free := ex_cff;
  mac_send_buffer := 100000;
  rand := λ r, (r, r + 1);
  conflict_callback := ex_auto_callback |}.

(** Only the address of the driver's buffer matters to the invariant. *)
Lemma ninv_env {M : Type} `{PM : PbufAlloc M} (E1 E2 : NetEnv M) (s : nst M) live own : mac_send_buffer (NetEnv := E1) = mac_send_buffer (NetEnv := E2) →
  ninv (E := E1) s live own → ninv (E := E2) s live own.
Proof. intros Hm [I1 I2 [P1 P2 P3 P4] I4 I5 I6 I7 I8 I9]. split; try done. split; try done; by rewrite <- Hm. Qed.

Lemma bind_ext {A B} (m : out A) (f g : A → out B) : (∀ a, f a = g a) → m ≫= f = m ≫= g.
Proof. intros H. destruct m as [a l| |]; [|done..]. unfold mbind, out_bind. by rewrite H. Qed.

Section EnvIrrelevant.
Context {M : Type} `{PM : PbufAlloc M} {IE : IfEnv M} (E1 E2 : NetEnv M).

Lemma acd_foreach_ext b1 b2 : (∀ (s : nst M) a, b1 s a = b2 s a) → ∀ fuel s a, acd_foreach fuel s a b1 = acd_foreach fuel s a b2.
Proof.
  intros Hb. induction fuel as [|fuel IH]; intros s a; cbn [acd_foreach]; [done|]. destruct (a =? NULL); [done|]. rewrite Hb.
  apply bind_ext. intros s1. apply bind_ext. intros x. apply IH.
Qed.

Lemma addr_changed_env (s : nst M) n old new : ip4_addr_islinklocal new = true →
  acd_netif_ip_addr_changed (E := E1) s n old new = acd_netif_ip_addr_changed (E := E2) s n old new.
Proof.
  intros Hl. unfold acd_netif_ip_addr_changed. case_match; [done|]. apply bind_ext. intros f. apply acd_foreach_ext. intros s1 a.
  apply bind_ext. intros x. by rewrite Hl, andb_false_r.
Qed.

Lemma set_ipaddr_env (s : nst M) n ip : ip4_addr_islinklocal ip = true →
  netif_do_set_ipaddr (E := E1) s n ip = netif_do_set_ipaddr (E := E2) s n ip.
Proof.
  intros Hl. unfold netif_do_set_ipaddr. apply bind_ext. intros f. destruct (negb _); [|done]. apply bind_ext. intros s1.
  by rewrite (addr_changed_env _ _ _ _ Hl).
Qed.

Lemma autoip_bind_env (s : nst M) n f x : with_client s n f x → ip4_addr_islinklocal (llipaddr x) = true →
  autoip_conflict_callback (E := E1) s n ACD_IP_OK = autoip_conflict_callback (E := E2) s n ACD_IP_OK.
Proof.
  intros Hwc Hl. pose proof Hwc as [Hf Hd Hx]. unfold autoip_conflict_callback, autoip_bind. rewrite (autoip_data_run s n f), !bind_clean by done.
  rewrite (upd_autoip_run _ _ x), !bind_clean by done. set (s1 := put_autoip s _ _). rewrite (get_autoip_run s1 _ _ (lookup_insert_eq _ _ _)), !bind_clean.
  change (llipaddr (set_ai_state x AUTOIP_STATE_BOUND)) with (llipaddr x). unfold netif_set_addr. cbn [default from_option id].
  destruct (ip4_addr_isany (llipaddr x)) eqn:Hany.
  - exfalso. unfold ip4_addr_isany in Hany. apply Z.eqb_eq in Hany. by rewrite Hany in Hl.
  - cbn [negb]. rewrite !bind_ret_l. f_equal. f_equal. apply bind_ext. intros [r2 s2]. apply bind_ext. intros [r3 s3]. by rewrite (set_ipaddr_env _ _ _ Hl).
Qed.
End EnvIrrelevant.

#[export] Instance ex_auto_if_clients : IfClients (M := ex_M) (E := ex_auto_env).
Proof. split; try done; intros; (eexists _, _; split_and!; try done; first [eassumption|apply same_links_refl]). Qed.

Lemma ex_auto_linked : AutoipLinked (M := ex_M) (E := ex_auto_env).
Proof.
  intros s n f x Hwc Hl. pose proof Hwc as [Hf Hd Hx]. rewrite <- (autoip_bind_env ex_env ex_auto_env s n f x Hwc Hl).
  cbn [conflict_callback ex_auto_env]. unfold ex_auto_callback. rewrite Hf, Hx, bool_decide_eq_true_2, (proj2 (Z.eqb_neq _ NULL)), Hl by done. done.
Qed.

Lemma ex_auto_acd_clients : AcdClients (M := ex_M) (E := ex_auto_env).
Proof.
  intros s live own n a y st Hi Hon Hy. pose proof (on_list_netif _ _ _ Hon) as Hn. cbn [conflict_callback ex_auto_env]. unfold ex_auto_callback.
  destruct (netifs s !! n) as [f|] eqn:Hf; [|by eapply safe_ret]. destruct (autoips (ifst s) !! nf_autoip f) as [x|] eqn:Hx; [|by eapply safe_ret].
  destruct (bool_decide (st = ACD_IP_OK) && negb (nf_autoip f =? NULL) && ip4_addr_islinklocal (llipaddr x)) eqn:Hb; [|by eapply safe_ret].
  apply andb_prop in Hb as [[_ Hd%negb_true_iff%Z.eqb_neq]%andb_prop Hl]. apply (ninv_env ex_auto_env ex_env) in Hi; [|done].
  destruct (ninv_ulist _ _ _ Hi) as [L HL]. destruct (ninv_rlist _ _ _ Hi) as [R HR].
  assert (with_client s n f x) as Hwc by by split.
  destruct (autoip_bind_run (E := ex_env) s live own n f x L R Hi Hwc HL HR) as (s' & live' & H & Hi' & Hl' & _).
  exists s', live'. split_and!; [|by apply (ninv_env ex_env ex_auto_env)|done].
  unfold autoip_conflict_callback. rewrite (autoip_data_run s n f Hf), bind_clean, H. by out_simp.
Qed.

Lemma autoip_acquires_witness : ∃ s0 N s2, autoip_start (E := ex_auto_env) (ex_net_auto ex_off) ex_nif = Clean (ERR_OK, s0) ∧
  (61 ≤ N ≤ 87)%nat ∧ acd_ticks (E := ex_auto_env) N s0 = Clean s2 ∧ nf_ip_addr <$> netifs s2 !! ex_nif = Some 0x3457fea9.
Proof.
  destruct (autoip_acquires (E := ex_auto_env) (HC := ex_auto_acd_clients) (HL := ex_auto_linked) (ex_net_auto ex_off) ∅ own0 ex_nif ex_netif_auto ex_off [ex_acd])
    as (s0 & N & sw & s1 & s2 & live2 & H0 & HN & _ & _ & _ & _ & _ & H2 & _ & (g & Hg & Hip & _) & _).
  - apply (ninv_env ex_env ex_auto_env); [reflexivity|]. exact (ex_net_auto_ok _ ex_off_ok).
  - apply ex_with_client.
  - reflexivity.
  - reflexivity.
  - reflexivity.
  - reflexivity.
  - discriminate.
  - apply ex_auto_list.
  - intros b Hb. exact Hb.
  - exists s0, N, s2. split; [exact H0|]. split; [exact HN|]. split; [exact H2|]. rewrite Hg. cbn. rewrite Hip. reflexivity.
Defined.
