(* ===== verification/UdpSpec.v ===== *)
(** * UDP and raw pcbs

    What the calls on pcbs do, who receives a datagram, what is sent, and that a datagram arrives as it
    was sent. *)
From S2P Require Import Prelude Def Chksum Stats Iface Ip4Addr Mem Memp Alloc Pbuf PbufChain PbufClient PbufData PbufClone Pcb Netif NetInv Links EthOut Region Acd Autoip Etharp EtharpInv EtharpTmr EtharpRes EtharpQuery EtharpOut EtharpIn EthIn Ip4Out Ip4OutInv Icmp Udp Raw UdpInv UdpOps UdpApi UdpIn IcmpInv IcmpEcho IcmpIn Received UdpInput UdpOut RawInv RawApi RawInput RawOut Ip4 Ip4Inv NetEx EthSpec IpSpec.

Section Spec.
Context {M : Type} `{PM : PbufAlloc M} {E : NetEnv M} {U : IpUpper M} `{HF : !FragOk}.
Abbreviation pst := (@pst M).
Abbreviation nst := (nst M).

(** A datagram with the header [udp_data_hdr] in front of its data. *)
Lemma udp_data_taken s live own p b l H n d L x dport P pcb y : ninv s live own → 0 < own p → received s p 0 b l → current_hdr s p b H →
  UDP_HLEN ≤ len b → bytes P → udp_pcb_ok x → is_u16 dport →
  content (data (pb s)) ((p, b) :: l) = Some <$> udp_data x (dg_src d) (dg_dest d) dport P → is_datagram s n (udp_data x (dg_src d) (dg_dest d) dport P) d →
  ulist s L → chosen_pcb d L = Some (pcb, y) → u_recv y ≠ NULL →
  dg_sport d = u_local_port x ∧ dg_dport d = dport ∧
  ∃ s1, udp_input s p n = udp_recv_fn (u_recv y) s1 (u_recv_arg y) pcb p (dg_src d) (u_local_port x) ∧
    pbufs (pb s1) !! p = Some (shrink_front b UDP_HLEN) ∧ content (data (pb s1)) ((p, shrink_front b UDP_HLEN) :: l) = Some <$> P.
Proof.
  intros Hi Hp Hrv Hcur Hlen HPB Hx Hdp HP Hd HL Hch Hy. pose proof Hd as ([D1 D2 D3 D4] & Hsp & Hdpt & _).
  assert (is_u32 (dg_src d) ∧ is_u32 (dg_dest d)) as [Hsu Hdu] by (rewrite <- D3, <- D4; split; apply Hcur).
  destruct (udp_data_fields x (dg_src d) (dg_dest d) dport P Hx Hdp HPB Hsu Hdu) as (E1 & E2 & Hok & Hdrop). rewrite E1 in Hsp. rewrite E2 in Hdpt.
  split; [done|]. split; [done|].
  destruct (input_run s live own p b l H _ n d L Hi Hp Hrv Hcur HP Hd HL) as [[Hshort _]|(_ & s1 & Hfound & Hf)]; [lia|].
  assert (ninv (UDP_STATS_INC Recv s) live own) as Hi0 by (by apply ninv_udp_stat).
  destruct (found_facts _ _ _ _ _ _ Hfound Hi0) as (Hi1 & Hpb & _).
  assert (received s1 p 0 b l) as Hrv1 by (destruct Hrv; split; rewrite ?Hpb; done).
  destruct Hf as [Hno|_ Hbad|q z Hch' _ Hz Hrun|q z Hch' _ Hz|Hno|nl s0 s2 live2 Hno]; rewrite ?Hch in *; try congruence; try done.
  injection Hch' as <- <-. exists (stripped s1 p b UDP_HLEN). split; [by rewrite <- Hsp|]. split; [apply lookup_insert_eq|].
  destruct (stripped_run s1 live own p b l 0 (udp_data x (dg_src d) (dg_dest d) dport P) Hi1 Hrv1) as (_ & _ & _ & Hc); [exact Hlen|by rewrite Hpb|].
  by rewrite Hdrop in Hc.
Qed.

(** C12: A datagram that a sender has built is accepted by the receiver.  In the state [t] of the sender
    [udp_header_room] makes room in front of the data [P] of the packet [p0], as [udp_sendto_if_src] does first, and [udp_fill_hdr] fills
    the header in for the pcb [sp].  When the bytes [D] that are then in the packet arrive at a host,
    from [src] for [dst], its [udp_input] gives them to the pcb its search chooses for the sender's port and [dport], behind the header
    and with the checksum accepted: the client gets [P]. *)
Theorem udp_roundtrip t livet ownt sp x p0 b0 l0 P src dst dport q t1 : ninv t livet ownt → upcbs (udps t) !! sp = Some x → 0 < ownt p0 →
  sendable t p0 b0 ((p0, b0) :: l0) → ref b0 = 1 → content (data (pb t)) ((p0, b0) :: l0) = Some <$> P → tot_len b0 + UDP_HLEN < 65536 →
  is_u32 src → is_u32 dst → is_u16 dport → udp_header_room t p0 = Clean (q, t1) → q ≠ NULL →
  ∃ t2 c lq, udp_fill_hdr t1 sp q dst dport src = Clean t2 ∧ chained (pbufs (pb t2)) q ((q, c) :: lq) ∧
    ∀ D, content (data (pb t2)) ((q, c) :: lq) = Some <$> D → ∀ s live own p b l H n d L pcb y,
      ninv s live own → 0 < own p → received s p 0 b l → current_hdr s p b H → UDP_HLEN ≤ len b → content (data (pb s)) ((p, b) :: l) = Some <$> D →
      is_datagram s n D d → dg_src d = src → dg_dest d = dst → ulist s L → chosen_pcb d L = Some (pcb, y) → u_recv y ≠ NULL →
      dg_sport d = u_local_port x ∧ dg_dport d = dport ∧
      ∃ s1, udp_input s p n = udp_recv_fn (u_recv y) s1 (u_recv_arg y) pcb p src (u_local_port x) ∧
        pbufs (pb s1) !! p = Some (shrink_front b UDP_HLEN) ∧ content (data (pb s1)) ((p, shrink_front b UDP_HLEN) :: l) = Some <$> P.
Proof.
  intros Hi Hx Hp Hs Hr HP Ht Hsu Hdu Hdp Hroom Hq.
  destruct (room_run t livet ownt p0 b0 l0 P Hi Hp Hs Hr HP Ht) as (q' & t1' & Hrun & Hcase). rewrite Hroom in Hrun. injection Hrun as <- <-.
  destruct Hcase as [[? _]|[_ Ht1 _ (live1 & c & lq & J & Hi1 & Hsq & _ & Hlc & Hfo & HJ & Hc & _)]]; [done|].
  assert (upcbs (udps t1) !! sp = Some x) as Hx1 by (by rewrite Ht1).
  destruct (udp_fill_run t1 live1 _ sp x q c lq J P dst dport src Hi1 Hx1 Hsq Hlc Hfo Hc HJ Hdu Hsu) as (Hfill & _ & HD).
  eexists _, c, lq. split; [exact Hfill|]. split; [exact (sd_chain _ _ _ _ Hsq)|]. intros D HD' s live own p b l H n d L pcb y Hi2 Hp2 Hrv Hcur Hlb Hcb Hd <- <- HL Hch Hy.
  rewrite HD in HD'. apply (inj (fmap Some)) in HD'. subst D.
  assert (bytes P) as HPB by (pose proof (content_bytes _ _ _ (mo_bytes _ (ni_mem _ _ _ Hi1)) Hc) as HB; by apply Forall_app in HB as [_ HB]).
  apply (udp_data_taken s live own p b l H n d L x dport P pcb y); try done. by apply (upcb_ok _ _ _ _ _ Hi Hx).
Qed.

(** C11: [udp_sendto] sends the data behind a UDP header and an IP header, from the port of the pcb, which it binds
    first where needed; the interface is that of the pcb or of the route, the
    source address that of the pcb or of the interface.  It fails without a route, for a pcb bound to another address,
    without room and without memory.  The packet stays with the caller.  [udp_send] does the same to the remote end. *)
Theorem udp_sendto_spec s live own pcb x L p b l P dst dport nl : ninv s live own → ulist s L → upcbs (udps s) !! pcb = Some x →
  nchain nf_next (netifs s) (netif_list s) nl → 0 < own p → sendable s p b ((p, b) :: l) → ref b = 1 →
  content (data (pb s)) ((p, b) :: l) = Some <$> P → is_u32 dst →
  ∃ n r s' live', udp_sendto s pcb p (Some dst) dport = Clean (r, s') ∧ ninv s' live' own ∧ pcb_route s (u_ip x) dst nl n ∧
    udp_sendto_result s pcb x p b P n dst dport r s' ∧
    (dst = remote_ip (u_ip x) → dport = u_remote_port x → udp_send s pcb p = Clean (r, s')).
Proof.
  intros Hi HL Hx Hnl Hp Hs Hr HP Hds. destruct (sendto_run s live own pcb x L p b l P dst dport nl Hi HL Hx Hnl Hp Hs Hr HP Hds)
    as (n & r & s' & live' & H1 & H2 & _ & H3 & H4). exists n, r, s', live'. split_and!; try done. intros -> ->. rewrite <- H1.
  unfold udp_send. destruct (upcb_ok _ _ _ _ _ Hi Hx) as [Hpcb _]. assert (p ≠ NULL) as Hpn.
  { intros ->. pose proof (inv_null _ _ _ (ni_pb _ _ _ Hi)) as Hz. by rewrite (sd_head _ _ _ _ Hs) in Hz. }
  rewrite (proj2 (Z.eqb_neq pcb NULL)), (proj2 (Z.eqb_neq p NULL)) by done. cbn [orb]. by rewrite (get_upcb_run s pcb x Hx), bind_clean.
Qed.

(** [udp_bind] refuses a port whose local end overlaps that of another pcb, unless both allow it with
    [SOF_REUSEADDR]; otherwise the pcb has the local end it asks for, or a port of the dynamic range that no pcb has,
    and is on the list. *)
Theorem udp_bind_spec s live own pcb x ip port L : ninv s live own → ulist s L → upcbs (udps s) !! pcb = Some x → is_u32 ip → is_u16 port →
  ∃ r s' L', udp_bind s pcb (Some ip) port = Clean (r, s') ∧ bind_result s pcb x ip port L r s' L' ∧ ninv s' live own ∧ ulist s' L' ∧
    (r = ERR_OK → ∃ x', (pcb, x') ∈ L' ∧ local_ip (u_ip x') = ip ∧ (port ≠ 0 → u_local_port x' = port)).
Proof.
  intros Hi HL Hx Hip Hport. destruct (bind_run s live own pcb x ip port L Hi HL Hx Hip Hport) as (r & s' & L' & H1 & H2 & H3 & H4).
  exists r, s', L'. split_and!; try done. intros Hr.
  assert (∀ (s0 : nst) y, ∃ x', (pcb, x') ∈ stored_list s0 pcb y L ∧ u_ip x' = u_ip y ∧ u_local_port x' = u_local_port y) as Hst.
  { intros s0 y. unfold stored_list. case_decide as Hin; [|by eexists; split; [left|]].
    exists y. split; [|done]. apply list_elem_of_fmap in Hin as ([q z] & -> & Hin). apply list_elem_of_fmap. exists (q, z).
    split; [cbn; by rewrite decide_True|done]. }
  destruct H2 as [_ _|_ _|new H0 _]; [done|..].
  - destruct (Hst s (bound_to x ip port)) as (x' & Hin & Hu & Hpo). exists x'. split; [done|]. by rewrite Hu, Hpo.
  - destruct (Hst s (bound_to x ip new)) as (x' & Hin & Hu & _). exists x'. split; [done|]. by rewrite Hu.
Qed.

(** [udp_new_port] ends: after at most one try more than there are pcbs it has found the first port of the
    dynamic range, counting on from the last one and around, that no pcb has. *)
Theorem udp_new_port_spec s live own L : ninv s live own → ulist s L → ∃ k, (0 < k ≤ S (length L))%nat ∧ (length L ≤ 4)%nat ∧
  let port := port_at (udp_port (udps s)) k in
  0xc000 ≤ port ≤ 0xffff ∧ port_in port L = false ∧ (∀ j, (0 < j < k)%nat → port_in (port_at (udp_port (udps s)) j) L = true) ∧
  udp_new_port s = Clean (port, at_port s port).
Proof.
  intros Hi HL. destruct (new_port_run s live own L Hi HL) as (k & H1 & [H2 H3] & H4 & H5). exists k. split; [done|].
  split; [apply (ulist_size s live own L Hi HL)|]. destruct H2. by split_and!.
Qed.

(** C13: Whatever calls the clients make on pcbs, every call returns, the state stays well formed, and
    no two pcbs on the list have overlapping local ends unless both are marked [SOF_REUSEADDR]. *)
Theorem udp_ports_exclusive s live own L cs s' : ninv s live own → ulist s L → ends_ok s L → udp_run s cs s' →
  ∃ L', ninv s' live own ∧ ulist s' L' ∧ exclusive L' ∧ ∀ c, udp_allowed s' c → ∃ r s'', udp_exec s' c = Clean (r, s'').
Proof.
  intros Hi HL He Hr. destruct (udp_run_ok s cs s' Hr live own L Hi HL He) as (L' & Hi' & HL' & He'). exists L'. split_and!; try done; [apply He'|].
  intros c Ha. destruct (udp_call_run s' live own L' c Hi' HL' Ha) as (r & s'' & _ & H & _). by exists r, s''.
Qed.

(** C10: [udp_input] consumes the datagram.  The pcb that gets it is bound to its destination: a perfect match
    before an unconnected pcb, the first perfect match moving to the front of the list; the checksum is verified
    first, when there is one; a datagram for our address that nobody wants is answered with a port unreachable
    message, except to a broadcast or multicast address. *)
Theorem udp_input_spec `{HU : !UdpClients} s live own p b l H P n d L : ninv s live own → 0 < own p → received s p 0 b l → current_hdr s p b H → ifs_ok s n →
  content (data (pb s)) ((p, b) :: l) = Some <$> P → is_datagram s n P d → ulist s L →
  (∃ s' live', udp_input s p n = Clean s' ∧ ninv s' live' (add_own own p (-1))) ∧
  ((len b < UDP_HLEN ∧ udp_input s p n = udp_drop (UDP_STATS_INC Recv s) p Lenerr) ∨
   (UDP_HLEN ≤ len b ∧ ∃ s1, found_state (UDP_STATS_INC Recv s) live own d L s1 ∧ udp_fate s1 live own p b d H P L (udp_input s p n))) ∧
  (∀ pcb x, chosen_pcb d L = Some (pcb, x) → (pcb, x) ∈ L ∧ u_local_port x = dg_dport d ∧ local_match d x = true).
Proof.
  intros Hi Hp Hrv Hcur Hifs HP Hd HL. split; [|split].
  - destruct (udp_input_ok s live own p b l 0 H n Hi Hp Hrv ltac:(done) Hcur Hifs) as (s' & live' & H1 & H2 & _). by exists s', live'.
  - by apply (input_run s live own p b l H P n d L).
  - intros pcb x [Hin Hh]%chosen_hit. split; [done|]. cbn [snd] in Hh. unfold hit in Hh. by apply andb_prop in Hh as [->%Z.eqb_eq ?].
Qed.

(** C26: [raw_input] offers a packet to the raw pcbs of its protocol in the order of their list, until one eats it: every pcb
    that it is for gets it, in the state that the receive functions before it have left, and nobody after the one that
    eats it, which moves to the front of the list.  The answer says whether it was eaten, seen, or for nobody (and then
    nothing has changed); it gives up the caller's reference when it is eaten and stays as it was otherwise. *)
Theorem raw_input_spec `{HW : !RawClients} s live own p b l H n fi fc L : ninv s live own → 0 < own p → received s p 64 b l → has_hdr s b H → is_Some (netifs s !! n) →
  netifs s !! current_input_netif (ip_data (ips s)) = Some fi → netifs s !! current_netif (ip_data (ips s)) = Some fc →
  is_u32 (current_iphdr_src (ip_data (ips s))) → rlist s L →
  ∃ seen eater s1 s' live', let st := input_answer RAW_INPUT_NONE seen eater in raw_input s p n = Clean (st, s') ∧
    offers p (h_proto H) (ip4_addr_isbroadcast (current_iphdr_dest (ip_data (ips s))) fc) s L.*1 seen eater s1 ∧ input_left L.*1 eater s1 s' ∧
    (st = RAW_INPUT_EATEN → ninv s' live' (add_own own p (-1))) ∧
    (st ≠ RAW_INPUT_EATEN → ninv s' live' own ∧ content (data (pb s')) ((p, b) :: l) = content (data (pb s)) ((p, b) :: l)) ∧
    let no := Forall (λ kx, offered_in s fi fc H kx.2 = false) L in (st = RAW_INPUT_NONE ↔ no) ∧ (no → s' = s).
Proof.
  intros Hi Hp Hrv HH Hn Hfi Hfc Hsu HL. assert (ifs_ok s n) as Hifs by by split.
  destruct (raw_input_ok s live own p b l H n Hi Hp Hrv HH Hifs Hsu) as (st & s' & live' & Hrun & _ & H1 & H2 & H3).
  destruct (raw_input_offers s live own p b l H n fc L Hi Hp Hrv HH Hifs Hsu Hfc HL) as (seen & eater & s1 & s2 & Hrun2 & Hoff & Hleft).
  rewrite Hrun in Hrun2. injection Hrun2 as -> ->. exists seen, eater, s1, s2, live'. cbv zeta. split; [done|]. split; [done|]. split; [done|].
  split; [done|]. split; [by intros (? & _ & _ & _ & ?)%H2|]. by apply (H3 fi fc L).
Qed.

(** C28: Calls on raw pcbs answer what the operations on the list of pcbs without links and the stack of free structs answer,
    and the state stands for their result. *)
Theorem raw_calls_refine s live own σ cs : ninv s live own → raw_abs s σ → raw_calls_allowed σ cs →
  ∃ s', raw_calls s cs = Clean ((raw_spec_calls σ cs).1, s') ∧ ninv s' live own ∧ raw_abs s' (raw_spec_calls σ cs).2.
Proof. apply raw_calls_run. Qed.

(** C27: [raw_sendto] sends the data of the caller behind an IP header with the protocol of the pcb, or, with
    [RAW_FLAGS_HDRINCL], as it is, to the destination its header names; the interface is that of the pcb or of the route.
    It fails without a route, without memory, and when there is no header or too much data.
    The packet stays with the caller.  [raw_send] does the same to the remote address. *)
Theorem raw_sendto_spec s live own pcb x p b l P dst nl : ninv s live own → rpcbs (raws s) !! pcb = Some x →
  nchain nf_next (netifs s) (netif_list s) nl → 0 < own p → sendable s p b ((p, b) :: l) → ref b = 1 →
  content (data (pb s)) ((p, b) :: l) = Some <$> P → is_u32 dst →
  ∃ n r s' live', raw_sendto s pcb p (Some dst) = Clean (r, s') ∧ ninv s' live' own ∧ pcb_route s (r_ip x) dst nl n ∧
    raw_sendto_result s x p b P n dst r s' ∧ (dst = remote_ip (r_ip x) → raw_send s pcb p = Clean (r, s')).
Proof.
  intros Hi Hx Hnl Hp Hs Hr HP Hds. destruct (raw_sendto_run s live own pcb x p b l P dst nl Hi Hx Hnl Hp Hs Hr HP Hds)
    as (n & r & s' & live' & H1 & H2 & _ & H3 & H4). exists n, r, s', live'. split_and!; try done. intros ->. rewrite <- H1.
  unfold raw_send. by rewrite (get_rpcb_run s pcb x Hx), bind_clean.
Qed.

Lemma content_hdr (s : nst) p b l H P : content (data (pb s)) ((p, b) :: l) = Some <$> (H ++ P) → (20 ≤ length H ≤ 60)%nat →
  IPH_HL_BYTES (hd 0 H) = Z.of_nat (length H) → Z.of_nat (length H) ≤ len b → has_hdr s b H.
Proof.
  intros Hc H1 H2 H3. split; try done. pose proof (content_field _ _ _ _ _ 0 (Z.of_nat (length H)) Hc) as Hf. rewrite Z.add_0_r in Hf.
  rewrite <- Hf by lia. rewrite Nat2Z.id. change (Z.to_nat 0) with 0%nat. by rewrite drop_0, take_app_length.
Qed.

(** The IPv4 layer has begun to process a packet: the pcbs are [u], its variables [g]. *)
Definition begun (s : nst) (u : udp_st) (g : ip_globals) : nst := set_ip_data (set_udps s u) g.

Lemma begun_ok s live own p b H P n u g : ninv s live own → udp_ok u → received s p 64 b [] → content (data (pb s)) [(p, b)] = Some <$> (H ++ P) →
  (20 ≤ length H ≤ 60)%nat → IPH_HL_BYTES (hd 0 H) = Z.of_nat (length H) → Z.of_nat (length H) ≤ len b → is_Some (netifs s !! n) →
  current_netif g = n ∧ current_input_netif g = n → current_ip4_header g = payload b →
  is_u32 (current_iphdr_dest g) ∧ is_u32 (current_iphdr_src g) → current_ip_header_tot_len g = Z.of_nat (length H) →
  let hl := Z.of_nat (length H) in let s' := set_pb (begun s u g) (upd (pb (begun s u g)) p (shrink_front b hl)) in
  ninv s' live own ∧ received s' p 0 (shrink_front b hl) [] ∧ current_hdr s' p (shrink_front b hl) H ∧
  len (shrink_front b hl) = len b - hl ∧ content (data (pb s')) [(p, shrink_front b hl)] = Some <$> P.
Proof.
  intros Hi Hu Hrv Hc H1 H2 H3 Hn [G1 G2] G3 [G4 G5] G6 hl s'. set (s0 := begun s u g) in *.
  assert (ninv s0 live own) as Hi0 by (by apply ninv_ips, ninv_udps). assert (received s0 p 64 b []) as Hrv0 by (by destruct Hrv).
  assert (has_hdr s0 b H) as HH by (by apply (content_hdr s0 p b [] H P)).
  destruct (strip_hdr s0 live own p b [] H Hi0 Hrv0 HH) as (_ & Hi1 & Hrv1 & _). fold hl in Hi1, Hrv1.
  split; [exact Hi1|]. split; [eapply received_le; [exact Hrv1|lia]|]. split.
  - apply (strip_current s0 live own p b [] H n n Hi0 Hrv0 HH). split; try done. change (ip_data (ips s0)) with g. by rewrite G2.
  - destruct (received_facts _ _ _ _ _ _ _ Hi Hrv) as (_ & _ & _ & Hlen & Htot).
    assert (len (shrink_front b hl) = len b - hl) as Hl by (cbn; rewrite u16_id by (unfold is_u16, hl; lia); done).
    split; [exact Hl|]. rewrite content_cons, Hl. change (payload (shrink_front b hl)) with (payload b + hl). change (data (pb s')) with (data (pb s)).
    rewrite content_cons, (seg_split _ _ (len b) hl), fmap_app, <- app_assoc in Hc by (unfold hl; lia).
    pose proof (hh_seg _ _ _ HH) as Hs. change (data (pb s0)) with (data (pb s)) in Hs. fold hl in Hs. rewrite Hs in Hc. by apply app_inv_head in Hc.
Qed.

(** The same with raw pcbs, before the header is removed. *)
Definition begun_raw (s : nst) (r : raw_st) (g : ip_globals) : nst := set_ip_data (set_raws s r) g.

Lemma begun_raw_ok s live own p b l r g H P : ninv s live own → raw_ok r → received s p 64 b l → content (data (pb s)) ((p, b) :: l) = Some <$> (H ++ P) →
  (20 ≤ length H ≤ 60)%nat → IPH_HL_BYTES (hd 0 H) = Z.of_nat (length H) → Z.of_nat (length H) ≤ len b →
  ninv (begun_raw s r g) live own ∧ received (begun_raw s r g) p 64 b l ∧ has_hdr (begun_raw s r g) b H.
Proof.
  intros Hi Hr Hrv Hc H1 H2 H3. split; [by apply ninv_ips, ninv_raws|]. split; [by destruct Hrv|]. by apply (content_hdr (begun_raw s r g) p b l H P).
Qed.
End Spec.

(** ** Witnesses: a pcb on port 5000 of the small network *)

Definition ex_listener : udp_pcb := UdpPcb (IpPcb IPADDR_ANY IPADDR_ANY NETIF_NO_INDEX 0 0 255) NULL 0 5000 0 70000 1.
Definition ex_upcbs : upcb_list := [(61000, ex_listener)].
Definition ex_udp : udp_st := UdpSt 61000 0xc000 {[61000 := ex_listener]} [61100; 61200; 61300] proto_zero.

Lemma ex_udp_bound : udp_ok ex_udp.
Proof.
  apply (udp_ok_intro _ ex_upcbs); cbn.
  - econstructor; [discriminate|reflexivity|constructor].
  - repeat constructor. discriminate.
  - intros n x [<- <-]%lookup_singleton_Some. split; [discriminate|]. repeat split; discriminate || reflexivity.
  - intros n Hn. assert (n ≠ 61000 ∧ n ≠ NULL) as [H1 H2] by (repeat (apply elem_of_cons in Hn as [->|Hn]; [done|]); by apply elem_of_nil in Hn).
    split; [done|]. by apply lookup_singleton_ne.
  - decide_now.
  - reflexivity.
  - split; discriminate.
Qed.

Definition ex_bound : nst ex_M := set_udps ex_net ex_udp.

Lemma ex_bound_ok : ninv ex_bound ∅ own0.
Proof. apply ninv_udps; [exact ex_net_ok|exact ex_udp_bound]. Qed.

Lemma ex_ulist (s : nst ex_M) : udps s = ex_udp → ulist s ex_upcbs.
Proof. intros Hs. unfold ulist. rewrite Hs. econstructor; [discriminate|reflexivity|constructor]. Qed.

Lemma ex_ends (s : nst ex_M) : udps s = ex_udp → ends_ok s ex_upcbs.
Proof.
  intros Hs. split.
  - intros p x q y [= -> ->]%list_elem_of_singleton [= -> ->]%list_elem_of_singleton Hne. done.
  - rewrite Hs. intros p x Hx Hn. change (({[61000 := ex_listener]} : gmap Z udp_pcb) !! p = Some x) in Hx. apply lookup_singleton_Some in Hx as [<- <-]. destruct Hn. left.
Qed.

Lemma udp_new_port_spec_witness : ∃ k, (0 < k ≤ 2)%nat ∧ udp_new_port ex_bound = Clean (port_at 0xc000 k, at_port ex_bound (port_at 0xc000 k)).
Proof.
  destruct (udp_new_port_spec ex_bound ∅ own0 ex_upcbs ex_bound_ok (ex_ulist ex_bound eq_refl)) as (k & H1 & _ & _ & _ & _ & H2).
  exists k. split; [exact H1|exact H2].
Defined.

Lemma udp_bind_spec_witness : ∃ s' L', udp_bind ex_bound 61000 (Some ex_ip) 53 = Clean (ERR_OK, s') ∧ ninv s' ∅ own0 ∧ ulist s' L'.
Proof.
  destruct (udp_bind_spec ex_bound ∅ own0 61000 ex_listener ex_ip 53 ex_upcbs ex_bound_ok (ex_ulist ex_bound eq_refl) eq_refl) as (r & s' & L' & H1 & H2 & H3 & H4 & _).
  - split; discriminate || reflexivity.
  - split; discriminate || reflexivity.
  - exists s', L'. assert (r = ERR_OK) as Hr.
    { inversion H2 as [? Ht| |]; [exfalso; revert Ht; vm_compute; discriminate|reflexivity|reflexivity]. }
    rewrite Hr in H1. split; [exact H1|]. split; [exact H3|exact H4].
Defined.

(** The calls of a server. *)
Definition ex_calls : list udp_call := [UNew; UBind 61100 ex_ip 5001].

Lemma ex_calls_run : ∃ s', udp_run ex_bound ex_calls s'.
Proof.
  destruct (udp_call_run ex_bound ∅ own0 ex_upcbs UNew ex_bound_ok (ex_ulist ex_bound eq_refl) I) as (r1 & s1 & L1 & H1 & Hi1 & HL1 & _).
  assert (upcbs (udps s1) !! 61100 = Some udp_fresh) as Hx by (injection H1 as <- <-; reflexivity).
  destruct (udp_call_run s1 ∅ own0 L1 (UBind 61100 ex_ip 5001) Hi1 HL1) as (r2 & s2 & L2 & H2 & _).
  { split; [by eexists|]. split; split; discriminate || reflexivity. }
  exists s2. apply (udp_run_cons _ UNew r1 s1 [] _ _ I H1). apply (udp_run_cons s1 (UBind 61100 ex_ip 5001) r2 s2 [] [] s2); [|exact H2|constructor].
  split; [by eexists|]. split; split; discriminate || reflexivity.
Qed.

Lemma udp_ports_exclusive_witness : ∃ s' L', udp_run ex_bound ex_calls s' ∧ ninv s' ∅ own0 ∧ ulist s' L' ∧ exclusive L'.
Proof.
  destruct ex_calls_run as [s' Hr].
  destruct (udp_ports_exclusive ex_bound ∅ own0 ex_upcbs ex_calls s' ex_bound_ok (ex_ulist ex_bound eq_refl) (ex_ends ex_bound eq_refl) Hr) as (L' & H1 & H2 & H3 & _).
  exists s', L'. split; [exact Hr|]. split; [exact H1|]. split; [exact H2|exact H3].
Defined.

Lemma udp_sendto_spec_witness : ∃ s q P n r s' live', udp_sendto s 61000 q (Some ex_gw) 7 = Clean (r, s') ∧ ninv s' live' (add_own own0 q 1) ∧
  pcb_route s (u_ip ex_listener) ex_gw [ex_nif] n ∧ udp_sendto_result s 61000 ex_listener q (ram_pbuf q PBUF_TRANSPORT 100) P n ex_gw 7 r s'.
Proof.
  destruct ex_packet_net as (q & cap & s1 & Hq & Hb & _ & Hi). pose proof (ex_sendable q s1 100 Hq Hb) as [S1 S2 S3 S4 S5 S6].
  set (s := set_udps (set_pb ex_net s1) ex_udp). assert (ninv s (<[q:=(SrcHeap, cap)]> ∅) (add_own own0 q 1)) as Hi1 by (apply ninv_udps; [exact Hi|exact ex_udp_bound]).
  set (b := ram_pbuf q PBUF_TRANSPORT 100) in *. assert (sendable s q b [(q, b)]) as Hs by (split; assumption).
  destruct (content_some _ _ _ _ _ Hi1 (sd_chain _ _ _ _ Hs)) as [P HP].
  destruct (udp_sendto_spec s _ _ 61000 ex_listener ex_upcbs q b [] P ex_gw 7 [ex_nif] Hi1 (ex_ulist s eq_refl) eq_refl) as (n & r & s' & live' & H1 & H2 & H3 & H4 & _).
  - econstructor; [discriminate|reflexivity|constructor].
  - apply ex_own_pos.
  - exact Hs.
  - reflexivity.
  - exact HP.
  - split; discriminate || reflexivity.
  - exists s, q, P, n, r, s', live'. split; [exact H1|]. split; [exact H2|]. split; [exact H3|exact H4].
Defined.

(** A datagram with 18 bytes of data, from port 1234 of the gateway, behind its IP header. *)
Definition ex_sender : udp_pcb := UdpPcb (IpPcb IPADDR_ANY IPADDR_ANY NETIF_NO_INDEX 0 0 255) NULL 0 1234 0 0 0.
Definition ex_payload : list Z := replicate 18 7.
Definition ex_dgram : list Z := udp_data ex_sender ex_gw ex_ip 5000 ex_payload.
Definition ex_udp_ip : list Z := [69; 0; 0; 46; 0; 1; 0; 0; 64; 17; 98; 174; 10; 0; 2; 2; 10; 0; 2; 15].

(** It is being processed. *)
Definition ex_globals : ip_globals := IpGlobals ex_nif ex_nif 34272 20 ex_gw ex_ip.
Definition ex_before : nst ex_M := begun (ex_got (ex_udp_ip ++ ex_dgram)) ex_udp ex_globals.
Definition ex_d : datagram := Datagram ex_netif ex_netif ex_gw ex_ip 1234 5000 false.

Lemma ex_dgram_ok : length (ex_udp_ip ++ ex_dgram) = 46%nat ∧ Forall is_u8 (ex_udp_ip ++ ex_dgram).
Proof. split; [vm_compute; reflexivity|]. apply Forall_app_2; [decide_now|]. apply Forall_app_2; [apply udp_hdr_bytes|decide_now]. Qed.

Lemma ex_datagram_in : ∃ live b, let s := set_pb ex_before (upd (pb ex_before) ex_p b) in
  ninv s live (add_own own0 ex_p 1) ∧ received s ex_p 0 b [] ∧ current_hdr s ex_p b ex_udp_ip ∧ len b = 26 ∧
  content (data (pb s)) [(ex_p, b)] = Some <$> ex_dgram.
Proof.
  destruct ex_dgram_ok as [HL HB]. destruct (ex_got_ok (ex_udp_ip ++ ex_dgram) HL HB) as (live & b & Hi & Hrv & Hp & Hl & _ & Hc).
  destruct (begun_ok (ex_got (ex_udp_ip ++ ex_dgram)) live (add_own own0 ex_p 1) ex_p b ex_udp_ip ex_dgram ex_nif ex_udp ex_globals Hi ex_udp_bound Hrv Hc)
    as (H1 & H2 & H3 & H4 & H5).
  - cbn. lia.
  - reflexivity.
  - rewrite Hl. discriminate.
  - by exists ex_netif.
  - split; reflexivity.
  - rewrite Hp. reflexivity.
  - split; split; discriminate || reflexivity.
  - reflexivity.
  - change (Z.of_nat (length ex_udp_ip)) with 20 in *. exists live, (shrink_front b 20). split; [exact H1|]. split; [exact H2|]. split; [exact H3|].
    split; [rewrite H4, Hl; reflexivity|exact H5].
Qed.

Lemma ex_is_datagram q : is_datagram (set_pb ex_before q) ex_nif ex_dgram ex_d.
Proof. split; [split; reflexivity|]. split; [vm_compute; reflexivity|]. split; [vm_compute; reflexivity|]. exists ex_netif. split; reflexivity. Qed.

Lemma ex_chosen : chosen_pcb ex_d ex_upcbs = Some (61000, ex_listener).
Proof. vm_compute. reflexivity. Qed.

Lemma udp_input_spec_witness : ∃ s b d, processed s ex_nif d ∧ chosen_pcb d ex_upcbs = Some (61000, ex_listener) ∧ len b = 26 ∧
  ∃ s' live', udp_input s ex_p ex_nif = Clean s' ∧ ninv s' live' (add_own (add_own own0 ex_p 1) ex_p (-1)).
Proof.
  destruct ex_datagram_in as (live & b & Hi & Hrv & Hcur & Hl & Hc). set (s := set_pb ex_before _) in *.
  exists s, b, ex_d. split; [apply ex_is_datagram|]. split; [exact ex_chosen|]. split; [exact Hl|].
  apply (udp_input_spec s live (add_own own0 ex_p 1) ex_p b [] ex_udp_ip ex_dgram ex_nif ex_d ex_upcbs Hi (ex_own_pos ex_p) Hrv Hcur).
  - split; exists ex_netif; reflexivity.
  - exact Hc.
  - apply ex_is_datagram.
  - apply ex_ulist. reflexivity.
Defined.

(** The sender has the data in a packet. *)
Definition ex_sender_udp : udp_st := UdpSt 61000 0xc000 {[61000 := ex_sender]} [61100; 61200; 61300] proto_zero.

Lemma ex_sender_ok : udp_ok ex_sender_udp.
Proof.
  apply (udp_ok_intro _ [(61000, ex_sender)]); cbn.
  - econstructor; [discriminate|reflexivity|constructor].
  - repeat constructor. discriminate.
  - intros n x [<- <-]%lookup_singleton_Some. split; [discriminate|]. repeat split; discriminate || reflexivity.
  - intros n Hn. assert (n ≠ 61000 ∧ n ≠ NULL) as [H1 H2] by (repeat (apply elem_of_cons in Hn as [->|Hn]; [done|]); by apply elem_of_nil in Hn).
    split; [done|]. by apply lookup_singleton_ne.
  - decide_now.
  - reflexivity.
  - split; discriminate.
Qed.

Lemma ex_sender_packet : ∃ t live q, let b := ram_pbuf q PBUF_TRANSPORT 18 in ninv t live (add_own own0 q 1) ∧ udps t = ex_sender_udp ∧
  sendable t q b [(q, b)] ∧ content (data (pb t)) [(q, b)] = Some <$> ex_payload.
Proof.
  destruct (ninv_alloc_ram ex_net ∅ own0 PBUF_TRANSPORT 18 ex_net_ok) as (m & [[Ha _]|(q & cap & Hq & Ha & _ & _ & Hi)]); [done|done|..].
  - exfalso. assert (result ex_s0 (EAlloc PBUF_TRANSPORT 18 PBUF_RAM) ≠ NULL) as Hr by (vm_compute; discriminate).
    apply Hr. unfold result, pexec. change (pbuf_alloc ex_cff ex_s0 PBUF_TRANSPORT 18 PBUF_RAM = Clean (NULL, set_pmem ex_s0 m)) in Ha. by rewrite Ha.
  - set (b := ram_pbuf q PBUF_TRANSPORT 18) in *. set (s1 := set_pb ex_net _) in Hi. assert (pbufs (pb s1) !! q = Some b) as Hb by apply lookup_insert_eq.
    assert (mapped (data (pb s1)) (payload b) (Z.of_nat (length ex_payload))) as Hm.
    { intros x Hx. apply (ninv_mapped _ _ _ _ _ Hi Hb). exact Hx. }
    assert (sendable s1 q b [(q, b)]) as Hs by exact (ex_sendable q _ 18 Hq Hb).
    exists (set_udps (over s1 (payload b) ex_payload) ex_sender_udp), (<[q:=(SrcHeap, cap)]> ∅), q. split; [|split; [reflexivity|split; [exact (sendable_udps _ _ _ _ _ (sendable_over s1 (payload b) ex_payload q b [(q, b)] Hs))|]]].
    + apply ninv_udps; [apply ninv_over; [exact Hi| |exact Hm]|exact ex_sender_ok]. decide_now.
    + rewrite content_cons. unfold content. rewrite app_nil_r. apply put_seg. reflexivity.
Qed.

Lemma ex_room q : add_header_fits q (ram_pbuf q PBUF_TRANSPORT 18) 8 false.
Proof.
  split; [discriminate|]. split; [reflexivity|]. split; [|by intros []]. intros _. cbn [ram_pbuf payload]. change SIZEOF_STRUCT_PBUF with 16. change PBUF_TRANSPORT with 56. lia.
Qed.

(** What the sender has built is the datagram of the example. *)
Lemma ex_filled t live q t2 c lq : let b := ram_pbuf q PBUF_TRANSPORT 18 in let t1 := set_pb t (upd (pb t) q (grow b 8)) in ninv t live (add_own own0 q 1) → udps t = ex_sender_udp →
  sendable t q b [(q, b)] → content (data (pb t)) [(q, b)] = Some <$> ex_payload → header_room t (add_own own0 q 1) q b ex_payload q t1 →
  udp_fill_hdr t1 61000 q ex_ip 5000 ex_gw = Clean t2 → chained (pbufs (pb t2)) q ((q, c) :: lq) → content (data (pb t2)) ((q, c) :: lq) = Some <$> ex_dgram.
Proof.
  intros b t1 Hi Hu Hs Hc [_ _ _ (live1 & c1 & l1 & J & Hi1 & Hsq & _ & Hlc & Hfo & HJ & Hc1 & _)] Hfill Hch.
  destruct (udp_fill_run t1 live1 _ 61000 ex_sender q c1 l1 J ex_payload ex_ip 5000 ex_gw Hi1) as (Hfill' & _ & HD); try done.
  - cbn [udps t1 set_pb]. by rewrite Hu.
  - rewrite Hfill in Hfill'. injection Hfill' as ->. by rewrite (chained_det _ _ _ _ Hch (sd_chain _ _ _ _ Hsq)).
Qed.

Lemma udp_roundtrip_witness : ∃ s b s1, udp_input s ex_p ex_nif = udp_recv_fn 70000 s1 1 61000 ex_p ex_gw 1234 ∧
  content (data (pb s1)) [(ex_p, shrink_front b UDP_HLEN)] = Some <$> ex_payload.
Proof.
  destruct ex_sender_packet as (t & livet & q0 & Hit & Hut & Hst & Hct).
  destruct (room_in_place t livet (add_own own0 q0 1) q0 _ [] ex_payload Hit (ex_own_pos q0) Hst eq_refl Hct (ex_room q0)) as [Hroom Hhr].
  assert (udp_header_room t q0 = Clean (q0, set_pb t (upd (pb t) q0 (grow (ram_pbuf q0 PBUF_TRANSPORT 18) 8)))) as Hrun.
  { unfold udp_header_room. rewrite Hroom, bind_clean. reflexivity. }
  destruct ex_datagram_in as (live & b & Hi & Hrv & Hcur & Hl & Hc). set (s := set_pb ex_before _) in *.
  destruct (udp_roundtrip t livet (add_own own0 q0 1) 61000 ex_sender q0 (ram_pbuf q0 PBUF_TRANSPORT 18) [] ex_payload ex_gw ex_ip 5000 q0 (set_pb t (upd (pb t) q0 (grow (ram_pbuf q0 PBUF_TRANSPORT 18) 8))) Hit) as (t2 & c & lq & Hfill & Hch & Hgo).
  - rewrite Hut. reflexivity.
  - apply ex_own_pos.
  - exact Hst.
  - reflexivity.
  - exact Hct.
  - reflexivity.
  - split; discriminate || reflexivity.
  - split; discriminate || reflexivity.
  - split; discriminate || reflexivity.
  - exact Hrun.
  - apply (hr_null _ _ _ _ _ _ _ Hhr).
  - destruct (Hgo ex_dgram (ex_filled t livet q0 t2 c lq Hit Hut Hst Hct Hhr Hfill Hch) s live (add_own own0 ex_p 1) ex_p b [] ex_udp_ip ex_nif ex_d ex_upcbs 61000 ex_listener Hi (ex_own_pos ex_p) Hrv Hcur)
      as (_ & _ & s1 & H1 & _ & H2).
    + rewrite Hl. discriminate.
    + exact Hc.
    + apply ex_is_datagram.
    + reflexivity.
    + reflexivity.
    + apply ex_ulist. reflexivity.
    + exact ex_chosen.
    + discriminate.
    + exists s, b, s1. split; [exact H1|exact H2].
Defined.

(** A raw pcb for UDP whose receive function eats what it gets. *)
Definition ex_raw_pcb : raw_pcb := set_r_recv (set_r_protocol raw_pcb_zero IP_PROTO_UDP) 1 0.
Definition ex_rpcbs : rpcb_list := [(62000, ex_raw_pcb)].
Definition ex_raw : raw_st := RawSt 62000 {[62000 := ex_raw_pcb]} [62100; 62200; 62300].

Lemma ex_raw_bound : raw_ok ex_raw.
Proof.
  apply (raw_ok_intro _ ex_rpcbs); cbn.
  - econstructor; [discriminate|reflexivity|constructor].
  - intros n x [<- <-]%lookup_singleton_Some. split; [discriminate|]. repeat split; discriminate || reflexivity.
  - intros n Hn. assert (n ≠ 62000 ∧ n ≠ NULL) as [H1 H2] by (repeat (apply elem_of_cons in Hn as [->|Hn]; [done|]); by apply elem_of_nil in Hn).
    split; [done|]. by apply lookup_singleton_ne.
  - decide_now.
  - reflexivity.
Qed.

Lemma ex_offers s s1 seen eater : rpcbs (raws s) !! 62000 = Some ex_raw_pcb → offered_now s (h_proto ex_udp_ip) false ex_raw_pcb = true →
  offers ex_p (h_proto ex_udp_ip) false s [62000] seen eater s1 → seen = [62000] ∧ eater = Some 62000.
Proof.
  intros Hx Ho. inversion 1; subst; try (assert (x = ex_raw_pcb) as -> by congruence); [congruence| |done].
  match goal with Hc : raw_recv_fn _ _ _ _ _ _ = _ |- _ => revert Hc end. cbn [raw_recv_fn ex_upper r_recv ex_raw_pcb set_r_recv set_r_protocol]. rewrite Z.eqb_refl.
  unfold ex_drop, free_pbuf. destruct (withp _ _) as [[]| |]; cbn; congruence.
Qed.

(** The listener eats the packet. *)
Lemma raw_input_spec_witness : ∃ s s1 s', raw_input s ex_p ex_nif = Clean (RAW_INPUT_EATEN, s') ∧
  offers ex_p (h_proto ex_udp_ip) false s [62000] [62000] (Some 62000) s1 ∧ input_left [62000] (Some 62000) s1 s'.
Proof.
  destruct ex_dgram_ok as [HL HB]. destruct (ex_got_ok (ex_udp_ip ++ ex_dgram) HL HB) as (live & b & Hi & Hrv & Hp & Hl & _ & Hc).
  destruct (begun_raw_ok (ex_got (ex_udp_ip ++ ex_dgram)) live (add_own own0 ex_p 1) ex_p b [] ex_raw ex_globals ex_udp_ip ex_dgram Hi ex_raw_bound Hrv Hc) as (H1 & H2 & H3).
  - cbn. lia.
  - reflexivity.
  - rewrite Hl. discriminate.
  - set (s := begun_raw _ _ _) in *. assert (netifs s !! ex_nif = Some ex_netif) as Hn by reflexivity.
    destruct (raw_input_spec s live (add_own own0 ex_p 1) ex_p b [] ex_udp_ip ex_nif ex_netif ex_netif ex_rpcbs H1 (ex_own_pos ex_p) H2 H3) as (seen & eater & s1 & s' & live' & H4 & H5 & H6 & _).
    + exists ex_netif. exact Hn.
    + exact Hn.
    + exact Hn.
    + split; discriminate || reflexivity.
    + econstructor; [discriminate|reflexivity|constructor].
    + change (ip4_addr_isbroadcast _ ex_netif) with false in H5. destruct (ex_offers s s1 seen eater eq_refl eq_refl H5) as [Hse ->]. subst seen.
      exists s, s1, s'. split; [exact H4|]. split; [exact H5|exact H6].
Defined.

Definition ex_raw_calls : list raw_call := [RNew 17; RBind 62000 ex_ip; RNew 1; RConnect 62100 ex_gw; RRemove 62000].

Lemma raw_calls_refine_witness : ∃ s', raw_calls ex_net ex_raw_calls = Clean ([62000; ERR_OK; 62100; ERR_OK; 0], s') ∧ ninv s' ∅ own0 ∧
  raw_abs s' ([(62100, rconnected_to (raw_fresh 1) ex_gw)], [62000; 62200; 62300]).
Proof.
  apply (raw_calls_refine ex_net ∅ own0 ([], ex_rpool) ex_raw_calls ex_net_ok).
  - exists []. split; [constructor|]. split; reflexivity.
  - repeat split; try discriminate; try reflexivity; try (left; fail); vm_compute; repeat constructor.
Defined.

Lemma raw_sendto_spec_witness : ∃ s q P n r s' live', raw_sendto s 62000 q (Some ex_gw) = Clean (r, s') ∧ ninv s' live' (add_own own0 q 1) ∧
  raw_sendto_result s ex_raw_pcb q (ram_pbuf q PBUF_TRANSPORT 100) P n ex_gw r s'.
Proof.
  destruct ex_packet_net as (q & cap & s1 & Hq & Hb & _ & Hi). pose proof (ex_sendable q s1 100 Hq Hb) as [S1 S2 S3 S4 S5 S6].
  set (s := set_raws (set_pb ex_net s1) ex_raw). assert (ninv s (<[q:=(SrcHeap, cap)]> ∅) (add_own own0 q 1)) as Hi1 by (apply ninv_raws; [exact Hi|exact ex_raw_bound]).
  set (b := ram_pbuf q PBUF_TRANSPORT 100) in *. assert (sendable s q b [(q, b)]) as Hs by (split; assumption).
  destruct (content_some _ _ _ _ _ Hi1 (sd_chain _ _ _ _ Hs)) as [P HP].
  destruct (raw_sendto_spec s _ _ 62000 ex_raw_pcb q b [] P ex_gw [ex_nif] Hi1 eq_refl) as (n & r & s' & live' & H1 & H2 & _ & H4 & _).
  - econstructor; [discriminate|reflexivity|constructor].
  - apply ex_own_pos.
  - exact Hs.
  - reflexivity.
  - exact HP.
  - split; discriminate || reflexivity.
  - exists s, q, P, n, r, s', live'. split; [exact H1|]. split; [exact H2|exact H4].
Defined.

(** ** Another address of an interface *)

Definition ex_at (ip next : Z) : udp_pcb := UdpPcb (IpPcb ip IPADDR_ANY NETIF_NO_INDEX 0 0 255) next 0 5000 0 70000 1.
Definition ex_pair : udp_st := UdpSt 61000 0xc000 (<[61000 := ex_at ex_ip 61100]> {[61100 := ex_at ex_gw NULL]}) [61200; 61300] proto_zero.
Definition ex_pair_list : upcb_list := [(61000, ex_at ex_ip 61100); (61100, ex_at ex_gw NULL)].

Lemma ex_pair_ok : udp_ok ex_pair.
Proof.
  apply (udp_ok_intro _ ex_pair_list); cbn.
  - econstructor; [discriminate|reflexivity|]. econstructor; [discriminate|reflexivity|constructor].
  - repeat constructor; discriminate.
  - intros n x [[<- <-]|[_ [<- <-]%lookup_singleton_Some]]%lookup_insert_Some; (split; [discriminate|]; repeat split; discriminate || reflexivity).
  - intros n Hn. assert (n ≠ 61000 ∧ n ≠ 61100 ∧ n ≠ NULL) as (H1 & H2 & H3) by (repeat (apply elem_of_cons in Hn as [->|Hn]; [done|]); by apply elem_of_nil in Hn).
    split; [done|]. rewrite lookup_insert_ne by done. by apply lookup_singleton_ne.
  - decide_now.
  - reflexivity.
  - split; discriminate.
Qed.

(** When an interface gets another address, [udp_netif_ip_addr_changed] gives the new address to the pcbs bound
    to the old one without the check of [udp_bind]: two pcbs with the same port and different addresses can end up with the
    same local end, although neither allows it. *)
Theorem udp_netif_ip_addr_changed_overlap : ∃ (s : nst ex_M) L s' L', ninv s ∅ own0 ∧ ulist s L ∧ ends_ok s L ∧
  udp_netif_ip_addr_changed s (Some ex_ip) (Some ex_gw) = Clean s' ∧ ninv s' ∅ own0 ∧ ulist s' L' ∧ ¬ exclusive L'.
Proof.
  set (s := set_udps ex_net ex_pair). assert (ninv s ∅ own0) as Hi by (apply ninv_udps; [exact ex_net_ok|exact ex_pair_ok]).
  assert (ulist s ex_pair_list) as HL by (econstructor; [discriminate|reflexivity|]; econstructor; [discriminate|reflexivity|constructor]).
  destruct (netif_changed_run s ∅ own0 ex_pair_list ex_ip ex_gw Hi HL) as (s' & H1 & H2 & H3 & _); [split; discriminate || reflexivity|reflexivity|reflexivity|].
  exists s, ex_pair_list, s', (moved ex_ip ex_gw <$> ex_pair_list). split; [exact Hi|]. split; [exact HL|]. split; [|split; [exact H1|split; [exact H2|split; [exact H3|]]]].
  - split.
    + assert (∀ n m, ¬ overlap (ex_at ex_ip n) (ex_at ex_gw m)) as Hno by (intros n m [_ [Hx|[Hx|Hx]]]; discriminate Hx).
      assert (∀ p x, (p, x) ∈ ex_pair_list → (p = 61000 ∧ x = ex_at ex_ip 61100) ∨ (p = 61100 ∧ x = ex_at ex_gw NULL)) as Hel.
      { intros p x [Hp|[Hp|[]%elem_of_nil]%elem_of_cons]%elem_of_cons; injection Hp as -> ->; [by left|by right]. }
      intros p x q y [[-> ->]|[-> ->]]%Hel [[-> ->]|[-> ->]]%Hel Hne Ho; [destruct (Hne eq_refl)|destruct (Hno 61100 NULL Ho)| |destruct (Hne eq_refl)].
      destruct (Hno 61100 NULL (overlap_sym _ _ Ho)).
    + intros p x Hx Hn. exfalso. apply Hn. change ((<[61000 := ex_at ex_ip 61100]> {[61100 := ex_at ex_gw NULL]} : gmap Z udp_pcb) !! p = Some x) in Hx.
      apply lookup_insert_Some in Hx as [[<- _]|[_ [<- _]%lookup_singleton_Some]]; [left|right; left].
  - intros Hx. destruct (Hx 61000 (ex_at ex_gw 61100) 61100 (ex_at ex_gw NULL)) as [Hs _]; [left|right; left|discriminate|split; [reflexivity|by left]|discriminate Hs].
Qed.
